(* ===== verification/_CoqProject ===== *)
-Q . S2P
Prelude.v
GoStrings.v
GoJson.v
Sha256.v
Sdk.v
RefEnv.v
BridgeTypes.v
BridgeKeeper.v
BridgeServer.v
BridgeFacts.v
BridgeSpec.v
BridgeRefine.v
BridgeTheorems.v
BridgeSafety.v
BridgeGenesis.v
SdkMsgs.v
Admission.v
AdmissionTheorems.v
Incentives.v
IncentivesTheorems.v
IncentivesSafety.v
AccessList.v
SnapshotStore.v
StateDB.v
StateDBFacts.v
StateDBOps.v
EvmCoin.v
FeeMarket.v
FeeMarketTheorems.v
Precompile.v
StateDBRevert.v
VmKeeper.v
VmKeeperFacts.v
StateDBCommit.v
VmRef.v
StateDBTheorems.v
PrecompileTheorems.v
Permissions.v
EvmTx.v
EvmAnte.v
EvmAnteTheorems.v
CosmosFees.v
StateTransition.v
StateTransitionTheorems.v
GoHeap.v
TxList.v
TxListTheorems.v
PricedList.v
PricedListTheorems.v
TxOrder.v
TxOrderTheorems.v
ReapList.v
ReapListTheorems.v
TxStores.v
TxStoresTheorems.v
Erc20Types.v
Erc20Keeper.v
Erc20Convert.v
Erc20Precompile.v
Erc20Facts.v
Erc20Registry.v
Erc20Backing.v
Erc20Genesis.v
Erc20Theorems.v
Erc20TokenTheorems.v
VmGenesis.v
VmGenesisTheorems.v
PrecompileMsgs.v
IbcCallbacks.v
IbcCallbacksTheorems.v
StakingPrecompile.v
DistributionPrecompile.v
GovPrecompile.v
SlashingPrecompile.v
Ics20Precompile.v
BankPrecompile.v
PrecompileMsgFacts.v
PrecompileMsgTheorems.v
Ics20Theorems.v
