(* ===== verification/Prelude.v ===== *)
(** * Xitcoin pos-chain: verification development (root file)

    A shallow embedding in Rocq of the parts of the chain that hold value or
    decide who may change it, with the theorems that make them correct. Go
    functions are Rocq functions with the same names where the syntax allows it
    (a method [T.f] is [T_f] or carries the prefix of its module); the
    definitions run, and every theorem with hypotheses is evaluated at a
    concrete input.

    ** How Go is modelled

    - A fallible function returns an [outcome]: [Ok], [Err] (a returned error)
      or [Panic]. Stateful code is in the monad [M S A := S -> outcome A * S]
      (this file); the state is returned on every path, so writes made before an
      error are seen, and a transaction that discards them is a separate
      definition.
    - Strings and byte slices are [string] (bytes); machine integers are [Z]
      with their wrap-around written out ([u64], [u256], the [uint8] counter of
      precompile calls); [big.Int] is [Z]; a nil pointer or slice is [None]
      where the source distinguishes it.
    - A KV store is a map of bytes with the source's keys, iterated in the
      order of the keys (Sdk.v). Events are kept where the code reads them
      (precompiles), and left out elsewhere, as are logging, tracing and
      telemetry.
    - Go's own library is defined: UTF-8, [strings], [hex], [strconv],
      [binary.BigEndian] (GoStrings.v), [encoding/json] printing and parsing
      with the round trip (GoJson.v), SHA-256 with test vectors (Sha256.v),
      [sort.Search] (StateDB.v), [container/heap] (GoHeap.v). A [range] over a
      map visits it in an order the language leaves open: the order is a
      parameter (the class [MapRange]) and the theorems hold for each.
    - Code outside the repository (the Cosmos SDK, [cosmossdk.io/math],
      go-ethereum) is a type class: its operations, with the documented
      behaviour the code relies on as laws (Sdk.v, the first sections of
      FeeMarket.v, VmKeeper.v, SnapshotStore.v, Precompile.v, EvmTx.v,
      EvmAnte.v, StateTransition.v, TxList.v, PricedList.v, TxOrder.v,
      Erc20Keeper.v, Erc20Convert.v, Erc20Backing.v and Erc20TokenTheorems.v).
      RefEnv.v, VmRef.v and the first sections of FeeMarketTheorems.v,
      EvmAnteTheorems.v, StateTransitionTheorems.v and Erc20Theorems.v give
      executable instances that satisfy the laws; the witnesses are evaluated
      with them.

    ** The bridge, src/x/bridge

    BridgeTypes.v is types/ (attestations, control and pause actions, their
    digests and identifiers, 2-of-3 signatures, route configuration, messages),
    BridgeKeeper.v is keeper/ (replay protection, limits, settlement, pause,
    resume, configuration), BridgeServer.v the message server and module.go.
    BridgeSpec.v is an abstract transition system, and BridgeFacts.v and
    BridgeRefine.v prove that the handlers and the specification simulate each
    other. BridgeTheorems.v and BridgeSafety.v are
    about every run of messages interleaved with the rest of the chain: supply
    is backed by the outstanding amount, nothing is replayed, a paused route
    moves nothing until two signers resume it, limits hold. BridgeTheorems.v
    also has the run the witnesses use and what signatures and identifiers
    bind; BridgeGenesis.v is about export and import, when the import accepts
    the export and what they lose.

    ** Validator admission and incentives, src/x/validatoradmission,
       src/x/validatorincentives

    Admission.v and AdmissionTheorems.v: the allow-list, its capacity, its
    authority, the ante handler and the ways around it, genesis. SdkMsgs.v is
    the message tree of a transaction with ante/cosmos/authz.go and
    reject_msgs.go. Incentives.v, IncentivesTheorems.v and IncentivesSafety.v:
    the treasury, the period arithmetic, the payment of a block, of a whole
    period and of any run, and genesis.

    ** The fee market, src/x/feemarket

    FeeMarket.v: parameters, the EIP-1559 base fee, the block handlers, the
    message server and genesis; FeeMarketTheorems.v: the bounds of the base fee
    and that the begin blocker never halts the chain.

    ** The ante handlers, src/ante

    SdkMsgs.v is described above. EvmTx.v is the Ethereum message with its fees
    (x/vm/types/{msg,tx,utils,scaling}.go, x/vm/keeper/fees.go) and the search
    for a gas limit; Permissions.v the access control of the EVM and its opcode
    hooks (x/vm/types/{permissions,opcodes_hooks}.go); EvmAnte.v the mono
    decorator of ante/evm with every step, down to the deduction of the fee.
    EvmAnteTheorems.v shows what an accepted transaction has proved and paid,
    and that it is never accepted twice. CosmosFees.v is the dynamic fee checker
    and the minimum gas price of Cosmos transactions, with the bounds of what
    they pay.

    ** The EVM state, src/x/vm/statedb, src/x/vm/store, src/x/vm/keeper,
       src/precompiles/common

    StateDB.v is the state database go-ethereum's interpreter works on: state
    objects, journal, snapshots, commit, over the interface of its keeper (the
    class [StateKeeper]); AccessList.v its access list and transient storage;
    SnapshotStore.v the snapshot stores under the precompiles. VmKeeper.v is
    the keeper and implements the interface, on EvmCoin.v (the coin and its
    decimals). Precompile.v runs a stateful precompile.

    StateDBFacts.v defines when two states are observationally equal;
    with StateDBOps.v it shows operation by operation that the journal entries
    undo it; StateDBRevert.v does so for precompile calls and lifts this to
    arbitrary sequences with nested snapshots. VmKeeperFacts.v and
    StateDBCommit.v show what a commit leaves in the keeper. The claims are in
    StateDBTheorems.v (reverting restores every observable, committing persists
    what was seen, deletion, header hashes) and
    PrecompileTheorems.v (gas, the call limit, the balance handler on every
    state, also one a nested call leaves), with the places where the code does
    otherwise.

    ** Running a transaction, src/x/vm/keeper

    StateTransition.v is state_transition.go (ApplyTransaction,
    ApplyMessageWithConfig, EIP-7702 authorizations), gas.go and the gas meter,
    over the state database and the keeper above; the interpreter and the hooks
    are parameters. StateTransitionTheorems.v bounds the gas that is charged and
    composes this with the ante handler: what a failed transaction costs, and
    that it changes nothing else.

    ** The ERC-20 module, src/x/erc20, src/precompiles/erc20,
       src/precompiles/werc20

    Erc20Types.v is types/ (pairs, allowances, names, genesis, messages);
    Erc20Keeper.v the registry, the allowances and the registration of
    precompiles; Erc20Convert.v the conversions, the message server, the IBC
    callbacks with their middleware, genesis, and the calls of the EVM
    (x/vm/keeper/call_evm.go); Erc20Precompile.v the ERC-20 precompile and the
    one of the wrapped native coin. The state is a [World]: the module's store,
    the bank, the EVM and the gas meter.

    Erc20Facts.v and Erc20Registry.v show that every step of the chain keeps the
    registry well formed, Erc20Backing.v that it keeps converted coins backed,
    Erc20Genesis.v treats export and import; the claims are in
    Erc20Theorems.v, after a concrete bank and a concrete EVM with tokens for
    the witnesses. Erc20TokenTheorems.v defines an abstract ERC-20 token, proves
    that the precompile refines it, derives what allowances limit, and says what
    happens to value sent with a call.

    ** Parameters, precompile lookup and genesis of x/vm; src/evmd/genesis.go

    VmGenesis.v has the parameters with their validation, the set of static
    precompiles and how a call finds one (with the call hooks), preinstalled
    contracts, the coin information, the process-wide configuration that is
    hydrated once, genesis import and export. VmGenesisTheorems.v shows that
    enabling precompiles adds exactly those, that installing a contract never
    overwrites anything, that export and import restore what has code, and which
    address of the default list has no implementation.

    ** Contract callbacks of IBC, src/x/ibc/callbacks

    IbcCallbacks.v is the keeper: each callback runs on the context of the packet
    and on a cached one with a gas meter of its own ([CbState]), over the [World]
    of x/erc20. IbcCallbacksTheorems.v shows as whom a callback acts, what a
    completed one has established and what a failed one leaves.

    ** The precompiles of the SDK modules, src/precompiles/{staking,
       distribution,gov,slashing,ics20,bank,bech32}

    PrecompileMsgs.v has the decoded call arguments, base64, the coins of
    common/types.go and the logs. StakingPrecompile.v, DistributionPrecompile.v,
    GovPrecompile.v and SlashingPrecompile.v are one precompile each: parsers of
    arguments, messages, events, queries with the conversion of their answers,
    and the dispatch of Execute, over a class that stands for the module's
    message server, querier and keeper. Ics20Precompile.v and BankPrecompile.v
    (with bech32) work on the [World] of x/erc20. A log is kept as the event and
    the values it carries; its ABI encoding is a library's.

    PrecompileMsgFacts.v and PrecompileMsgTheorems.v show that a completed call
    acts only for its caller, Ics20Theorems.v that an ICS-20 transfer converts
    exactly the missing coins, that static calls change nothing, what the bank
    precompile lists and charges and when a bech32 text is read back.

    ** The transaction pool, src/mempool

    The sequential data structures of the pool, each under the lock its owner
    holds. TxList.v is the list of an account (txpool/legacypool/list.go): the
    nonce-sorted map with its heap and its cache, the running total of the
    costs. PricedList.v is the table of all transactions and the two price
    heaps that choose what to evict (legacypool.go and list.go). TxOrder.v is
    the order of a block (miner/ordering.go, cosmos_ordering.go) and the
    iterator that merges both kinds of transactions (iterator.go); TxStores.v
    the stores of rechecked transactions (tx_store.go, cosmos_tx_store.go);
    ReapList.v the list handed to the peers, the reservations of accounts and
    the pending nonces (reap_list.go, reserver.go, noncer.go). The
    files ...Theorems.v have the invariants, the lemmas and the claims: the
    books of every structure agree after any run, eviction ends and makes room
    when it can, a block is filled in the order of the fees with every account
    in the order of its nonces, and the reap list and the reservations refine a
    queue and a table of owners.

    ** Fuel and bounds

    The JSON scanner recurses on fuel; the fuel the entry point gives, the
    length of the input, is enough for every printed value ([Parse_Marshal]).
    [BinSearch] ends within as many steps as there are candidates
    ([bin_search_smallest]). [sort_Search] is given as many steps as it has
    indices, which [sort_Search_spec] proves enough. The moves of a heap are
    given the length of the heap, and [pl_Discard] twice the urgent and once the
    floating heap ([discard_fuel]), as an entry is popped from each at most
    once; [discard_makes_room] proves that enough. The theorems on iterators
    state that some fuel gives the result. All other recursion is
    structural. The theorems on the base fee assume a base fee below 2^200, far
    under the 2^315 at which decimals overflow; those on gas a gas limit below
    2^63, the bound the source states where it converts it.

    ** Assumptions the theorems state

    Blocks and messages are processed one at a time, as the state machine does.
    SHA-256 and Keccak are never assumed injective: a theorem that needs it
    yields the collision instead. The theorem on [Commit] is for transactions
    that call no precompile and for a coin whose denomination is its extended
    one (18 decimals, as this chain configures it). The one on reverting is for
    runs in which no operation destroys an account already marked as destroyed
    or creates one that exists ([run_destroys_once]); the code refuses neither,
    and StateDBTheorems.v has what then happens. Those on accepted and on failed
    transactions start from a signature cache that is empty or was left by
    earlier incarnations of the same transaction ([cache_of]), state fees of both
    kinds, collected at once or virtually until the end of the block, and leave
    the hooks arbitrary. The theorems on backed coins, on conversion and on
    ICS-20 transfers are for a contract that behaves as an ERC-20 token (the
    class [HonestToken]), the latter two also for one that has not
    self-destructed; those on runs of x/erc20 assume that no two pairs of the run
    share a SHA-256 identifier. The totals of an account's list are exact while
    costs fit 256 bits ([run_costs_fit]). Eviction is counted in heap entries;
    with one entry for each transaction these are transactions. The period of
    the incentives is paid in full when no transaction of it drains the treasury
    ([block_ok]).

    ** Not modelled

    The EVM interpreter (go-ethereum is not part of the sources: what a call
    does is a parameter of StateTransition.v), a native action that calls the
    EVM again on the same state database, tracing, state overrides and the
    queries of x/vm, which replay the state transition; the precompiles for
    light clients and P-256; the pools that own the
    structures of the transaction pool, with their threads, channels and resets; JSON-RPC, CLI, indexer and
    application wiring, the routing of ante.go; generated protobuf code, whose
    codecs are parameters; the EIP-712 decorator. *)

From Stdlib Require Import ZArith Lia List String Ascii Bool.
From stdpp Require Import base gmap strings list sets.

(** ** Go values: errors, panics and effects

    A Go function that returns [(T, error)] or panics is a value of
    [outcome T]: an error is its message, and a panic is kept apart from an
    error because the transaction runner recovers from it differently. *)

Abbreviation error := string.

Inductive outcome (A : Type) : Type :=
| Ok (a : A)
| Err (e : error)
| Panic (m : string).
Arguments Ok {A} a.
Arguments Err {A} e.
Arguments Panic {A} m.

#[export] Instance outcome_eq_dec {A} `{EqDecision A} : EqDecision (outcome A).
Proof. solve_decision. Defined.

Declare Scope go_scope.
Delimit Scope go_scope with go.

Definition obind {A B} (m : outcome A) (f : A -> outcome B) : outcome B :=
  match m with
  | Ok a => f a
  | Err e => Err e
  | Panic p => Panic p
  end.

Notation "'olet' x <- m ; k" := (obind m (fun x => k))
  (at level 10, x pattern, m at level 100, k at level 200) : go_scope.
Notation "'odo' m ; k" := (obind m (fun _ => k))
  (at level 10, m at level 100, k at level 200) : go_scope.

Definition oguard (ok : bool) (e : error) : outcome unit :=
  if ok then Ok tt else Err e.

(** [fmt.Errorf("prefix: %w", err)] keeps success and prefixes the message. *)
Definition owrap {A} (prefix : string) (m : outcome A) : outcome A :=
  match m with
  | Err e => Err (prefix +:+ ": " +:+ e)%string
  | r => r
  end.

Definition is_ok {A} (m : outcome A) : bool :=
  match m with Ok _ => true | _ => false end.

(** Stateful Go code: the state reached so far is returned in every case, with
    the writes made before an error or a panic.  Discarding them is the
    business of the transaction runner ([atomically]), not of the handlers. *)
Definition M (S A : Type) : Type := S -> outcome A * S.

Definition mret {S A} (a : A) : M S A := fun s => (Ok a, s).
Definition mfail {S A} (e : error) : M S A := fun s => (Err e, s).
Definition mlift {S A} (m : outcome A) : M S A := fun s => (m, s).
Definition mget {S} : M S S := fun s => (Ok s, s).
Definition mreads {S A} (f : S -> A) : M S A := fun s => (Ok (f s), s).
Definition mtry {S A} (f : S -> outcome A) : M S A := fun s => (f s, s).
Definition mmodify {S} (f : S -> S) : M S unit := fun s => (Ok tt, f s).
Definition mguard {S} (ok : bool) (e : error) : M S unit := mlift (oguard ok e).

Definition mbind' {S A B} (m : M S A) (f : A -> M S B) : M S B := fun s =>
  match m s with
  | (Ok a, s') => f a s'
  | (Err e, s') => (Err e, s')
  | (Panic p, s') => (Panic p, s')
  end.

Notation "'let!' x <- m ; k" := (mbind' m (fun x => k))
  (at level 10, x pattern, m at level 100, k at level 200) : go_scope.
Notation "'do!' m ; k" := (mbind' m (fun _ => k))
  (at level 10, m at level 100, k at level 200) : go_scope.

(** The cached multi-store branch of a delivered transaction: the writes reach
    the parent state only when the handler returns without error or panic. *)
Definition atomically {S A} (m : M S A) : M S A := fun s =>
  match m s with
  | (Ok a, s') => (Ok a, s')
  | (r, _) => (r, s)
  end.

(** ** Inversion of successful runs *)

Lemma obind_Ok {A B} (m : outcome A) (f : A -> outcome B) b :
  obind m f = Ok b <-> exists a, m = Ok a /\ f a = Ok b.
Proof. destruct m; simpl; naive_solver. Qed.

Lemma oguard_Ok ok e u : oguard ok e = Ok u <-> ok = true.
Proof. destruct ok, u; simpl; naive_solver. Qed.

Lemma owrap_Ok {A} p (m : outcome A) a : owrap p m = Ok a <-> m = Ok a.
Proof. destruct m; simpl; naive_solver. Qed.

Lemma is_ok_Ok {A} (m : outcome A) : is_ok m = true <-> exists a, m = Ok a.
Proof. destruct m; simpl; naive_solver. Qed.

Section inversion.
Context {S : Type}.
Implicit Types s : S.

Lemma mbind_Ok {A B} (m : M S A) (f : A -> M S B) s b s' :
  mbind' m f s = (Ok b, s') <->
  exists a s1, m s = (Ok a, s1) /\ f a s1 = (Ok b, s').
Proof.
  unfold mbind'. destruct (m s) as [[a|e|p] s1]; naive_solver.
Qed.

Lemma mbind_eq {A B} (m : M S A) (f : A -> M S B) s a s1 :
  m s = (Ok a, s1) -> mbind' m f s = f a s1.
Proof. unfold mbind'. by intros ->. Qed.

Lemma mbind_not_Ok {A B} (m : M S A) (f : A -> M S B) s r s1 :
  m s = (r, s1) -> is_ok r = false -> is_ok (mbind' m f s).1 = false.
Proof. unfold mbind'. intros ->. by destruct r. Qed.

(** A step either goes on or stops the handler where it stopped. *)
Lemma mbind_split {A B} (m : M S A) (f : A -> M S B) s r s' :
  mbind' m f s = (r, s') ->
  (exists a s1, m s = (Ok a, s1) /\ f a s1 = (r, s')) \/
  (is_ok r = false /\ exists r1, is_ok r1 = false /\ m s = (r1, s')).
Proof.
  unfold mbind'. destruct (m s) as [[a|e|p] s1]; [eauto|intros [= <- <-]; right; split; [done|]..].
  - by exists (Err e).
  - by exists (Panic p).
Qed.

Lemma mlift_Ok {A} (m : outcome A) s a s' :
  mlift m s = (Ok a, s') <-> m = Ok a /\ s' = s.
Proof. unfold mlift. naive_solver. Qed.

Lemma mret_Ok {A} (x : A) s a s' : mret x s = (Ok a, s') <-> a = x /\ s' = s.
Proof. unfold mret. naive_solver. Qed.

Lemma mfail_Ok {A} e s (a : A) s' : mfail e s = (Ok a, s') <-> False.
Proof. unfold mfail. naive_solver. Qed.

Lemma mreads_Ok {A} (f : S -> A) s a s' :
  mreads f s = (Ok a, s') <-> a = f s /\ s' = s.
Proof. unfold mreads. naive_solver. Qed.

Lemma mtry_Ok {A} (f : S -> outcome A) s a s' :
  mtry f s = (Ok a, s') <-> f s = Ok a /\ s' = s.
Proof.
  unfold mtry. split; [|by intros [-> ->]]. intros H. by injection H as -> ->.
Qed.

Lemma mmodify_Ok (f : S -> S) s u s' :
  mmodify f s = (Ok u, s') <-> s' = f s.
Proof. unfold mmodify. destruct u. naive_solver. Qed.

Lemma mguard_Ok ok e s u s' :
  mguard ok e s = (Ok u, s') <-> ok = true /\ s' = s.
Proof. unfold mguard. rewrite mlift_Ok, oguard_Ok. done. Qed.

Lemma mbind_lift {A B} (m : outcome A) (f : A -> M S B) s a :
  m = Ok a -> mbind' (mlift m) f s = f a s.
Proof. by intros ->. Qed.

Lemma mbind_guard {B} ok e (f : unit -> M S B) s :
  ok = true -> mbind' (mguard ok e) f s = f tt s.
Proof. by intros ->. Qed.

Lemma mbind_reads {A B} (g : S -> A) (f : A -> M S B) s : mbind' (mreads g) f s = f (g s) s.
Proof. done. Qed.

Lemma atomically_Ok {A} (m : M S A) s a s' :
  atomically m s = (Ok a, s') <-> m s = (Ok a, s').
Proof. unfold atomically. destruct (m s) as [[]]; naive_solver. Qed.

(** A failing transaction leaves no trace of its partial writes. *)
Lemma atomically_rollback {A} (m : M S A) s r s' :
  atomically m s = (r, s') -> is_ok r = false -> s' = s.
Proof. unfold atomically. destruct (m s) as [[]]; naive_solver. Qed.

Lemma atomically_cases {A} (m : M S A) s :
  (exists a s', m s = (Ok a, s') /\ atomically m s = (Ok a, s')) \/
  (is_ok (atomically m s).1 = false /\ (atomically m s).2 = s).
Proof. unfold atomically. destruct (m s) as [[]]; simpl; eauto. Qed.

End inversion.

(** ** What a computation may change

    [mrel R m]: whatever [m] returns, the states before and after are related
    by the preorder [R]. *)
Definition mrel {S A} (R : S -> S -> Prop) (m : M S A) : Prop :=
  forall s, R s (m s).2.

Section mrel.
Context {S : Type} (R : S -> S -> Prop) `{!PreOrder R}.

Lemma mrel_const {A} (m : M S A) : (forall s, (m s).2 = s) -> mrel R m.
Proof. intros H s. rewrite H. reflexivity. Qed.

Lemma mrel_bind {A B} (m : M S A) (f : A -> M S B) :
  mrel R m -> (forall a, mrel R (f a)) -> mrel R (mbind' m f).
Proof.
  intros Hm Hf s. specialize (Hm s). unfold mbind'.
  destruct (m s) as [[a|e|p] s1]; simpl in *; [|done|done].
  etransitivity; [exact Hm|apply Hf].
Qed.

Lemma mrel_atomically {A} (m : M S A) : mrel R m -> mrel R (atomically m).
Proof.
  intros Hm s. specialize (Hm s). unfold atomically.
  destruct (m s) as [[a|e|p] s1]; simpl in *; [done|reflexivity|reflexivity].
Qed.

Lemma mrel_ret {A} (a : A) : mrel R (mret a).
Proof. by apply mrel_const. Qed.
Lemma mrel_fail {A} e : mrel R (@mfail S A e).
Proof. by apply mrel_const. Qed.
Lemma mrel_lift {A} (m : outcome A) : mrel R (mlift m).
Proof. by apply mrel_const. Qed.
Lemma mrel_guard ok e : mrel R (mguard ok e).
Proof. by apply mrel_const. Qed.
Lemma mrel_reads {A} (f : S -> A) : mrel R (mreads f).
Proof. by apply mrel_const. Qed.
Lemma mrel_modify f : (forall s, R s (f s)) -> mrel R (mmodify f).
Proof. by intros H s. Qed.
End mrel.

(** [minv] decomposes every hypothesis of the form "this handler returned
    [Ok]" into the facts established by its guards and the states between its
    steps. *)
Ltac minv_step :=
  match goal with
  | H : mbind' _ _ _ = (Ok _, _) |- _ =>
      apply mbind_Ok in H;
      let a := fresh "a" in let st := fresh "st" in
      destruct H as (a & st & ? & H)
  | H : mlift _ _ = (Ok _, _) |- _ => apply mlift_Ok in H; destruct H as [H ?]
  | H : mret _ _ = (Ok _, _) |- _ => apply mret_Ok in H; destruct H as [? ?]
  | H : mfail _ _ = (Ok _, _) |- _ => apply mfail_Ok in H; destruct H
  | H : mreads _ _ = (Ok _, _) |- _ => apply mreads_Ok in H; destruct H as [? ?]
  | H : mtry _ _ = (Ok _, _) |- _ => apply mtry_Ok in H; destruct H as [H ?]
  | H : mmodify _ _ = (Ok _, _) |- _ => apply mmodify_Ok in H
  | H : mguard _ _ _ = (Ok _, _) |- _ => apply mguard_Ok in H; destruct H as [H ?]
  | H : atomically _ _ = (Ok _, _) |- _ => apply (proj1 (atomically_Ok _ _ _ _)) in H
  | H : obind _ _ = Ok _ |- _ =>
      apply obind_Ok in H; let a := fresh "a" in destruct H as (a & ? & H)
  | H : oguard _ _ = Ok _ |- _ => apply oguard_Ok in H
  | H : owrap _ _ = Ok _ |- _ => apply owrap_Ok in H
  | H : Ok _ = Ok _ |- _ => injection H as H
  | H : Err _ = Ok _ |- _ => discriminate H
  | H : Panic _ = Ok _ |- _ => discriminate H
  | H : (_, _) = (_, _) |- _ => first [injection H as ? ? | injection H as ?]
  | H : andb _ _ = true |- _ => apply andb_true_iff in H; destruct H as [? ?]
  | H : negb _ = true |- _ => apply negb_true_iff in H
  | H : negb _ = false |- _ => apply negb_false_iff in H
  | H : orb _ _ = false |- _ => apply orb_false_iff in H; destruct H as [? ?]
  end.
Ltac minv := repeat (minv_step; try subst).

(** Runs a handler forward through the steps whose success is in the context,
    proving the guards with [tac]. *)
Ltac mrun tac :=
  repeat first
    [ rewrite mbind_reads
    | erewrite mbind_lift by (eassumption || reflexivity)
    | rewrite mbind_guard by tac
    | erewrite mbind_eq by (eassumption || reflexivity) ].

(** Boolean guards from the facts of the context. *)
Ltac guard_tac :=
  repeat match goal with
  | |- negb _ = true => apply negb_true_iff
  | |- andb _ _ = true => apply andb_true_iff; split
  | |- orb _ _ = false => apply orb_false_iff; split
  | |- String.eqb _ _ = true => apply String.eqb_eq
  | |- String.eqb _ _ = false => apply String.eqb_neq
  | |- bool_decide _ = true => apply bool_decide_eq_true
  | |- bool_decide _ = false => apply bool_decide_eq_false
  | |- (_ <? _)%Z = true => apply Z.ltb_lt
  | |- (_ <? _)%Z = false => apply Z.ltb_ge
  | |- (_ <=? _)%Z = true => apply Z.leb_le
  | |- (_ <=? _)%Z = false => apply Z.leb_gt
  | |- (_ =? _)%Z = false => apply Z.eqb_neq
  end; try done; try lia; try congruence.

(** Case analysis on the condition of the innermost [if]/[match] of a
    hypothesis or of the goal, closing the branches that cannot be [Ok]. *)
Ltac mcase H :=
  match type of H with
  | context [ match ?x with _ => _ end ] =>
      lazymatch x with
      | context [ match _ with _ => _ end ] => fail
      | _ => destruct x eqn:?
      end
  end.

Ltac zify_bool :=
  repeat match goal with
  | H : (_ <? _)%Z = true |- _ => apply Z.ltb_lt in H
  | H : (_ <? _)%Z = false |- _ => apply Z.ltb_ge in H
  | H : (_ <=? _)%Z = true |- _ => apply Z.leb_le in H
  | H : (_ <=? _)%Z = false |- _ => apply Z.leb_gt in H
  | H : (_ =? _)%Z = true |- _ => apply Z.eqb_eq in H
  | H : (_ =? _)%Z = false |- _ => apply Z.eqb_neq in H
  | H : bool_decide _ = true |- _ => apply bool_decide_eq_true in H
  | H : bool_decide _ = false |- _ => apply bool_decide_eq_false in H
  | H : String.eqb _ _ = true |- _ => apply String.eqb_eq in H
  | H : String.eqb _ _ = false |- _ => apply String.eqb_neq in H
  end.

(** ** Machine integers

    Unsigned arithmetic of Go wraps modulo [2^w]. *)
Definition two64 : Z := (2 ^ 64)%Z.
Definition two32 : Z := (2 ^ 32)%Z.
Definition two256 : Z := (2 ^ 256)%Z.
Definition u64 (z : Z) : Z := (z mod two64)%Z.
Definition u32 (z : Z) : Z := (z mod two32)%Z.
Definition MaxUint64 : Z := (two64 - 1)%Z.
Definition MaxInt64 : Z := (2 ^ 63 - 1)%Z.
Definition is_u64 (z : Z) : Prop := (0 <= z < two64)%Z.
Definition is_u32 (z : Z) : Prop := (0 <= z < two32)%Z.

Lemma u64_small z : is_u64 z -> u64 z = z.
Proof. intros. by apply Z.mod_small. Qed.

Lemma u64_range z : is_u64 (u64 z).
Proof. apply Z.mod_pos_bound. unfold two64. lia. Qed.

Lemma u32_small z : is_u32 z -> u32 z = z.
Proof. intros. by apply Z.mod_small. Qed.

Create HintDb pos_chain discriminated.
#[export] Hint Resolve u64_range : pos_chain.
Create HintDb mrel discriminated.
#[export] Hint Resolve mrel_ret mrel_fail mrel_lift mrel_guard mrel_reads : mrel.

(** Walks through a handler, leaving the steps that the hints do not solve. *)
Ltac mrel_auto :=
  repeat first
    [ progress intros
    | solve [eauto with mrel typeclass_instances]
    | apply mrel_bind; [typeclasses eauto| |]
    | apply mrel_atomically; [typeclasses eauto|]
    | match goal with |- context [match ?x with _ => _ end] => destruct x end ].
