(* ===== verification/GoStrings.v ===== *)
(** * The part of the Go standard library that the modules use on strings

    A Go [string] and a [[]byte] are both byte sequences, modelled by
    [String.string] (an [ascii] is one byte).  This file holds UTF-8 decoding
    and encoding, [strings.TrimSpace], [strings.ToLower], [strings.TrimPrefix],
    [strings.Join], [hex.DecodeString], [hex.EncodeToString],
    [big.Int.SetString], [strconv.FormatInt], [binary.BigEndian] and
    [big.Int.Bytes]/[SetBytes], with the round trips the stores rely on. *)

From Stdlib Require Import ZArith Lia List String Ascii Bool.
From Stdlib Require Import DecimalString DecimalZ DecimalPos DecimalFacts.
From stdpp Require Import base gmap strings list.
From S2P Require Import Prelude.
Local Open Scope Z_scope.

Abbreviation bytes := string.

Definition chr (z : Z) : ascii := ascii_of_N (Z.to_N z).
Definition ord (c : ascii) : Z := Z.of_N (N_of_ascii c).
Definition to_list : string -> list ascii := list_ascii_of_string.
Definition of_list : list ascii -> string := string_of_list_ascii.
Definition len (s : string) : Z := Z.of_nat (String.length s).

(** The unique byte of a one-byte key or separator. *)
Definition byte1 (z : Z) : bytes := String (chr z) EmptyString.

(** ** UTF-8 *)

Definition RuneError : Z := 65533.

Definition in_range (lo b hi : Z) : bool := (lo <=? b) && (b <=? hi).
Definition cont (b : Z) : bool := in_range 128 b 191.

(** [utf8.DecodeRune]: the first rune of a non-empty byte sequence and the
    bytes it takes; an ill-formed sequence takes one byte. *)
Definition decode_rune (l : list ascii) : Z * list ascii * list ascii :=
  match l with
  | [] => (RuneError, [], [])
  | c0 :: t0 =>
    let b0 := ord c0 in
    let bad := (RuneError, [c0], t0) in
    if b0 <? 128 then (b0, [c0], t0)
    else if in_range 194 b0 223 then
      match t0 with
      | c1 :: t1 =>
        if cont (ord c1)
        then ((b0 - 192) * 64 + (ord c1 - 128), [c0; c1], t1)
        else bad
      | _ => bad
      end
    else if in_range 224 b0 239 then
      match t0 with
      | c1 :: c2 :: t2 =>
        let lo := if b0 =? 224 then 160 else 128 in
        let hi := if b0 =? 237 then 159 else 191 in
        if in_range lo (ord c1) hi && cont (ord c2)
        then ((b0 - 224) * 4096 + (ord c1 - 128) * 64 + (ord c2 - 128),
              [c0; c1; c2], t2)
        else bad
      | _ => bad
      end
    else if in_range 240 b0 244 then
      match t0 with
      | c1 :: c2 :: c3 :: t3 =>
        let lo := if b0 =? 240 then 144 else 128 in
        let hi := if b0 =? 244 then 143 else 191 in
        if in_range lo (ord c1) hi && cont (ord c2) && cont (ord c3)
        then ((b0 - 240) * 262144 + (ord c1 - 128) * 4096 + (ord c2 - 128) * 64
                + (ord c3 - 128), [c0; c1; c2; c3], t3)
        else bad
      | _ => bad
      end
    else bad
  end.

(** The runes of a string with the bytes of each ([for _, r := range s]).  The
    fuel is the number of bytes: every rune takes at least one. *)
Fixpoint runes_fuel (n : nat) (l : list ascii) : list (Z * list ascii) :=
  match n, l with
  | O, _ | _, [] => []
  | S n', _ => let '(r, used, rest) := decode_rune l in (r, used) :: runes_fuel n' rest
  end.

Definition runes (s : string) : list (Z * list ascii) :=
  runes_fuel (String.length s) (to_list s).

(** [utf8.EncodeRune]. *)
Definition encode_rune (r : Z) : list ascii :=
  if in_range 0 r 127 then [chr r]
  else if in_range 128 r 2047 then
    [chr (192 + r / 64); chr (128 + r mod 64)]
  else if in_range 2048 r 55295 || in_range 57344 r 65535 then
    [chr (224 + r / 4096); chr (128 + r / 64 mod 64); chr (128 + r mod 64)]
  else if in_range 65536 r 1114111 then
    [chr (240 + r / 262144); chr (128 + r / 4096 mod 64);
     chr (128 + r / 64 mod 64); chr (128 + r mod 64)]
  else [chr 239; chr 191; chr 189].

(** ** Character classes

    Package [unicode] decides Latin-1 runes by a property table, written out
    here, and larger runes by generated range tables, which are parameters. *)
Class UnicodeTables := {
  lower_ext : Z -> bool;      (* unicode.Lower, runes above U+00FF *)
  digit_ext : Z -> bool;      (* unicode.Digit, runes above U+00FF *)
  to_lower_ext : Z -> Z;      (* unicode.CaseRanges, runes above U+007F *)
  (* U+FFFD is a symbol: neither a lower-case letter nor a digit. *)
  lower_ext_RuneError : lower_ext RuneError = false;
  digit_ext_RuneError : digit_ext RuneError = false;
}.

Definition is_space (r : Z) : bool :=
  in_range 9 r 13 || (r =? 32) || (r =? 133) || (r =? 160) || (r =? 5760)
  || in_range 8192 r 8202 || (r =? 8232) || (r =? 8233) || (r =? 8239)
  || (r =? 8287) || (r =? 12288).

Section classes.
Context {U : UnicodeTables}.

Definition IsLower (r : Z) : bool :=
  if r <=? 255
  then in_range 97 r 122 || (r =? 181) || in_range 223 r 246 || in_range 248 r 255
  else lower_ext r.

Definition IsDigit (r : Z) : bool :=
  if r <=? 255 then in_range 48 r 57 else digit_ext r.

Definition ToLower_rune (r : Z) : Z :=
  if r <=? 127 then (if in_range 65 r 90 then r + 32 else r) else to_lower_ext r.

(** [strings.ToLower]: an ASCII string is mapped byte by byte, any other one
    rune by rune (an ill-formed byte becomes U+FFFD). *)
Definition lower_byte (c : ascii) : ascii :=
  if in_range 65 (ord c) 90 then chr (ord c + 32) else c.

Definition is_ascii (s : string) : bool :=
  forallb (fun c => ord c <? 128) (to_list s).

Definition ToLower (s : string) : string :=
  if is_ascii s then of_list (map lower_byte (to_list s))
  else of_list (flat_map (fun r => encode_rune (ToLower_rune r.1)) (runes s)).
End classes.

(** [strings.EqualFold] against an ASCII string without [k] and [s], whose
    letters fold only to their two ASCII cases. *)
Definition EqualFold_ascii (s t : string) : bool :=
  String.eqb (of_list (map lower_byte (to_list s))) (of_list (map lower_byte (to_list t))).

(** ** Trimming, joining *)

Fixpoint drop_while {A} (p : A -> bool) (l : list A) : list A :=
  match l with
  | [] => []
  | a :: l' => if p a then drop_while p l' else l
  end.

Definition TrimSpace (s : string) : string :=
  let sp := fun r : Z * list ascii => is_space r.1 in
  of_list (flat_map snd (rev (drop_while sp (rev (drop_while sp (runes s)))))).

Fixpoint has_prefix (p s : string) : bool :=
  match p, s with
  | EmptyString, _ => true
  | String a p', String b s' => Ascii.eqb a b && has_prefix p' s'
  | _, _ => false
  end.

Fixpoint drop_bytes (n : nat) (s : string) : string :=
  match n, s with
  | O, _ => s
  | S n', String _ s' => drop_bytes n' s'
  | S _, EmptyString => EmptyString
  end.

Definition TrimPrefix (s p : string) : string :=
  if has_prefix p s then drop_bytes (String.length p) s else s.

Fixpoint Join (fields : list string) (sep : string) : string :=
  match fields with
  | [] => EmptyString
  | [f] => f
  | f :: fs => (f +:+ sep +:+ Join fs sep)%string
  end.

(** ** Hexadecimal *)

Definition hex_val (c : ascii) : option Z :=
  let b := ord c in
  if in_range 48 b 57 then Some (b - 48)
  else if in_range 97 b 102 then Some (b - 87)
  else if in_range 65 b 70 then Some (b - 55)
  else None.

Fixpoint hex_decode (s : string) : option string :=
  match s with
  | EmptyString => Some EmptyString
  | String a (String b s') =>
    match hex_val a, hex_val b, hex_decode s' with
    | Some x, Some y, Some r => Some (String (chr (16 * x + y)) r)
    | _, _, _ => None
    end
  | String _ EmptyString => None
  end.

Definition hex_digit (z : Z) : ascii := if z <? 10 then chr (48 + z) else chr (87 + z).

Fixpoint hex_encode (s : string) : string :=
  match s with
  | EmptyString => EmptyString
  | String c s' =>
    String (hex_digit (ord c / 16)) (String (hex_digit (ord c mod 16)) (hex_encode s'))
  end.

(** ** Decimal integers *)

Definition parse_digits (s : string) : option Z :=
  match s with
  | EmptyString => None
  | _ => option_map Z.of_uint (NilEmpty.uint_of_string s)
  end.

(** [new(big.Int).SetString(s, 10)]: an optional sign and at least one digit. *)
Definition SetString (s : string) : option Z :=
  match s with
  | String "-" t => option_map Z.opp (parse_digits t)
  | String "+" t => parse_digits t
  | _ => parse_digits s
  end.

(** [strconv.FormatInt(z, 10)], [fmt.Sprintf("%d", z)] and [big.Int.String]. *)
Definition FormatInt (z : Z) : string := NilZero.string_of_int (Z.to_int z).

(** ** Big-endian bytes *)

Fixpoint be_value_acc (acc : Z) (s : bytes) : Z :=
  match s with
  | EmptyString => acc
  | String c s' => be_value_acc (acc * 256 + ord c) s'
  end.
Definition be_value (s : bytes) : Z := be_value_acc 0 s.

(** The [n] low bytes of [z], most significant first. *)
Fixpoint be_bytes (n : nat) (z : Z) : bytes :=
  match n with
  | O => EmptyString
  | S n' => String (chr ((z / 256 ^ Z.of_nat n') mod 256)) (be_bytes n' z)
  end.

Definition PutUint64 (z : Z) : bytes := be_bytes 8 z.
Definition PutUint32 (z : Z) : bytes := be_bytes 4 z.

(** [big.Int.Bytes]: the absolute value without leading zero bytes. *)
Definition byte_size (z : Z) : nat :=
  if z =? 0 then O else Z.to_nat (Z.log2 z / 8 + 1).
Definition big_Bytes (z : Z) : bytes := be_bytes (byte_size (Z.abs z)) (Z.abs z).

Example trim1 : TrimSpace ("  a b" +:+ String (chr 9) " ")%string = "a b"%string.
Proof. reflexivity. Qed.
Example set1 : (SetString "+007", SetString "-12", SetString "1_0", SetString "")
  = (Some 7, Some (-12), None, None).
Proof. reflexivity. Qed.
Example bytes1 : (be_value (big_Bytes 65536), len (big_Bytes 65536)) = (65536, 3).
Proof. reflexivity. Qed.
Example hex1 : hex_encode "Az0" = "417a30"%string /\ hex_decode "417a30" = Some "Az0"%string.
Proof. done. Qed.

(** ** Bytes *)

Lemma ord_range c : 0 <= ord c < 256.
Proof. unfold ord. pose proof (N_ascii_bounded c). lia. Qed.

Lemma chr_ord c : chr (ord c) = c.
Proof. unfold chr, ord. rewrite N2Z.id. apply ascii_N_embedding. Qed.

Lemma ord_chr z : 0 <= z < 256 -> ord (chr z) = z.
Proof. intros. unfold chr, ord. rewrite N_ascii_embedding; lia. Qed.

Lemma of_to_list s : of_list (to_list s) = s.
Proof. apply string_of_list_ascii_of_string. Qed.

Lemma to_of_list l : to_list (of_list l) = l.
Proof. apply list_ascii_of_string_of_list_ascii. Qed.

Lemma string_app_cons c (s t : string) : (String c s +:+ t = String c (s +:+ t))%string.
Proof. done. Qed.

Lemma string_app_nil_l (s : string) : (EmptyString +:+ s = s)%string.
Proof. done. Qed.

Ltac string_ind s := induction s as [|? s IH];
  intros; rewrite ?string_app_nil_l, ?string_app_cons in *; simpl.

Lemma to_list_app s t : to_list (s +:+ t)%string = to_list s ++ to_list t.
Proof. string_ind s; [done|]. unfold to_list in *. simpl. by rewrite IH. Qed.

Lemma to_list_length s : List.length (to_list s) = String.length s.
Proof. induction s; simpl; [done|]. unfold to_list in *. by rewrite <- IHs. Qed.

Lemma to_list_inj s t : to_list s = to_list t -> s = t.
Proof. intros H. rewrite <- (of_to_list s), <- (of_to_list t). by rewrite H. Qed.

Lemma string_app_length (s t : string) :
  String.length (s +:+ t)%string = (String.length s + String.length t)%nat.
Proof. string_ind s; congruence. Qed.

Lemma string_app_inj_l (p s t : string) : (p +:+ s = p +:+ t)%string -> s = t.
Proof. apply String.app_inj. Qed.

Lemma string_app_assoc (s t u : string) : (s +:+ (t +:+ u) = (s +:+ t) +:+ u)%string.
Proof. string_ind s; rewrite ?string_app_cons; congruence. Qed.

Lemma string_app_nil_r (s : string) : (s +:+ EmptyString)%string = s.
Proof. string_ind s; congruence. Qed.

(** ** Fixed-width and minimal big-endian encodings *)

Lemma be_bytes_length n z : String.length (be_bytes n z) = n.
Proof. revert z. induction n; intros; simpl; [done|]. by rewrite IHn. Qed.

Lemma be_value_acc_bytes n acc z :
  be_value_acc acc (be_bytes n z) = acc * 256 ^ Z.of_nat n + z mod 256 ^ Z.of_nat n.
Proof.
  revert acc. induction n as [|n IH]; intros acc.
  { simpl. rewrite Z.mod_1_r. lia. }
  cbn [be_bytes be_value_acc]. rewrite IH, ord_chr by (apply Z.mod_pos_bound; lia).
  rewrite Nat2Z.inj_succ, Z.pow_succ_r by lia.
  set (p := 256 ^ Z.of_nat n). assert (0 < p) by (apply Z.pow_pos_nonneg; lia).
  rewrite (Z.mul_comm 256 p), (Z.rem_mul_r z p 256) by lia. ring.
Qed.

Lemma be_value_bytes n z : be_value (be_bytes n z) = z mod 256 ^ Z.of_nat n.
Proof. unfold be_value. rewrite be_value_acc_bytes. lia. Qed.

Lemma Uint64_PutUint64 z : be_value (PutUint64 z) = u64 z.
Proof. unfold PutUint64. by rewrite be_value_bytes. Qed.

Lemma Uint32_PutUint32 z : be_value (PutUint32 z) = u32 z.
Proof. unfold PutUint32. by rewrite be_value_bytes. Qed.

Lemma PutUint64_length z : String.length (PutUint64 z) = 8%nat.
Proof. apply be_bytes_length. Qed.

Lemma PutUint32_length z : String.length (PutUint32 z) = 4%nat.
Proof. apply be_bytes_length. Qed.

Lemma byte_size_bound z : 0 <= z -> z < 256 ^ Z.of_nat (byte_size z).
Proof.
  intros Hz. unfold byte_size. destruct (Z.eqb_spec z 0) as [->|Hne]; [simpl; lia|].
  pose proof (Z.log2_nonneg z). pose proof (Z.div_pos (Z.log2 z) 8).
  rewrite Z2Nat.id by lia. change 256 with (2 ^ 8). rewrite <- Z.pow_mul_r by lia.
  apply Z.log2_lt_pow2; [lia|]. pose proof (Z.mod_pos_bound (Z.log2 z) 8).
  pose proof (Z.div_mod (Z.log2 z) 8). lia.
Qed.

Lemma SetBytes_Bytes z : 0 <= z -> be_value (big_Bytes z) = z.
Proof.
  intros Hz. unfold big_Bytes. rewrite Z.abs_eq by done.
  rewrite be_value_bytes. apply Z.mod_small. split; [done|]. by apply byte_size_bound.
Qed.

Lemma big_Bytes_nonempty z : 0 < z -> big_Bytes z <> EmptyString.
Proof.
  intros Hz He. pose proof (SetBytes_Bytes z ltac:(lia)) as H. rewrite He in H.
  unfold be_value in H. simpl in H. lia.
Qed.

Lemma be_value_acc_nonneg s acc : 0 <= acc -> 0 <= be_value_acc acc s.
Proof.
  revert acc. induction s as [|a s IH]; intros acc Hacc; simpl; [done|].
  apply IH. pose proof (ord_range a). lia.
Qed.

Lemma be_value_nonneg s : 0 <= be_value s.
Proof. by apply be_value_acc_nonneg. Qed.

Lemma be_value_acc_bound s acc : 0 <= acc ->
  be_value_acc acc s < (acc + 1) * 256 ^ Z.of_nat (String.length s).
Proof.
  revert acc. induction s as [|c s IH]; intros acc Hacc; simpl String.length; [simpl; lia|].
  cbn [be_value_acc]. pose proof (ord_range c).
  eapply Z.lt_le_trans; [apply IH; lia|].
  rewrite Nat2Z.inj_succ, Z.pow_succ_r by lia.
  assert (0 < 256 ^ Z.of_nat (String.length s)) by (apply Z.pow_pos_nonneg; lia). nia.
Qed.

Lemma be_value_bound s : be_value s < 256 ^ Z.of_nat (String.length s).
Proof. pose proof (be_value_acc_bound s 0 ltac:(lia)). unfold be_value. lia. Qed.

(** ** Decimal round trip *)

Lemma parse_digits_string_of_uint d :
  d <> Decimal.Nil -> parse_digits (NilEmpty.string_of_uint d) = Some (Z.of_uint d).
Proof.
  intros Hd. unfold parse_digits. rewrite NilEmpty.usu.
  destruct d; simpl; done.
Qed.

Lemma Z_to_int_nonnil z :
  match Z.to_int z with Decimal.Pos d => d <> Decimal.Nil | Decimal.Neg d => d <> Decimal.Nil end.
Proof.
  destruct z; simpl; [done| |].
  all: apply DecimalPos.Unsigned.to_uint_nonnil.
Qed.

Lemma FormatInt_pos d : d <> Decimal.Nil ->
  NilZero.string_of_int (Decimal.Pos d) = NilEmpty.string_of_uint d.
Proof. by destruct d. Qed.

Lemma SetString_digits d : d <> Decimal.Nil ->
  SetString (NilEmpty.string_of_uint d) = Some (Z.of_uint d).
Proof.
  intros Hd. rewrite <- (parse_digits_string_of_uint d Hd). by destruct d.
Qed.

(** Printing an integer and parsing it back is the identity. *)
Lemma SetString_FormatInt z : SetString (FormatInt z) = Some z.
Proof.
  pose proof (DecimalZ.of_to z) as Hz. pose proof (Z_to_int_nonnil z) as Hn.
  unfold FormatInt. destruct (Z.to_int z) as [d|d].
  - rewrite FormatInt_pos, SetString_digits by done. f_equal. exact Hz.
  - replace (NilZero.string_of_int (Decimal.Neg d))
      with (String "-" (NilEmpty.string_of_uint d)) by (by destruct d).
    cbn [SetString]. rewrite parse_digits_string_of_uint by done.
    simpl. f_equal. exact Hz.
Qed.

Lemma FormatInt_inj z z' : FormatInt z = FormatInt z' -> z = z'.
Proof.
  intros H. apply (f_equal SetString) in H. rewrite !SetString_FormatInt in H. congruence.
Qed.

Lemma FormatInt_nonempty z : FormatInt z <> EmptyString.
Proof. intros H. pose proof (SetString_FormatInt z) as E. by rewrite H in E. Qed.
#[export] Hint Resolve FormatInt_nonempty : pos_chain.

(** ** Hexadecimal round trip *)

Lemma hex_val_digit z : 0 <= z < 16 -> hex_val (hex_digit z) = Some z.
Proof.
  intros Hz. unfold hex_digit, hex_val.
  destruct (Z.ltb_spec z 10); rewrite ord_chr by lia; unfold in_range.
  - rewrite (proj2 (Z.leb_le 48 (48 + z))), (proj2 (Z.leb_le (48 + z) 57)) by lia.
    simpl. f_equal. lia.
  - rewrite (proj2 (Z.leb_gt (87 + z) 57)) by lia. rewrite andb_false_r.
    rewrite (proj2 (Z.leb_le 97 (87 + z))), (proj2 (Z.leb_le (87 + z) 102)) by lia.
    simpl. f_equal. lia.
Qed.

Lemma hex_decode_encode s : hex_decode (hex_encode s) = Some s.
Proof.
  induction s as [|c s IH]; [done|]. cbn [hex_encode hex_decode].
  pose proof (ord_range c).
  assert (0 <= ord c / 16 < 16)
    by (split; [apply Z.div_pos; lia | apply Z.div_lt_upper_bound; lia]).
  assert (0 <= ord c mod 16 < 16) by (apply Z.mod_pos_bound; lia).
  rewrite !hex_val_digit, IH by done.
  rewrite <- (Z.div_mod (ord c) 16) by lia. by rewrite chr_ord.
Qed.

Lemma hex_encode_length s : String.length (hex_encode s) = (2 * String.length s)%nat.
Proof. induction s; simpl; [done|]. rewrite IHs. lia. Qed.

(** ** UTF-8: decoding splits the input, and is undone by encoding *)

Lemma in_range_true lo b hi : in_range lo b hi = true <-> lo <= b <= hi.
Proof. unfold in_range. rewrite andb_true_iff, !Z.leb_le. done. Qed.

Lemma in_range_false lo b hi : in_range lo b hi = false <-> b < lo \/ hi < b.
Proof. rewrite <- not_true_iff_false, in_range_true. lia. Qed.

Ltac range_cases :=
  repeat match goal with
  | H : in_range _ _ _ = true |- _ => apply in_range_true in H
  | H : in_range _ _ _ = false |- _ => apply in_range_false in H
  | H : cont _ = true |- _ => unfold cont in H
  | H : andb _ _ = true |- _ => apply andb_true_iff in H; destruct H
  end; zify_bool.

(** What a well-formed first rune of a byte sequence looks like. *)
Inductive utf8_chunk : Z -> list ascii -> Prop :=
| chunk1 c : ord c < 128 -> utf8_chunk (ord c) [c]
| chunk2 c0 c1 : 194 <= ord c0 <= 223 -> 128 <= ord c1 <= 191 ->
    utf8_chunk ((ord c0 - 192) * 64 + (ord c1 - 128)) [c0; c1]
| chunk3 c0 c1 c2 : 224 <= ord c0 <= 239 ->
    (if ord c0 =? 224 then 160 else 128) <= ord c1 <= (if ord c0 =? 237 then 159 else 191) ->
    128 <= ord c2 <= 191 ->
    utf8_chunk ((ord c0 - 224) * 4096 + (ord c1 - 128) * 64 + (ord c2 - 128)) [c0; c1; c2]
| chunk4 c0 c1 c2 c3 : 240 <= ord c0 <= 244 ->
    (if ord c0 =? 240 then 144 else 128) <= ord c1 <= (if ord c0 =? 244 then 143 else 191) ->
    128 <= ord c2 <= 191 -> 128 <= ord c3 <= 191 ->
    utf8_chunk ((ord c0 - 240) * 262144 + (ord c1 - 128) * 4096 + (ord c2 - 128) * 64
                + (ord c3 - 128)) [c0; c1; c2; c3].

Lemma decode_rune_spec l r used rest :
  l <> [] -> decode_rune l = (r, used, rest) ->
  l = used ++ rest /\ (utf8_chunk r used \/ (r = RuneError /\ exists c, used = [c])).
Proof.
  intros Hne H. destruct l as [|c0 t0]; [done|]. unfold decode_rune in H.
  destruct (ord c0 <? 128) eqn:E0; [range_cases; simplify_eq; eauto using utf8_chunk|].
  destruct (in_range 194 (ord c0) 223) eqn:E1.
  { destruct t0 as [|c1 t1]; [simplify_eq; eauto|].
    destruct (cont (ord c1)) eqn:E2; simplify_eq; [|by eauto].
    range_cases. split; [done|]. left. by constructor. }
  destruct (in_range 224 (ord c0) 239) eqn:E2.
  { destruct t0 as [|c1 [|c2 t2]]; [simplify_eq; eauto..|].
    match goal with H : (if ?b then _ else _) = _ |- _ => destruct b eqn:E3 end;
      simplify_eq; [|by eauto].
    range_cases. split; [done|]. left. by constructor. }
  destruct (in_range 240 (ord c0) 244) eqn:E3.
  { destruct t0 as [|c1 [|c2 [|c3 t3]]]; [simplify_eq; eauto..|].
    match goal with H : (if ?b then _ else _) = _ |- _ => destruct b eqn:E4 end;
      simplify_eq; [|by eauto].
    range_cases. split; [done|]. left. by constructor. }
  simplify_eq. eauto.
Qed.

Ltac decide_range :=
  repeat match goal with
  | |- context [in_range ?a ?b ?c] =>
      first [rewrite (proj2 (in_range_true a b c)) by lia
            |rewrite (proj2 (in_range_false a b c)) by lia]
  | |- context [?a <? ?b] =>
      first [rewrite (proj2 (Z.ltb_lt a b)) by lia | rewrite (proj2 (Z.ltb_ge a b)) by lia]
  end.

Lemma decode_rune_chunk r used rest :
  utf8_chunk r used -> decode_rune (used ++ rest) = (r, used, rest).
Proof.
  destruct 1; cbn [app decode_rune]; unfold cont; by decide_range.
Qed.

Lemma utf8_chunk_range r used : utf8_chunk r used -> 0 <= r < 1114112.
Proof.
  destruct 1; try (pose proof (ord_range c)); repeat case_match; zify_bool; lia.
Qed.

Lemma chr_eq z c : z = ord c -> chr z = c.
Proof. intros ->. apply chr_ord. Qed.

Lemma encode_rune_chunk r used : utf8_chunk r used -> encode_rune r = used.
Proof.
  destruct 1; unfold encode_rune.
  1: pose proof (ord_range c); decide_range; by rewrite chr_ord.
  2: destruct (Z.eqb_spec (ord c0) 224), (Z.eqb_spec (ord c0) 237); try lia;
     rewrite (proj2 (in_range_false 0 _ 127)), (proj2 (in_range_false 128 _ 2047)) by lia;
     match goal with |- (if ?b then _ else _) = _ =>
       replace b with true by (symmetry; apply orb_true_iff; rewrite !in_range_true; lia) end.
  5: destruct (Z.eqb_spec (ord c0) 240), (Z.eqb_spec (ord c0) 244); try lia; decide_range;
     simpl.
  1: decide_range.
  all: repeat (apply (f_equal2 cons);
               [apply chr_eq; Z.to_euclidean_division_equations; lia|]); done.
Qed.

Definition bad_rune (r : Z * list ascii) : bool :=
  (r.1 =? RuneError) && (Z.of_nat (length r.2) =? 1).

(** [utf8.ValidString]. *)
Definition utf8_valid (s : string) : bool := forallb (fun r => negb (bad_rune r)) (runes s).

Lemma decode_rune_nonempty l r used rest :
  l <> [] -> decode_rune l = (r, used, rest) -> used <> [].
Proof.
  intros Hne H. destruct (decode_rune_spec _ _ _ _ Hne H) as [_ [Hc|[_ [c ->]]]]; [|done].
  by destruct Hc.
Qed.

Lemma runes_fuel_concat n l :
  (length l <= n)%nat -> flat_map snd (runes_fuel n l) = l.
Proof.
  revert l. induction n as [|n IH]; intros l Hn.
  { by destruct l; [|simpl in Hn; lia]. }
  destruct l as [|c l]; [done|]. cbn [runes_fuel].
  destruct (decode_rune (c :: l)) as [[r used] rest] eqn:E.
  pose proof (decode_rune_nonempty (c :: l) _ _ _ ltac:(done) E) as Hu.
  destruct (decode_rune_spec (c :: l) _ _ _ ltac:(done) E) as [Hl _].
  simpl. rewrite IH; [by rewrite Hl|].
  apply (f_equal (@length ascii)) in Hl. rewrite length_app in Hl.
  destruct used; [done|]. simpl in *. lia.
Qed.

Lemma runes_concat s : flat_map snd (runes s) = to_list s.
Proof. apply runes_fuel_concat. by rewrite to_list_length. Qed.

Lemma runes_fuel_chunks n l : Forall (fun r => bad_rune r = true \/ utf8_chunk r.1 r.2) (runes_fuel n l).
Proof.
  revert l. induction n as [|n IH]; intros l; [constructor|].
  destruct l as [|c l]; [constructor|]. cbn [runes_fuel].
  destruct (decode_rune (c :: l)) as [[r used] rest] eqn:E.
  constructor; [|apply IH].
  destruct (decode_rune_spec (c :: l) _ _ _ ltac:(done) E) as [_ [?|[-> [c' ->]]]]; auto.
Qed.

Lemma utf8_valid_chunks s : utf8_valid s = true -> Forall (fun r => utf8_chunk r.1 r.2) (runes s).
Proof.
  unfold utf8_valid, runes. rewrite forallb_forall. intros H.
  pose proof (runes_fuel_chunks (String.length s) (to_list s)) as Hc.
  rewrite List.Forall_forall in *. intros x Hx. specialize (H x Hx).
  destruct (Hc x Hx) as [Hb|]; [|done]. by rewrite Hb in H.
Qed.

Lemma runes_fuel_ascii n l :
  forallb (fun c => ord c <? 128) l = true -> (length l <= n)%nat ->
  runes_fuel n l = map (fun c => (ord c, [c])) l.
Proof.
  revert n. induction l as [|c l IH]; intros n Ha Hn; [by destruct n|].
  destruct n as [|n]; [simpl in Hn; lia|]. simpl in Ha, Hn. apply andb_true_iff in Ha as [Hc Ha].
  cbn [runes_fuel decode_rune]. rewrite Hc. cbn [map]. f_equal. apply IH; [done|lia].
Qed.

Lemma utf8_valid_ascii s : is_ascii s = true -> utf8_valid s = true.
Proof.
  intros Ha. unfold utf8_valid, runes. rewrite runes_fuel_ascii; [|done|by rewrite to_list_length].
  unfold is_ascii in Ha. rewrite forallb_forall in *. intros x Hx.
  apply in_map_iff in Hx as (c & <- & Hc). specialize (Ha c Hc). simpl in *.
  unfold bad_rune, RuneError. simpl. zify_bool. rewrite (proj2 (Z.eqb_neq (ord c) 65533)); [done|lia].
Qed.

(** ** What survives trimming *)

Lemma drop_while_split {A} (p : A -> bool) l :
  exists pre, l = pre ++ drop_while p l /\ Forall (fun x => p x = true) pre.
Proof.
  induction l as [|a l (pre & Hl & Hp)]; [by exists []|]. simpl.
  destruct (p a) eqn:Ha; [|by exists []]. exists (a :: pre). simpl. rewrite <- Hl. auto.
Qed.

Lemma TrimSpace_split s : exists l m r,
  runes s = l ++ m ++ r /\ to_list (TrimSpace s) = flat_map snd m /\
  Forall (fun x => is_space x.1 = true) (l ++ r).
Proof.
  unfold TrimSpace. set (sp := fun r : Z * list ascii => is_space r.1).
  destruct (drop_while_split sp (runes s)) as (l & Hl & Hpl).
  destruct (drop_while_split sp (rev (drop_while sp (runes s)))) as (r & Hr & Hpr).
  exists l, (rev (drop_while sp (rev (drop_while sp (runes s))))), (rev r).
  rewrite <- rev_app_distr, <- Hr, rev_involutive.
  repeat split; [done|by rewrite to_of_list|].
  apply Forall_app. split; [done|]. by apply Forall_rev.
Qed.

Lemma decode_rune_bad l r used rest :
  l <> [] -> decode_rune l = (r, used, rest) -> bad_rune (r, used) = true ->
  exists c, used = [c] /\ 128 <= ord c.
Proof.
  intros Hne H Hb. destruct (decode_rune_spec _ _ _ _ Hne H) as [Hl Hc].
  destruct l as [|c0 l]; [done|]. unfold bad_rune in Hb. simpl in Hb.
  apply andb_true_iff in Hb as [Hr Hn]. zify_bool.
  destruct used as [|c used]; [done|]. destruct used; [|simpl in Hn; lia].
  injection Hl as -> ->. exists c. split; [done|].
  destruct (Z.ltb_spec (ord c) 128) as [Hlt|]; [|done].
  unfold decode_rune in H. rewrite (proj2 (Z.ltb_lt _ _) Hlt) in H.
  injection H as <-. unfold RuneError in Hr. lia.
Qed.

Lemma runes_fuel_bad n l :
  Forall (fun r => bad_rune r = true -> exists c, r.2 = [c] /\ 128 <= ord c) (runes_fuel n l).
Proof.
  revert l. induction n as [|n IH]; intros l; [constructor|].
  destruct l as [|c l]; [constructor|]. cbn [runes_fuel].
  destruct (decode_rune (c :: l)) as [[r used] rest] eqn:E.
  constructor; [|apply IH]. intros Hb. by apply (decode_rune_bad (c :: l) r used rest).
Qed.

(** A string that trims to ASCII is well-formed UTF-8: only spaces were removed. *)
Lemma TrimSpace_ascii_valid s : is_ascii (TrimSpace s) = true -> utf8_valid s = true.
Proof.
  intros Ha. destruct (TrimSpace_split s) as (l & m & r & Hs & Hm & Hsp).
  pose proof (runes_fuel_bad (String.length s) (to_list s)) as Hb.
  fold (runes s) in Hb. unfold utf8_valid. apply forallb_forall. intros x Hx.
  rewrite List.Forall_forall in Hb, Hsp. specialize (Hb x Hx).
  destruct (bad_rune x) eqn:Ebad; [|done]. destruct (Hb eq_refl) as (c & Hc & Hge).
  rewrite Hs in Hx. apply in_app_iff in Hx as [Hx|Hx]; [|apply in_app_iff in Hx as [Hx|Hx]].
  2: { unfold is_ascii in Ha. rewrite forallb_forall in Ha.
       assert (In c (to_list (TrimSpace s))) as Hin
         by (rewrite Hm; apply in_flat_map; exists x; rewrite Hc; simpl; auto).
       specialize (Ha c Hin). zify_bool. lia. }
  all: assert (is_space x.1 = true) as H' by (apply Hsp, in_app_iff; auto).
  all: unfold bad_rune in Ebad; apply andb_true_iff in Ebad as [Er _]; zify_bool.
  all: rewrite Er in H'; discriminate H'.
Qed.

(** ** Separators: fields without a NUL byte are recovered from their join *)

Definition no_nul (s : string) : bool := forallb (fun c => negb (ord c =? 0)) (to_list s).

Lemma no_nul_In s : no_nul s = true <-> ~ In (chr 0) (to_list s).
Proof.
  unfold no_nul. rewrite forallb_forall. split.
  - intros H Hin. by specialize (H _ Hin).
  - intros H c Hc. apply negb_true_iff, Z.eqb_neq. intros H0. apply H.
    by rewrite <- H0, chr_ord.
Qed.

Lemma split_at_nul (s1 s2 t1 t2 : list ascii) :
  ~ In (chr 0) s1 -> ~ In (chr 0) t1 ->
  s1 ++ chr 0 :: s2 = t1 ++ chr 0 :: t2 -> s1 = t1 /\ s2 = t2.
Proof.
  revert t1. induction s1 as [|a s1 IH]; intros [|b t1] Hs Ht H; simpl in *.
  - by injection H.
  - exfalso. injection H as Hb _. apply Ht. auto.
  - exfalso. injection H as Ha _. apply Hs. auto.
  - injection H as -> H. destruct (IH t1) as [-> ->]; auto.
Qed.

Lemma Join_cons f g fs sep :
  Join (f :: g :: fs) sep = (f +:+ sep +:+ Join (g :: fs) sep)%string.
Proof. done. Qed.

Lemma Join_inj (l l' : list string) :
  length l = length l' -> Forall (fun f => no_nul f = true) l ->
  Forall (fun f => no_nul f = true) l' ->
  Join l (byte1 0) = Join l' (byte1 0) -> l = l'.
Proof.
  revert l'. induction l as [|f l IH]; intros [|f' l'] Hlen Hn Hn' H; try done.
  inversion_clear Hn as [|? ? Hf Hl]. inversion_clear Hn' as [|? ? Hf' Hl'].
  destruct l as [|g l], l' as [|g' l']; try done; [simpl in H; by subst|].
  rewrite !Join_cons in H. apply (f_equal to_list) in H. rewrite !to_list_app in H.
  apply split_at_nul in H as [H1 H2]; [|by apply no_nul_In|by apply no_nul_In].
  apply to_list_inj in H1 as ->. apply to_list_inj in H2.
  f_equal. apply IH; auto.
Qed.

Lemma runes_no_nul s : Forall (fun r => r.1 <> 0) (runes s) -> no_nul s = true.
Proof.
  intros H. apply no_nul_In. rewrite <- runes_concat. intros Hin.
  apply in_flat_map in Hin as (x & Hx & Hc).
  pose proof (runes_fuel_chunks (String.length s) (to_list s)) as Hk.
  pose proof (runes_fuel_bad (String.length s) (to_list s)) as Hb.
  fold (runes s) in Hk, Hb. rewrite List.Forall_forall in H, Hk, Hb.
  specialize (H x Hx). specialize (Hk x Hx). specialize (Hb x Hx).
  destruct x as [r used]. simpl in *. destruct Hk as [Hbad|Hch].
  - destruct (Hb Hbad) as (c & -> & Hge). destruct Hc as [Hc|[]]. by subst c.
  - change 0 with (ord (chr 0)) in H.
    destruct Hch; simpl in Hc; destruct_or? Hc; subst; change (ord (chr 0)) with 0 in *;
      repeat case_match; try done; lia.
Qed.

(** A decimal integer is made of a sign and digits. *)
Definition dec_byte (c : ascii) : bool := in_range 48 (ord c) 57 || (ord c =? 43) || (ord c =? 45).

Lemma uint_of_string_digits s d :
  NilEmpty.uint_of_string s = Some d -> forallb dec_byte (to_list s) = true.
Proof.
  revert d. induction s as [|c s IH]; intros d H; [done|]. simpl in *.
  destruct (NilEmpty.uint_of_string s) as [d'|] eqn:E; [|by destruct c as [[] [] [] [] [] [] [] []]].
  rewrite (IH d') by done. rewrite andb_true_r.
  by destruct c as [[] [] [] [] [] [] [] []].
Qed.

Lemma parse_digits_digits s z : parse_digits s = Some z -> forallb dec_byte (to_list s) = true.
Proof.
  unfold parse_digits. destruct s; [done|].
  destruct (NilEmpty.uint_of_string _) eqn:E; [|done]. intros _. by eapply uint_of_string_digits.
Qed.

Lemma SetString_digits_only s z : SetString s = Some z -> forallb dec_byte (to_list s) = true.
Proof.
  intros H. destruct s as [|c s]; [done|].
  assert (parse_digits (String c s) = Some z \/
          (dec_byte c = true /\ exists z', parse_digits s = Some z')) as [Hp|[Hc [z' Hz]]].
  { unfold SetString in H. destruct c as [[] [] [] [] [] [] [] []]; auto.
    - right. split; [done|]. by exists z.
    - right. split; [done|]. destruct (parse_digits s) as [z'|]; [by exists z'|done]. }
  - by apply parse_digits_digits in Hp.
  - apply parse_digits_digits in Hz. simpl. by rewrite Hc.
Qed.

Lemma forallb_imp {A} (p q : A -> bool) l :
  (forall x, p x = true -> q x = true) -> forallb p l = true -> forallb q l = true.
Proof. rewrite !forallb_forall. auto. Qed.

Lemma dec_byte_range c : dec_byte c = true -> 43 <= ord c <= 57.
Proof.
  unfold dec_byte. rewrite !orb_true_iff, in_range_true. intros [[?|?]|?]; zify_bool; lia.
Qed.

Lemma SetString_no_nul s z : SetString s = Some z -> no_nul s = true.
Proof.
  intros H%SetString_digits_only. eapply forallb_imp; [|done]. intros c Hc%dec_byte_range.
  apply negb_true_iff, Z.eqb_neq. lia.
Qed.

Lemma SetString_ascii s z : SetString s = Some z -> is_ascii s = true.
Proof.
  intros H%SetString_digits_only. eapply forallb_imp; [|done]. intros c Hc%dec_byte_range.
  apply Z.ltb_lt. lia.
Qed.

Lemma FormatInt_no_nul z : no_nul (FormatInt z) = true.
Proof. eapply SetString_no_nul, SetString_FormatInt. Qed.

Lemma FormatInt_ascii z : is_ascii (FormatInt z) = true.
Proof. eapply SetString_ascii, SetString_FormatInt. Qed.

Lemma hex_val_no_nul c z : hex_val c = Some z -> negb (ord c =? 0) = true.
Proof.
  unfold hex_val. intros H. apply negb_true_iff, Z.eqb_neq. intros Hc. by rewrite Hc in H.
Qed.

Lemma hex_decode_no_nul n s b :
  (String.length s <= n)%nat -> hex_decode s = Some b -> no_nul s = true.
Proof.
  revert s b. induction n as [|n IH]; intros [|c [|c' s]] b Hn H; simpl in *; try done; try lia.
  destruct (hex_val c) eqn:E1; [|done]. destruct (hex_val c') eqn:E2; [|done].
  destruct (hex_decode s) eqn:E3; [|done]. unfold no_nul. cbn [to_list list_ascii_of_string forallb].
  rewrite (hex_val_no_nul _ _ E1), (hex_val_no_nul _ _ E2). eapply IH; [|done]. lia.
Qed.

(** ** Normal forms: lower-case hexadecimal text is left alone *)

Lemma drop_while_none {A} (p : A -> bool) l : forallb (fun x => negb (p x)) l = true -> drop_while p l = l.
Proof. destruct l as [|a l]; [done|]. simpl. by destruct (p a). Qed.

Lemma forallb_rev {A} (p : A -> bool) l : forallb p (rev l) = forallb p l.
Proof.
  induction l as [|a l IH]; [done|]. simpl. rewrite forallb_app, IH. simpl.
  by rewrite andb_true_r, andb_comm.
Qed.

Lemma flat_map_singletons l : flat_map snd (map (fun c => (ord c, [c])) l) = l.
Proof. induction l as [|c l IH]; [done|]. simpl. by rewrite IH. Qed.

Lemma TrimSpace_id s :
  is_ascii s = true -> forallb (fun c => negb (is_space (ord c))) (to_list s) = true -> TrimSpace s = s.
Proof.
  intros Ha Hs. unfold TrimSpace, runes. rewrite runes_fuel_ascii; [|done|by rewrite to_list_length].
  set (l := map _ (to_list s)).
  assert (forallb (fun r : Z * list ascii => negb (is_space r.1)) l = true) as Hl.
  { unfold l. rewrite forallb_forall in *. intros x Hx. apply in_map_iff in Hx as (c & <- & Hc).
    exact (Hs c Hc). }
  rewrite (drop_while_none _ l), drop_while_none, rev_involutive by (rewrite ?forallb_rev; done).
  unfold l. by rewrite flat_map_singletons, of_to_list.
Qed.

(** A lower-case hexadecimal digit. *)
Definition lower_hex (c : ascii) : bool := in_range 48 (ord c) 57 || in_range 97 (ord c) 102.

Lemma hex_digit_lower z : 0 <= z < 16 -> lower_hex (hex_digit z) = true.
Proof.
  intros Hz. unfold lower_hex, hex_digit. destruct (Z.ltb_spec z 10); rewrite ord_chr by lia;
    apply orb_true_iff; rewrite !in_range_true; lia.
Qed.

Lemma hex_encode_lower s : forallb lower_hex (to_list (hex_encode s)) = true.
Proof.
  induction s as [|c s IH]; [done|]. cbn [hex_encode].
  unfold to_list. cbn [list_ascii_of_string]. fold to_list.
  cbn [forallb]. pose proof (ord_range c). rewrite IH.
  rewrite !hex_digit_lower by (Z.to_euclidean_division_equations; lia). done.
Qed.

Lemma lower_hex_range c : lower_hex c = true -> 48 <= ord c <= 57 \/ 97 <= ord c <= 102.
Proof. unfold lower_hex. by rewrite orb_true_iff, !in_range_true. Qed.

Lemma lower_hex_TrimSpace s : forallb lower_hex (to_list s) = true -> TrimSpace s = s.
Proof.
  intros H. apply TrimSpace_id; eapply forallb_imp; try exact H; intros c Hc%lower_hex_range.
  - apply Z.ltb_lt. lia.
  - apply negb_true_iff. unfold is_space.
    rewrite !orb_false_iff, !in_range_false, !Z.eqb_neq. lia.
Qed.

Lemma lower_hex_ToLower {U : UnicodeTables} s : forallb lower_hex (to_list s) = true -> ToLower s = s.
Proof.
  intros H. unfold ToLower.
  assert (is_ascii s = true) as ->.
  { eapply forallb_imp; [|exact H]. intros c Hc%lower_hex_range. apply Z.ltb_lt. lia. }
  rewrite <- (of_to_list s) at 2. f_equal. rewrite <- (List.map_id (to_list s)) at 2.
  apply map_ext_in. intros c Hc. rewrite forallb_forall in H.
  apply H, lower_hex_range in Hc. unfold lower_byte.
  by rewrite (proj2 (in_range_false 65 (ord c) 90)) by lia.
Qed.

Lemma lower_hex_TrimPrefix s : forallb lower_hex (to_list s) = true -> TrimPrefix s "0x" = s.
Proof.
  intros H. unfold TrimPrefix. destruct (has_prefix "0x" s) eqn:Ep; [|done].
  exfalso. destruct s as [|c0 [|c1 s]]; cbn [has_prefix] in Ep; [done| |].
  { by rewrite andb_false_r in Ep. }
  apply andb_true_iff in Ep as [_ Ep]. apply andb_true_iff in Ep as [Ep _].
  apply Ascii.eqb_eq in Ep. subst c1. simpl in H. by rewrite andb_false_r in H.
Qed.

Lemma substring_all (a : string) : String.substring 0 (String.length a) a = a.
Proof. induction a as [|c a IH]; [done|]. cbn. by f_equal. Qed.
