(* ===== verification/GoJson.v ===== *)
(** * [encoding/json]: the values the modules store and hash

    [json.Marshal] with HTML escaping, and [json.Unmarshal]'s scanner, on the
    values the modules use (objects, arrays, strings, integers, booleans), with
    the theorem that parsing a printed value gives it back. *)

From Stdlib Require Import ZArith Lia List String Ascii Bool.
From Stdlib Require Import DecimalString DecimalZ DecimalFacts.
From stdpp Require Import base gmap strings list.
From S2P Require Import Prelude GoStrings.
Local Open Scope Z_scope.

(** A number is kept as its literal, as the decoder does before it knows the
    type of the target field. *)
Inductive json :=
| JNull
| JBool (b : bool)
| JNum (lit : string)
| JStr (s : string)
| JArr (l : list json)
| JObj (members : list (string * json)).

(** ** Printing *)

Definition quote_c : ascii := chr 34.
Definition backslash : ascii := chr 92.

Definition hex4 (z : Z) : list ascii :=
  [hex_digit (z / 4096 mod 16); hex_digit (z / 256 mod 16);
   hex_digit (z / 16 mod 16); hex_digit (z mod 16)].

Definition esc_u (z : Z) : list ascii := backslash :: chr 117 :: hex4 z.

(** One rune of a string literal, as [appendString] writes it. *)
Definition esc_rune (r : Z * list ascii) : list ascii :=
  let '(c, used) := r in
  if c =? 34 then [backslash; chr 34]
  else if c =? 92 then [backslash; backslash]
  else if c =? 8 then [backslash; chr 98]
  else if c =? 12 then [backslash; chr 102]
  else if c =? 10 then [backslash; chr 110]
  else if c =? 13 then [backslash; chr 114]
  else if c =? 9 then [backslash; chr 116]
  else if (c <? 32) || (c =? 60) || (c =? 62) || (c =? 38) then esc_u c
  else if (c =? RuneError) && (Z.of_nat (length used) =? 1) then esc_u RuneError
  else if (c =? 8232) || (c =? 8233) then esc_u c
  else used.

Definition jquote (s : string) : list ascii :=
  quote_c :: flat_map esc_rune (runes s) ++ [quote_c].

Fixpoint jprint (v : json) : list ascii :=
  let fix elems (l : list json) : list ascii :=
    match l with
    | [] => []
    | [x] => jprint x
    | x :: l' => jprint x ++ chr 44 :: elems l'
    end in
  let fix members (l : list (string * json)) : list ascii :=
    match l with
    | [] => []
    | [(k, x)] => jquote k ++ chr 58 :: jprint x
    | (k, x) :: l' => jquote k ++ chr 58 :: jprint x ++ chr 44 :: members l'
    end in
  match v with
  | JNull => to_list "null"
  | JBool true => to_list "true"
  | JBool false => to_list "false"
  | JNum lit => to_list lit
  | JStr s => jquote s
  | JArr l => chr 91 :: elems l ++ [chr 93]
  | JObj l => chr 123 :: members l ++ [chr 125]
  end.

Definition Marshal (v : json) : bytes := of_list (jprint v).

(** ** Parsing *)

Fixpoint skip_ws (l : list ascii) : list ascii :=
  match l with
  | c :: t => if (ord c =? 32) || (ord c =? 9) || (ord c =? 10) || (ord c =? 13)
              then skip_ws t else l
  | [] => []
  end.

Definition hex4_val (l : list ascii) : option (Z * list ascii) :=
  match l with
  | a :: b :: c :: d :: t =>
    match hex_val a, hex_val b, hex_val c, hex_val d with
    | Some w, Some x, Some y, Some z => Some (4096 * w + 256 * x + 16 * y + z, t)
    | _, _, _, _ => None
    end
  | _ => None
  end.

(** After a [\u] escape: a surrogate pair is combined, a lone surrogate is
    replaced by U+FFFD. *)
Definition unescape_u (l : list ascii) : option (list ascii * list ascii) :=
  match hex4_val l with
  | None => None
  | Some (z, t) =>
    if in_range 55296 z 57343 then
      match t with
      | b :: u :: t' =>
        match (if (ord b =? 92) && (ord u =? 117) then hex4_val t' else None) with
        | Some (z2, t2) =>
          if in_range 55296 z 56319 && in_range 56320 z2 57343
          then Some (encode_rune (65536 + (z - 55296) * 1024 + (z2 - 56320)), t2)
          else Some (encode_rune RuneError, t)
        | None => Some (encode_rune RuneError, t)
        end
      | _ => Some (encode_rune RuneError, t)
      end
    else Some (encode_rune z, t)
  end.

(** The rest of a string literal after its opening quote: its contents and
    what follows the closing quote. *)
Fixpoint pstring (n : nat) (l : list ascii) : option (list ascii * list ascii) :=
  match n, l with
  | O, _ | _, [] => None
  | S n', c :: t =>
    if ord c =? 34 then Some ([], t)
    else if ord c =? 92 then
      let ret := fun (x : list ascii) (t' : list ascii) =>
        match pstring n' t' with
        | Some (s, rest) => Some (x ++ s, rest)
        | None => None
        end in
      match t with
      | e :: t' =>
        if (ord e =? 34) || (ord e =? 92) || (ord e =? 47) then ret [e] t'
        else if ord e =? 98 then ret [chr 8] t'
        else if ord e =? 102 then ret [chr 12] t'
        else if ord e =? 110 then ret [chr 10] t'
        else if ord e =? 114 then ret [chr 13] t'
        else if ord e =? 116 then ret [chr 9] t'
        else if ord e =? 117 then
          match unescape_u t' with
          | Some (x, t'') => ret x t''
          | None => None
          end
        else None
      | [] => None
      end
    else if ord c <? 32 then None
    else
      let '(r, used, t') := decode_rune l in
      let x := if (r =? RuneError) && (Z.of_nat (length used) =? 1)
               then encode_rune RuneError else used in
      match pstring n' t' with
      | Some (s, rest) => Some (x ++ s, rest)
      | None => None
      end
  end.

Definition is_digit_c (c : ascii) : bool := in_range 48 (ord c) 57.

Fixpoint span_digits (l : list ascii) : list ascii * list ascii :=
  match l with
  | c :: t => if is_digit_c c
              then let '(d, r) := span_digits t in (c :: d, r) else ([], l)
  | [] => ([], [])
  end.

(** The JSON number grammar: an optional minus sign, an integer part without
    leading zeros, an optional fraction and an optional exponent. *)
Definition pfrac (l : list ascii) : option (list ascii * list ascii) :=
  match l with
  | c :: t =>
    if ord c =? 46 then
      match span_digits t with
      | ([], _) => None
      | (d, r) => Some (c :: d, r)
      end
    else Some ([], l)
  | [] => Some ([], [])
  end.

Definition pexp (l : list ascii) : option (list ascii * list ascii) :=
  match l with
  | c :: t =>
    if (ord c =? 101) || (ord c =? 69) then
      let '(sg, t') := match t with
        | s :: t' => if (ord s =? 43) || (ord s =? 45) then ([s], t') else ([], t)
        | [] => ([], [])
        end in
      match span_digits t' with
      | ([], _) => None
      | (d, r) => Some (c :: sg ++ d, r)
      end
    else Some ([], l)
  | [] => Some ([], [])
  end.

Definition pnumber (l : list ascii) : option (list ascii * list ascii) :=
  let '(sg, l1) := match l with
    | c :: t => if ord c =? 45 then ([c], t) else ([], l)
    | [] => ([], [])
    end in
  let int := match l1 with
    | c :: t => if ord c =? 48 then Some ([c], t)
                else if is_digit_c c then Some (span_digits l1) else None
    | [] => None
    end in
  match int with
  | None => None
  | Some (i, l2) =>
    match pfrac l2 with
    | None => None
    | Some (f, l3) =>
      match pexp l3 with
      | None => None
      | Some (e, l4) => Some (sg ++ i ++ f ++ e, l4)
      end
    end
  end.

Fixpoint strip (p l : list ascii) : option (list ascii) :=
  match p, l with
  | [], _ => Some l
  | a :: p', b :: l' => if Ascii.eqb a b then strip p' l' else None
  | _ :: _, [] => None
  end.

(** The recursive-descent scanner.  [pelems] and [pmembers] read a non-empty
    array or object up to its closing bracket. *)
Fixpoint pvalue (n : nat) (l : list ascii) : option (json * list ascii) :=
  match n with
  | O => None
  | S n' =>
    match skip_ws l with
    | [] => None
    | c :: t =>
      if ord c =? 34 then
        match pstring (S (length t)) t with
        | Some (s, r) => Some (JStr (of_list s), r)
        | None => None
        end
      else if ord c =? 123 then
        match skip_ws t with
        | d :: t' => if ord d =? 125 then Some (JObj [], t')
                     else match pmembers n' t with
                          | Some (m, r) => Some (JObj m, r)
                          | None => None
                          end
        | [] => None
        end
      else if ord c =? 91 then
        match skip_ws t with
        | d :: t' => if ord d =? 93 then Some (JArr [], t')
                     else match pelems n' t with
                          | Some (m, r) => Some (JArr m, r)
                          | None => None
                          end
        | [] => None
        end
      else if ord c =? 116 then
        match strip (to_list "true") (c :: t) with
        | Some r => Some (JBool true, r) | None => None end
      else if ord c =? 102 then
        match strip (to_list "false") (c :: t) with
        | Some r => Some (JBool false, r) | None => None end
      else if ord c =? 110 then
        match strip (to_list "null") (c :: t) with
        | Some r => Some (JNull, r) | None => None end
      else match pnumber (c :: t) with
           | Some (lit, r) => Some (JNum (of_list lit), r)
           | None => None
           end
    end
  end
with pelems (n : nat) (l : list ascii) : option (list json * list ascii) :=
  match n with
  | O => None
  | S n' =>
    match pvalue n' l with
    | None => None
    | Some (v, r) =>
      match skip_ws r with
      | c :: t =>
        if ord c =? 93 then Some ([v], t)
        else if ord c =? 44 then
          match pelems n' t with
          | Some (vs, r') => Some (v :: vs, r')
          | None => None
          end
        else None
      | [] => None
      end
    end
  end
with pmembers (n : nat) (l : list ascii) : option (list (string * json) * list ascii) :=
  match n with
  | O => None
  | S n' =>
    match skip_ws l with
    | q :: t =>
      if negb (ord q =? 34) then None else
      match pstring (S (length t)) t with
      | None => None
      | Some (k, r0) =>
        match skip_ws r0 with
        | col :: r1 =>
          if negb (ord col =? 58) then None else
          match pvalue n' r1 with
          | None => None
          | Some (v, r) =>
            match skip_ws r with
            | c :: t' =>
              if ord c =? 125 then Some ([(of_list k, v)], t')
              else if ord c =? 44 then
                match pmembers n' t' with
                | Some (vs, r') => Some ((of_list k, v) :: vs, r')
                | None => None
                end
              else None
            | [] => None
            end
          end
        | [] => None
        end
      end
    | [] => None
    end
  end.

(** The whole input is one value, possibly surrounded by white space.  Every
    two nested calls consume at least one byte, so the fuel never runs out. *)
Definition Parse (b : bytes) : option json :=
  match pvalue (2 * String.length b + 2) (to_list b) with
  | Some (v, r) => match skip_ws r with [] => Some v | _ => None end
  | None => None
  end.

Example json_ex1 :
  Parse (Marshal (JObj [("a", JStr "x<"); ("b", JArr [JBool true; JNum "12"; JNull])]))%string
  = Some (JObj [("a", JStr "x<"); ("b", JArr [JBool true; JNum "12"; JNull])])%string.
Proof. reflexivity. Qed.
Example json_ex2 : Marshal (JObj [("paused", JBool false)]) =
  of_list ([chr 123; chr 34] ++ to_list "paused" ++ [chr 34; chr 58] ++ to_list "false" ++ [chr 125]).
Proof. reflexivity. Qed.

(** ** Strings: parsing undoes printing *)

Lemma hex4_val_hex4 z t : 0 <= z < 65536 -> hex4_val (hex4 z ++ t) = Some (z, t).
Proof.
  intros Hz. unfold hex4. cbn [app hex4_val].
  rewrite !hex_val_digit by (apply Z.mod_pos_bound; lia).
  do 2 f_equal. Z.to_euclidean_division_equations. lia.
Qed.

Definition pcons (x : list ascii) (r : option (list ascii * list ascii)) :=
  match r with Some (s, rest) => Some (x ++ s, rest) | None => None end.

Lemma pstring_esc_u n z t :
  0 <= z < 55296 ->
  pstring (S n) (esc_u z ++ t) = pcons (encode_rune z) (pstring n t).
Proof.
  intros Hz. unfold esc_u. rewrite <- app_comm_cons, <- app_comm_cons.
  cbn [pstring]. change (ord backslash =? 34) with false. change (ord backslash =? 92) with true.
  cbv iota. change (ord (chr 117)) with 117. cbn [Z.eqb orb].
  unfold unescape_u. rewrite hex4_val_hex4 by lia.
  rewrite (proj2 (in_range_false 55296 z 57343)) by lia. done.
Qed.

Lemma pstring_esc_rune n r used t :
  utf8_chunk r used ->
  pstring (S n) (esc_rune (r, used) ++ t) = pcons used (pstring n t).
Proof.
  intros Hc. pose proof (encode_rune_chunk _ _ Hc) as He.
  pose proof (utf8_chunk_range _ _ Hc) as Hr. unfold esc_rune.
  (* the two-character escapes stand for a one-byte rune *)
  repeat match goal with
  | |- context [if r =? ?k then _ else _] =>
      destruct (Z.eqb_spec r k) as [->|]; [rewrite <- He; reflexivity|]
  end.
  destruct ((r <? 32) || (r =? 60) || (r =? 62) || (r =? 38)) eqn:E1.
  { rewrite pstring_esc_u by (rewrite ?orb_true_iff in E1;
      repeat match goal with H : _ \/ _ |- _ => destruct H end; zify_bool; lia).
    by rewrite He. }
  destruct ((r =? RuneError) && (Z.of_nat (length used) =? 1)) eqn:E2.
  { apply andb_true_iff in E2 as [E2 E3]. zify_bool. subst r.
    rewrite <- He in E3. discriminate E3. }
  destruct ((r =? 8232) || (r =? 8233)) eqn:E3.
  { rewrite pstring_esc_u by (apply orb_true_iff in E3 as [|]; zify_bool; lia). by rewrite He. }
  pose proof (decode_rune_chunk _ _ t Hc) as Hd.
  rewrite !orb_false_iff in E1. destruct E1 as [[[? ?] ?] ?].
  assert (exists c t', used ++ t = c :: t' /\ (ord c = r \/ 128 <= ord c)) as (c & t' & Hu & Hor).
  { destruct Hc; eexists _, _; (split; [reflexivity|]); first [by left | right; lia]. }
  rewrite Hu in Hd |- *. cbn [pstring]. rewrite Hd, E2. zify_bool.
  rewrite (proj2 (Z.eqb_neq (ord c) 34)), (proj2 (Z.eqb_neq (ord c) 92)),
    (proj2 (Z.ltb_ge (ord c) 32)) by lia.
  done.
Qed.

Lemma pstring_escs n rs rest :
  Forall (fun r => utf8_chunk r.1 r.2) rs -> (length rs < n)%nat ->
  pstring n (flat_map esc_rune rs ++ quote_c :: rest) = Some (flat_map snd rs, rest).
Proof.
  intros Hrs. revert n. induction Hrs as [|[r used] rs Hr Hrs IH]; intros n Hn.
  { destruct n; [simpl in Hn; lia|]. reflexivity. }
  destruct n as [|n]; [simpl in Hn; lia|].
  cbn [flat_map]. rewrite <- app_assoc, pstring_esc_rune by done.
  rewrite IH by (simpl in Hn; lia). done.
Qed.

Lemma esc_rune_nonempty r : utf8_chunk r.1 r.2 -> esc_rune r <> [].
Proof.
  destruct r as [r used]. intros Hc. simpl in Hc.
  assert (used <> []) by (by destruct Hc).
  unfold esc_rune. repeat case_match; done.
Qed.

Lemma flat_map_length_ge {A B} (f : A -> list B) l :
  Forall (fun x => f x <> []) l -> (length l <= length (flat_map f l))%nat.
Proof.
  induction 1 as [|x l Hx Hl IH]; simpl; [done|]. rewrite length_app.
  destruct (f x); [done|]. simpl. lia.
Qed.

(** A quoted string followed by anything is read back, quote included. *)
Lemma pstring_jquote s rest :
  utf8_valid s = true ->
  let t := flat_map esc_rune (runes s) ++ quote_c :: rest in
  jquote s ++ rest = quote_c :: t /\ pstring (S (length t)) t = Some (to_list s, rest).
Proof.
  intros Hv t. apply utf8_valid_chunks in Hv. split.
  { unfold jquote, t. simpl. by rewrite <- app_assoc. }
  unfold t. rewrite pstring_escs; [by rewrite runes_concat|done|].
  rewrite length_app. simpl.
  assert (Forall (fun x => esc_rune x <> []) (runes s)) as Hne
    by (eapply Forall_impl; [exact Hv|]; intros; by apply esc_rune_nonempty).
  pose proof (flat_map_length_ge _ _ Hne). lia.
Qed.

(** ** Values: parsing undoes printing *)

Section json_ind.
Variable P : json -> Prop.
Hypothesis HNull : P JNull.
Hypothesis HBool : forall b, P (JBool b).
Hypothesis HNum : forall lit, P (JNum lit).
Hypothesis HStr : forall s, P (JStr s).
Hypothesis HArr : forall l, Forall P l -> P (JArr l).
Hypothesis HObj : forall l, Forall (fun kv => P kv.2) l -> P (JObj l).

Fixpoint json_ind' (v : json) : P v :=
  match v with
  | JNull => HNull
  | JBool b => HBool b
  | JNum lit => HNum lit
  | JStr s => HStr s
  | JArr l => HArr l ((fix go l : Forall P l :=
      match l with
      | [] => List.Forall_nil _
      | x :: l' => List.Forall_cons _ _ _ (json_ind' x) (go l')
      end) l)
  | JObj l => HObj l ((fix go l : Forall (fun kv => P kv.2) l :=
      match l with
      | [] => List.Forall_nil _
      | x :: l' => List.Forall_cons _ _ _ (json_ind' x.2) (go l')
      end) l)
  end.
End json_ind.

(** The values the modules print: valid UTF-8 strings and natural numbers. *)
Inductive wf_json : json -> Prop :=
| wf_null : wf_json JNull
| wf_bool b : wf_json (JBool b)
| wf_num z : 0 <= z -> wf_json (JNum (FormatInt z))
| wf_str s : utf8_valid s = true -> wf_json (JStr s)
| wf_arr l : Forall wf_json l -> wf_json (JArr l)
| wf_obj l : Forall (fun kv => utf8_valid kv.1 = true /\ wf_json kv.2) l -> wf_json (JObj l).

Definition jelems : list json -> list ascii :=
  fix elems l := match l with
    | [] => []
    | [x] => jprint x
    | x :: l' => jprint x ++ chr 44 :: elems l'
    end.
Definition jmembers : list (string * json) -> list ascii :=
  fix members l := match l with
    | [] => []
    | [(k, x)] => jquote k ++ chr 58 :: jprint x
    | (k, x) :: l' => jquote k ++ chr 58 :: jprint x ++ chr 44 :: members l'
    end.

Lemma jprint_arr l : jprint (JArr l) = chr 91 :: jelems l ++ [chr 93].
Proof. done. Qed.
Lemma jprint_obj l : jprint (JObj l) = chr 123 :: jmembers l ++ [chr 125].
Proof. done. Qed.

(** The fuel [pvalue] needs for a value. *)
Fixpoint need (v : json) : nat :=
  match v with
  | JArr l => S (list_sum (map (fun x => S (need x)) l))
  | JObj l => S (list_sum (map (fun kv => S (need kv.2)) l))
  | _ => 1
  end.

Definition delim (l : list ascii) : Prop :=
  match l with
  | [] => True
  | c :: _ => ord c = 44 \/ ord c = 93 \/ ord c = 125
  end.

Definition plain_head (l : list ascii) : Prop :=
  match l with
  | [] => False
  | c :: _ => ~ (ord c = 32 \/ ord c = 9 \/ ord c = 10 \/ ord c = 13) /\
              ord c <> 93 /\ ord c <> 125
  end.

Lemma skip_ws_plain l : plain_head l -> skip_ws l = l.
Proof.
  destruct l as [|c t]; [done|]. simpl. intros (Hw & _).
  destruct (((ord c =? 32) || (ord c =? 9)) || (ord c =? 10) || (ord c =? 13)) eqn:E; [|done].
  exfalso. apply Hw. rewrite !orb_true_iff in E. zify_bool. naive_solver (zify_bool; lia).
Qed.

Lemma skip_ws_delim l : delim l -> skip_ws l = l.
Proof.
  destruct l as [|c t]; [done|]. simpl. intros H.
  rewrite (proj2 (Z.eqb_neq (ord c) 32)), (proj2 (Z.eqb_neq (ord c) 9)),
    (proj2 (Z.eqb_neq (ord c) 10)), (proj2 (Z.eqb_neq (ord c) 13)) by lia. done.
Qed.

Lemma plain_head_app l t : plain_head l -> plain_head (l ++ t).
Proof. by destruct l. Qed.

(** Natural numbers print as their digits, without leading zeros. *)
Lemma span_digits_uint d rest :
  delim rest -> span_digits (to_list (NilEmpty.string_of_uint d) ++ rest)
    = (to_list (NilEmpty.string_of_uint d), rest).
Proof.
  intros Hd. induction d; cbn [NilEmpty.string_of_uint].
  1: { destruct rest as [|c t]; [done|]. simpl in *.
       unfold is_digit_c. rewrite (proj2 (in_range_false 48 (ord c) 57)) by lia. done. }
  all: change (to_list (String ?c ?s)) with (c :: to_list s);
    cbn [app span_digits]; rewrite IHd; reflexivity.
Qed.

Lemma pnumber_tail rest : delim rest -> pfrac rest = Some ([], rest) /\ pexp rest = Some ([], rest).
Proof.
  destruct rest as [|c t]; [done|]. simpl. intros H.
  rewrite (proj2 (Z.eqb_neq (ord c) 46)), (proj2 (Z.eqb_neq (ord c) 101)),
    (proj2 (Z.eqb_neq (ord c) 69)) by lia. done.
Qed.

Lemma nzhead_not_D0 d d' : Decimal.nzhead d <> Decimal.D0 d'.
Proof. induction d; simpl; done. Qed.

Lemma to_uint_D0 z d : Z.to_int z = Decimal.Pos (Decimal.D0 d) -> d = Decimal.Nil.
Proof.
  intros H. assert (Decimal.norm (Decimal.Pos (Decimal.D0 d)) = Decimal.Pos (Decimal.D0 d)) as Hn.
  { rewrite <- H. rewrite <- DecimalZ.to_of, DecimalZ.of_to. done. }
  simpl in Hn. injection Hn as Hn. unfold Decimal.unorm in Hn. simpl in Hn.
  destruct (Decimal.nzhead d) eqn:E; simplify_eq; [done|].
  by apply nzhead_not_D0 in E.
Qed.

Lemma pnumber_nat z rest : 0 <= z -> delim rest ->
  pnumber (to_list (FormatInt z) ++ rest) = Some (to_list (FormatInt z), rest) /\
  exists c t, to_list (FormatInt z) = c :: t /\ is_digit_c c = true.
Proof.
  intros Hz Hd. destruct (pnumber_tail rest Hd) as [Hf He].
  assert (exists d, Z.to_int z = Decimal.Pos d /\ d <> Decimal.Nil) as (d & Hd' & Hn).
  { pose proof (Z_to_int_nonnil z). destruct z; try lia; eauto. }
  unfold FormatInt. rewrite Hd', FormatInt_pos by done.
  pose proof (span_digits_uint d rest Hd) as Hs.
  assert (exists c t, to_list (NilEmpty.string_of_uint d) = c :: t /\ is_digit_c c = true /\
    (ord c = 48 -> t = [])) as (c & t & Hl & Hc & H0).
  { destruct d as [|d|d|d|d|d|d|d|d|d|d]; [done|..]; eexists _, _;
      (split; [reflexivity|split; [reflexivity|]]); try (vm_compute; done).
    intros _. by rewrite (to_uint_D0 _ _ Hd'). }
  split; [|by eauto]. rewrite Hl in *. cbn [app] in *.
  unfold is_digit_c in Hc. pose proof Hc as Hc'. apply in_range_true in Hc'.
  unfold pnumber. rewrite (proj2 (Z.eqb_neq (ord c) 45)) by lia.
  destruct (Z.eqb_spec (ord c) 48) as [E|_].
  - rewrite (H0 E). simpl. by rewrite Hf, He.
  - unfold is_digit_c. rewrite Hc, Hs, Hf, He. by rewrite !app_nil_r.
Qed.

Lemma jprint_head v : wf_json v -> plain_head (jprint v).
Proof.
  destruct 1 as [|[]|z Hz|s|l|l]; simpl; try (unfold ord; simpl; lia).
  destruct (pnumber_nat z [] Hz I) as (_ & c & t & -> & Hc). simpl.
  unfold is_digit_c in Hc. apply in_range_true in Hc. lia.
Qed.

Definition parses (v : json) : Prop := forall n rest,
  (need v <= n)%nat -> delim rest -> pvalue n (jprint v ++ rest) = Some (v, rest).

Lemma jelems_cons x y l : jelems (x :: y :: l) = jprint x ++ chr 44 :: jelems (y :: l).
Proof. done. Qed.
Lemma jmembers_cons k x y l :
  jmembers ((k, x) :: y :: l) = jquote k ++ chr 58 :: jprint x ++ chr 44 :: jmembers (y :: l).
Proof. done. Qed.

Lemma pelems_print l n rest :
  l <> [] -> Forall parses l -> (list_sum (map (fun x => S (need x)) l) <= n)%nat ->
  pelems n (jelems l ++ chr 93 :: rest) = Some (l, rest).
Proof.
  revert n. induction l as [|x l IH]; intros n Hne Hp Hn; [done|].
  apply Forall_cons in Hp as [Hx Hl]. simpl in Hn.
  destruct n as [|n]; [lia|]. cbn [pelems].
  destruct l as [|y l].
  - cbn [jelems]. rewrite Hx; [done|lia|simpl; auto].
  - rewrite jelems_cons, <- app_assoc. rewrite Hx; [|lia|simpl; auto].
    cbn [app]. change (skip_ws (chr 44 :: ?t)) with (chr 44 :: t). cbv iota.
    change (ord (chr 44)) with 44. cbn [Z.eqb Pos.eqb]. rewrite IH; [done|done|done|lia].
Qed.

Lemma pmembers_print l n rest :
  l <> [] -> Forall (fun kv => utf8_valid kv.1 = true /\ parses kv.2) l ->
  (list_sum (map (fun kv => S (need kv.2)) l) <= n)%nat ->
  pmembers n (jmembers l ++ chr 125 :: rest) = Some (l, rest).
Proof.
  revert n. induction l as [|[k x] l IH]; intros n Hne Hp Hn; [done|].
  apply Forall_cons in Hp as [[Hk Hx] Hl]. simpl in Hk, Hx. simpl in Hn.
  destruct n as [|n]; [lia|]. cbn [pmembers].
  assert (exists tail, jmembers ((k, x) :: l) ++ chr 125 :: rest
      = jquote k ++ chr 58 :: jprint x ++ tail /\ delim tail /\
      match tail with
      | c :: t' => if ord c =? 125 then l = [] /\ t' = rest
                   else ord c = 44 /\ l <> [] /\ t' = jmembers l ++ chr 125 :: rest
      | [] => False
      end) as (tail & -> & Hd & Htail).
  { destruct l as [|y l].
    - exists (chr 125 :: rest). cbn [jmembers]. rewrite <- app_assoc. simpl. auto.
    - exists (chr 44 :: jmembers (y :: l) ++ chr 125 :: rest). rewrite jmembers_cons.
      rewrite <- !app_assoc. cbn [app]. rewrite <- !app_assoc. simpl. auto. }
  destruct (pstring_jquote k (chr 58 :: jprint x ++ tail) Hk) as [-> Hs].
  change (skip_ws (quote_c :: ?t)) with (quote_c :: t). cbv iota.
  change (ord quote_c =? 34) with true. cbn [negb].
  rewrite Hs. change (skip_ws (chr 58 :: ?t)) with (chr 58 :: t). cbv iota.
  change (ord (chr 58) =? 58) with true. cbn [negb].
  rewrite Hx; [|lia|done]. rewrite skip_ws_delim by done.
  destruct tail as [|c t']; [done|]. rewrite of_to_list.
  destruct (ord c =? 125); destruct Htail as [? Htail]; [by subst|].
  destruct Htail as [? ->]. rewrite (proj2 (Z.eqb_eq (ord c) 44)) by done.
  rewrite IH; [done|done|done|lia].
Qed.

Lemma pvalue_print v : wf_json v -> parses v.
Proof.
  induction v as [|b|lit|s|l IH|l IH] using json_ind'; intros Hwf n rest Hn Hd;
    (destruct n as [|n]; [simpl in Hn; lia|]).
  - reflexivity.
  - by destruct b.
  - inversion Hwf as [| |z Hz| | |]; subst. destruct (pnumber_nat z rest Hz Hd) as (Hp & c & t & Hc & Hdig).
    cbn [pvalue jprint]. rewrite skip_ws_plain by (apply plain_head_app, (jprint_head (JNum _)), Hwf).
    rewrite Hc in *. cbn [app] in *. unfold is_digit_c in Hdig. apply in_range_true in Hdig.
    rewrite (proj2 (Z.eqb_neq (ord c) 34)), (proj2 (Z.eqb_neq (ord c) 123)),
      (proj2 (Z.eqb_neq (ord c) 91)), (proj2 (Z.eqb_neq (ord c) 116)),
      (proj2 (Z.eqb_neq (ord c) 102)), (proj2 (Z.eqb_neq (ord c) 110)) by lia.
    rewrite Hp. by rewrite <- Hc, of_to_list.
  - inversion Hwf; subst. cbn [pvalue jprint].
    destruct (pstring_jquote s rest ltac:(done)) as [-> Hs].
    change (skip_ws (quote_c :: ?t)) with (quote_c :: t). cbv iota.
    change (ord quote_c =? 34) with true. cbv iota. by rewrite Hs, of_to_list.
  - inversion Hwf as [| | | |l' Hl|]; subst. rewrite jprint_arr. cbn [pvalue app].
    change (skip_ws (chr 91 :: ?t)) with (chr 91 :: t). cbv iota.
    change (ord (chr 91)) with 91. cbn [Z.eqb Pos.eqb].
    destruct l as [|x l]; [reflexivity|].
    assert (plain_head (jelems (x :: l))) as Hh.
    { apply Forall_cons in Hl as [Hx _]. destruct l; [by apply jprint_head|].
      rewrite jelems_cons. by apply plain_head_app, jprint_head. }
    rewrite <- app_assoc. cbn [app]. rewrite skip_ws_plain by by apply plain_head_app.
    rewrite pelems_print; [|done| |simpl in *; lia].
    + destruct (jelems (x :: l)) as [|c t]; [done|]. cbn [app]. destruct Hh as (_ & H93 & _).
      by rewrite (proj2 (Z.eqb_neq _ _) H93).
    + rewrite Forall_forall in *. auto.
  - inversion Hwf as [| | | | |l' Hl]; subst. rewrite jprint_obj. cbn [pvalue app].
    change (skip_ws (chr 123 :: ?t)) with (chr 123 :: t). cbv iota.
    change (ord (chr 123)) with 123. cbn [Z.eqb Pos.eqb].
    destruct l as [|[k x] l]; [reflexivity|].
    rewrite <- app_assoc. cbn [app]. rewrite pmembers_print; [|done| |simpl in *; lia].
    + assert (exists t, jmembers ((k, x) :: l) = quote_c :: t) as [t ->]
        by (destruct l; eexists; reflexivity). reflexivity.
    + rewrite Forall_forall in *. intros kv Hkv. destruct (Hl kv Hkv). auto.
Qed.

Lemma need_elems_bound l :
  Forall (fun v => (need v <= 2 * length (jprint v))%nat) l ->
  (list_sum (map (fun x => S (need x)) l) <= 2 * length (jelems l) + 1)%nat.
Proof.
  induction 1 as [|x l Hx Hl IH]; [simpl; lia|]. destruct l as [|y l].
  - cbn. cbn in Hx. lia.
  - rewrite jelems_cons, length_app. cbn [map list_sum length] in *. cbn in IH |- *. lia.
Qed.

Lemma need_members_bound l :
  Forall (fun kv => (need kv.2 <= 2 * length (jprint kv.2))%nat) l ->
  (list_sum (map (fun kv => S (need kv.2)) l) <= 2 * length (jmembers l) + 1)%nat.
Proof.
  induction 1 as [|[k x] l Hx Hl IH]; [simpl; lia|]. destruct l as [|y l].
  - cbn. cbn in Hx. rewrite !length_app. cbn. lia.
  - rewrite jmembers_cons, !length_app. cbn [length]. rewrite length_app. cbn in IH, Hx |- *. lia.
Qed.

Lemma need_bound v : wf_json v -> (need v <= 2 * length (jprint v))%nat.
Proof.
  induction v as [|b|lit|s|l IH|l IH] using json_ind'; intros Hwf.
  1-4: apply jprint_head in Hwf; cbn [need]; destruct (jprint _); [done|]; simpl; lia.
  - inversion Hwf as [| | | |l' Hl|]; subst. rewrite jprint_arr. cbn [length need].
    rewrite length_app. pose proof (need_elems_bound l). rewrite Forall_forall in *.
    specialize (H ltac:(auto)). simpl. lia.
  - inversion Hwf as [| | | | |l' Hl]; subst. rewrite jprint_obj. cbn [length need].
    rewrite length_app. pose proof (need_members_bound l). rewrite Forall_forall in *.
    assert (forall x, x ∈ l -> (need x.2 <= 2 * length (jprint x.2))%nat) as Hb.
    { intros x Hx. destruct (Hl x Hx). by apply IH. }
    specialize (H Hb). simpl. lia.
Qed.

Theorem Parse_Marshal v : wf_json v -> Parse (Marshal v) = Some v.
Proof.
  intros Hwf. unfold Parse, Marshal. rewrite <- to_list_length, to_of_list.
  pose proof (need_bound v Hwf).
  pose proof (pvalue_print v Hwf (2 * length (jprint v) + 2)%nat []) as Hp.
  rewrite app_nil_r in Hp. rewrite Hp by (simpl; lia || done). done.
Qed.

(** [Unmarshal] only ever sees non-empty input from the stores: a marshalled
    value is never empty. *)
Lemma Marshal_nonempty v : wf_json v -> Marshal v <> EmptyString.
Proof.
  intros Hwf H. apply jprint_head in Hwf. unfold Marshal in H.
  destruct (jprint v); [done|]. discriminate H.
Qed.

(** ** Typed fields

    Decoding into a struct assigns each member to the field its key names,
    exactly or up to case; [null] leaves a field as it is, and a value of
    another kind is a type error. *)
Definition key_is (name k : string) : bool :=
  String.eqb name k || EqualFold_ascii name k.

Definition type_error : error := "json: cannot unmarshal value into Go struct field".

Definition as_string (prev : string) (v : json) : outcome string :=
  match v with JStr s => Ok s | JNull => Ok prev | _ => Err type_error end.

Definition as_bool (prev : bool) (v : json) : outcome bool :=
  match v with JBool b => Ok b | JNull => Ok prev | _ => Err type_error end.

Fixpoint as_strings_elems (l : list json) : outcome (list string) :=
  match l with
  | [] => Ok []
  | x :: l' =>
      obind (as_string EmptyString x) (fun s =>
      obind (as_strings_elems l') (fun r => Ok (s :: r)))
  end.

Definition as_strings (prev : list string) (v : json) : outcome (list string) :=
  match v with
  | JArr l => as_strings_elems l
  | JNull => Ok []
  | _ => Err type_error
  end.

(** An unsigned integer of the given width: digits only, in range. *)
Definition as_uint (bound prev : Z) (v : json) : outcome Z :=
  match v with
  | JNum lit =>
      match parse_digits lit with
      | Some z => if z <? bound then Ok z else Err type_error
      | None => Err type_error
      end
  | JNull => Ok prev
  | _ => Err type_error
  end.

Lemma parse_digits_FormatInt z : 0 <= z -> parse_digits (FormatInt z) = Some z.
Proof.
  intros Hz. pose proof (SetString_FormatInt z) as H.
  destruct (pnumber_nat z [] Hz I) as (_ & c & t & Hc & Hd).
  destruct (FormatInt z) as [|a s]; [done|].
  change (to_list (String a s)) with (a :: to_list s) in Hc. injection Hc as -> _.
  unfold SetString in H. unfold is_digit_c in Hd. apply in_range_true in Hd.
  destruct c as [[] [] [] [] [] [] [] []]; try exact H; exfalso; destruct Hd as [H1 H2]; first [apply H1; reflexivity | apply H2; reflexivity].
Qed.

Lemma as_uint_FormatInt bound prev z :
  0 <= z < bound -> as_uint bound prev (JNum (FormatInt z)) = Ok z.
Proof.
  intros Hz. unfold as_uint. rewrite parse_digits_FormatInt by lia.
  by rewrite (proj2 (Z.ltb_lt z bound)) by lia.
Qed.

Lemma as_strings_map prev l : as_strings prev (JArr (map JStr l)) = Ok l.
Proof. simpl. induction l; simpl; [done|]. by rewrite IHl. Qed.

(** Decides the comparisons of literal member names in a goal. *)
Ltac key_eval :=
  repeat match goal with
  | |- context [key_is ?a ?b] =>
      let r := eval vm_compute in (key_is a b) in change (key_is a b) with r
  end.

#[global] Opaque Parse Marshal.
