(* ===== verification/Sha256.v ===== *)
(** * [crypto/sha256]

    [sha256.Sum256] on byte strings (FIPS 180-4), executable, checked on the
    standard's test vectors.  The modules use it for replay keys and payload
    commitments; the theorems about them never assume it injective, they
    exhibit the collision instead. *)

From Stdlib Require Import ZArith Lia List String Ascii Bool.
From stdpp Require Import base strings list.
From S2P Require Import Prelude GoStrings.
Local Open Scope Z_scope.

Definition mask32 : Z := 4294967295.
Definition add32 (a b : Z) : Z := Z.land (a + b) mask32.
Definition rotr (n x : Z) : Z :=
  Z.lor (Z.shiftr x n) (Z.land (Z.shiftl x (32 - n)) mask32).

Definition Ch (x y z : Z) : Z := Z.lxor (Z.land x y) (Z.land (Z.lxor x mask32) z).
Definition Maj (x y z : Z) : Z :=
  Z.lxor (Z.land x y) (Z.lxor (Z.land x z) (Z.land y z)).
Definition Sigma0 (x : Z) : Z := Z.lxor (rotr 2 x) (Z.lxor (rotr 13 x) (rotr 22 x)).
Definition Sigma1 (x : Z) : Z := Z.lxor (rotr 6 x) (Z.lxor (rotr 11 x) (rotr 25 x)).
Definition sigma0 (x : Z) : Z := Z.lxor (rotr 7 x) (Z.lxor (rotr 18 x) (Z.shiftr x 3)).
Definition sigma1 (x : Z) : Z := Z.lxor (rotr 17 x) (Z.lxor (rotr 19 x) (Z.shiftr x 10)).

(** The fractional parts of the cube roots of the first sixty-four primes, and
    of the square roots of the first eight, as thirty-two bits. *)
Definition K : list Z :=
  [1116352408; 1899447441; 3049323471; 3921009573; 961987163; 1508970993; 2453635748; 2870763221;
   3624381080; 310598401; 607225278; 1426881987; 1925078388; 2162078206; 2614888103; 3248222580;
   3835390401; 4022224774; 264347078; 604807628; 770255983; 1249150122; 1555081692; 1996064986;
   2554220882; 2821834349; 2952996808; 3210313671; 3336571891; 3584528711; 113926993; 338241895;
   666307205; 773529912; 1294757372; 1396182291; 1695183700; 1986661051; 2177026350; 2456956037;
   2730485921; 2820302411; 3259730800; 3345764771; 3516065817; 3600352804; 4094571909; 275423344;
   430227734; 506948616; 659060556; 883997877; 958139571; 1322822218; 1537002063; 1747873779;
   1955562222; 2024104815; 2227730452; 2361852424; 2428436474; 2756734187; 3204031479; 3329325298].

Record hstate := HState { ha : Z; hb : Z; hc : Z; hd : Z; he : Z; hf : Z; hg : Z; hh : Z }.

Definition H0 : hstate :=
  HState 1779033703 3144134277 1013904242 2773480762 1359893119 2600822924 528734635 1541459225.

(** The message schedule, most recent word first. *)
Definition next_word (ws : list Z) : Z :=
  let w i := nth i ws 0 in
  add32 (add32 (sigma1 (w 1%nat)) (w 6%nat)) (add32 (sigma0 (w 14%nat)) (w 15%nat)).
Fixpoint schedule (n : nat) (ws : list Z) : list Z :=
  match n with O => ws | S n' => schedule n' (next_word ws :: ws) end.

Definition round (s : hstate) (kw : Z * Z) : hstate :=
  let t1 := add32 (add32 (add32 (hh s) (Sigma1 (he s))) (Ch (he s) (hf s) (hg s)))
                  (add32 kw.1 kw.2) in
  let t2 := add32 (Sigma0 (ha s)) (Maj (ha s) (hb s) (hc s)) in
  HState (add32 t1 t2) (ha s) (hb s) (hc s) (add32 (hd s) t1) (he s) (hf s) (hg s).

Definition block (s : hstate) (words : list Z) : hstate :=
  let w := rev (schedule 48 (rev words)) in
  let r := fold_left round (zip K w) s in
  HState (add32 (ha s) (ha r)) (add32 (hb s) (hb r)) (add32 (hc s) (hc r)) (add32 (hd s) (hd r))
         (add32 (he s) (he r)) (add32 (hf s) (hf r)) (add32 (hg s) (hg r)) (add32 (hh s) (hh r)).

Fixpoint words (n : nat) (l : list ascii) : list Z * list ascii :=
  match n, l with
  | S n', a :: b :: c :: d :: t =>
    let '(ws, r) := words n' t in
    (((ord a * 256 + ord b) * 256 + ord c) * 256 + ord d :: ws, r)
  | _, _ => ([], l)
  end.

Fixpoint blocks (n : nat) (s : hstate) (l : list ascii) : hstate :=
  match n with
  | O => s
  | S n' => let '(ws, r) := words 16 l in blocks n' (block s ws) r
  end.

(** Padding to a multiple of 64 bytes: a one bit, zeros, the bit length. *)
Definition pad (l : list ascii) : list ascii :=
  let n := Z.of_nat (length l) in
  let zeros := Z.to_nat ((55 - n) mod 64) in
  l ++ chr 128 :: repeat (chr 0) zeros ++ to_list (be_bytes 8 (8 * n)).

Definition sha256 (s : bytes) : bytes :=
  let l := pad (to_list s) in
  let r := blocks (length l / 64) H0 l in
  (be_bytes 4 (ha r) +:+ be_bytes 4 (hb r) +:+ be_bytes 4 (hc r) +:+ be_bytes 4 (hd r) +:+
   be_bytes 4 (he r) +:+ be_bytes 4 (hf r) +:+ be_bytes 4 (hg r) +:+ be_bytes 4 (hh r))%string.

Example sha256_empty : hex_encode (sha256 "") =
  "e3b0c44298fc1c149afbf4c8996fb92427ae41e4649b934ca495991b7852b855".
Proof. vm_compute. reflexivity. Qed.
Example sha256_abc : hex_encode (sha256 "abc") =
  "ba7816bf8f01cfea414140de5dae2223b00361a396177a9cb410ff61f20015ad".
Proof. vm_compute. reflexivity. Qed.
Example sha256_two_blocks :
  hex_encode (sha256 "abcdbcdecdefdefgefghfghighijhijkijkljklmklmnlmnomnopnopq") =
  "248d6a61d20638b8e5c026930c3e6039a33ce45964ff2167f6ecedd419db06c1".
Proof. vm_compute. reflexivity. Qed.

Lemma sha256_length s : String.length (sha256 s) = 32%nat.
Proof. unfold sha256. by rewrite !string_app_length, !be_bytes_length. Qed.

(** An explicit collision, the only way two different inputs share a digest. *)
Definition sha256_collision (x y : bytes) : Prop := x <> y /\ sha256 x = sha256 y.

Lemma sha256_eq x y : sha256 x = sha256 y -> x = y \/ sha256_collision x y.
Proof. intros H. destruct (decide (x = y)); [by left|by right]. Qed.

#[global] Opaque sha256.
