(* ===== verification/Sdk.v ===== *)
(** * The libraries around the modules, as interfaces

    The Cosmos SDK, [cosmossdk.io/math] and go-ethereum are not part of the
    repository.  Each is a type class: the operations the modules call, and as
    laws the documented behaviour the modules rely on.  Every definition and
    theorem of the development is generic in them; the file RefEnv gives
    concrete executable instances, so the classes are inhabited and witnesses
    can be evaluated.  The iteration of a store in the order of its keys closes
    the file. *)

From Stdlib Require Import ZArith Lia List String Ascii Bool.
From stdpp Require Import base gmap strings list sorting.
From S2P Require Import Prelude GoStrings Sha256.
Local Open Scope Z_scope.

(** What the handlers read of [sdk.Context]: the block time in Unix seconds and
    the block height (both [int64]). *)
Record Ctx := MkCtx { BlockTime : Z; BlockHeight : Z }.

(** A module's KV store: byte keys to byte values. *)
Abbreviation KVStore := (gmap string string).

(** [store.Get] returns nil, an empty slice, for a missing key. *)
Definition kv_get (kv : KVStore) (k : string) : bytes := default EmptyString (kv !! k).
Definition kv_has (kv : KVStore) (k : string) : bool := bool_decide (is_Some (kv !! k)).

Abbreviation addr := string.
Record Coin := MkCoin { Denom : string; Amount : Z }.

(** ** [cosmossdk.io/math]: [Int] is a big integer bounded to 256 bits *)
Definition int_fits (z : Z) : bool := Z.abs z <? two256.

Class SdkMath := {
  NewIntFromString : string -> option Z;
  NewIntFromBigInt : Z -> outcome Z;
  Int_Add : Z -> Z -> outcome Z;
  Int_Sub : Z -> Z -> outcome Z;
  Int_Mul : Z -> Z -> outcome Z;
  Int_Quo : Z -> Z -> outcome Z;
  Int_String : Z -> string;
  overflow : string;
  div_by_zero : string;
  NewIntFromString_fits s z : NewIntFromString s = Some z -> int_fits z = true;
  NewIntFromString_decimal z : int_fits z = true -> NewIntFromString (FormatInt z) = Some z;
  NewIntFromString_overflow z : int_fits z = false -> NewIntFromString (FormatInt z) = None;
  NewIntFromBigInt_spec z : NewIntFromBigInt z = if int_fits z then Ok z else Panic overflow;
  Int_Add_spec a b : Int_Add a b = if int_fits (a + b) then Ok (a + b) else Panic overflow;
  Int_Sub_spec a b : Int_Sub a b = if int_fits (a - b) then Ok (a - b) else Panic overflow;
  Int_Mul_spec a b : Int_Mul a b = if int_fits (a * b) then Ok (a * b) else Panic overflow;
  Int_Quo_spec a b : Int_Quo a b = if b =? 0 then Panic div_by_zero else Ok (Z.quot a b);
  Int_String_spec z : Int_String z = FormatInt z;
}.

(** Non-empty text of visible ASCII characters. *)
Definition visible_text (s : string) : bool :=
  negb (String.eqb s EmptyString) && forallb (fun c => in_range 33 (ord c) 126) (to_list s).

Lemma visible_ascii s : visible_text s = true -> is_ascii s = true.
Proof.
  unfold visible_text. intros [_ H]%andb_true_iff. eapply forallb_imp; [|exact H].
  intros c Hc%in_range_true. apply Z.ltb_lt. lia.
Qed.

Lemma visible_TrimSpace s : visible_text s = true -> TrimSpace s = s.
Proof.
  intros Hv. apply TrimSpace_id; [by apply visible_ascii|].
  unfold visible_text in Hv. apply andb_true_iff in Hv as [_ H]. eapply forallb_imp; [|exact H].
  intros c Hc%in_range_true. apply negb_true_iff. unfold is_space.
  rewrite !orb_false_iff, !in_range_false, !Z.eqb_neq. lia.
Qed.

(** ** Cosmos SDK: bech32 addresses, coins and the authority check *)
Class SdkTypes := {
  AccAddressFromBech32 : string -> outcome addr;
  ValAddressFromBech32 : string -> outcome addr;
  AccAddress_String : addr -> string;
  ValidateDenom : string -> outcome unit;
  NewCoin : string -> Z -> outcome Coin;
  NewCoins : list Coin -> list Coin;
  invalid_coin : string;
  ParseCoinNormalized : string -> outcome Coin;
  Coin_IsValid : Coin -> bool;
  Coin_String : Coin -> string;
  ConsensusAuthority : Ctx -> string;
  ValidateAuthority : Ctx -> string -> string -> outcome unit;
  (* the keeper's authority, unless the consensus parameters configure one *)
  ValidateAuthority_spec ctx want got :
    ValidateAuthority ctx want got = Ok tt <->
    got = (if String.eqb (ConsensusAuthority ctx) EmptyString then want
           else ConsensusAuthority ctx);
  (* a coin with a negative amount or a malformed denomination panics *)
  NewCoin_spec d amt :
    NewCoin d amt = if (0 <=? amt) && is_ok (ValidateDenom d) then Ok (MkCoin d amt)
                    else Panic invalid_coin;
  (* only zero coins are dropped *)
  NewCoins_positive c : 0 < Amount c -> NewCoins [c] = [c];
  (* bech32 text is made of visible ASCII characters *)
  AccAddressFromBech32_visible s a : AccAddressFromBech32 s = Ok a -> visible_text s = true;
  ParseCoinNormalized_ascii s c : ParseCoinNormalized s = Ok c -> is_ascii s = true;
  ValAddressFromBech32_visible s a : ValAddressFromBech32 s = Ok a -> visible_text s = true;
}.

(** ** go-ethereum *)
Class EthCommon := {
  IsHexAddress : string -> bool;
  HexToAddress : string -> addr;
  Address_Hex : addr -> string;
  IsHexHash : string -> bool;
  Hash_Hex : bytes -> string;         (* common.BytesToHash(b).Hex() *)
  (* an address literal is ASCII, and a hash prints as a hash literal *)
  IsHexAddress_ascii s : IsHexAddress s = true -> is_ascii s = true;
}.
Definition zero_address : addr := of_list (repeat (chr 0) 20).

Class EthCrypto := {
  Keccak256Hash : list bytes -> bytes;
  ValidateSignatureValues : Z -> Z -> Z -> bool -> bool;
  SigToPub : bytes -> bytes -> outcome bytes;
  PubkeyToAddress : bytes -> addr;
}.
Definition SignatureLength : Z := 65.

(** ** The bank module

    The operations take a list of coins, as [sdk.Coins]; the modules always
    pass one positive coin.  The laws describe successful calls only: the
    state after a failed one is discarded with the transaction. *)
Class BankOps (B : Type) := {
  MintCoins : string -> list Coin -> B -> outcome unit * B;
  BurnCoins : string -> list Coin -> B -> outcome unit * B;
  SendCoinsFromModuleToAccount : string -> addr -> list Coin -> B -> outcome unit * B;
  SendCoinsFromAccountToModule : addr -> string -> list Coin -> B -> outcome unit * B;
  SendCoinsFromModuleToModule : string -> string -> list Coin -> B -> outcome unit * B;
  GetSupply : B -> string -> Z;
  GetBalance : B -> addr -> string -> Z;
  GetModuleAddress : string -> addr;
}.

(** The balance of [a] after moving [amt] of [d] from [src] to [dst]. *)
Definition moved {B} `{BankOps B} (b : B) (src dst : addr) (d : string) (amt : Z)
    (a : addr) (d' : string) : Z :=
  GetBalance b a d'
  - (if bool_decide (a = src /\ d' = d) then amt else 0)
  + (if bool_decide (a = dst /\ d' = d) then amt else 0).

Class BankLaws (B : Type) `{BankOps B} := {
  MintCoins_ok m d amt b b' :
    MintCoins m [MkCoin d amt] b = (Ok tt, b') ->
    (forall d', GetSupply b' d' = GetSupply b d' + (if bool_decide (d' = d) then amt else 0)) /\
    (forall a d', GetBalance b' a d' =
       GetBalance b a d' + (if bool_decide (a = GetModuleAddress m /\ d' = d) then amt else 0));
  BurnCoins_ok m d amt b b' :
    BurnCoins m [MkCoin d amt] b = (Ok tt, b') ->
    (forall d', GetSupply b' d' = GetSupply b d' - (if bool_decide (d' = d) then amt else 0)) /\
    (forall a d', GetBalance b' a d' =
       GetBalance b a d' - (if bool_decide (a = GetModuleAddress m /\ d' = d) then amt else 0));
  SendToAccount_ok m a0 d amt b b' :
    SendCoinsFromModuleToAccount m a0 [MkCoin d amt] b = (Ok tt, b') ->
    (forall d', GetSupply b' d' = GetSupply b d') /\
    (forall a d', GetBalance b' a d' = moved b (GetModuleAddress m) a0 d amt a d');
  SendToModule_ok a0 m d amt b b' :
    SendCoinsFromAccountToModule a0 m [MkCoin d amt] b = (Ok tt, b') ->
    (forall d', GetSupply b' d' = GetSupply b d') /\
    (forall a d', GetBalance b' a d' = moved b a0 (GetModuleAddress m) d amt a d');
  SendModuleToModule_ok m1 m2 d amt b b' :
    SendCoinsFromModuleToModule m1 m2 [MkCoin d amt] b = (Ok tt, b') ->
    (forall d', GetSupply b' d' = GetSupply b d') /\
    (forall a d', GetBalance b' a d' =
       moved b (GetModuleAddress m1) (GetModuleAddress m2) d amt a d');
}.

(** ** The staking module, as the validator modules see it *)

Record StakingValidator := MkStakingValidator {
  sv_jailed : bool;
  sv_consaddr : outcome addr;      (* validator.GetConsAddr() *)
}.

Inductive ValidatorLookup :=
| VFound (v : StakingValidator)
| VNotFound                        (* stakingtypes.ErrNoValidatorFound *)
| VError (e : error).

Class StakingOps (S : Type) := {
  GetValidator : S -> addr -> ValidatorLookup;
  Jail : addr -> S -> outcome unit * S;
}.

(** A successful [Jail] marks the validator of the consensus address as jailed
    and leaves the others as they are. *)
Class StakingLaws (S : Type) `{StakingOps S} := {
  Jail_ok cons s s' a v : Jail cons s = (Ok tt, s') -> GetValidator s a = VFound v ->
    GetValidator s' a =
      VFound (if bool_decide (sv_consaddr v = Ok cons) then MkStakingValidator true (sv_consaddr v)
              else v);
  Jail_missing cons s s' a : Jail cons s = (Ok tt, s') -> GetValidator s a = VNotFound ->
    GetValidator s' a = VNotFound;
}.

(** ** Iteration over a store

    [store.Iterator(start, nil)] visits the entries from [start] on in the
    lexicographic order of their keys.  The loops of the modules stop at the
    first key without the prefix; that they visit exactly the keys with the
    prefix is proved here. *)

Definition str_le (x y : string) : Prop := String.leb x y = true.
#[export] Instance str_le_dec : RelDecision str_le.
Proof. intros x y. unfold str_le. apply _. Defined.

Definition key_le (x y : string * bytes) : Prop := str_le x.1 y.1.
#[export] Instance key_le_dec : RelDecision key_le.
Proof. intros x y. unfold key_le. apply _. Defined.

Definition Iterator (kv : KVStore) (start : string) : list (string * bytes) :=
  merge_sort key_le (base.filter (fun e => str_le start e.1) (map_to_list kv)).

(** [for ; iterator.Valid(); iterator.Next()] until a key without the prefix:
    the rests of the visited keys. *)
Fixpoint while_prefix (prefix : string) (l : list (string * bytes)) : list string :=
  match l with
  | [] => []
  | e :: l' =>
    if has_prefix prefix e.1
    then drop_bytes (String.length prefix) e.1 :: while_prefix prefix l' else []
  end.

(** [sort.Strings]. *)
Definition sort_Strings (l : list string) : list string := merge_sort str_le l.

(** ** The order on keys *)

Lemma str_le_nil s : str_le EmptyString s.
Proof. by destruct s. Qed.

Lemma str_le_cons a s b t :
  str_le (String a s) (String b t) <-> ord a < ord b \/ (a = b /\ str_le s t).
Proof.
  unfold str_le, String.leb. cbn [String.compare]. unfold Ascii.compare, ord.
  destruct (N.compare_spec (N_of_ascii a) (N_of_ascii b)) as [He|Hlt|Hgt].
  - apply (f_equal ascii_of_N) in He. rewrite !ascii_N_embedding in He. subst b.
    split; [auto|]. intros [?|[_ ?]]; [lia|done].
  - split; [left; lia|done].
  - split; [done|]. intros [?|[-> _]]; lia.
Qed.

#[export] Instance str_le_trans : Transitive str_le.
Proof.
  intros x. induction x as [|a x IH]; intros y z Hxy Hyz; [apply str_le_nil|].
  destruct y as [|b y]; [done|]. destruct z as [|c z]; [done|].
  apply str_le_cons in Hxy, Hyz. apply str_le_cons.
  destruct Hxy as [?|[-> ?]], Hyz as [?|[-> ?]]; [left; lia|by left|by left|].
  right. eauto.
Qed.
#[export] Instance str_le_total : Total str_le.
Proof. intros x y. apply String.leb_total. Qed.
#[export] Instance str_le_antisymm : AntiSymm (=) str_le.
Proof. intros x y. apply String.leb_antisym. Qed.
#[export] Instance key_le_trans : Transitive key_le.
Proof. intros x y z. unfold key_le. apply str_le_trans. Qed.
#[export] Instance key_le_total : Total key_le.
Proof. intros x y. apply str_le_total. Qed.

Lemma has_prefix_iff p s : has_prefix p s = true <-> exists t, s = (p +:+ t)%string.
Proof.
  revert s. induction p as [|a p IH]; intros s; [split; [by exists s|done]|].
  destruct s as [|b s]; simpl.
  - split; [done|]. intros [t Ht]. rewrite string_app_cons in Ht. done.
  - rewrite andb_true_iff, Ascii.eqb_eq, IH. setoid_rewrite string_app_cons. split.
    + intros [-> [t ->]]. by exists t.
    + intros [t [= -> ->]]. eauto.
Qed.

Lemma drop_bytes_app p t : drop_bytes (String.length p) (p +:+ t)%string = t.
Proof. induction p as [|a p IH]; [done|]. rewrite string_app_cons. exact IH. Qed.

(** Between a prefix and a key with it there are only keys with it. *)
Lemma prefix_convex p x y : str_le p x -> str_le x y -> has_prefix p y = true -> has_prefix p x = true.
Proof.
  revert x y. induction p as [|a p IH]; intros x y Hpx Hxy Hy; [done|].
  destruct x as [|b x]; [done|]. destruct y as [|c y]; [done|]. simpl in *.
  apply andb_true_iff in Hy as [Ha Hy]. apply Ascii.eqb_eq in Ha as <-.
  apply str_le_cons in Hpx, Hxy. destruct Hpx as [?|[-> ?]], Hxy as [?|[? ?]]; subst; try lia.
  rewrite Ascii.eqb_refl. simpl. by eapply IH.
Qed.

Lemma while_prefix_elem p l a :
  StronglySorted key_le l -> Forall (fun e => str_le p e.1) l ->
  a ∈ while_prefix p l <-> exists v, ((p +:+ a)%string, v) ∈ l.
Proof.
  induction 1 as [|e l Hs IH Hf]; intros Hp; simpl.
  { split; [set_solver|]. intros [v Hv]. set_solver. }
  inversion_clear Hp as [|? ? He Hl]. specialize (IH Hl). destruct (has_prefix p e.1) eqn:Ep.
  - apply has_prefix_iff in Ep as [t Et]. rewrite Et, drop_bytes_app, elem_of_cons, IH. split.
    + intros [->|[v Hv]]; [exists e.2|exists v]; rewrite elem_of_cons; [left|by right].
      rewrite <- Et. by destruct e.
    + intros [v Hv]. apply elem_of_cons in Hv as [Hv|Hv]; [left|right; eauto].
      subst e. simpl in Et. by apply string_app_inj_l in Et.
  - split; [set_solver|]. intros [v Hv]. exfalso. apply elem_of_cons in Hv as [Hv|Hv].
    + subst e. simpl in Ep. rewrite (proj2 (has_prefix_iff p _)) in Ep by eauto. done.
    + rewrite List.Forall_forall in Hf. specialize (Hf _ (proj1 (list_elem_of_In _ _) Hv)).
      rewrite (prefix_convex p e.1 (p +:+ a)%string) in Ep; try done. apply has_prefix_iff. eauto.
Qed.

Lemma while_prefix_NoDup p l : NoDup (map fst l) -> NoDup (while_prefix p l).
Proof.
  induction l as [|e l IH]; simpl; [done|]. intros [Hn Hd]%NoDup_cons.
  destruct (has_prefix p e.1) eqn:Ep; [|constructor]. constructor; [|auto].
  apply has_prefix_iff in Ep as [t Et]. rewrite Et, drop_bytes_app. intros Hin. apply Hn.
  clear -Hin Et. rewrite Et. induction l as [|e' l IH]; simpl in *; [set_solver|].
  destruct (has_prefix p e'.1) eqn:Ep'; [|set_solver].
  apply has_prefix_iff in Ep' as [t' Et']. rewrite Et', drop_bytes_app in Hin.
  apply elem_of_cons in Hin as [->|Hin]; [rewrite Et'; set_solver|]. apply elem_of_cons. auto.
Qed.

Section iterator.
Implicit Types (kv : KVStore) (p : string).

Lemma Iterator_perm kv p :
  Iterator kv p ≡ₚ base.filter (fun e => str_le p e.1) (map_to_list kv).
Proof. apply merge_sort_Permutation. Qed.

Lemma Iterator_sorted kv p : StronglySorted key_le (Iterator kv p).
Proof. apply StronglySorted_merge_sort; apply _. Qed.

Lemma Iterator_elem kv p key v : (key, v) ∈ Iterator kv p <-> str_le p key /\ kv !! key = Some v.
Proof. rewrite Iterator_perm, list_elem_of_filter, elem_of_map_to_list. done. Qed.

Lemma prefix_le p a : str_le p (p +:+ a)%string.
Proof.
  induction p as [|c p IH]; [apply str_le_nil|]. rewrite string_app_cons. apply str_le_cons. auto.
Qed.

(** The loop visits exactly the stored keys with the prefix, each once. *)
Lemma visited_elem kv p a :
  a ∈ while_prefix p (Iterator kv p) <-> is_Some (kv !! (p +:+ a)%string).
Proof.
  rewrite while_prefix_elem; [|apply Iterator_sorted|].
  - setoid_rewrite Iterator_elem. split; [intros (v & _ & H); eauto|].
    intros [v H]. exists v. split; [apply prefix_le|done].
  - apply List.Forall_forall. intros [key v] H%list_elem_of_In. by apply Iterator_elem in H as [? _].
Qed.

Lemma NoDup_filter_fst (P : string * bytes -> Prop) `{!forall x, Decision (P x)} l :
  NoDup (map fst l) -> NoDup (map fst (base.filter P l)).
Proof.
  induction l as [|e l IH]; [done|]. simpl. intros [Hn Hd]%NoDup_cons. rewrite filter_cons.
  case_decide; [|auto]. simpl. constructor; [|auto]. intros Hin. apply Hn.
  rewrite list_elem_of_In, in_map_iff in Hin |- *. destruct Hin as (x & Hx & Hin).
  exists x. split; [done|]. rewrite <- list_elem_of_In in *. by apply list_elem_of_filter in Hin as [_ ?].
Qed.

Lemma visited_NoDup kv p : NoDup (while_prefix p (Iterator kv p)).
Proof.
  apply while_prefix_NoDup. change (map fst ?l) with (l.*1). rewrite Iterator_perm.
  apply NoDup_filter_fst, NoDup_fst_map_to_list.
Qed.
End iterator.

Lemma sort_Strings_perm l : sort_Strings l ≡ₚ l.
Proof. apply merge_sort_Permutation. Qed.
