(* ===== verification/RefEnv.v ===== *)
(** * Concrete instances of the library interfaces

    A small executable environment that satisfies every law of Sdk: it shows
    that the laws are consistent and lets the witnesses run the handlers.
    Signatures are a toy scheme (the first 20 bytes name the signer); no
    theorem depends on it. *)

From Stdlib Require Import ZArith Lia List String Ascii Bool.
From stdpp Require Import base gmap strings list.
From S2P Require Import Prelude GoStrings Sha256 Sdk.
Local Open Scope Z_scope.

#[export] Instance ref_unicode : UnicodeTables := {|
  lower_ext := fun _ => false;
  digit_ext := fun _ => false;
  to_lower_ext := fun r => r;
  lower_ext_RuneError := eq_refl;
  digit_ext_RuneError := eq_refl;
|}.

Definition checked (z : Z) : outcome Z := if int_fits z then Ok z else Panic "Int overflow".

Definition ref_from_string (s : string) : option Z :=
  match SetString s with
  | Some z => if int_fits z then Some z else None
  | None => None
  end.

#[export, refine] Instance ref_math : SdkMath := {|
  NewIntFromString := ref_from_string;
  NewIntFromBigInt := checked;
  Int_Add := fun a b => checked (a + b);
  Int_Sub := fun a b => checked (a - b);
  Int_Mul := fun a b => checked (a * b);
  Int_Quo := fun a b => if b =? 0 then Panic "division by zero" else Ok (Z.quot a b);
  Int_String := FormatInt;
  overflow := "Int overflow";
  div_by_zero := "division by zero";
|}.
Proof.
  all: try (intros; reflexivity).
  - unfold ref_from_string. intros s z. destruct (SetString s); [|done].
    destruct (int_fits _) eqn:E; intros; simplify_eq; done.
  - unfold ref_from_string. intros z Hz. by rewrite SetString_FormatInt, Hz.
  - unfold ref_from_string. intros z Hz. by rewrite SetString_FormatInt, Hz.
Defined.

(** Bech32 text can be written in either case. *)
Definition ref_bech32 (s : string) : outcome addr :=
  if visible_text s then Ok (of_list (map lower_byte (to_list s))) else Err "invalid bech32 string".

(** ["12axtc"]: digits followed by the denomination. *)
Fixpoint split_digits (s : string) : string * string :=
  match s with
  | String c t =>
    if in_range 48 (ord c) 57
    then let '(d, r) := split_digits t in (String c d, r) else (EmptyString, s)
  | EmptyString => (EmptyString, EmptyString)
  end.
Definition ref_parse_coin (s : string) : outcome Coin :=
  let '(d, r) := split_digits s in
  match SetString d with
  | Some z => if is_ascii s then Ok (MkCoin r z) else Err "invalid decimal coin expression"
  | None => Err "invalid decimal coin expression"
  end.

#[export, refine] Instance ref_types : SdkTypes := {|
  AccAddressFromBech32 := ref_bech32;
  ValAddressFromBech32 := ref_bech32;
  AccAddress_String := fun a => a;
  ValidateDenom := fun d => oguard (negb (String.eqb d EmptyString)) "invalid denom";
  NewCoin := fun d amt =>
    if (0 <=? amt) && is_ok (oguard (negb (String.eqb d EmptyString)) "invalid denom")
    then Ok (MkCoin d amt) else Panic "invalid coin";
  NewCoins := fun l => base.filter (fun c => Amount c <> 0) l;
  invalid_coin := "invalid coin";
  ParseCoinNormalized := ref_parse_coin;
  Coin_IsValid := fun c => (0 <=? Amount c) && negb (String.eqb (Denom c) EmptyString);
  Coin_String := fun c => FormatInt (Amount c) +:+ Denom c;
  ConsensusAuthority := fun _ => EmptyString;
  ValidateAuthority := fun _ want got =>
    if String.eqb want got then Ok tt else Err "invalid authority";
|}.
Proof.
  - intros ctx want got. simpl. destruct (String.eqb_spec want got); naive_solver.
  - done.
  - intros c Hc. rewrite filter_cons, decide_True by lia. done.
  - intros s a. unfold ref_bech32. by destruct (visible_text s).
  - intros s c. unfold ref_parse_coin. destruct (split_digits s) as [d r].
    destruct (SetString d); [|done]. by destruct (is_ascii s).
  - intros s a. unfold ref_bech32. by destruct (visible_text s).
Defined.

Definition strip_0x (s : string) : string :=
  if has_prefix "0x" s || has_prefix "0X" s then drop_bytes 2 s else s.
Definition all_hex (s : string) : bool :=
  forallb (fun c => match hex_val c with Some _ => true | None => false end) (to_list s).
Definition ref_is_hex (n : Z) (s : string) : bool :=
  (len (strip_0x s) =? n) && all_hex (strip_0x s).

Lemma hex_val_ascii c : hex_val c <> None -> ord c <? 128 = true.
Proof.
  unfold hex_val. destruct (in_range 48 (ord c) 57) eqn:E1; [|
    destruct (in_range 97 (ord c) 102) eqn:E2; [|
      destruct (in_range 65 (ord c) 70) eqn:E3; [|done]]];
    intros _; range_cases; apply Z.ltb_lt; lia.
Qed.

Lemma has_prefix_app p s : has_prefix p s = true ->
  exists t, s = (p +:+ t)%string /\ drop_bytes (String.length p) s = t.
Proof.
  revert s. induction p as [|a p IH]; intros s Hp; [by exists s|].
  destruct s as [|b s]; [done|]. simpl in Hp. apply andb_true_iff in Hp as [Hab Hp].
  apply Ascii.eqb_eq in Hab as ->. destruct (IH s Hp) as (t & -> & Hd).
  exists t. split; [done|]. exact Hd.
Qed.

Lemma all_hex_ascii s : all_hex s = true -> is_ascii s = true.
Proof.
  unfold all_hex, is_ascii. rewrite !forallb_forall. intros H c Hc.
  apply hex_val_ascii. specialize (H c Hc). by destruct (hex_val c).
Qed.

Lemma is_ascii_app s t : is_ascii (s +:+ t)%string = is_ascii s && is_ascii t.
Proof. unfold is_ascii. by rewrite to_list_app, forallb_app. Qed.

Lemma ref_is_hex_ascii n s : ref_is_hex n s = true -> is_ascii s = true.
Proof.
  unfold ref_is_hex. intros [_ Hh]%andb_true_iff. apply all_hex_ascii in Hh.
  unfold strip_0x in Hh.
  destruct (has_prefix "0x" s) eqn:E1; [|destruct (has_prefix "0X" s) eqn:E2; [|done]].
  - destruct (has_prefix_app _ _ E1) as (t & -> & Hd). simpl in Hh. simpl in Hd.
    rewrite Hd in Hh. by rewrite is_ascii_app, Hh.
  - destruct (has_prefix_app _ _ E2) as (t & -> & Hd). simpl in Hh. simpl in Hd.
    rewrite Hd in Hh. by rewrite is_ascii_app, Hh.
Qed.

#[export, refine] Instance ref_eth : EthCommon := {|
  IsHexAddress := ref_is_hex 40;
  HexToAddress := fun s => default zero_address (hex_decode (strip_0x s));
  Address_Hex := fun a => ("0x" +:+ hex_encode a)%string;
  IsHexHash := ref_is_hex 64;
  Hash_Hex := fun b => ("0x" +:+ hex_encode b)%string;
|}.
Proof. apply ref_is_hex_ascii. Defined.

Definition take_bytes (n : nat) (s : string) : string := String.substring 0 n s.

#[export] Instance ref_crypto : EthCrypto := {|
  Keccak256Hash := fun l => sha256 (Join l EmptyString);
  ValidateSignatureValues := fun _ _ _ _ => true;
  SigToPub := fun _ sg => Ok (take_bytes 20 sg);
  PubkeyToAddress := fun p => p;
|}.

(** ** A bank with balances and supplies *)
Record rbank := RBank { rbal : gmap (string * string) Z; rsup : gmap string Z }.

Definition rget (b : rbank) (a d : string) : Z := default 0 (rbal b !! (a, d)).
Definition radd (b : rbank) (a d : string) (z : Z) : rbank :=
  RBank (<[(a, d) := rget b a d + z]> (rbal b)) (rsup b).
Definition rsup_add (b : rbank) (d : string) (z : Z) : rbank :=
  RBank (rbal b) (<[d := default 0 (rsup b !! d) + z]> (rsup b)).

Definition rmodule (m : string) : addr := ("module/" +:+ m)%string.

Definition rsend (src dst : addr) (cs : list Coin) (b : rbank) : outcome unit * rbank :=
  match cs with
  | [c] =>
    if rget b src (Denom c) <? Amount c then (Err "insufficient funds", b)
    else (Ok tt, radd (radd b src (Denom c) (- Amount c)) dst (Denom c) (Amount c))
  | _ => (Err "unsupported coins", b)
  end.

#[export] Instance ref_bank : BankOps rbank := {|
  MintCoins := fun m cs b => match cs with
    | [c] => (Ok tt, rsup_add (radd b (rmodule m) (Denom c) (Amount c)) (Denom c) (Amount c))
    | _ => (Err "unsupported coins", b)
    end;
  BurnCoins := fun m cs b => match cs with
    | [c] => if rget b (rmodule m) (Denom c) <? Amount c then (Err "insufficient funds", b)
             else (Ok tt, rsup_add (radd b (rmodule m) (Denom c) (- Amount c)) (Denom c) (- Amount c))
    | _ => (Err "unsupported coins", b)
    end;
  SendCoinsFromModuleToAccount := fun m a cs b => rsend (rmodule m) a cs b;
  SendCoinsFromAccountToModule := fun a m cs b => rsend a (rmodule m) cs b;
  SendCoinsFromModuleToModule := fun m1 m2 cs b => rsend (rmodule m1) (rmodule m2) cs b;
  GetSupply := fun b d => default 0 (rsup b !! d);
  GetBalance := rget;
  GetModuleAddress := rmodule;
|}.

Lemma rget_radd b a d z a' d' :
  rget (radd b a d z) a' d' = rget b a' d' + (if bool_decide (a' = a /\ d' = d) then z else 0).
Proof.
  unfold rget, radd. simpl. case_bool_decide as E.
  - destruct E as [-> ->]. by rewrite lookup_insert_eq.
  - rewrite lookup_insert_ne by naive_solver. lia.
Qed.

Lemma rsup_add_get b d z d' :
  default 0 (rsup (rsup_add b d z) !! d') =
  default 0 (rsup b !! d') + (if bool_decide (d' = d) then z else 0).
Proof.
  unfold rsup_add. simpl. case_bool_decide as E.
  - subst. by rewrite lookup_insert_eq.
  - rewrite lookup_insert_ne by naive_solver. lia.
Qed.

Lemma rget_rsup_add b d z a d' : rget (rsup_add b d z) a d' = rget b a d'.
Proof. done. Qed.

Lemma rsend_moved src dst d amt b b' :
  rsend src dst [MkCoin d amt] b = (Ok tt, b') ->
  (forall d', GetSupply b' d' = GetSupply b d') /\
  (forall a d', GetBalance b' a d' = moved b src dst d amt a d').
Proof.
  unfold rsend, moved. simpl. destruct (rget b src d <? amt); intros; simplify_eq.
  split; [done|]. intros a d'. rewrite !rget_radd. repeat case_bool_decide; lia.
Qed.

#[export] Instance ref_bank_laws : BankLaws rbank.
Proof.
  constructor; intros *.
  - simpl. intros. simplify_eq. split; intros; [by rewrite rsup_add_get|].
    by rewrite rget_rsup_add, rget_radd.
  - simpl. destruct (_ <? _); intros; simplify_eq. split; intros.
    + rewrite rsup_add_get. simpl. case_bool_decide; lia.
    + rewrite rget_rsup_add, rget_radd. case_bool_decide; lia.
  - apply rsend_moved.
  - apply rsend_moved.
  - apply rsend_moved.
Qed.

(** ** A staking module with a table of validators *)
Record rval := RVal { rv_jailed : bool; rv_cons : addr }.

Definition rlookup (s : gmap addr rval) (a : addr) : ValidatorLookup :=
  match s !! a with
  | Some v => VFound (MkStakingValidator (rv_jailed v) (Ok (rv_cons v)))
  | None => VNotFound
  end.

#[export] Instance ref_staking : StakingOps (gmap addr rval) := {|
  GetValidator := rlookup;
  Jail := fun cons s =>
    (Ok tt, (fun v => if String.eqb (rv_cons v) cons then RVal true (rv_cons v) else v) <$> s);
|}.

#[export] Instance ref_staking_laws : StakingLaws (gmap addr rval).
Proof.
  constructor; simpl; unfold rlookup.
  - intros cons s s' a v Hj Hg. simplify_eq. rewrite lookup_fmap.
    destruct (s !! a) as [v0|]; [|done]. simplify_eq. simpl.
    destruct (String.eqb_spec (rv_cons v0) cons) as [->|Hne].
    + by rewrite bool_decide_true.
    + rewrite bool_decide_false; [done|]. naive_solver.
  - intros cons s s' a Hj Hg. simplify_eq. rewrite lookup_fmap. by destruct (s !! a).
Qed.
