(* ===== verification/BridgeTypes.v ===== *)
(** * x/bridge/types: attestations, routes, control actions and messages

    The validation, identifiers and signature checks of the bridge module, and
    its messages with their [ValidateBasic]. *)

From Stdlib Require Import ZArith Lia List String Ascii Bool.
From stdpp Require Import base gmap strings list.
From S2P Require Import Prelude GoStrings GoJson Sha256 Sdk.
Local Open Scope Z_scope.
Local Open Scope go_scope.

(** ** keys.go and constants *)

Definition bridge_ModuleName : string := "bridge".
Definition KeyProcessedAttestationPrefix : bytes := byte1 1.
Definition KeyOutstandingAmount : bytes := byte1 7.
Definition KeyOutboundNonce : bytes := byte1 8.

Definition MaxBridgeSigners : Z := 3.
Definition RequiredApprovals : Z := 2.
Definition maxRouteIDLength : Z := 96.
Definition maxDestinationLen : Z := 256.

Definition DirectionCronosToXitcoin : string := "cronos_to_xitcoin".
Definition DirectionXitcoinToCronos : string := "xitcoin_to_cronos".

Definition SigningDomain : string := "xitcoin-bridge-testnet-attestation-v1".
Definition ControlDomain : string := "xitcoin-bridge-testnet-control-v1".
Definition GuardianPauseDomain : string := "xitcoin-bridge-testnet-guardian-pause-v1".

Definition ActionUpdateRouteConfig : string := "update_route_config".
Definition ActionPauseRoute : string := "pause_route".
Definition ActionResumeRoute : string := "resume_route".
Definition ActionCloseRoute : string := "close_route".

(** The field separator of every signed payload. *)
Definition NUL : string := byte1 0.

(** ** attestation.go *)

Record Attestation := MkAttestation {
  at_RouteID : string;
  at_Direction : string;
  at_SourceChainID : string;
  at_SourceRef : string;
  at_Nonce : Z;            (* uint64 *)
  at_Destination : string;
  at_Amount : string;
  at_DeadlineUnix : Z;     (* int64 *)
}.

Section attestation.
Context {U : UnicodeTables}.

Definition route_rune (r : Z) : bool :=
  IsLower r || IsDigit r || (r =? 45) || (r =? 95).

Definition validRouteID (routeID : string) : bool :=
  if String.eqb routeID EmptyString || (maxRouteIDLength <? len routeID) then false
  else forallb (fun r => route_rune r.1) (runes routeID).

Definition normalizeHexReference (reference : string) : string :=
  TrimPrefix (ToLower (TrimSpace reference)) "0x".

Definition validHexReference (reference : string) : bool :=
  let normalized := normalizeHexReference reference in
  if negb (len normalized =? 64) then false
  else match hex_decode normalized with Some _ => true | None => false end.

Definition Attestation_Validate (a : Attestation) : outcome unit :=
  odo oguard (validRouteID (at_RouteID a)) "invalid route ID";
  odo oguard (String.eqb (at_Direction a) DirectionCronosToXitcoin
              || String.eqb (at_Direction a) DirectionXitcoinToCronos)
      "invalid bridge direction";
  odo oguard (negb (String.eqb (TrimSpace (at_SourceChainID a)) EmptyString))
      "source chain ID is required";
  odo oguard (validHexReference (at_SourceRef a))
      "source reference must be a 32-byte hexadecimal transaction identifier";
  odo oguard (negb (at_Nonce a =? 0)) "nonce must be greater than zero";
  let destination := TrimSpace (at_Destination a) in
  odo oguard (negb (String.eqb destination EmptyString || (maxDestinationLen <? len destination)))
      "invalid destination";
  odo oguard (match SetString (at_Amount a) with Some z => 0 <? z | None => false end)
      "amount must be a positive integer in atomic units";
  oguard (0 <? at_DeadlineUnix a) "deadline is required".

(** The signed fields, in the order they are joined. *)
Definition Attestation_fields (a : Attestation) : list string :=
  [at_RouteID a; at_Direction a; at_SourceChainID a; normalizeHexReference (at_SourceRef a);
   FormatInt (at_Nonce a); TrimSpace (at_Destination a); at_Amount a;
   FormatInt (at_DeadlineUnix a)].

Definition Attestation_ID (a : Attestation) : outcome bytes :=
  odo Attestation_Validate a;
  Ok (sha256 (Join (Attestation_fields a) NUL)).

Fixpoint approval_ids_loop (seen : gset string) (ids : list string) : outcome unit :=
  match ids with
  | [] => Ok tt
  | signerID :: ids' =>
    let normalized := ToLower (TrimSpace signerID) in
    odo oguard (negb (String.eqb normalized EmptyString || (128 <? len normalized)))
        "invalid signer ID";
    odo oguard (bool_decide (normalized ∉ seen)) "duplicate signer approval";
    approval_ids_loop ({[normalized]} ∪ seen) ids'
  end.

Definition ValidateApprovalSet (signerIDs : list string) : outcome unit :=
  let n := Z.of_nat (length signerIDs) in
  odo oguard (negb ((n <? RequiredApprovals) || (MaxBridgeSigners <? n)))
      "approval count must be between 2 and 3";
  approval_ids_loop ∅ signerIDs.

(** expiry.go *)
Definition ErrAttestationExpired : error := "bridge attestation expired".

Definition Attestation_ValidateAt (a : Attestation) (unixTime : Z) : outcome unit :=
  odo Attestation_Validate a;
  oguard (negb (at_DeadlineUnix a <? unixTime)) ErrAttestationExpired.

(** query.go *)
Definition ParseAttestationID (value : string) : outcome (bytes * string) :=
  let normalized := TrimPrefix (ToLower (TrimSpace value)) "0x" in
  odo oguard (len normalized =? 64) "attestation ID must contain 32 hexadecimal bytes";
  match hex_decode normalized with
  | None => Err "attestation ID must contain 32 hexadecimal bytes"
  | Some decoded => Ok (decoded, ("0x" +:+ normalized)%string)
  end.

End attestation.

(** ** config.go, config_payload.go *)

Record RouteConfig := MkRouteConfig {
  rc_RouteID : string;
  rc_BridgeSigners : list string;
  rc_Guardian : string;
  rc_MaxTransferAmount : string;
  rc_DailyLimit : string;
  rc_MaxOutstandingAmount : string;
  rc_Enabled : bool;
}.

Definition positiveAmount (value : string) : bool :=
  match SetString value with Some amount => 0 <? amount | None => false end.

Definition RouteConfig_json (c : RouteConfig) : json :=
  JObj [("route_id", JStr (rc_RouteID c));
        ("bridge_signers", JArr (map JStr (rc_BridgeSigners c)));
        ("guardian", JStr (rc_Guardian c));
        ("max_transfer_amount", JStr (rc_MaxTransferAmount c));
        ("daily_limit", JStr (rc_DailyLimit c));
        ("max_outstanding_amount", JStr (rc_MaxOutstandingAmount c));
        ("enabled", JBool (rc_Enabled c))].

(** One member of the object decoded into the struct. *)
Definition RouteConfig_member (c : RouteConfig) (kv : string * json) : outcome RouteConfig :=
  let '(MkRouteConfig rid signers g mt dl mo en) := c in
  let '(k, v) := kv in
  if key_is "route_id" k then
    olet s <- as_string rid v; Ok (MkRouteConfig s signers g mt dl mo en)
  else if key_is "bridge_signers" k then
    olet l <- as_strings signers v; Ok (MkRouteConfig rid l g mt dl mo en)
  else if key_is "guardian" k then
    olet s <- as_string g v; Ok (MkRouteConfig rid signers s mt dl mo en)
  else if key_is "max_transfer_amount" k then
    olet s <- as_string mt v; Ok (MkRouteConfig rid signers g s dl mo en)
  else if key_is "daily_limit" k then
    olet s <- as_string dl v; Ok (MkRouteConfig rid signers g mt s mo en)
  else if key_is "max_outstanding_amount" k then
    olet s <- as_string mo v; Ok (MkRouteConfig rid signers g mt dl s en)
  else if key_is "enabled" k then
    olet b <- as_bool en v; Ok (MkRouteConfig rid signers g mt dl mo b)
  else Ok c.

Fixpoint RouteConfig_members (c : RouteConfig) (l : list (string * json)) : outcome RouteConfig :=
  match l with
  | [] => Ok c
  | kv :: l' => olet c' <- RouteConfig_member c kv; RouteConfig_members c' l'
  end.

Definition zero_RouteConfig : RouteConfig :=
  MkRouteConfig EmptyString [] EmptyString EmptyString EmptyString EmptyString false.

Definition syntax_error : error := "invalid character in JSON input".

(** [json.Unmarshal(value, &config)]. *)
Definition RouteConfig_Unmarshal (b : bytes) : outcome RouteConfig :=
  match Parse b with
  | Some (JObj l) => RouteConfig_members zero_RouteConfig l
  | Some JNull => Ok zero_RouteConfig
  | Some _ => Err type_error
  | None => Err syntax_error
  end.

Section config.
Context {U : UnicodeTables} {E : EthCommon}.

Fixpoint signers_loop (allowed : gset addr) (signers : list string) : outcome (gset addr) :=
  match signers with
  | [] => Ok allowed
  | signer :: signers' =>
    odo oguard (IsHexAddress (TrimSpace signer)) "invalid configured bridge signer";
    let address := HexToAddress signer in
    odo oguard (bool_decide (address ∉ allowed)) "duplicate configured bridge signer";
    signers_loop ({[address]} ∪ allowed) signers'
  end.

Definition configuredSigners (signers : list string) : outcome (gset addr) :=
  odo oguard (Z.of_nat (length signers) =? MaxBridgeSigners) "exactly 3 bridge signers are required";
  signers_loop ∅ signers.

Definition RouteConfig_Validate (c : RouteConfig) : outcome unit :=
  odo oguard (validRouteID (rc_RouteID c)) "invalid route ID";
  odo configuredSigners (rc_BridgeSigners c);
  odo oguard (IsHexAddress (TrimSpace (rc_Guardian c))) "invalid bridge guardian";
  let guardian := HexToAddress (rc_Guardian c) in
  odo oguard (forallb (fun signer => negb (String.eqb guardian (HexToAddress signer)))
                (rc_BridgeSigners c)) "bridge guardian must use a distinct address";
  odo oguard (positiveAmount (rc_MaxTransferAmount c)) "max transfer amount must be positive";
  odo oguard (positiveAmount (rc_DailyLimit c)) "daily limit must be positive";
  oguard (positiveAmount (rc_MaxOutstandingAmount c)) "max outstanding amount must be positive".

Definition RouteConfigPayloadHash (config : RouteConfig) : outcome bytes :=
  odo RouteConfig_Validate config;
  Ok (sha256 (Marshal (RouteConfig_json config))).
End config.

(** ** pause.go, control.go: signed administrative actions *)

Record GuardianPauseAction := MkPauseAction {
  pa_RouteID : string;
  pa_Nonce : Z;
  pa_ExpiresUnix : Z;
}.

Record ControlAction := MkControlAction {
  ca_RouteID : string;
  ca_Action : string;
  ca_PayloadHash : string;
  ca_Nonce : Z;
  ca_NotBeforeUnix : Z;
  ca_ExpiresUnix : Z;
}.

Section actions.
Context {U : UnicodeTables} {E : EthCommon} {Cr : EthCrypto}.

Definition GuardianPauseAction_Validate (a : GuardianPauseAction) : outcome unit :=
  odo oguard (validRouteID (pa_RouteID a)) "invalid route ID";
  odo oguard (negb (pa_Nonce a =? 0)) "guardian pause nonce must be positive";
  oguard (negb (pa_ExpiresUnix a <=? 0)) "guardian pause expiry must be positive".

Definition GuardianPauseAction_ID (a : GuardianPauseAction) : outcome bytes :=
  odo GuardianPauseAction_Validate a;
  Ok (sha256 (Join [GuardianPauseDomain; pa_RouteID a; FormatInt (pa_Nonce a);
                    FormatInt (pa_ExpiresUnix a)] NUL)).

Definition GuardianPauseDigest (action : GuardianPauseAction) : outcome bytes :=
  olet id <- GuardianPauseAction_ID action;
  Ok (Keccak256Hash [GuardianPauseDomain; id]).

Definition ControlAction_Validate (a : ControlAction) : outcome unit :=
  odo oguard (validRouteID (ca_RouteID a)) "invalid route ID";
  odo oguard (existsb (String.eqb (ca_Action a))
                [ActionUpdateRouteConfig; ActionPauseRoute; ActionResumeRoute; ActionCloseRoute])
      "invalid bridge control action";
  odo oguard (IsHexHash (TrimSpace (ca_PayloadHash a))) "invalid bridge control payload hash";
  odo oguard (negb (ca_Nonce a =? 0)) "bridge control nonce must be positive";
  oguard (negb ((ca_NotBeforeUnix a <=? 0) || (ca_ExpiresUnix a <=? ca_NotBeforeUnix a)))
      "invalid bridge control validity window".

Definition ControlAction_fields (a : ControlAction) : list string :=
  [ControlDomain; ca_RouteID a; ca_Action a; ToLower (TrimSpace (ca_PayloadHash a));
   FormatInt (ca_Nonce a); FormatInt (ca_NotBeforeUnix a); FormatInt (ca_ExpiresUnix a)].

Definition ControlAction_ID (a : ControlAction) : outcome bytes :=
  odo ControlAction_Validate a;
  Ok (sha256 (Join (ControlAction_fields a) NUL)).

Definition ControlDigest (action : ControlAction) : outcome bytes :=
  olet id <- ControlAction_ID action;
  Ok (Keccak256Hash [ControlDomain; id]).

(** ** signatures.go *)

Definition SigningDigest (attestation : Attestation) : outcome bytes :=
  olet id <- Attestation_ID attestation;
  Ok (Keccak256Hash [SigningDomain; id]).

Definition byte_at (n : nat) (s : bytes) : Z :=
  match String.get n s with Some c => ord c | None => 0 end.

(** A 65-byte signature [r || s || v]; [v] may be 27 or 28. *)
Definition recoverSigner (digest signature : bytes) : outcome addr :=
  odo oguard (len signature =? SignatureLength) "invalid signature length";
  let v := byte_at 64 signature in
  let v' := if (v =? 27) || (v =? 28) then v - 27 else v in
  odo oguard (negb (1 <? v')) "invalid signature recovery ID";
  let r := be_value (String.substring 0 32 signature) in
  let s := be_value (String.substring 32 32 signature) in
  odo oguard (ValidateSignatureValues v' r s true) "invalid signature values";
  let sg := (String.substring 0 64 signature +:+ byte1 v')%string in
  olet pub <- owrap "recover signer" (SigToPub digest sg);
  Ok (PubkeyToAddress pub).

(** The loop over the signatures of an approval: every recovered address is a
    configured signer not seen before. *)
Fixpoint approvals_loop (digest : bytes) (allowed seen : gset addr) (recovered : list addr)
    (signatures : list bytes) : outcome (list addr) :=
  match signatures with
  | [] => Ok recovered
  | signature :: signatures' =>
    olet address <- recoverSigner digest signature;
    odo oguard (bool_decide (address ∈ allowed)) "approval is not from a configured bridge signer";
    odo oguard (bool_decide (address ∉ seen)) "duplicate signer approval";
    approvals_loop digest allowed ({[address]} ∪ seen) (recovered ++ [address]) signatures'
  end.

Definition signature_count_ok (signatures : list bytes) : bool :=
  let n := Z.of_nat (length signatures) in
  negb ((n <? RequiredApprovals) || (MaxBridgeSigners <? n)).

Definition VerifyApprovals (attestation : Attestation) (bridgeSigners : list string)
    (signatures : list bytes) : outcome (list addr) :=
  olet allowed <- configuredSigners bridgeSigners;
  odo oguard (signature_count_ok signatures) "signature count must be between 2 and 3";
  olet digest <- SigningDigest attestation;
  approvals_loop digest allowed ∅ [] signatures.

Definition VerifyControlApprovals (action : ControlAction) (bridgeSigners : list string)
    (signatures : list bytes) : outcome (list addr) :=
  olet allowed <- configuredSigners bridgeSigners;
  odo oguard (signature_count_ok signatures) "signature count must be between 2 and 3";
  olet digest <- ControlDigest action;
  approvals_loop digest allowed ∅ [] signatures.

Definition VerifyGuardianPause (action : GuardianPauseAction) (guardian : string)
    (signature : bytes) : outcome addr :=
  odo oguard (IsHexAddress (TrimSpace guardian)) "invalid bridge guardian";
  olet digest <- GuardianPauseDigest action;
  olet recovered <- recoverSigner digest signature;
  odo oguard (String.eqb recovered (HexToAddress guardian))
      "pause approval is not from the configured guardian";
  Ok recovered.

End actions.

(** ** genesis.go *)

Record BridgeGenesis := MkBridgeGenesis {
  bg_RouteConfig : option RouteConfig;
  bg_Paused : bool;
  bg_OutstandingAmount : string;
  bg_OutboundNonce : Z;
}.

Definition bridge_DefaultGenesisState : BridgeGenesis :=
  MkBridgeGenesis None false EmptyString 0.

Section genesis.
Context {U : UnicodeTables} {E : EthCommon}.

Definition BridgeGenesis_Validate (g : BridgeGenesis) : outcome unit :=
  match bg_RouteConfig g with
  | None =>
    oguard (negb (bg_Paused g || negb (String.eqb (bg_OutstandingAmount g) EmptyString)
                  || negb (bg_OutboundNonce g =? 0)))
      "bridge state requires a route configuration"
  | Some config =>
    odo RouteConfig_Validate config;
    if String.eqb (bg_OutstandingAmount g) EmptyString then Ok tt else
    match SetString (bg_OutstandingAmount g) with
    | None => Err "invalid bridge outstanding amount"
    | Some outstanding =>
      odo oguard (negb (outstanding <? 0)) "invalid bridge outstanding amount";
      let limit := default 0 (SetString (rc_MaxOutstandingAmount config)) in
      oguard (negb (limit <? outstanding)) "bridge outstanding amount exceeds route limit"
    end
  end.
End genesis.

(** ** msg.go *)

Record MsgSubmitAttestation := MkMsgSubmitAttestation {
  msa_Submitter : string; msa_RouteId : string; msa_Direction : string;
  msa_SourceChainId : string; msa_SourceRef : string; msa_Nonce : Z;
  msa_Destination : string; msa_Amount : string; msa_DeadlineUnix : Z;
  msa_Signatures : list bytes;
}.
Record MsgInitiateOutboundTransfer := MkMsgInitiateOutboundTransfer {
  mot_Sender : string; mot_RouteId : string; mot_Destination : string; mot_Amount : string;
}.
Record MsgInitializeRouteConfig := MkMsgInitializeRouteConfig {
  mir_Authority : string; mir_RouteId : string; mir_BridgeSigners : list string;
  mir_Guardian : string; mir_MaxTransferAmount : string; mir_DailyLimit : string;
  mir_MaxOutstandingAmount : string;
}.
Record MsgEmergencyPauseRoute := MkMsgEmergencyPauseRoute {
  mep_Submitter : string; mep_RouteId : string; mep_Nonce : Z; mep_ExpiresUnix : Z;
  mep_GuardianSignature : bytes;
}.
Record MsgResumeRoute := MkMsgResumeRoute {
  mrr_Submitter : string; mrr_RouteId : string; mrr_Nonce : Z; mrr_NotBeforeUnix : Z;
  mrr_ExpiresUnix : Z; mrr_Signatures : list bytes;
}.
Record MsgUpdateRouteConfig := MkMsgUpdateRouteConfig {
  mur_Submitter : string; mur_RouteId : string; mur_BridgeSigners : list string;
  mur_Guardian : string; mur_MaxTransferAmount : string; mur_DailyLimit : string;
  mur_MaxOutstandingAmount : string; mur_Enabled : bool; mur_Nonce : Z;
  mur_NotBeforeUnix : Z; mur_ExpiresUnix : Z; mur_Signatures : list bytes;
}.

Definition MsgSubmitAttestation_Attestation (m : MsgSubmitAttestation) : Attestation :=
  MkAttestation (msa_RouteId m) (msa_Direction m) (msa_SourceChainId m) (msa_SourceRef m)
    (msa_Nonce m) (msa_Destination m) (msa_Amount m) (msa_DeadlineUnix m).

Definition MsgInitializeRouteConfig_RouteConfig (m : MsgInitializeRouteConfig) : RouteConfig :=
  MkRouteConfig (mir_RouteId m) (mir_BridgeSigners m) (mir_Guardian m)
    (mir_MaxTransferAmount m) (mir_DailyLimit m) (mir_MaxOutstandingAmount m) false.

Definition MsgUpdateRouteConfig_RouteConfig (m : MsgUpdateRouteConfig) : RouteConfig :=
  MkRouteConfig (mur_RouteId m) (mur_BridgeSigners m) (mur_Guardian m)
    (mur_MaxTransferAmount m) (mur_DailyLimit m) (mur_MaxOutstandingAmount m) (mur_Enabled m).

Definition MsgEmergencyPauseRoute_Action (m : MsgEmergencyPauseRoute) : GuardianPauseAction :=
  MkPauseAction (mep_RouteId m) (mep_Nonce m) (mep_ExpiresUnix m).

Definition MsgResumeRoute_Action (m : MsgResumeRoute) (payloadHash : string) : ControlAction :=
  MkControlAction (mrr_RouteId m) ActionResumeRoute payloadHash (mrr_Nonce m)
    (mrr_NotBeforeUnix m) (mrr_ExpiresUnix m).

Definition MsgUpdateRouteConfig_Action (m : MsgUpdateRouteConfig) (payloadHash : string)
    : ControlAction :=
  MkControlAction (mur_RouteId m) ActionUpdateRouteConfig payloadHash (mur_Nonce m)
    (mur_NotBeforeUnix m) (mur_ExpiresUnix m).

Definition validateControlSignatures (signatures : list bytes) : outcome unit :=
  odo oguard (signature_count_ok signatures) "invalid bridge control signature count";
  oguard (forallb (fun s => len s =? 65) signatures)
    "bridge control signatures must be 65 bytes".

Section messages.
Context {U : UnicodeTables} {E : EthCommon} {T : SdkTypes}.

Definition MsgSubmitAttestation_ValidateBasic (m : option MsgSubmitAttestation) : outcome unit :=
  match m with
  | None => Err "bridge: empty attestation submission"
  | Some m =>
    odo AccAddressFromBech32 (msa_Submitter m);
    Attestation_Validate (MsgSubmitAttestation_Attestation m)
  end.

Definition valid_cronos_destination (destination : string) : bool :=
  IsHexAddress destination && negb (String.eqb (HexToAddress destination) zero_address).

Definition MsgInitiateOutboundTransfer_ValidateBasic (m : option MsgInitiateOutboundTransfer)
    : outcome unit :=
  match m with
  | None => Err "bridge: empty outbound transfer"
  | Some m =>
    odo AccAddressFromBech32 (mot_Sender m);
    odo oguard (validRouteID (mot_RouteId m)) "invalid route ID";
    odo oguard (valid_cronos_destination (TrimSpace (mot_Destination m)))
        "invalid Cronos destination";
    oguard (match SetString (mot_Amount m) with Some z => 0 <? z | None => false end)
      "amount must be a positive integer in atomic units"
  end.

Definition MsgInitializeRouteConfig_ValidateBasic (m : option MsgInitializeRouteConfig)
    : outcome unit :=
  match m with
  | None => Err "bridge: empty initial route configuration"
  | Some m =>
    odo AccAddressFromBech32 (mir_Authority m);
    RouteConfig_Validate (MsgInitializeRouteConfig_RouteConfig m)
  end.

Definition MsgEmergencyPauseRoute_ValidateBasic (m : option MsgEmergencyPauseRoute)
    : outcome unit :=
  match m with
  | None => Err "bridge: empty emergency pause"
  | Some m =>
    odo AccAddressFromBech32 (mep_Submitter m);
    odo GuardianPauseAction_Validate (MsgEmergencyPauseRoute_Action m);
    oguard (len (mep_GuardianSignature m) =? 65) "guardian signature must be 65 bytes"
  end.

Definition MsgResumeRoute_ValidateBasic (m : option MsgResumeRoute) : outcome unit :=
  match m with
  | None => Err "bridge: empty route resume"
  | Some m =>
    odo AccAddressFromBech32 (mrr_Submitter m);
    odo oguard (negb (negb (validRouteID (mrr_RouteId m)) || (mrr_Nonce m =? 0)
                      || (mrr_NotBeforeUnix m <=? 0)
                      || (mrr_ExpiresUnix m <=? mrr_NotBeforeUnix m)))
        "invalid route resume action";
    validateControlSignatures (mrr_Signatures m)
  end.

Definition MsgUpdateRouteConfig_ValidateBasic (m : option MsgUpdateRouteConfig) : outcome unit :=
  match m with
  | None => Err "bridge: empty route configuration update"
  | Some m =>
    odo AccAddressFromBech32 (mur_Submitter m);
    odo RouteConfig_Validate (MsgUpdateRouteConfig_RouteConfig m);
    odo oguard (negb ((mur_Nonce m =? 0) || (mur_NotBeforeUnix m <=? 0)
                      || (mur_ExpiresUnix m <=? mur_NotBeforeUnix m)))
        "invalid route configuration update action";
    validateControlSignatures (mur_Signatures m)
  end.
End messages.
