(* ===== verification/BridgeKeeper.v ===== *)
(** * x/bridge/keeper: state, settlement and message server

    The keeper's KV store is a map of byte keys to byte values with the
    source's key layout; the bank is any implementation of [BankOps].  Handlers
    return the state with the writes made so far; [bridge_deliver] runs one in
    a transaction. *)

From Stdlib Require Import ZArith Lia List String Ascii Bool.
From stdpp Require Import base gmap strings list.
From S2P Require Import Prelude GoStrings GoJson Sha256 Sdk BridgeTypes.
Local Open Scope Z_scope.
Local Open Scope go_scope.

(** ** State *)

Record Event := MkEvent { ev_type : string; ev_attrs : list (string * string) }.

Record World (B : Type) := MkWorld {
  w_kv : KVStore;
  w_bank : B;
  w_events : list Event;
}.
Arguments MkWorld {B}.
Arguments w_kv {B}.
Arguments w_bank {B}.
Arguments w_events {B}.

(** keeper.go: [Keeper]; the bank keeper is present or nil. *)
Record BridgeKeeper := MkBridgeKeeper {
  bk_hasBank : bool;
  bk_nativeDenom : string;
  bk_maxSupply : Z;
  bk_authority : string;
}.

(** route_state.go *)
Record RouteState := MkRouteState { rs_Paused : bool }.

Definition ErrAttestationAlreadyProcessed : error := "bridge attestation already processed".
Definition ErrAttestationRouteMismatch : error :=
  "bridge attestation route does not match configuration".
Definition ErrControlActionNotActive : error := "bridge control action is not active".
Definition ErrControlActionProcessed : error := "bridge control action already processed".
Definition ErrControlPayloadMismatch : error :=
  "bridge control payload does not match route configuration".
Definition ErrRouteDisabled : error := "bridge route is disabled".
Definition ErrTransferLimitExceeded : error := "bridge transfer limit exceeded".
Definition ErrDailyLimitExceeded : error := "bridge daily limit exceeded".
Definition ErrRouteNotPaused : error := "bridge route is not paused".
Definition ErrRoutePaused : error := "bridge route is paused".
Definition ErrRouteAlreadyPaused : error := "bridge route is already paused".
Definition ErrSettlementUnavailable : error := "bridge settlement is unavailable".
Definition ErrSettlementDirection : error :=
  "bridge attestation is not an inbound Cronos transfer".
Definition ErrOutstandingLimitExceeded : error := "bridge outstanding limit exceeded".
Definition ErrInsufficientOutstanding : error := "bridge outstanding amount is insufficient".
Definition ErrMaximumSupplyExceeded : error := "XTC maximum supply exceeded".
Definition nil_deref : string := "invalid memory address or nil pointer dereference".

(** ** Keys *)

Definition routeConfigKey : bytes := byte1 2.
Definition dailyUsagePrefix : bytes := byte1 3.
Definition processedControlPrefix : bytes := byte1 4.
Definition routeStateKey : bytes := byte1 5.
Definition processedPausePrefix : bytes := byte1 6.

Definition processedKey (id : bytes) : bytes := (KeyProcessedAttestationPrefix +:+ id)%string.
Definition processedControlKey (id : bytes) : bytes := (processedControlPrefix +:+ id)%string.
Definition processedPauseKey (id : bytes) : bytes := (processedPausePrefix +:+ id)%string.
Definition dailyUsageKey (routeID : string) (unixTime : Z) : bytes :=
  (dailyUsagePrefix +:+ sha256 routeID +:+ PutUint64 (u64 (Z.quot unixTime 86400)))%string.

Definition RouteState_json (s : RouteState) : json := JObj [("paused", JBool (rs_Paused s))].

Fixpoint RouteState_members (s : RouteState) (l : list (string * json)) : outcome RouteState :=
  match l with
  | [] => Ok s
  | (k, v) :: l' =>
    if key_is "paused" k then
      olet b <- as_bool (rs_Paused s) v; RouteState_members (MkRouteState b) l'
    else RouteState_members s l'
  end.

Definition RouteState_Unmarshal (b : bytes) : outcome RouteState :=
  match Parse b with
  | Some (JObj l) => RouteState_members (MkRouteState false) l
  | Some JNull => Ok (MkRouteState false)
  | Some _ => Err type_error
  | None => Err syntax_error
  end.

Section keeper.
Context {U : UnicodeTables} {E : EthCommon} {Cr : EthCrypto} {T : SdkTypes} {Mt : SdkMath}.
Context {B : Type} {Bk : BankOps B}.
Implicit Types (k : BridgeKeeper) (ctx : Ctx) (w : World B).

Abbreviation MW := (M (World B)).

Definition set_kv (f : KVStore -> KVStore) : MW unit :=
  mmodify (fun w => MkWorld (f (w_kv w)) (w_bank w) (w_events w)).
Definition store_Set (key value : bytes) : MW unit := set_kv (fun kv => <[key := value]> kv).
Definition store_Delete (key : bytes) : MW unit := set_kv (fun kv => delete key kv).
Definition store_Get (key : bytes) : MW bytes := mreads (fun w => kv_get (w_kv w) key).
Definition store_Has (key : bytes) : MW bool := mreads (fun w => kv_has (w_kv w) key).

Definition EmitEvent (e : Event) : MW unit :=
  mmodify (fun w => MkWorld (w_kv w) (w_bank w) (w_events w ++ [e])).

(** A bank operation inside the world. *)
Definition bank_op (f : B -> outcome unit * B) : MW unit := fun w =>
  let '(r, b) := f (w_bank w) in (r, MkWorld (w_kv w) b (w_events w)).

Definition NewSettlementKeeper (hasBank : bool) (nativeDenom maxSupply authority : string)
    : outcome BridgeKeeper :=
  odo oguard hasBank "bridge bank keeper is required";
  odo ValidateDenom nativeDenom;
  match NewIntFromString maxSupply with
  | None => Err "bridge maximum supply must be positive"
  | Some limit =>
    odo oguard (0 <? limit) "bridge maximum supply must be positive";
    odo (match AccAddressFromBech32 authority with
         | Err _ => Err "bridge authority must be a valid account address"
         | r => r
         end);
    Ok (MkBridgeKeeper true nativeDenom limit authority)
  end.

Definition MustNewSettlementKeeper (hasBank : bool) (nativeDenom maxSupply authority : string)
    : outcome BridgeKeeper :=
  match NewSettlementKeeper hasBank nativeDenom maxSupply authority with
  | Err e => Panic e
  | r => r
  end.

(** ** Replay protection (keeper.go, expiry.go) *)

Definition IsProcessed (id : bytes) : MW bool := store_Has (processedKey id).
Definition MarkProcessed (id : bytes) : MW unit := store_Set (processedKey id) (byte1 1).

Definition ConsumeAttestation (attestation : Attestation) : MW bytes :=
  let! id <- mlift (Attestation_ID attestation);
  let! done <- IsProcessed id;
  do! mguard (negb done) ErrAttestationAlreadyProcessed;
  do! MarkProcessed id;
  mret id.

Definition ConsumeAttestationAt ctx (attestation : Attestation) : MW bytes :=
  do! mlift (Attestation_ValidateAt attestation (BlockTime ctx));
  ConsumeAttestation attestation.

(** ** Configuration and route state (config.go, route_state.go) *)

Definition SetRouteConfig (config : RouteConfig) : MW unit :=
  do! mlift (RouteConfig_Validate config);
  store_Set routeConfigKey (Marshal (RouteConfig_json config)).

Definition GetRouteConfig : MW (option RouteConfig) :=
  let! value <- store_Get routeConfigKey;
  if len value =? 0 then mret None else
  let! config <- mlift (RouteConfig_Unmarshal value);
  do! mlift (RouteConfig_Validate config);
  mret (Some config).

Definition GetRouteState : MW RouteState :=
  let! value <- store_Get routeStateKey;
  if len value =? 0 then mret (MkRouteState false) else
  mlift (RouteState_Unmarshal value).

Definition set_RouteState (s : RouteState) : MW unit :=
  store_Set routeStateKey (Marshal (RouteState_json s)).

Definition RequireRouteAvailable (config : RouteConfig) : MW unit :=
  do! mlift (RouteConfig_Validate config);
  do! mguard (rc_Enabled config) ErrRouteDisabled;
  let! state <- GetRouteState;
  mguard (negb (rs_Paused state)) ErrRoutePaused.

Definition PauseRoute ctx (config : RouteConfig) (action : GuardianPauseAction)
    (signature : bytes) : MW unit :=
  do! mlift (RouteConfig_Validate config);
  do! mguard (String.eqb (pa_RouteID action) (rc_RouteID config))
      "guardian pause route does not match configuration";
  do! mlift (GuardianPauseAction_Validate action);
  do! mguard (negb (pa_ExpiresUnix action <=? BlockTime ctx)) "guardian pause action has expired";
  let! id <- mlift (GuardianPauseAction_ID action);
  let! done <- store_Has (processedPauseKey id);
  do! mguard (negb done) ErrControlActionProcessed;
  do! mlift (VerifyGuardianPause action (rc_Guardian config) signature);
  let! state <- GetRouteState;
  do! mguard (negb (rs_Paused state)) ErrRouteAlreadyPaused;
  do! set_RouteState (MkRouteState true);
  store_Set (processedPauseKey id) (byte1 1).

(** ** Limits (limits.go) *)

Definition CheckAndRecordLimits ctx (config : RouteConfig) (amountText : string) : MW unit :=
  do! RequireRouteAvailable config;
  match SetString amountText with
  | None => mfail "bridge amount must be positive"
  | Some amount =>
    do! mguard (0 <? amount) "bridge amount must be positive";
    match SetString (rc_MaxTransferAmount config), SetString (rc_DailyLimit config) with
    | Some maxTransfer, Some dailyLimit =>
      do! mguard (negb (maxTransfer <? amount)) ErrTransferLimitExceeded;
      let key := dailyUsageKey (rc_RouteID config) (BlockTime ctx) in
      let! stored <- store_Get key;
      let next := be_value stored + amount in
      do! mguard (negb (dailyLimit <? next)) ErrDailyLimitExceeded;
      store_Set key (big_Bytes next)
    | _, _ => mlift (Panic nil_deref)
    end
  end.

Definition DailyUsage ctx (routeID : string) : MW Z :=
  let! stored <- store_Get (dailyUsageKey routeID (BlockTime ctx));
  mret (be_value stored).

(** ** Admission (admission.go) *)

Definition AdmitAttestation ctx (config : RouteConfig) (attestation : Attestation)
    (signatures : list bytes) : MW bytes :=
  do! mlift (RouteConfig_Validate config);
  do! mguard (String.eqb (at_RouteID attestation) (rc_RouteID config)) ErrAttestationRouteMismatch;
  do! RequireRouteAvailable config;
  do! mlift (Attestation_ValidateAt attestation (BlockTime ctx));
  do! mlift (VerifyApprovals attestation (rc_BridgeSigners config) signatures);
  let! id <- mlift (Attestation_ID attestation);
  let! done <- IsProcessed id;
  do! mguard (negb done) ErrAttestationAlreadyProcessed;
  do! CheckAndRecordLimits ctx config (at_Amount attestation);
  do! MarkProcessed id;
  mret id.

(** ** Settlement (settlement.go) *)

Definition OutstandingAmount : MW Z :=
  let! value <- store_Get KeyOutstandingAmount;
  if len value =? 0 then mret 0 else mlift (NewIntFromBigInt (be_value value)).

Definition setOutstandingAmount (amount : Z) : MW unit :=
  if amount =? 0 then store_Delete KeyOutstandingAmount
  else store_Set KeyOutstandingAmount (big_Bytes amount).

(** [sdkmath.NewIntFromString] with [!ok || !amount.IsPositive()]. *)
Definition positive_Int (text : string) : MW Z :=
  match NewIntFromString text with
  | Some amount => do! mguard (0 <? amount) "bridge amount must be positive"; mret amount
  | None => mfail "bridge amount must be positive"
  end.

Definition SettleInbound k (config : RouteConfig) (attestation : Attestation) : MW unit :=
  do! mguard (bk_hasBank k) ErrSettlementUnavailable;
  do! mguard (String.eqb (at_Direction attestation) DirectionCronosToXitcoin)
      ErrSettlementDirection;
  let! recipient <- mlift (owrap "invalid Xitcoin destination"
                      (AccAddressFromBech32 (TrimSpace (at_Destination attestation))));
  let! amount <- positive_Int (at_Amount attestation);
  let! outstanding <- OutstandingAmount;
  let! nextOutstanding <- mlift (Int_Add outstanding amount);
  (* a limit that [NewIntFromString] refuses leaves a nil [Int] *)
  match NewIntFromString (rc_MaxOutstandingAmount config) with
  | None => mlift (Panic nil_deref)
  | Some outstandingLimit =>
    do! mguard (negb (outstandingLimit <? nextOutstanding)) ErrOutstandingLimitExceeded;
    let! supply <- mreads (fun w => GetSupply (w_bank w) (bk_nativeDenom k));
    let! nextSupply <- mlift (Int_Add supply amount);
    do! mguard (negb (bk_maxSupply k <? nextSupply)) ErrMaximumSupplyExceeded;
    let! coin <- mlift (NewCoin (bk_nativeDenom k) amount);
    let coins := NewCoins [coin] in
    do! bank_op (MintCoins bridge_ModuleName coins);
    do! bank_op (SendCoinsFromModuleToAccount bridge_ModuleName recipient coins);
    setOutstandingAmount nextOutstanding
  end.

Definition nextOutboundNonce : MW Z :=
  let! value <- store_Get KeyOutboundNonce;
  let current := if len value =? 8 then be_value value else 0 in
  let next := u64 (current + 1) in
  do! store_Set KeyOutboundNonce (PutUint64 next);
  mret next.

Definition outbound_payload (config : RouteConfig) (sender : addr) (destination : string)
    (amount nonce : Z) : bytes :=
  Join [rc_RouteID config; AccAddress_String sender;
        ToLower (Address_Hex (HexToAddress destination)); Int_String amount;
        FormatInt nonce] NUL.

Definition InitiateOutboundTransfer k ctx (config : RouteConfig) (sender : addr)
    (destination amountText : string) : MW (bytes * Z) :=
  do! mguard (bk_hasBank k) ErrSettlementUnavailable;
  do! RequireRouteAvailable config;
  let destination := TrimSpace destination in
  do! mguard (valid_cronos_destination destination) "invalid Cronos destination";
  let! amount <- positive_Int amountText;
  do! CheckAndRecordLimits ctx config amountText;
  let! outstanding <- OutstandingAmount;
  do! mguard (negb (outstanding <? amount)) ErrInsufficientOutstanding;
  let! coin <- mlift (NewCoin (bk_nativeDenom k) amount);
  let coins := NewCoins [coin] in
  do! bank_op (SendCoinsFromAccountToModule sender bridge_ModuleName coins);
  do! bank_op (BurnCoins bridge_ModuleName coins);
  let! nonce <- nextOutboundNonce;
  let id := sha256 (outbound_payload config sender destination amount nonce) in
  let! rest <- mlift (Int_Sub outstanding amount);
  do! setOutstandingAmount rest;
  mret (id, nonce).

(** ** Administrative actions (control_apply.go, resume.go) *)

Definition ApplyRouteConfigUpdate ctx (current : RouteConfig) (action : ControlAction)
    (next : RouteConfig) (signatures : list bytes) : MW unit :=
  do! mlift (RouteConfig_Validate current);
  do! mlift (RouteConfig_Validate next);
  do! mguard (String.eqb (ca_Action action) ActionUpdateRouteConfig
              && String.eqb (ca_RouteID action) (rc_RouteID current)
              && String.eqb (rc_RouteID next) (rc_RouteID current)) ErrControlPayloadMismatch;
  do! mlift (ControlAction_Validate action);
  let now := BlockTime ctx in
  do! mguard (negb ((now <? ca_NotBeforeUnix action) || (ca_ExpiresUnix action <=? now)))
      ErrControlActionNotActive;
  let! payloadHash <- mlift (RouteConfigPayloadHash next);
  do! mguard (EqualFold_ascii (Hash_Hex payloadHash) (ca_PayloadHash action))
      ErrControlPayloadMismatch;
  let! id <- mlift (ControlAction_ID action);
  let! done <- store_Has (processedControlKey id);
  do! mguard (negb done) ErrControlActionProcessed;
  do! mlift (VerifyControlApprovals action (rc_BridgeSigners current) signatures);
  do! SetRouteConfig next;
  store_Set (processedControlKey id) (byte1 1).

Definition RouteStatePayload_json (config : RouteConfig) (state : RouteState) : json :=
  JObj [("config", RouteConfig_json config); ("state", RouteState_json state)].

Definition RouteStatePayloadHash (config : RouteConfig) (state : RouteState) : outcome bytes :=
  odo RouteConfig_Validate config;
  Ok (sha256 (Marshal (RouteStatePayload_json config state))).

Definition ResumeRoute ctx (config : RouteConfig) (action : ControlAction)
    (signatures : list bytes) : MW unit :=
  do! mlift (RouteConfig_Validate config);
  do! mguard (String.eqb (ca_Action action) ActionResumeRoute
              && String.eqb (ca_RouteID action) (rc_RouteID config)) ErrControlPayloadMismatch;
  do! mlift (ControlAction_Validate action);
  let now := BlockTime ctx in
  do! mguard (negb ((now <? ca_NotBeforeUnix action) || (ca_ExpiresUnix action <=? now)))
      ErrControlActionNotActive;
  let! state <- GetRouteState;
  do! mguard (rs_Paused state) ErrRouteNotPaused;
  let next := MkRouteState false in
  let! payloadHash <- mlift (RouteStatePayloadHash config next);
  do! mguard (EqualFold_ascii (Hash_Hex payloadHash) (ca_PayloadHash action))
      ErrControlPayloadMismatch;
  let! id <- mlift (ControlAction_ID action);
  let! done <- store_Has (processedControlKey id);
  do! mguard (negb done) ErrControlActionProcessed;
  do! mlift (VerifyControlApprovals action (rc_BridgeSigners config) signatures);
  do! set_RouteState next;
  store_Set (processedControlKey id) (byte1 1).

(** ** Genesis (genesis.go) *)

(** [if err := ...; err != nil { panic(err) }]. *)
Definition must {A} (m : MW A) : MW A := fun w =>
  match m w with (Err e, w') => (Panic e, w') | r => r end.

Definition bridge_InitGenesis (state : BridgeGenesis) : MW unit :=
  match bg_RouteConfig state with
  | None => mret tt
  | Some config =>
    do! must (SetRouteConfig config);
    do! (if bg_Paused state then set_RouteState (MkRouteState true) else mret tt);
    do! (if String.eqb (bg_OutstandingAmount state) EmptyString then mret tt
         else match NewIntFromString (bg_OutstandingAmount state) with
              | None => mlift (Panic "invalid bridge outstanding amount")
              | Some amount => setOutstandingAmount amount
              end);
    if bg_OutboundNonce state =? 0 then mret tt
    else store_Set KeyOutboundNonce (PutUint64 (bg_OutboundNonce state))
  end.

Definition bridge_ExportGenesis : MW BridgeGenesis :=
  let! found <- must GetRouteConfig;
  match found with
  | None => mret bridge_DefaultGenesisState
  | Some config =>
    let! state <- must GetRouteState;
    let! outstanding <- OutstandingAmount;
    let! value <- store_Get KeyOutboundNonce;
    mret (MkBridgeGenesis (Some config) (rs_Paused state) (Int_String outstanding)
            (if len value =? 8 then be_value value else 0))
  end.

(** ** Queries (grpc_query.go) *)

Definition AttestationStatus (req : option string) : MW (string * bool) :=
  match req with
  | None => mfail "bridge attestation status request is required"
  | Some attestationId =>
    let! (id, canonical) <- mlift (ParseAttestationID attestationId);
    let! processed <- IsProcessed id;
    mret (canonical, processed)
  end.

End keeper.

(** [NewKeeper] leaves the settlement fields at their zero values. *)
Definition NewKeeper : BridgeKeeper := MkBridgeKeeper false EmptyString 0 EmptyString.
