(* ===== verification/BridgeServer.v ===== *)
(** * x/bridge: message server and module entry points

    The six message handlers of keeper/msg_server.go with the events they
    emit, the delivery of a message in a transaction, and the JSON genesis of
    module.go. *)

From Stdlib Require Import ZArith Lia List String Ascii Bool.
From stdpp Require Import base gmap strings list.
From S2P Require Import Prelude GoStrings GoJson Sha256 Sdk BridgeTypes BridgeKeeper.
Local Open Scope Z_scope.
Local Open Scope go_scope.

Definition FormatBool (b : bool) : string := if b then "true" else "false".

Section server.
Context {U : UnicodeTables} {E : EthCommon} {Cr : EthCrypto} {T : SdkTypes} {Mt : SdkMath}.
Context {B : Type} {Bk : BankOps B}.
Variable k : BridgeKeeper.
Implicit Types (ctx : Ctx) (w : World B).

Abbreviation MW := (M (World B)).

(** [config, found, err := GetRouteConfig(ctx)], refusing a missing route. *)
Definition require_config : MW RouteConfig :=
  let! found <- GetRouteConfig;
  match found with
  | None => mfail ErrRouteDisabled
  | Some config => mret config
  end.

(** [if req == nil { return errors.New(e) }]. *)
Definition require_req {A R} (req : option A) (e : error) (f : A -> MW R) : MW R :=
  match req with None => mfail e | Some m => f m end.

Definition srv_InitializeRouteConfig ctx (req : option MsgInitializeRouteConfig) : MW unit :=
  require_req req "bridge: empty initial route configuration" (fun m =>
  do! mlift (ValidateAuthority ctx (bk_authority k) (mir_Authority m));
  do! mlift (MsgInitializeRouteConfig_ValidateBasic req);
  let! found <- GetRouteConfig;
  do! mguard (match found with None => true | Some _ => false end)
      "bridge: initial route configuration already exists";
  let config := MsgInitializeRouteConfig_RouteConfig m in
  do! SetRouteConfig config;
  do! set_RouteState (MkRouteState true);
  EmitEvent (MkEvent "bridge_route_initialized"
    [("route_id", rc_RouteID config); ("enabled", "false"); ("paused", "true")])).

Definition srv_EmergencyPauseRoute ctx (req : option MsgEmergencyPauseRoute) : MW unit :=
  require_req req "bridge: empty emergency pause" (fun m =>
  do! mlift (MsgEmergencyPauseRoute_ValidateBasic req);
  let! config <- require_config;
  do! PauseRoute ctx config (MsgEmergencyPauseRoute_Action m) (mep_GuardianSignature m);
  EmitEvent (MkEvent "bridge_route_paused"
    [("route_id", rc_RouteID config); ("nonce", FormatInt (mep_Nonce m))])).

Definition srv_ResumeRoute ctx (req : option MsgResumeRoute) : MW unit :=
  require_req req "bridge: empty route resume" (fun m =>
  do! mlift (MsgResumeRoute_ValidateBasic req);
  let! config <- require_config;
  let! payloadHash <- mlift (RouteStatePayloadHash config (MkRouteState false));
  let action := MsgResumeRoute_Action m (Hash_Hex payloadHash) in
  do! ResumeRoute ctx config action (mrr_Signatures m);
  EmitEvent (MkEvent "bridge_route_resumed"
    [("route_id", rc_RouteID config); ("nonce", FormatInt (mrr_Nonce m))])).

Definition srv_UpdateRouteConfig ctx (req : option MsgUpdateRouteConfig) : MW unit :=
  require_req req "bridge: empty route configuration update" (fun m =>
  do! mlift (MsgUpdateRouteConfig_ValidateBasic req);
  let! current <- require_config;
  let next := MsgUpdateRouteConfig_RouteConfig m in
  let! payloadHash <- mlift (RouteConfigPayloadHash next);
  let action := MsgUpdateRouteConfig_Action m (Hash_Hex payloadHash) in
  do! ApplyRouteConfigUpdate ctx current action next (mur_Signatures m);
  EmitEvent (MkEvent "bridge_route_config_updated"
    [("route_id", rc_RouteID next); ("enabled", FormatBool (rc_Enabled next));
     ("nonce", FormatInt (mur_Nonce m))])).

Definition srv_SubmitAttestation ctx (req : option MsgSubmitAttestation) : MW string :=
  require_req req "bridge: empty attestation submission" (fun m =>
  do! mlift (MsgSubmitAttestation_ValidateBasic req);
  let! config <- require_config;
  let attestation := MsgSubmitAttestation_Attestation m in
  do! mguard (String.eqb (at_Direction attestation) DirectionCronosToXitcoin)
      ErrSettlementDirection;
  let! id <- AdmitAttestation ctx config attestation (msa_Signatures m);
  do! SettleInbound k config attestation;
  do! EmitEvent (MkEvent "bridge_inbound_settled"
    [("attestation_id", hex_encode id); ("route_id", rc_RouteID config);
     ("destination", at_Destination attestation); ("amount", at_Amount attestation)]);
  mret (hex_encode id)).

Definition srv_InitiateOutboundTransfer ctx (req : option MsgInitiateOutboundTransfer)
    : MW (string * Z) :=
  require_req req "bridge: empty outbound transfer" (fun m =>
  do! mlift (MsgInitiateOutboundTransfer_ValidateBasic req);
  let! config <- require_config;
  do! mguard (String.eqb (mot_RouteId m) (rc_RouteID config)) ErrAttestationRouteMismatch;
  let! sender <- mlift (AccAddressFromBech32 (mot_Sender m));
  let! r <- InitiateOutboundTransfer k ctx config sender (mot_Destination m) (mot_Amount m);
  let requestID := hex_encode r.1 in
  do! EmitEvent (MkEvent "bridge_outbound_burned"
    [("request_id", requestID); ("route_id", rc_RouteID config);
     ("sender", AccAddress_String sender); ("destination", mot_Destination m);
     ("amount", mot_Amount m); ("nonce", FormatInt r.2)]);
  mret (requestID, r.2)).

(** ** Messages and their delivery *)

Inductive BridgeMsg :=
| BSubmit (m : option MsgSubmitAttestation)
| BOutbound (m : option MsgInitiateOutboundTransfer)
| BInitialize (m : option MsgInitializeRouteConfig)
| BPause (m : option MsgEmergencyPauseRoute)
| BResume (m : option MsgResumeRoute)
| BUpdate (m : option MsgUpdateRouteConfig).

Inductive BridgeResponse :=
| RAttestation (id : string)
| ROutbound (id : string) (nonce : Z)
| REmpty.

Definition bridge_handle ctx (msg : BridgeMsg) : MW BridgeResponse :=
  match msg with
  | BSubmit m => let! id <- srv_SubmitAttestation ctx m; mret (RAttestation id)
  | BOutbound m => let! r <- srv_InitiateOutboundTransfer ctx m; mret (ROutbound r.1 r.2)
  | BInitialize m => do! srv_InitializeRouteConfig ctx m; mret REmpty
  | BPause m => do! srv_EmergencyPauseRoute ctx m; mret REmpty
  | BResume m => do! srv_ResumeRoute ctx m; mret REmpty
  | BUpdate m => do! srv_UpdateRouteConfig ctx m; mret REmpty
  end.

(** A message in its transaction. *)
Definition bridge_deliver ctx (msg : BridgeMsg) : MW BridgeResponse :=
  atomically (bridge_handle ctx msg).

(** A run of the chain as the bridge sees it: its own messages, and changes of
    the bank made by the rest of the chain between them. *)
Inductive Step :=
| Tx (ctx : Ctx) (msg : BridgeMsg)
| External (f : B -> B).

Definition bridge_step (w : World B) (s : Step) : World B :=
  match s with
  | Tx ctx msg => (bridge_deliver ctx msg w).2
  | External f => MkWorld (w_kv w) (f (w_bank w)) (w_events w)
  end.

Definition bridge_run (w : World B) (l : list Step) : World B := fold_left bridge_step l w.

End server.

Arguments Tx {B}.
Arguments External {B}.

(** ** JSON genesis of the module (module.go, types/genesis.go) *)

Definition BridgeGenesis_json (g : BridgeGenesis) : json :=
  JObj (match bg_RouteConfig g with
        | Some c => [("route_config", RouteConfig_json c)] | None => [] end
        ++ [("paused", JBool (bg_Paused g))]
        ++ (if String.eqb (bg_OutstandingAmount g) EmptyString then []
            else [("outstanding_amount", JStr (bg_OutstandingAmount g))])
        ++ (if bg_OutboundNonce g =? 0 then []
            else [("outbound_nonce", JNum (FormatInt (bg_OutboundNonce g)))])).

(** A pointer field: null resets it, an object is decoded into the struct it
    points to, allocated when nil. *)
Definition as_RouteConfig (prev : option RouteConfig) (v : json) : outcome (option RouteConfig) :=
  match v with
  | JNull => Ok None
  | JObj l => olet c <- RouteConfig_members (default zero_RouteConfig prev) l; Ok (Some c)
  | _ => Err type_error
  end.

Definition BridgeGenesis_member (g : BridgeGenesis) (kv : string * json) : outcome BridgeGenesis :=
  let '(MkBridgeGenesis rc p o n) := g in
  let '(key, v) := kv in
  if key_is "route_config" key then
    olet c <- as_RouteConfig rc v; Ok (MkBridgeGenesis c p o n)
  else if key_is "paused" key then
    olet b <- as_bool p v; Ok (MkBridgeGenesis rc b o n)
  else if key_is "outstanding_amount" key then
    olet s <- as_string o v; Ok (MkBridgeGenesis rc p s n)
  else if key_is "outbound_nonce" key then
    olet z <- as_uint two64 n v; Ok (MkBridgeGenesis rc p o z)
  else Ok g.

Fixpoint BridgeGenesis_members (g : BridgeGenesis) (l : list (string * json))
    : outcome BridgeGenesis :=
  match l with
  | [] => Ok g
  | kv :: l' => olet g' <- BridgeGenesis_member g kv; BridgeGenesis_members g' l'
  end.

Definition BridgeGenesis_Unmarshal (b : bytes) : outcome BridgeGenesis :=
  match Parse b with
  | Some (JObj l) => BridgeGenesis_members bridge_DefaultGenesisState l
  | Some JNull => Ok bridge_DefaultGenesisState
  | Some _ => Err type_error
  | None => Err syntax_error
  end.

Section appmodule.
Context {U : UnicodeTables} {E : EthCommon} {Mt : SdkMath}.
Context {B : Type}.

Definition bridge_DefaultGenesis : bytes := Marshal (BridgeGenesis_json bridge_DefaultGenesisState).

Definition bridge_ValidateGenesis (data : bytes) : outcome unit :=
  olet state <- owrap "invalid bridge genesis" (BridgeGenesis_Unmarshal data);
  BridgeGenesis_Validate state.

Definition bridge_module_InitGenesis (data : bytes) : M (World B) unit :=
  let! state <- must (mlift (owrap "invalid bridge genesis" (BridgeGenesis_Unmarshal data)));
  do! must (mlift (owrap "invalid bridge genesis" (BridgeGenesis_Validate state)));
  bridge_InitGenesis state.

Definition bridge_module_ExportGenesis : M (World B) bytes :=
  let! state <- bridge_ExportGenesis;
  mret (Marshal (BridgeGenesis_json state)).
End appmodule.
