(* ===== verification/BridgeFacts.v ===== *)
(** * x/bridge/types: what validation and signature checks establish

    Validated configurations survive their JSON encoding, an approval is
    accepted exactly when two or three distinct configured signers signed the
    digest, and an attestation identifier determines the signed fields. *)

From Stdlib Require Import ZArith Lia List String Ascii Bool.
From stdpp Require Import base gmap strings list.
From S2P Require Import Prelude GoStrings GoJson Sha256 Sdk BridgeTypes RefEnv.
Local Open Scope Z_scope.

Section route.
Context {U : UnicodeTables}.

Lemma validRouteID_runes s :
  validRouteID s = true -> Forall (fun r => route_rune r.1 = true) (runes s).
Proof.
  unfold validRouteID. case_match; [done|]. rewrite forallb_forall, List.Forall_forall. auto.
Qed.

Lemma validRouteID_no_nul s : validRouteID s = true -> no_nul s = true.
Proof.
  intros H%validRouteID_runes. apply runes_no_nul. eapply List.Forall_impl; [|done].
  intros r Hr Hz. simpl in Hr. by rewrite Hz in Hr.
Qed.

Lemma validRouteID_utf8 s : validRouteID s = true -> utf8_valid s = true.
Proof.
  intros H%validRouteID_runes. unfold utf8_valid. apply forallb_forall. intros r Hr.
  rewrite List.Forall_forall in H. specialize (H r Hr).
  destruct (bad_rune r) eqn:Eb; [|done]. unfold bad_rune in Eb.
  apply andb_true_iff in Eb as [Er _]. zify_bool. rewrite Er in H.
  unfold route_rune, IsLower, IsDigit in H. change (RuneError <=? 255) with false in H.
  by rewrite lower_ext_RuneError, digit_ext_RuneError in H.
Qed.

Lemma positiveAmount_Some v : positiveAmount v = true -> exists z, SetString v = Some z /\ 0 < z.
Proof.
  unfold positiveAmount. destruct (SetString v) as [z|]; [|done]. intros. zify_bool. eauto.
Qed.

Lemma positiveAmount_utf8 v : positiveAmount v = true -> utf8_valid v = true.
Proof. intros (z & Hz & _)%positiveAmount_Some. by eapply utf8_valid_ascii, SetString_ascii. Qed.
End route.

(** ** Signer sets and approvals *)

Section approvals.
Context {U : UnicodeTables} {E : EthCommon} {Cr : EthCrypto}.

#[local] Opaque recoverSigner SigningDigest ControlDigest.

Lemma signers_loop_Ok l acc s :
  signers_loop acc l = Ok s <->
  Forall (fun x => IsHexAddress (TrimSpace x) = true) l /\
  NoDup (map HexToAddress l) /\ (forall x, x ∈ map HexToAddress l -> x ∉ acc) /\
  s = acc ∪ list_to_set (map HexToAddress l).
Proof.
  revert acc. induction l as [|x l IH]; intros acc; simpl.
  { split; [intros [= ->]|intros (_ & _ & _ & ->)]; [|f_equal; set_solver].
    repeat split; try constructor; set_solver. }
  rewrite obind_Ok. setoid_rewrite oguard_Ok. setoid_rewrite obind_Ok.
  setoid_rewrite oguard_Ok. setoid_rewrite bool_decide_eq_true. setoid_rewrite IH.
  rewrite Forall_cons, NoDup_cons. split.
  - intros ([] & Hx & [] & Hn & Hl & Hd & Ha & ->).
    repeat split; [done|done| |done| |]; [| |apply leibniz_equiv; set_solver].
    + intros Hin%Ha. set_solver.
    + intros y [->|Hy]%elem_of_cons; [done|]. intros Hacc. apply (Ha y Hy). set_solver.
  - intros ((Hx & Hl) & (Hn & Hd) & Ha & ->). exists tt. split; [done|]. exists tt.
    repeat split; [|done|done| |]; [| |apply leibniz_equiv; set_solver].
    + apply Ha. set_solver.
    + intros y Hy. rewrite not_elem_of_union, not_elem_of_singleton.
      split; [by intros ->|]. apply Ha. set_solver.
Qed.

Definition signer_addresses (signers : list string) : list addr := map HexToAddress signers.

(** A configuration of bridge signers: three distinct addresses. *)
Definition signers_wf (signers : list string) : Prop :=
  length signers = 3%nat /\ Forall (fun x => IsHexAddress (TrimSpace x) = true) signers /\
  NoDup (signer_addresses signers).

Lemma configuredSigners_Ok l s :
  configuredSigners l = Ok s <-> signers_wf l /\ s = list_to_set (signer_addresses l).
Proof.
  unfold configuredSigners, signers_wf, signer_addresses. rewrite obind_Ok.
  setoid_rewrite oguard_Ok. setoid_rewrite signers_loop_Ok. unfold MaxBridgeSigners.
  setoid_rewrite Z.eqb_eq. split.
  - intros ([] & Hl & Hf & Hd & _ & ->). repeat split; [lia|done|done|]. apply leibniz_equiv. set_solver.
  - intros ((Hl & Hf & Hd) & ->). exists tt. repeat split; [lia|done|done|set_solver|].
    apply leibniz_equiv. set_solver.
Qed.

(** [signatures] are signatures of the digest by the addresses [l], in order. *)
Definition signed (digest : bytes) (signatures : list bytes) (l : list addr) : Prop :=
  Forall2 (fun sg a => recoverSigner digest sg = Ok a) signatures l.

Lemma approvals_loop_Ok digest allowed seen rec sigs l :
  approvals_loop digest allowed seen rec sigs = Ok l <->
  exists l', l = rec ++ l' /\ signed digest sigs l' /\ NoDup l' /\
    (forall x, x ∈ l' -> x ∈ allowed /\ x ∉ seen).
Proof.
  revert seen rec. induction sigs as [|sg sigs IH]; intros seen rec; simpl.
  { split.
    - intros [= ->]. exists []. split_and!; [by rewrite app_nil_r|constructor|constructor|set_solver].
    - intros (l' & -> & H & _). inversion H. by rewrite app_nil_r. }
  rewrite obind_Ok. setoid_rewrite obind_Ok. setoid_rewrite obind_Ok.
  setoid_rewrite oguard_Ok. setoid_rewrite bool_decide_eq_true. setoid_rewrite IH. split.
  - intros (a & Ha & [] & Hal & [] & Hs & l' & -> & Hsg & Hd & Hin).
    exists (a :: l'). rewrite <- app_assoc. split_and!; [done|by constructor| |].
    + constructor; [|done]. intros Hx%Hin. set_solver.
    + intros x [->|Hx]%elem_of_cons; [done|]. apply Hin in Hx. set_solver.
  - intros (l' & -> & Hsg & Hd & Hin). inversion Hsg as [|? a ? l'' Ha Hsg' ]; subst.
    apply NoDup_cons in Hd as [Hna Hd]. exists a. split; [done|].
    exists tt. split; [apply Hin; set_solver|]. exists tt. split; [apply Hin; set_solver|].
    exists l''. rewrite <- app_assoc. split_and!; [done|done|done|].
    intros x Hx. destruct (Hin x); [set_solver|]. split; [done|].
    rewrite not_elem_of_union, not_elem_of_singleton. split; [by intros ->|done].
Qed.

(** Two or three distinct configured signers signed the digest. *)
Definition approved_by (digest : bytes) (signers : list string) (signatures : list bytes)
    (l : list addr) : Prop :=
  (2 <= length signatures <= 3)%nat /\ signed digest signatures l /\ NoDup l /\
  (forall a, a ∈ l -> a ∈ signer_addresses signers).

Lemma signature_count_ok_true sigs :
  signature_count_ok sigs = true <-> (2 <= length sigs <= 3)%nat.
Proof.
  unfold signature_count_ok, RequiredApprovals, MaxBridgeSigners.
  rewrite negb_true_iff, orb_false_iff, !Z.ltb_ge. lia.
Qed.

Lemma approvals_Ok digest signers sigs l :
  signers_wf signers -> signature_count_ok sigs = true ->
  approvals_loop digest (list_to_set (signer_addresses signers)) ∅ [] sigs = Ok l <->
  approved_by digest signers sigs l.
Proof.
  intros Hs Hc. rewrite approvals_loop_Ok. unfold approved_by.
  rewrite signature_count_ok_true in Hc. split.
  - intros (l' & -> & Hsg & Hd & Hin). split_and!; [lia|lia|done|done|].
    intros a Ha%Hin. set_solver.
  - intros (_ & Hsg & Hd & Hin). exists l. split_and!; [done|done|done|]. set_solver.
Qed.

Lemma VerifyApprovals_Ok a signers sigs l :
  VerifyApprovals a signers sigs = Ok l <->
  signers_wf signers /\ exists digest, SigningDigest a = Ok digest /\
    approved_by digest signers sigs l.
Proof.
  unfold VerifyApprovals. split.
  - intros H. minv. apply configuredSigners_Ok in H0 as [Hs ->].
    rewrite approvals_Ok in H by done. eauto.
  - intros (Hs & d & Hd & H).
    assert (signature_count_ok sigs = true) as Hc by apply signature_count_ok_true, H.
    rewrite (proj2 (configuredSigners_Ok _ _) (conj Hs eq_refl)). simpl. rewrite Hc, Hd.
    by apply approvals_Ok.
Qed.

Lemma VerifyControlApprovals_Ok a signers sigs l :
  VerifyControlApprovals a signers sigs = Ok l <->
  signers_wf signers /\ exists digest, ControlDigest a = Ok digest /\
    approved_by digest signers sigs l.
Proof.
  unfold VerifyControlApprovals. split.
  - intros H. minv. apply configuredSigners_Ok in H0 as [Hs ->].
    rewrite approvals_Ok in H by done. eauto.
  - intros (Hs & d & Hd & H).
    assert (signature_count_ok sigs = true) as Hc by apply signature_count_ok_true, H.
    rewrite (proj2 (configuredSigners_Ok _ _) (conj Hs eq_refl)). simpl. rewrite Hc, Hd.
    by apply approvals_Ok.
Qed.

Lemma approved_by_length digest signers sigs l :
  approved_by digest signers sigs l -> (2 <= length l <= 3)%nat.
Proof. intros (Hn & Hs & _). by rewrite <- (Forall2_length _ _ _ Hs). Qed.

End approvals.

(** ** Configurations *)

Section config.
Context {U : UnicodeTables} {E : EthCommon}.

(** What [RouteConfig.Validate] accepts. *)
Record config_wf (c : RouteConfig) : Prop := {
  cw_route : validRouteID (rc_RouteID c) = true;
  cw_signers : signers_wf (rc_BridgeSigners c);
  cw_guardian : IsHexAddress (TrimSpace (rc_Guardian c)) = true;
  cw_distinct : HexToAddress (rc_Guardian c) ∉ signer_addresses (rc_BridgeSigners c);
  cw_transfer : positiveAmount (rc_MaxTransferAmount c) = true;
  cw_daily : positiveAmount (rc_DailyLimit c) = true;
  cw_outstanding : positiveAmount (rc_MaxOutstandingAmount c) = true;
}.

Lemma guardian_distinct g (l : list string) :
  forallb (fun signer => negb (String.eqb g (HexToAddress signer))) l = true <->
  g ∉ signer_addresses l.
Proof.
  unfold signer_addresses. rewrite forallb_forall, list_elem_of_In, in_map_iff. split.
  - intros H (x & Hx & Hin). specialize (H x Hin). rewrite Hx, String.eqb_refl in H. done.
  - intros H x Hin. apply negb_true_iff, String.eqb_neq. intros Hg. apply H. eauto.
Qed.

Lemma RouteConfig_Validate_Ok c : RouteConfig_Validate c = Ok tt <-> config_wf c.
Proof.
  unfold RouteConfig_Validate. split.
  - intros H. minv.
    match goal with H : configuredSigners _ = _ |- _ => apply configuredSigners_Ok in H as [? _] end.
    constructor; try done. by apply guardian_distinct.
  - intros [Hr Hs Hg Hd Ht Hda Ho]. apply guardian_distinct in Hd.
    rewrite Hr, (proj2 (configuredSigners_Ok _ _) (conj Hs eq_refl)). simpl.
    by rewrite Hg, Hd, Ht, Hda, Ho.
Qed.

Lemma hex_utf8 s : IsHexAddress (TrimSpace s) = true -> utf8_valid s = true.
Proof. intros H%IsHexAddress_ascii. by apply TrimSpace_ascii_valid. Qed.

Lemma RouteConfig_json_wf c : config_wf c -> wf_json (RouteConfig_json c).
Proof.
  intros [Hr (_ & Hs & _) Hg _ Ht Hda Ho].
  unfold RouteConfig_json. constructor.
  repeat (apply List.Forall_cons; [split; [reflexivity|]|]); [..|apply List.Forall_nil]; simpl.
  all: try (constructor; eauto using validRouteID_utf8, hex_utf8, positiveAmount_utf8; fail).
  constructor. rewrite List.Forall_map. eapply List.Forall_impl; [|exact Hs].
  intros x Hx. constructor. by apply hex_utf8.
Qed.

Lemma RouteConfig_members_json c : exists l,
  RouteConfig_json c = JObj l /\ RouteConfig_members zero_RouteConfig l = Ok c.
Proof.
  eexists. split; [reflexivity|]. destruct c as [r s g t d o e].
  cbn [rc_RouteID rc_BridgeSigners rc_Guardian rc_MaxTransferAmount rc_DailyLimit
       rc_MaxOutstandingAmount rc_Enabled].
  assert (Has : forall p, as_strings p (JArr (map JStr s)) = Ok s) by (intros; apply as_strings_map).
  unfold RouteConfig_members, RouteConfig_member, zero_RouteConfig. cbn -[as_strings]. rewrite Has.
  reflexivity.
Qed.

(** Decoding a stored configuration gives back the configuration. *)
Lemma RouteConfig_roundtrip c :
  config_wf c -> RouteConfig_Unmarshal (Marshal (RouteConfig_json c)) = Ok c.
Proof.
  intros Hc. unfold RouteConfig_Unmarshal. rewrite Parse_Marshal by by apply RouteConfig_json_wf.
  destruct (RouteConfig_members_json c) as (l & -> & Hl). exact Hl.
Qed.

Lemma RouteConfig_Marshal_inj c c' :
  config_wf c -> config_wf c' ->
  Marshal (RouteConfig_json c) = Marshal (RouteConfig_json c') -> c = c'.
Proof.
  intros Hc Hc' H. apply (f_equal RouteConfig_Unmarshal) in H.
  rewrite !RouteConfig_roundtrip in H by done. congruence.
Qed.
End config.

(** ** Attestation identifiers *)

Section ids.
Context {U : UnicodeTables}.

Lemma Attestation_Validate_inv a : Attestation_Validate a = Ok tt ->
  validRouteID (at_RouteID a) = true /\
  (at_Direction a = DirectionCronosToXitcoin \/ at_Direction a = DirectionXitcoinToCronos) /\
  (exists b, hex_decode (normalizeHexReference (at_SourceRef a)) = Some b) /\
  (exists z, SetString (at_Amount a) = Some z /\ 0 < z).
Proof.
  unfold Attestation_Validate. intros H. minv.
  repeat match goal with H : _ || _ = true |- _ => apply orb_true_iff in H end.
  split_and!; [done| | |by apply positiveAmount_Some].
  - match goal with H : _ \/ _ |- _ => destruct H; zify_bool; auto end.
  - match goal with H : validHexReference _ = true |- _ => unfold validHexReference in H;
      repeat case_match; eauto; done end.
Qed.

(** The fields chosen freely by the sender contain no separator. *)
Definition separable (a : Attestation) : Prop :=
  no_nul (at_SourceChainID a) = true /\ no_nul (TrimSpace (at_Destination a)) = true.

Lemma Attestation_fields_no_nul a :
  Attestation_Validate a = Ok tt -> separable a ->
  Forall (fun f => no_nul f = true) (Attestation_fields a).
Proof.
  intros (Hr & Hd & (b & Hx) & (z & Hz & _))%Attestation_Validate_inv [Hc Hdst].
  unfold Attestation_fields.
  repeat (apply List.Forall_cons || apply List.Forall_nil); try done.
  - by apply validRouteID_no_nul.
  - by destruct Hd as [-> | ->].
  - by eapply hex_decode_no_nul.
  - apply FormatInt_no_nul.
  - by eapply SetString_no_nul.
  - apply FormatInt_no_nul.
Qed.

Lemma Attestation_ID_Ok a id : Attestation_ID a = Ok id <->
  Attestation_Validate a = Ok tt /\ id = sha256 (Join (Attestation_fields a) NUL).
Proof.
  unfold Attestation_ID. rewrite obind_Ok. split.
  - intros ([] & Hv & H). by injection H as <-.
  - intros [Hv ->]. by exists tt.
Qed.

Lemma Attestation_ID_length a id : Attestation_ID a = Ok id -> String.length id = 32%nat.
Proof. intros [_ ->]%Attestation_ID_Ok. apply sha256_length. Qed.

Lemma Attestation_ID_fields a b id :
  Attestation_ID a = Ok id -> Attestation_ID b = Ok id -> separable a -> separable b ->
  Attestation_fields a = Attestation_fields b \/
  sha256_collision (Join (Attestation_fields a) NUL) (Join (Attestation_fields b) NUL).
Proof.
  intros [Ha ->]%Attestation_ID_Ok [Hb H]%Attestation_ID_Ok Hsa Hsb.
  apply sha256_eq in H as [H|H]; [left|by right].
  apply Join_inj in H; eauto using Attestation_fields_no_nul.
Qed.
End ids.
