(* ===== verification/BridgeSpec.v ===== *)
(** * x/bridge: abstract specification

    The bridge as a transition system over an abstract state: the route, the
    pause flag, the outstanding amount, the outbound nonce, the daily usage and
    the set of consumed replay keys, without the byte encodings of the store.
    [bridge_rule] has one rule per message.  [repr] relates a store to the
    abstract state it encodes. *)

From Stdlib Require Import ZArith Lia List String Ascii Bool.
From stdpp Require Import base gmap strings list.
From S2P Require Import Prelude GoStrings GoJson Sha256 Sdk BridgeTypes BridgeKeeper BridgeServer.
From S2P Require Import BridgeFacts.
Local Open Scope Z_scope.

(** ** Abstract state *)

Record AState (B : Type) := MkAState {
  a_config : option RouteConfig;
  a_paused : bool;
  a_outstanding : Z;
  a_nonce : Z;
  a_used : gmap bytes Z;        (* by daily usage key *)
  a_done : gset bytes;          (* consumed replay keys *)
  a_bank : B;
}.
Arguments MkAState {B}.
Arguments a_config {B}.
Arguments a_paused {B}.
Arguments a_outstanding {B}.
Arguments a_nonce {B}.
Arguments a_used {B}.
Arguments a_done {B}.
Arguments a_bank {B}.

Section updates.
Context {B : Type}.
Implicit Types a : AState B.

Definition with_config c (a : AState B) : AState B := MkAState (Some c) (a_paused a) (a_outstanding a) (a_nonce a)
  (a_used a) (a_done a) (a_bank a).
Definition with_paused p (a : AState B) : AState B := MkAState (a_config a) p (a_outstanding a) (a_nonce a)
  (a_used a) (a_done a) (a_bank a).
Definition with_outstanding z (a : AState B) : AState B := MkAState (a_config a) (a_paused a) z (a_nonce a)
  (a_used a) (a_done a) (a_bank a).
Definition with_nonce z (a : AState B) : AState B := MkAState (a_config a) (a_paused a) (a_outstanding a) z
  (a_used a) (a_done a) (a_bank a).
Definition with_used k z (a : AState B) : AState B := MkAState (a_config a) (a_paused a) (a_outstanding a) (a_nonce a)
  (<[k := z]> (a_used a)) (a_done a) (a_bank a).
Definition with_done k (a : AState B) : AState B := MkAState (a_config a) (a_paused a) (a_outstanding a) (a_nonce a)
  (a_used a) ({[k]} ∪ a_done a) (a_bank a).
Definition with_bank (b : B) (a : AState B) : AState B := MkAState (a_config a) (a_paused a) (a_outstanding a) (a_nonce a)
  (a_used a) (a_done a) b.
Definition used_at a (key : bytes) : Z := default 0 (a_used a !! key).
End updates.

(** A key that records a consumed attestation, control action or pause. *)
Definition replay_key (key : bytes) : Prop :=
  exists id, key = processedKey id \/ key = processedControlKey id \/ key = processedPauseKey id.

Lemma replay_processed id : replay_key (processedKey id).
Proof. exists id. auto. Qed.
Lemma replay_control id : replay_key (processedControlKey id).
Proof. exists id. auto. Qed.
Lemma replay_pause id : replay_key (processedPauseKey id).
Proof. exists id. auto. Qed.
#[export] Hint Resolve replay_processed replay_control replay_pause : pos_chain.

(** ** Rules *)

Section rules.
Context {U : UnicodeTables} {E : EthCommon} {Cr : EthCrypto} {T : SdkTypes} {Mt : SdkMath}.
Context {B : Type} {Bk : BankOps B}.
Variable k : BridgeKeeper.
Implicit Types (a : AState B) (c : RouteConfig).

Definition valid_address (s : string) : Prop := is_ok (AccAddressFromBech32 s) = true.

(** The route accepts transfers. *)
Definition available a c : Prop :=
  a_config a = Some c /\ rc_Enabled c = true /\ a_paused a = false.

(** A transfer of [x] stays within the per-transfer and the daily limit. *)
Definition within_limits ctx c (text : string) a (x : Z) : Prop :=
  SetString text = Some x /\ 0 < x /\
  (exists maxTransfer, SetString (rc_MaxTransferAmount c) = Some maxTransfer /\ x <= maxTransfer) /\
  (exists dailyLimit, SetString (rc_DailyLimit c) = Some dailyLimit /\
     used_at a (dailyUsageKey (rc_RouteID c) (BlockTime ctx)) + x <= dailyLimit).

Definition record_usage ctx c (x : Z) a : AState B :=
  let key := dailyUsageKey (rc_RouteID c) (BlockTime ctx) in with_used key (used_at a key + x) a.

Definition coins_of (amt : Z) : list Coin := [MkCoin (bk_nativeDenom k) amt].

(** The bank mints [amt] and sends it to the recipient. *)
Definition minted a (rcp : addr) (amt : Z) (b : B) : Prop :=
  is_ok (ValidateDenom (bk_nativeDenom k)) = true /\
  exists b1, MintCoins bridge_ModuleName (coins_of amt) (a_bank a) = (Ok tt, b1) /\
             SendCoinsFromModuleToAccount bridge_ModuleName rcp (coins_of amt) b1 = (Ok tt, b).

(** The bank takes [amt] from the sender and burns it. *)
Definition burned a (sender : addr) (amt : Z) (b : B) : Prop :=
  is_ok (ValidateDenom (bk_nativeDenom k)) = true /\
  exists b1, SendCoinsFromAccountToModule sender bridge_ModuleName (coins_of amt) (a_bank a)
               = (Ok tt, b1) /\
             BurnCoins bridge_ModuleName (coins_of amt) b1 = (Ok tt, b).

(** Two current signers approved the control action inside its window. *)
Definition control_approved ctx c (action : ControlAction) (sigs : list bytes) (id : bytes) a
    : Prop :=
  ca_RouteID action = rc_RouteID c /\ ControlAction_ID action = Ok id /\
  ca_NotBeforeUnix action <= BlockTime ctx < ca_ExpiresUnix action /\
  (exists digest l, ControlDigest action = Ok digest /\
     approved_by digest (rc_BridgeSigners c) sigs l) /\
  processedControlKey id ∉ a_done a.

Definition resume_hash c : bytes :=
  sha256 (Marshal (RouteStatePayload_json c (MkRouteState false))).
Definition update_hash c : bytes := sha256 (Marshal (RouteConfig_json c)).

Inductive bridge_rule (ctx : Ctx) (a : AState B)
    : BridgeMsg -> BridgeResponse -> AState B -> Prop :=
| rule_submit m att c id x amt lim rcp b digest l :
    att = MsgSubmitAttestation_Attestation m ->
    bk_hasBank k = true -> valid_address (msa_Submitter m) -> available a c ->
    at_Direction att = DirectionCronosToXitcoin -> at_RouteID att = rc_RouteID c ->
    Attestation_ID att = Ok id -> BlockTime ctx <= at_DeadlineUnix att ->
    SigningDigest att = Ok digest -> approved_by digest (rc_BridgeSigners c) (msa_Signatures m) l ->
    processedKey id ∉ a_done a ->
    within_limits ctx c (at_Amount att) a x ->
    AccAddressFromBech32 (TrimSpace (at_Destination att)) = Ok rcp ->
    NewIntFromString (at_Amount att) = Some amt -> 0 < amt ->
    NewIntFromString (rc_MaxOutstandingAmount c) = Some lim -> a_outstanding a + amt <= lim ->
    int_fits (GetSupply (a_bank a) (bk_nativeDenom k) + amt) = true ->
    GetSupply (a_bank a) (bk_nativeDenom k) + amt <= bk_maxSupply k ->
    minted a rcp amt b ->
    bridge_rule ctx a (BSubmit (Some m)) (RAttestation (hex_encode id))
      (with_outstanding (a_outstanding a + amt) (with_bank b
        (with_done (processedKey id) (record_usage ctx c x a))))
| rule_outbound m c x amt sender b dest nonce :
    bk_hasBank k = true -> available a c ->
    AccAddressFromBech32 (mot_Sender m) = Ok sender -> mot_RouteId m = rc_RouteID c ->
    dest = TrimSpace (mot_Destination m) -> valid_cronos_destination dest = true ->
    within_limits ctx c (mot_Amount m) a x ->
    NewIntFromString (mot_Amount m) = Some amt -> 0 < amt <= a_outstanding a ->
    burned a sender amt b -> nonce = u64 (a_nonce a + 1) ->
    bridge_rule ctx a (BOutbound (Some m))
      (ROutbound (hex_encode (sha256 (outbound_payload c sender dest amt nonce))) nonce)
      (with_outstanding (a_outstanding a - amt) (with_nonce nonce (with_bank b
        (record_usage ctx c x a))))
| rule_initialize m c :
    c = MsgInitializeRouteConfig_RouteConfig m ->
    ValidateAuthority ctx (bk_authority k) (mir_Authority m) = Ok tt ->
    valid_address (mir_Authority m) -> config_wf c -> a_config a = None ->
    bridge_rule ctx a (BInitialize (Some m)) REmpty (with_paused true (with_config c a))
| rule_pause m c action id digest :
    action = MsgEmergencyPauseRoute_Action m -> valid_address (mep_Submitter m) ->
    a_config a = Some c -> a_paused a = false -> pa_RouteID action = rc_RouteID c ->
    GuardianPauseAction_ID action = Ok id -> BlockTime ctx < pa_ExpiresUnix action ->
    processedPauseKey id ∉ a_done a ->
    GuardianPauseDigest action = Ok digest ->
    recoverSigner digest (mep_GuardianSignature m) = Ok (HexToAddress (rc_Guardian c)) ->
    bridge_rule ctx a (BPause (Some m)) REmpty
      (with_done (processedPauseKey id) (with_paused true a))
| rule_resume m c action id :
    valid_address (mrr_Submitter m) -> a_config a = Some c -> a_paused a = true ->
    action = MsgResumeRoute_Action m (Hash_Hex (resume_hash c)) ->
    control_approved ctx c action (mrr_Signatures m) id a ->
    bridge_rule ctx a (BResume (Some m)) REmpty
      (with_done (processedControlKey id) (with_paused false a))
| rule_update m c next action id :
    valid_address (mur_Submitter m) -> a_config a = Some c ->
    next = MsgUpdateRouteConfig_RouteConfig m -> config_wf next -> rc_RouteID next = rc_RouteID c ->
    action = MsgUpdateRouteConfig_Action m (Hash_Hex (update_hash next)) ->
    control_approved ctx c action (mur_Signatures m) id a ->
    bridge_rule ctx a (BUpdate (Some m)) REmpty
      (with_done (processedControlKey id) (with_config next a)).

(** ** Representation in the store *)

Record repr (w : World B) (a : AState B) : Prop := {
  rp_config : match a_config a with
              | None => w_kv w !! routeConfigKey = None
              | Some c => config_wf c /\
                  w_kv w !! routeConfigKey = Some (Marshal (RouteConfig_json c))
              end;
  rp_state : w_kv w !! routeStateKey = Some (Marshal (RouteState_json (MkRouteState (a_paused a))))
             \/ (w_kv w !! routeStateKey = None /\ a_paused a = false);
  rp_outstanding : 0 <= a_outstanding a < two256 /\
    w_kv w !! KeyOutstandingAmount =
      (if a_outstanding a =? 0 then None else Some (big_Bytes (a_outstanding a)));
  rp_nonce : is_u64 (a_nonce a) /\
    (w_kv w !! KeyOutboundNonce = Some (PutUint64 (a_nonce a)) \/
     (w_kv w !! KeyOutboundNonce = None /\ a_nonce a = 0));
  rp_used : forall route t,
    be_value (kv_get (w_kv w) (dailyUsageKey route t)) = used_at a (dailyUsageKey route t);
  rp_done : forall key, replay_key key -> (key ∈ a_done a <-> is_Some (w_kv w !! key));
  rp_bank : w_bank w = a_bank a;
}.

End rules.
