(* ===== verification/BridgeRefine.v ===== *)
(** * x/bridge: the handlers implement the specification

    Every store access is described on the abstract state, and from these the
    simulation in both directions: a handler that succeeds takes a rule of the
    specification, and a rule that applies makes the handler succeed. *)

From Stdlib Require Import ZArith Lia List String Ascii Bool.
From stdpp Require Import base gmap strings list.
From S2P Require Import Prelude GoStrings GoJson Sha256 Sdk BridgeTypes BridgeKeeper BridgeServer BridgeFacts BridgeSpec.
Local Open Scope Z_scope.
Local Open Scope go_scope.

(** Keys of different tables differ in their first byte. *)
Ltac key_neq :=
  let H := fresh in intros H; apply (f_equal (String.get 0)) in H; discriminate H.

Lemma replay_key_head key : replay_key key ->
  String.get 0 key = Some (chr 1) \/ String.get 0 key = Some (chr 4) \/
  String.get 0 key = Some (chr 6).
Proof. intros (id & [-> | [-> | ->]]); auto. Qed.

Ltac replay_neq :=
  let H := fresh in intros H; subst;
  match goal with Hr : replay_key _ |- _ => apply replay_key_head in Hr end;
  repeat match goal with Hr : _ \/ _ |- _ => destruct Hr as [Hr|Hr] end; discriminate.

Section store.
Context {U : UnicodeTables} {E : EthCommon} {Mt : SdkMath}.
Context {B : Type}.
Implicit Types (w : World B) (a : AState B).

Definition put (key value : bytes) w : World B :=
  MkWorld (<[key := value]> (w_kv w)) (w_bank w) (w_events w).

Lemma RouteState_roundtrip s :
  RouteState_Unmarshal (Marshal (RouteState_json s)) = Ok s.
Proof.
  unfold RouteState_Unmarshal. rewrite Parse_Marshal; [by destruct s|].
  constructor. constructor; [split; [done|constructor]|constructor].
Qed.

Lemma RouteState_Marshal_nonempty s : (len (Marshal (RouteState_json s)) =? 0) = false.
Proof.
  apply Z.eqb_neq. unfold len. intros H.
  assert (Marshal (RouteState_json s) <> EmptyString) as Hne.
  { apply Marshal_nonempty. constructor. constructor; [split; [done|constructor]|constructor]. }
  destruct (Marshal (RouteState_json s)); [done|]. simpl in H. lia.
Qed.

Lemma RouteConfig_Marshal_nonempty c :
  config_wf c -> (len (Marshal (RouteConfig_json c)) =? 0) = false.
Proof.
  intros Hc. apply Z.eqb_neq. unfold len. intros H.
  pose proof (Marshal_nonempty _ (RouteConfig_json_wf c Hc)).
  destruct (Marshal (RouteConfig_json c)); [done|]. simpl in H. lia.
Qed.

(** ** Reading *)

Lemma GetRouteConfig_repr w a : repr w a -> GetRouteConfig w = (Ok (a_config a), w).
Proof.
  intros [Hc _ _ _ _ _ _]. unfold GetRouteConfig, store_Get. cbn [mbind' mreads].
  unfold mbind' at 1, mreads, kv_get. destruct (a_config a) as [c|].
  - destruct Hc as [Hwf ->]. simpl. rewrite RouteConfig_Marshal_nonempty by done.
    unfold mbind', mlift. rewrite RouteConfig_roundtrip by done.
    by rewrite (proj2 (RouteConfig_Validate_Ok c) Hwf).
  - rewrite Hc. done.
Qed.

Lemma GetRouteState_repr w a :
  repr w a -> GetRouteState w = (Ok (MkRouteState (a_paused a)), w).
Proof.
  intros [_ Hs _ _ _ _ _]. unfold GetRouteState, store_Get, mbind', mreads, kv_get.
  destruct Hs as [-> | [-> ->]]; [|done]. simpl. rewrite RouteState_Marshal_nonempty.
  unfold mlift. by rewrite RouteState_roundtrip.
Qed.

Lemma big_Bytes_len z : 0 < z -> (len (big_Bytes z) =? 0) = false.
Proof.
  intros Hz. apply Z.eqb_neq. unfold len. intros H. apply big_Bytes_nonempty in Hz.
  destruct (big_Bytes z); [done|]. simpl in H. lia.
Qed.

Lemma int_fits_range z : 0 <= z < two256 -> int_fits z = true.
Proof. intros. unfold int_fits. apply Z.ltb_lt. lia. Qed.

Lemma OutstandingAmount_repr w a : repr w a -> OutstandingAmount w = (Ok (a_outstanding a), w).
Proof.
  intros [_ _ [Hr Ho] _ _ _ _]. unfold OutstandingAmount, store_Get, mbind', mreads, kv_get.
  rewrite Ho. destruct (Z.eqb_spec (a_outstanding a) 0) as [->|Hne]; [done|]. simpl.
  rewrite big_Bytes_len, SetBytes_Bytes by lia. unfold mlift.
  by rewrite NewIntFromBigInt_spec, int_fits_range.
Qed.

Lemma store_Has_repr w a key :
  repr w a -> replay_key key -> store_Has key w = (Ok (bool_decide (key ∈ a_done a)), w).
Proof.
  intros H Hk. unfold store_Has, mreads, kv_has. do 2 f_equal.
  apply bool_decide_ext. symmetry. by apply H.
Qed.

Lemma Uint64_repr w a : repr w a ->
  (if len (kv_get (w_kv w) KeyOutboundNonce) =? 8
   then be_value (kv_get (w_kv w) KeyOutboundNonce) else 0) = a_nonce a.
Proof.
  intros [_ _ _ [Hr Hn] _ _ _]. unfold kv_get. destruct Hn as [-> | [-> ->]]; [|done].
  cbn [from_option id]. unfold len. rewrite PutUint64_length, Uint64_PutUint64.
  by apply u64_small.
Qed.

(** ** Writing *)

Ltac repr_put H :=
  destruct H as [Hc Hs Ho Hn Hu Hd Hb]; constructor; simpl; unfold kv_get in *;
  try (rewrite lookup_insert_ne by key_neq; done);
  try (intros; rewrite lookup_insert_ne by key_neq; by apply Hu);
  try (intros; rewrite lookup_insert_ne by replay_neq; by apply Hd);
  try done.

Lemma repr_put_config w a c :
  repr w a -> config_wf c ->
  repr (put routeConfigKey (Marshal (RouteConfig_json c)) w) (with_config c a).
Proof. intros H Hwf. repr_put H. by rewrite lookup_insert_eq. Qed.

Lemma repr_put_state w a p :
  repr w a ->
  repr (put routeStateKey (Marshal (RouteState_json (MkRouteState p))) w) (with_paused p a).
Proof. intros H. repr_put H. left. by rewrite lookup_insert_eq. Qed.

Lemma repr_put_nonce w a z :
  repr w a -> is_u64 z -> repr (put KeyOutboundNonce (PutUint64 z) w) (with_nonce z a).
Proof. intros H Hz. repr_put H. split; [done|]. left. by rewrite lookup_insert_eq. Qed.

Lemma repr_put_done w a key v :
  repr w a -> replay_key key -> repr (put key v w) (with_done key a).
Proof.
  intros H Hk. destruct H as [Hc Hs Ho Hn Hu Hd Hb]; constructor; simpl; unfold kv_get in *.
  - by rewrite lookup_insert_ne by replay_neq.
  - by rewrite lookup_insert_ne by replay_neq.
  - by rewrite lookup_insert_ne by replay_neq.
  - by rewrite lookup_insert_ne by replay_neq.
  - intros. rewrite lookup_insert_ne by replay_neq. apply Hu.
  - intros key' Hk'. rewrite elem_of_union, elem_of_singleton.
    destruct (decide (key' = key)) as [->|Hne].
    + rewrite lookup_insert_eq. split; eauto.
    + rewrite lookup_insert_ne, <- Hd by done. naive_solver.
  - done.
Qed.

Lemma repr_put_used w a route t z :
  repr w a -> 0 <= z ->
  repr (put (dailyUsageKey route t) (big_Bytes z) w) (with_used (dailyUsageKey route t) z a).
Proof.
  intros H Hz. repr_put H. intros route' t'. unfold used_at. simpl.
  destruct (decide (dailyUsageKey route' t' = dailyUsageKey route t)) as [->|Hne].
  - rewrite !lookup_insert_eq. simpl. by apply SetBytes_Bytes.
  - rewrite !lookup_insert_ne by done. apply Hu.
Qed.

Lemma repr_bank w a b :
  repr w a -> repr (MkWorld (w_kv w) b (w_events w)) (with_bank b a).
Proof. intros [Hc Hs Ho Hn Hu Hd Hb]. by constructor. Qed.

Lemma repr_events w a ev : repr w a -> repr (MkWorld (w_kv w) (w_bank w) ev) a.
Proof. intros [Hc Hs Ho Hn Hu Hd Hb]. by constructor. Qed.

Lemma setOutstandingAmount_repr w a z : repr w a -> 0 <= z < two256 ->
  exists w', setOutstandingAmount z w = (Ok tt, w') /\ repr w' (with_outstanding z a).
Proof.
  intros H Hz. unfold setOutstandingAmount, store_Delete, store_Set, set_kv, mmodify.
  destruct (Z.eqb_spec z 0) as [->|Hne]; eexists; (split; [reflexivity|]).
  - destruct H as [Hc Hs Ho Hn Hu Hd Hb]; constructor; simpl; unfold kv_get in *.
    all: try (rewrite lookup_delete_ne by key_neq; done).
    + split; [done|]. by rewrite lookup_delete_eq.
    + intros. rewrite lookup_delete_ne by key_neq. apply Hu.
    + intros. rewrite lookup_delete_ne by replay_neq. by apply Hd.
    + done.
  - repr_put H. split; [done|]. rewrite lookup_insert_eq.
    by rewrite (proj2 (Z.eqb_neq z 0)).
Qed.

Lemma nextOutboundNonce_repr w a : repr w a ->
  exists w', nextOutboundNonce w = (Ok (u64 (a_nonce a + 1)), w') /\
    repr w' (with_nonce (u64 (a_nonce a + 1)) a).
Proof.
  intros H. unfold nextOutboundNonce, store_Get, mbind', mreads. rewrite Uint64_repr with (a := a) by done.
  eexists. split; [reflexivity|]. apply repr_put_nonce; [done|]. apply u64_range.
Qed.

Lemma SetRouteConfig_repr w a c : repr w a -> config_wf c ->
  exists w', SetRouteConfig c w = (Ok tt, w') /\ repr w' (with_config c a).
Proof.
  intros H Hc. unfold SetRouteConfig, mbind', mlift. rewrite (proj2 (RouteConfig_Validate_Ok c) Hc).
  eexists. split; [reflexivity|]. by apply repr_put_config.
Qed.

Lemma config_repr w a c : repr w a -> a_config a = Some c -> config_wf c.
Proof. intros [Hc _ _ _ _ _ _] Ha. rewrite Ha in Hc. apply Hc. Qed.

(** ** Keeper operations *)

Lemma RequireRouteAvailable_iff w a c w' : repr w a -> config_wf c ->
  RequireRouteAvailable c w = (Ok tt, w') <->
  rc_Enabled c = true /\ a_paused a = false /\ w' = w.
Proof.
  intros H Hc. unfold RequireRouteAvailable.
  rewrite (mbind_lift _ _ _ tt) by by apply RouteConfig_Validate_Ok. split.
  - intros Hr. apply mbind_Ok in Hr as ([] & w1 & Hg & Hr). minv.
    rewrite (GetRouteState_repr w a H) in *. minv. done.
  - intros (He & Hp & ->). rewrite mbind_guard by done.
    erewrite mbind_eq by by apply GetRouteState_repr. by rewrite Hp.
Qed.

Definition usage_put ctx c x w a : World B :=
  let key := dailyUsageKey (rc_RouteID c) (BlockTime ctx) in
  put key (big_Bytes (used_at a key + x)) w.

Lemma CheckAndRecordLimits_iff ctx w a c text w' : repr w a -> config_wf c ->
  CheckAndRecordLimits ctx c text w = (Ok tt, w') <->
  rc_Enabled c = true /\ a_paused a = false /\
  exists x, within_limits ctx c text a x /\ w' = usage_put ctx c x w a.
Proof.
  intros H Hc. unfold CheckAndRecordLimits, within_limits, usage_put.
  destruct (positiveAmount_Some _ (cw_transfer c Hc)) as (mt & Hmt & _).
  destruct (positiveAmount_Some _ (cw_daily c Hc)) as (dl & Hdl & _).
  pose proof (rp_used _ _ H (rc_RouteID c) (BlockTime ctx)) as Hu. rewrite Hmt, Hdl. split.
  - intros Hr. apply mbind_Ok in Hr as ([] & w1 & Hr & H1).
    apply (RequireRouteAvailable_iff _ a) in Hr as (He & Hp & ->); [|done|done].
    destruct (SetString text) as [x|]; minv. unfold store_Get, store_Set, set_kv in *. minv. zify_bool.
    split_and!; try done. exists x. rewrite <- Hu in *. split_and!; eauto with lia.
  - intros (He & Hp & x & (Hx & Hpos & (mt' & [= <-] & Hle) & (dl' & [= <-] & Hld)) & ->).
    erewrite mbind_eq by by apply (RequireRouteAvailable_iff _ a).
    rewrite Hx. unfold store_Get. rewrite <- Hu in *. mrun guard_tac. done.
Qed.

Lemma repr_usage_put ctx c x w a : repr w a -> 0 < x ->
  repr (usage_put ctx c x w a) (record_usage ctx c x a).
Proof.
  intros H Hx. apply repr_put_used; [done|].
  rewrite <- (rp_used _ _ H). pose proof (be_value_nonneg
    (kv_get (w_kv w) (dailyUsageKey (rc_RouteID c) (BlockTime ctx)))). lia.
Qed.

End store.

Section keeper.
Context {U : UnicodeTables} {E : EthCommon} {Cr : EthCrypto} {T : SdkTypes} {Mt : SdkMath}.
Context {B : Type} {Bk : BankOps B}.
Variable k : BridgeKeeper.
Implicit Types (w : World B) (a : AState B) (c : RouteConfig).

#[local] Opaque recoverSigner SigningDigest ControlDigest Attestation_ID ControlAction_ID
  GuardianPauseAction_ID GuardianPauseDigest Attestation_Validate RouteConfig_Validate.

Lemma Attestation_ID_valid att id : Attestation_ID att = Ok id -> Attestation_Validate att = Ok tt.
Proof. by intros [? _]%Attestation_ID_Ok. Qed.

(** An attestation is admitted when the route is open, the attestation is
    valid, timely, approved and new, and its amount is within the limits. *)
Definition admissible ctx c (att : Attestation) (sigs : list bytes) id x a : Prop :=
  at_RouteID att = rc_RouteID c /\ rc_Enabled c = true /\ a_paused a = false /\
  Attestation_ID att = Ok id /\ BlockTime ctx <= at_DeadlineUnix att /\
  (exists digest l, SigningDigest att = Ok digest /\
     approved_by digest (rc_BridgeSigners c) sigs l) /\
  processedKey id ∉ a_done a /\ within_limits ctx c (at_Amount att) a x.

Lemma AdmitAttestation_iff ctx c att sigs id w a w' : repr w a -> config_wf c ->
  AdmitAttestation ctx c att sigs w = (Ok id, w') <->
  exists x, admissible ctx c att sigs id x a /\
    w' = put (processedKey id) (byte1 1) (usage_put ctx c x w a).
Proof.
  intros H Hc. unfold AdmitAttestation, admissible, Attestation_ValidateAt.
  rewrite (mbind_lift _ _ _ tt) by by apply RouteConfig_Validate_Ok. split.
  - intros Hr. minv.
    repeat match goal with
    | H' : RequireRouteAvailable _ _ = (Ok ?u, _) |- _ => destruct u;
        apply (RequireRouteAvailable_iff _ a) in H' as (? & ? & ->); [|done|done]
    | H' : IsProcessed _ _ = _ |- _ => unfold IsProcessed in H';
        rewrite (store_Has_repr _ a) in H' by auto with pos_chain; injection H' as ? <-
    | H' : CheckAndRecordLimits _ _ _ _ = (Ok ?u, _) |- _ => destruct u;
        apply (CheckAndRecordLimits_iff _ _ a) in H' as (_ & _ & x & ? & ->); [|done|done]
    | H' : VerifyApprovals _ _ _ = _ |- _ => apply VerifyApprovals_Ok in H' as (_ & d & ? & ?)
    end.
    unfold MarkProcessed, store_Set, set_kv in *. minv. zify_bool.
    exists x. split_and!; eauto.
  - intros (x & (Hr & He & Hp & Hid & Ht & (d & l & Hd & Hap) & Hn & Hx) & ->).
    rewrite mbind_guard by guard_tac.
    erewrite mbind_eq by by apply (RequireRouteAvailable_iff _ a).
    rewrite (mbind_lift _ _ _ tt).
    2: { rewrite (Attestation_ID_valid _ _ Hid). simpl. unfold oguard.
         by rewrite (proj2 (Z.ltb_ge _ _) Ht). }
    rewrite (mbind_lift _ _ _ l) by (apply VerifyApprovals_Ok; split; [apply Hc|eauto]).
    rewrite (mbind_lift _ _ _ id) by done.
    erewrite mbind_eq by (apply (store_Has_repr _ a); auto with pos_chain).
    rewrite mbind_guard by guard_tac.
    erewrite mbind_eq by (apply (CheckAndRecordLimits_iff _ _ a); eauto). done.
Qed.

Lemma positive_Int_iff text amt w w' :
  positive_Int text w = (Ok amt, w') <-> NewIntFromString text = Some amt /\ 0 < amt /\ w' = w.
Proof.
  unfold positive_Int. destruct (NewIntFromString text) as [z|]; split.
  - intros H. minv. by zify_bool.
  - intros ([= <-] & Hz & ->). by rewrite mbind_guard by guard_tac.
  - intros H. minv.
  - by intros [? _].
Qed.

Lemma bank_op_Ok (f : B -> outcome unit * B) w u w' :
  bank_op f w = (Ok u, w') <->
  exists b, f (w_bank w) = (Ok tt, b) /\ w' = MkWorld (w_kv w) b (w_events w).
Proof.
  unfold bank_op. destruct (f (w_bank w)) as [[[]|e|p] b]; destruct u; naive_solver.
Qed.

Lemma coin_ok amt : 0 < amt -> is_ok (ValidateDenom (bk_nativeDenom k)) = true ->
  NewCoin (bk_nativeDenom k) amt = Ok (MkCoin (bk_nativeDenom k) amt).
Proof. intros Ha Hd. rewrite NewCoin_spec, Hd, (proj2 (Z.leb_le 0 amt)) by lia. done. Qed.

Lemma coin_inv amt coin : 0 < amt -> NewCoin (bk_nativeDenom k) amt = Ok coin ->
  is_ok (ValidateDenom (bk_nativeDenom k)) = true /\ NewCoins [coin] = coins_of k amt.
Proof.
  intros Ha. rewrite NewCoin_spec, (proj2 (Z.leb_le 0 amt)) by lia. simpl.
  destruct (is_ok _); [|done]. intros [= <-]. split; [done|]. by apply NewCoins_positive.
Qed.

Lemma Int_Add_Ok x y z : Int_Add x y = Ok z <-> int_fits (x + y) = true /\ z = x + y.
Proof. rewrite Int_Add_spec. destruct (int_fits (x + y)); naive_solver. Qed.

Lemma Int_Sub_Ok x y z : Int_Sub x y = Ok z <-> int_fits (x - y) = true /\ z = x - y.
Proof. rewrite Int_Sub_spec. destruct (int_fits (x - y)); naive_solver. Qed.

Lemma int_fits_bound z : int_fits z = true -> - two256 < z < two256.
Proof. unfold int_fits. intros. zify_bool. lia. Qed.

(** The conditions of a settlement, apart from the admission. *)
Definition settles c (att : Attestation) rcp amt b a : Prop :=
  bk_hasBank k = true /\ at_Direction att = DirectionCronosToXitcoin /\
  AccAddressFromBech32 (TrimSpace (at_Destination att)) = Ok rcp /\
  NewIntFromString (at_Amount att) = Some amt /\ 0 < amt /\
  (exists lim, NewIntFromString (rc_MaxOutstandingAmount c) = Some lim /\
     a_outstanding a + amt <= lim) /\
  int_fits (GetSupply (a_bank a) (bk_nativeDenom k) + amt) = true /\
  GetSupply (a_bank a) (bk_nativeDenom k) + amt <= bk_maxSupply k /\
  minted k a rcp amt b.

Lemma SettleInbound_iff c att w a w' : repr w a ->
  SettleInbound k c att w = (Ok tt, w') <->
  exists rcp amt b, settles c att rcp amt b a /\
    setOutstandingAmount (a_outstanding a + amt) (MkWorld (w_kv w) b (w_events w)) = (Ok tt, w').
Proof.
  intros H. unfold SettleInbound, settles, minted. pose proof (rp_bank _ _ H) as Hb. split.
  - intros Hr. minv.
    repeat match goal with
    | H' : positive_Int _ _ = _ |- _ => apply positive_Int_iff in H' as (? & ? & ->)
    | H' : OutstandingAmount _ = _ |- _ =>
        rewrite (OutstandingAmount_repr _ a) in H' by done; injection H' as <- <-
    | H' : Int_Add _ _ = Ok _ |- _ => apply Int_Add_Ok in H' as [? ->]
    end.
    destruct (NewIntFromString (rc_MaxOutstandingAmount c)) as [lim|] eqn:El; minv.
    repeat match goal with
    | H' : Int_Add _ _ = Ok _ |- _ => apply Int_Add_Ok in H' as [? ->]
    | H' : NewCoin _ _ = Ok _ |- _ => apply coin_inv in H' as [? Hcoins]; [|done]
    end.
    rewrite Hcoins in *.
    repeat match goal with
    | H' : bank_op _ _ = _ |- _ => apply bank_op_Ok in H' as (? & ? & ->)
    end. simpl in *. rewrite Hb in *. zify_bool.
    do 3 eexists. split; [|eassumption]. split_and!; eauto.
  - intros (rcp & amt & b & (Hk & Hdir & Hrcp & Hamt & Hpos & (lim & Hlim & Hle) & Hfit & Hmax &
      (Hden & b1 & Hm & Hs)) & Hset).
    rewrite <- Hb in *. pose proof (rp_outstanding _ _ H) as [Ho _].
    pose proof (int_fits_bound _ (NewIntFromString_fits _ _ Hlim)).
    rewrite !mbind_guard by guard_tac. rewrite (mbind_lift _ _ _ rcp) by by rewrite Hrcp.
    erewrite mbind_eq by by apply positive_Int_iff.
    erewrite mbind_eq by by apply OutstandingAmount_repr.
    rewrite (mbind_lift _ _ _ (a_outstanding a + amt))
      by (apply Int_Add_Ok; split; [apply int_fits_range; lia|done]).
    rewrite Hlim, mbind_guard, mbind_reads by guard_tac.
    rewrite (mbind_lift _ _ _ (GetSupply (w_bank w) (bk_nativeDenom k) + amt)) by by apply Int_Add_Ok.
    rewrite mbind_guard by guard_tac. rewrite (mbind_lift _ _ _ _ (coin_ok amt Hpos Hden)).
    rewrite NewCoins_positive by done.
    erewrite mbind_eq by (apply (bank_op_Ok _ _ tt); eauto).
    erewrite mbind_eq by (apply (bank_op_Ok _ _ tt); eauto). exact Hset.
Qed.

(** The conditions of an outbound transfer. *)
Definition sends ctx c sender dest text x amt b a : Prop :=
  bk_hasBank k = true /\ rc_Enabled c = true /\ a_paused a = false /\
  valid_cronos_destination dest = true /\ within_limits ctx c text a x /\
  NewIntFromString text = Some amt /\ 0 < amt <= a_outstanding a /\
  burned k a sender amt b.

Lemma InitiateOutboundTransfer_iff ctx c sender dest text w a r w' : repr w a -> config_wf c ->
  InitiateOutboundTransfer k ctx c sender dest text w = (Ok r, w') <->
  exists x amt b w1, sends ctx c sender (TrimSpace dest) text x amt b a /\
    nextOutboundNonce (MkWorld (w_kv (usage_put ctx c x w a)) b (w_events w)) = (Ok (u64 (a_nonce a + 1)), w1) /\
    setOutstandingAmount (a_outstanding a - amt) w1 = (Ok tt, w') /\
    r = (sha256 (outbound_payload c sender (TrimSpace dest) amt (u64 (a_nonce a + 1))),
         u64 (a_nonce a + 1)).
Proof.
  intros H Hc. unfold InitiateOutboundTransfer, sends, burned. pose proof (rp_bank _ _ H) as Hb.
  pose proof (rp_outstanding _ _ H) as [Ho _]. split.
  - intros Hr. minv.
    repeat match goal with
    | H' : RequireRouteAvailable _ _ = (Ok ?u, _) |- _ => destruct u;
        apply (RequireRouteAvailable_iff _ a) in H' as (? & ? & ->); [|done|done]
    | H' : positive_Int _ _ = _ |- _ => apply positive_Int_iff in H' as (? & ? & ->)
    | H' : CheckAndRecordLimits _ _ _ _ = (Ok ?u, _) |- _ => destruct u;
        apply (CheckAndRecordLimits_iff _ _ a) in H' as (_ & _ & x & Hx & ->); [|done|done]
    end.
    pose proof (repr_usage_put ctx c x w a H (proj1 (proj2 Hx))) as H'.
    repeat match goal with
    | H1 : OutstandingAmount _ = _ |- _ =>
        rewrite (OutstandingAmount_repr _ _ H') in H1; injection H1 as <- <-
    | H1 : NewCoin _ _ = Ok _ |- _ => apply coin_inv in H1 as [? Hcoins]; [|done]
    | H1 : Int_Sub _ _ = Ok _ |- _ => apply Int_Sub_Ok in H1 as [? ->]
    end.
    rewrite Hcoins in *.
    repeat match goal with
    | H1 : bank_op _ _ = _ |- _ => apply bank_op_Ok in H1 as (? & ? & ->)
    end. simpl in *. rewrite Hb in *. zify_bool.
    match goal with H1 : nextOutboundNonce ?w0 = _, H2 : BurnCoins _ _ _ = (_, ?b) |- _ =>
      destruct (nextOutboundNonce_repr w0 (with_bank b (record_usage ctx c x a))) as (w1 & Hw1 & _);
        [exact (repr_bank _ _ _ H')|]; rewrite Hw1 in H1; injection H1 as <- <- end.
    repeat match goal with u : unit |- _ => destruct u end.
    do 4 eexists. split_and!; eauto with lia.
  - intros (x & amt & b & w1 & (Hk & He & Hp & Hdst & Hx & Hamt & Hle & (Hden & b1 & Hs & Hbn)) &
      Hnon & Hset & ->). rewrite <- Hb in *.
    pose proof (repr_usage_put ctx c x w a H (proj1 (proj2 Hx))) as H'.
    rewrite mbind_guard by done.
    erewrite mbind_eq by by apply (RequireRouteAvailable_iff _ a).
    rewrite mbind_guard by done.
    erewrite mbind_eq by (apply positive_Int_iff; split_and!; [done|lia|done]).
    erewrite mbind_eq by (apply (CheckAndRecordLimits_iff _ _ a); eauto).
    erewrite mbind_eq by by apply OutstandingAmount_repr.
    rewrite mbind_guard by (simpl; guard_tac).
    rewrite (mbind_lift _ _ _ _ (coin_ok amt (proj1 Hle) Hden)).
    rewrite NewCoins_positive by (simpl; lia).
    erewrite mbind_eq by (apply (bank_op_Ok _ _ tt); eauto).
    erewrite mbind_eq by (apply (bank_op_Ok _ _ tt); eauto).
    erewrite mbind_eq by exact Hnon.
    rewrite (mbind_lift _ _ _ (a_outstanding a - amt))
      by (apply Int_Sub_Ok; split; [apply int_fits_range; simpl; lia|done]).
    erewrite mbind_eq by exact Hset. done.
Qed.

(** ** Administrative operations *)

Lemma EqualFold_ascii_refl s : EqualFold_ascii s s = true.
Proof. apply String.eqb_refl. Qed.

Lemma GuardianPauseAction_ID_valid p id :
  GuardianPauseAction_ID p = Ok id -> GuardianPauseAction_Validate p = Ok tt.
Proof.
  Transparent GuardianPauseAction_ID. unfold GuardianPauseAction_ID. intros H.
  apply obind_Ok in H as ([] & H & _). exact H.
Qed.
#[local] Opaque GuardianPauseAction_ID.

Lemma ControlAction_ID_valid p id : ControlAction_ID p = Ok id -> ControlAction_Validate p = Ok tt.
Proof.
  Transparent ControlAction_ID. unfold ControlAction_ID. intros H.
  apply obind_Ok in H as ([] & H & _). exact H.
Qed.
#[local] Opaque ControlAction_ID.

Lemma VerifyGuardianPause_Ok p g sg ad : VerifyGuardianPause p g sg = Ok ad <->
  IsHexAddress (TrimSpace g) = true /\ ad = HexToAddress g /\
  exists digest, GuardianPauseDigest p = Ok digest /\ recoverSigner digest sg = Ok ad.
Proof.
  unfold VerifyGuardianPause. split.
  - intros H. minv. zify_bool. eauto.
  - intros (Hg & -> & d & Hd & Hs). rewrite Hg. simpl. rewrite Hd. simpl. rewrite Hs. simpl.
    by rewrite String.eqb_refl.
Qed.

(** The conditions of a pause by the guardian. *)
Definition pauses ctx c (p : GuardianPauseAction) (sg : bytes) id a : Prop :=
  a_paused a = false /\ pa_RouteID p = rc_RouteID c /\ GuardianPauseAction_ID p = Ok id /\
  BlockTime ctx < pa_ExpiresUnix p /\ processedPauseKey id ∉ a_done a /\
  exists digest, GuardianPauseDigest p = Ok digest /\
    recoverSigner digest sg = Ok (HexToAddress (rc_Guardian c)).

Lemma PauseRoute_iff ctx c p sg w a w' : repr w a -> config_wf c ->
  PauseRoute ctx c p sg w = (Ok tt, w') <->
  exists id, pauses ctx c p sg id a /\
    w' = put (processedPauseKey id) (byte1 1)
           (put routeStateKey (Marshal (RouteState_json (MkRouteState true))) w).
Proof.
  intros H Hc. unfold PauseRoute, pauses.
  rewrite (mbind_lift _ _ _ tt) by by apply RouteConfig_Validate_Ok. split.
  - intros Hr. minv.
    repeat match goal with
    | H' : store_Has _ _ = _ |- _ =>
        rewrite (store_Has_repr _ a) in H' by auto with pos_chain; injection H' as ? <-
    | H' : GetRouteState _ = _ |- _ => rewrite (GetRouteState_repr _ a) in H' by done;
        injection H' as <- <-
    | H' : VerifyGuardianPause _ _ _ = _ |- _ =>
        apply VerifyGuardianPause_Ok in H' as (_ & -> & ?)
    end.
    unfold set_RouteState, store_Set, set_kv in *. minv. zify_bool. simpl in *. eauto 10.
  - intros (id & (Hp & Hr & Hid & Ht & Hn & d & Hd & Hs) & ->).
    rewrite mbind_guard by guard_tac.
    rewrite (mbind_lift _ _ _ tt) by by eapply GuardianPauseAction_ID_valid.
    rewrite mbind_guard, (mbind_lift _ _ _ id) by guard_tac.
    erewrite mbind_eq by (apply (store_Has_repr _ a); auto with pos_chain).
    rewrite mbind_guard by guard_tac.
    rewrite (mbind_lift _ _ _ (HexToAddress (rc_Guardian c))).
    2: { apply VerifyGuardianPause_Ok. split_and!; [apply Hc|done|eauto]. }
    erewrite mbind_eq by by apply GetRouteState_repr. rewrite mbind_guard by guard_tac. done.
Qed.

Lemma ResumeRoute_iff ctx c action sigs w a w' : repr w a -> config_wf c ->
  ca_Action action = ActionResumeRoute -> ca_PayloadHash action = Hash_Hex (resume_hash c) ->
  ResumeRoute ctx c action sigs w = (Ok tt, w') <->
  a_paused a = true /\ exists id, control_approved ctx c action sigs id a /\
    w' = put (processedControlKey id) (byte1 1)
           (put routeStateKey (Marshal (RouteState_json (MkRouteState false))) w).
Proof.
  intros H Hc Hact Hpl. unfold ResumeRoute, control_approved, RouteStatePayloadHash.
  pose proof (proj2 (RouteConfig_Validate_Ok c) Hc) as Hv.
  rewrite Hv, (mbind_lift _ _ _ tt) by done. split.
  - intros Hr. minv.
    repeat match goal with
    | H' : store_Has _ _ = _ |- _ =>
        rewrite (store_Has_repr _ a) in H' by auto with pos_chain; injection H' as ? <-
    | H' : GetRouteState _ = _ |- _ => rewrite (GetRouteState_repr _ a) in H' by done;
        injection H' as <- <-
    | H' : VerifyControlApprovals _ _ _ = _ |- _ =>
        apply VerifyControlApprovals_Ok in H' as (_ & ? & ? & ?)
    end.
    unfold set_RouteState, store_Set, set_kv in *. minv. zify_bool. simpl in *.
    split; [done|]. eexists. split_and!; eauto.
  - intros (Hp & id & (Hr & Hid & [Ht1 Ht2] & (d & l & Hd & Hap) & Hn) & ->).
    rewrite mbind_guard by guard_tac.
    rewrite (mbind_lift _ _ _ tt) by by eapply ControlAction_ID_valid.
    rewrite mbind_guard by guard_tac.
    erewrite mbind_eq by by apply GetRouteState_repr. rewrite mbind_guard by guard_tac.
    rewrite (mbind_lift _ _ _ (resume_hash c)) by done.
    rewrite Hpl, mbind_guard, (mbind_lift _ _ _ id) by (done || apply EqualFold_ascii_refl).
    erewrite mbind_eq by (apply (store_Has_repr _ a); auto with pos_chain).
    rewrite mbind_guard by guard_tac.
    rewrite (mbind_lift _ _ _ l) by (apply VerifyControlApprovals_Ok; split; [apply Hc|eauto]).
    done.
Qed.

Lemma ApplyRouteConfigUpdate_iff ctx c action next sigs w a w' :
  repr w a -> config_wf c -> config_wf next ->
  ca_Action action = ActionUpdateRouteConfig -> ca_PayloadHash action = Hash_Hex (update_hash next) ->
  ApplyRouteConfigUpdate ctx c action next sigs w = (Ok tt, w') <->
  rc_RouteID next = rc_RouteID c /\ exists id, control_approved ctx c action sigs id a /\
    w' = put (processedControlKey id) (byte1 1)
           (put routeConfigKey (Marshal (RouteConfig_json next)) w).
Proof.
  intros H Hc Hnext Hact Hpl.
  unfold ApplyRouteConfigUpdate, control_approved, RouteConfigPayloadHash, SetRouteConfig.
  pose proof (proj2 (RouteConfig_Validate_Ok c) Hc) as Hv.
  pose proof (proj2 (RouteConfig_Validate_Ok next) Hnext) as Hvn.
  rewrite Hv, Hvn, !(mbind_lift _ _ _ tt) by done. split.
  - intros Hr. minv.
    repeat match goal with
    | H' : store_Has _ _ = _ |- _ =>
        rewrite (store_Has_repr _ a) in H' by auto with pos_chain; injection H' as ? <-
    | H' : VerifyControlApprovals _ _ _ = _ |- _ =>
        apply VerifyControlApprovals_Ok in H' as (_ & ? & ? & ?)
    end.
    unfold store_Set, set_kv in *. minv. zify_bool. simpl in *.
    split; [done|]. eexists. split_and!; eauto.
  - intros (Hnr & id & (Hr & Hid & [Ht1 Ht2] & (d & l & Hd & Hap) & Hn) & ->).
    rewrite mbind_guard by guard_tac.
    rewrite (mbind_lift _ _ _ tt) by by eapply ControlAction_ID_valid.
    rewrite mbind_guard by guard_tac.
    rewrite (mbind_lift _ _ _ (update_hash next)) by done.
    rewrite Hpl, mbind_guard, (mbind_lift _ _ _ id) by (done || apply EqualFold_ascii_refl).
    erewrite mbind_eq by (apply (store_Has_repr _ a); auto with pos_chain).
    rewrite mbind_guard by guard_tac.
    rewrite (mbind_lift _ _ _ l) by (apply VerifyControlApprovals_Ok; split; [apply Hc|eauto]).
    rewrite mbind_eq with (a := tt) (s1 := put routeConfigKey (Marshal (RouteConfig_json next)) w).
    { done. } by rewrite (mbind_lift _ _ _ tt).
Qed.

(** ** Handlers *)

Lemma require_config_iff w a c w' : repr w a ->
  require_config w = (Ok c, w') <-> a_config a = Some c /\ w' = w.
Proof.
  intros H. unfold require_config. rewrite (mbind_eq _ _ _ _ _ (GetRouteConfig_repr w a H)).
  destruct (a_config a); [|by split; [intros; minv|intros []]].
  split; [intros; by minv|by intros [[= ->] ->]].
Qed.

Lemma recoverSigner_len65 digest sg ad : recoverSigner digest sg = Ok ad -> (len sg =? 65) = true.
Proof. Transparent recoverSigner. unfold recoverSigner. intros H. by minv. Qed.
#[local] Opaque recoverSigner.

Lemma signed_len65 digest sigs l : signed digest sigs l -> forallb (fun s => len s =? 65) sigs = true.
Proof.
  induction 1 as [|sg ad sigs l Hs _ IH]; [done|]. simpl. rewrite IH, andb_true_r.
  by eapply recoverSigner_len65.
Qed.

Lemma validateControlSignatures_approved digest signers sigs l :
  approved_by digest signers sigs l -> validateControlSignatures sigs = Ok tt.
Proof.
  intros (Hn & Hs & _). unfold validateControlSignatures.
  rewrite (proj2 (signature_count_ok_true sigs) Hn), (signed_len65 _ _ _ Hs). done.
Qed.

Lemma valid_address_Ok s : valid_address s <-> exists ad, AccAddressFromBech32 s = Ok ad.
Proof. apply is_ok_Ok. Qed.

Lemma EmitEvent_repr ev w a w' u : EmitEvent ev w = (Ok u, w') -> repr w a -> repr w' a.
Proof. unfold EmitEvent. intros H Hr. minv. by apply repr_events. Qed.

Lemma ControlAction_Validate_inv p : ControlAction_Validate p = Ok tt ->
  validRouteID (ca_RouteID p) = true /\ ca_Nonce p <> 0 /\ 0 < ca_NotBeforeUnix p /\
  ca_NotBeforeUnix p < ca_ExpiresUnix p.
Proof. unfold ControlAction_Validate. intros H. minv. zify_bool. auto with lia. Qed.

End keeper.

(** ** x/bridge: simulation of the message handlers

    [handle_sound] and [handle_complete]: a message is accepted exactly when a
    rule of the specification applies, with the response and the state change
    of that rule. *)

Section sim.
Context {U : UnicodeTables} {E : EthCommon} {Cr : EthCrypto} {T : SdkTypes} {Mt : SdkMath}.
Context {B : Type} {Bk : BankOps B}.
Variable k : BridgeKeeper.
Implicit Types (w : World B) (a : AState B) (c : RouteConfig).

#[local] Opaque recoverSigner SigningDigest ControlDigest Attestation_ID ControlAction_ID
  GuardianPauseAction_ID GuardianPauseDigest Attestation_Validate RouteConfig_Validate
  GuardianPauseAction_Validate.

(** Peels the common beginning of a handler that succeeded. *)
Ltac open_handler Hr a :=
  minv;
  repeat match goal with
  | H' : require_config _ = _ |- _ =>
      apply (require_config_iff _ a) in H' as [? ->]; [|done]
  | u : unit |- _ => destruct u
  end.

Lemma submit_sound ctx m r w a w' : repr w a ->
  bridge_handle k ctx (BSubmit m) w = (Ok r, w') ->
  exists a', bridge_rule k ctx a (BSubmit m) r a' /\ repr w' a'.
Proof.
  intros H Hr. simpl in Hr. destruct m as [m|]; simpl in Hr; open_handler Hr a.
  match goal with Hc : a_config a = Some ?c |- _ => pose proof (config_repr _ _ _ H Hc) as Hwf end.
  match goal with H' : AdmitAttestation _ ?c _ _ _ = (Ok ?id, _) |- _ =>
    apply (AdmitAttestation_iff _ _ _ _ _ _ a) in H'
      as (x & (? & ? & ? & ? & ? & (d & l & ? & ?) & ? & Hx) & ->); [|done|done];
    pose proof (repr_put_done _ _ (processedKey id) (byte1 1)
      (repr_usage_put ctx c x w a H (proj1 (proj2 Hx))) (replay_processed id)) as Hp end.
  match goal with H1 : SettleInbound _ _ _ _ = _ |- _ =>
    apply (SettleInbound_iff _ _ _ _ _ _ Hp) in H1
      as (rcp & amt & b & (? & ? & ? & ? & ? & (lim & Hlim & ?) & ? & ? & ?) & Hset) end.
  apply (repr_bank _ _ b) in Hp.
  pose proof (rp_outstanding _ _ H) as [Ho _].
  pose proof (int_fits_bound _ (NewIntFromString_fits _ _ Hlim)).
  destruct (setOutstandingAmount_repr _ _ (a_outstanding a + amt) Hp) as (w1 & Hw1 & Hr1);
    [simpl in *; lia|]. simpl in *. rewrite Hw1 in Hset. injection Hset as <-.
  eexists. split; [|by eapply EmitEvent_repr].
  eapply rule_submit; eauto; try (by split_and!). eapply valid_address_Ok; eauto.
Qed.

Lemma outbound_sound ctx m r w a w' : repr w a ->
  bridge_handle k ctx (BOutbound m) w = (Ok r, w') ->
  exists a', bridge_rule k ctx a (BOutbound m) r a' /\ repr w' a'.
Proof.
  intros H Hr. simpl in Hr. destruct m as [m|]; simpl in Hr; open_handler Hr a.
  match goal with Hc : a_config a = Some ?c |- _ => pose proof (config_repr _ _ _ H Hc) as Hwf end.
  match goal with H' : InitiateOutboundTransfer _ _ ?c _ _ _ _ = _ |- _ =>
    apply (InitiateOutboundTransfer_iff _ _ _ _ _ _ _ a) in H' as
      (x & amt & b & w1 & (? & ? & ? & ? & Hx & ? & ? & ?) & Hnon & Hset & ->); [|done|done];
    pose proof (repr_bank _ _ b (repr_usage_put ctx c x w a H (proj1 (proj2 Hx)))) as Hp end.
  destruct (nextOutboundNonce_repr _ _ Hp) as (w2 & Hw2 & Hp2). simpl in *.
  rewrite Hw2 in Hnon. injection Hnon as <-.
  pose proof (rp_outstanding _ _ H) as [Ho _].
  destruct (setOutstandingAmount_repr _ _ (a_outstanding a - amt) Hp2) as (w3 & Hw3 & Hp3); [lia|].
  rewrite Hw3 in Hset. injection Hset as <-. zify_bool.
  eexists. split; [|by eapply EmitEvent_repr].
  eapply rule_outbound; eauto; by split_and!.
Qed.

Lemma initialize_sound ctx m r w a w' : repr w a ->
  bridge_handle k ctx (BInitialize m) w = (Ok r, w') ->
  exists a', bridge_rule k ctx a (BInitialize m) r a' /\ repr w' a'.
Proof.
  intros H Hr. simpl in Hr. destruct m as [m|]; simpl in Hr; open_handler Hr a.
  repeat match goal with
  | H' : GetRouteConfig _ = _ |- _ => rewrite (GetRouteConfig_repr _ a H) in H'; injection H' as <- <-
  | H' : RouteConfig_Validate _ = _ |- _ => apply RouteConfig_Validate_Ok in H'
  end.
  destruct (SetRouteConfig_repr _ _ (MsgInitializeRouteConfig_RouteConfig m) H) as (w1 & Hw1 & Hp1);
    [done|]. rewrite Hw1 in *. minv. unfold set_RouteState, store_Set, set_kv in *. minv.
  eexists. split; [|eapply EmitEvent_repr; [eassumption|]; exact (repr_put_state _ _ true Hp1)].
  eapply rule_initialize; eauto.
  - eapply valid_address_Ok; eauto.
  - by destruct (a_config a).
Qed.

Lemma pause_sound ctx m r w a w' : repr w a ->
  bridge_handle k ctx (BPause m) w = (Ok r, w') ->
  exists a', bridge_rule k ctx a (BPause m) r a' /\ repr w' a'.
Proof.
  intros H Hr. simpl in Hr. destruct m as [m|]; simpl in Hr; open_handler Hr a.
  match goal with Hc : a_config a = Some ?c |- _ => pose proof (config_repr _ _ _ H Hc) as Hwf end.
  match goal with H' : PauseRoute _ _ _ _ _ = _ |- _ =>
    apply (PauseRoute_iff _ _ _ _ _ a) in H' as
      (id & (? & ? & ? & ? & ? & d & ? & ?) & ->); [|done|done] end.
  eexists. split; [eapply rule_pause; eauto; eapply valid_address_Ok; eauto|].
  eapply EmitEvent_repr; [eassumption|]. apply repr_put_done; [|auto with pos_chain].
  by apply repr_put_state.
Qed.

Lemma resume_sound ctx m r w a w' : repr w a ->
  bridge_handle k ctx (BResume m) w = (Ok r, w') ->
  exists a', bridge_rule k ctx a (BResume m) r a' /\ repr w' a'.
Proof.
  intros H Hr. simpl in Hr. destruct m as [m|]; simpl in Hr; open_handler Hr a.
  match goal with Hc : a_config a = Some ?c |- _ => pose proof (config_repr _ _ _ H Hc) as Hwf end.
  unfold RouteStatePayloadHash in *. minv.
  match goal with H' : ResumeRoute _ _ _ _ _ = _ |- _ =>
    apply (ResumeRoute_iff _ _ _ _ _ a) in H' as (? & id & ? & ->); [|done..] end.
  eexists. split; [eapply rule_resume; eauto; eapply valid_address_Ok; eauto|].
  eapply EmitEvent_repr; [eassumption|]. apply repr_put_done; [|auto with pos_chain].
  by apply repr_put_state.
Qed.

Lemma update_sound ctx m r w a w' : repr w a ->
  bridge_handle k ctx (BUpdate m) w = (Ok r, w') ->
  exists a', bridge_rule k ctx a (BUpdate m) r a' /\ repr w' a'.
Proof.
  intros H Hr. simpl in Hr. destruct m as [m|]; simpl in Hr; open_handler Hr a.
  match goal with Hc : a_config a = Some ?c |- _ => pose proof (config_repr _ _ _ H Hc) as Hwf end.
  unfold RouteConfigPayloadHash in *. minv.
  repeat match goal with
  | H' : RouteConfig_Validate _ = Ok ?u |- _ => destruct u; apply RouteConfig_Validate_Ok in H' end.
  match goal with H' : ApplyRouteConfigUpdate _ _ _ _ _ _ = _ |- _ =>
    apply (ApplyRouteConfigUpdate_iff _ _ _ _ _ _ a) in H' as (? & id & ? & ->); [|done..] end.
  eexists. split; [eapply rule_update; eauto; eapply valid_address_Ok; eauto|].
  eapply EmitEvent_repr; [eassumption|]. apply repr_put_done; [|auto with pos_chain].
  by apply repr_put_config.
Qed.

(** A message that is accepted takes a rule of the specification. *)
Lemma handle_sound ctx msg r w a w' : repr w a ->
  bridge_handle k ctx msg w = (Ok r, w') ->
  exists a', bridge_rule k ctx a msg r a' /\ repr w' a'.
Proof.
  destruct msg; eauto using submit_sound, outbound_sound, initialize_sound, pause_sound,
    resume_sound, update_sound.
Qed.

(** ** A rule that applies is taken *)

Lemma address_lift {A} s (f : unit -> M (World B) A) w (rest : outcome unit) :
  valid_address s -> rest = Ok tt ->
  mbind' (mlift (odo AccAddressFromBech32 s; rest)) f w = f tt w.
Proof. intros [ad Had]%valid_address_Ok ->. by rewrite Had. Qed.

Lemma submit_complete ctx a m c att id x amt lim rcp b w :
  repr w a -> att = MsgSubmitAttestation_Attestation m ->
  valid_address (msa_Submitter m) -> a_config a = Some c ->
  admissible ctx c att (msa_Signatures m) id x a ->
  NewIntFromString (rc_MaxOutstandingAmount c) = Some lim -> a_outstanding a + amt <= lim ->
  settles k c att rcp amt b a ->
  exists w', bridge_handle k ctx (BSubmit (Some m)) w = (Ok (RAttestation (hex_encode id)), w') /\
    repr w' (with_outstanding (a_outstanding a + amt) (with_bank b
        (with_done (processedKey id) (record_usage ctx c x a)))).
Proof.
  intros H -> Hsub Hc Hadm Hlim Hle Hset.
  pose proof (config_repr _ _ _ H Hc) as Hwf.
  assert (Hid := Hadm). destruct Hid as (_ & _ & _ & Hid & _ & _ & _ & Hx).
  pose proof (repr_put_done _ _ (processedKey id) (byte1 1)
    (repr_usage_put ctx c x w a H (proj1 (proj2 Hx))) (replay_processed id)) as Hp.
  pose proof (rp_outstanding _ _ H) as [Ho _].
  pose proof (int_fits_bound _ (NewIntFromString_fits _ _ Hlim)).
  assert (Hamt := Hset). destruct Hamt as (_ & Hdir & _ & _ & Hpos & _).
  destruct (setOutstandingAmount_repr _ _ (a_outstanding a + amt) (repr_bank _ _ b Hp))
    as (w1 & Hw1 & Hr1); [lia|].
  cbn [bridge_handle srv_SubmitAttestation require_req]. unfold MsgSubmitAttestation_ValidateBasic.
  unfold mbind' at 1.
  rewrite address_lift by (done || by eapply Attestation_ID_valid).
  erewrite mbind_eq by by apply (require_config_iff _ a).
  rewrite mbind_guard by guard_tac.
  erewrite mbind_eq by (apply (AdmitAttestation_iff _ _ _ _ _ _ a); eauto).
  erewrite mbind_eq by (apply (SettleInbound_iff _ _ _ _ _ _ Hp); eauto 10).
  eexists. split; [reflexivity|]. by apply repr_events.
Qed.

Lemma outbound_complete ctx a m c x amt sender b dest w :
  repr w a -> a_config a = Some c ->
  AccAddressFromBech32 (mot_Sender m) = Ok sender -> mot_RouteId m = rc_RouteID c ->
  dest = TrimSpace (mot_Destination m) -> sends k ctx c sender dest (mot_Amount m) x amt b a ->
  let nonce := u64 (a_nonce a + 1) in
  exists w', bridge_handle k ctx (BOutbound (Some m)) w =
      (Ok (ROutbound (hex_encode (sha256 (outbound_payload c sender dest amt nonce))) nonce), w') /\
    repr w' (with_outstanding (a_outstanding a - amt) (with_nonce nonce (with_bank b
        (record_usage ctx c x a)))).
Proof.
  intros H Hc Hsd Hrt -> Hs nonce. pose proof (config_repr _ _ _ H Hc) as Hwf.
  assert (Hs' := Hs). destruct Hs' as (_ & _ & _ & Hdst & Hx & _ & Hamt & _).
  pose proof (repr_bank _ _ b (repr_usage_put ctx c x w a H (proj1 (proj2 Hx)))) as Hp.
  destruct (nextOutboundNonce_repr _ _ Hp) as (w2 & Hw2 & Hp2).
  pose proof (rp_outstanding _ _ H) as [Ho _].
  destruct (setOutstandingAmount_repr _ _ (a_outstanding a - amt) Hp2) as (w3 & Hw3 & Hp3); [lia|].
  cbn [bridge_handle srv_InitiateOutboundTransfer require_req].
  unfold MsgInitiateOutboundTransfer_ValidateBasic. unfold mbind' at 1.
  rewrite address_lift.
  2: by apply valid_address_Ok; eauto.
  2: { rewrite Hrt, (cw_route c Hwf). simpl. rewrite Hdst. simpl.
       destruct Hx as (-> & Hpos & _). by rewrite (proj2 (Z.ltb_lt _ _) Hpos). }
  erewrite mbind_eq by by apply (require_config_iff _ a).
  rewrite mbind_guard, (mbind_lift _ _ _ sender) by guard_tac.
  erewrite mbind_eq by (apply (InitiateOutboundTransfer_iff _ _ _ _ _ _ _ a); eauto 10).
  eexists. split; [reflexivity|]. by apply repr_events.
Qed.

Lemma initialize_complete ctx a m c w :
  repr w a -> c = MsgInitializeRouteConfig_RouteConfig m ->
  ValidateAuthority ctx (bk_authority k) (mir_Authority m) = Ok tt ->
  valid_address (mir_Authority m) -> config_wf c -> a_config a = None ->
  exists w', bridge_handle k ctx (BInitialize (Some m)) w = (Ok REmpty, w') /\
    repr w' (with_paused true (with_config c a)).
Proof.
  intros H -> Hau Had Hwf Hc.
  destruct (SetRouteConfig_repr _ _ _ H Hwf) as (w1 & Hw1 & Hp1).
  cbn [bridge_handle srv_InitializeRouteConfig require_req]. unfold mbind' at 1.
  rewrite (mbind_lift _ _ _ tt Hau). unfold MsgInitializeRouteConfig_ValidateBasic.
  rewrite address_lift by (done || by apply RouteConfig_Validate_Ok).
  erewrite mbind_eq by by apply (GetRouteConfig_repr _ a).
  rewrite Hc, mbind_guard by done. erewrite mbind_eq by exact Hw1.
  eexists. split; [reflexivity|]. apply repr_events. by apply repr_put_state.
Qed.

Lemma pause_complete ctx a m c id w :
  repr w a -> valid_address (mep_Submitter m) -> a_config a = Some c ->
  pauses ctx c (MsgEmergencyPauseRoute_Action m) (mep_GuardianSignature m) id a ->
  exists w', bridge_handle k ctx (BPause (Some m)) w = (Ok REmpty, w') /\
    repr w' (with_done (processedPauseKey id) (with_paused true a)).
Proof.
  intros H Had Hc Hp. pose proof (config_repr _ _ _ H Hc) as Hwf.
  cbn [bridge_handle srv_EmergencyPauseRoute require_req]. unfold mbind' at 1.
  unfold MsgEmergencyPauseRoute_ValidateBasic. rewrite address_lift; [|done|].
  2: { assert (Hp' := Hp). destruct Hp' as (_ & _ & Hid & _ & _ & d & Hd & Hs).
       rewrite (GuardianPauseAction_ID_valid _ _ Hid). simpl.
       by rewrite (recoverSigner_len65 _ _ _ Hs). }
  erewrite mbind_eq by by apply (require_config_iff _ a).
  erewrite mbind_eq by (apply (PauseRoute_iff _ _ _ _ _ a); eauto).
  eexists. split; [reflexivity|]. apply repr_events, repr_put_done; [|auto with pos_chain].
  by apply repr_put_state.
Qed.

Lemma resume_complete ctx a m c id w :
  repr w a -> valid_address (mrr_Submitter m) -> a_config a = Some c -> a_paused a = true ->
  control_approved ctx c (MsgResumeRoute_Action m (Hash_Hex (resume_hash c))) (mrr_Signatures m) id a ->
  exists w', bridge_handle k ctx (BResume (Some m)) w = (Ok REmpty, w') /\
    repr w' (with_done (processedControlKey id) (with_paused false a)).
Proof.
  intros H Had Hc Hpd Hp. pose proof (config_repr _ _ _ H Hc) as Hwf.
  cbn [bridge_handle srv_ResumeRoute require_req]. unfold mbind' at 1.
  unfold MsgResumeRoute_ValidateBasic. rewrite address_lift; [|done|].
  2: { destruct Hp as (_ & Hid & _ & (d & l & _ & Hap) & _).
       apply ControlAction_ID_valid, ControlAction_Validate_inv in Hid as (Hr & Hn & Ht & Ht').
       simpl in *. rewrite (validateControlSignatures_approved _ _ _ _ Hap), Hr. simpl.
       rewrite (proj2 (Z.eqb_neq _ _) Hn), (proj2 (Z.leb_gt _ _) Ht), (proj2 (Z.leb_gt _ _) Ht').
       done. }
  erewrite mbind_eq by by apply (require_config_iff _ a).
  rewrite (mbind_lift _ _ _ (resume_hash c)).
  2: { unfold RouteStatePayloadHash. by rewrite (proj2 (RouteConfig_Validate_Ok c) Hwf). }
  erewrite mbind_eq by (apply (ResumeRoute_iff _ _ _ _ _ a); eauto).
  eexists. split; [reflexivity|]. apply repr_events, repr_put_done; [|auto with pos_chain].
  by apply repr_put_state.
Qed.

Lemma update_complete ctx a m c next id w :
  repr w a -> valid_address (mur_Submitter m) -> a_config a = Some c ->
  next = MsgUpdateRouteConfig_RouteConfig m -> config_wf next -> rc_RouteID next = rc_RouteID c ->
  control_approved ctx c (MsgUpdateRouteConfig_Action m (Hash_Hex (update_hash next)))
    (mur_Signatures m) id a ->
  exists w', bridge_handle k ctx (BUpdate (Some m)) w = (Ok REmpty, w') /\
    repr w' (with_done (processedControlKey id) (with_config next a)).
Proof.
  intros H Had Hc -> Hwn Hrn Hp. pose proof (config_repr _ _ _ H Hc) as Hwf.
  pose proof (proj2 (RouteConfig_Validate_Ok _) Hwn) as Hvn.
  cbn [bridge_handle srv_UpdateRouteConfig require_req]. unfold mbind' at 1.
  unfold MsgUpdateRouteConfig_ValidateBasic. rewrite address_lift; [|done|].
  2: { destruct Hp as (_ & Hid & _ & (d & l & _ & Hap) & _).
       apply ControlAction_ID_valid, ControlAction_Validate_inv in Hid as (Hr & Hn & Ht & Ht').
       rewrite Hvn. simpl in *. rewrite (validateControlSignatures_approved _ _ _ _ Hap).
       rewrite (proj2 (Z.eqb_neq _ _) Hn), (proj2 (Z.leb_gt _ _) Ht), (proj2 (Z.leb_gt _ _) Ht').
       done. }
  erewrite mbind_eq by by apply (require_config_iff _ a).
  rewrite (mbind_lift _ _ _ (update_hash (MsgUpdateRouteConfig_RouteConfig m))).
  2: { unfold RouteConfigPayloadHash. by rewrite Hvn. }
  erewrite mbind_eq by (apply (ApplyRouteConfigUpdate_iff _ _ _ _ _ _ a); eauto).
  eexists. split; [reflexivity|]. apply repr_events, repr_put_done; [|auto with pos_chain].
  by apply repr_put_config.
Qed.

Lemma handle_complete ctx msg r w a a' : repr w a -> bridge_rule k ctx a msg r a' ->
  exists w', bridge_handle k ctx msg w = (Ok r, w') /\ repr w' a'.
Proof.
  intros H Hr. destruct Hr; subst.
  - destruct H3 as (? & ? & ?). eapply submit_complete; eauto; [|unfold settles; eauto 15].
    unfold admissible. split_and!; eauto.
  - destruct H1 as (? & ? & ?). eapply outbound_complete; eauto. by unfold sends.
  - eapply initialize_complete; eauto.
  - eapply pause_complete; eauto. unfold pauses. split_and!; eauto.
  - eapply resume_complete; eauto.
  - eapply update_complete; eauto.
Qed.

End sim.
