(* ===== verification/BridgeTheorems.v ===== *)
(** * x/bridge: properties of every run

    The theorems are about arbitrary sequences of delivered messages,
    interleaved with arbitrary changes of the bank by the rest of the chain. At
    the end are the theorems on signatures and identifiers. *)

From Stdlib Require Import ZArith Lia List String Ascii Bool.
From stdpp Require Import base gmap strings list.
From S2P Require Import Prelude GoStrings GoJson Sha256 Sdk RefEnv BridgeTypes BridgeKeeper BridgeServer BridgeFacts BridgeSpec BridgeRefine.
Local Open Scope Z_scope.

(** ** x/bridge: a concrete run

    The bridge of the reference environment through its life: the route is
    initialised, enabled and resumed, 700 units arrive from Cronos, 200 leave,
    and the guardian pauses the route.  The witnesses of the bridge theorems
    are evaluated on this run. *)

Definition rep (n : nat) (s : string) : string := Join (repeat s n) EmptyString.

Definition ex_keeper : BridgeKeeper := MkBridgeKeeper true "axtc" 1000000 "gov".
Definition ex_signers : list string :=
  [("0x" +:+ rep 20 "11")%string; ("0x" +:+ rep 20 "22")%string; ("0x" +:+ rep 20 "33")%string].
Definition ex_guardian : string := ("0x" +:+ rep 20 "44")%string.

(** The toy signature of the signer whose address repeats the byte [b]. *)
Definition ex_sig (b : Z) : bytes := (rep 20 (byte1 b) +:+ rep 45 (byte1 0))%string.
Definition ex_sigs : list bytes := [ex_sig 17; ex_sig 51].

Definition ex_init : MsgInitializeRouteConfig :=
  MkMsgInitializeRouteConfig "gov" "cronos-xitcoin" ex_signers ex_guardian "1000" "1500" "5000".
Definition ex_update : MsgUpdateRouteConfig :=
  MkMsgUpdateRouteConfig "alice" "cronos-xitcoin" ex_signers ex_guardian "1000" "1500" "5000" true
    1 100 200 ex_sigs.
Definition ex_resume : MsgResumeRoute :=
  MkMsgResumeRoute "alice" "cronos-xitcoin" 2 100 200 ex_sigs.
Definition ex_submit : MsgSubmitAttestation :=
  MkMsgSubmitAttestation "relayer" "cronos-xitcoin" DirectionCronosToXitcoin "cronos-25"
    ("0x" +:+ rep 32 "ab")%string 7 "bob" "700" 1000 ex_sigs.
Definition ex_outbound : MsgInitiateOutboundTransfer :=
  MkMsgInitiateOutboundTransfer "bob" "cronos-xitcoin" ("0x" +:+ rep 20 "55")%string "200".
Definition ex_pause : MsgEmergencyPauseRoute :=
  MkMsgEmergencyPauseRoute "alice" "cronos-xitcoin" 1 500 (ex_sig 68).

Definition ex_ctx : Ctx := MkCtx 150 10.
Definition ex_tx (m : BridgeMsg) : @Step rbank := Tx ex_ctx m.

Definition ex_bank0 : rbank := RBank ∅ ∅.
Definition ex_world0 : World rbank := MkWorld ∅ ex_bank0 [].
Definition ex_open : list (@Step rbank) :=
  [ex_tx (BInitialize (Some ex_init)); ex_tx (BUpdate (Some ex_update));
   ex_tx (BResume (Some ex_resume))].
Definition ex_transfers : list (@Step rbank) :=
  [ex_tx (BSubmit (Some ex_submit)); ex_tx (BOutbound (Some ex_outbound))].

Definition ex_world1 : World rbank := bridge_run ex_keeper ex_world0 ex_open.
Definition ex_world2 : World rbank := bridge_run ex_keeper ex_world1 ex_transfers.
Definition ex_world3 : World rbank := bridge_step ex_keeper ex_world2 (ex_tx (BPause (Some ex_pause))).

Lemma ex_run_events :
  map ev_type (w_events ex_world3) =
  ["bridge_route_initialized"; "bridge_route_config_updated"; "bridge_route_resumed";
   "bridge_inbound_settled"; "bridge_outbound_burned"; "bridge_route_paused"].
Proof. vm_compute. reflexivity. Qed.

(** The empty store represents the initial state. *)
Lemma repr_initial {U : UnicodeTables} {E : EthCommon} {B} (b : B) evs :
  repr (MkWorld ∅ b evs) (MkAState None false 0 0 ∅ ∅ b).
Proof.
  constructor; simpl; try done.
  - right. done.
  - split; [unfold is_u64, two64; lia|]. right. done.
  - intros key _. rewrite lookup_empty. split; [set_solver|by intros [? ?]].
Qed.

Local Open Scope go_scope.

(** ** Observations and logs *)

Section observe.
Context {U : UnicodeTables} {E : EthCommon} {Cr : EthCrypto} {T : SdkTypes} {Mt : SdkMath}.
Context {B : Type} {Bk : BankOps B}.
Variable k : BridgeKeeper.
Implicit Types (w : World B) (a : AState B) (l : list (@Step B)).

(** The result of a query of the keeper. *)
Definition observe {A} (m : M (World B) A) (d : A) w : A :=
  match (m w).1 with Ok x => x | _ => d end.
Definition obs_config : World B -> option RouteConfig := observe GetRouteConfig None.
Definition obs_paused w : bool := rs_Paused (observe GetRouteState (MkRouteState false) w).
Definition obs_outstanding : World B -> Z := observe OutstandingAmount 0.
Definition obs_supply w : Z := GetSupply (w_bank w) (bk_nativeDenom k).

(** A store that the module can have written. *)
Definition bridge_wf w : Prop := exists a, repr w a.

Lemma obs_config_repr w a : repr w a -> obs_config w = a_config a.
Proof. intros H. unfold obs_config, observe. by rewrite (GetRouteConfig_repr w a H). Qed.
Lemma obs_paused_repr w a : repr w a -> obs_paused w = a_paused a.
Proof. intros H. unfold obs_paused, observe. by rewrite (GetRouteState_repr w a H). Qed.
Lemma obs_outstanding_repr w a : repr w a -> obs_outstanding w = a_outstanding a.
Proof. intros H. unfold obs_outstanding, observe. by rewrite (OutstandingAmount_repr w a H). Qed.
Lemma obs_supply_repr w a : repr w a -> obs_supply w = GetSupply (a_bank a) (bk_nativeDenom k).
Proof. intros H. unfold obs_supply. by rewrite (rp_bank _ _ H). Qed.

(** The accepted messages of a run, with their contexts and responses. *)
Definition entry : Type := Ctx * BridgeMsg * BridgeResponse.

Definition accepted w (s : @Step B) : list entry :=
  match s with
  | Tx ctx msg => match (bridge_deliver k ctx msg w).1 with Ok r => [(ctx, msg, r)] | _ => [] end
  | External _ => []
  end.

Fixpoint bridge_log w l : list entry :=
  match l with
  | [] => []
  | s :: l' => accepted w s ++ bridge_log (bridge_step k w s) l'
  end.

Definition sumZ (l : list Z) : Z := fold_right Z.add 0 l.

(** What a message adds to the outstanding amount. *)
Definition flow (e : entry) : Z :=
  match e.1.2 with
  | BSubmit (Some m) => default 0 (NewIntFromString (msa_Amount m))
  | BOutbound (Some m) => - default 0 (NewIntFromString (mot_Amount m))
  | _ => 0
  end.

(** The externally made bank changes of a run satisfy [P]. *)
Definition externals (P : (B -> B) -> Prop) l : Prop :=
  Forall (fun s => match s with External f => P f | Tx _ _ => True end) l.

(** ** Runs of the specification *)

Inductive atrace (P : (B -> B) -> Prop) : AState B -> list entry -> AState B -> Prop :=
| atrace_nil a : atrace P a [] a
| atrace_tx ctx msg r a a1 a2 log :
    bridge_rule k ctx a msg r a1 -> atrace P a1 log a2 -> atrace P a ((ctx, msg, r) :: log) a2
| atrace_ext f a a2 log :
    P f -> atrace P (with_bank (f (a_bank a)) a) log a2 -> atrace P a log a2.

Lemma run_atrace P w a l : repr w a -> externals P l ->
  exists a', atrace P a (bridge_log w l) a' /\ repr (bridge_run k w l) a'.
Proof.
  revert w a. induction l as [|s l IH]; intros w a H He; [by exists a; split; [constructor|]|].
  inversion_clear He as [|? ? Hs Hl]. destruct s as [ctx msg|f]; cbn [bridge_log accepted].
  - change (bridge_run k w (Tx ctx msg :: l)) with (bridge_run k (bridge_step k w (Tx ctx msg)) l).
    cbn [bridge_step]. unfold bridge_deliver.
    destruct (atomically_cases (bridge_handle k ctx msg) w) as [(r & w1 & Hh & ->)|[Hno Hst]].
    + destruct (handle_sound _ _ _ _ _ _ _ H Hh) as (a1 & Hr & H1). simpl.
      destruct (IH w1 a1 H1 Hl) as (a2 & Ht & H2). exists a2. split; [|done].
      by econstructor.
    + rewrite Hst. destruct (atomically _ _) as [[] ?]; [done| |]; simpl; by apply IH.
  - destruct (IH _ _ (repr_bank w a (f (w_bank w)) H) Hl) as (a' & Ht & H').
    exists a'. split; [|done]. apply (atrace_ext _ f); [done|].
    rewrite <- (rp_bank _ _ H). exact Ht.
Qed.

Lemma externals_any l : externals (fun _ => True) l.
Proof. apply Forall_forall. by intros [] _. Qed.

Lemma run_atrace_any w a l : repr w a ->
  exists a', atrace (fun _ => True) a (bridge_log w l) a' /\ repr (bridge_run k w l) a'.
Proof. intros H. apply run_atrace; [done|apply externals_any]. Qed.

(** ** Facts of single rules *)

Lemma rule_outstanding ctx a msg r a' : bridge_rule k ctx a msg r a' ->
  a_outstanding a' = a_outstanding a + flow (ctx, msg, r).
Proof.
  destruct 1; unfold flow; simpl; [| |lia..].
  - subst att. simpl in *.
    match goal with H : NewIntFromString (msa_Amount _) = _ |- _ => by rewrite H end.
  - match goal with H : NewIntFromString (mot_Amount _) = _ |- _ => rewrite H end. simpl. lia.
Qed.

Lemma rule_config_mono ctx a msg r a' c : bridge_rule k ctx a msg r a' -> a_config a = Some c ->
  exists c', a_config a' = Some c' /\ rc_RouteID c' = rc_RouteID c.
Proof. destruct 1; simpl; intros; simplify_eq; eauto. Qed.

Lemma rule_paused ctx a msg r a' : bridge_rule k ctx a msg r a' -> a_paused a = true ->
  match msg with
  | BResume _ => True
  | BSubmit _ | BOutbound _ => False
  | _ => a_paused a' = true
  end.
Proof.
  destruct 1; simpl; intros; try done;
    match goal with H : available _ _ |- _ => destruct H as (_ & _ & ?); congruence end.
Qed.

End observe.

(** ** Refinement *)

Section claims.
Context {U : UnicodeTables} {E : EthCommon} {Cr : EthCrypto} {T : SdkTypes} {Mt : SdkMath}.
Context {B : Type} {Bk : BankOps B}.
Variable k : BridgeKeeper.
Implicit Types (w : World B) (a : AState B) (l : list (@Step B)).

(** C1: The message server implements the abstract bridge exactly: from a store
    that represents an abstract state, a handler that succeeds makes a
    transition of the specification with the same response, and every
    transition of the specification is made by the handler. *)
Theorem bridge_refinement ctx msg w a : repr w a ->
  (forall r w', bridge_handle k ctx msg w = (Ok r, w') ->
     exists a', bridge_rule k ctx a msg r a' /\ repr w' a') /\
  (forall r a', bridge_rule k ctx a msg r a' ->
     exists w', bridge_handle k ctx msg w = (Ok r, w') /\ repr w' a').
Proof. intros H. split; intros; eauto using handle_sound, handle_complete. Qed.

(** ** Accounting *)

Lemma atrace_outstanding P a log a' :
  atrace k P a log a' -> a_outstanding a' = a_outstanding a + sumZ (map flow log).
Proof.
  induction 1 as [a|ctx msg r a a1 a2 log Hr _ IH|f a a2 log _ _ IH]; simpl.
  - lia.
  - rewrite IH, (rule_outstanding _ _ _ _ _ _ Hr). lia.
  - exact IH.
Qed.

(** In every run the outstanding amount is what was settled inbound minus
    what was burned outbound, and it never becomes negative. *)
Theorem outstanding_is_net_flow w l : bridge_wf w ->
  obs_outstanding (bridge_run k w l) = obs_outstanding w + sumZ (map flow (bridge_log k w l)) /\
  0 <= obs_outstanding (bridge_run k w l).
Proof.
  intros [a H]. destruct (run_atrace_any k w a l H) as (a' & Ht & H').
  rewrite (obs_outstanding_repr _ _ H), (obs_outstanding_repr _ _ H').
  split; [by eapply atrace_outstanding|]. apply (rp_outstanding _ _ H').
Qed.

Lemma minted_supply `{!BankLaws B} a rcp amt b : minted k a rcp amt b ->
  GetSupply b (bk_nativeDenom k) = GetSupply (a_bank a) (bk_nativeDenom k) + amt.
Proof.
  intros (_ & b1 & Hm & Hs). apply MintCoins_ok in Hm as [Hm _]. apply SendToAccount_ok in Hs as [Hs _].
  rewrite Hs, Hm. by rewrite bool_decide_true.
Qed.

(** The recipient is credited, and nobody else. *)
Lemma minted_balance `{!BankLaws B} a rcp amt b x d : minted k a rcp amt b ->
  GetBalance b x d = GetBalance (a_bank a) x d + (if bool_decide (x = rcp /\ d = bk_nativeDenom k) then amt else 0).
Proof.
  intros (_ & b1 & Hm & Hs). apply MintCoins_ok in Hm as [_ Hm]. apply SendToAccount_ok in Hs as [_ Hs].
  rewrite Hs. unfold moved. rewrite Hm. repeat case_bool_decide; lia.
Qed.

Lemma burned_supply `{!BankLaws B} a sender amt b : burned k a sender amt b ->
  GetSupply b (bk_nativeDenom k) = GetSupply (a_bank a) (bk_nativeDenom k) - amt.
Proof.
  intros (_ & b1 & Hs & Hm). apply BurnCoins_ok in Hm as [Hm _]. apply SendToModule_ok in Hs as [Hs _].
  rewrite Hm, Hs. by rewrite bool_decide_true.
Qed.

Definition a_supply a : Z := GetSupply (a_bank a) (bk_nativeDenom k).

Lemma rule_supply `{!BankLaws B} ctx a msg r a' : bridge_rule k ctx a msg r a' ->
  a_supply a' - a_outstanding a' = a_supply a - a_outstanding a /\
  (a_supply a' <= a_supply a \/ a_supply a' <= bk_maxSupply k).
Proof.
  unfold a_supply. destruct 1; simpl; try lia.
  - rewrite (minted_supply _ _ _ _ ltac:(eassumption)). lia.
  - rewrite (burned_supply _ _ _ _ ltac:(eassumption)). lia.
Qed.

(** The rest of the chain leaves the supply of the native coin alone. *)
Definition keeps_supply (f : B -> B) : Prop :=
  forall b, GetSupply (f b) (bk_nativeDenom k) = GetSupply b (bk_nativeDenom k).

Lemma atrace_supply `{!BankLaws B} a log a' : atrace k keeps_supply a log a' ->
  a_supply a' - a_outstanding a' = a_supply a - a_outstanding a /\
  (a_supply a <= bk_maxSupply k -> a_supply a' <= bk_maxSupply k).
Proof.
  induction 1 as [a|ctx msg r a a1 a2 log Hr _ IH|f a a2 log Hf _ IH]; [done| |].
  - apply rule_supply in Hr. lia.
  - unfold a_supply in *. simpl in *. rewrite Hf in IH. exact IH.
Qed.

(** C2: The bridge conserves value: as long as nothing else mints or burns the
    native coin, supply minus outstanding amount is constant over every run,
    so each outstanding unit was minted by an inbound settlement, and a supply
    below the configured maximum stays below it. *)
Theorem supply_backed_by_outstanding `{!BankLaws B} w l : bridge_wf w -> externals keeps_supply l ->
  obs_supply k (bridge_run k w l) - obs_outstanding (bridge_run k w l) =
    obs_supply k w - obs_outstanding w /\
  (obs_supply k w <= bk_maxSupply k -> obs_supply k (bridge_run k w l) <= bk_maxSupply k).
Proof.
  intros [a H] He. destruct (run_atrace k _ w a l H He) as (a' & Ht & H').
  rewrite (obs_outstanding_repr _ _ H), (obs_outstanding_repr _ _ H').
  rewrite (obs_supply_repr _ _ _ H), (obs_supply_repr _ _ _ H'). by apply atrace_supply in Ht.
Qed.

(** ** Pausing *)

Definition is_resume (e : entry) : bool := match e.1.2 with BResume _ => true | _ => false end.
Definition is_transfer (e : entry) : bool :=
  match e.1.2 with BSubmit _ | BOutbound _ => true | _ => false end.

Lemma atrace_paused P a log a' : atrace k P a log a' -> a_paused a = true ->
  forallb (fun e => negb (is_resume e)) log = true ->
  a_paused a' = true /\ forallb (fun e => negb (is_transfer e)) log = true.
Proof.
  induction 1 as [a|ctx msg r a a1 a2 log Hr _ IH|f a a2 log _ _ IH]; intros Hp Hf; [done| |].
  - simpl in Hf. apply andb_true_iff in Hf as [Hm Hl].
    pose proof (rule_paused _ _ _ _ _ _ Hr Hp) as Hx.
    by destruct msg; try done; destruct (IH Hx Hl).
  - by apply IH.
Qed.

(** A paused route stays paused and moves nothing until a resume action is
    accepted: in a run without an accepted resume, no transfer in either
    direction is accepted and the route is still paused at the end. *)
Theorem pause_blocks_until_resume w l : bridge_wf w -> obs_paused w = true ->
  forallb (fun e => negb (is_resume e)) (bridge_log k w l) = true ->
  obs_paused (bridge_run k w l) = true /\
  forallb (fun e => negb (is_transfer e)) (bridge_log k w l) = true.
Proof.
  intros [a H] Hp Hl. destruct (run_atrace_any k w a l H) as (a' & Ht & H').
  rewrite (obs_paused_repr _ _ H'). rewrite (obs_paused_repr _ _ H) in Hp.
  eapply atrace_paused; eauto.
Qed.

(** C22: Only two distinct current signers can reopen a route: if a message
    turns a paused route into an open one, it is a resume action for this
    route inside its validity window, whose digest carries the signatures of
    two or three different configured bridge signers; its identifier was not
    recorded as used before, and is afterwards. *)
Theorem resume_needs_two_signers ctx msg w : bridge_wf w ->
  let w' := (bridge_deliver k ctx msg w).2 in
  obs_paused w = true -> obs_paused w' = false ->
  exists m c action digest signers id,
    msg = BResume (Some m) /\ obs_config w = Some c /\
    action = MsgResumeRoute_Action m (Hash_Hex (resume_hash c)) /\
    ca_RouteID action = rc_RouteID c /\
    ca_NotBeforeUnix action <= BlockTime ctx < ca_ExpiresUnix action /\
    ControlDigest action = Ok digest /\
    signed digest (mrr_Signatures m) signers /\ NoDup signers /\ (2 <= length signers <= 3)%nat /\
    (forall s, s ∈ signers -> s ∈ signer_addresses (rc_BridgeSigners c)) /\
    ControlAction_ID action = Ok id /\
    w_kv w !! processedControlKey id = None /\ is_Some (w_kv w' !! processedControlKey id).
Proof.
  intros [a H] w' Hp Hn. unfold w' in *. clear w'. unfold bridge_deliver in *.
  destruct (atomically_cases (bridge_handle k ctx msg) w) as [(r & w1 & Hh & Ha)|[_ Hst]];
    [|rewrite Hst in Hn; congruence].
  rewrite Ha in *. destruct (handle_sound _ _ _ _ _ _ _ H Hh) as (a1 & Hr & H1). cbn [snd] in *.
  rewrite (obs_paused_repr _ _ H1) in Hn. rewrite (obs_paused_repr _ _ H) in Hp.
  rewrite (obs_config_repr _ _ H). pose proof (rule_paused _ _ _ _ _ _ Hr Hp) as Hx.
  destruct Hr; try done; try congruence.
  match goal with Hc : control_approved _ _ _ _ _ _ |- _ =>
    destruct Hc as (? & ? & ? & (d & sl & Hd & Hap) & Hnew) end.
  pose proof (approved_by_length _ _ _ _ Hap). destruct Hap as (_ & ? & ? & ?).
  do 6 eexists. split_and!; try done; try lia.
  - apply eq_None_not_Some. by rewrite <- (rp_done _ _ H) by auto with pos_chain.
  - apply (rp_done _ _ H1); [auto with pos_chain|]. simpl. set_solver.
Qed.

End claims.

(** ** x/bridge/types: theorems on approvals, identifiers and stored configurations *)

Section types.
Context {U : UnicodeTables} {E : EthCommon} {Cr : EthCrypto} {B : Type}.

(** [VerifyApprovals] accepts exactly the 2-of-3 approvals: the three
    configured signers are well-formed and distinct, and there are two or three
    signatures of the attestation's digest that recover to pairwise different
    configured signers, which are returned in order. *)
Theorem approvals_exact a signers sigs l :
  VerifyApprovals a signers sigs = Ok l <->
  (length signers = 3%nat /\ Forall (fun x => IsHexAddress (TrimSpace x) = true) signers /\
   NoDup (signer_addresses signers)) /\
  (2 <= length sigs <= 3)%nat /\
  exists digest, SigningDigest a = Ok digest /\
    Forall2 (fun sg ad => recoverSigner digest sg = Ok ad) sigs l /\
    NoDup l /\ (forall ad, ad ∈ l -> ad ∈ signer_addresses signers).
Proof.
  rewrite VerifyApprovals_Ok. unfold approved_by, signed, signers_wf. naive_solver.
Qed.

(** C34: The identifier of an attestation determines what was attested: two
    valid attestations with the same identifier, neither with a NUL byte in its
    free text fields, agree on every signed field (up to the spelling of the
    source reference and white space around the destination), unless they are
    an explicit SHA-256 collision. *)
Theorem attestation_id_binding a b id :
  Attestation_ID a = Ok id -> Attestation_ID b = Ok id -> separable a -> separable b ->
  (at_RouteID a = at_RouteID b /\ at_Direction a = at_Direction b /\
   at_SourceChainID a = at_SourceChainID b /\
   normalizeHexReference (at_SourceRef a) = normalizeHexReference (at_SourceRef b) /\
   at_Nonce a = at_Nonce b /\ TrimSpace (at_Destination a) = TrimSpace (at_Destination b) /\
   at_Amount a = at_Amount b /\ at_DeadlineUnix a = at_DeadlineUnix b) \/
  sha256_collision (Join (Attestation_fields a) NUL) (Join (Attestation_fields b) NUL).
Proof.
  intros Ha Hb Hsa Hsb. destruct (Attestation_ID_fields a b id Ha Hb Hsa Hsb) as [H|H]; [left|by right].
  injection H as -> -> -> -> Hn -> -> Hd. apply FormatInt_inj in Hn, Hd. by split_and!.
Qed.

(** Two attestations whose free text fields contain the separator. *)
Definition amb_a : Attestation :=
  MkAttestation "r" DirectionCronosToXitcoin (Join ["cronos"; rep 64 "1"; "1"] NUL) (rep 64 "2") 2
    "bob" "5" 9.
Definition amb_b : Attestation :=
  MkAttestation "r" DirectionCronosToXitcoin "cronos" (rep 64 "1") 1
    (Join [rep 64 "2"; "2"; "bob"] NUL) "5" 9.

Lemma SetRouteConfig_put c (w w' : World B) : SetRouteConfig c w = (Ok tt, w') ->
  config_wf c /\ w' = put routeConfigKey (Marshal (RouteConfig_json c)) w.
Proof.
  unfold SetRouteConfig, store_Set, set_kv. intros H. minv.
  repeat match goal with u : unit |- _ => destruct u end.
  split; [|done]. by apply RouteConfig_Validate_Ok.
Qed.

(** A stored route configuration is read back unchanged: validation only
    accepts texts that survive the JSON encoding, so reading after a successful
    write returns the very configuration, field by field. *)
Theorem config_store_roundtrip c (w w' : World B) : SetRouteConfig c w = (Ok tt, w') ->
  GetRouteConfig w' = (Ok (Some c), w').
Proof.
  intros [Hwf ->]%SetRouteConfig_put. unfold GetRouteConfig, store_Get.
  rewrite mbind_reads. unfold kv_get, put. cbn [w_kv]. rewrite lookup_insert_eq. cbn [from_option id].
  rewrite RouteConfig_Marshal_nonempty by done.
  rewrite (mbind_lift _ _ _ c) by by apply RouteConfig_roundtrip.
  rewrite (mbind_lift _ _ _ tt) by by apply RouteConfig_Validate_Ok. done.
Qed.
End types.

Lemma attestation_id_binding_witness :
  let a := MsgSubmitAttestation_Attestation ex_submit in
  let b := MkAttestation (at_RouteID a) (at_Direction a) (at_SourceChainID a) (rep 32 "AB") 7 " bob " "700" 1000 in
  TrimSpace (at_Destination a) = TrimSpace (at_Destination b).
Proof.
  intros a b.
  destruct (attestation_id_binding a b (sha256 (Join (Attestation_fields a) NUL))) as [H|H];
    [vm_compute; reflexivity|vm_compute; reflexivity|split; vm_compute; reflexivity
    |split; vm_compute; reflexivity| |].
  - apply H.
  - destruct H as [Hne _]. exfalso. apply Hne. vm_compute. reflexivity.
Defined.

(** The free text fields make the identifier ambiguous when they contain
    the separator: there are two valid attestations with different source
    references, nonces and destinations but the same identifier, so signatures
    given for one are signatures for the other. *)
Theorem attestation_id_ambiguous :
  amb_a <> amb_b /\ at_Nonce amb_a <> at_Nonce amb_b /\
  exists id, Attestation_ID amb_a = Ok id /\ Attestation_ID amb_b = Ok id.
Proof.
  split_and!; [discriminate|discriminate|].
  exists (sha256 (Join (Attestation_fields amb_a) NUL)). split; vm_compute; reflexivity.
Qed.

Lemma config_store_roundtrip_witness :
  let c := MsgInitializeRouteConfig_RouteConfig ex_init in
  let w' := put routeConfigKey (Marshal (RouteConfig_json c)) ex_world0 in
  GetRouteConfig w' = (Ok (Some c), w').
Proof.
  intros c w'. apply (config_store_roundtrip c ex_world0).
  unfold SetRouteConfig. rewrite (mbind_lift _ _ _ tt) by (vm_compute; reflexivity). reflexivity.
Defined.
