(* ===== verification/BridgeSafety.v ===== *)
(** * x/bridge: replay protection, limits and the reach of administration *)

From Stdlib Require Import ZArith Lia List String Ascii Bool.
From stdpp Require Import base gmap strings list.
From S2P Require Import Prelude GoStrings GoJson Sha256 Sdk BridgeTypes BridgeKeeper BridgeServer.
From S2P Require Import BridgeFacts BridgeSpec BridgeRefine BridgeTheorems RefEnv.
Local Open Scope Z_scope.
Local Open Scope go_scope.

(** ** Which part of the state an operation can change *)

Section frames.
Context {U : UnicodeTables} {E : EthCommon} {Cr : EthCrypto} {T : SdkTypes} {Mt : SdkMath}.
Context {B : Type} {Bk : BankOps B}.
Variable k : BridgeKeeper.
Implicit Types (w : World B).

(** Balances, outstanding amount, outbound nonce and daily usage are as before. *)
Definition asset_key (key : bytes) : Prop :=
  key = KeyOutstandingAmount \/ key = KeyOutboundNonce \/
  exists route t, key = dailyUsageKey route t.

Definition assets_kept w w' : Prop :=
  w_bank w' = w_bank w /\ forall key, asset_key key -> w_kv w' !! key = w_kv w !! key.

#[local] Instance assets_kept_preorder : PreOrder assets_kept.
Proof.
  split; [by intros w; split|]. intros w1 w2 w3 [Hb1 H1] [Hb2 H2].
  split; [congruence|]. intros key Hk. by rewrite H2, H1.
Qed.

Lemma kept_store_Set key v : ~ asset_key key -> mrel assets_kept (store_Set key v).
Proof.
  intros Hn. apply mrel_modify. intros w. split; [done|]. intros key' Hk. simpl.
  rewrite lookup_insert_ne; [done|]. by intros ->.
Qed.

Ltac not_asset := intros [H|[H|(? & ? & H)]]; apply (f_equal (String.get 0)) in H; discriminate H.

Lemma kept_config v : mrel assets_kept (store_Set routeConfigKey v).
Proof. apply kept_store_Set. not_asset. Qed.
Lemma kept_state v : mrel assets_kept (store_Set routeStateKey v).
Proof. apply kept_store_Set. not_asset. Qed.
Lemma kept_pause_key id v : mrel assets_kept (store_Set (processedPauseKey id) v).
Proof. apply kept_store_Set. not_asset. Qed.
Lemma kept_control_key id v : mrel assets_kept (store_Set (processedControlKey id) v).
Proof. apply kept_store_Set. not_asset. Qed.
Lemma kept_event ev : mrel assets_kept (@EmitEvent B ev).
Proof. by apply mrel_modify. Qed.
#[local] Hint Resolve kept_config kept_state kept_pause_key kept_control_key kept_event : mrel.
#[local] Hint Extern 1 (PreOrder assets_kept) => apply assets_kept_preorder : mrel.

Definition is_administrative (msg : BridgeMsg) : bool :=
  match msg with BSubmit _ | BOutbound _ => false | _ => true end.

(** Administration never touches assets: whatever the outcome, an
    initialisation, a pause, a resume or a configuration update leaves the
    bank, the outstanding amount, the outbound nonce and every daily usage
    counter as they were. *)
Theorem administration_moves_no_assets ctx msg w : is_administrative msg = true ->
  assets_kept w (bridge_handle k ctx msg w).2.
Proof.
  intros Ha. enough (mrel assets_kept (bridge_handle k ctx msg)) as Hm by apply Hm.
  assert (mrel assets_kept (@GetRouteConfig U E B)) as H1
    by (unfold GetRouteConfig, store_Get; mrel_auto).
  assert (mrel assets_kept (@GetRouteState B)) as H2
    by (unfold GetRouteState, store_Get; mrel_auto).
  assert (forall c, mrel assets_kept (@SetRouteConfig U E B c)) as H3
    by (intros; unfold SetRouteConfig; mrel_auto).
  assert (forall key, mrel assets_kept (@store_Has B key)) as H4
    by (intros; unfold store_Has; mrel_auto).
  destruct msg; try done; simpl; unfold srv_InitializeRouteConfig, srv_EmergencyPauseRoute,
    srv_ResumeRoute, srv_UpdateRouteConfig, require_req, require_config, PauseRoute, ResumeRoute,
    ApplyRouteConfigUpdate, set_RouteState; mrel_auto.
Qed.
End frames.

Lemma administration_moves_no_assets_witness :
  assets_kept ex_world2 (bridge_handle ex_keeper ex_ctx (BPause (Some ex_pause)) ex_world2).2.
Proof. apply administration_moves_no_assets. reflexivity. Defined.

(** ** Replay protection *)

Section replay.
Context {U : UnicodeTables} {E : EthCommon} {Cr : EthCrypto} {T : SdkTypes} {Mt : SdkMath}.
Context {B : Type} {Bk : BankOps B}.
Variable k : BridgeKeeper.
Implicit Types (w : World B) (a : AState B).

Definition on_ok {A C} (m : outcome A) (f : A -> C) : option C :=
  match m with Ok x => Some (f x) | _ => None end.

(** The replay key that a message uses up when it is accepted in state [w]: the
    identifier of the attestation, of the control action or of the pause. *)
Definition replay_key_of (config : option RouteConfig) (msg : BridgeMsg) : option bytes :=
  match msg with
  | BSubmit (Some m) => on_ok (Attestation_ID (MsgSubmitAttestation_Attestation m)) processedKey
  | BPause (Some m) => on_ok (GuardianPauseAction_ID (MsgEmergencyPauseRoute_Action m)) processedPauseKey
  | BResume (Some m) =>
    match config with
    | Some c => on_ok (ControlAction_ID (MsgResumeRoute_Action m (Hash_Hex (resume_hash c))))
                  processedControlKey
    | None => None
    end
  | BUpdate (Some m) =>
    on_ok (ControlAction_ID (MsgUpdateRouteConfig_Action m
             (Hash_Hex (update_hash (MsgUpdateRouteConfig_RouteConfig m))))) processedControlKey
  | _ => None
  end.

(** The replay keys of the accepted messages of a run, in order. *)
Fixpoint consumed_keys w (l : list (@Step B)) : list bytes :=
  match l with
  | [] => []
  | s :: l' =>
    (match s with
     | Tx ctx msg =>
       match (bridge_deliver k ctx msg w).1, replay_key_of (obs_config w) msg with
       | Ok _, Some key => [key]
       | _, _ => []
       end
     | External _ => []
     end) ++ consumed_keys (bridge_step k w s) l'
  end.

Lemma rule_consumes ctx a msg r a' : bridge_rule k ctx a msg r a' ->
  match replay_key_of (a_config a) msg with
  | Some key => replay_key key /\ key ∉ a_done a /\ a_done a' = {[key]} ∪ a_done a
  | None => a_done a' = a_done a
  end.
Proof.
  destruct 1; simpl; subst; try done; unfold on_ok;
    repeat match goal with
    | H : control_approved _ _ _ _ _ _ |- _ => destruct H as (_ & ? & _ & _ & ?)
    | H : a_config _ = Some _ |- _ => rewrite H
    | H : Attestation_ID _ = Ok _ |- _ => rewrite H
    | H : ControlAction_ID _ = Ok _ |- _ => rewrite H
    | H : GuardianPauseAction_ID _ = Ok _ |- _ => rewrite H
    end; auto with pos_chain.
Qed.

Lemma consumed_keys_fresh w a l : repr w a ->
  NoDup (consumed_keys w l) /\
  Forall (fun key => replay_key key /\ key ∉ a_done a) (consumed_keys w l).
Proof.
  revert w a. induction l as [|s l IH]; intros w a H; [by split; constructor|].
  destruct s as [ctx msg|f]; cbn [consumed_keys].
  2: { exact (IH _ _ (repr_bank w a (f (w_bank w)) H)). }
  cbn [bridge_step]. unfold bridge_deliver.
  destruct (atomically_cases (bridge_handle k ctx msg) w) as [(r & w1 & Hh & ->)|[Hno Hst]].
  2: { rewrite Hst. destruct (atomically _ _) as [[] ?]; [done| |]; simpl; by apply IH. }
  destruct (handle_sound _ _ _ _ _ _ _ H Hh) as (a1 & Hr & H1). simpl.
  rewrite (obs_config_repr _ _ H). apply rule_consumes in Hr.
  destruct (IH w1 a1 H1) as [Hd Hf]. rewrite List.Forall_forall in *.
  destruct (replay_key_of (a_config a) msg) as [key|]; simpl; [|by rewrite Hr in Hf].
  destruct Hr as (Hk & Hn & Hs). split.
  - constructor; [|done]. rewrite list_elem_of_In. intros Hin%Hf. set_solver.
  - intros x [<-|Hin]; [done|]. apply Hf in Hin. set_solver.
Qed.

(** C3: No signed authorisation is used twice: over any run, the replay keys
    consumed by the accepted attestations, guardian pauses, resumes and
    configuration updates are pairwise different, and none of them was in the
    store when the run began. *)
Theorem no_replay w l : bridge_wf w ->
  NoDup (consumed_keys w l) /\
  Forall (fun key => w_kv w !! key = None) (consumed_keys w l).
Proof.
  intros [a H]. destruct (consumed_keys_fresh w a l H) as [Hd Hf]. split; [done|].
  eapply List.Forall_impl; [|exact Hf]. intros key [Hk Hn].
  rewrite (rp_done _ _ H) in Hn by done. by apply eq_None_not_Some.
Qed.
End replay.

(** The run of the example consumes three different keys. *)
Lemma no_replay_witness :
  length (consumed_keys ex_keeper ex_world0 (ex_open ++ ex_transfers)) = 3%nat /\
  NoDup (consumed_keys ex_keeper ex_world0 (ex_open ++ ex_transfers)) /\
  Forall (fun key => w_kv ex_world0 !! key = None)
    (consumed_keys ex_keeper ex_world0 (ex_open ++ ex_transfers)).
Proof.
  split; [vm_compute; reflexivity|]. apply (no_replay ex_keeper ex_world0).
  eexists. apply repr_initial.
Defined.

(** ** Transfers *)

Section transfers.
Context {U : UnicodeTables} {E : EthCommon} {Cr : EthCrypto} {T : SdkTypes} {Mt : SdkMath}.
Context {B : Type} {Bk : BankOps B}.
Variable k : BridgeKeeper.
Implicit Types (w : World B) (a : AState B).

(** The counter [DailyUsage] of the route at the block time. *)
Definition obs_usage (route : string) (t : Z) w : Z :=
  observe (DailyUsage (MkCtx t 0) route) 0 w.

Lemma obs_usage_repr w a route t : repr w a -> obs_usage route t w = used_at a (dailyUsageKey route t).
Proof. intros H. exact (rp_used _ _ H route t). Qed.

Lemma deliver_rule ctx msg w a r w' : repr w a -> bridge_deliver k ctx msg w = (Ok r, w') ->
  exists a', bridge_rule k ctx a msg r a' /\ repr w' a'.
Proof. intros H Hd. unfold bridge_deliver in Hd. minv. by eapply handle_sound. Qed.

Lemma used_at_record ctx c x a :
  used_at (record_usage ctx c x a) (dailyUsageKey (rc_RouteID c) (BlockTime ctx)) =
  used_at a (dailyUsageKey (rc_RouteID c) (BlockTime ctx)) + x.
Proof. unfold record_usage, used_at at 1. simpl. by rewrite lookup_insert_eq. Qed.

(** C23: Every accepted inbound settlement was authorised: the route is the
    stored one, enabled and not paused, the deadline has not passed, two or
    three different configured signers signed this very attestation, which was
    not settled before and is recorded as settled, and the settlement keeps to
    the per-transfer, daily, outstanding and total supply limits. It credits the
    attested amount to the attested destination and changes no other balance. *)
Theorem inbound_authorised `{!BankLaws B} ctx m w id w' : bridge_wf w ->
  bridge_deliver k ctx (BSubmit (Some m)) w = (Ok (RAttestation id), w') ->
  exists c digest signers x maxTransfer dailyLimit amt lim rcp key,
    obs_config w = Some c /\ rc_Enabled c = true /\ obs_paused w = false /\
    msa_RouteId m = rc_RouteID c /\ BlockTime ctx <= msa_DeadlineUnix m /\
    Attestation_ID (MsgSubmitAttestation_Attestation m) = Ok key /\
    w_kv w !! processedKey key = None /\ is_Some (w_kv w' !! processedKey key) /\
    SigningDigest (MsgSubmitAttestation_Attestation m) = Ok digest /\
    signed digest (msa_Signatures m) signers /\ NoDup signers /\ (2 <= length signers <= 3)%nat /\
    (forall s, s ∈ signers -> s ∈ signer_addresses (rc_BridgeSigners c)) /\
    SetString (msa_Amount m) = Some x /\
    SetString (rc_MaxTransferAmount c) = Some maxTransfer /\ 0 < x <= maxTransfer /\
    SetString (rc_DailyLimit c) = Some dailyLimit /\
    obs_usage (rc_RouteID c) (BlockTime ctx) w' =
      obs_usage (rc_RouteID c) (BlockTime ctx) w + x /\
    obs_usage (rc_RouteID c) (BlockTime ctx) w' <= dailyLimit /\
    NewIntFromString (msa_Amount m) = Some amt /\
    NewIntFromString (rc_MaxOutstandingAmount c) = Some lim /\
    obs_outstanding w' = obs_outstanding w + amt /\ obs_outstanding w' <= lim /\
    obs_supply k w + amt <= bk_maxSupply k /\
    AccAddressFromBech32 (TrimSpace (msa_Destination m)) = Ok rcp /\
    forall holder d, GetBalance (w_bank w') holder d = GetBalance (w_bank w) holder d +
      (if bool_decide (holder = rcp /\ d = bk_nativeDenom k) then amt else 0).
Proof.
  intros [a H] Hd. destruct (deliver_rule _ _ _ _ _ _ H Hd) as (a' & Hr & H').
  rewrite (obs_config_repr _ _ H), (obs_paused_repr _ _ H), (obs_outstanding_repr _ _ H),
    (obs_outstanding_repr _ _ H'), (obs_supply_repr _ _ _ H).
  inversion Hr as [m' att c id' x amt lim rcp b digest l | | | | |]; subst.
  match goal with Hav : available _ _ |- _ => destruct Hav as (? & ? & ?) end.
  match goal with Hap : approved_by _ _ _ _ |- _ =>
    pose proof (approved_by_length _ _ _ _ Hap); destruct Hap as (_ & ? & ? & ?) end.
  match goal with Hx : within_limits _ _ _ _ _ |- _ =>
    destruct Hx as (? & ? & (mt & ? & ?) & (dl & ? & ?)) end.
  exists c, digest, l, x, mt, dl, amt, lim, rcp, id'.
  rewrite (obs_usage_repr _ _ _ _ H), (obs_usage_repr _ _ _ _ H').
  pose proof (used_at_record ctx c x a) as Hu. unfold used_at, record_usage in Hu |- *. simpl in *.
  rewrite Hu. split_and!; try done; try lia.
  - apply eq_None_not_Some. by rewrite <- (rp_done _ _ H) by auto with pos_chain.
  - apply (rp_done _ _ H'); [auto with pos_chain|]. simpl. set_solver.
  - intros holder d. rewrite (rp_bank _ _ H), (rp_bank _ _ H'). by eapply minted_balance.
Qed.

(** Every accepted outbound transfer is covered: the amount is positive,
    within the limits and at most the outstanding amount, which decreases by
    it; exactly that amount leaves the sender's balance and the supply; and the
    response carries the next nonce. *)
Theorem outbound_covered `{!BankLaws B} ctx m w id nonce w' : bridge_wf w ->
  bridge_deliver k ctx (BOutbound (Some m)) w = (Ok (ROutbound id nonce), w') ->
  exists c sender amt,
    obs_config w = Some c /\ rc_Enabled c = true /\ obs_paused w = false /\
    AccAddressFromBech32 (mot_Sender m) = Ok sender /\
    valid_cronos_destination (TrimSpace (mot_Destination m)) = true /\
    NewIntFromString (mot_Amount m) = Some amt /\ 0 < amt <= obs_outstanding w /\
    obs_outstanding w' = obs_outstanding w - amt /\
    obs_supply k w' = obs_supply k w - amt /\
    (sender <> GetModuleAddress bridge_ModuleName ->
     GetBalance (w_bank w') sender (bk_nativeDenom k) =
       GetBalance (w_bank w) sender (bk_nativeDenom k) - amt) /\
    id = hex_encode (sha256 (outbound_payload c sender (TrimSpace (mot_Destination m)) amt nonce)).
Proof.
  intros [a H] Hd. destruct (deliver_rule _ _ _ _ _ _ H Hd) as (a' & Hr & H').
  rewrite (obs_config_repr _ _ H), (obs_paused_repr _ _ H), (obs_outstanding_repr _ _ H),
    (obs_outstanding_repr _ _ H'), (obs_supply_repr _ _ _ H), (obs_supply_repr _ _ _ H').
  rewrite (rp_bank _ _ H), (rp_bank _ _ H').
  inversion Hr as [|m' c x amt sender b dest n | | | |]; subst.
  match goal with Hav : available _ _ |- _ => destruct Hav as (? & ? & ?) end.
  match goal with Hb : burned _ _ _ _ _ |- _ =>
    pose proof (burned_supply _ _ _ _ _ Hb); destruct Hb as (_ & b1 & Hsend & Hburn) end.
  apply SendToModule_ok in Hsend as [_ Hs]. apply BurnCoins_ok in Hburn as [_ Hb].
  exists c, sender, amt. split_and!; try done; try lia.
  intros Hne. simpl. rewrite Hb, Hs. unfold moved.
  repeat case_bool_decide; try lia; exfalso; naive_solver.
Qed.

(** ** Whole runs *)

(** The outbound nonces handed out in a run. *)
Definition nonces (log : list entry) : list Z :=
  flat_map (fun e => match e.2 with ROutbound _ n => [n] | _ => [] end) log.
Definition obs_nonce w : Z :=
  let v := kv_get (w_kv w) KeyOutboundNonce in if len v =? 8 then be_value v else 0.

Lemma obs_nonce_repr w a : repr w a -> obs_nonce w = a_nonce a.
Proof. apply Uint64_repr. Qed.

Lemma rule_nonce ctx a msg r a' : bridge_rule k ctx a msg r a' ->
  match r with
  | ROutbound _ n => n = u64 (a_nonce a + 1) /\ a_nonce a' = n
  | _ => a_nonce a' = a_nonce a
  end.
Proof. by destruct 1. Qed.

Lemma u64_succ n i : u64 (u64 (n + 1) + 1 + i) = u64 (n + 1 + (1 + i)).
Proof. unfold u64. rewrite <- Z.add_assoc, Z.add_mod_idemp_l by done. f_equal; lia. Qed.

Lemma atrace_nonces P a log a' : atrace k P a log a' ->
  nonces log = map (fun i => u64 (a_nonce a + 1 + Z.of_nat i)) (seq 0 (length (nonces log))).
Proof.
  induction 1 as [a|ctx msg r a a1 a2 log Hr _ IH|f a a2 log _ _ IH]; [done| |done].
  apply rule_nonce in Hr. destruct r as [id|id n|]; simpl; try by rewrite Hr in IH.
  destruct Hr as [-> Hn]. rewrite Hn in IH.
  f_equal; [f_equal; lia|]. change (nonces _) with (nonces log).
  rewrite IH at 1. rewrite <- seq_shift, List.map_map. apply map_ext. intros i.
  rewrite u64_succ. f_equal. lia.
Qed.

(** Outbound transfers are numbered consecutively: the nonces answered in
    a run continue the stored one without gap or repetition (modulo the width
    of the counter). *)
Theorem outbound_nonces_consecutive w l : bridge_wf w ->
  nonces (bridge_log k w l) =
  map (fun i => u64 (obs_nonce w + 1 + Z.of_nat i)) (seq 0 (length (nonces (bridge_log k w l)))).
Proof.
  intros [a H]. destruct (run_atrace_any k w a l H) as (a' & Ht & H').
  rewrite (obs_nonce_repr _ _ H). by eapply atrace_nonces.
Qed.

Definition is_initialize (e : entry) : bool :=
  match e.1.2 with BInitialize _ => true | _ => false end.

Lemma atrace_config P a log a' c : atrace k P a log a' -> a_config a = Some c ->
  (exists c', a_config a' = Some c' /\ rc_RouteID c' = rc_RouteID c) /\
  forallb (fun e => negb (is_initialize e)) log = true.
Proof.
  intros Ht. revert c. induction Ht as [a|ctx msg r a a1 a2 log Hr _ IH|f a a2 log _ _ IH];
    intros c Hc; [eauto| |by apply IH].
  destruct (rule_config_mono _ _ _ _ _ _ _ Hr Hc) as (c1 & Hc1 & Hi).
  destruct (IH c1 Hc1) as [(c' & Hc' & Hi') Hl]. split; [exists c'; split; congruence|].
  simpl. rewrite Hl, andb_true_r. by destruct Hr; [..|congruence| | |]; try done; congruence.
Qed.

(** A route is created once and keeps its identity: when a configuration
    is stored, every later state of every run has a valid configuration with
    the same route ID, and no initialisation is accepted any more. *)
Theorem route_identity_fixed w l c : bridge_wf w -> obs_config w = Some c ->
  (exists c', obs_config (bridge_run k w l) = Some c' /\ rc_RouteID c' = rc_RouteID c /\
     RouteConfig_Validate c' = Ok tt) /\
  forallb (fun e => negb (is_initialize e)) (bridge_log k w l) = true.
Proof.
  intros [a H] Hc. destruct (run_atrace_any k w a l H) as (a' & Ht & H').
  rewrite (obs_config_repr _ _ H) in Hc. rewrite (obs_config_repr _ _ H').
  destruct (atrace_config _ _ _ _ _ Ht Hc) as [(c' & Hc' & Hi) Hl]. split; [|done].
  exists c'. split_and!; [done|done|]. apply RouteConfig_Validate_Ok. by eapply config_repr.
Qed.

(** Two block times on the same day, as the usage key computes it. *)
Definition same_day (t t' : Z) : bool := u64 (Z.quot t 86400) =? u64 (Z.quot t' 86400).

Lemma dailyUsageKey_eq route t t' :
  dailyUsageKey route t = dailyUsageKey route t' <-> same_day t t' = true.
Proof.
  unfold dailyUsageKey, same_day. rewrite Z.eqb_eq. split; [|by intros ->].
  intros Heq. do 2 apply string_app_inj_l in Heq. apply (f_equal be_value) in Heq.
  by rewrite !Uint64_PutUint64, !(u64_small (u64 _)) in Heq by apply u64_range.
Qed.

(** What an accepted message adds to the usage of the day of [t]. *)
Definition spent (t : Z) (e : entry) : Z :=
  if same_day (BlockTime e.1.1) t then
    match e.1.2 with
    | BSubmit (Some m) => default 0 (SetString (msa_Amount m))
    | BOutbound (Some m) => default 0 (SetString (mot_Amount m))
    | _ => 0
    end
  else 0.

Lemma used_at_record_day ctx c x a t :
  used_at (record_usage ctx c x a) (dailyUsageKey (rc_RouteID c) t) =
  used_at a (dailyUsageKey (rc_RouteID c) t) + (if same_day (BlockTime ctx) t then x else 0).
Proof.
  unfold record_usage, used_at at 1. simpl. destruct (same_day (BlockTime ctx) t) eqn:Ed.
  - apply (dailyUsageKey_eq (rc_RouteID c)) in Ed. by rewrite <- Ed, lookup_insert_eq.
  - rewrite lookup_insert_ne; [unfold used_at; lia|].
    intros Heq. apply dailyUsageKey_eq in Heq. congruence.
Qed.

Lemma rule_usage ctx a msg r a' c t : bridge_rule k ctx a msg r a' -> a_config a = Some c ->
  used_at a' (dailyUsageKey (rc_RouteID c) t) =
  used_at a (dailyUsageKey (rc_RouteID c) t) + spent t (ctx, msg, r).
Proof.
  intros Hr Hc. unfold spent. simpl.
  destruct Hr; simpl; try (destruct (same_day _ _); simpl; unfold used_at; simpl; lia).
  all: match goal with Hav : available _ _ |- _ => destruct Hav as (Hc' & _ & _) end.
  all: rewrite Hc in Hc'; injection Hc' as <-.
  all: match goal with Hw : within_limits _ _ _ _ _ |- _ => destruct Hw as (Hx & _) end.
  all: subst; simpl in *; rewrite Hx; exact (used_at_record_day ctx c x a t).
Qed.

Lemma atrace_usage P a log a' c t : atrace k P a log a' -> a_config a = Some c ->
  used_at a' (dailyUsageKey (rc_RouteID c) t) =
  used_at a (dailyUsageKey (rc_RouteID c) t) + sumZ (map (spent t) log).
Proof.
  intros Ht. revert c. induction Ht as [a|ctx msg r a a1 a2 log Hr _ IH|f a a2 log _ _ IH];
    intros c Hc; simpl; [lia| |by apply IH].
  destruct (rule_config_mono _ _ _ _ _ _ _ Hr Hc) as (c1 & Hc1 & Hi).
  specialize (IH c1 Hc1). rewrite Hi in IH. rewrite IH, (rule_usage _ _ _ _ _ _ _ Hr Hc). lia.
Qed.

(** The daily counter counts every transfer of its day and nothing else:
    over any run it grows by exactly the amounts of the inbound and outbound
    transfers accepted on that day. *)
Theorem daily_usage_exact w l c t : bridge_wf w -> obs_config w = Some c ->
  obs_usage (rc_RouteID c) t (bridge_run k w l) =
  obs_usage (rc_RouteID c) t w + sumZ (map (spent t) (bridge_log k w l)).
Proof.
  intros [a H] Hc. destruct (run_atrace_any k w a l H) as (a' & Ht & H').
  rewrite (obs_config_repr _ _ H) in Hc.
  rewrite (obs_usage_repr _ _ _ _ H), (obs_usage_repr _ _ _ _ H'). by eapply atrace_usage.
Qed.

End transfers.

(** ** Witnesses *)

Lemma ex_wf0 : bridge_wf ex_world0.
Proof. eexists. apply repr_initial. Qed.

Lemma run_wf {U : UnicodeTables} {E : EthCommon} {Cr : EthCrypto} {T : SdkTypes} {Mt : SdkMath}
    {B : Type} {Bk : BankOps B} k (w : World B) l : bridge_wf w -> bridge_wf (bridge_run k w l).
Proof. intros [a H]. destruct (run_atrace_any k w a l H) as (a' & _ & H'). by exists a'. Qed.

Lemma ex_wf1 : bridge_wf ex_world1.
Proof. apply run_wf, ex_wf0. Qed.

Lemma ex_wf2 : bridge_wf ex_world2.
Proof. apply run_wf, ex_wf1. Qed.

Definition ex_config : RouteConfig := MsgUpdateRouteConfig_RouteConfig ex_update.

Lemma deliver_eq {U : UnicodeTables} {E : EthCommon} {Cr : EthCrypto} {T : SdkTypes} {Mt : SdkMath}
    {B : Type} {Bk : BankOps B} k ctx msg (w : World B) r :
  (bridge_deliver k ctx msg w).1 = r ->
  bridge_deliver k ctx msg w = (r, bridge_run k w [Tx ctx msg]).
Proof. intros <-. apply surjective_pairing. Qed.

(** The identifier answered to the example's submission. *)
Definition ex_id : string :=
  match (bridge_deliver ex_keeper ex_ctx (BSubmit (Some ex_submit)) ex_world1).1 with
  | Ok (RAttestation id) => id
  | _ => EmptyString
  end.
Definition ex_world_in : World rbank :=
  bridge_run ex_keeper ex_world1 [Tx ex_ctx (BSubmit (Some ex_submit))].

#[local] Opaque ex_world1 bridge_deliver.

Lemma ex_settled :
  bridge_deliver ex_keeper ex_ctx (BSubmit (Some ex_submit)) ex_world1
  = (Ok (RAttestation ex_id), ex_world_in).
Proof. refine (deliver_eq _ _ _ _ _ _). vm_compute. reflexivity. Qed.

Lemma ex_wf_in : bridge_wf ex_world_in.
Proof. exact (run_wf ex_keeper ex_world1 _ ex_wf1). Qed.

Lemma inbound_authorised_witness :
  exists c rcp amt, obs_config ex_world1 = Some c /\ rc_Enabled c = true /\ obs_paused ex_world1 = false /\
    forall holder d, GetBalance (w_bank ex_world_in) holder d = GetBalance (w_bank ex_world1) holder d +
      (if bool_decide (holder = rcp /\ d = bk_nativeDenom ex_keeper) then amt else 0).
Proof.
  destruct (inbound_authorised ex_keeper ex_ctx ex_submit ex_world1 ex_id ex_world_in ex_wf1 ex_settled)
    as (c & ? & ? & ? & ? & ? & amt & ? & rcp & ? & Hc & He & Hp & H). exists c, rcp, amt.
  split; [exact Hc|]. split; [exact He|]. split; [exact Hp|].
  repeat match type of H with _ /\ _ => apply proj2 in H end. exact H.
Defined.

Definition ex_request_id : string :=
  match (bridge_deliver ex_keeper ex_ctx (BOutbound (Some ex_outbound)) ex_world_in).1 with
  | Ok (ROutbound id _) => id
  | _ => EmptyString
  end.

Lemma ex_burned :
  bridge_deliver ex_keeper ex_ctx (BOutbound (Some ex_outbound)) ex_world_in =
  (Ok (ROutbound ex_request_id 1),
   bridge_run ex_keeper ex_world_in [Tx ex_ctx (BOutbound (Some ex_outbound))]).
Proof. refine (deliver_eq _ _ _ _ _ _). vm_compute. reflexivity. Qed.

Lemma outbound_covered_witness :
  exists c, obs_config ex_world_in = Some c /\ rc_Enabled c = true.
Proof.
  destruct (outbound_covered ex_keeper ex_ctx ex_outbound ex_world_in ex_request_id 1 _ ex_wf_in
    ex_burned) as (c & ? & ? & Hc & He & _). exists c. auto.
Defined.

Lemma outbound_nonces_witness :
  nonces (bridge_log ex_keeper ex_world1 ex_transfers) = [1] /\
  nonces (bridge_log ex_keeper ex_world1 ex_transfers) =
  map (fun i => u64 (obs_nonce ex_world1 + 1 + Z.of_nat i))
    (seq 0 (length (nonces (bridge_log ex_keeper ex_world1 ex_transfers)))).
Proof.
  split; [vm_compute; reflexivity|].
  apply (outbound_nonces_consecutive ex_keeper ex_world1 ex_transfers), ex_wf1.
Defined.

Lemma route_identity_witness :
  obs_config ex_world1 = Some ex_config /\
  forallb (fun e => negb (is_initialize e))
    (bridge_log ex_keeper ex_world1 (ex_open ++ ex_transfers)) = true.
Proof.
  assert (obs_config ex_world1 = Some ex_config) as Hc by (vm_compute; reflexivity).
  split; [exact Hc|].
  exact (proj2 (route_identity_fixed ex_keeper ex_world1 (ex_open ++ ex_transfers) ex_config ex_wf1 Hc)).
Defined.

Lemma daily_usage_witness :
  obs_usage "cronos-xitcoin" 150 ex_world2 = 900 /\
  obs_usage (rc_RouteID ex_config) 150 (bridge_run ex_keeper ex_world1 ex_transfers) =
  obs_usage (rc_RouteID ex_config) 150 ex_world1
    + sumZ (map (spent 150) (bridge_log ex_keeper ex_world1 ex_transfers)).
Proof.
  split; [vm_compute; reflexivity|].
  apply (daily_usage_exact ex_keeper ex_world1 ex_transfers ex_config 150 ex_wf1).
  vm_compute. reflexivity.
Defined.

Lemma bridge_refinement_witness :
  exists w' a', bridge_handle ex_keeper ex_ctx (BInitialize (Some ex_init)) ex_world0 = (Ok REmpty, w') /\
    bridge_rule ex_keeper ex_ctx (MkAState None false 0 0 ∅ ∅ ex_bank0)
      (BInitialize (Some ex_init)) REmpty a' /\ repr w' a'.
Proof.
  destruct (bridge_refinement ex_keeper ex_ctx (BInitialize (Some ex_init)) ex_world0
    (MkAState None false 0 0 ∅ ∅ ex_bank0) (repr_initial _ _)) as [Hs _].
  destruct (bridge_handle ex_keeper ex_ctx (BInitialize (Some ex_init)) ex_world0) as [r w'] eqn:Er.
  assert (r = Ok REmpty) as -> by (change r with (r, w').1; rewrite <- Er; vm_compute; reflexivity).
  destruct (Hs REmpty w' eq_refl) as (a' & Hr & Ha). exists w', a'. auto.
Defined.

Lemma outstanding_net_flow_witness :
  obs_outstanding ex_world2 = 500 /\
  obs_outstanding (bridge_run ex_keeper ex_world1 ex_transfers) =
  obs_outstanding ex_world1 + sumZ (map flow (bridge_log ex_keeper ex_world1 ex_transfers)).
Proof.
  split; [vm_compute; reflexivity|].
  exact (proj1 (outstanding_is_net_flow ex_keeper ex_world1 ex_transfers ex_wf1)).
Defined.

Lemma supply_backed_witness :
  obs_supply ex_keeper ex_world2 = 500 /\
  obs_supply ex_keeper (bridge_run ex_keeper ex_world1 ex_transfers)
    - obs_outstanding (bridge_run ex_keeper ex_world1 ex_transfers) =
  obs_supply ex_keeper ex_world1 - obs_outstanding ex_world1.
Proof.
  split; [vm_compute; reflexivity|].
  refine (proj1 (supply_backed_by_outstanding ex_keeper ex_world1 ex_transfers ex_wf1 _)).
  repeat constructor.
Defined.

Definition ex_paused : World rbank := bridge_run ex_keeper ex_world0 (firstn 1 ex_open).
Definition ex_unpaused_attempts : list (@Step rbank) :=
  [ex_tx (BSubmit (Some ex_submit)); ex_tx (BUpdate (Some ex_update))].

Lemma pause_blocks_witness :
  length (bridge_log ex_keeper ex_paused ex_unpaused_attempts) = 1%nat /\
  obs_paused (bridge_run ex_keeper ex_paused ex_unpaused_attempts) = true.
Proof.
  split; [vm_compute; reflexivity|].
  refine (proj1 (pause_blocks_until_resume ex_keeper ex_paused ex_unpaused_attempts _ _ _)).
  - exact (run_wf ex_keeper ex_world0 _ ex_wf0).
  - vm_compute. reflexivity.
  - vm_compute. reflexivity.
Defined.

Definition ex_enabled : World rbank := bridge_run ex_keeper ex_world0 (firstn 2 ex_open).

Lemma resume_two_signers_witness :
  obs_paused ex_enabled = true /\
  exists m c, BResume (Some ex_resume) = BResume (Some m) /\ obs_config ex_enabled = Some c.
Proof.
  assert (obs_paused ex_enabled = true) as Hp by (vm_compute; reflexivity).
  split; [exact Hp|].
  destruct (resume_needs_two_signers ex_keeper ex_ctx (BResume (Some ex_resume)) ex_enabled
    (run_wf ex_keeper ex_world0 _ ex_wf0) Hp) as (m & c & action & d & sl & id & Hm & Hc & _).
  - vm_compute. reflexivity.
  - exists m, c. auto.
Defined.
