(* ===== verification/BridgeGenesis.v ===== *)
(** * x/bridge: genesis export and import, and the status query

    What survives an export of the module's state and its import into a new
    chain, and what does not. *)

From Stdlib Require Import ZArith Lia List String Ascii Bool.
From stdpp Require Import base gmap strings list.
From S2P Require Import Prelude GoStrings GoJson Sha256 Sdk BridgeTypes BridgeKeeper BridgeServer.
From S2P Require Import BridgeFacts BridgeSpec BridgeRefine BridgeTheorems BridgeSafety RefEnv.
Local Open Scope Z_scope.
Local Open Scope go_scope.

Section genesis.
Context {U : UnicodeTables} {E : EthCommon} {Cr : EthCrypto} {T : SdkTypes} {Mt : SdkMath}.
Context {B : Type} {Bk : BankOps B}.
Implicit Types (w : World B) (a : AState B).

(** The JSON form of a genesis state is decoded to the state. *)
Lemma BridgeGenesis_roundtrip c p z n : config_wf c -> is_u64 n ->
  BridgeGenesis_Unmarshal (Marshal (BridgeGenesis_json (MkBridgeGenesis (Some c) p (FormatInt z) n)))
  = Ok (MkBridgeGenesis (Some c) p (FormatInt z) n).
Proof.
  intros Hc Hn. unfold BridgeGenesis_Unmarshal, BridgeGenesis_json.
  cbn [bg_RouteConfig bg_Paused bg_OutstandingAmount bg_OutboundNonce].
  pose proof (FormatInt_nonempty z) as Hz. apply String.eqb_neq in Hz. rewrite Hz.
  destruct (RouteConfig_members_json c) as (l & Hl & Hm).
  rewrite Parse_Marshal.
  - rewrite Hl. simpl. rewrite Hm. simpl.
    destruct (Z.eqb_spec n 0) as [->|Hne]; [done|]. simpl.
    pose proof (as_uint_FormatInt two64 0 n Hn) as Hu. unfold as_uint in Hu. rewrite Hu. done.
  - constructor.
    repeat (apply List.Forall_cons; [split; [reflexivity|]|]); simpl.
    + by apply RouteConfig_json_wf.
    + constructor.
    + constructor. apply utf8_valid_ascii, FormatInt_ascii.
    + destruct (n =? 0); repeat constructor. apply Hn.
Qed.

(** The state that a genesis can carry: everything but the usage counters and
    the consumed replay keys. *)
Definition carried (b : B) a : AState B :=
  MkAState (a_config a) (a_paused a) (a_outstanding a) (a_nonce a) ∅ ∅ b.

Lemma export_repr w a c : repr w a -> a_config a = Some c ->
  bridge_ExportGenesis w =
  (Ok (MkBridgeGenesis (Some c) (a_paused a) (FormatInt (a_outstanding a)) (a_nonce a)), w).
Proof.
  intros H Hc. unfold bridge_ExportGenesis, must, mbind'.
  rewrite (GetRouteConfig_repr _ _ H), Hc, (GetRouteState_repr _ _ H), (OutstandingAmount_repr _ _ H).
  unfold store_Get, mreads, mret. rewrite (Uint64_repr _ _ H), Int_String_spec. done.
Qed.

Lemma init_repr b evs a c : config_wf c -> a_config a = Some c -> 0 <= a_outstanding a < two256 ->
  is_u64 (a_nonce a) ->
  exists w', bridge_InitGenesis (MkBridgeGenesis (Some c) (a_paused a) (FormatInt (a_outstanding a))
               (a_nonce a)) (MkWorld ∅ b evs) = (Ok tt, w') /\ repr w' (carried b a).
Proof.
  intros Hwf Hc Ho Hn. unfold bridge_InitGenesis. cbn [bg_RouteConfig bg_Paused bg_OutstandingAmount bg_OutboundNonce].
  destruct (SetRouteConfig_repr _ _ c (repr_initial b evs) Hwf) as (w1 & Hw1 & H1).
  erewrite mbind_eq; [|unfold must; by rewrite Hw1].
  set (st := if a_paused a then _ else _).
  assert (exists w2, st w1 = (Ok tt, w2) /\ repr w2 (with_paused (a_paused a)
    (with_config c (MkAState None false 0 0 ∅ ∅ b)))) as (w2 & Hw2 & H2).
  { unfold st. destruct (a_paused a); eexists; (split; [reflexivity|]); [|done].
    by apply repr_put_state. }
  erewrite mbind_eq by exact Hw2.
  pose proof (FormatInt_nonempty (a_outstanding a)) as Hz. apply String.eqb_neq in Hz. rewrite Hz.
  rewrite NewIntFromString_decimal by by apply int_fits_range.
  destruct (setOutstandingAmount_repr _ _ _ H2 Ho) as (w3 & Hw3 & H3).
  erewrite mbind_eq by exact Hw3. unfold carried. rewrite Hc.
  destruct (Z.eqb_spec (a_nonce a) 0) as [->|Hne]; eexists; (split; [reflexivity|]); [exact H3|].
  by apply (repr_put_nonce _ _ _ H3).
Qed.

(** Within the limit the export is valid and is imported. *)
Lemma export_imported w a c lim b evs : repr w a -> a_config a = Some c ->
  SetString (rc_MaxOutstandingAmount c) = Some lim -> a_outstanding a <= lim ->
  exists data w', bridge_module_ExportGenesis w = (Ok data, w) /\
    bridge_ValidateGenesis data = Ok tt /\
    bridge_module_InitGenesis data (MkWorld ∅ b evs) = (Ok tt, w') /\ repr w' (carried b a).
Proof.
  intros H Hc Hlim Hle. pose proof (config_repr _ _ _ H Hc) as Hwf.
  pose proof (rp_outstanding _ _ H) as [Ho _]. pose proof (rp_nonce _ _ H) as [Hn _].
  destruct (init_repr b evs a c Hwf Hc Ho Hn) as (w' & Hi & Hr).
  assert (BridgeGenesis_Validate (MkBridgeGenesis (Some c) (a_paused a) (FormatInt (a_outstanding a))
            (a_nonce a)) = Ok tt) as Hv.
  { unfold BridgeGenesis_Validate. cbn [bg_RouteConfig bg_OutstandingAmount].
    rewrite (proj2 (RouteConfig_Validate_Ok c) Hwf). simpl.
    pose proof (FormatInt_nonempty (a_outstanding a)) as Hz. apply String.eqb_neq in Hz. rewrite Hz.
    rewrite SetString_FormatInt, Hlim. simpl.
    by rewrite (proj2 (Z.ltb_ge _ _) (proj1 Ho)), (proj2 (Z.ltb_ge _ _) Hle). }
  eexists _, w'. split_and!; [| | |exact Hr].
  - unfold bridge_module_ExportGenesis. erewrite mbind_eq by by apply export_repr. reflexivity.
  - unfold bridge_ValidateGenesis. by rewrite BridgeGenesis_roundtrip.
  - unfold bridge_module_InitGenesis, must, mbind', mlift.
    rewrite BridgeGenesis_roundtrip by done. simpl. by rewrite Hv.
Qed.

(** An exported state whose outstanding amount exceeds the configured
    limit cannot be imported: the export succeeds, the import panics. *)
Lemma import_over_limit w a c lim w0 : repr w a -> a_config a = Some c ->
  SetString (rc_MaxOutstandingAmount c) = Some lim -> lim < a_outstanding a ->
  exists data e, bridge_module_ExportGenesis w = (Ok data, w) /\
    @bridge_module_InitGenesis _ _ _ B data w0 = (Panic e, w0).
Proof.
  intros H Hc Hlim Hgt. pose proof (config_repr _ _ _ H Hc) as Hwf.
  pose proof (rp_outstanding _ _ H) as [Ho _]. pose proof (rp_nonce _ _ H) as [Hn _].
  eexists _, _. split.
  - unfold bridge_module_ExportGenesis. erewrite mbind_eq by by apply export_repr. reflexivity.
  - unfold bridge_module_InitGenesis, must, mbind', mlift. rewrite BridgeGenesis_roundtrip by done.
    unfold BridgeGenesis_Validate. cbn [bg_RouteConfig bg_OutstandingAmount owrap].
    rewrite (proj2 (RouteConfig_Validate_Ok c) Hwf). simpl.
    pose proof (FormatInt_nonempty (a_outstanding a)) as Hz. apply String.eqb_neq in Hz. rewrite Hz.
    rewrite SetString_FormatInt, Hlim. simpl.
    by rewrite (proj2 (Z.ltb_ge _ _) (proj1 Ho)), (proj2 (Z.ltb_lt _ _) Hgt).
Qed.

(** C35: Exporting the state of a configured bridge to JSON always succeeds.
    When the outstanding amount is within the configured limit, the export is
    valid and importing it into an empty store restores the route configuration,
    the pause flag, the outstanding amount and the outbound nonce; when it
    exceeds the limit, which an update of the configuration can bring about, the
    import panics and writes nothing. *)
Theorem genesis_roundtrip w a c lim b evs : repr w a -> a_config a = Some c ->
  SetString (rc_MaxOutstandingAmount c) = Some lim ->
  exists data, bridge_module_ExportGenesis w = (Ok data, w) /\
    (a_outstanding a <= lim -> bridge_ValidateGenesis data = Ok tt /\
       exists w', bridge_module_InitGenesis data (MkWorld ∅ b evs) = (Ok tt, w') /\ repr w' (carried b a)) /\
    (lim < a_outstanding a -> exists e, bridge_module_InitGenesis data (MkWorld ∅ b evs) = (Panic e, MkWorld ∅ b evs)).
Proof.
  intros H Hc Hlim. destruct (Z.le_gt_cases (a_outstanding a) lim) as [Hle|Hgt].
  - destruct (export_imported w a c lim b evs H Hc Hlim Hle) as (data & w' & He & Hv & Hi & Hr).
    exists data. split; [done|]. split; [eauto|lia].
  - destruct (import_over_limit w a c lim (MkWorld ∅ b evs) H Hc Hlim Hgt) as (data & e & He & Hi).
    exists data. split; [done|]. split; [lia|eauto].
Qed.
End genesis.

Lemma genesis_roundtrip_witness :
  exists w' : World rbank,
    repr w' (carried ex_bank0 (MkAState (Some ex_config) true 0 0 ∅ ∅ ex_bank0)) /\
    obs_paused w' = true.
Proof.
  assert (config_wf ex_config) as Hwf by (apply RouteConfig_Validate_Ok; vm_compute; reflexivity).
  destruct (genesis_roundtrip
    (put routeStateKey (Marshal (RouteState_json (MkRouteState true)))
      (put routeConfigKey (Marshal (RouteConfig_json ex_config)) ex_world0))
    (with_paused true (with_config ex_config (MkAState None false 0 0 ∅ ∅ ex_bank0)))
    ex_config 5000 ex_bank0 []) as (data & _ & H & _).
  - apply repr_put_state, repr_put_config; [apply repr_initial|exact Hwf].
  - reflexivity.
  - reflexivity.
  - destruct H as (_ & w' & _ & H); [simpl; lia|]. exists w'. split; [exact H|]. exact (obs_paused_repr _ _ H).
Defined.

Lemma import_over_limit_example :
  exists data e, bridge_module_ExportGenesis
      (put KeyOutstandingAmount (big_Bytes 6000)
        (put routeConfigKey (Marshal (RouteConfig_json ex_config)) ex_world0)) =
      (Ok data, put KeyOutstandingAmount (big_Bytes 6000)
        (put routeConfigKey (Marshal (RouteConfig_json ex_config)) ex_world0)) /\
    bridge_module_InitGenesis data ex_world0 = (Panic e, ex_world0).
Proof.
  assert (config_wf ex_config) as Hwf by (apply RouteConfig_Validate_Ok; vm_compute; reflexivity).
  destruct (setOutstandingAmount_repr _ _ 6000 (repr_put_config _ _ ex_config
    (repr_initial ex_bank0 []) Hwf)) as (w1 & Hw1 & H1); [unfold two256; lia|].
  injection Hw1 as <-.
  apply (import_over_limit _ _ ex_config 5000 ex_world0 H1); [reflexivity|reflexivity|].
  simpl. lia.
Defined.

Definition ex_export : bytes := observe bridge_module_ExportGenesis EmptyString ex_world_in.
Definition ex_imported : World rbank :=
  (bridge_module_InitGenesis ex_export (MkWorld ∅ (w_bank ex_world_in) [])).2.

(** The genesis does not carry the consumed identifiers: an attestation
    that was settled, and whose second submission is refused, is settled a
    second time after the state has been exported and imported. *)
Theorem genesis_forgets_processed :
  let submit w := bridge_deliver ex_keeper ex_ctx (BSubmit (Some ex_submit)) w in
  (submit ex_world1).1 = Ok (RAttestation ex_id) /\
  (submit (submit ex_world1).2).1 = Err ErrAttestationAlreadyProcessed /\
  (bridge_module_ExportGenesis (submit ex_world1).2).1 = Ok ex_export /\
  (bridge_module_InitGenesis ex_export (MkWorld ∅ (w_bank (submit ex_world1).2) [])).1 = Ok tt /\
  (submit ex_imported).1 = Ok (RAttestation ex_id) /\
  obs_outstanding (submit ex_imported).2 = 1400.
Proof. split_and!; vm_compute; reflexivity. Qed.

(** ** The status query *)

Section status.
Context {U : UnicodeTables} {E : EthCommon} {Cr : EthCrypto} {T : SdkTypes} {Mt : SdkMath}.
Context {B : Type} {Bk : BankOps B}.
Implicit Types (w : World B) (a : AState B).

Lemma ParseAttestationID_hex id : String.length id = 32%nat ->
  ParseAttestationID (hex_encode id) = Ok (id, ("0x" +:+ hex_encode id)%string).
Proof.
  intros Hl. pose proof (hex_encode_lower id) as Hh. unfold ParseAttestationID.
  rewrite lower_hex_TrimSpace, lower_hex_ToLower, lower_hex_TrimPrefix by done.
  unfold len. rewrite hex_encode_length, Hl, hex_decode_encode. done.
Qed.

(** The identifier answered by an accepted submission is accepted by the
    status query, which reports the attestation as processed under its
    canonical spelling. *)
Theorem settled_attestation_is_reported k ctx m w id w' : bridge_wf w ->
  bridge_deliver k ctx (BSubmit (Some m)) w = (Ok (RAttestation id), w') ->
  AttestationStatus (Some id) w' = (Ok (("0x" +:+ id)%string, true), w').
Proof.
  intros [a H] Hd. destruct (deliver_rule _ _ _ _ _ _ _ H Hd) as (a' & Hr & H').
  inversion Hr as [m' att c id' x amt lim rcp b digest l | | | | |]; subst.
  unfold AttestationStatus.
  match goal with Hid : Attestation_ID _ = Ok _ |- _ => apply Attestation_ID_length in Hid as Hlen end.
  rewrite (mbind_lift _ _ _ _ (ParseAttestationID_hex _ Hlen)).
  unfold IsProcessed. erewrite mbind_eq by (apply (store_Has_repr _ _ _ H'); auto with pos_chain).
  rewrite bool_decide_true by set_solver. done.
Qed.
End status.

Lemma settled_attestation_witness :
  AttestationStatus (Some ex_id) ex_world_in = (Ok (("0x" +:+ ex_id)%string, true), ex_world_in).
Proof.
  exact (settled_attestation_is_reported ex_keeper ex_ctx ex_submit ex_world1 ex_id ex_world_in
    ex_wf1 ex_settled).
Defined.
