(* ===== verification/SdkMsgs.v ===== *)
(** * Transactions as the ante handlers see them, and the authz limiter

    The message types that ante handlers of the repository distinguish, and
    ante/cosmos/authz.go and ante/cosmos/reject_msgs.go. *)

From Stdlib Require Import ZArith Lia List String Ascii Bool.
From stdpp Require Import base gmap strings list.
From S2P Require Import Prelude GoStrings Sdk.
Local Open Scope Z_scope.
Local Open Scope go_scope.

(** A message by its Go type.  [MsgExec] carries the result of [GetMessages],
    [MsgGrant] the type URL of its authorization. *)
Inductive SdkMsg :=
| MsgCreateValidator (ValidatorAddress : string) (Value : Coin)
| MsgUnjail (ValidatorAddr : string)
| MintMsgUpdateParams
| GovMsgSubmitProposal
| MsgExec (GetMessages : outcome (list SdkMsg))
| MsgGrant (GetAuthorization : outcome string)
| MsgEthereumTx
| OtherMsg (typeURL : string).

Definition MsgTypeURL (m : SdkMsg) : string :=
  match m with
  | MsgCreateValidator _ _ => "/cosmos.staking.v1beta1.MsgCreateValidator"
  | MsgUnjail _ => "/cosmos.slashing.v1beta1.MsgUnjail"
  | MintMsgUpdateParams => "/cosmos.mint.v1beta1.MsgUpdateParams"
  | GovMsgSubmitProposal => "/cosmos.gov.v1.MsgSubmitProposal"
  | MsgExec _ => "/cosmos.authz.v1beta1.MsgExec"
  | MsgGrant _ => "/cosmos.authz.v1beta1.MsgGrant"
  | MsgEthereumTx => "/cosmos.evm.vm.v1.MsgEthereumTx"
  | OtherMsg u => u
  end.

(** [sdk.Tx]: what the handlers read of it. *)
Abbreviation Tx := (list SdkMsg).
Definition AnteHandler : Type := Ctx -> Tx -> bool -> outcome Ctx.

(** ** reject_msgs.go *)

Definition is_ethereum (m : SdkMsg) : bool := match m with MsgEthereumTx => true | _ => false end.

Definition RejectMessages_AnteHandle (ctx : Ctx) (tx : Tx) (simulate : bool) (next : AnteHandler)
    : outcome Ctx :=
  if existsb is_ethereum tx then Err "MsgEthereumTx needs to be contained within a tx with 'ExtensionOptionsEthereumTx' option"
  else next ctx tx simulate.

(** ** authz.go *)

Definition maxNestedMsgs : Z := 7.

Section authz.
Variable disabledMsgTypes : list string.

Definition isDisabledMsg (url : string) : bool := existsb (fun d => String.eqb url d) disabledMsgTypes.

Definition disabled_error (url : string) : error := ("found disabled msg type: " +:+ url)%string.
Definition nested_error (lvl : Z) : error :=
  ("found more nested msgs than permitted; got: " +:+ FormatInt lvl +:+ ", expected: <7")%string.

(** One iteration of the loop of [checkDisabledMsgs]; the result is the value
    of the variable [nestedLvl] after it. *)
Fixpoint checkMsg (isAuthzInnerMsg : bool) (nestedLvl : Z) (msg : SdkMsg) : outcome Z :=
  match msg with
  | MsgExec r =>
    match r with
    | Ok innerMsgs =>
      let lvl := nestedLvl + 1 in
      if maxNestedMsgs <=? lvl then Err (nested_error lvl) else
      odo (fix loop (l : Z) (ms : list SdkMsg) : outcome Z :=
             match ms with
             | [] => Ok l
             | m :: ms' => olet l' <- checkMsg true l m; loop l' ms'
             end) lvl innerMsgs;
      Ok lvl
    | Err e => Err e
    | Panic p => Panic p
    end
  | MsgGrant r =>
    olet url <- r;
    odo oguard (negb (isDisabledMsg url)) (disabled_error url);
    Ok nestedLvl
  | _ =>
    let url := MsgTypeURL msg in
    odo oguard (negb (isAuthzInnerMsg && isDisabledMsg url)) (disabled_error url);
    Ok nestedLvl
  end.

Fixpoint checkMsgs (isAuthzInnerMsg : bool) (nestedLvl : Z) (msgs : list SdkMsg) : outcome Z :=
  match msgs with
  | [] => Ok nestedLvl
  | m :: ms => olet l <- checkMsg isAuthzInnerMsg nestedLvl m; checkMsgs isAuthzInnerMsg l ms
  end.

Definition checkDisabledMsgs (msgs : list SdkMsg) (isAuthzInnerMsg : bool) (nestedLvl : Z)
    : outcome unit :=
  if maxNestedMsgs <=? nestedLvl then Err (nested_error nestedLvl)
  else odo checkMsgs isAuthzInnerMsg nestedLvl msgs; Ok tt.

Definition AuthzLimiter_AnteHandle (ctx : Ctx) (tx : Tx) (simulate : bool) (next : AnteHandler)
    : outcome Ctx :=
  match checkDisabledMsgs tx false 1 with
  | Ok _ => next ctx tx simulate
  | Err e => Err (e +:+ ": unauthorized")%string
  | Panic p => Panic p
  end.

(** ** What an accepted transaction can contain *)

Lemma checkMsg_exec inner lvl ms :
  checkMsg inner lvl (MsgExec (Ok ms)) =
  if maxNestedMsgs <=? lvl + 1 then Err (nested_error (lvl + 1))
  else odo checkMsgs true (lvl + 1) ms; Ok (lvl + 1).
Proof.
  cbn [checkMsg]. case_match; [done|]. f_equal. generalize (lvl + 1). clear.
  induction ms as [|m ms IH]; intros l; [done|]. simpl. destruct (checkMsg true l m); [|done|done].
  apply IH.
Qed.

(** The messages reached from [m] by opening [MsgExec]s, with the number of
    [MsgExec]s opened on the way. *)
Inductive reaches : SdkMsg -> nat -> SdkMsg -> Prop :=
| reaches_here m : reaches m 0 m
| reaches_exec ms m1 n m : In m1 ms -> reaches m1 n m -> reaches (MsgExec (Ok ms)) (S n) m.

Lemma checkMsg_lvl inner lvl m lvl' : checkMsg inner lvl m = Ok lvl' -> lvl <= lvl'.
Proof.
  destruct m as [| | | |[ms|e|p]|[u|e|p]| |]; try done;
    try (simpl; intros H; minv; lia).
  rewrite checkMsg_exec. case_match; [done|]. intros H'. minv. lia.
Qed.

Lemma checkMsgs_In inner lvl ms lvl' m : checkMsgs inner lvl ms = Ok lvl' -> In m ms ->
  exists l l', lvl <= l /\ checkMsg inner l m = Ok l'.
Proof.
  revert lvl. induction ms as [|m' ms IH]; intros lvl H Hin; [done|]. simpl in H. minv.
  destruct Hin as [->|Hin]; [exists lvl, a; split; [lia|done]|].
  destruct (IH a H Hin) as (l & l' & Hl & Hc). exists l, l'. split; [|done].
  match goal with Hm : checkMsg _ lvl m' = Ok _ |- _ => apply checkMsg_lvl in Hm end. lia.
Qed.

Lemma checkMsg_reaches inner lvl m lvl' n m' : checkMsg inner lvl m = Ok lvl' -> reaches m n m' ->
  (n = O \/ lvl + Z.of_nat n < maxNestedMsgs) /\
  exists l l', checkMsg (match n with O => inner | _ => true end) l m' = Ok l'.
Proof.
  intros H Hr. revert inner lvl lvl' H. induction Hr as [m|ms m1 n m Hin Hr IH]; intros inner lvl lvl' H.
  { eauto. }
  rewrite checkMsg_exec in H. destruct (Z.leb_spec maxNestedMsgs (lvl + 1)) as [|Hlt]; [done|].
  minv. match goal with Hc : checkMsgs _ _ _ = Ok _ |- _ =>
    destruct (checkMsgs_In _ _ _ _ _ Hc Hin) as (l1 & l1' & Hl1 & Hc1) end.
  destruct (IH _ _ _ Hc1) as (Hn & l & l' & Hc'). split; [lia|]. exists l, l'. by destruct n.
Qed.

(** A message that is neither an [MsgExec] nor an [MsgGrant]. *)
Definition plain (m : SdkMsg) : bool :=
  match m with MsgExec _ | MsgGrant _ => false | _ => true end.

Lemma checkMsg_plain lvl m lvl' : checkMsg true lvl m = Ok lvl' -> plain m = true ->
  isDisabledMsg (MsgTypeURL m) = false.
Proof. destruct m; try done; simpl; intros H _; by minv. Qed.

Lemma checkMsg_grant inner lvl u lvl' : checkMsg inner lvl (MsgGrant (Ok u)) = Ok lvl' ->
  isDisabledMsg u = false.
Proof. simpl. intros H. by minv. Qed.

(** C40: What the authz limiter lets through: in a transaction it accepts,
    messages are nested at most five [MsgExec]s deep, no message of a disabled
    type is executed through [MsgExec] at any depth, and no [MsgGrant] at any
    depth grants a disabled type. [MsgExec] and [MsgGrant] themselves are looked
    into and not compared with the list: a list that names them only stops their
    types from being granted. *)
Theorem authz_limiter_sound tx m n m' :
  checkDisabledMsgs tx false 1 = Ok tt -> In m tx -> reaches m n m' ->
  (n <= 5)%nat /\
  (n <> O -> plain m' = true -> isDisabledMsg (MsgTypeURL m') = false) /\
  (forall u, m' = MsgGrant (Ok u) -> isDisabledMsg u = false).
Proof.
  unfold checkDisabledMsgs. simpl. intros H Hin Hr. minv.
  match goal with Hc : checkMsgs _ _ _ = Ok _ |- _ =>
    destruct (checkMsgs_In _ _ _ _ _ Hc Hin) as (l1 & l1' & Hl1 & Hc1) end.
  destruct (checkMsg_reaches _ _ _ _ _ _ Hc1 Hr) as (Hn & l & l' & Hc').
  unfold maxNestedMsgs in Hn. split_and!; [lia| |].
  - intros Hne Hp. destruct n; [done|]. by eapply checkMsg_plain.
  - intros u ->. by eapply checkMsg_grant.
Qed.
End authz.

(** The types disabled by [newCosmosAnteHandler] (ante/cosmos.go). *)
Definition default_disabled : list string :=
  ["/cosmos.evm.vm.v1.MsgEthereumTx"; "/cosmos.vesting.v1beta1.MsgCreateVestingAccount";
   "/cosmos.gov.v1.MsgSubmitProposal"].

Definition ex_nested (n : nat) (m : SdkMsg) : SdkMsg :=
  Nat.iter n (fun m => MsgExec (Ok [m])) m.

Lemma reaches_nested n m : reaches (ex_nested n m) n m.
Proof. induction n; simpl; econstructor; [by left|done]. Qed.

Lemma authz_limiter_witness :
  checkDisabledMsgs default_disabled [OtherMsg "/x"; ex_nested 5 (MsgUnjail "v")] false 1 = Ok tt /\
  isDisabledMsg default_disabled (MsgTypeURL (MsgUnjail "v")) = false.
Proof.
  split; [reflexivity|].
  refine (proj1 (proj2 (authz_limiter_sound default_disabled
    [OtherMsg "/x"; ex_nested 5 (MsgUnjail "v")] (ex_nested 5 (MsgUnjail "v")) 5 (MsgUnjail "v") _ _ _)) _ _);
    [reflexivity|right; left; reflexivity|apply reaches_nested|discriminate|reflexivity].
Defined.

(** Six [MsgExec]s deep is refused, and so are six of them side by side: the
    level is counted up for every [MsgExec] of the loop. *)
Lemma authz_limiter_siblings :
  is_ok (checkDisabledMsgs default_disabled [ex_nested 6 (MsgUnjail "v")] false 1) = false /\
  is_ok (checkDisabledMsgs default_disabled (repeat (MsgExec (Ok [])) 6) false 1) = false /\
  is_ok (checkDisabledMsgs default_disabled (repeat (MsgExec (Ok [])) 5) false 1) = true.
Proof. vm_compute. auto. Qed.
