(* ===== verification/Admission.v ===== *)
(** * x/validatoradmission: the allow-list of validators

    Keeper, message server, genesis and ante handler of the module.  The store
    is a map of bytes; the staking module is any implementation of
    [StakingOps]. *)

From Stdlib Require Import ZArith Lia List String Ascii Bool.
From stdpp Require Import base gmap strings list.
From S2P Require Import Prelude GoStrings GoJson Sdk SdkMsgs.
Local Open Scope Z_scope.
Local Open Scope go_scope.

(** ** types *)

Definition KeyAuthority : bytes := byte1 1.
Definition KeyApprovedValidatorPrefix : bytes := byte1 2.
Definition KeyMaxApprovedValidators : bytes := byte1 3.
Definition KeyMinimumSelfDelegation : bytes := byte1 4.

Definition DefaultMaxApprovedValidators : Z := 258.
Definition DefaultMinimumSelfDelegation : string := "5000000000000000000000000axtc".
Definition DefaultPolicy : Z * string :=
  (DefaultMaxApprovedValidators, DefaultMinimumSelfDelegation).

Record AdmGenesis := MkAdmGenesis {
  ag_Authority : string;
  ag_ApprovedValidators : list string;
  ag_MaxApprovedValidators : Z;       (* uint32 *)
  ag_MinimumSelfDelegation : string;
}.

Record MsgApproveValidator := MkMsgApprove { ma_Authority : string; ma_ValidatorAddress : string }.
Record MsgRevokeValidator := MkMsgRevoke { mv_Authority : string; mv_ValidatorAddress : string }.
Record AdmMsgUpdateParams := MkAdmMsgUpdateParams {
  mp_Authority : string; mp_MaxApprovedValidators : Z; mp_MinimumSelfDelegation : string }.

Section types.
Context {T : SdkTypes}.

Definition validatePolicyAmount (maxApproved : Z) (minimum : string) : outcome Coin :=
  odo oguard (negb (maxApproved =? 0)) "max approved validators must be greater than zero";
  olet coin <- owrap "invalid minimum self delegation" (ParseCoinNormalized minimum);
  odo oguard (Coin_IsValid coin && (0 <? Amount coin)) "minimum self delegation must be positive";
  Ok coin.

Definition ValidatePolicy (maxApproved : Z) (minimum : string) : outcome unit :=
  olet coin <- validatePolicyAmount maxApproved minimum;
  oguard (String.eqb (Denom coin) "axtc") "minimum self delegation must use axtc".

Definition ValidateGenesisPolicy (maxApproved : Z) (minimum : string) : outcome unit :=
  odo validatePolicyAmount maxApproved minimum; Ok tt.

Definition adm_DefaultGenesisState : AdmGenesis :=
  MkAdmGenesis EmptyString [] DefaultPolicy.1 DefaultPolicy.2.

Definition AdmGenesis_Policy (g : AdmGenesis) : Z * string :=
  (if ag_MaxApprovedValidators g =? 0 then DefaultPolicy.1 else ag_MaxApprovedValidators g,
   if String.eqb (ag_MinimumSelfDelegation g) EmptyString then DefaultPolicy.2
   else ag_MinimumSelfDelegation g).

(** The loop over the listed validators of [GenesisState.Validate]. *)
Fixpoint approved_loop (seen : gset string) (l : list string) : outcome unit :=
  match l with
  | [] => Ok tt
  | address :: l' =>
    let trimmed := TrimSpace address in
    odo oguard (negb (String.eqb trimmed EmptyString)) "approved validator address is empty";
    odo oguard (String.eqb trimmed address)
        "approved validator address contains surrounding spaces";
    odo owrap "invalid Xitcoin validator address" (ValAddressFromBech32 address);
    odo oguard (bool_decide (address ∉ seen)) ("approved validator listed twice: " +:+ address)%string;
    approved_loop ({[address]} ∪ seen) l'
  end.

Definition AdmGenesis_Validate (g : AdmGenesis) : outcome unit :=
  let authority := TrimSpace (ag_Authority g) in
  let n := Z.of_nat (length (ag_ApprovedValidators g)) in
  let '(maxApproved, minimum) := AdmGenesis_Policy g in
  if String.eqb authority EmptyString then
    odo oguard (n =? 0) "validator admission authority is required";
    ValidateGenesisPolicy maxApproved minimum
  else
    odo oguard (String.eqb authority (ag_Authority g))
        "validator admission authority contains surrounding spaces";
    odo owrap "invalid Xitcoin authority address" (AccAddressFromBech32 authority);
    odo ValidateGenesisPolicy maxApproved minimum;
    odo oguard (negb (maxApproved <? u32 n)) "approved validators exceed configured capacity";
    odo oguard (negb (n =? 0)) "at least one approved validator is required";
    approved_loop ∅ (ag_ApprovedValidators g).

Definition validateAuthorityAndValidator (authority validatorAddress : string) : outcome unit :=
  odo owrap "invalid Xitcoin authority address" (AccAddressFromBech32 authority);
  odo owrap "invalid Xitcoin validator address" (ValAddressFromBech32 validatorAddress);
  Ok tt.

Definition MsgApproveValidator_ValidateBasic (m : MsgApproveValidator) : outcome unit :=
  validateAuthorityAndValidator (ma_Authority m) (ma_ValidatorAddress m).
Definition MsgRevokeValidator_ValidateBasic (m : MsgRevokeValidator) : outcome unit :=
  validateAuthorityAndValidator (mv_Authority m) (mv_ValidatorAddress m).
Definition AdmMsgUpdateParams_ValidateBasic (m : AdmMsgUpdateParams) : outcome unit :=
  odo owrap "invalid Xitcoin authority address" (AccAddressFromBech32 (mp_Authority m));
  ValidatePolicy (mp_MaxApprovedValidators m) (mp_MinimumSelfDelegation m).
End types.

(** ** keeper.go: reads and writes of the store *)

Definition approvedKey (address : string) : bytes := (KeyApprovedValidatorPrefix +:+ address)%string.

Definition SetAuthority (authority : string) (kv : KVStore) : KVStore := <[KeyAuthority := authority]> kv.
Definition GetAuthority (kv : KVStore) : string := kv_get kv KeyAuthority.
Definition SetMaxApprovedValidators (v : Z) (kv : KVStore) : KVStore :=
  <[KeyMaxApprovedValidators := PutUint32 v]> kv.
Definition GetMaxApprovedValidators (kv : KVStore) : Z :=
  let value := kv_get kv KeyMaxApprovedValidators in
  if len value =? 4 then be_value value else DefaultPolicy.1.
Definition SetMinimumSelfDelegation (v : string) (kv : KVStore) : KVStore :=
  <[KeyMinimumSelfDelegation := v]> kv.
Definition GetMinimumSelfDelegation (kv : KVStore) : string :=
  let value := kv_get kv KeyMinimumSelfDelegation in
  if String.eqb value EmptyString then DefaultPolicy.2 else value.

Definition SetApprovedValidator (address : string) (approved : bool) (kv : KVStore) : KVStore :=
  if approved then <[approvedKey address := byte1 1]> kv else delete (approvedKey address) kv.
Definition IsApprovedValidator (kv : KVStore) (address : string) : bool :=
  kv_has kv (approvedKey (TrimSpace address)).

(** The addresses visited by the two loops over the approved validators. *)
Definition approved_list (kv : KVStore) : list string :=
  while_prefix KeyApprovedValidatorPrefix (Iterator kv KeyApprovedValidatorPrefix).

Definition ApprovedValidatorCount (kv : KVStore) : Z :=
  fold_left (fun count _ => u32 (count + 1))
    (approved_list kv) 0.

Definition adm_InitGenesis (state : AdmGenesis) (kv : KVStore) : KVStore :=
  let '(maxApproved, minimum) := AdmGenesis_Policy state in
  let kv := SetAuthority (ag_Authority state) kv in
  let kv := SetMaxApprovedValidators maxApproved kv in
  let kv := SetMinimumSelfDelegation minimum kv in
  fold_left (fun kv address => SetApprovedValidator address true kv)
    (ag_ApprovedValidators state) kv.

Definition adm_ExportGenesis (kv : KVStore) : AdmGenesis :=
  MkAdmGenesis (GetAuthority kv)
    (sort_Strings (approved_list kv))
    (GetMaxApprovedValidators kv) (GetMinimumSelfDelegation kv).

(** ** msg_server.go, grpc_query.go *)

Record AdmWorld (S : Type) := MkAdmWorld { adm_kv : KVStore; adm_staking : S }.
Arguments MkAdmWorld {S}.
Arguments adm_kv {S}.
Arguments adm_staking {S}.

Section server.
Context {T : SdkTypes} {S : Type} {St : StakingOps S}.
Abbreviation MA := (M (AdmWorld S)).

Definition adm_update (f : KVStore -> KVStore) : MA unit :=
  mmodify (fun w => MkAdmWorld (f (adm_kv w)) (adm_staking w)).
Definition adm_read {A} (f : KVStore -> A) : MA A := mreads (fun w => f (adm_kv w)).
Definition staking_Jail (cons : addr) : MA unit := fun w =>
  let '(r, s) := Jail cons (adm_staking w) in (r, MkAdmWorld (adm_kv w) s).

Definition adm_validateAuthority (ctx : Ctx) (authority : string) : MA unit :=
  let! want <- adm_read GetAuthority;
  mlift (ValidateAuthority ctx want authority).

Definition ApproveValidator (ctx : Ctx) (req : option MsgApproveValidator) : MA unit :=
  match req with
  | None => mfail "Validator Admission: empty approval request"
  | Some req =>
    do! adm_validateAuthority ctx (ma_Authority req);
    do! mlift (MsgApproveValidator_ValidateBasic req);
    let! approved <- adm_read (fun kv => IsApprovedValidator kv (ma_ValidatorAddress req));
    if approved : bool then mret tt else
    let! full <- adm_read (fun kv => GetMaxApprovedValidators kv <=? ApprovedValidatorCount kv);
    do! mguard (negb full) "Validator Admission: approved validator capacity reached";
    adm_update (SetApprovedValidator (ma_ValidatorAddress req) true)
  end.

Definition RevokeValidator (ctx : Ctx) (req : option MsgRevokeValidator) : MA unit :=
  match req with
  | None => mfail "Validator Admission: empty revocation request"
  | Some req =>
    do! adm_validateAuthority ctx (mv_Authority req);
    do! mlift (MsgRevokeValidator_ValidateBasic req);
    let! validatorAddress <- mlift (ValAddressFromBech32 (mv_ValidatorAddress req));
    do! adm_update (SetApprovedValidator (mv_ValidatorAddress req) false);
    let! found <- mreads (fun w => GetValidator (adm_staking w) validatorAddress);
    match found with
    | VNotFound => mret tt
    | VError e => mfail e
    | VFound validator =>
      if sv_jailed validator then mret tt else
      let! consensusAddress <- mlift (sv_consaddr validator);
      staking_Jail consensusAddress
    end
  end.

Definition adm_UpdateParams (ctx : Ctx) (req : option AdmMsgUpdateParams) : MA unit :=
  match req with
  | None => mfail "Validator Admission: empty policy update request"
  | Some req =>
    do! adm_validateAuthority ctx (mp_Authority req);
    do! mlift (AdmMsgUpdateParams_ValidateBasic req);
    let! count <- adm_read ApprovedValidatorCount;
    do! mguard (negb (mp_MaxApprovedValidators req <? count))
        "Validator Admission: capacity cannot be below approved validator count";
    do! adm_update (SetMaxApprovedValidators (mp_MaxApprovedValidators req));
    adm_update (SetMinimumSelfDelegation (mp_MinimumSelfDelegation req))
  end.

Inductive AdmMsg :=
| AApprove (m : option MsgApproveValidator)
| ARevoke (m : option MsgRevokeValidator)
| AUpdate (m : option AdmMsgUpdateParams).

Definition adm_handle (ctx : Ctx) (m : AdmMsg) : MA unit :=
  match m with
  | AApprove m => ApproveValidator ctx m
  | ARevoke m => RevokeValidator ctx m
  | AUpdate m => adm_UpdateParams ctx m
  end.
Definition adm_deliver (ctx : Ctx) (m : AdmMsg) : MA unit := atomically (adm_handle ctx m).

Definition adm_query_Params : MA (string * Z * string) :=
  adm_read (fun kv => (GetAuthority kv, GetMaxApprovedValidators kv, GetMinimumSelfDelegation kv)).

Definition adm_query_Validator (req : option string) : MA bool :=
  match req with
  | None => mfail "validator admission query request is required"
  | Some address =>
    do! mlift (owrap "invalid validator address" (ValAddressFromBech32 address));
    adm_read (fun kv => IsApprovedValidator kv address)
  end.

(** ** ante.go *)

Definition unapproved_error : error := "Validator Admission: validator is not approved by Xitcoin: unauthorized".

(** One iteration of the loop over the messages. *)
Definition admission_msg (kv : KVStore) (allowGovernance : bool) (m : SdkMsg) : outcome unit :=
  match m with
  | MsgCreateValidator address value =>
    odo oguard (IsApprovedValidator kv address) unapproved_error;
    match ParseCoinNormalized (GetMinimumSelfDelegation kv) with
    | Ok minimum =>
      oguard (negb (negb (String.eqb (Denom value) (Denom minimum)) || (Amount value <? Amount minimum)))
        ("Validator Admission: self delegation must be at least " +:+ Coin_String minimum
           +:+ ": unauthorized")%string
    | Err _ => Err "Validator Admission: invalid on-chain minimum self delegation: invalid request"
    | Panic p => Panic p
    end
  | MsgUnjail address =>
    oguard (IsApprovedValidator kv address)
      "Validator Admission: revoked validator cannot unjail: unauthorized"
  | MintMsgUpdateParams =>
    Err "Fixed monetary policy: Mint parameters cannot be changed: unauthorized"
  | GovMsgSubmitProposal =>
    oguard allowGovernance
      "Governance safeguards: executable on-chain proposals are disabled: unauthorized"
  | _ => Ok tt
  end.

Fixpoint admission_msgs (kv : KVStore) (allowGovernance : bool) (ms : list SdkMsg) : outcome unit :=
  match ms with
  | [] => Ok tt
  | m :: ms' => odo admission_msg kv allowGovernance m; admission_msgs kv allowGovernance ms'
  end.

Definition AdmissionAnteHandler (kv : KVStore) (next : AnteHandler) (allowGovernance : bool)
    : AnteHandler := fun ctx tx simulate =>
  odo admission_msgs kv allowGovernance tx; next ctx tx simulate.
End server.

(** ** module.go: JSON genesis *)

Definition AdmGenesis_json (g : AdmGenesis) : json :=
  JObj [("authority", JStr (ag_Authority g));
        ("approved_validators", JArr (map JStr (ag_ApprovedValidators g)));
        ("max_approved_validators", JNum (FormatInt (ag_MaxApprovedValidators g)));
        ("minimum_self_delegation", JStr (ag_MinimumSelfDelegation g))].

Definition AdmGenesis_member (g : AdmGenesis) (kv : string * json) : outcome AdmGenesis :=
  let '(MkAdmGenesis au l mx mn) := g in
  let '(key, v) := kv in
  if key_is "authority" key then olet s <- as_string au v; Ok (MkAdmGenesis s l mx mn)
  else if key_is "approved_validators" key then
    olet l' <- as_strings l v; Ok (MkAdmGenesis au l' mx mn)
  else if key_is "max_approved_validators" key then
    olet z <- as_uint two32 mx v; Ok (MkAdmGenesis au l z mn)
  else if key_is "minimum_self_delegation" key then
    olet s <- as_string mn v; Ok (MkAdmGenesis au l mx s)
  else Ok g.

Fixpoint AdmGenesis_members (g : AdmGenesis) (l : list (string * json)) : outcome AdmGenesis :=
  match l with
  | [] => Ok g
  | kv :: l' => olet g' <- AdmGenesis_member g kv; AdmGenesis_members g' l'
  end.

Definition AdmGenesis_Unmarshal (b : bytes) : outcome AdmGenesis :=
  let zero := MkAdmGenesis EmptyString [] 0 EmptyString in
  match Parse b with
  | Some (JObj l) => AdmGenesis_members zero l
  | Some JNull => Ok zero
  | Some _ => Err type_error
  | None => Err "invalid character in JSON input"
  end.

Section appmodule.
Context {T : SdkTypes}.

Definition adm_DefaultGenesis : bytes := Marshal (AdmGenesis_json adm_DefaultGenesisState).
Definition adm_ValidateGenesis (data : bytes) : outcome unit :=
  olet state <- owrap "invalid validator_admission genesis" (AdmGenesis_Unmarshal data);
  AdmGenesis_Validate state.

Definition as_panic {A} (m : outcome A) : outcome A :=
  match m with Err e => Panic ("invalid validator_admission genesis: " +:+ e)%string | r => r end.

Definition adm_module_InitGenesis (data : bytes) (kv : KVStore) : outcome KVStore :=
  olet state <- as_panic (AdmGenesis_Unmarshal data);
  odo as_panic (AdmGenesis_Validate state);
  Ok (adm_InitGenesis state kv).

Definition adm_module_ExportGenesis (kv : KVStore) : bytes :=
  Marshal (AdmGenesis_json (adm_ExportGenesis kv)).
End appmodule.
