(* ===== verification/AdmissionTheorems.v ===== *)
(** * x/validatoradmission: theorems

    The capacity invariant, the effect of approval and revocation, who can
    change the policy, what the ante handler lets through, and genesis. *)

From Stdlib Require Import ZArith Lia List String Ascii Bool.
From stdpp Require Import base gmap strings list.
From S2P Require Import Prelude GoStrings GoJson Sdk RefEnv SdkMsgs Admission.
Local Open Scope Z_scope.
Local Open Scope go_scope.

Ltac head_neq :=
  let H := fresh in intros H; apply (f_equal (String.get 0)) in H; discriminate H.

(** ** The approved set *)

Section store.
Implicit Types (kv : KVStore) (a : string).

Definition is_approved kv a : Prop := is_Some (kv !! approvedKey a).

Lemma approved_list_elem kv a : a ∈ approved_list kv <-> is_approved kv a.
Proof. apply visited_elem. Qed.

Lemma approved_list_NoDup kv : NoDup (approved_list kv).
Proof. apply visited_NoDup. Qed.

Lemma count_loop (l : list string) c :
  fold_left (fun count _ => u32 (count + 1)) l (u32 c) = u32 (c + Z.of_nat (length l)).
Proof.
  revert c. induction l as [|x l IH]; intros c; simpl; [f_equal; lia|].
  unfold u32 at 2 3. rewrite Z.add_mod_idemp_l by done. fold (u32 (c + 1)). rewrite IH. f_equal. lia.
Qed.

(** The loop counts the approved validators (in 32 bits). *)
Lemma count_length kv : ApprovedValidatorCount kv = u32 (Z.of_nat (length (approved_list kv))).
Proof. exact (count_loop (approved_list kv) 0). Qed.

Lemma approvedKey_inj a a' : approvedKey a = approvedKey a' -> a = a'.
Proof. apply string_app_inj_l. Qed.

Lemma is_approved_set kv a b a' :
  is_approved (SetApprovedValidator a b kv) a' <-> (if b then a' = a \/ is_approved kv a' else a' <> a /\ is_approved kv a').
Proof.
  unfold is_approved, SetApprovedValidator. destruct b; simpl.
  - destruct (decide (a' = a)) as [->|Hne].
    + rewrite lookup_insert_eq. split; eauto.
    + rewrite lookup_insert_ne by (intros H; by apply approvedKey_inj in H). naive_solver.
  - destruct (decide (a' = a)) as [->|Hne].
    + rewrite lookup_delete_eq. split; [by intros []|naive_solver].
    + rewrite lookup_delete_ne by (intros H; by apply approvedKey_inj in H). naive_solver.
Qed.

Lemma IsApprovedValidator_spec kv a : TrimSpace a = a ->
  IsApprovedValidator kv a = true <-> is_approved kv a.
Proof. intros Ht. unfold IsApprovedValidator, kv_has. rewrite Ht. apply bool_decide_eq_true. Qed.

Lemma approved_same kv kv' : (forall a, is_approved kv' a <-> is_approved kv a) ->
  approved_list kv' ≡ₚ approved_list kv.
Proof.
  intros H. apply NoDup_Permutation; try apply approved_list_NoDup.
  intros a. by rewrite !approved_list_elem.
Qed.

Lemma approved_added kv a : ~ is_approved kv a ->
  approved_list (SetApprovedValidator a true kv) ≡ₚ a :: approved_list kv.
Proof.
  intros Hn. apply NoDup_Permutation; [apply approved_list_NoDup| |].
  - constructor; [by rewrite approved_list_elem|apply approved_list_NoDup].
  - intros x. rewrite elem_of_cons, !approved_list_elem, is_approved_set. done.
Qed.

Lemma approved_removed kv a :
  (length (approved_list (SetApprovedValidator a false kv)) <= length (approved_list kv))%nat.
Proof.
  apply submseteq_length, NoDup_submseteq; [apply approved_list_NoDup|].
  intros x. rewrite !approved_list_elem, is_approved_set. naive_solver.
Qed.

(** ** Reading back what was written *)

Lemma GetMax_range kv : is_u32 (GetMaxApprovedValidators kv).
Proof.
  unfold GetMaxApprovedValidators. destruct (Z.eqb_spec (len (kv_get kv KeyMaxApprovedValidators)) 4) as [Hl|_].
  - split; [apply be_value_nonneg|]. eapply Z.lt_le_trans; [apply be_value_bound|].
    unfold len in Hl. assert (String.length (kv_get kv KeyMaxApprovedValidators) = 4%nat) as -> by lia.
    done.
  - unfold is_u32, two32. simpl. unfold DefaultMaxApprovedValidators. lia.
Qed.

Lemma GetMax_set kv v : is_u32 v -> GetMaxApprovedValidators (SetMaxApprovedValidators v kv) = v.
Proof.
  intros Hv. unfold GetMaxApprovedValidators, SetMaxApprovedValidators, kv_get.
  rewrite lookup_insert_eq. cbn [from_option id]. unfold len. rewrite PutUint32_length.
  rewrite Uint32_PutUint32. by apply u32_small.
Qed.

(** The policy and the authority have keys of their own. *)
Lemma GetMax_approved kv a b :
  GetMaxApprovedValidators (SetApprovedValidator a b kv) = GetMaxApprovedValidators kv.
Proof.
  unfold GetMaxApprovedValidators, SetApprovedValidator, kv_get.
  destruct b; rewrite ?lookup_insert_ne, ?lookup_delete_ne by head_neq; done.
Qed.
Lemma GetAuthority_approved kv a b : GetAuthority (SetApprovedValidator a b kv) = GetAuthority kv.
Proof.
  unfold GetAuthority, SetApprovedValidator, kv_get.
  destruct b; rewrite ?lookup_insert_ne, ?lookup_delete_ne by head_neq; done.
Qed.
Lemma GetMin_approved kv a b :
  GetMinimumSelfDelegation (SetApprovedValidator a b kv) = GetMinimumSelfDelegation kv.
Proof.
  unfold GetMinimumSelfDelegation, SetApprovedValidator, kv_get.
  destruct b; rewrite ?lookup_insert_ne, ?lookup_delete_ne by head_neq; done.
Qed.

(** ** Capacity *)

Definition within_capacity kv : Prop :=
  Z.of_nat (length (approved_list kv)) <= GetMaxApprovedValidators kv.

Lemma count_exact kv : within_capacity kv ->
  ApprovedValidatorCount kv = Z.of_nat (length (approved_list kv)).
Proof.
  intros H. rewrite count_length. apply u32_small. pose proof (GetMax_range kv) as Hr.
  unfold within_capacity, is_u32 in *. lia.
Qed.
End store.

(** ** Messages *)

Section server.
Context {T : SdkTypes} {S : Type} {St : StakingOps S}.
Implicit Types (w : AdmWorld S) (ctx : Ctx).

Definition msg_authority (m : AdmMsg) : option string :=
  match m with
  | AApprove (Some m) => Some (ma_Authority m)
  | ARevoke (Some m) => Some (mv_Authority m)
  | AUpdate (Some m) => Some (mp_Authority m)
  | _ => None
  end.

(** The address whose messages [sdk.ValidateAuthority] accepts. *)
Definition effective_authority ctx (kv : KVStore) : string :=
  if String.eqb (ConsensusAuthority ctx) EmptyString then GetAuthority kv else ConsensusAuthority ctx.

Lemma validateAuthority_Ok ctx au w u w' : adm_validateAuthority ctx au w = (Ok u, w') ->
  au = effective_authority ctx (adm_kv w) /\ w' = w.
Proof.
  unfold adm_validateAuthority, adm_read. intros H. minv. destruct u.
  split; [|done]. by apply ValidateAuthority_spec.
Qed.

(** Unfolds a handler that succeeded into what it checked. *)
Ltac adm_inv H :=
  unfold ApproveValidator, RevokeValidator, adm_UpdateParams, MsgApproveValidator_ValidateBasic,
    MsgRevokeValidator_ValidateBasic, validateAuthorityAndValidator, AdmMsgUpdateParams_ValidateBasic,
    adm_read, adm_update in H;
  minv;
  repeat match goal with
  | H' : adm_validateAuthority _ _ _ = (Ok _, _) |- _ =>
      apply validateAuthority_Ok in H' as [? ->]
  end.

Lemma approve_inv ctx m w w' : adm_handle ctx (AApprove m) w = (Ok tt, w') ->
  exists req v, m = Some req /\ ma_Authority req = effective_authority ctx (adm_kv w) /\
    ValAddressFromBech32 (ma_ValidatorAddress req) = Ok v /\
    ((is_approved (adm_kv w) (ma_ValidatorAddress req) /\ w' = w) \/
     (~ is_approved (adm_kv w) (ma_ValidatorAddress req) /\
      ApprovedValidatorCount (adm_kv w) < GetMaxApprovedValidators (adm_kv w) /\
      w' = MkAdmWorld (SetApprovedValidator (ma_ValidatorAddress req) true (adm_kv w)) (adm_staking w))).
Proof.
  simpl. destruct m as [req|]; intros H; [|discriminate H]. adm_inv H.
  match goal with Hv : ValAddressFromBech32 _ = Ok ?v |- _ => exists req, v;
    pose proof (visible_TrimSpace _ (ValAddressFromBech32_visible _ _ Hv)) as Ht end.
  split_and!; try done. pose proof (IsApprovedValidator_spec (adm_kv w) _ Ht) as Hi.
  destruct (IsApprovedValidator (adm_kv w) (ma_ValidatorAddress req)); minv.
  - left. split; [by apply Hi|done].
  - right. zify_bool. split_and!; [intros Ha%Hi; done|lia|done].
Qed.

Lemma revoke_inv ctx m w w' : adm_handle ctx (ARevoke m) w = (Ok tt, w') ->
  exists req v, m = Some req /\ mv_Authority req = effective_authority ctx (adm_kv w) /\
    ValAddressFromBech32 (mv_ValidatorAddress req) = Ok v /\
    adm_kv w' = SetApprovedValidator (mv_ValidatorAddress req) false (adm_kv w) /\
    match GetValidator (adm_staking w) v with
    | VNotFound => adm_staking w' = adm_staking w
    | VError _ => False
    | VFound val =>
      if sv_jailed val then adm_staking w' = adm_staking w
      else exists cons, sv_consaddr val = Ok cons /\
             Jail cons (adm_staking w) = (Ok tt, adm_staking w')
    end.
Proof.
  simpl. destruct m as [req|]; intros H; [|discriminate H]. adm_inv H.
  match goal with Hv : ValAddressFromBech32 _ = Ok ?v, Hr : context [GetValidator _ ?v] |- _ =>
    exists req, v end.
  simpl in *. split_and!; try congruence.
  - destruct (GetValidator _ _) as [val| |e]; minv; [|done].
    destruct (sv_jailed val); minv; [done|].
    unfold staking_Jail in H. simpl in H. destruct (Jail _ _) as [r s]. by injection H as -> <-.
  - destruct (GetValidator _ _) as [val| |e]; minv; [|done].
    destruct (sv_jailed val); minv; [done|].
    unfold staking_Jail in H. simpl in H. destruct (Jail _ _) as [r s] eqn:Ej.
    injection H as -> <-. simpl. eauto.
Qed.

Lemma update_inv ctx m w w' : adm_handle ctx (AUpdate m) w = (Ok tt, w') ->
  exists req, m = Some req /\ mp_Authority req = effective_authority ctx (adm_kv w) /\
    ValidatePolicy (mp_MaxApprovedValidators req) (mp_MinimumSelfDelegation req) = Ok tt /\
    ApprovedValidatorCount (adm_kv w) <= mp_MaxApprovedValidators req /\
    w' = MkAdmWorld (SetMinimumSelfDelegation (mp_MinimumSelfDelegation req)
           (SetMaxApprovedValidators (mp_MaxApprovedValidators req) (adm_kv w))) (adm_staking w).
Proof.
  simpl. destruct m as [req|]; intros H; [|discriminate H]. adm_inv H.
  exists req. zify_bool. repeat match goal with u : unit |- _ => destruct u end. by split_and!.
Qed.

(** ** Runs *)

Inductive AdmStep :=
| ATx (ctx : Ctx) (m : AdmMsg)
| AStaking (f : S -> S).           (* anything the staking module does in between *)

Definition adm_step (w : AdmWorld S) (s : AdmStep) : AdmWorld S :=
  match s with
  | ATx ctx m => (adm_deliver ctx m w).2
  | AStaking f => MkAdmWorld (adm_kv w) (f (adm_staking w))
  end.
Definition adm_run (w : AdmWorld S) (l : list AdmStep) : AdmWorld S := fold_left adm_step l w.

(** Message fields hold values of their Go types. *)
Definition typed (s : AdmStep) : Prop :=
  match s with
  | ATx _ (AUpdate (Some m)) => is_u32 (mp_MaxApprovedValidators m)
  | _ => True
  end.

Lemma deliver_cases ctx m w :
  (exists w', adm_handle ctx m w = (Ok tt, w') /\ (adm_deliver ctx m w).2 = w') \/
  (adm_deliver ctx m w).2 = w.
Proof.
  unfold adm_deliver. destruct (atomically_cases (adm_handle ctx m) w) as [([] & w' & H & ->)|[_ H]];
    [left|by right]. eauto.
Qed.

Lemma step_capacity w s : typed s -> within_capacity (adm_kv w) -> within_capacity (adm_kv (adm_step w s)).
Proof.
  intros Ht Hc. destruct s as [ctx m|f]; [|done]. simpl.
  destruct (deliver_cases ctx m w) as [(w' & H & ->)| ->]; [|done].
  pose proof (count_exact _ Hc) as Hn. unfold within_capacity in *. destruct m as [m|m|m].
  - apply approve_inv in H as (req & v & -> & _ & _ & [[_ ->]|(Ha & Hlt & ->)]); [done|]. cbn [adm_kv].
    rewrite GetMax_approved.
    rewrite (Permutation_length (approved_added _ _ Ha)). simpl. lia.
  - apply revoke_inv in H as (req & v & -> & _ & _ & -> & _).
    rewrite GetMax_approved.
    pose proof (approved_removed (adm_kv w) (mv_ValidatorAddress req)). lia.
  - apply update_inv in H as (req & -> & _ & _ & Hle & ->). simpl in *.
    assert (GetMaxApprovedValidators (SetMinimumSelfDelegation (mp_MinimumSelfDelegation req)
              (SetMaxApprovedValidators (mp_MaxApprovedValidators req) (adm_kv w)))
            = mp_MaxApprovedValidators req) as ->.
    { rewrite <- (GetMax_set (adm_kv w) (mp_MaxApprovedValidators req) Ht) at 2.
      unfold GetMaxApprovedValidators, SetMinimumSelfDelegation, kv_get.
      by rewrite lookup_insert_ne by head_neq. }
    erewrite Permutation_length; [|apply (approved_same (adm_kv w))]; [lia|].
    intros a. unfold is_approved, SetMinimumSelfDelegation, SetMaxApprovedValidators.
    by rewrite !lookup_insert_ne by head_neq.
Qed.

Lemma run_capacity w l : Forall typed l -> within_capacity (adm_kv w) ->
  within_capacity (adm_kv (adm_run w l)).
Proof.
  intros Ht. revert w. induction Ht as [|s l Hs _ IH]; intros w Hc; [done|].
  apply IH. by apply step_capacity.
Qed.

(** The number of approved validators never exceeds the configured
    capacity: the invariant survives every sequence of messages, whatever the
    staking module does in between, and the 32-bit counter then is the exact
    number of approved addresses. *)
Theorem capacity_never_exceeded w l : Forall typed l -> within_capacity (adm_kv w) ->
  let kv := adm_kv (adm_run w l) in
  within_capacity kv /\ ApprovedValidatorCount kv = Z.of_nat (length (approved_list kv)) /\
  NoDup (approved_list kv) /\
  forall a, a ∈ approved_list kv <-> is_approved kv a.
Proof.
  intros Ht Hc kv. assert (within_capacity kv) as Hk by by apply run_capacity.
  split_and!; [done|by apply count_exact|apply approved_list_NoDup|apply approved_list_elem].
Qed.

(** Only the authority changes the allow-list or the policy: a message
    that changes the state carries the authority of the chain, and no message
    ever changes the stored authority. *)
Theorem only_authority_changes ctx m w : (adm_deliver ctx m w).2 <> w ->
  msg_authority m = Some (effective_authority ctx (adm_kv w)) /\
  GetAuthority (adm_kv (adm_deliver ctx m w).2) = GetAuthority (adm_kv w).
Proof.
  intros Hne. destruct (deliver_cases ctx m w) as [(w' & H & Hd)|Hd]; [|done]. rewrite Hd in *.
  destruct m as [m|m|m].
  - apply approve_inv in H as (req & v & -> & Hau & _ & [[_ ->]|(_ & _ & ->)]); [done|].
    cbn [adm_kv msg_authority]. rewrite Hau. by rewrite GetAuthority_approved.
  - apply revoke_inv in H as (req & v & -> & Hau & _ & -> & _). cbn [msg_authority]. rewrite Hau. by rewrite GetAuthority_approved.
  - apply update_inv in H as (req & -> & Hau & _ & _ & ->). simpl. rewrite Hau. split; [done|].
    unfold GetAuthority, SetMinimumSelfDelegation, SetMaxApprovedValidators, kv_get.
    by rewrite !lookup_insert_ne by head_neq.
Qed.

(** Revocation takes effect at once and on nobody else: after a successful
    revocation the address is not approved, every other address is approved as
    before, and the validator, if it exists, is jailed. *)
Theorem revocation_effect `{!StakingLaws S} ctx req w w' :
  adm_deliver ctx (ARevoke (Some req)) w = (Ok tt, w') ->
  IsApprovedValidator (adm_kv w') (mv_ValidatorAddress req) = false /\
  (forall a, a <> mv_ValidatorAddress req -> is_approved (adm_kv w') a <-> is_approved (adm_kv w) a) /\
  exists v, ValAddressFromBech32 (mv_ValidatorAddress req) = Ok v /\
    match GetValidator (adm_staking w) v with
    | VFound _ => exists val', GetValidator (adm_staking w') v = VFound val' /\ sv_jailed val' = true
    | VNotFound => GetValidator (adm_staking w') v = VNotFound
    | VError _ => False
    end.
Proof.
  unfold adm_deliver. intros H. apply atomically_Ok, revoke_inv in H as (r & v & [= <-] & _ & Hv & -> & Hst).
  pose proof (visible_TrimSpace _ (ValAddressFromBech32_visible _ _ Hv)) as Ht. split_and!.
  - destruct (IsApprovedValidator _ _) eqn:Ei; [|done].
    apply IsApprovedValidator_spec, is_approved_set in Ei; [|done]. naive_solver.
  - intros a Ha. rewrite is_approved_set. naive_solver.
  - exists v. split; [done|]. destruct (GetValidator (adm_staking w) v) as [val| |e] eqn:Eg; [|congruence|done].
    destruct (sv_jailed val) eqn:Ej; [rewrite Hst; eauto|].
    destruct Hst as (cons & Hc & HJ). rewrite (Jail_ok _ _ _ _ _ HJ Eg).
    rewrite bool_decide_true by done. eauto.
Qed.

(** ** The ante handler *)

(** The rule for one message of a transaction. *)
Definition admitted (kv : KVStore) (allowGovernance : bool) (m : SdkMsg) : Prop :=
  match m with
  | MsgCreateValidator a v =>
    IsApprovedValidator kv a = true /\
    exists minimum, ParseCoinNormalized (GetMinimumSelfDelegation kv) = Ok minimum /\
      Denom v = Denom minimum /\ Amount minimum <= Amount v
  | MsgUnjail a => IsApprovedValidator kv a = true
  | MintMsgUpdateParams => False
  | GovMsgSubmitProposal => allowGovernance = true
  | _ => True
  end.

Lemma admission_msg_Ok kv gov m : admission_msg kv gov m = Ok tt <-> admitted kv gov m.
Proof.
  destruct m; simpl; try rewrite oguard_Ok; try done. split.
  - intros H. minv. destruct (ParseCoinNormalized _) as [c|e|p]; [|done|done]. minv. zify_bool. eauto.
  - intros (-> & c & -> & Hd & Ha). simpl.
    by rewrite (proj2 (String.eqb_eq _ _) Hd), (proj2 (Z.ltb_ge _ _) Ha).
Qed.

(** The admission ante handler passes a transaction on exactly when every
    message in it obeys its rule: validators are created only by approved
    addresses with the minimum self delegation in the right denomination, only
    approved validators unjail, mint parameters are never changed, and
    proposals need the governance switch; otherwise the inner handler is not
    reached. *)
Theorem admission_ante_exact kv gov next ctx tx sim :
  (Forall (admitted kv gov) tx -> AdmissionAnteHandler kv next gov ctx tx sim = next ctx tx sim) /\
  (is_ok (AdmissionAnteHandler kv next gov ctx tx sim) = true -> Forall (admitted kv gov) tx).
Proof.
  unfold AdmissionAnteHandler.
  assert (admission_msgs kv gov tx = Ok tt <-> Forall (admitted kv gov) tx) as Hm.
  { induction tx as [|m tx IH]; [by split|]. simpl. rewrite obind_Ok, Forall_cons, <- IH, <- admission_msg_Ok.
    split; [intros ([] & ? & ?)|intros [? ?]; exists tt]; done. }
  split.
  - intros Hf. by rewrite (proj2 Hm Hf).
  - intros Hok. apply Hm. destruct (admission_msgs kv gov tx) as [[]|e|p]; done.
Qed.

(** The ante handler looks at the top level only: a transaction whose
    [MsgExec] wraps a validator creation, an unjailing or a change of the mint
    parameters passes it for every store, and passes the authz limiter with the
    disabled types of the application. *)
Theorem admission_bypassed_by_exec kv gov next ctx m sim :
  (exists a v, m = MsgCreateValidator a v) \/ (exists a, m = MsgUnjail a) \/ m = MintMsgUpdateParams ->
  let tx := [MsgExec (Ok [m])] in
  AdmissionAnteHandler kv next gov ctx tx sim = next ctx tx sim /\
  AuthzLimiter_AnteHandle default_disabled ctx tx sim next = next ctx tx sim.
Proof. intros [(a & v & ->)|[(a & ->)| ->]]; done. Qed.

End server.

(** ** Genesis *)

Section genesis.
Context {T : SdkTypes}.
Implicit Types (kv : KVStore) (g : AdmGenesis).

Lemma approved_loop_visible seen l : approved_loop seen l = Ok tt ->
  Forall (fun a => visible_text a = true) l.
Proof.
  revert seen. induction l as [|a l IH]; intros seen H; [constructor|]. simpl in H. minv.
  constructor; [by eapply ValAddressFromBech32_visible|]. by eapply IH.
Qed.

Lemma validatePolicyAmount_ascii mx mn c : validatePolicyAmount mx mn = Ok c -> is_ascii mn = true.
Proof. unfold validatePolicyAmount. intros H. minv. by eapply ParseCoinNormalized_ascii. Qed.

Lemma AdmGenesis_Validate_inv g : AdmGenesis_Validate g = Ok tt ->
  utf8_valid (ag_Authority g) = true /\ is_ascii (ag_MinimumSelfDelegation g) = true /\
  Forall (fun a => visible_text a = true) (ag_ApprovedValidators g).
Proof.
  unfold AdmGenesis_Validate, AdmGenesis_Policy, ValidateGenesisPolicy. intros H.
  destruct (String.eqb_spec (TrimSpace (ag_Authority g)) EmptyString) as [He|Hne]; minv; zify_bool.
  - split_and!.
    + apply TrimSpace_ascii_valid. by rewrite He.
    + destruct (String.eqb_spec (ag_MinimumSelfDelegation g) EmptyString) as [->|]; [done|].
      by eapply validatePolicyAmount_ascii.
    + destruct (ag_ApprovedValidators g); [constructor|simpl in *; lia].
  - split_and!; [|destruct (String.eqb_spec (ag_MinimumSelfDelegation g) EmptyString) as [->|]; [done|];
      by eapply validatePolicyAmount_ascii|by eapply approved_loop_visible].
    match goal with Ha : AccAddressFromBech32 _ = Ok _, Ht : TrimSpace _ = _ |- _ =>
      rewrite Ht in Ha; apply AccAddressFromBech32_visible in Ha end.
    by apply utf8_valid_ascii, visible_ascii.
Qed.

Lemma AdmGenesis_members_json au l mx mn : is_u32 mx ->
  AdmGenesis_members (MkAdmGenesis EmptyString [] 0 EmptyString)
    [("authority", JStr au); ("approved_validators", JArr (map JStr l));
     ("max_approved_validators", JNum (FormatInt mx)); ("minimum_self_delegation", JStr mn)]
  = Ok (MkAdmGenesis au l mx mn).
Proof.
  intros Hmx.
  assert (AdmGenesis_member (MkAdmGenesis au [] 0 EmptyString)
            ("approved_validators", JArr (map JStr l)) = Ok (MkAdmGenesis au l 0 EmptyString)) as H1.
  { transitivity (obind (as_strings [] (JArr (map JStr l)))
      (fun l' => Ok (MkAdmGenesis au l' 0 EmptyString))); [reflexivity|by rewrite as_strings_map]. }
  assert (AdmGenesis_member (MkAdmGenesis au l 0 EmptyString)
            ("max_approved_validators", JNum (FormatInt mx)) = Ok (MkAdmGenesis au l mx EmptyString)) as H2.
  { transitivity (obind (as_uint two32 0 (JNum (FormatInt mx)))
      (fun z => Ok (MkAdmGenesis au l z EmptyString))); [reflexivity|by rewrite as_uint_FormatInt]. }
  cbn [AdmGenesis_members].
  change (AdmGenesis_member _ ("authority", JStr au)) with (Ok (MkAdmGenesis au [] 0 EmptyString)).
  cbn [obind]. rewrite H1. cbn [obind]. rewrite H2. reflexivity.
Qed.

Lemma AdmGenesis_roundtrip g :
  utf8_valid (ag_Authority g) = true -> is_ascii (ag_MinimumSelfDelegation g) = true ->
  Forall (fun a => visible_text a = true) (ag_ApprovedValidators g) ->
  is_u32 (ag_MaxApprovedValidators g) ->
  AdmGenesis_Unmarshal (Marshal (AdmGenesis_json g)) = Ok g.
Proof.
  intros Ha Hm Hv Hr. unfold AdmGenesis_Unmarshal. rewrite Parse_Marshal.
  - destruct g as [au l mx mn]. by apply AdmGenesis_members_json.
  - constructor. repeat (apply List.Forall_cons; [split; [reflexivity|]|]); [..|apply List.Forall_nil]; simpl.
    + by constructor.
    + constructor. rewrite List.Forall_map. eapply List.Forall_impl; [|exact Hv].
      intros x Hx. constructor. by apply utf8_valid_ascii, visible_ascii.
    + constructor. apply Hr.
    + constructor. by apply utf8_valid_ascii.
Qed.

Lemma fold_approved l kv a :
  is_approved (fold_left (fun kv address => SetApprovedValidator address true kv) l kv) a <->
  a ∈ l \/ is_approved kv a.
Proof.
  revert kv. induction l as [|x l IH]; intros kv; simpl; [set_solver|].
  rewrite IH, elem_of_cons. rewrite (is_approved_set kv x true a). naive_solver.
Qed.

Lemma fold_approved_policy l kv :
  let kv' := fold_left (fun kv address => SetApprovedValidator address true kv) l kv in
  GetAuthority kv' = GetAuthority kv /\ GetMaxApprovedValidators kv' = GetMaxApprovedValidators kv /\
  GetMinimumSelfDelegation kv' = GetMinimumSelfDelegation kv.
Proof.
  revert kv. induction l as [|x l IH]; intros kv; simpl; [done|].
  destruct (IH (SetApprovedValidator x true kv)) as (H1 & H2 & H3).
  rewrite GetAuthority_approved, GetMax_approved, GetMin_approved in *. auto.
Qed.

Lemma GetMin_nonempty kv : GetMinimumSelfDelegation kv <> EmptyString.
Proof. unfold GetMinimumSelfDelegation. case_match; [done|]. by apply String.eqb_neq. Qed.

(** A state that is a valid genesis survives export and import: the JSON
    written by the export is accepted by the import, and the new store has the
    same authority, capacity, minimum self delegation and approved validators. *)
Theorem admission_genesis_roundtrip kv : AdmGenesis_Validate (adm_ExportGenesis kv) = Ok tt ->
  0 < GetMaxApprovedValidators kv ->
  exists kv', adm_module_InitGenesis (adm_module_ExportGenesis kv) ∅ = Ok kv' /\
    GetAuthority kv' = GetAuthority kv /\
    GetMaxApprovedValidators kv' = GetMaxApprovedValidators kv /\
    GetMinimumSelfDelegation kv' = GetMinimumSelfDelegation kv /\
    forall a, is_approved kv' a <-> is_approved kv a.
Proof.
  intros Hv Hmax. unfold adm_module_InitGenesis, adm_module_ExportGenesis.
  destruct (AdmGenesis_Validate_inv _ Hv) as (Ha & Hm & Hl).
  rewrite AdmGenesis_roundtrip by (done || apply GetMax_range). simpl. rewrite Hv.
  eexists. split; [reflexivity|]. unfold adm_InitGenesis, AdmGenesis_Policy, adm_ExportGenesis.
  cbn [ag_Authority ag_ApprovedValidators ag_MaxApprovedValidators ag_MinimumSelfDelegation].
  rewrite (proj2 (Z.eqb_neq _ 0)) by lia.
  rewrite (proj2 (String.eqb_neq _ _) (GetMin_nonempty kv)).
  match goal with |- GetAuthority (fold_left _ ?l ?kv0) = _ /\ _ =>
    destruct (fold_approved_policy l kv0) as (H1 & H2 & H3) end.
  rewrite H1, H2, H3. split_and!.
  - done.
  - rewrite <- (GetMax_set (SetAuthority (GetAuthority kv) ∅) _ (GetMax_range kv)) at 2.
    unfold GetMaxApprovedValidators, SetMinimumSelfDelegation, kv_get.
    by rewrite lookup_insert_ne by head_neq.
  - unfold GetMinimumSelfDelegation at 1, SetMinimumSelfDelegation, kv_get. rewrite lookup_insert_eq. simpl.
    by rewrite (proj2 (String.eqb_neq _ _) (GetMin_nonempty kv)).
  - intros a. rewrite fold_approved, (sort_Strings_perm _), approved_list_elem.
    unfold is_approved at 2, SetMinimumSelfDelegation, SetMaxApprovedValidators, SetAuthority.
    rewrite !lookup_insert_ne by head_neq. rewrite lookup_empty.
    split; [intros [?|[]]; done|auto].
Qed.

(** When the last approved validator has been revoked the exported state
    cannot be imported: with an authority and no approved validator, the import
    of the export panics. *)
Theorem admission_genesis_needs_validator kv au : AccAddressFromBech32 (GetAuthority kv) = Ok au ->
  is_ok (ValidateGenesisPolicy (GetMaxApprovedValidators kv) (GetMinimumSelfDelegation kv)) = true ->
  (forall a, ~ is_approved kv a) ->
  exists e, adm_module_InitGenesis (adm_module_ExportGenesis kv) ∅ = Panic e.
Proof.
  intros Hau Hp Hno. pose proof (AccAddressFromBech32_visible _ _ Hau) as Hvis.
  assert (approved_list kv = []) as Hnil.
  { destruct (approved_list kv) as [|a l] eqn:El; [done|]. exfalso. apply (Hno a).
    apply approved_list_elem. rewrite El. set_solver. }
  assert (is_ascii (GetMinimumSelfDelegation kv) = true) as Hmin.
  { unfold ValidateGenesisPolicy in Hp. apply is_ok_Ok in Hp as [u Hp]. minv.
    by eapply validatePolicyAmount_ascii. }
  unfold adm_module_InitGenesis, adm_module_ExportGenesis. rewrite AdmGenesis_roundtrip.
  2: by apply utf8_valid_ascii, visible_ascii.
  2: done.
  2: { simpl. rewrite Hnil. constructor. }
  2: apply GetMax_range.
  simpl. unfold AdmGenesis_Validate, AdmGenesis_Policy, adm_ExportGenesis.
  cbn [ag_Authority ag_ApprovedValidators ag_MaxApprovedValidators ag_MinimumSelfDelegation].
  rewrite Hnil, (visible_TrimSpace _ Hvis), String.eqb_refl, Hau.
  rewrite (proj2 (String.eqb_neq _ _) (GetMin_nonempty kv)).
  destruct (String.eqb_spec (GetAuthority kv) EmptyString) as [He|_]; [by rewrite He in Hvis|].
  simpl. destruct (GetMaxApprovedValidators kv =? 0) eqn:E0.
  { exfalso. unfold ValidateGenesisPolicy, validatePolicyAmount in Hp. by rewrite E0 in Hp. }
  apply is_ok_Ok in Hp as [[] ->]. simpl. destruct (oguard _ _); simpl; eauto.
Qed.
End genesis.

(** ** Spellings of an address *)

Section spelling.
Context {T : SdkTypes} {S : Type} {St : StakingOps S}.

(** Approval is recorded by the text of the address, not by the address:
    when an operator address is approved under one spelling and revoked under
    another one of the same address, it stays approved, and the ante handler
    lets the jailed validator unjail. *)
Theorem revocation_misses_other_spelling ctx req (w w' : AdmWorld S) s v next sim :
  ValAddressFromBech32 s = Ok v -> ValAddressFromBech32 (mv_ValidatorAddress req) = Ok v ->
  s <> mv_ValidatorAddress req -> IsApprovedValidator (adm_kv w) s = true ->
  adm_deliver ctx (ARevoke (Some req)) w = (Ok tt, w') ->
  IsApprovedValidator (adm_kv w') s = true /\
  AdmissionAnteHandler (adm_kv w') next false ctx [MsgUnjail s] sim = next ctx [MsgUnjail s] sim.
Proof.
  intros Hs _ Hne Hap H. unfold adm_deliver in H.
  apply atomically_Ok, revoke_inv in H as (r & v' & [= <-] & _ & _ & -> & _).
  pose proof (visible_TrimSpace _ (ValAddressFromBech32_visible _ _ Hs)) as Ht.
  assert (IsApprovedValidator (SetApprovedValidator (mv_ValidatorAddress req) false (adm_kv w)) s = true) as Ha.
  { apply IsApprovedValidator_spec, is_approved_set; [done|]. split; [done|].
    by apply IsApprovedValidator_spec. }
  split; [exact Ha|]. unfold AdmissionAnteHandler. cbn [admission_msgs admission_msg]. by rewrite Ha.
Qed.
End spelling.

(** ** Witnesses *)

Definition adm_world0 : AdmWorld (gmap addr rval) :=
  MkAdmWorld (adm_InitGenesis (MkAdmGenesis "gov" ["val1"] 2 "100axtc") ∅)
    (<["val1" := RVal false "cons1"]> ∅).
Definition adm_ctx : Ctx := MkCtx 0 0.
Definition adm_ops : list (@AdmStep (gmap addr rval)) :=
  [ATx adm_ctx (AApprove (Some (MkMsgApprove "gov" "val2")));
   ATx adm_ctx (AApprove (Some (MkMsgApprove "gov" "val3")));
   ATx adm_ctx (ARevoke (Some (MkMsgRevoke "gov" "val1")));
   ATx adm_ctx (AUpdate (Some (MkAdmMsgUpdateParams "gov" 1 "200axtc")))].

Lemma capacity_witness :
  approved_list (adm_kv (adm_run adm_world0 adm_ops)) = ["val2"] /\
  within_capacity (adm_kv (adm_run adm_world0 adm_ops)).
Proof.
  split; [vm_compute; reflexivity|].
  refine (proj1 (capacity_never_exceeded adm_world0 adm_ops _ _)).
  - repeat constructor; unfold two32; simpl; lia.
  - vm_compute. discriminate.
Defined.

Lemma only_authority_witness :
  msg_authority (ARevoke (Some (MkMsgRevoke "gov" "val1"))) =
  Some (effective_authority adm_ctx (adm_kv adm_world0)).
Proof.
  refine (proj1 (only_authority_changes adm_ctx (ARevoke (Some (MkMsgRevoke "gov" "val1"))) adm_world0 _)).
  vm_compute. discriminate.
Defined.

Definition adm_revoked : AdmWorld (gmap addr rval) :=
  (adm_deliver adm_ctx (ARevoke (Some (MkMsgRevoke "gov" "val1"))) adm_world0).2.

Lemma revocation_witness :
  IsApprovedValidator (adm_kv adm_revoked) "val1" = false.
Proof.
  refine (proj1 (revocation_effect adm_ctx (MkMsgRevoke "gov" "val1") adm_world0 adm_revoked _)).
  vm_compute. reflexivity.
Defined.

Lemma bypass_witness :
  is_ok (AdmissionAnteHandler (adm_kv adm_revoked) (fun ctx _ _ => Ok ctx) false adm_ctx
           [MsgExec (Ok [MsgUnjail "val1"])] false) = true /\
  is_ok (AdmissionAnteHandler (adm_kv adm_revoked) (fun ctx _ _ => Ok ctx) false adm_ctx
           [MsgUnjail "val1"] false) = false.
Proof.
  split; [|vm_compute; reflexivity].
  rewrite (proj1 (admission_bypassed_by_exec (adm_kv adm_revoked) false (fun ctx _ _ => Ok ctx) adm_ctx
    (MsgUnjail "val1") false (or_intror (or_introl (ex_intro _ _ eq_refl))))).
  reflexivity.
Defined.

Lemma admission_genesis_witness :
  exists kv', adm_module_InitGenesis (adm_module_ExportGenesis (adm_kv adm_world0)) ∅ = Ok kv' /\
    is_approved kv' "val1".
Proof.
  destruct (admission_genesis_roundtrip (adm_kv adm_world0)) as (kv' & Hi & _ & _ & _ & Ha);
    [vm_compute; reflexivity|vm_compute; reflexivity|].
  exists kv'. split; [exact Hi|]. apply Ha. vm_compute. eauto.
Defined.

Lemma admission_genesis_needs_witness :
  exists e, adm_module_InitGenesis (adm_module_ExportGenesis (adm_kv adm_revoked)) ∅ = Panic e.
Proof.
  apply (admission_genesis_needs_validator (adm_kv adm_revoked) "gov"); [vm_compute; reflexivity..|].
  intros a Ha. apply approved_list_elem in Ha. revert Ha.
  assert (approved_list (adm_kv adm_revoked) = []) as -> by (vm_compute; reflexivity).
  set_solver.
Defined.

Lemma spelling_witness :
  IsApprovedValidator (adm_kv (adm_deliver adm_ctx (ARevoke (Some (MkMsgRevoke "gov" "VAL1"))) adm_world0).2)
    "val1" = true.
Proof.
  refine (proj1 (revocation_misses_other_spelling adm_ctx (MkMsgRevoke "gov" "VAL1") adm_world0 _
    "val1" "val1" (fun ctx _ _ => Ok ctx) false _ _ _ _ _)); try (vm_compute; reflexivity).
  discriminate.
Defined.
