(* ===== verification/Incentives.v ===== *)
(** * x/validatorincentives: treasury-funded validator rewards

    Parameters, period arithmetic, keeper, treasury, block processing, message
    server and genesis of the module. *)

From Stdlib Require Import ZArith Lia List String Ascii Bool.
From stdpp Require Import base gmap strings list.
From S2P Require Import Prelude GoStrings GoJson Sdk.
Local Open Scope Z_scope.
Local Open Scope go_scope.

(** ** types *)

Definition ParamsKey : bytes := byte1 1.
Definition PeriodStateKey : bytes := byte1 2.
Definition TotalDistributedKey : bytes := byte1 3.
Definition AuthorityKey : bytes := byte1 4.
Definition TreasuryAccountName : string := "validator_incentives".
Definition IncentiveDenom : string := "axtc".
Definition FeeCollectorName : string := "fee_collector".

Definition BasisPointDenominator : Z := 10000.
Definition DefaultTreasuryReleaseRateBasisPoints : Z := 1000.
Definition DefaultBlocksPerYear : Z := 6311520.
Definition DefaultCalculationPeriodBlocks : Z := 17280.

Record IncParams := MkIncParams {
  ip_Rate : Z;                  (* TreasuryReleaseRateBasisPoints, uint32 *)
  ip_BlocksPerYear : Z;         (* uint64 *)
  ip_PeriodBlocks : Z;          (* CalculationPeriodBlocks, uint64 *)
}.

Definition DefaultParams : IncParams :=
  MkIncParams DefaultTreasuryReleaseRateBasisPoints DefaultBlocksPerYear DefaultCalculationPeriodBlocks.

Definition IncParams_Validate (p : IncParams) : outcome unit :=
  odo oguard (negb (BasisPointDenominator <? ip_Rate p)) "treasury release rate exceeds 100 percent";
  odo oguard (negb (ip_BlocksPerYear p =? 0)) "blocks per year must be greater than zero";
  odo oguard (negb (ip_PeriodBlocks p =? 0)) "calculation period must contain at least one block";
  oguard (negb (ip_BlocksPerYear p <? ip_PeriodBlocks p)) "calculation period cannot exceed one year".

Definition IncParams_ValidateUpdate (p previous : IncParams) : outcome unit :=
  odo owrap "invalid previous parameters" (IncParams_Validate previous);
  IncParams_Validate p.

Record PeriodState := MkPeriodState {
  ps_StartBlock : Z;            (* uint64 *)
  ps_EndBlock : Z;              (* uint64 *)
  ps_Rate : Z;                  (* TreasuryReleaseRateBasisPoints, uint32 *)
  ps_TreasuryBalance : string;
  ps_EligibleBonded : string;
  ps_AnnualizedCapacity : string;
  ps_DerivedAPY : string;
  ps_PeriodProvision : string;
  ps_Distributed : string;
}.

Section policy.
Context {Mt : SdkMath}.

Definition AnnualizedRewardCapacity (treasuryBalance rate : Z) : outcome Z :=
  odo oguard (negb (treasuryBalance <? 0)) "treasury balance cannot be negative";
  odo oguard (negb (BasisPointDenominator <? rate)) "treasury release rate exceeds 100 percent";
  olet product <- Int_Mul treasuryBalance rate;
  Int_Quo product BasisPointDenominator.

Definition PeriodProvision (annualizedCapacity periodBlocks blocksPerYear : Z) : outcome Z :=
  odo oguard (negb (annualizedCapacity <? 0)) "annualized capacity cannot be negative";
  odo oguard (negb (periodBlocks =? 0)) "calculation period must contain at least one block";
  odo oguard (negb (blocksPerYear =? 0)) "blocks per year must be greater than zero";
  odo oguard (negb (blocksPerYear <? periodBlocks)) "calculation period cannot exceed one year";
  olet product <- Int_Mul annualizedCapacity periodBlocks;
  Int_Quo product blocksPerYear.

Definition DerivedAPYBasisPoints (annualizedCapacity eligibleBonded : Z) : outcome Z :=
  odo oguard (negb (annualizedCapacity <? 0)) "annualized capacity cannot be negative";
  odo oguard (negb (eligibleBonded <? 0)) "eligible bonded stake cannot be negative";
  if eligibleBonded =? 0 then Ok 0 else
  olet product <- Int_Mul annualizedCapacity BasisPointDenominator;
  Int_Quo product eligibleBonded.

Definition CumulativeProvision (periodProvision elapsedBlocks periodBlocks : Z) : outcome Z :=
  odo oguard (negb (periodProvision <? 0)) "period provision cannot be negative";
  odo oguard (negb (periodBlocks =? 0)) "calculation period must contain at least one block";
  odo oguard (negb (periodBlocks <? elapsedBlocks)) "elapsed blocks exceed the calculation period";
  olet product <- Int_Mul periodProvision elapsedBlocks;
  Int_Quo product periodBlocks.

Definition parseAtomicAmount (value : string) : outcome Z :=
  match SetString value with
  | None => Err "amount is not a base-10 integer"
  | Some parsed => NewIntFromBigInt parsed
  end.

Definition NewPeriodState (startBlock eligibleBonded treasuryBalance : Z) (params : IncParams)
    : outcome PeriodState :=
  odo IncParams_Validate params;
  odo oguard (negb (MaxUint64 - ip_PeriodBlocks params <? startBlock))
      "calculation period end block overflows";
  odo oguard (negb (eligibleBonded <? 0)) "eligible bonded stake cannot be negative";
  olet annualized <- AnnualizedRewardCapacity treasuryBalance (ip_Rate params);
  olet apy <- DerivedAPYBasisPoints annualized eligibleBonded;
  olet provision <- (if 0 <? eligibleBonded
                     then PeriodProvision annualized (ip_PeriodBlocks params) (ip_BlocksPerYear params)
                     else Ok 0);
  Ok (MkPeriodState startBlock (u64 (startBlock + ip_PeriodBlocks params)) (ip_Rate params)
        (Int_String treasuryBalance) (Int_String eligibleBonded) (Int_String annualized)
        (Int_String apy) (Int_String provision) "0").

(** One iteration of the loop over the amounts of a stored period. *)
Definition checked_amount (name value : string) : outcome Z :=
  olet amount <- owrap ("invalid " +:+ name +:+ " amount")%string (parseAtomicAmount value);
  odo oguard (negb (amount <? 0)) (name +:+ " amount cannot be negative")%string;
  Ok amount.

Definition PeriodState_Validate (p : PeriodState) : outcome unit :=
  odo oguard (negb (ps_EndBlock p <=? ps_StartBlock p))
      "calculation period end block must follow start block";
  odo oguard (negb (BasisPointDenominator <? ps_Rate p)) "treasury release rate exceeds 100 percent";
  olet treasury <- checked_amount "treasury balance" (ps_TreasuryBalance p);
  odo checked_amount "eligible bonded" (ps_EligibleBonded p);
  odo checked_amount "annualized capacity" (ps_AnnualizedCapacity p);
  odo checked_amount "derived APY" (ps_DerivedAPY p);
  olet provision <- checked_amount "period provision" (ps_PeriodProvision p);
  olet distributed <- checked_amount "distributed" (ps_Distributed p);
  odo oguard (negb (provision <? distributed)) "distributed amount exceeds period provision";
  oguard (negb (treasury <? provision)) "period provision exceeds treasury snapshot".

Definition RemainingProvision (p : PeriodState) : outcome Z :=
  odo PeriodState_Validate p;
  olet provision <- parseAtomicAmount (ps_PeriodProvision p);
  olet distributed <- parseAtomicAmount (ps_Distributed p);
  Int_Sub provision distributed.
End policy.

(** JSON encoding of the stored period. *)
Definition PeriodState_json (p : PeriodState) : json :=
  JObj [("start_block", JNum (FormatInt (ps_StartBlock p)));
        ("end_block", JNum (FormatInt (ps_EndBlock p)));
        ("treasury_release_rate_basis_points", JNum (FormatInt (ps_Rate p)));
        ("treasury_balance_atomic", JStr (ps_TreasuryBalance p));
        ("eligible_bonded_atomic", JStr (ps_EligibleBonded p));
        ("annualized_capacity_atomic", JStr (ps_AnnualizedCapacity p));
        ("derived_apy_basis_points", JStr (ps_DerivedAPY p));
        ("period_provision_atomic", JStr (ps_PeriodProvision p));
        ("distributed_atomic", JStr (ps_Distributed p))].

Definition PeriodState_member (p : PeriodState) (kv : string * json) : outcome PeriodState :=
  let '(MkPeriodState sb eb r tb bo an ap pp di) := p in
  let '(key, v) := kv in
  if key_is "start_block" key then
    olet z <- as_uint two64 sb v; Ok (MkPeriodState z eb r tb bo an ap pp di)
  else if key_is "end_block" key then
    olet z <- as_uint two64 eb v; Ok (MkPeriodState sb z r tb bo an ap pp di)
  else if key_is "treasury_release_rate_basis_points" key then
    olet z <- as_uint two32 r v; Ok (MkPeriodState sb eb z tb bo an ap pp di)
  else if key_is "treasury_balance_atomic" key then
    olet s <- as_string tb v; Ok (MkPeriodState sb eb r s bo an ap pp di)
  else if key_is "eligible_bonded_atomic" key then
    olet s <- as_string bo v; Ok (MkPeriodState sb eb r tb s an ap pp di)
  else if key_is "annualized_capacity_atomic" key then
    olet s <- as_string an v; Ok (MkPeriodState sb eb r tb bo s ap pp di)
  else if key_is "derived_apy_basis_points" key then
    olet s <- as_string ap v; Ok (MkPeriodState sb eb r tb bo an s pp di)
  else if key_is "period_provision_atomic" key then
    olet s <- as_string pp v; Ok (MkPeriodState sb eb r tb bo an ap s di)
  else if key_is "distributed_atomic" key then
    olet s <- as_string di v; Ok (MkPeriodState sb eb r tb bo an ap pp s)
  else Ok p.

Fixpoint PeriodState_members (p : PeriodState) (l : list (string * json)) : outcome PeriodState :=
  match l with
  | [] => Ok p
  | kv :: l' => olet p' <- PeriodState_member p kv; PeriodState_members p' l'
  end.

Definition zero_PeriodState : PeriodState :=
  MkPeriodState 0 0 0 EmptyString EmptyString EmptyString EmptyString EmptyString EmptyString.

Definition PeriodState_Unmarshal (b : bytes) : outcome PeriodState :=
  match Parse b with
  | Some (JObj l) => PeriodState_members zero_PeriodState l
  | Some JNull => Ok zero_PeriodState
  | Some _ => Err type_error
  | None => Err "invalid character in JSON input"
  end.

(** ** keeper *)

Record IncWorld (B : Type) := MkIncWorld { inc_kv : KVStore; inc_bank : B }.
Arguments MkIncWorld {B}.
Arguments inc_kv {B}.
Arguments inc_bank {B}.

Section keeper.
Context {Mt : SdkMath} {T : SdkTypes} {B : Type} {Bk : BankOps B}.
Abbreviation MI := (M (IncWorld B)).

Definition inc_set (key value : bytes) : MI unit :=
  mmodify (fun w => MkIncWorld (<[key := value]> (inc_kv w)) (inc_bank w)).
Definition inc_delete (key : bytes) : MI unit :=
  mmodify (fun w => MkIncWorld (delete key (inc_kv w)) (inc_bank w)).
Definition inc_get (key : bytes) : MI bytes := mreads (fun w => kv_get (inc_kv w) key).

Definition inc_SetAuthority (authority : string) : MI unit := inc_set AuthorityKey authority.
Definition inc_GetAuthority : MI string := inc_get AuthorityKey.

Definition encode_params (p : IncParams) : bytes :=
  (PutUint32 (ip_Rate p) +:+ PutUint64 (ip_BlocksPerYear p) +:+ PutUint64 (ip_PeriodBlocks p))%string.

Definition decode_params (value : bytes) : IncParams :=
  if negb (len value =? 20) then DefaultParams
  else MkIncParams (be_value (String.substring 0 4 value)) (be_value (String.substring 4 8 value))
         (be_value (String.substring 12 8 value)).

Definition SetParams (params : IncParams) : MI unit :=
  do! mlift (IncParams_Validate params);
  inc_set ParamsKey (encode_params params).

Definition GetParams : MI IncParams :=
  let! value <- inc_get ParamsKey; mret (decode_params value).

Definition Migrate1to2 : MI unit :=
  do! SetParams DefaultParams;
  inc_delete PeriodStateKey.

Definition inc_UpdateParams (next : IncParams) : MI unit :=
  let! previous <- GetParams;
  do! mlift (IncParams_ValidateUpdate next previous);
  SetParams next.

Definition SetPeriodState (state : PeriodState) : MI unit :=
  do! mlift (PeriodState_Validate state);
  inc_set PeriodStateKey (Marshal (PeriodState_json state)).

Definition GetPeriodState : MI (option PeriodState) :=
  let! value <- inc_get PeriodStateKey;
  if len value =? 0 then mret None else
  let! state <- mlift (PeriodState_Unmarshal value);
  do! mlift (PeriodState_Validate state);
  mret (Some state).

Definition SetTotalDistributed (amount : Z) : MI unit :=
  do! mguard (negb (amount <? 0)) "total distributed amount cannot be negative";
  inc_set TotalDistributedKey (Int_String amount).

Definition GetTotalDistributed : MI Z :=
  let! value <- inc_get TotalDistributedKey;
  if String.eqb value EmptyString then mret 0 else
  let! amount <- mlift (parseAtomicAmount value);
  do! mguard (negb (amount <? 0)) "stored total distributed amount is negative";
  mret amount.

(** *** treasury.go *)

Definition inc_bank_op (f : B -> outcome unit * B) : MI unit := fun w =>
  let '(r, b) := f (inc_bank w) in (r, MkIncWorld (inc_kv w) b).

Definition Treasury_Balance : MI Coin :=
  let address := GetModuleAddress TreasuryAccountName in
  do! mguard (negb (len address =? 0)) "incentive treasury module account is missing";
  mreads (fun w => MkCoin IncentiveDenom (GetBalance (inc_bank w) address IncentiveDenom)).

Definition Treasury_Send (recipient : addr) (amount : Z) : MI unit :=
  do! mguard (negb (len recipient =? 0)) "reward recipient is empty";
  do! mguard (0 <? amount) "reward amount must be positive";
  let! balance <- Treasury_Balance;
  do! mguard (negb (Amount balance <? amount)) "incentive treasury balance is insufficient";
  let! coin <- mlift (NewCoin IncentiveDenom amount);
  inc_bank_op (SendCoinsFromModuleToAccount TreasuryAccountName recipient (NewCoins [coin])).

Definition Treasury_SendToModule (recipientModule : string) (amount : Z) : MI unit :=
  do! mguard (negb (String.eqb recipientModule EmptyString)) "reward recipient module is empty";
  do! mguard (0 <? amount) "reward amount must be positive";
  let! balance <- Treasury_Balance;
  do! mguard (negb (Amount balance <? amount)) "incentive treasury balance is insufficient";
  let! coin <- mlift (NewCoin IncentiveDenom amount);
  inc_bank_op (SendCoinsFromModuleToModule TreasuryAccountName recipientModule (NewCoins [coin])).

(** *** period.go: [power] is the answer of the staking keeper's
    [TotalValidatorPower] *)

Definition SnapshotPeriod (ctx : Ctx) (power : outcome Z) : MI PeriodState :=
  do! mguard (negb (BlockHeight ctx <? 0)) "block height cannot be negative";
  let! eligibleBonded <- mlift power;
  do! mguard (negb (eligibleBonded <? 0)) "eligible bonded stake cannot be negative";
  let! balance <- Treasury_Balance;
  do! mguard (String.eqb (Denom balance) IncentiveDenom) "unexpected incentive treasury denomination";
  let! params <- GetParams;
  let! state <- mlift (NewPeriodState (u64 (BlockHeight ctx)) eligibleBonded (Amount balance) params);
  do! SetPeriodState state;
  mret state.

Definition RecordDistribution (amount : Z) : MI unit :=
  do! mguard (0 <? amount) "distribution amount must be positive";
  let! found <- GetPeriodState;
  match found with
  | None => mfail "no calculation period has been configured"
  | Some state =>
    let! remaining <- mlift (RemainingProvision state);
    do! mguard (negb (remaining <? amount)) "distribution exceeds the remaining period provision";
    let! distributed <- mlift (parseAtomicAmount (ps_Distributed state));
    let! total <- GetTotalDistributed;
    let! distributed' <- mlift (Int_Add distributed amount);
    do! SetPeriodState (MkPeriodState (ps_StartBlock state) (ps_EndBlock state) (ps_Rate state)
          (ps_TreasuryBalance state) (ps_EligibleBonded state) (ps_AnnualizedCapacity state)
          (ps_DerivedAPY state) (ps_PeriodProvision state) (Int_String distributed'));
    let! total' <- mlift (Int_Add total amount);
    SetTotalDistributed total'
  end.

Definition ProcessBlock (ctx : Ctx) (power : outcome Z) (feeCollector : string) : MI unit :=
  do! mguard (negb (BlockHeight ctx <? 0)) "block height cannot be negative";
  let height := u64 (BlockHeight ctx) in
  let! found <- GetPeriodState;
  let! state <- (match found with
                 | Some state =>
                   if ps_EndBlock state <=? height then SnapshotPeriod ctx power else mret state
                 | None => SnapshotPeriod ctx power
                 end);
  do! mguard (negb ((height <? ps_StartBlock state) || (ps_EndBlock state <=? height)))
      "block is outside the active calculation period";
  let! periodProvision <- mlift (parseAtomicAmount (ps_PeriodProvision state));
  let! distributed <- mlift (parseAtomicAmount (ps_Distributed state));
  let elapsed := u64 (height - ps_StartBlock state + 1) in
  let! target <- mlift (CumulativeProvision periodProvision elapsed
                          (u64 (ps_EndBlock state - ps_StartBlock state)));
  let! amount <- mlift (Int_Sub target distributed);
  do! mguard (negb (amount <? 0)) "stored distribution exceeds the cumulative target";
  if amount =? 0 then mret tt else
  do! Treasury_SendToModule feeCollector amount;
  RecordDistribution amount.

(** module.go *)
Definition inc_BeginBlock (ctx : Ctx) (power : outcome Z) : MI unit :=
  ProcessBlock ctx power FeeCollectorName.

(** *** authority.go, command_handler.go, msg_server.go *)

Definition RequireAuthority (caller : string) : MI unit :=
  let! authority <- inc_GetAuthority;
  do! mguard (negb (String.eqb authority EmptyString)) "validator incentive authority is not configured";
  do! mguard (negb (String.eqb caller EmptyString)) "validator incentive caller is empty";
  mguard (String.eqb caller authority) "validator incentive caller is not authorized".

Definition UpdateParamsAuthorized (caller : string) (next : IncParams) : MI unit :=
  do! RequireAuthority caller;
  inc_UpdateParams next.

Definition validateCommandAuthority (authority : string) : outcome unit :=
  odo oguard (negb (String.eqb authority EmptyString)) "authority is required";
  odo owrap "invalid authority address" (AccAddressFromBech32 authority);
  Ok tt.

Definition UpdateParamsCommand_ValidateBasic (authority : string) (params : IncParams) : outcome unit :=
  odo validateCommandAuthority authority;
  owrap "invalid incentive parameters" (IncParams_Validate params).

Definition HandleUpdateParamsCommand (authority : string) (params : IncParams) : MI unit :=
  do! mlift (UpdateParamsCommand_ValidateBasic authority params);
  UpdateParamsAuthorized authority params.

Record IncMsgUpdateParams := MkIncMsgUpdateParams { im_Authority : string; im_Params : IncParams }.

Definition IncMsgUpdateParams_ValidateBasic (m : option IncMsgUpdateParams) : outcome unit :=
  match m with
  | None => Err "update params message is nil"
  | Some m => UpdateParamsCommand_ValidateBasic (im_Authority m) (im_Params m)
  end.

Definition inc_srv_UpdateParams (m : option IncMsgUpdateParams) : MI unit :=
  match m with
  | None => mfail "update params message is nil"
  | Some m => HandleUpdateParamsCommand (im_Authority m) (im_Params m)
  end.

(** *** genesis.go *)

Record IncGenesis := MkIncGenesis { ig_Authority : string; ig_Params : IncParams }.

Definition inc_DefaultGenesisState : IncGenesis := MkIncGenesis EmptyString DefaultParams.

Definition IncGenesis_Validate (g : IncGenesis) : outcome unit :=
  odo owrap "invalid genesis parameters" (IncParams_Validate (ig_Params g));
  let authority := TrimSpace (ig_Authority g) in
  if String.eqb authority EmptyString then Ok tt else
  odo oguard (String.eqb authority (ig_Authority g)) "incentive authority contains surrounding spaces";
  odo owrap "invalid incentive authority address" (AccAddressFromBech32 authority);
  Ok tt.

Definition inc_InitGenesis (state : IncGenesis) : MI unit :=
  do! mlift (IncGenesis_Validate state);
  do! SetParams (ig_Params state);
  do! SetTotalDistributed 0;
  if String.eqb (ig_Authority state) EmptyString then mret tt
  else inc_SetAuthority (ig_Authority state).

Definition inc_ExportGenesis : MI IncGenesis :=
  let! authority <- inc_GetAuthority;
  let! params <- GetParams;
  mret (MkIncGenesis authority params).

(** *** grpc_query.go *)

Definition query_Params : MI (string * IncParams) :=
  let! params <- GetParams;
  let! authority <- inc_GetAuthority;
  mret (authority, params).

Record QueryPeriodResponse := MkQueryPeriodResponse {
  qp_Active : bool;
  qp_State : option PeriodState;
  qp_TotalDistributed : string;
}.

Definition query_Period (ctx : Ctx) : MI QueryPeriodResponse :=
  let! totalDistributed <- GetTotalDistributed;
  let! found <- GetPeriodState;
  match found with
  | None => mret (MkQueryPeriodResponse false None (Int_String totalDistributed))
  | Some state =>
    let height := BlockHeight ctx in
    mret (MkQueryPeriodResponse
      ((0 <=? height) && (ps_StartBlock state <=? u64 height) && (u64 height <? ps_EndBlock state))
      (Some state) (Int_String totalDistributed))
  end.

Definition query_Treasury : MI (string * string) :=
  let! balance <- Treasury_Balance;
  mret (Denom balance, Int_String (Amount balance)).

End keeper.

(** *** The JSON genesis and module.go *)

Definition IncParams_json (p : IncParams) : json :=
  JObj [("treasury_release_rate_basis_points", JNum (FormatInt (ip_Rate p)));
        ("blocks_per_year", JNum (FormatInt (ip_BlocksPerYear p)));
        ("calculation_period_blocks", JNum (FormatInt (ip_PeriodBlocks p)))].

Definition IncParams_member (p : IncParams) (kv : string * json) : outcome IncParams :=
  let '(MkIncParams r y n) := p in
  let '(key, v) := kv in
  if key_is "treasury_release_rate_basis_points" key then
    olet z <- as_uint two32 r v; Ok (MkIncParams z y n)
  else if key_is "blocks_per_year" key then olet z <- as_uint two64 y v; Ok (MkIncParams r z n)
  else if key_is "calculation_period_blocks" key then
    olet z <- as_uint two64 n v; Ok (MkIncParams r y z)
  else Ok p.

Fixpoint IncParams_members (p : IncParams) (l : list (string * json)) : outcome IncParams :=
  match l with
  | [] => Ok p
  | kv :: l' => olet p' <- IncParams_member p kv; IncParams_members p' l'
  end.

Definition as_IncParams (p : IncParams) (v : json) : outcome IncParams :=
  match v with
  | JObj l => IncParams_members p l
  | JNull => Ok p
  | _ => Err type_error
  end.

Definition IncGenesis_json (g : IncGenesis) : json :=
  JObj [("authority", JStr (ig_Authority g)); ("params", IncParams_json (ig_Params g))].

Definition IncGenesis_member (g : IncGenesis) (kv : string * json) : outcome IncGenesis :=
  let '(MkIncGenesis a p) := g in
  let '(key, v) := kv in
  if key_is "authority" key then olet s <- as_string a v; Ok (MkIncGenesis s p)
  else if key_is "params" key then olet p' <- as_IncParams p v; Ok (MkIncGenesis a p')
  else Ok g.

Fixpoint IncGenesis_members (g : IncGenesis) (l : list (string * json)) : outcome IncGenesis :=
  match l with
  | [] => Ok g
  | kv :: l' => olet g' <- IncGenesis_member g kv; IncGenesis_members g' l'
  end.

Definition IncGenesis_Unmarshal (b : bytes) : outcome IncGenesis :=
  let zero := MkIncGenesis EmptyString (MkIncParams 0 0 0) in
  match Parse b with
  | Some (JObj l) => IncGenesis_members zero l
  | Some JNull => Ok zero
  | Some _ => Err type_error
  | None => Err "invalid character in JSON input"
  end.

Section appmodule.
Context {Mt : SdkMath} {T : SdkTypes} {B : Type} {Bk : BankOps B}.

Definition inc_DefaultGenesis : bytes := Marshal (IncGenesis_json inc_DefaultGenesisState).

Definition inc_ValidateGenesis (data : bytes) : outcome unit :=
  olet state <- owrap "invalid validator_incentives genesis" (IncGenesis_Unmarshal data);
  IncGenesis_Validate state.

Definition inc_as_panic {A} (m : outcome A) : outcome A :=
  match m with Err e => Panic ("invalid validator_incentives genesis: " +:+ e)%string | r => r end.

(** The module drops the error of the keeper's [InitGenesis]. *)
Definition drop_error (m : M (IncWorld B) unit) : M (IncWorld B) unit := fun w =>
  match m w with (Err _, w') => (Ok tt, w') | r => r end.

Definition inc_module_InitGenesis (data : bytes) : M (IncWorld B) unit :=
  let! state <- mlift (inc_as_panic (IncGenesis_Unmarshal data));
  do! mlift (inc_as_panic (IncGenesis_Validate state));
  drop_error (inc_InitGenesis state).

Definition inc_module_ExportGenesis : M (IncWorld B) bytes :=
  let! state <- inc_ExportGenesis; mret (Marshal (IncGenesis_json state)).
End appmodule.
