(* ===== verification/IncentivesTheorems.v ===== *)
(** * x/validatorincentives: theorems

    The stored period as integers, what one block pays, that a whole period
    pays exactly its provision without an error, and what migration, parameter
    updates and genesis preserve. *)

From Stdlib Require Import ZArith Lia List String Ascii Bool.
From stdpp Require Import base gmap strings list.
From S2P Require Import Prelude GoStrings GoJson Sdk RefEnv Incentives.
Local Open Scope Z_scope.
Local Open Scope go_scope.

(** ** Periods with integer amounts *)

Record APeriod := MkAPeriod {
  p_start : Z; p_end : Z; p_rate : Z; p_treasury : Z; p_bonded : Z; p_annual : Z; p_apy : Z;
  p_provision : Z; p_distributed : Z }.

(** The stored form: amounts in decimal. *)
Definition conc (p : APeriod) : PeriodState :=
  MkPeriodState (p_start p) (p_end p) (p_rate p) (FormatInt (p_treasury p)) (FormatInt (p_bonded p))
    (FormatInt (p_annual p)) (FormatInt (p_apy p)) (FormatInt (p_provision p))
    (FormatInt (p_distributed p)).

Definition amount_ok (z : Z) : Prop := 0 <= z < two256.

Record period_wf (p : APeriod) : Prop := {
  pw_start : is_u64 (p_start p);
  pw_end : is_u64 (p_end p);
  pw_order : p_start p < p_end p;
  pw_rate : 0 <= p_rate p <= 10000;
  pw_treasury : amount_ok (p_treasury p);
  pw_bonded : amount_ok (p_bonded p);
  pw_annual : amount_ok (p_annual p);
  pw_apy : amount_ok (p_apy p);
  pw_distributed : 0 <= p_distributed p;
  pw_paid : p_distributed p <= p_provision p;
  pw_provision : p_provision p <= p_treasury p;
}.

Lemma fits_amount z : amount_ok z -> int_fits z = true.
Proof. unfold amount_ok, int_fits. intros. apply Z.ltb_lt. lia. Qed.

Section periods.
Context {Mt : SdkMath}.
Implicit Types p : APeriod.

Lemma parse_amount z : amount_ok z -> parseAtomicAmount (FormatInt z) = Ok z.
Proof.
  intros Hz. unfold parseAtomicAmount. rewrite SetString_FormatInt, NewIntFromBigInt_spec.
  by rewrite fits_amount.
Qed.

Lemma checked_amount_ok name z : amount_ok z -> checked_amount name (FormatInt z) = Ok z.
Proof.
  intros Hz. unfold checked_amount. rewrite parse_amount by done. simpl.
  by rewrite (proj2 (Z.ltb_ge z 0)) by apply Hz.
Qed.

Lemma provision_ok p : period_wf p -> amount_ok (p_provision p) /\ amount_ok (p_distributed p).
Proof. intros []. unfold amount_ok in *. lia. Qed.

Lemma period_Validate p : period_wf p -> PeriodState_Validate (conc p) = Ok tt.
Proof.
  intros Hp. destruct (provision_ok p Hp) as [Hpr Hdi]. destruct Hp.
  unfold PeriodState_Validate, BasisPointDenominator, conc. cbn [ps_EndBlock ps_StartBlock ps_Rate ps_TreasuryBalance
    ps_EligibleBonded ps_AnnualizedCapacity ps_DerivedAPY ps_PeriodProvision ps_Distributed].
  rewrite (proj2 (Z.leb_gt _ _) pw_order0), (proj2 (Z.ltb_ge _ _) (proj2 pw_rate0)). simpl.
  rewrite !checked_amount_ok by done. simpl.
  by rewrite (proj2 (Z.ltb_ge _ _) pw_paid0), (proj2 (Z.ltb_ge _ _) pw_provision0).
Qed.

Lemma conc_members p : period_wf p -> exists l, PeriodState_json (conc p) = JObj l /\
  PeriodState_members zero_PeriodState l = Ok (conc p).
Proof.
  intros [Hs He Ho Hr]. eexists. split; [reflexivity|].
  unfold PeriodState_members, PeriodState_member, zero_PeriodState. key_eval. unfold conc.
  cbn [ps_EndBlock ps_StartBlock ps_Rate ps_TreasuryBalance
    ps_EligibleBonded ps_AnnualizedCapacity ps_DerivedAPY ps_PeriodProvision ps_Distributed].
  rewrite !as_uint_FormatInt by (unfold is_u64, two32 in *; lia). cbn [obind].
  rewrite as_uint_FormatInt by (unfold is_u64, two32 in *; lia). cbn [obind].
  rewrite as_uint_FormatInt by (unfold is_u64, two32 in *; lia). reflexivity.
Qed.

Lemma conc_json_wf p : period_wf p -> wf_json (PeriodState_json (conc p)).
Proof.
  intros [Hs He Ho Hr]. unfold is_u64 in *. constructor.
  repeat (apply List.Forall_cons; [split; [reflexivity|]|]); [..|apply List.Forall_nil]; simpl;
    constructor; try lia; apply utf8_valid_ascii, FormatInt_ascii.
Qed.

Lemma period_roundtrip p : period_wf p ->
  PeriodState_Unmarshal (Marshal (PeriodState_json (conc p))) = Ok (conc p).
Proof.
  intros Hp. unfold PeriodState_Unmarshal. rewrite Parse_Marshal by by apply conc_json_wf.
  destruct (conc_members p Hp) as (l & -> & Hl). exact Hl.
Qed.

(** ** The arithmetic of a new period *)

Definition annual_of (treasury rate : Z) : Z := treasury * rate / 10000.
Definition provision_of (treasury bonded : Z) (prm : IncParams) : Z :=
  if 0 <? bonded
  then annual_of treasury (ip_Rate prm) * ip_PeriodBlocks prm / ip_BlocksPerYear prm else 0.
(** What is due after [e] of the [n] blocks of a period. *)
Definition due (provision e n : Z) : Z := provision * e / n.

Record params_wf (prm : IncParams) : Prop := {
  pr_rate : 0 <= ip_Rate prm <= 10000;
  pr_year : 0 < ip_BlocksPerYear prm < two64;
  pr_period : 0 < ip_PeriodBlocks prm <= ip_BlocksPerYear prm;
}.

Lemma params_Validate prm : params_wf prm -> IncParams_Validate prm = Ok tt.
Proof.
  intros []. unfold IncParams_Validate, BasisPointDenominator.
  rewrite (proj2 (Z.ltb_ge 10000 _)) by lia. simpl.
  rewrite (proj2 (Z.eqb_neq (ip_BlocksPerYear prm) 0)) by lia. simpl.
  rewrite (proj2 (Z.eqb_neq (ip_PeriodBlocks prm) 0)) by lia. simpl.
  by rewrite (proj2 (Z.ltb_ge (ip_BlocksPerYear prm) _)) by lia.
Qed.

Lemma quot_le a b c : 0 <= a -> 0 <= b <= c -> 0 < c -> 0 <= a * b / c <= a.
Proof.
  intros Ha Hb Hc. split; [apply Z.div_pos; lia|].
  apply Z.div_le_upper_bound; [lia|]. nia.
Qed.

Lemma annual_bounds t r : 0 <= t -> 0 <= r <= 10000 -> 0 <= annual_of t r <= t.
Proof. intros. apply quot_le; lia. Qed.

Lemma provision_bounds t b prm : 0 <= t -> params_wf prm ->
  0 <= provision_of t b prm <= annual_of t (ip_Rate prm).
Proof.
  intros Ht [Hr Hy Hp]. pose proof (annual_bounds t _ Ht Hr). unfold provision_of.
  destruct (0 <? b); [|lia]. apply quot_le; lia.
Qed.

Lemma due_bounds pr e n : 0 <= pr -> 0 <= e <= n -> 0 < n -> 0 <= due pr e n <= pr.
Proof. intros. by apply quot_le. Qed.

Lemma due_mono pr e e' n : 0 <= pr -> 0 <= e <= e' -> 0 < n -> due pr e n <= due pr e' n.
Proof. intros. apply Z.div_le_mono; [lia|]. nia. Qed.

Lemma due_all pr n : 0 < n -> due pr n n = pr.
Proof. intros. unfold due. by rewrite Z.div_mul by lia. Qed.

Lemma Int_Mul_Ok x y z : Int_Mul x y = Ok z <-> int_fits (x * y) = true /\ z = x * y.
Proof. rewrite Int_Mul_spec. destruct (int_fits (x * y)); naive_solver. Qed.
Lemma Int_Quo_Ok x y z : Int_Quo x y = Ok z <-> y <> 0 /\ z = Z.quot x y.
Proof. rewrite Int_Quo_spec. destruct (Z.eqb_spec y 0); naive_solver. Qed.

Definition apy_of (annual bonded : Z) : Z := if bonded =? 0 then 0 else annual * 10000 / bonded.

(** The period that starts at block [sb]. *)
Definition snapshot (sb bonded treasury : Z) (prm : IncParams) : APeriod :=
  let annual := annual_of treasury (ip_Rate prm) in
  MkAPeriod sb (sb + ip_PeriodBlocks prm) (ip_Rate prm) treasury bonded annual
    (apy_of annual bonded) (provision_of treasury bonded prm) 0.

(** The snapshot succeeded: the products of the calculation fit. *)
Record snapshot_fits (sb bonded treasury : Z) (prm : IncParams) : Prop := {
  sf_end : 0 <= sb /\ sb + ip_PeriodBlocks prm <= MaxUint64;
  sf_bonded : amount_ok bonded;
  sf_treasury : amount_ok treasury;
  sf_annual : treasury * ip_Rate prm < two256;
  sf_apy : bonded = 0 \/ annual_of treasury (ip_Rate prm) * 10000 < two256;
  sf_provision : bonded = 0 \/ annual_of treasury (ip_Rate prm) * ip_PeriodBlocks prm < two256;
}.

Lemma apy_ok annual bonded : amount_ok annual -> 0 <= bonded ->
  bonded = 0 \/ annual * 10000 < two256 -> amount_ok (apy_of annual bonded).
Proof.
  unfold amount_ok, apy_of. intros Ha Hb Hf. destruct (Z.eqb_spec bonded 0); [unfold two256; lia|].
  split; [apply Z.div_pos; lia|]. apply Z.div_lt_upper_bound; [lia|]. nia.
Qed.

Lemma snapshot_wf sb bo t prm : params_wf prm -> snapshot_fits sb bo t prm ->
  period_wf (snapshot sb bo t prm).
Proof.
  intros Hp [He Hb Ht Ha Hf Hpr]. pose proof (provision_bounds t bo prm (proj1 Ht) Hp) as Hpv.
  destruct Hp as [Hr Hy Hpd]. pose proof (annual_bounds t (ip_Rate prm) (proj1 Ht) Hr) as Han.
  unfold MaxUint64, amount_ok in *. unfold snapshot.
  constructor; cbn [p_start p_end p_rate p_treasury p_bonded p_annual p_apy p_provision p_distributed];
    unfold is_u64, amount_ok; try lia.
  by apply apy_ok; unfold amount_ok; [lia|lia|].
Qed.

Lemma quot_nonneg a b : 0 <= a -> 0 < b -> Z.quot a b = a / b.
Proof. apply Z.quot_div_nonneg. Qed.

Lemma Int_Mul_fits x y : 0 <= x * y < two256 -> Int_Mul x y = Ok (x * y).
Proof. intros H. rewrite Int_Mul_spec, fits_amount by done. done. Qed.

(** A snapshot whose products fit is the stored form of [snapshot]. *)
Lemma NewPeriodState_fits sb bo t prm : params_wf prm -> snapshot_fits sb bo t prm ->
  NewPeriodState sb bo t prm = Ok (conc (snapshot sb bo t prm)).
Proof.
  intros Hp [He Hb Ht Ha Hf Hpr]. unfold NewPeriodState, AnnualizedRewardCapacity, DerivedAPYBasisPoints.
  rewrite (params_Validate _ Hp). destruct Hp as [Hr Hy Hpd].
  pose proof (annual_bounds t (ip_Rate prm) (proj1 Ht) Hr) as Han. unfold amount_ok in *.
  unfold BasisPointDenominator. cbn [obind].
  rewrite (proj2 (Z.ltb_ge _ sb)), (proj2 (Z.ltb_ge bo 0)), (proj2 (Z.ltb_ge t 0)),
    (proj2 (Z.ltb_ge 10000 _)) by lia.
  cbn [negb oguard obind]. rewrite Int_Mul_fits by nia. cbn [obind].
  rewrite Int_Quo_spec. cbn [Z.eqb]. rewrite quot_nonneg by nia. cbn [obind].
  fold (annual_of t (ip_Rate prm)). rewrite (proj2 (Z.ltb_ge (annual_of _ _) 0)) by lia.
  cbn [negb oguard obind]. unfold snapshot, apy_of, provision_of.
  assert (u64 (sb + ip_PeriodBlocks prm) = sb + ip_PeriodBlocks prm) as ->
    by (apply u64_small; unfold is_u64, MaxUint64 in *; lia).
  destruct (Z.eqb_spec bo 0) as [->|Hne].
  { change (0 <? 0) with false. cbn [obind]. rewrite !Int_String_spec. reflexivity. }
  destruct Hf as [?|Hf]; [done|]. destruct Hpr as [?|Hpr]; [done|].
  rewrite Int_Mul_fits by lia. cbn [obind]. rewrite Int_Quo_spec, (proj2 (Z.eqb_neq bo 0)) by done.
  cbn [obind]. rewrite (proj2 (Z.ltb_lt 0 bo)) by lia. rewrite quot_nonneg by lia.
  unfold PeriodProvision. rewrite (proj2 (Z.ltb_ge (annual_of _ _) 0)) by lia.
  rewrite (proj2 (Z.eqb_neq (ip_PeriodBlocks prm) 0)), (proj2 (Z.eqb_neq (ip_BlocksPerYear prm) 0)),
    (proj2 (Z.ltb_ge (ip_BlocksPerYear prm) _)) by lia.
  cbn [negb oguard obind]. rewrite Int_Mul_fits by nia. cbn [obind].
  rewrite Int_Quo_spec, (proj2 (Z.eqb_neq (ip_BlocksPerYear prm) 0)) by lia.
  cbn [obind]. rewrite quot_nonneg by nia. rewrite !Int_String_spec. reflexivity.
Qed.

Lemma CumulativeProvision_due pr e n : 0 <= e <= n -> 0 < n -> 0 <= pr -> pr * e < two256 ->
  CumulativeProvision pr e n = Ok (due pr e n).
Proof.
  intros He Hn Hp Hf. unfold CumulativeProvision.
  rewrite (proj2 (Z.ltb_ge pr 0)), (proj2 (Z.eqb_neq n 0)), (proj2 (Z.ltb_ge n e)) by lia.
  cbn [negb oguard obind]. rewrite Int_Mul_fits by nia. cbn [obind].
  rewrite Int_Quo_spec, (proj2 (Z.eqb_neq n 0)), quot_nonneg by nia. done.
Qed.

End periods.

(** ** The store *)

Record inc_repr {B} (w : IncWorld B) (prm : IncParams) (per : option APeriod) (total : Z) : Prop := {
  ir_prm : params_wf prm;
  ir_params : decode_params (kv_get (inc_kv w) ParamsKey) = prm;
  ir_period : match per with
              | None => inc_kv w !! PeriodStateKey = None
              | Some p => period_wf p /\
                  inc_kv w !! PeriodStateKey = Some (Marshal (PeriodState_json (conc p)))
              end;
  ir_amount : amount_ok total;
  ir_total : inc_kv w !! TotalDistributedKey = Some (FormatInt total) \/
             (inc_kv w !! TotalDistributedKey = None /\ total = 0);
}.

(** Two keys of the module differ in their first byte. *)
Ltac ineq := let H := fresh in intros H; apply (f_equal (String.get 0)) in H; discriminate H.

Section store.
Context {Mt : SdkMath} {T : SdkTypes} {B : Type} {Bk : BankOps B}.
Implicit Types (w : IncWorld B) (per : option APeriod).

Definition iput (key value : bytes) w : IncWorld B := MkIncWorld (<[key := value]> (inc_kv w)) (inc_bank w).

Lemma GetParams_repr w prm per tot : inc_repr w prm per tot -> GetParams w = (Ok prm, w).
Proof. intros [_ Hp _ _ _]. unfold GetParams, inc_get. rewrite mbind_reads, Hp. done. Qed.

Lemma GetPeriodState_repr w prm per tot : inc_repr w prm per tot ->
  GetPeriodState w = (Ok (conc <$> per), w).
Proof.
  intros [_ _ Hp _ _]. unfold GetPeriodState, inc_get. rewrite mbind_reads. unfold kv_get.
  destruct per as [p|]; [|by rewrite Hp]. destruct Hp as [Hwf ->]. cbn [from_option id].
  assert ((len (Marshal (PeriodState_json (conc p))) =? 0) = false) as ->.
  { apply Z.eqb_neq. unfold len. intros H. pose proof (Marshal_nonempty _ (conc_json_wf p Hwf)).
    destruct (Marshal (PeriodState_json (conc p))); [done|]. simpl in H. lia. }
  rewrite (mbind_lift _ _ _ _ (period_roundtrip p Hwf)).
  rewrite (mbind_lift _ _ _ _ (period_Validate p Hwf)). done.
Qed.

Lemma GetTotalDistributed_repr w prm per tot : inc_repr w prm per tot ->
  GetTotalDistributed w = (Ok tot, w).
Proof.
  intros [_ _ _ Ha Ht]. unfold GetTotalDistributed, inc_get. rewrite mbind_reads. unfold kv_get.
  destruct Ht as [-> | [-> ->]]; [|done]. cbn [from_option id].
  rewrite (proj2 (String.eqb_neq _ _) (FormatInt_nonempty tot)).
  rewrite (mbind_lift _ _ _ _ (parse_amount tot Ha)).
  rewrite mbind_guard; [done|]. guard_tac. apply Ha.
Qed.

Lemma SetPeriodState_repr w prm per tot p : inc_repr w prm per tot -> period_wf p ->
  exists w', SetPeriodState (conc p) w = (Ok tt, w') /\ inc_repr w' prm (Some p) tot /\
    inc_bank w' = inc_bank w.
Proof.
  intros [Hw Hp Hs Ha Ht] Hwf. unfold SetPeriodState. rewrite (mbind_lift _ _ _ _ (period_Validate p Hwf)).
  eexists. split; [reflexivity|]. split; [|done]. constructor; simpl; unfold kv_get in *; try done.
  - by rewrite lookup_insert_ne by ineq.
  - by rewrite lookup_insert_eq.
  - by rewrite lookup_insert_ne by ineq.
Qed.

Lemma SetTotalDistributed_repr w prm per tot z : inc_repr w prm per tot -> amount_ok z ->
  exists w', SetTotalDistributed z w = (Ok tt, w') /\ inc_repr w' prm per z /\ inc_bank w' = inc_bank w.
Proof.
  intros [Hw Hp Hs Ha Ht] Hz. unfold SetTotalDistributed. rewrite mbind_guard by (guard_tac; apply Hz).
  eexists. split; [reflexivity|]. split; [|done]. constructor; simpl; unfold kv_get in *; try done.
  - by rewrite lookup_insert_ne by ineq.
  - destruct per; by rewrite lookup_insert_ne by ineq.
  - left. by rewrite lookup_insert_eq, Int_String_spec.
Qed.

Lemma inc_repr_bank w prm per tot (b : B) : inc_repr w prm per tot -> inc_repr (MkIncWorld (inc_kv w) b) prm per tot.
Proof. intros [Hw Hp Hs Ha Ht]. by constructor. Qed.

(** ** Recording a distribution *)

Definition pay (x : Z) (p : APeriod) : APeriod :=
  MkAPeriod (p_start p) (p_end p) (p_rate p) (p_treasury p) (p_bonded p) (p_annual p) (p_apy p)
    (p_provision p) (p_distributed p + x).

Lemma pay_wf x p : period_wf p -> 0 <= x -> p_distributed p + x <= p_provision p -> period_wf (pay x p).
Proof. intros [] Hx Hle. constructor; simpl; try done; lia. Qed.

Lemma RecordDistribution_repr w prm p tot x : inc_repr w prm (Some p) tot ->
  0 < x -> p_distributed p + x <= p_provision p -> tot + x < two256 ->
  exists w', RecordDistribution x w = (Ok tt, w') /\ inc_repr w' prm (Some (pay x p)) (tot + x) /\
    inc_bank w' = inc_bank w.
Proof.
  intros H Hx Hle Hfit. pose proof (ir_period _ _ _ _ H) as [Hwf _].
  destruct (provision_ok p Hwf) as [Hpr Hdi]. pose proof (ir_amount _ _ _ _ H) as Ha.
  destruct (SetPeriodState_repr _ _ _ _ _ H (pay_wf x p Hwf ltac:(lia) Hle)) as (w1 & Hw1 & H1 & Hb1).
  destruct (SetTotalDistributed_repr _ _ _ _ (tot + x) H1) as (w2 & Hw2 & H2 & Hb2);
    [unfold amount_ok in *; lia|].
  exists w2. split_and!; [|done|congruence]. unfold RecordDistribution.
  rewrite mbind_guard by guard_tac. erewrite mbind_eq by (by eapply GetPeriodState_repr).
  cbn [fmap option_fmap option_map].
  assert (RemainingProvision (conc p) = Ok (p_provision p - p_distributed p)) as Hrem.
  { unfold RemainingProvision. rewrite (period_Validate p Hwf). cbn [obind conc ps_PeriodProvision ps_Distributed].
    rewrite !parse_amount by done. cbn [obind]. rewrite Int_Sub_spec, fits_amount; [done|].
    unfold amount_ok in *. lia. }
  rewrite (mbind_lift _ _ _ _ Hrem), mbind_guard by guard_tac.
  cbn [conc ps_Distributed]. rewrite (mbind_lift _ _ _ _ (parse_amount _ Hdi)).
  erewrite mbind_eq by (by eapply GetTotalDistributed_repr).
  rewrite (mbind_lift _ _ _ (p_distributed p + x)).
  2: { rewrite Int_Add_spec, fits_amount; [done|]. unfold amount_ok in *. lia. }
  rewrite Int_String_spec. erewrite mbind_eq by exact Hw1.
  rewrite (mbind_lift _ _ _ (tot + x)); [exact Hw2|].
  rewrite Int_Add_spec, fits_amount; [done|]. unfold amount_ok in *. lia.
Qed.
End store.

(** ** One block *)

Section blocks.
Context {Mt : SdkMath} {T : SdkTypes} {B : Type} {Bk : BankOps B} {BL : BankLaws B}.
Implicit Types (w : IncWorld B) (per : option APeriod) (b : B).

Definition treasury_of b : Z := GetBalance b (GetModuleAddress TreasuryAccountName) IncentiveDenom.
Definition collector_of b : Z := GetBalance b (GetModuleAddress FeeCollectorName) IncentiveDenom.

(** The bank pays: the denomination and the accounts exist, and a transfer
    between the two module accounts succeeds when the balance covers it. *)
Record bank_pays : Prop := {
  bp_denom : is_ok (ValidateDenom IncentiveDenom) = true;
  bp_account : GetModuleAddress TreasuryAccountName <> EmptyString;
  bp_distinct : GetModuleAddress TreasuryAccountName <> GetModuleAddress FeeCollectorName;
  bp_send b amt : 0 < amt <= treasury_of b ->
    exists b', SendCoinsFromModuleToModule TreasuryAccountName FeeCollectorName
                 [MkCoin IncentiveDenom amt] b = (Ok tt, b');
}.
Context (Hbank : bank_pays).

Lemma Treasury_Balance_eq w :
  Treasury_Balance w = (Ok (MkCoin IncentiveDenom (treasury_of (inc_bank w))), w).
Proof.
  unfold Treasury_Balance. rewrite mbind_guard; [done|]. apply negb_true_iff, Z.eqb_neq.
  unfold len. pose proof (bp_account Hbank). destruct (GetModuleAddress TreasuryAccountName); [done|].
  simpl. lia.
Qed.

Lemma SendToModule_eq w x : 0 < x <= treasury_of (inc_bank w) ->
  exists b', Treasury_SendToModule FeeCollectorName x w = (Ok tt, MkIncWorld (inc_kv w) b') /\
    treasury_of b' = treasury_of (inc_bank w) - x /\ collector_of b' = collector_of (inc_bank w) + x.
Proof.
  intros Hx. destruct (bp_send Hbank _ _ Hx) as (b' & Hs). exists b'.
  pose proof (bp_distinct Hbank) as Hne. split.
  - unfold Treasury_SendToModule. rewrite !mbind_guard by guard_tac.
    erewrite mbind_eq by apply Treasury_Balance_eq. rewrite mbind_guard by (simpl; guard_tac).
    rewrite (mbind_lift _ _ _ (MkCoin IncentiveDenom x)).
    2: { rewrite NewCoin_spec, (bp_denom Hbank), (proj2 (Z.leb_le 0 x)) by lia. done. }
    rewrite NewCoins_positive by (simpl; lia). unfold inc_bank_op. by rewrite Hs.
  - apply SendModuleToModule_ok in Hs as [_ Hb]. unfold treasury_of, collector_of. rewrite !Hb.
    unfold moved. repeat case_bool_decide; try (exfalso; naive_solver); split; lia.
Qed.

Definition two192 : Z := (2 ^ 192)%Z.

(** Before block [h]: the blocks of the period before [h] are paid, and the
    treasury covers what is left. *)
Record ready w prm per tot (h : Z) : Prop := {
  rd_repr : inc_repr w prm per tot;
  rd_height : 0 <= h < 2 ^ 63;
  rd_period_len : ip_PeriodBlocks prm <= 2 ^ 63;
  rd_treasury : 0 <= treasury_of (inc_bank w) < two192;
  rd_paid : match per with
            | None => True
            | Some p => p_start p <= h <= p_end p /\ p_treasury p < two192 /\
                p_distributed p = due (p_provision p) (h - p_start p) (p_end p - p_start p) /\
                p_provision p - p_distributed p <= treasury_of (inc_bank w)
            end;
}.

(** The period that pays block [h]. *)
Definition current prm per (h bonded treasury : Z) : APeriod :=
  match per with
  | Some p => if p_end p <=? h then snapshot h bonded treasury prm else p
  | None => snapshot h bonded treasury prm
  end.

(** The share of block [h]. *)
Definition share (p : APeriod) (h : Z) : Z :=
  due (p_provision p) (h - p_start p + 1) (p_end p - p_start p)
  - due (p_provision p) (h - p_start p) (p_end p - p_start p).

Lemma two192_mul x y : 0 <= x < two192 -> 0 <= y <= 2 ^ 63 -> 0 <= x * y < two256.
Proof.
  intros Hx Hy. assert (two192 * 2 ^ 63 < two256) by reflexivity.
  assert (x * y <= two192 * 2 ^ 63) by (apply Z.mul_le_mono_nonneg; lia). nia.
Qed.

Lemma snapshot_fits_small prm h bo t : params_wf prm -> 0 <= h < 2 ^ 63 ->
  ip_PeriodBlocks prm <= 2 ^ 63 -> amount_ok bo -> 0 <= t < two192 -> snapshot_fits h bo t prm.
Proof.
  intros [Hr Hy Hp] Hh Hl Hb Ht. pose proof (annual_bounds t (ip_Rate prm) (proj1 Ht) Hr).
  assert (two192 < two256) by reflexivity.
  constructor; unfold amount_ok, MaxUint64, two64; try done; try lia; try right;
    apply two192_mul; lia.
Qed.

(** [ProcessBlock] before the payment: the period is the stored one or a fresh
    snapshot, which is stored. *)
Lemma period_step w prm per tot h bo bt : ready w prm per tot h -> amount_ok bo ->
  let p := current prm per h bo (treasury_of (inc_bank w)) in
  exists w1, period_wf p /\ p_treasury p < two192 /\ p_start p <= h < p_end p /\
    p_distributed p = due (p_provision p) (h - p_start p) (p_end p - p_start p) /\
    p_provision p - p_distributed p <= treasury_of (inc_bank w) /\
    inc_repr w1 prm (Some p) tot /\ inc_bank w1 = inc_bank w /\
    (match conc <$> per with
     | Some state => if ps_EndBlock state <=? u64 h then SnapshotPeriod (MkCtx bt h) (Ok bo) else mret state
     | None => SnapshotPeriod (MkCtx bt h) (Ok bo)
     end) w = (Ok (conc p), w1).
Proof.
  intros [Hre Hh Hl Ht Hpd] Hb p. pose proof (ir_prm _ _ _ _ Hre) as Hwf.
  assert (u64 h = h) as Hu by (apply u64_small; unfold is_u64, two64; lia).
  assert (Hsnap : p = snapshot h bo (treasury_of (inc_bank w)) prm -> exists w1, period_wf p /\
    p_treasury p < two192 /\ p_start p <= h < p_end p /\
    p_distributed p = due (p_provision p) (h - p_start p) (p_end p - p_start p) /\
    p_provision p - p_distributed p <= treasury_of (inc_bank w) /\
    inc_repr w1 prm (Some p) tot /\ inc_bank w1 = inc_bank w /\
    SnapshotPeriod (MkCtx bt h) (Ok bo) w = (Ok (conc p), w1)).
  { intros ->. pose proof (snapshot_fits_small prm h bo _ Hwf Hh Hl Hb Ht) as Hf.
    pose proof (snapshot_wf _ _ _ _ Hwf Hf) as Hpw.
    destruct (SetPeriodState_repr _ _ _ _ _ Hre Hpw) as (w1 & Hw1 & H1 & Hb1). exists w1.
    pose proof (provision_bounds _ bo prm (proj1 Ht) Hwf).
    pose proof (annual_bounds _ _ (proj1 Ht) (pr_rate _ Hwf)). pose proof (pr_period _ Hwf).
    split_and!; try done; simpl; try lia.
    - unfold due. rewrite Z.sub_diag, Z.mul_0_r. by rewrite Z.div_0_l by lia.
    - unfold SnapshotPeriod. rewrite mbind_guard by (simpl; guard_tac).
      rewrite (mbind_lift _ _ _ bo) by done. rewrite mbind_guard by (guard_tac; apply Hb).
      erewrite mbind_eq by apply Treasury_Balance_eq. rewrite mbind_guard by done.
      erewrite mbind_eq by (by eapply GetParams_repr). simpl Amount. simpl BlockHeight. rewrite Hu.
      rewrite (mbind_lift _ _ _ _ (NewPeriodState_fits _ _ _ _ Hwf Hf)).
      erewrite mbind_eq by exact Hw1. done. }
  destruct per as [q|]; [|by apply Hsnap].
  cbn [fmap option_fmap option_map conc ps_EndBlock]. rewrite Hu. unfold p, current in *.
  destruct (Z.leb_spec (p_end q) h) as [Hle|Hlt]; [by apply Hsnap|].
  exists w. destruct Hpd as (Hs & Htr & Hdi & Hcov). pose proof (ir_period _ _ _ _ Hre) as [Hq _].
  split_and!; try done; lia.
Qed.

Lemma share_bounds p h : period_wf p -> p_start p <= h < p_end p ->
  p_distributed p = due (p_provision p) (h - p_start p) (p_end p - p_start p) ->
  0 <= share p h /\ p_distributed p + share p h =
    due (p_provision p) (h + 1 - p_start p) (p_end p - p_start p) /\
  p_distributed p + share p h <= p_provision p.
Proof.
  intros Hw Hh Hd. destruct (provision_ok p Hw) as [[Hp _] _]. unfold share. rewrite Hd.
  replace (h + 1 - p_start p) with (h - p_start p + 1) by lia.
  pose proof (due_mono (p_provision p) (h - p_start p) (h - p_start p + 1) (p_end p - p_start p) Hp
    ltac:(lia) ltac:(lia)).
  pose proof (due_bounds (p_provision p) (h - p_start p + 1) (p_end p - p_start p) Hp
    ltac:(lia) ltac:(lia)). lia.
Qed.

Lemma pay_zero p : pay 0 p = p.
Proof. destruct p. unfold pay. simpl. by rewrite Z.add_0_r. Qed.

(** What a processed block leaves behind. *)
Definition block_paid w prm (p : APeriod) tot (h : Z) w' : Prop :=
  inc_repr w' prm (Some (pay (share p h) p)) (tot + share p h) /\
  treasury_of (inc_bank w') = treasury_of (inc_bank w) - share p h /\
  collector_of (inc_bank w') = collector_of (inc_bank w) + share p h.

Lemma pay_share w prm p tot h : inc_repr w prm (Some p) tot -> p_start p <= h < p_end p ->
  p_distributed p = due (p_provision p) (h - p_start p) (p_end p - p_start p) ->
  p_provision p - p_distributed p <= treasury_of (inc_bank w) -> tot + share p h < two256 ->
  exists w', block_paid w prm p tot h w' /\
    (if share p h =? 0 then mret tt else
     do! Treasury_SendToModule FeeCollectorName (share p h); RecordDistribution (share p h)) w = (Ok tt, w').
Proof.
  intros Hre Hh Hd Hcov Hfit. pose proof (ir_period _ _ _ _ Hre) as [Hwf _].
  destruct (share_bounds p h Hwf Hh Hd) as (Hs & Hsum & Hle). unfold block_paid.
  destruct (Z.eqb_spec (share p h) 0) as [->|Hne].
  - exists w. rewrite pay_zero, !Z.add_0_r, Z.sub_0_r. done.
  - destruct (SendToModule_eq w (share p h) ltac:(lia)) as (b' & Hsend & Ht & Hc).
    destruct (RecordDistribution_repr _ _ _ _ (share p h) (inc_repr_bank _ _ _ _ b' Hre))
      as (w' & Hrec & Hre' & Hb); [lia..|].
    exists w'. rewrite Hb. split; [done|]. erewrite mbind_eq by exact Hsend. exact Hrec.
Qed.

Lemma block_step w prm per tot h bo bt : ready w prm per tot h -> amount_ok bo ->
  let p := current prm per h bo (treasury_of (inc_bank w)) in
  tot + share p h < two256 ->
  exists w', inc_BeginBlock (MkCtx bt h) (Ok bo) w = (Ok tt, w') /\ block_paid w prm p tot h w' /\
    (h + 1 < 2 ^ 63 -> ready w' prm (Some (pay (share p h) p)) (tot + share p h) (h + 1)).
Proof.
  intros Hr Hb p Hfit.
  destruct (period_step w prm per tot h bo bt Hr Hb) as (w1 & Hwf & Htr & Hh & Hd & Hcov & Hre1 & Hb1 & Hrun).
  fold p in Hwf, Htr, Hh, Hd, Hcov, Hre1, Hrun. destruct Hr as [Hre Hhh Hl Ht _].
  destruct (share_bounds p h Hwf Hh Hd) as (Hs & Hsum & Hle).
  destruct (provision_ok p Hwf) as [Hpr Hdi].
  destruct (pay_share w1 prm p tot h Hre1 Hh Hd ltac:(by rewrite Hb1) Hfit) as (w' & Hpaid & Hpay).
  assert (u64 h = h) as Hu by (apply u64_small; unfold is_u64, two64; lia).
  exists w'. unfold block_paid in *. rewrite Hb1 in Hpaid. split; [|split; [done|]].
  - unfold inc_BeginBlock, ProcessBlock. rewrite mbind_guard by (simpl; guard_tac).
    erewrite mbind_eq by (by eapply GetPeriodState_repr). simpl BlockHeight.
    erewrite mbind_eq by exact Hrun. rewrite Hu. cbn [conc ps_StartBlock ps_EndBlock ps_PeriodProvision ps_Distributed].
    rewrite mbind_guard by (rewrite (proj2 (Z.ltb_ge _ _)), (proj2 (Z.leb_gt _ _)) by lia; done).
    rewrite !(mbind_lift _ _ _ _ (parse_amount _ Hpr)), !(mbind_lift _ _ _ _ (parse_amount _ Hdi)).
    pose proof (pw_start _ Hwf) as Hps. pose proof (pw_end _ Hwf) as Hpe. unfold is_u64 in Hps, Hpe.
    rewrite !u64_small by (unfold is_u64; lia).
    rewrite (mbind_lift _ _ _ (p_distributed p + share p h)).
    2: { rewrite Hsum. replace (h - p_start p + 1) with (h + 1 - p_start p) by lia.
         apply CumulativeProvision_due; [lia|lia|apply Hpr|]. apply two192_mul; [|lia].
         pose proof (pw_provision _ Hwf). unfold amount_ok in Hpr. lia. }
    rewrite (mbind_lift _ _ _ (share p h)).
    2: { rewrite Int_Sub_spec, fits_amount; [f_equal; lia|]. unfold amount_ok in *. lia. }
    rewrite mbind_guard by guard_tac. exact Hpay.
  - intros Hh1. destruct Hpaid as (Hre' & Ht' & Hc'). constructor; [done|lia|done| |].
    + rewrite Ht'. unfold two192 in *. lia.
    + unfold pay. simpl. rewrite Ht'. split_and!; [lia..|done| |lia]. exact Hsum.
Qed.

(** ** Runs of blocks *)

(** A block as the module sees it: the time, the bonded power the staking
    keeper reports, and what the transactions of the block do to the bank. *)
Definition BlockInput : Type := (Z * Z * (B -> B))%type.

(** The transactions of a block may fund the treasury and never drain it. *)
Definition block_ok (i : BlockInput) : Prop :=
  amount_ok i.1.2 /\
  forall b, treasury_of b < two192 -> treasury_of b <= treasury_of (i.2 b) < two192.

Definition after (f : B -> B) w : IncWorld B := MkIncWorld (inc_kv w) (f (inc_bank w)).

(** Blocks [h], [h + 1], ...: an error of the module stops the chain. *)
Fixpoint run_blocks (h : Z) (l : list BlockInput) (w : IncWorld B) : outcome unit * IncWorld B :=
  match l with
  | [] => (Ok tt, w)
  | (bt, bo, f) :: l =>
    match inc_BeginBlock (MkCtx bt h) (Ok bo) w with
    | (Ok _, w') => run_blocks (h + 1) l (after f w')
    | (r, w') => (r, w')
    end
  end.

(** What the transactions of the blocks themselves add to the balance [bal]. *)
Fixpoint txs_change (bal : B -> Z) (h : Z) (l : list BlockInput) w : Z :=
  match l with
  | [] => 0
  | (bt, bo, f) :: l =>
    match inc_BeginBlock (MkCtx bt h) (Ok bo) w with
    | (Ok _, w') => bal (f (inc_bank w')) - bal (inc_bank w') + txs_change bal (h + 1) l (after f w')
    | _ => 0
    end
  end.

(** What the module adds to the balance [bal] over the blocks. *)
Definition module_change (bal : B -> Z) (h : Z) (l : list BlockInput) w w' : Z :=
  bal (inc_bank w') - bal (inc_bank w) - txs_change bal h l w.

Lemma ready_after w prm per tot h i : ready w prm per tot h -> block_ok i ->
  ready (after i.2 w) prm per tot h.
Proof.
  intros [Hre Hh Hl Ht Hp] [_ Hi]. specialize (Hi (inc_bank w) (proj2 Ht)).
  constructor; [by apply inc_repr_bank|done|done|simpl; lia|].
  destruct per as [p|]; [|done]. destruct Hp as (?&?&?&?). simpl.
  repeat (split; [done|]). lia.
Qed.

Lemma share_small w prm per tot h bo (bt : Z) : ready w prm per tot h -> amount_ok bo ->
  0 <= share (current prm per h bo (treasury_of (inc_bank w))) h < two192.
Proof.
  intros Hr Hb. destruct (period_step w prm per tot h bo bt Hr Hb) as (_ & Hwf & _ & Hh & Hd & Hc & _).
  destruct (share_bounds _ h Hwf Hh Hd) as (Hs & _ & Hle). pose proof (rd_treasury _ _ _ _ _ Hr). lia.
Qed.

(** One block of a run. *)
Lemma run_block w prm per tot h bt bo f l : ready w prm per tot h -> block_ok (bt, bo, f) ->
  h + 1 < 2 ^ 63 -> tot + two192 <= two256 ->
  let p := current prm per h bo (treasury_of (inc_bank w)) in
  exists w', ready w' prm (Some (pay (share p h) p)) (tot + share p h) (h + 1) /\
    run_blocks h ((bt, bo, f) :: l) w = run_blocks (h + 1) l w' /\
    forall w2, module_change treasury_of h ((bt, bo, f) :: l) w w2 = module_change treasury_of (h + 1) l w' w2 - share p h /\
      module_change collector_of h ((bt, bo, f) :: l) w w2 = module_change collector_of (h + 1) l w' w2 + share p h.
Proof.
  intros Hr Hi Hh Hfit p. destruct Hi as [Hb Hf]. simpl in Hb.
  pose proof (share_small w prm per tot h bo bt Hr Hb) as Hs. fold p in Hs.
  destruct (block_step w prm per tot h bo bt Hr Hb) as (w' & Hrun & (_ & Ht & Hc) & Hr'); [fold p; lia|].
  fold p in Ht, Hc. exists (after f w'). split_and!; [|simpl; by rewrite Hrun|].
  - apply (ready_after w' prm _ _ _ (bt, bo, f)); [by apply Hr'|done].
  - intros w2. unfold module_change. simpl. rewrite Hrun, Ht, Hc. split; lia.
Qed.

Lemma run_ready l w prm per tot h : ready w prm per tot h -> Forall block_ok l ->
  h + Z.of_nat (length l) < 2 ^ 63 -> tot + Z.of_nat (length l) * two192 <= two256 ->
  exists w' per' tot', run_blocks h l w = (Ok tt, w') /\ tot <= tot' /\
    ready w' prm per' tot' (h + Z.of_nat (length l)).
Proof.
  revert w per tot h. induction l as [|[[bt bo] f] l IH]; intros w per tot h Hr Hl Hh Hfit.
  - exists w, per, tot. rewrite Z.add_0_r. split_and!; [done|lia|done].
  - apply Forall_cons in Hl as [Hi Hl]. simpl length in *. rewrite Nat2Z.inj_succ in *.
    assert (0 < two192) by reflexivity.
    destruct (run_block w prm per tot h bt bo f l Hr Hi ltac:(lia) ltac:(nia)) as (w1 & Hr1 & Hrb & _).
    pose proof (share_small w prm per tot h bo bt Hr (proj1 Hi)) as Hs.
    destruct (IH _ _ _ _ Hr1 Hl) as (w' & per' & tot' & Hrun & Htot & Hr'); [lia|nia|].
    exists w', per', tot'. split_and!; [by etrans; [exact Hrb|]|lia|]. by replace (h + Z.succ _) with (h + 1 + Z.of_nat (length l)) by lia.
Qed.

(** Inside a period the schedule telescopes. *)
Lemma run_in_period l w prm p tot h : ready w prm (Some p) tot h -> Forall block_ok l ->
  h + Z.of_nat (length l) < 2 ^ 63 -> h + Z.of_nat (length l) <= p_end p ->
  tot + Z.of_nat (length l) * two192 <= two256 ->
  let x := due (p_provision p) (h + Z.of_nat (length l) - p_start p) (p_end p - p_start p)
           - p_distributed p in
  exists w', run_blocks h l w = (Ok tt, w') /\
    ready w' prm (Some (pay x p)) (tot + x) (h + Z.of_nat (length l)) /\
    module_change treasury_of h l w w' = - x /\ module_change collector_of h l w w' = x.
Proof.
  revert w p tot h. induction l as [|[[bt bo] f] l IH]; intros w p tot h Hr Hl Hh He Hfit x.
  - assert (x = 0) as ->.
    { destruct (rd_paid _ _ _ _ _ Hr) as (_ & _ & Hd & _). unfold x. rewrite Hd. simpl.
      rewrite Z.add_0_r. lia. }
    exists w. rewrite pay_zero, !Z.add_0_r. unfold module_change. simpl. split_and!; [done..|lia|lia].
  - apply Forall_cons in Hl as [Hi Hl]. simpl length in *. rewrite Nat2Z.inj_succ in *.
    assert (0 < two192) by reflexivity.
    destruct (run_block w prm (Some p) tot h bt bo f l Hr Hi ltac:(lia) ltac:(nia)) as (w1 & Hr1 & Hrb & Hm).
    pose proof (share_small w prm (Some p) tot h bo bt Hr (proj1 Hi)) as Hs.
    unfold current in Hr1, Hs, Hm. rewrite (proj2 (Z.leb_gt _ _)) in Hr1, Hs, Hm by lia.
    destruct (IH _ _ _ _ Hr1 Hl) as (w' & Hrun & Hr' & Ht & Hc); [lia|simpl; lia|nia|]. destruct (Hm w') as [Hmt Hmc].
    exists w'. split; [by etrans; [exact Hrb|]|]. cbn [pay p_provision p_start p_end p_distributed] in Ht, Hc. rewrite Ht in Hmt. rewrite Hc in Hmc.
    replace (h + 1 + Z.of_nat (length l)) with (h + Z.succ (Z.of_nat (length l))) in Hmt, Hmc by lia. revert Hr'. unfold x. simpl length. rewrite ?Nat2Z.inj_succ. unfold pay. simpl. set (s := share p h).
    replace (h + 1 + Z.of_nat (length l)) with (h + Z.succ (Z.of_nat (length l))) by lia.
    set (d := due _ _ _). replace (p_distributed p + s + (d - (p_distributed p + s)))
      with (p_distributed p + (d - p_distributed p)) by lia.
    replace (tot + s + (d - (p_distributed p + s))) with (tot + (d - p_distributed p)) by lia.
    intros Hr'. split_and!; [done|etrans; [exact Hmt|]|etrans; [exact Hmc|]]; unfold s, d; lia.
Qed.
End blocks.
