(* ===== verification/IncentivesSafety.v ===== *)
(** * x/validatorincentives: what the module guarantees

    The payment of one block, of a whole period and of any run of blocks; the
    authority's parameter update; and what an exported genesis keeps. *)

From Stdlib Require Import ZArith Lia List String Ascii Bool.
From stdpp Require Import base gmap strings list.
From S2P Require Import Prelude GoStrings GoJson Sdk RefEnv Incentives IncentivesTheorems.
Local Open Scope Z_scope.
Local Open Scope go_scope.

(** ** The twenty bytes of the parameters *)

Lemma substring_skip (a b : string) n m :
  String.substring (String.length a + n) m (a +:+ b) = String.substring n m b.
Proof. induction a as [|c a IH]; [done|exact IH]. Qed.

Lemma substring_prefix (a b : string) : String.substring 0 (String.length a) (a +:+ b) = a.
Proof. induction a as [|c a IH]; [destruct b; reflexivity|].
  change (String c (String.substring 0 (String.length a) (a +:+ b)) = String c a). by rewrite IH. Qed.

Lemma decode_encode p : params_wf p -> decode_params (encode_params p) = p.
Proof.
  intros [Hr Hy Hp]. pose proof (PutUint32_length (ip_Rate p)) as Hl1.
  pose proof (PutUint64_length (ip_BlocksPerYear p)) as Hl2.
  pose proof (PutUint64_length (ip_PeriodBlocks p)) as Hl3. unfold two64 in Hy.
  unfold decode_params, encode_params, len. rewrite !string_app_length, Hl1, Hl2, Hl3.
  change (negb _) with false. cbv iota.
  remember (PutUint32 (ip_Rate p)) as a eqn:Ea. remember (PutUint64 (ip_BlocksPerYear p)) as b eqn:Eb.
  remember (PutUint64 (ip_PeriodBlocks p)) as c eqn:Ec.
  pose proof (substring_prefix a (b +:+ c)) as E1. pose proof (substring_prefix b c) as E2.
  pose proof (substring_skip a (b +:+ c) 0 8) as S1. pose proof (substring_skip a (b +:+ c) 8 8) as S2.
  pose proof (substring_skip b c 0 8) as S3. pose proof (substring_all c) as E3.
  rewrite Hl1 in E1, S1, S2. rewrite Hl2 in E2, S3. rewrite Hl3 in E3. cbn [Nat.add] in S1, S2, S3.
  rewrite E1, S1, E2, S2, S3, E3.
  subst a b c. rewrite Uint32_PutUint32, !Uint64_PutUint64.
  unfold u32, u64, two32, two64. rewrite !Z.mod_small by lia. by destruct p.
Qed.

Section store.
Context {Mt : SdkMath} {T : SdkTypes} {B : Type} {Bk : BankOps B}.
Implicit Types (w : IncWorld B).

(** The integer ranges of the parameter fields. *)
Definition params_typed (p : IncParams) : Prop :=
  0 <= ip_Rate p /\ is_u64 (ip_BlocksPerYear p) /\ is_u64 (ip_PeriodBlocks p).

Lemma params_Validate_wf p : params_typed p -> IncParams_Validate p = Ok tt <-> params_wf p.
Proof.
  intros (Hr & Hy & Hp). split; [|apply params_Validate]. unfold is_u64 in *.
  unfold IncParams_Validate, BasisPointDenominator. intros H. minv.
  repeat match goal with H' : negb _ = true |- _ => apply negb_true_iff in H' end. zify_bool.
  constructor; lia.
Qed.

Definition with_params (p : IncParams) w : IncWorld B := iput ParamsKey (encode_params p) w.

Lemma SetParams_eq p w : params_wf p -> SetParams p w = (Ok tt, with_params p w).
Proof. intros H. unfold SetParams. by rewrite (mbind_lift _ _ _ _ (params_Validate p H)). Qed.

Lemma GetParams_with p w : params_wf p -> GetParams (with_params p w) = (Ok p, with_params p w).
Proof.
  intros H. unfold GetParams, inc_get. rewrite mbind_reads. unfold with_params, iput, kv_get. simpl.
  rewrite lookup_insert_eq. simpl. by rewrite decode_encode.
Qed.

Definition inc_fresh (b : B) : IncWorld B := MkIncWorld ∅ b.

(** The store [InitGenesis] builds on a fresh chain. *)
Definition inc_started (g : IncGenesis) (b : B) : IncWorld B :=
  let w := iput TotalDistributedKey (FormatInt 0) (with_params (ig_Params g) (inc_fresh b)) in
  if String.eqb (ig_Authority g) EmptyString then w else iput AuthorityKey (ig_Authority g) w.

Lemma IncGenesis_Validate_Ok g : params_wf (ig_Params g) ->
  ig_Authority g = EmptyString \/ is_ok (AccAddressFromBech32 (ig_Authority g)) = true ->
  IncGenesis_Validate g = Ok tt /\ is_ascii (ig_Authority g) = true.
Proof.
  intros Hp Ha. unfold IncGenesis_Validate. rewrite (params_Validate _ Hp). cbn [owrap obind].
  destruct Ha as [-> | Ha]; [done|].
  destruct (AccAddressFromBech32 (ig_Authority g)) as [a| |] eqn:Hacc; try discriminate Ha.
  pose proof (AccAddressFromBech32_visible _ _ Hacc) as Hv.
  rewrite (visible_TrimSpace _ Hv), String.eqb_refl. split; [|by apply visible_ascii].
  destruct (String.eqb (ig_Authority g) EmptyString); [done|]. simpl. by rewrite Hacc.
Qed.

Lemma inc_InitGenesis_eq g b : params_wf (ig_Params g) -> IncGenesis_Validate g = Ok tt ->
  inc_InitGenesis g (inc_fresh b) = (Ok tt, inc_started g b).
Proof.
  intros Hp Hv. unfold inc_InitGenesis.
  rewrite (mbind_lift _ _ _ _ Hv). erewrite mbind_eq by by apply SetParams_eq.
  unfold SetTotalDistributed at 1. rewrite Int_String_spec. unfold inc_started.
  destruct (String.eqb (ig_Authority g) EmptyString); done.
Qed.

Lemma IncGenesis_roundtrip g : params_wf (ig_Params g) -> is_ascii (ig_Authority g) = true ->
  IncGenesis_Unmarshal (Marshal (IncGenesis_json g)) = Ok g.
Proof.
  intros [Hr Hy Hp] Ha. unfold IncGenesis_Unmarshal. rewrite Parse_Marshal.
  - unfold IncGenesis_json, IncGenesis_members, IncGenesis_member. key_eval. cbn [as_string obind].
    unfold as_IncParams, IncParams_json, IncParams_members, IncParams_member. key_eval. unfold two64 in *.
    rewrite as_uint_FormatInt by (unfold two32; lia). cbn [obind].
    rewrite as_uint_FormatInt by lia. cbn [obind]. rewrite as_uint_FormatInt by lia. cbn [obind].
    by destruct g as [a [r y n]].
  - constructor. apply List.Forall_cons; [split; [done|]|].
    + constructor. by apply utf8_valid_ascii.
    + apply List.Forall_cons; [split; [done|]|apply List.Forall_nil]. constructor.
      repeat (apply List.Forall_cons; [split; [done|simpl; constructor; lia]|]). apply List.Forall_nil.
Qed.

Lemma inc_started_repr g b : params_wf (ig_Params g) ->
  inc_repr (inc_started g b) (ig_Params g) None 0.
Proof.
  intros Hp. unfold inc_started. destruct (String.eqb (ig_Authority g) EmptyString);
    (constructor; [done|unfold kv_get; simpl|simpl| |left; simpl]; try (by simplify_map_eq)).
  all: try (by rewrite ?lookup_insert_ne by ineq; rewrite lookup_insert_eq; apply decode_encode).
  all: unfold amount_ok, two256; lia.
Qed.

Lemma inc_started_authority g b : kv_get (inc_kv (inc_started g b)) AuthorityKey = ig_Authority g.
Proof.
  unfold inc_started, kv_get. destruct (String.eqb_spec (ig_Authority g) EmptyString) as [->|_]; simpl.
  - by rewrite !lookup_insert_ne by ineq.
  - by rewrite lookup_insert_eq.
Qed.
End store.

(** ** The claims *)

Section claims.
Context {Mt : SdkMath} {T : SdkTypes} {B : Type} {Bk : BankOps B} {BL : BankLaws B}.
Implicit Types (w : IncWorld B).

(** When the blocks before [h] are paid and the treasury covers the rest
    of the period, [BeginBlock] at [h] succeeds and moves exactly the block's
    share of the provision from the treasury to the fee collector, recording
    it in the period and in the total; a period that has ended is first
    replaced by a snapshot of the treasury and the bonded stake. *)
Theorem block_pays_schedule w prm per tot h bonded time :
  bank_pays (B := B) -> ready w prm per tot h -> amount_ok bonded ->
  let p := current prm per h bonded (treasury_of (inc_bank w)) in
  tot + share p h < two256 ->
  exists w', inc_BeginBlock (MkCtx time h) (Ok bonded) w = (Ok tt, w') /\
    treasury_of (inc_bank w') = treasury_of (inc_bank w) - share p h /\
    collector_of (inc_bank w') = collector_of (inc_bank w) + share p h /\
    GetPeriodState w' = (Ok (Some (conc (pay (share p h) p))), w') /\
    GetTotalDistributed w' = (Ok (tot + share p h), w').
Proof.
  intros Hb Hr Ha p Hf. destruct (block_step Hb w prm per tot h bonded time Hr Ha Hf)
    as (w' & Hrun & (Hre & Ht & Hc) & _).
  exists w'. split_and!; [done..| |by eapply GetTotalDistributed_repr].
  by rewrite (GetPeriodState_repr _ _ _ _ Hre).
Qed.

(** A period starts at [h]. *)
Definition starts_at (per : option APeriod) (h : Z) : Prop :=
  match per with None => True | Some p => p_end p = h end.

(** C39: Over the blocks of a whole period whose transactions do not drain the
    treasury ([block_ok]) the module never fails, and it distributes exactly the
    provision computed from the treasury balance and the bonded stake at the
    start: the rounding of the single blocks loses nothing. The coins move: what
    the transactions themselves do set aside, the treasury ends with the
    provision less and the fee collector with the provision more. *)
Theorem period_pays_provision w prm per tot h time bonded txs (blocks : list (BlockInput (B := B))) :
  bank_pays (B := B) -> ready w prm per tot h -> starts_at per h ->
  Forall block_ok ((time, bonded, txs) :: blocks) ->
  Z.of_nat (length ((time, bonded, txs) :: blocks)) = ip_PeriodBlocks prm ->
  h + ip_PeriodBlocks prm < 2 ^ 63 -> tot + ip_PeriodBlocks prm * two192 <= two256 ->
  let provision := provision_of (treasury_of (inc_bank w)) bonded prm in
  exists w' p, run_blocks h ((time, bonded, txs) :: blocks) w = (Ok tt, w') /\
    treasury_of (inc_bank w') = treasury_of (inc_bank w) - provision + txs_change treasury_of h ((time, bonded, txs) :: blocks) w /\
    collector_of (inc_bank w') = collector_of (inc_bank w) + provision + txs_change collector_of h ((time, bonded, txs) :: blocks) w /\
    GetTotalDistributed w' = (Ok (tot + provision), w') /\
    GetPeriodState w' = (Ok (Some (conc p)), w') /\
    p_start p = h /\ p_end p = h + ip_PeriodBlocks prm /\
    p_provision p = provision /\ p_distributed p = provision.
Proof.
  intros Hb Hr Hs Hl Hn Hh Hf provision. apply Forall_cons in Hl as [Hi Hl].
  change (length _) with (S (length blocks)) in Hn. rewrite Nat2Z.inj_succ in Hn. assert (0 < two192) by reflexivity.
  destruct (run_block Hb w prm per tot h time bonded txs blocks Hr Hi ltac:(lia) ltac:(nia))
    as (w1 & Hr1 & Hrun & Hm).
  pose proof (share_small Hb w prm per tot h bonded time Hr (proj1 Hi)) as Hsh.
  assert (current prm per h bonded (treasury_of (inc_bank w))
    = snapshot h bonded (treasury_of (inc_bank w)) prm) as Hcur.
  { destruct per as [q|]; [|done]. simpl in Hs |- *. by rewrite (proj2 (Z.leb_le _ _)) by lia. }
  rewrite Hcur in Hr1, Hsh, Hm. set (s := share _ h) in *. set (q := snapshot _ _ _ _) in *.
  destruct (run_in_period Hb blocks w1 prm (pay s q) (tot + s) (h + 1) Hr1 Hl)
    as (w' & Hrun' & Hr' & Hmt & Hmc); [lia|unfold q; simpl; lia|nia|].
  replace (h + 1 + Z.of_nat (length blocks)) with (h + ip_PeriodBlocks prm) in Hr', Hmt, Hmc by lia.
  cbn [pay p_provision p_start p_end p_distributed] in Hr', Hmt, Hmc. unfold q in Hr', Hmt, Hmc. simpl in Hr', Hmt, Hmc.
  replace (h + ip_PeriodBlocks prm - h) with (ip_PeriodBlocks prm) in Hr', Hmt, Hmc by lia.
  pose proof (pr_period _ (ir_prm _ _ _ _ (rd_repr _ _ _ _ _ Hr))). rewrite due_all in Hr', Hmt, Hmc by lia. fold provision in Hr', Hmt, Hmc.
  destruct (Hm w') as [Ht Hc]. rewrite Hmt in Ht. rewrite Hmc in Hc. unfold module_change in Ht, Hc. pose proof (rd_repr _ _ _ _ _ Hr') as Hre.
  eexists w', _. split_and!; [by rewrite Hrun|lia|lia| |by rewrite (GetPeriodState_repr _ _ _ _ Hre)|done|done|done|].
  - rewrite (GetTotalDistributed_repr _ _ _ _ Hre). do 2 f_equal. lia.
  - simpl. lia.
Qed.

(** Whatever the bonded stake and the funding of the treasury, a chain
    whose treasury is only spent by this module is never halted by it: every
    [BeginBlock] of a run of blocks succeeds, and the total only grows. *)
Theorem incentives_never_halt w prm per tot h blocks :
  bank_pays (B := B) -> ready w prm per tot h -> Forall block_ok blocks ->
  h + Z.of_nat (length blocks) < 2 ^ 63 ->
  tot + Z.of_nat (length blocks) * two192 <= two256 ->
  exists w' tot', run_blocks h blocks w = (Ok tt, w') /\
    GetTotalDistributed w' = (Ok tot', w') /\ tot <= tot'.
Proof.
  intros Hb Hr Hl Hh Hf. destruct (run_ready Hb blocks w prm per tot h Hr Hl Hh Hf)
    as (w' & per' & tot' & Hrun & Htot & Hr').
  exists w', tot'. split_and!; [done|by eapply GetTotalDistributed_repr, rd_repr|done].
Qed.
End claims.

Section updates.
Context {Mt : SdkMath} {T : SdkTypes} {B : Type} {Bk : BankOps B}.
Implicit Types (w : IncWorld B).

(** The parameter message succeeds exactly when its sender is the
    configured, well-formed authority and both the stored and the new
    parameters are valid; it then changes the parameters and nothing else, and
    the new parameters are read back. *)
Theorem update_params_exact m w w' :
  params_typed (im_Params m) ->
  inc_srv_UpdateParams (Some m) w = (Ok tt, w') <->
  (kv_get (inc_kv w) AuthorityKey = im_Authority m /\ im_Authority m <> EmptyString /\
   is_ok (AccAddressFromBech32 (im_Authority m)) = true /\
   IncParams_Validate (decode_params (kv_get (inc_kv w) ParamsKey)) = Ok tt /\
   params_wf (im_Params m) /\
   w' = with_params (im_Params m) w /\ GetParams w' = (Ok (im_Params m), w')).
Proof.
  intros Ht. split.
  - intros H. unfold inc_srv_UpdateParams, HandleUpdateParamsCommand, UpdateParamsCommand_ValidateBasic,
      validateCommandAuthority, UpdateParamsAuthorized, RequireAuthority, inc_GetAuthority, inc_UpdateParams,
      GetParams, SetParams, inc_get, inc_set, IncParams_ValidateUpdate in H. minv.
    repeat match goal with H' : negb _ = true |- _ => apply negb_true_iff in H' end. zify_bool.
    repeat match goal with u : unit |- _ => destruct u end.
    assert (params_wf (im_Params m)) as Hwf by (by apply params_Validate_wf).
    split_and!; try done; [|by apply (GetParams_with _ w)].
    by match goal with H' : AccAddressFromBech32 _ = Ok _ |- _ => rewrite H' end.
  - intros (Ha & Hne & Hacc & Hold & Hwf & -> & _). pose proof (params_Validate _ Hwf) as Hv.
    destruct (AccAddressFromBech32 (im_Authority m)) as [a| |] eqn:Hok; try discriminate Hacc.
    unfold inc_srv_UpdateParams, HandleUpdateParamsCommand.
    assert (UpdateParamsCommand_ValidateBasic (im_Authority m) (im_Params m) = Ok tt) as Hc.
    { unfold UpdateParamsCommand_ValidateBasic, validateCommandAuthority.
      rewrite (proj2 (String.eqb_neq _ _) Hne). simpl. rewrite Hok. simpl. by rewrite Hv. }
    rewrite (mbind_lift _ _ _ _ Hc). unfold UpdateParamsAuthorized.
    assert (RequireAuthority (im_Authority m) w = (Ok tt, w)) as Hauth.
    { unfold RequireAuthority, inc_GetAuthority, inc_get. rewrite mbind_reads, Ha.
      rewrite !mbind_guard by guard_tac. unfold mguard. by rewrite String.eqb_refl. }
    erewrite mbind_eq by exact Hauth. unfold inc_UpdateParams, GetParams, inc_get.
    erewrite mbind_eq by reflexivity.
    rewrite (mbind_lift _ _ _ tt) by (unfold IncParams_ValidateUpdate; by rewrite Hold).
    by apply SetParams_eq.
Qed.

(** An exported genesis starts a chain with the same parameters and
    authority and with no period and a zero total: what was distributed, and
    what is left of the running period, is forgotten. *)
Theorem incentives_genesis_forgets w prm per tot (b : B) :
  inc_repr w prm per tot ->
  let authority := kv_get (inc_kv w) AuthorityKey in
  authority = EmptyString \/ is_ok (AccAddressFromBech32 authority) = true ->
  exists data w1, inc_module_ExportGenesis w = (Ok data, w) /\
    inc_module_InitGenesis data (inc_fresh b) = (Ok tt, w1) /\
    GetParams w1 = (Ok prm, w1) /\ kv_get (inc_kv w1) AuthorityKey = authority /\
    GetTotalDistributed w1 = (Ok 0, w1) /\ GetPeriodState w1 = (Ok None, w1).
Proof.
  intros Hr authority Ha. set (g := MkIncGenesis authority prm).
  exists (Marshal (IncGenesis_json g)), (inc_started g b). pose proof (ir_prm _ _ _ _ Hr) as Hwf.
  pose proof (inc_started_repr g b Hwf) as Hs. destruct (IncGenesis_Validate_Ok g Hwf Ha) as [Hv Hascii].
  split_and!.
  - unfold inc_module_ExportGenesis. erewrite mbind_eq; [reflexivity|].
    unfold inc_ExportGenesis, inc_GetAuthority, inc_get. rewrite mbind_reads.
    by erewrite mbind_eq by (by eapply GetParams_repr).
  - unfold inc_module_InitGenesis. rewrite (mbind_lift _ _ _ g) by (by rewrite (IncGenesis_roundtrip g)).
    rewrite (mbind_lift _ _ _ tt) by (by rewrite Hv). unfold drop_error. by rewrite inc_InitGenesis_eq.
  - by eapply GetParams_repr.
  - apply inc_started_authority.
  - by eapply GetTotalDistributed_repr.
  - by rewrite (GetPeriodState_repr _ _ _ _ Hs).
Qed.
End updates.

(** ** Witnesses: a year of twelve blocks, periods of three, a treasury of
    100,000 *)

Definition ex_inc_params : IncParams := MkIncParams 1000 12 3.
Definition ex_inc_bank : rbank := radd (RBank ∅ ∅) (rmodule TreasuryAccountName) IncentiveDenom 100000.
Definition ex_inc_genesis : IncGenesis := MkIncGenesis "gov" ex_inc_params.
Definition ex_inc_world : IncWorld rbank := inc_started ex_inc_genesis ex_inc_bank.

Lemma ref_bank_pays : bank_pays (B := rbank).
Proof.
  constructor; [by vm_compute|discriminate|discriminate|].
  intros b amt [_ Hle]. cbn [SendCoinsFromModuleToModule ref_bank]. unfold rsend. cbn [Denom Amount].
  unfold treasury_of in Hle. cbn [GetBalance GetModuleAddress ref_bank] in Hle.
  rewrite (proj2 (Z.ltb_ge _ _) Hle). eauto.
Qed.

Lemma ex_inc_treasury : treasury_of (inc_bank ex_inc_world) = 100000.
Proof. reflexivity. Qed.

Lemma ex_inc_ready : ready ex_inc_world ex_inc_params None 0 1.
Proof.
  constructor; [|simpl; lia..| |done].
  - apply inc_started_repr. constructor; simpl; unfold two64; lia.
  - rewrite ex_inc_treasury. unfold two192. lia.
Qed.

Definition ex_inc_block : BlockInput (B := rbank) := (0, 500, fun b => b).

Lemma ex_inc_block_ok : block_ok ex_inc_block.
Proof. split; [unfold amount_ok, two256; simpl; lia|simpl; lia]. Qed.

Lemma block_pays_witness :
  exists w', inc_BeginBlock (MkCtx 0 1) (Ok 500) ex_inc_world = (Ok tt, w') /\
    treasury_of (inc_bank w') = 99167 /\ collector_of (inc_bank w') = 833 /\
    GetTotalDistributed w' = (Ok 833, w').
Proof.
  destruct (block_pays_schedule ex_inc_world ex_inc_params None 0 1 500 0 ref_bank_pays ex_inc_ready)
    as (w' & Hrun & Ht & Hc & _ & Htot).
  - unfold amount_ok, two256. lia.
  - rewrite ex_inc_treasury. vm_compute. reflexivity.
  - rewrite ex_inc_treasury in Ht, Hc, Htot. exists w'. split; [exact Hrun|].
    split; [rewrite Ht; vm_compute; reflexivity|].
    split; [rewrite Hc; vm_compute; reflexivity|rewrite Htot; vm_compute; reflexivity].
Defined.

Lemma period_pays_witness :
  exists w' p, run_blocks 1 [ex_inc_block; ex_inc_block; ex_inc_block] ex_inc_world = (Ok tt, w') /\
    treasury_of (inc_bank w') = 97500 /\ collector_of (inc_bank w') = 2500 /\
    GetTotalDistributed w' = (Ok 2500, w') /\ p_end p = 4 /\ p_distributed p = 2500.
Proof.
  destruct (period_pays_provision ex_inc_world ex_inc_params None 0 1 0 500 (fun b => b)
              [ex_inc_block; ex_inc_block] ref_bank_pays ex_inc_ready I)
    as (w' & p & Hrun & Ht & Hc & Htot & _ & _ & He & _ & Hd).
  - repeat (apply List.Forall_cons; [apply ex_inc_block_ok|]). apply List.Forall_nil.
  - reflexivity.
  - simpl; lia.
  - unfold two192, two256. simpl ip_PeriodBlocks. lia.
  - rewrite ex_inc_treasury in Ht, Hc, Htot, Hd. exists w', p. split; [exact Hrun|].
    split; [rewrite Ht; vm_compute; reflexivity|]. split; [rewrite Hc; vm_compute; reflexivity|].
    split; [rewrite Htot; vm_compute; reflexivity|]. split; [rewrite He; reflexivity|].
    rewrite Hd. vm_compute. reflexivity.
Defined.

Lemma never_halt_witness :
  exists w' tot', run_blocks 1 (repeat ex_inc_block 20) ex_inc_world = (Ok tt, w') /\
    GetTotalDistributed w' = (Ok tot', w') /\ 0 <= tot'.
Proof.
  apply (incentives_never_halt ex_inc_world ex_inc_params None 0 1 _ ref_bank_pays ex_inc_ready).
  - repeat (apply List.Forall_cons; [apply ex_inc_block_ok|]). apply List.Forall_nil.
  - rewrite repeat_length. lia.
  - rewrite repeat_length. unfold two192, two256. lia.
Defined.

Lemma update_params_witness :
  inc_srv_UpdateParams (Some (MkIncMsgUpdateParams "gov" (MkIncParams 500 12 4))) ex_inc_world
  = (Ok tt, with_params (MkIncParams 500 12 4) ex_inc_world).
Proof.
  assert (params_wf (MkIncParams 500 12 4)) as Hwf by (constructor; simpl; unfold two64; lia).
  apply (update_params_exact (MkIncMsgUpdateParams "gov" (MkIncParams 500 12 4))).
  - unfold params_typed, is_u64, two64. simpl. lia.
  - split; [apply inc_started_authority|]. split; [discriminate|]. split; [vm_compute; reflexivity|].
    split; [vm_compute; reflexivity|]. split; [exact Hwf|].
    split; [reflexivity|apply (GetParams_with _ ex_inc_world Hwf)].
Defined.

(** The world after the first block has been paid. *)
Definition ex_inc_paid : IncWorld rbank := (inc_BeginBlock (MkCtx 0 1) (Ok 500) ex_inc_world).2.

Lemma ex_inc_paid_repr : exists per, inc_repr ex_inc_paid ex_inc_params (Some per) 833.
Proof.
  destruct (block_step ref_bank_pays ex_inc_world ex_inc_params None 0 1 500 0 ex_inc_ready)
    as (w' & Hrun & (Hre & _) & _).
  - unfold amount_ok, two256. lia.
  - rewrite ex_inc_treasury. vm_compute. reflexivity.
  - rewrite ex_inc_treasury in Hre. unfold ex_inc_paid. rewrite Hrun. eexists. exact Hre.
Qed.

Lemma genesis_forgets_witness :
  GetTotalDistributed ex_inc_paid = (Ok 833, ex_inc_paid) /\
  exists data w1, inc_module_ExportGenesis ex_inc_paid = (Ok data, ex_inc_paid) /\
    inc_module_InitGenesis data (inc_fresh ex_inc_bank) = (Ok tt, w1) /\ GetTotalDistributed w1 = (Ok 0, w1).
Proof.
  destruct ex_inc_paid_repr as (per & Hre).
  split; [exact (GetTotalDistributed_repr _ _ _ _ Hre)|].
  destruct (incentives_genesis_forgets ex_inc_paid ex_inc_params (Some per) 833 ex_inc_bank Hre)
    as (g & w1 & He & Hi & _ & _ & Ht & _).
  - right. vm_compute. reflexivity.
  - exists g, w1. split; [exact He|]. split; [exact Hi|exact Ht].
Defined.
