(* ===== verification/AccessList.v ===== *)
(** * x/vm/statedb: the access list and the transient storage

    The two per-transaction tables of the EVM state that are not accounts:
    access_list.go (EIP-2929/2930 warm addresses and slots, a map into a slice
    of slot maps) and transient_storage.go (EIP-1153). The theorems are what
    the journal relies on: an addition is undone exactly by the matching
    deletion, and the tables mean the sets and functions they stand for. *)

From Stdlib Require Import ZArith Lia List String Bool.
From stdpp Require Import base gmap strings list.
From S2P Require Import Prelude GoStrings Sdk.
Local Open Scope Z_scope.
Local Open Scope go_scope.

(** [common.Hash] is thirty-two bytes, [common.Address] twenty. *)
Abbreviation hash := string (only parsing).
Definition zero_hash : hash := of_list (repeat (chr 0) 32).

(** ** access_list.go *)

Record accessList := MkAccessList {
  al_addresses : gmap addr Z;
  al_slots : list (gset hash);
}.

Definition newAccessList : accessList := MkAccessList ∅ [].

Definition al_ContainsAddress (al : accessList) (a : addr) : bool :=
  bool_decide (is_Some (al_addresses al !! a)).

(** Indexing [al.slots] panics out of range. *)
Definition slot_at (al : accessList) (idx : Z) : outcome (gset hash) :=
  if idx <? 0 then Panic "index out of range" else
  match al_slots al !! Z.to_nat idx with
  | Some m => Ok m
  | None => Panic "index out of range"
  end.

Definition al_Contains (al : accessList) (a : addr) (slot : hash) : outcome (bool * bool) :=
  match al_addresses al !! a with
  | None => Ok (false, false)
  | Some idx =>
    if idx =? -1 then Ok (true, false) else
    olet m <- slot_at al idx; Ok (true, bool_decide (slot ∈ m))
  end.

Definition al_AddAddress (al : accessList) (a : addr) : bool * accessList :=
  match al_addresses al !! a with
  | Some _ => (false, al)
  | None => (true, MkAccessList (<[a := -1]> (al_addresses al)) (al_slots al))
  end.

Definition al_new_slots (al : accessList) (a : addr) (slot : hash) : accessList :=
  MkAccessList (<[a := Z.of_nat (length (al_slots al))]> (al_addresses al))
    (al_slots al ++ [{[slot]}]).

Definition al_put_slots (al : accessList) (idx : Z) (m : gset hash) : accessList :=
  MkAccessList (al_addresses al) (<[Z.to_nat idx := m]> (al_slots al)).

Definition al_AddSlot (al : accessList) (a : addr) (slot : hash) : outcome (bool * bool * accessList) :=
  match al_addresses al !! a with
  | None => Ok (true, true, al_new_slots al a slot)
  | Some idx =>
    if idx =? -1 then Ok (false, true, al_new_slots al a slot) else
    olet m <- slot_at al idx;
    if bool_decide (slot ∈ m) then Ok (false, false, al)
    else Ok (false, true, al_put_slots al idx ({[slot]} ∪ m))
  end.

Definition al_DeleteSlot (al : accessList) (a : addr) (slot : hash) : outcome accessList :=
  match al_addresses al !! a with
  | None => Panic "reverting slot change, address not present in list"
  | Some idx =>
    olet m <- slot_at al idx;
    let m' := m ∖ {[slot]} in
    if bool_decide (size m' = 0%nat)
    then Ok (MkAccessList (<[a := -1]> (al_addresses al)) (take (Z.to_nat idx) (al_slots al)))
    else Ok (al_put_slots al idx m')
  end.

Definition al_DeleteAddress (al : accessList) (a : addr) : accessList :=
  MkAccessList (delete a (al_addresses al)) (al_slots al).

(** ** transient_storage.go *)

Abbreviation transientStorage := (gmap addr (gmap hash hash)).

Definition ts_Set (t : transientStorage) (a : addr) (key value : hash) : transientStorage :=
  if bool_decide (value = zero_hash) then
    match t !! a with
    | Some m =>
      let m' := delete key m in
      if bool_decide (size m' = 0%nat) then delete a t else <[a := m']> t
    | None => t
    end
  else
    let m := match t !! a with Some m => m | None => ∅ end in
    <[a := <[key := value]> m]> t.

Definition ts_Get (t : transientStorage) (a : addr) (key : hash) : hash :=
  match t !! a with
  | Some m => default zero_hash (m !! key)
  | None => zero_hash
  end.

(** ** The transient storage is a function of address and key *)

Lemma ts_Get_Set t a k v a' k' :
  ts_Get (ts_Set t a k v) a' k' = if bool_decide (a' = a /\ k' = k) then v else ts_Get t a' k'.
Proof.
  unfold ts_Set. case_bool_decide as Hv.
  - subst v. destruct (t !! a) as [m|] eqn:Ht.
    + assert (forall t', t' !! a = (if bool_decide (size (delete k m) = 0%nat) then None else Some (delete k m)) ->
        (forall b, b <> a -> t' !! b = t !! b) ->
        ts_Get t' a' k' = if bool_decide (a' = a /\ k' = k) then zero_hash else ts_Get t a' k') as Hgen.
      { intros t' Ha Hb. unfold ts_Get. destruct (decide (a' = a)) as [->|Hne].
        - rewrite Ha, Ht. case_bool_decide as Hs.
          + apply map_size_empty_inv in Hs. case_bool_decide as Hk; [done|].
            rewrite <- (lookup_delete_ne m k k'), Hs by naive_solver. done.
          + case_bool_decide as Hk; [destruct Hk as [_ ->]; by rewrite lookup_delete_eq|].
            by rewrite lookup_delete_ne by naive_solver.
        - rewrite Hb by done. rewrite (bool_decide_eq_false_2 (a' = a /\ k' = k)); [done|]. by intros []. }
      apply Hgen; intros; case_bool_decide; by rewrite ?lookup_delete_eq, ?lookup_insert_eq,
        ?lookup_delete_ne, ?lookup_insert_ne by done.
    + case_bool_decide as H; [destruct H as [-> ->]|done]. unfold ts_Get. by rewrite Ht.
  - unfold ts_Get. destruct (decide (a' = a)) as [->|Hne].
    + rewrite lookup_insert_eq. case_bool_decide as Hk.
      * destruct Hk as [_ ->]. by rewrite lookup_insert_eq.
      * rewrite lookup_insert_ne by naive_solver. by destruct (t !! a).
    + rewrite lookup_insert_ne by done. case_bool_decide as Hk; [by destruct Hk|done].
Qed.

(** ** The access list *)

(** Every index is in range and owned by one address; no slot map is empty. *)
Record al_wf (al : accessList) : Prop := {
  aw_range a idx : al_addresses al !! a = Some idx ->
    idx = -1 \/ 0 <= idx < Z.of_nat (length (al_slots al));
  aw_inj a b idx : al_addresses al !! a = Some idx -> al_addresses al !! b = Some idx ->
    idx <> -1 -> a = b;
  aw_nonempty : Forall (fun m => m <> ∅) (al_slots al);
}.

Lemma newAccessList_wf : al_wf newAccessList.
Proof.
  constructor; [intros a idx H|intros a b idx H|constructor]; simpl in H; by rewrite lookup_empty in H.
Qed.

Lemma slot_at_Ok al idx m : slot_at al idx = Ok m <->
  0 <= idx /\ al_slots al !! Z.to_nat idx = Some m.
Proof.
  unfold slot_at. destruct (Z.ltb_spec idx 0); [split; [done|lia]|].
  destruct (al_slots al !! Z.to_nat idx); split; intros H'; simplify_eq; naive_solver.
Qed.

Lemma slot_at_wf al a idx : al_wf al -> al_addresses al !! a = Some idx -> idx <> -1 ->
  exists m, slot_at al idx = Ok m /\ m <> ∅ /\ 0 <= idx < Z.of_nat (length (al_slots al)).
Proof.
  intros Hw Ha Hne. destruct (aw_range _ Hw _ _ Ha) as [|Hr]; [done|].
  destruct (lookup_lt_is_Some_2 (al_slots al) (Z.to_nat idx)) as [m Hm]; [lia|].
  exists m. split; [apply slot_at_Ok; split; [lia|done]|]. split; [|done].
  pose proof (aw_nonempty _ Hw) as Hn. rewrite Forall_lookup in Hn. by eapply Hn.
Qed.

Lemma slot_at_put al idx m : 0 <= idx < Z.of_nat (length (al_slots al)) ->
  slot_at (al_put_slots al idx m) idx = Ok m.
Proof.
  intros H. apply slot_at_Ok. split; [lia|]. simpl. apply list_lookup_insert_eq. lia.
Qed.

Lemma slot_at_put_ne al idx j m : 0 <= idx -> 0 <= j -> idx <> j ->
  slot_at (al_put_slots al idx m) j = slot_at al j.
Proof.
  intros Hi Hj Hne. unfold slot_at. simpl. by rewrite list_lookup_insert_ne by lia.
Qed.

Lemma slot_at_new al a s j m : slot_at al j = Ok m -> slot_at (al_new_slots al a s) j = Ok m.
Proof.
  rewrite !slot_at_Ok. intros [Hj Hm]. split; [done|]. simpl. by apply lookup_app_l_Some.
Qed.

Lemma slot_at_last al a s : slot_at (al_new_slots al a s) (Z.of_nat (length (al_slots al))) = Ok {[s]}.
Proof. apply slot_at_Ok. split; [lia|]. simpl. rewrite Nat2Z.id, lookup_app_r by lia. by rewrite Nat.sub_diag. Qed.

Lemma al_AddAddress_wf al a : al_wf al -> al_wf (al_AddAddress al a).2.
Proof.
  intros [Hr Hi Hn]. unfold al_AddAddress. destruct (al_addresses al !! a) eqn:Ha; [done|].
  constructor; simpl; [| |done].
  - intros b idx [[-> <-]|[Hne Hb]]%lookup_insert_Some; [by left|by eapply Hr].
  - intros b c idx [[-> <-]|[Hne Hb]]%lookup_insert_Some [[-> ?]|[Hnc Hc]]%lookup_insert_Some ?;
      simplify_eq; [done..|by eapply Hi].
Qed.

Lemma al_new_slots_wf al a s : al_wf al -> al_wf (al_new_slots al a s).
Proof.
  intros [Hr Hi Hn]. constructor; simpl.
  - intros b idx [[-> <-]|[Hne Hb]]%lookup_insert_Some; rewrite length_app; simpl; [lia|].
    destruct (Hr _ _ Hb); lia.
  - intros b c idx [[-> <-]|[Hne Hb]]%lookup_insert_Some [[-> ?]|[Hnc Hc]]%lookup_insert_Some ?;
      [done|destruct (Hr _ _ Hc); lia| |by eapply Hi].
    subst idx. destruct (Hr _ _ Hb); lia.
  - apply Forall_app. split; [done|]. apply Forall_singleton. set_solver.
Qed.

Lemma al_put_slots_wf al idx m : al_wf al -> m <> ∅ -> al_wf (al_put_slots al idx m).
Proof.
  intros [Hr Hi Hn] Hm. constructor; simpl; [by intros; rewrite length_insert; eapply Hr|done|].
  by apply Forall_insert.
Qed.

(** [AddSlot] never panics, keeps the list well-formed, and reports what it
    changed. *)
Lemma al_AddSlot_cases al a s : al_wf al -> exists ac sc al', al_AddSlot al a s = Ok (ac, sc, al') /\
  al_wf al' /\
  ((al_addresses al !! a = None /\ ac = true /\ sc = true /\ al' = al_new_slots al a s) \/
   (al_addresses al !! a = Some (-1) /\ ac = false /\ sc = true /\ al' = al_new_slots al a s) \/
   (exists idx m, al_addresses al !! a = Some idx /\ idx <> -1 /\ slot_at al idx = Ok m /\ m <> ∅ /\
      0 <= idx < Z.of_nat (length (al_slots al)) /\ ac = false /\ sc = negb (bool_decide (s ∈ m)) /\
      al' = if bool_decide (s ∈ m) then al else al_put_slots al idx ({[s]} ∪ m))).
Proof.
  intros Hw. unfold al_AddSlot. destruct (al_addresses al !! a) as [idx|] eqn:Ha.
  - destruct (Z.eqb_spec idx (-1)) as [->|Hne].
    + eexists _, _, _. split; [done|]. split; [by apply al_new_slots_wf|]. right. by left.
    + destruct (slot_at_wf al a idx Hw Ha Hne) as (m & Hm & Hem & Hr). rewrite Hm. simpl.
      case_bool_decide as Hs; (eexists _, _, _; split; [done|]; split;
        [first [done|apply al_put_slots_wf; [done|set_solver]]|]); right; right; exists idx, m; split_and!; try done; try lia.
        all: first [by rewrite bool_decide_eq_true_2|by rewrite bool_decide_eq_false_2].
  - eexists _, _, _. split; [done|]. split; [by apply al_new_slots_wf|]. by left.
Qed.

Lemma al_AddAddress_undo al a al' : al_AddAddress al a = (true, al') -> al_DeleteAddress al' a = al.
Proof.
  unfold al_AddAddress, al_DeleteAddress. destruct (al_addresses al !! a) eqn:Ha; intros H; simplify_eq.
  simpl. rewrite delete_insert_id by done. by destruct al.
Qed.

Lemma al_DeleteSlot_new al a s :
  al_DeleteSlot (al_new_slots al a s) a s = Ok (MkAccessList (<[a := -1]> (al_addresses al)) (al_slots al)).
Proof.
  unfold al_DeleteSlot. cbn [al_new_slots al_addresses]. rewrite lookup_insert_eq.
  rewrite slot_at_last. cbn [obind]. rewrite difference_diag_L.
  rewrite bool_decide_eq_true_2 by apply size_empty. cbn [al_new_slots al_slots al_addresses].
  rewrite insert_insert_eq, Nat2Z.id, take_app_length. done.
Qed.

(** The journal's undo restores the list exactly. *)
Lemma al_AddSlot_undo al a s ac sc al' : al_wf al -> al_AddSlot al a s = Ok (ac, sc, al') ->
  if sc then exists al1, al_DeleteSlot al' a s = Ok al1 /\ al_wf al1 /\
               (if ac then al_DeleteAddress al1 a else al1) = al
  else ac = false /\ al' = al.
Proof.
  intros Hw H. destruct (al_AddSlot_cases al a s Hw) as (ac' & sc' & al2 & H' & _ & Hc).
  rewrite H' in H. injection H as <- <- <-.
  destruct Hc as [(Ha & -> & -> & ->)|[(Ha & -> & -> & ->)|(idx & m & Ha & Hne & Hm & Hem & Hr & -> & -> & ->)]].
  - eexists. split; [apply al_DeleteSlot_new|]. split.
    + pose proof (al_AddAddress_wf al a Hw) as Hwa. unfold al_AddAddress in Hwa. by rewrite Ha in Hwa.
    + unfold al_DeleteAddress. simpl. rewrite delete_insert_id by done. by destruct al.
  - eexists. split; [apply al_DeleteSlot_new|]. rewrite insert_id by done. by destruct al.
  - case_bool_decide as Hs; simpl; [done|]. exists al. split; [|done]. unfold al_DeleteSlot.
    simpl. rewrite Ha, slot_at_put by done. simpl.
    replace (({[s]} ∪ m) ∖ {[s]}) with m by set_solver.
    rewrite bool_decide_eq_false_2 by (by intros Hz%size_empty_inv%leibniz_equiv).
    unfold al_put_slots. simpl. apply slot_at_Ok in Hm as [_ Hm].
    rewrite list_insert_insert_eq, list_insert_id by done. by destruct al.
Qed.

(** ** The access list as a set of addresses and slots *)

(** What [Contains] answers on a well-formed list. *)
Definition al_view (al : accessList) (a : addr) (s : hash) : bool * bool :=
  match al_Contains al a s with Ok r => r | _ => (false, false) end.

Lemma al_Contains_view al a s : al_wf al -> al_Contains al a s = Ok (al_view al a s).
Proof.
  intros Hw. unfold al_view. unfold al_Contains. destruct (al_addresses al !! a) as [idx|] eqn:Ha; [|done].
  destruct (Z.eqb_spec idx (-1)) as [|Hne]; [done|]. destruct (slot_at_wf al a idx Hw Ha Hne) as (m & -> & _). done.
Qed.

Lemma al_view_at al a s idx m : al_addresses al !! a = Some idx -> idx <> -1 -> slot_at al idx = Ok m ->
  al_view al a s = (true, bool_decide (s ∈ m)).
Proof.
  intros Ha Hne Hm. unfold al_view, al_Contains. rewrite Ha, (proj2 (Z.eqb_neq _ _) Hne), Hm. done.
Qed.

(** Views of two lists that agree on an address and its slots. *)
Lemma al_view_same al al' b s : al_addresses al' !! b = al_addresses al !! b ->
  (forall idx, al_addresses al !! b = Some idx -> idx <> -1 -> slot_at al' idx = slot_at al idx) ->
  al_view al' b s = al_view al b s.
Proof.
  intros Ha Hs. unfold al_view, al_Contains. rewrite Ha. destruct (al_addresses al !! b) as [idx|] eqn:Hb; [|done].
  destruct (Z.eqb_spec idx (-1)); [done|]. by rewrite Hs.
Qed.

Lemma al_AddAddress_view al a b s : al_wf al ->
  al_view (al_AddAddress al a).2 b s = (String.eqb a b || (al_view al b s).1, (al_view al b s).2).
Proof.
  intros Hw. unfold al_AddAddress. destruct (al_addresses al !! a) as [i|] eqn:Ha; simpl.
  - destruct (String.eqb_spec a b) as [<-|]; [|by destruct (al_view al b s)].
    unfold al_view, al_Contains. rewrite Ha. destruct (Z.eqb_spec i (-1)) as [|Hne]; [done|].
    destruct (slot_at_wf al a i Hw Ha Hne) as (m & -> & _). done.
  - destruct (String.eqb_spec a b) as [<-|Hne].
    + unfold al_view, al_Contains. simpl. by rewrite lookup_insert_eq, Ha.
    + rewrite (al_view_same al) by (simpl; by rewrite ?lookup_insert_ne by done). by destruct (al_view al b s).
Qed.

Lemma al_new_slots_view al a s b t : al_wf al -> (al_addresses al !! a = None \/ al_addresses al !! a = Some (-1)) ->
  al_view (al_new_slots al a s) b t =
  (String.eqb a b || (al_view al b t).1, (String.eqb a b && String.eqb s t) || (al_view al b t).2).
Proof.
  intros Hw Ha. destruct (String.eqb_spec a b) as [<-|Hne]; simpl.
  - assert ((al_view al a t).2 = false) as Hv.
    { unfold al_view, al_Contains. by destruct Ha as [-> | ->]. }
    rewrite Hv, orb_false_r. rewrite (al_view_at _ a t (Z.of_nat (length (al_slots al))) {[s]}).
    + f_equal. destruct (String.eqb_spec s t) as [->|]; [by rewrite bool_decide_eq_true_2 by set_solver|].
      by rewrite bool_decide_eq_false_2 by set_solver.
    + simpl. apply lookup_insert_eq.
    + lia.
    + apply slot_at_last.
  - rewrite (al_view_same al); [by destruct (al_view al b t)|simpl; by rewrite lookup_insert_ne|].
    intros idx Hb Hi. destruct (slot_at_wf al b idx Hw Hb Hi) as (m & Hm & _). rewrite Hm. by apply slot_at_new.
Qed.

Lemma al_AddSlot_view al a s ac sc al' b t : al_wf al -> al_AddSlot al a s = Ok (ac, sc, al') ->
  al_view al' b t = (String.eqb a b || (al_view al b t).1, (String.eqb a b && String.eqb s t) || (al_view al b t).2).
Proof.
  intros Hw H. destruct (al_AddSlot_cases al a s Hw) as (ac' & sc' & al2 & H' & _ & Hc).
  rewrite H' in H. injection H as <- <- <-.
  destruct Hc as [(Ha & _ & _ & ->)|[(Ha & _ & _ & ->)|(idx & m & Ha & Hne & Hm & Hem & Hr & _ & _ & ->)]].
  - apply al_new_slots_view; auto.
  - apply al_new_slots_view; auto.
  - destruct (String.eqb_spec a b) as [<-|Hab]; simpl.
    + rewrite (al_view_at al a t idx m) by done. simpl. case_bool_decide as Hs.
      * rewrite (al_view_at al a t idx m) by done. f_equal. destruct (String.eqb_spec s t) as [->|]; [|done].
        by rewrite bool_decide_eq_true_2.
      * rewrite (al_view_at (al_put_slots al idx ({[s]} ∪ m)) a t idx ({[s]} ∪ m)); [|done|done|by apply slot_at_put].
        f_equal. destruct (String.eqb_spec s t) as [->|]; simpl.
        -- by rewrite bool_decide_eq_true_2 by set_solver.
        -- apply bool_decide_ext. set_solver.
    + case_bool_decide; [by destruct (al_view al b t)|].
      rewrite (al_view_same al); [by destruct (al_view al b t)|done|]. intros j Hb Hj.
      apply slot_at_put_ne; [lia| |].
      * destruct (slot_at_wf al b j Hw Hb Hj) as (m' & _ & _ & Hr'). lia.
      * intros ->. apply Hab. by eapply (aw_inj _ Hw).
Qed.

(** A sequence of additions, as the interpreter and [Prepare] make them. *)
Inductive al_op := AlAddress (a : addr) | AlSlot (a : addr) (s : hash).

Fixpoint al_run (l : list al_op) (al : accessList) : outcome accessList :=
  match l with
  | [] => Ok al
  | AlAddress a :: l' => al_run l' (al_AddAddress al a).2
  | AlSlot a s :: l' => olet r <- al_AddSlot al a s; al_run l' r.2
  end.

Definition adds_address (a : addr) (x : al_op) : bool :=
  match x with AlAddress b | AlSlot b _ => String.eqb b a end.
Definition adds_slot (a : addr) (s : hash) (x : al_op) : bool :=
  match x with AlAddress _ => false | AlSlot b t => String.eqb b a && String.eqb t s end.

Lemma al_run_view l al a s : al_wf al -> exists al', al_run l al = Ok al' /\ al_wf al' /\
  al_view al' a s = (existsb (adds_address a) l || (al_view al a s).1, existsb (adds_slot a s) l || (al_view al a s).2).
Proof.
  revert al. induction l as [|[b|b t] l IH]; intros al Hw; simpl.
  - exists al. by destruct (al_view al a s).
  - destruct (IH _ (al_AddAddress_wf al b Hw)) as (al' & Hr & Hw' & Hv). exists al'. split_and!; [done..|].
    rewrite Hv, al_AddAddress_view by done. simpl. f_equal.
    by rewrite orb_assoc, (orb_comm _ (String.eqb b a)).
  - destruct (al_AddSlot_cases al b t Hw) as (ac & sc & al1 & Hadd & Hw1 & _). rewrite Hadd. simpl.
    destruct (IH al1 Hw1) as (al' & Hr & Hw' & Hv). exists al'. split_and!; [done..|].
    rewrite Hv, (al_AddSlot_view al b t ac sc al1) by done. simpl. f_equal.
    + by rewrite orb_assoc, (orb_comm _ (String.eqb b a)).
    + by rewrite orb_assoc, (orb_comm _ (_ && _)).
Qed.

(** The access list is a set. After any sequence of additions, none of which
    panics, [Contains] answers for every address and slot whether the address
    was added (by itself or with a slot) and whether that slot was added for
    that address. *)
Theorem access_list_is_set l a s : exists al, al_run l newAccessList = Ok al /\
  al_Contains al a s = Ok (existsb (adds_address a) l, existsb (adds_slot a s) l).
Proof.
  destruct (al_run_view l newAccessList a s newAccessList_wf) as (al & Hr & Hw & Hv). exists al. split; [done|].
  rewrite al_Contains_view by done. rewrite Hv. simpl. by rewrite !orb_false_r.
Qed.
