(* ===== verification/SnapshotStore.v ===== *)
(** * x/vm/store: stores with snapshots

    A stateful precompile of the EVM works on a branch of the chain's stores
    that the EVM can roll back. store/types/store.go is the interface,
    store/snapshotkv/store.go a stack of nested cache layers over one store,
    store/snapshotmulti/store.go one such stack per store key, kept in step.

    A cache layer is the SDK's [CacheWrap]; it is a parameter here, with what
    its documentation promises as the laws [CacheLayerLaws]. The theorems: a
    snapshot does not change what is read, reverting to it restores the store
    exactly whatever was written and snapshotted since, an index out of range
    panics, and committing writes what the top layer shows. *)

From Stdlib Require Import ZArith Lia List String Bool.
From stdpp Require Import base gmap strings list.
From S2P Require Import Prelude GoStrings Sdk.
Local Open Scope Z_scope.
Local Open Scope go_scope.

(** ** Cache layers (cosmossdk.io/store [CacheWrap]) *)

(** [CacheWrap p] is a new branch of [p]; [WriteTo c p] is the parent [p] after
    [c.Write()]. *)
Class CacheLayer (C : Type) := {
  layer_get : C -> bytes -> option bytes;
  layer_set : bytes -> bytes -> C -> C;
  layer_delete : bytes -> C -> C;
  CacheWrap : C -> C;
  WriteTo : C -> C -> C;
}.

(** [branch_of c p]: [c] was branched from [p] and written to since. *)
Class CacheLayerLaws (C : Type) `{!CacheLayer C} := {
  branch_of : C -> C -> Prop;
  branch_wrap p : branch_of (CacheWrap p) p;
  branch_set c p k v : branch_of c p -> branch_of (layer_set k v c) p;
  branch_delete c p k : branch_of c p -> branch_of (layer_delete k c) p;
  branch_write c p q : branch_of c p -> branch_of p q -> branch_of (WriteTo c p) q;
  layer_get_set k v c j : layer_get (layer_set k v c) j = if String.eqb k j then Some v else layer_get c j;
  layer_get_delete k c j : layer_get (layer_delete k c) j = if String.eqb k j then None else layer_get c j;
  layer_get_wrap p k : layer_get (CacheWrap p) k = layer_get p k;
  layer_get_write c p k : branch_of c p -> layer_get (WriteTo c p) k = layer_get c k;
}.

(** ** store/types/store.go *)

(** The interface [Snapshotter] together with the branch it guards: [ss_view]
    is what is read through the store and [ss_update] a batch of writes to it. *)
Class Snapshotter (S K : Type) := {
  ss_ok : S -> Prop;
  ss_view : S -> K;
  ss_update : (K -> K) -> S -> S;
  Snapshot : S -> outcome (Z * S);
  RevertToSnapshot : Z -> S -> outcome S;
}.

(** What a client relies on: a snapshot can be taken, and reverting to it
    undoes every batch of writes since. *)
Class SnapshotterLaws (S K : Type) `{!Snapshotter S K} := {
  ss_ok_update f (s : S) : ss_ok s -> ss_ok (ss_update f s);
  ss_Snapshot_ok (s : S) : ss_ok s -> exists id s1, Snapshot s = Ok (id, s1) /\ ss_ok s1;
  ss_revert (s : S) id s1 (fs : list (K -> K)) : ss_ok s -> Snapshot s = Ok (id, s1) ->
    RevertToSnapshot id (fold_left (fun s f => ss_update f s) fs s1) = Ok s;
}.

(** ** snapshotkv *)

Lemma last_step {A} (c d : A) l : List.last (c :: l) d = List.last l c.
Proof.
  revert c d. induction l as [|x l IH]; intros c d; [done|].
  transitivity (List.last l x); [apply (IH x d)|symmetry; apply (IH x c)].
Qed.

Record snapshotkv (C : Type) := MkSnapshotKV {
  initialStore : C;
  cacheStores : list C;
}.
Arguments MkSnapshotKV {C}.
Arguments initialStore {C}.
Arguments cacheStores {C}.

Section kv.
Context {C : Type} {CL : CacheLayer C}.
Implicit Types cs : snapshotkv C.

Definition kv_NewStore (store : C) : snapshotkv C := MkSnapshotKV store [].

Definition kv_CurrentStore cs : C := List.last (cacheStores cs) (initialStore cs).

(** A client writes to the current store. *)
Definition kv_write (f : C -> C) cs : snapshotkv C :=
  match cacheStores cs with
  | [] => MkSnapshotKV (f (initialStore cs)) []
  | l => MkSnapshotKV (initialStore cs) (removelast l ++ [f (kv_CurrentStore cs)])
  end.

Definition kv_Snapshot cs : Z * snapshotkv C :=
  let l := cacheStores cs ++ [CacheWrap (kv_CurrentStore cs)] in
  (Z.of_nat (length l) - 1, MkSnapshotKV (initialStore cs) l).

Definition kv_RevertToSnapshot (target : Z) cs : outcome (snapshotkv C) :=
  if (target <? 0) || (Z.of_nat (length (cacheStores cs)) <=? target)
  then Panic "snapshot index out of bound"
  else Ok (MkSnapshotKV (initialStore cs) (take (Z.to_nat target) (cacheStores cs))).

(** The layers write themselves into their parents, from the top down. *)
Fixpoint kv_flush (base : C) (layers : list C) : C :=
  match layers with
  | [] => base
  | c :: rest => WriteTo (kv_flush c rest) base
  end.

(** [outer] is the store below the initial one. *)
Definition kv_Commit cs (outer : C) : snapshotkv C * C :=
  let base := kv_flush (initialStore cs) (cacheStores cs) in
  (MkSnapshotKV base [], WriteTo base outer).

Lemma kv_Current_app cs l c :
  kv_CurrentStore (MkSnapshotKV (initialStore cs) (l ++ [c])) = c.
Proof. apply last_last. Qed.

Lemma kv_write_app f i l c :
  kv_write f (MkSnapshotKV i (l ++ [c])) = MkSnapshotKV i (l ++ [f c]).
Proof.
  unfold kv_write, kv_CurrentStore. cbn [cacheStores initialStore].
  destruct (l ++ [c]) eqn:E; [by destruct l|]. rewrite <- E, removelast_last, last_last. done.
Qed.

Lemma list_last_cases {A} (l : list A) : l = [] \/ exists l' c, l = l' ++ [c].
Proof. destruct l using rev_ind; eauto. Qed.

Lemma kv_cases cs : (exists i, cs = MkSnapshotKV i []) \/ exists i l c, cs = MkSnapshotKV i (l ++ [c]).
Proof.
  destruct cs as [i l]. destruct (list_last_cases l) as [->|(l' & c & ->)]; eauto.
Qed.

Lemma kv_Snapshot_revert f cs :
  kv_RevertToSnapshot (kv_Snapshot cs).1 (kv_write f (kv_Snapshot cs).2) = Ok cs.
Proof.
  destruct cs as [i l]. unfold kv_Snapshot. cbn [cacheStores initialStore fst snd].
  rewrite kv_write_app. unfold kv_RevertToSnapshot. cbn [cacheStores initialStore].
  rewrite !length_app. simpl length.
  rewrite (proj2 (Z.ltb_ge _ _)), (proj2 (Z.leb_gt _ _)) by lia. cbn [orb].
  replace (Z.to_nat (Z.of_nat (length l + 1) - 1)) with (length l) by lia.
  by rewrite take_app_length.
Qed.

Lemma kv_write_write f g cs : kv_write g (kv_write f cs) = kv_write (fun c => g (f c)) cs.
Proof. destruct (kv_cases cs) as [[i ->]|(i & l & c & ->)]; [done|]. by rewrite !kv_write_app. Qed.

Lemma kv_Revert_range target cs :
  is_ok (kv_RevertToSnapshot target cs) = true <-> 0 <= target < Z.of_nat (length (cacheStores cs)).
Proof.
  unfold kv_RevertToSnapshot.
  destruct (Z.ltb_spec target 0), (Z.leb_spec (Z.of_nat (length (cacheStores cs))) target); simpl;
    split; done || lia.
Qed.

(** The layers are branches of one another. *)
Context {LL : CacheLayerLaws C}.

Fixpoint chained (base : C) (layers : list C) : Prop :=
  match layers with
  | [] => True
  | c :: rest => branch_of c base /\ chained c rest
  end.

Lemma kv_flush_view base layers : chained base layers ->
  (forall k, layer_get (kv_flush base layers) k = layer_get (List.last layers base) k) /\
  (forall q, branch_of base q -> branch_of (kv_flush base layers) q).
Proof.
  revert base. induction layers as [|c rest IH]; intros base; [done|]. intros [Hb Hc].
  destruct (IH c Hc) as [Hv Hbr]. cbn [kv_flush]. split.
  - intros k. rewrite layer_get_write by by apply Hbr. by rewrite Hv, last_step.
  - intros q Hq. apply branch_write; [by apply Hbr|done].
Qed.

Lemma chained_last base layers c : chained base layers -> branch_of c (List.last layers base) ->
  chained base (layers ++ [c]).
Proof.
  revert base. induction layers as [|d rest IH]; intros base; [done|]. intros [Hb Hc] Hl.
  rewrite last_step in Hl. split; [done|]. by apply IH.
Qed.

Definition kv_ok cs : Prop := chained (initialStore cs) (cacheStores cs).

Lemma kv_ok_Snapshot cs : kv_ok cs -> kv_ok (kv_Snapshot cs).2.
Proof. intros H. apply chained_last; [done|apply branch_wrap]. Qed.

Lemma kv_ok_app i l c : kv_ok (MkSnapshotKV i (l ++ [c])) <-> chained i l /\ branch_of c (List.last l i).
Proof.
  unfold kv_ok. simpl. revert i. induction l as [|d l IH]; intros i; [simpl; naive_solver|].
  rewrite last_step. simpl. rewrite IH. naive_solver.
Qed.

(** Writing what a branch shows: a write keeps the layers chained. *)
Lemma kv_ok_write f cs : (forall c p, branch_of c p -> branch_of (f c) p) -> kv_ok cs -> kv_ok (kv_write f cs).
Proof.
  intros Hf. destruct (kv_cases cs) as [[i ->]|(i & l & c & ->)]; [done|]. rewrite kv_write_app, !kv_ok_app.
  naive_solver.
Qed.

Lemma kv_ok_Revert target cs cs' : kv_ok cs -> kv_RevertToSnapshot target cs = Ok cs' -> kv_ok cs'.
Proof.
  intros H. unfold kv_RevertToSnapshot. destruct (_ || _); [done|]. intros [= <-]. unfold kv_ok in *. simpl.
  generalize (Z.to_nat target) as n. revert H. generalize (initialStore cs). generalize (cacheStores cs).
  induction l as [|c l IH]; intros i H n; destruct n; try done. simpl in *. destruct H. eauto.
Qed.
End kv.

(** ** snapshotmulti *)

Record snapshotmulti (C : Type) := MkSnapshotMulti {
  ms_stores : gmap string (snapshotkv C);
  ms_storeKeys : list string;
  ms_head : Z;
}.
Arguments MkSnapshotMulti {C}.
Arguments ms_stores {C}.
Arguments ms_storeKeys {C}.
Arguments ms_head {C}.

Section multi.
Context {C : Type} {CL : CacheLayer C}.
Implicit Types s : snapshotmulti C.

Definition InitialHead : Z := 0.

(** [NewStoreWithKVStores]: one stack per store, the keys in name order. *)
Definition ms_New (stores : gmap string C) (keys : list string) : snapshotmulti C :=
  MkSnapshotMulti (kv_NewStore <$> stores) keys InitialHead.

(** A loop over the keys that changes the store of each; a key without a store
    is a nil dereference. *)
Fixpoint ms_each (f : snapshotkv C -> outcome (snapshotkv C)) (keys : list string)
    (stores : gmap string (snapshotkv C)) : outcome (gmap string (snapshotkv C)) :=
  match keys with
  | [] => Ok stores
  | key :: rest =>
    match stores !! key with
    | None => Panic "nil pointer dereference"
    | Some cs => olet cs' <- f cs; ms_each f rest (<[key := cs']> stores)
    end
  end.

Definition ms_Snapshot s : outcome (Z * snapshotmulti C) :=
  olet stores <- ms_each (fun cs => Ok (kv_Snapshot cs).2) (ms_storeKeys s) (ms_stores s);
  let head := ms_head s + 1 in
  Ok (head - 1, MkSnapshotMulti stores (ms_storeKeys s) head).

Definition ms_RevertToSnapshot (target : Z) s : outcome (snapshotmulti C) :=
  olet stores <- ms_each (kv_RevertToSnapshot target) (ms_storeKeys s) (ms_stores s);
  Ok (MkSnapshotMulti stores (ms_storeKeys s) target).

Definition ms_GetKVStore s (key : string) : outcome C :=
  match ms_stores s !! key with
  | Some cs => Ok (kv_CurrentStore cs)
  | None => Panic "kv store with key has not been registered in stores"
  end.

Definition ms_LatestVersion s : Z := ms_head s.

(** [outer] are the stores below. *)
Fixpoint ms_commit (keys : list string) (stores : gmap string (snapshotkv C)) (outer : gmap string C)
    : outcome (gmap string (snapshotkv C) * gmap string C) :=
  match keys with
  | [] => Ok (stores, outer)
  | key :: rest =>
    match stores !! key, outer !! key with
    | Some cs, Some o =>
      let '(cs', o') := kv_Commit cs o in ms_commit rest (<[key := cs']> stores) (<[key := o']> outer)
    | _, _ => Panic "nil pointer dereference"
    end
  end.

Definition ms_Write s (outer : gmap string C) : outcome (snapshotmulti C * gmap string C) :=
  olet (stores, outer') <- ms_commit (ms_storeKeys s) (ms_stores s) outer;
  Ok (MkSnapshotMulti stores (ms_storeKeys s) InitialHead, outer').

(** Clients write to the current stores of the keys. *)
Definition ms_write (F : string -> C -> C) s : snapshotmulti C :=
  MkSnapshotMulti (map_imap (fun key cs => Some (kv_write (F key) cs)) (ms_stores s))
    (ms_storeKeys s) (ms_head s).

(** ** The stacks are in step *)

Record ms_wf s : Prop := {
  mw_nodup : NoDup (ms_storeKeys s);
  mw_keys key : key ∈ ms_storeKeys s <-> is_Some (ms_stores s !! key);
  mw_head key cs : ms_stores s !! key = Some cs -> Z.of_nat (length (cacheStores cs)) = ms_head s;
}.

Lemma ms_each_Ok f keys stores stores' : NoDup keys -> ms_each f keys stores = Ok stores' <->
  (forall key, key ∈ keys -> exists cs cs', stores !! key = Some cs /\ f cs = Ok cs' /\ stores' !! key = Some cs') /\
  (forall key, key ∉ keys -> stores' !! key = stores !! key).
Proof.
  intros Hnd. revert stores. induction Hnd as [|key rest Hni Hnd IH]; intros stores; simpl.
  - split; [intros [= <-]; split; [set_solver|done]|]. intros [_ H]. f_equal. apply map_eq. intros k.
    symmetry. apply H. set_solver.
  - destruct (stores !! key) as [cs|] eqn:Hk.
    2: { split; [done|]. intros [H _]. destruct (H key) as (cs & ? & ? & ?); [set_solver|congruence]. }
    rewrite obind_Ok. setoid_rewrite IH. split.
    + intros (cs' & Hf & Hin & Hout). split.
      * intros k [->|Hr]%elem_of_cons.
        -- exists cs, cs'. rewrite Hout by done. by rewrite lookup_insert_eq.
        -- destruct (Hin k Hr) as (c & c' & Hc & ?). rewrite lookup_insert_ne in Hc by (intros ->; done). eauto.
      * intros k Hn. rewrite Hout by set_solver. apply lookup_insert_ne. set_solver.
    + intros [Hin Hout]. destruct (Hin key) as (c & cs' & Hc & Hf & Hs); [set_solver|]. simplify_eq.
      exists cs'. split; [done|]. split.
      * intros k Hr. rewrite lookup_insert_ne by (intros ->; done). apply Hin. set_solver.
      * intros k Hn. destruct (decide (k = key)) as [->|Hne]; [by rewrite lookup_insert_eq|].
        rewrite lookup_insert_ne by done. apply Hout. set_solver.
Qed.

(** What happens to the branch between a snapshot and its revert. *)
Variant ms_op := MWrite (F : string -> C -> C) | MSnapshot | MRevert (target : Z).

Definition ms_step (op : ms_op) s : outcome (snapshotmulti C) :=
  match op with
  | MWrite F => Ok (ms_write F s)
  | MSnapshot => olet (_, s') <- ms_Snapshot s; Ok s'
  | MRevert target => ms_RevertToSnapshot target s
  end.

Fixpoint ms_run (ops : list ms_op) s : outcome (snapshotmulti C) :=
  match ops with
  | [] => Ok s
  | op :: rest => olet s' <- ms_step op s; ms_run rest s'
  end.

(** [s] is [s0] with further layers on every stack. *)
Record above (s0 s : snapshotmulti C) : Prop := {
  ab_wf : ms_wf s;
  ab_keys : ms_storeKeys s = ms_storeKeys s0;
  ab_head : ms_head s0 < ms_head s;
  ab_layers key cs0 cs : ms_stores s0 !! key = Some cs0 -> ms_stores s !! key = Some cs ->
    initialStore cs = initialStore cs0 /\ take (length (cacheStores cs0)) (cacheStores cs) = cacheStores cs0;
}.

(** The shape shared by the loops: every store changes by [f]. *)
Lemma ms_each_wf f s stores head : ms_wf s -> ms_each f (ms_storeKeys s) (ms_stores s) = Ok stores ->
  (forall key cs cs', ms_stores s !! key = Some cs -> f cs = Ok cs' -> Z.of_nat (length (cacheStores cs')) = head) ->
  ms_wf (MkSnapshotMulti stores (ms_storeKeys s) head) /\
  forall key cs', stores !! key = Some cs' -> exists cs, ms_stores s !! key = Some cs /\ f cs = Ok cs'.
Proof.
  intros [Hnd Hk Hh] [Hin Hout]%ms_each_Ok Hf; [|done].
  assert (forall key cs', stores !! key = Some cs' -> exists cs, ms_stores s !! key = Some cs /\ f cs = Ok cs') as Hback.
  { intros key cs' H. destruct (decide (key ∈ ms_storeKeys s)) as [Hi|Hn].
    - destruct (Hin key Hi) as (cs & c' & ? & ? & ?). simplify_eq. eauto.
    - rewrite Hout in H by done. exfalso. apply Hn, Hk. eauto. }
  split; [|done]. constructor; simpl; [done| |].
  - intros key. split; [intros Hi; destruct (Hin key Hi) as (? & ? & ? & ? & ?); eauto|].
    intros [cs' H]. apply Hback in H as (cs & H & _). apply Hk. eauto.
  - intros key cs' H. destruct (Hback _ _ H) as (cs & ? & ?). eauto.
Qed.

Lemma ms_Snapshot_above s0 s id s1 : ms_wf s -> ms_Snapshot s = Ok (id, s1) ->
  id = ms_head s /\ above s s1 /\ (above s0 s -> above s0 s1).
Proof.
  intros Hw. unfold ms_Snapshot. intros (stores & He & H)%obind_Ok. injection H as <- <-.
  assert (Hlen : forall key cs cs', ms_stores s !! key = Some cs -> Ok (kv_Snapshot cs).2 = Ok cs' ->
    Z.of_nat (length (cacheStores cs')) = ms_head s + 1).
  { intros key cs cs' Hc [= <-]. simpl. rewrite length_app. simpl. pose proof (mw_head _ Hw _ _ Hc). lia. }
  destruct (ms_each_wf _ s stores _ Hw He Hlen) as [Hw' Hback]. split; [lia|]. split.
  - constructor; simpl; [done|done|lia|]. intros key cs0 cs H0 H1.
    destruct (Hback _ _ H1) as (c & Hc & [= <-]). simplify_eq. simpl. by rewrite take_app_length.
  - intros [Hws Hke Hhe Hla]. constructor; simpl; [done|done|lia|]. intros key cs0 cs H0 H1.
    destruct (Hback _ _ H1) as (c & Hc & [= <-]). simplify_eq. simpl. destruct (Hla _ _ _ H0 Hc) as [-> Ht].
    split; [done|]. pose proof (f_equal length Ht) as Hlt. rewrite length_take in Hlt.
    rewrite take_app_le by lia. done.
Qed.

Lemma ms_write_lookup F s key :
  ms_stores (ms_write F s) !! key = kv_write (F key) <$> ms_stores s !! key.
Proof. simpl. rewrite map_lookup_imap. by destruct (ms_stores s !! key). Qed.

Lemma kv_write_length f (cs : snapshotkv C) : length (cacheStores (kv_write f cs)) = length (cacheStores cs).
Proof.
  destruct (kv_cases cs) as [[i ->]|(i & l & c & ->)]; [done|]. rewrite kv_write_app. simpl.
  by rewrite !length_app.
Qed.

Lemma kv_write_below f (cs : snapshotkv C) n : (n < length (cacheStores cs))%nat ->
  initialStore (kv_write f cs) = initialStore cs /\
  take n (cacheStores (kv_write f cs)) = take n (cacheStores cs).
Proof.
  destruct (kv_cases cs) as [[i ->]|(i & l & c & ->)]; simpl; [lia|]. rewrite kv_write_app. simpl.
  rewrite length_app. simpl. intros Hn. by rewrite !take_app_le by lia.
Qed.

Lemma ms_write_wf F s : ms_wf s -> ms_wf (ms_write F s).
Proof.
  intros [Hnd Hk Hh]. constructor; [done|intros key|intros key cs]; rewrite ms_write_lookup.
  - by rewrite fmap_is_Some, <- Hk.
  - intros (c & Hc & ->)%fmap_Some. rewrite kv_write_length. by eapply Hh.
Qed.

Lemma ms_write_above s0 s F : above s0 s -> ms_wf s0 -> above s0 (ms_write F s).
Proof.
  intros [Hw Hke Hhe Hla] Hw0. constructor; [by apply ms_write_wf|done|done|].
  intros key cs0 cs H0. rewrite ms_write_lookup. intros (c & Hc & ->)%fmap_Some.
  destruct (Hla _ _ _ H0 Hc) as [<- Hl]. pose proof (mw_head _ Hw0 _ _ H0). pose proof (mw_head _ Hw _ _ Hc).
  destruct (kv_write_below (F key) c (length (cacheStores cs0))) as [-> ->]; [lia|done].
Qed.

Lemma ms_Revert_above s0 s s' target : above s0 s -> ms_wf s0 -> ms_head s0 < target ->
  ms_RevertToSnapshot target s = Ok s' -> above s0 s'.
Proof.
  intros [Hw Hke Hhe Hla] Hw0 Ht. unfold ms_RevertToSnapshot. intros (stores & He & H)%obind_Ok. injection H as <-.
  assert (Hrv : forall cs cs' : snapshotkv C, kv_RevertToSnapshot target cs = Ok cs' ->
    0 <= target < Z.of_nat (length (cacheStores cs)) /\ initialStore cs' = initialStore cs /\
    cacheStores cs' = take (Z.to_nat target) (cacheStores cs)).
  { intros cs cs' H. unfold kv_RevertToSnapshot in H.
    destruct (Z.ltb_spec target 0), (Z.leb_spec (Z.of_nat (length (cacheStores cs))) target); try discriminate H.
    injection H as <-. simpl. split_and!; [lia|lia|done|done]. }
  destruct (ms_each_wf _ s stores target Hw He) as [Hw' Hback].
  { intros key cs cs' Hc H. apply Hrv in H as (Hlt & _ & ->). pose proof (mw_head _ Hw _ _ Hc).
    rewrite length_take. lia. }
  constructor; simpl; [done|done|lia|]. intros key cs0 cs H0 H1. destruct (Hback _ _ H1) as (c & Hc & Hr).
  apply Hrv in Hr as (_ & -> & ->). destruct (Hla _ _ _ H0 Hc) as [-> Hl]. split; [done|].
  rewrite take_take, Nat.min_l; [done|]. pose proof (mw_head _ Hw0 _ _ H0). lia.
Qed.

Lemma ms_Revert_exact s0 s : above s0 s -> ms_wf s0 -> ms_RevertToSnapshot (ms_head s0) s = Ok s0.
Proof.
  intros [Hw Hke Hhe Hla] Hw0. unfold ms_RevertToSnapshot. destruct s0 as [st0 keys0 head0]. simpl in *. subst keys0.
  assert (ms_each (kv_RevertToSnapshot head0) (ms_storeKeys s) (ms_stores s) = Ok st0) as ->; [|done].
  apply ms_each_Ok; [apply Hw|]. split.
  - intros key Hi. destruct (proj1 (mw_keys _ Hw key) Hi) as [cs Hc].
    destruct (proj1 (mw_keys _ Hw0 key) Hi) as [cs0 H0]. simpl in H0. exists cs, cs0. split_and!; [done| |done].
    destruct (Hla _ _ _ H0 Hc) as [Hi' Hl]. pose proof (mw_head _ Hw0 _ _ H0). pose proof (mw_head _ Hw _ _ Hc).
    simpl in *. unfold kv_RevertToSnapshot. rewrite (proj2 (Z.ltb_ge _ _)), (proj2 (Z.leb_gt _ _)) by lia.
    simpl. replace (Z.to_nat head0) with (length (cacheStores cs0)) by lia. rewrite Hl, Hi'. by destruct cs0.
  - intros key Hn. destruct (st0 !! key) as [c|] eqn:H0.
    + exfalso. apply Hn, (mw_keys _ Hw0). eauto.
    + destruct (ms_stores s !! key) eqn:Hc; [|done]. exfalso. apply Hn, (mw_keys _ Hw). eauto.
Qed.

Lemma ms_Snapshot_total s : ms_wf s -> exists id s1, ms_Snapshot s = Ok (id, s1).
Proof.
  intros Hw. unfold ms_Snapshot.
  assert (ms_each (fun cs => Ok (kv_Snapshot cs).2) (ms_storeKeys s) (ms_stores s)
    = Ok ((fun cs => (kv_Snapshot cs).2) <$> ms_stores s)) as ->; [|simpl; eauto].
  apply ms_each_Ok; [apply Hw|]. split.
  - intros key [cs Hc]%(mw_keys _ Hw). exists cs, (kv_Snapshot cs).2. by rewrite lookup_fmap, Hc.
  - intros key Hn. rewrite lookup_fmap. destruct (ms_stores s !! key) eqn:Hc; [|done].
    exfalso. apply Hn, (mw_keys _ Hw). eauto.
Qed.

Definition reverts_above (id : Z) (op : ms_op) : Prop :=
  match op with MRevert target => id < target | _ => True end.

Lemma ms_run_above ops s0 s s' : above s0 s -> ms_wf s0 -> Forall (reverts_above (ms_head s0)) ops ->
  ms_run ops s = Ok s' -> above s0 s'.
Proof.
  intros Ha Hw0 Hf. revert s Ha. induction Hf as [|op ops Hop Hf IH]; simpl; intros s Ha H; [by simplify_eq|].
  apply obind_Ok in H as (s1 & Hs & H). apply (IH s1); [|done]. destruct op as [F| |target]; simpl in Hs.
  - simplify_eq. by apply ms_write_above.
  - apply obind_Ok in Hs as ([id s2] & Hs & [= <-]).
    by apply (ms_Snapshot_above s0 s id s2 (ab_wf _ _ Ha) Hs).
  - by eapply ms_Revert_above.
Qed.
End multi.

(** ** The interface discharged *)

#[export] Instance kv_Snapshotter {C} `{!CacheLayer C} : Snapshotter (snapshotkv C) C := {|
  ss_ok := fun _ => True;
  ss_view := kv_CurrentStore;
  ss_update := kv_write;
  Snapshot := fun cs => Ok (kv_Snapshot cs);
  RevertToSnapshot := kv_RevertToSnapshot;
|}.

Lemma kv_fold_update {C} `{!CacheLayer C} (fs : list (C -> C)) (cs : snapshotkv C) :
  exists f, fold_left (fun s f => kv_write f s) fs cs = kv_write f cs.
Proof.
  revert cs. induction fs as [|g fs IH]; intros cs; simpl.
  - exists (fun c => c). destruct (kv_cases cs) as [[i ->]|(i & l & c & ->)]; [done|]. by rewrite kv_write_app.
  - destruct (IH (kv_write g cs)) as [f ->]. rewrite kv_write_write. eauto.
Qed.

#[export] Instance kv_SnapshotterLaws {C} `{!CacheLayer C} : SnapshotterLaws (snapshotkv C) C.
Proof.
  constructor; [done|intros s _; by eexists _, _|]. intros s id s1 fs _ [= <- <-].
  destruct (kv_fold_update fs (kv_Snapshot s).2) as [f Hf]. simpl in *. rewrite Hf.
  apply kv_Snapshot_revert.
Qed.

(** The view of a multi-store is the map of its current stores. *)
Definition ms_view {C} `{!CacheLayer C} (s : snapshotmulti C) : gmap string C :=
  kv_CurrentStore <$> ms_stores s.

#[export] Instance ms_Snapshotter {C} `{!CacheLayer C} : Snapshotter (snapshotmulti C) (gmap string C) := {|
  ss_ok := ms_wf;
  ss_view := ms_view;
  ss_update := fun f s => ms_write (fun key c => default c (f (ms_view s) !! key)) s;
  Snapshot := ms_Snapshot;
  RevertToSnapshot := ms_RevertToSnapshot;
|}.

#[export] Instance ms_SnapshotterLaws {C} `{!CacheLayer C} : SnapshotterLaws (snapshotmulti C) (gmap string C).
Proof.
  constructor.
  - intros f s Hs. exact (ms_write_wf _ s Hs).
  - intros s Hw. destruct (ms_Snapshot_total s Hw) as (id & s1 & Hs). exists id, s1. split; [done|].
    destruct (ms_Snapshot_above s s id s1 Hw Hs) as (_ & Ha & _). apply Ha.
  - intros s id s1 fs Hw Hs. destruct (ms_Snapshot_above s s id s1 Hw Hs) as (-> & Ha & _).
    apply ms_Revert_exact; [|done]. simpl. clear Hs. revert s1 Ha.
    induction fs as [|f fs IH]; intros s1 Ha; [done|]. apply IH. by apply ms_write_above.
Qed.

(** ** The theorems *)

Section theorems.
Context {C : Type} {CL : CacheLayer C} {LL : CacheLayerLaws C}.
Implicit Types s : snapshotmulti C.

Lemma kv_Snapshot_view (cs : snapshotkv C) k :
  layer_get (kv_CurrentStore (kv_Snapshot cs).2) k = layer_get (kv_CurrentStore cs) k.
Proof. unfold kv_Snapshot. simpl. rewrite kv_Current_app. apply layer_get_wrap. Qed.

(** A snapshot of the multi-store changes nothing that is read through it,
    and reverting to it restores every store exactly, whatever was written,
    snapshotted and reverted above it in between. *)
Theorem multi_revert_restores s id s1 :
  ms_wf s -> ms_Snapshot s = Ok (id, s1) ->
  (forall key c, ms_GetKVStore s key = Ok c -> exists c1, ms_GetKVStore s1 key = Ok c1 /\
     forall k, layer_get c1 k = layer_get c k) /\
  (forall ops s2, Forall (reverts_above id) ops -> ms_run ops s1 = Ok s2 ->
     ms_RevertToSnapshot id s2 = Ok s).
Proof.
  intros Hw Hs. destruct (ms_Snapshot_above s s id s1 Hw Hs) as (-> & Ha & _). split.
  - intros key c. unfold ms_GetKVStore. destruct (ms_stores s !! key) as [cs|] eqn:Hc; [|done]. intros [= <-].
    unfold ms_Snapshot in Hs. apply obind_Ok in Hs as (st & He & [= _ <-]). simpl.
    apply ms_each_Ok in He as [Hin _]; [|apply Hw].
    destruct (Hin key) as (cs' & cs1 & Hc' & [= <-] & ->); [apply (mw_keys _ Hw); eauto|].
    simplify_eq. eexists. split; [done|]. intros k. apply kv_Snapshot_view.
  - intros ops s2 Hops Hrun. apply ms_Revert_exact; [|done]. by eapply ms_run_above.
Qed.

(** Every stack is a chain of branches over its outer store. *)
Definition ms_chained s (outer : gmap string C) : Prop :=
  forall key cs, ms_stores s !! key = Some cs ->
    kv_ok cs /\ exists o, outer !! key = Some o /\ branch_of (initialStore cs) o.

Lemma ms_commit_spec keys stores outer : NoDup keys ->
  (forall key, key ∈ keys -> exists cs o, stores !! key = Some cs /\ outer !! key = Some o) ->
  exists stores' outer', ms_commit keys stores outer = Ok (stores', outer') /\
    (forall key cs o, key ∈ keys -> stores !! key = Some cs -> outer !! key = Some o ->
       stores' !! key = Some (kv_Commit cs o).1 /\ outer' !! key = Some (kv_Commit cs o).2) /\
    (forall key, key ∉ keys -> stores' !! key = stores !! key /\ outer' !! key = outer !! key).
Proof.
  intros Hnd. revert stores outer. induction Hnd as [|key rest Hni Hnd IH]; intros stores outer Hin; cbn [ms_commit].
  - exists stores, outer. split; [done|]. split; [intros key cs o Hk; by apply not_elem_of_nil in Hk|done].
  - destruct (Hin key) as (cs & o & Hc & Ho); [set_solver|]. rewrite Hc, Ho.
    destruct (kv_Commit cs o) as [cs' o'] eqn:Hco.
    destruct (IH (<[key := cs']> stores) (<[key := o']> outer)) as (st & ou & He & Hs & Hns).
    { intros k Hk. rewrite !lookup_insert_ne by (intros ->; done). apply Hin. set_solver. }
    exists st, ou. split; [done|]. split.
    + intros k c p [->|Hk]%elem_of_cons Hc' Hp.
      * simplify_eq. rewrite Hco. destruct (Hns key Hni) as [-> ->]. by rewrite !lookup_insert_eq.
      * apply Hs; [done|..]; by rewrite lookup_insert_ne by (intros ->; done).
    + intros k Hk. destruct (Hns k) as [-> ->]; [set_solver|]. by rewrite !lookup_insert_ne by set_solver.
Qed.

(** Writing the multi-store flushes every stack into its outer store: the
    outer store then shows exactly what was read through the branch, and the
    stacks are empty. *)
Theorem multi_write_flushes s outer : ms_wf s -> ms_chained s outer ->
  exists s' outer', ms_Write s outer = Ok (s', outer') /\ ms_head s' = InitialHead /\
    forall key c, ms_GetKVStore s key = Ok c ->
      (exists i, ms_stores s' !! key = Some (MkSnapshotKV i [])) /\
      exists o', outer' !! key = Some o' /\ forall k, layer_get o' k = layer_get c k.
Proof.
  intros Hw Hch. destruct (ms_commit_spec (ms_storeKeys s) (ms_stores s) outer) as (st & ou & He & Hs & _);
    [apply Hw| |].
  { intros key [cs Hc]%(mw_keys _ Hw). destruct (Hch _ _ Hc) as (_ & o & Ho & _). eauto. }
  exists (MkSnapshotMulti st (ms_storeKeys s) InitialHead), ou. unfold ms_Write. rewrite He. split; [done|].
  split; [done|]. intros key c. unfold ms_GetKVStore. destruct (ms_stores s !! key) as [cs|] eqn:Hc; [|done].
  intros [= <-]. destruct (Hch _ _ Hc) as (Hok & o & Ho & Hb).
  destruct (Hs key cs o) as [Hst Hou]; [apply (mw_keys _ Hw); eauto|done|done|]. simpl.
  destruct (kv_flush_view _ _ Hok) as [Hv Hbr]. split; [eexists; exact Hst|]. eexists. split; [exact Hou|]. intros k.
  unfold kv_Commit. simpl. rewrite layer_get_write by by apply Hbr. apply Hv.
Qed.
End theorems.

(** ** A concrete cache layer: the content seen through it and what it writes *)

Record rlayer := RLayer { rl_view : gmap string string; rl_dirty : gmap string (option string) }.

Definition rl_apply (d : gmap string (option string)) (m : gmap string string) : gmap string string :=
  merge (fun new old => match new with Some v => v | None => old end) d m.

#[export] Instance ref_layer : CacheLayer rlayer := {|
  layer_get := fun c k => rl_view c !! k;
  layer_set := fun k v c => RLayer (<[k := v]> (rl_view c)) (<[k := Some v]> (rl_dirty c));
  layer_delete := fun k c => RLayer (delete k (rl_view c)) (<[k := None]> (rl_dirty c));
  CacheWrap := fun c => RLayer (rl_view c) ∅;
  WriteTo := fun c p => RLayer (rl_apply (rl_dirty c) (rl_view p)) (rl_dirty c ∪ rl_dirty p);
|}.

Lemma rl_apply_lookup d m k : rl_apply d m !! k = match d !! k with Some v => v | None => m !! k end.
Proof. unfold rl_apply. rewrite lookup_merge. by destruct (d !! k), (m !! k). Qed.

#[export, refine] Instance ref_layer_laws : CacheLayerLaws rlayer := {|
  branch_of := fun c p => rl_view c = rl_apply (rl_dirty c) (rl_view p);
|}.
Proof.
  - intros p. apply map_eq. intros k. simpl. by rewrite rl_apply_lookup, lookup_empty.
  - intros c p k v H. apply map_eq. intros j. simpl. rewrite rl_apply_lookup, H.
    destruct (decide (k = j)) as [->|Hne]; [by rewrite !lookup_insert_eq|].
    by rewrite !lookup_insert_ne, rl_apply_lookup by done.
  - intros c p k H. apply map_eq. intros j. simpl. rewrite rl_apply_lookup, H.
    destruct (decide (k = j)) as [->|Hne]; [by rewrite lookup_delete_eq, lookup_insert_eq|].
    by rewrite lookup_delete_ne, lookup_insert_ne, rl_apply_lookup by done.
  - intros c p q Hc Hp. apply map_eq. intros j. simpl. rewrite !rl_apply_lookup, Hp, rl_apply_lookup.
    rewrite lookup_union. by destruct (rl_dirty c !! j), (rl_dirty p !! j).
  - intros k v c j. simpl. destruct (String.eqb_spec k j) as [->|Hne]; [by rewrite lookup_insert_eq|].
    by rewrite lookup_insert_ne.
  - intros k c j. simpl. destruct (String.eqb_spec k j) as [->|Hne]; [by rewrite lookup_delete_eq|].
    by rewrite lookup_delete_ne.
  - done.
  - intros c p k H. simpl. by rewrite H.
Defined.

Definition ex_outer : gmap string rlayer := {[ "bank"%string := RLayer {["a"%string := "1"%string]} ∅ ]}.
Definition ex_multi : snapshotmulti rlayer := ms_New (CacheWrap <$> ex_outer) ["bank"%string].
Definition ex_multi1 : snapshotmulti rlayer :=
  MkSnapshotMulti ((fun cs => (kv_Snapshot cs).2) <$> ms_stores ex_multi) ["bank"%string] 1.
Definition ex_ops : list (ms_op (C := rlayer)) :=
  [MWrite (fun _ => layer_set "a" "2"); MSnapshot; MWrite (fun _ => layer_delete "a"); MRevert 1].
Definition ex_written : snapshotmulti rlayer := ms_write (fun _ => layer_set "a" "2") ex_multi1.

Lemma ex_multi_lookup key cs : ms_stores ex_multi !! key = Some cs ->
  key = "bank"%string /\ cs = kv_NewStore (CacheWrap (RLayer {["a"%string := "1"%string]} ∅)).
Proof.
  unfold ex_multi, ms_New, ex_outer. simpl. rewrite !map_fmap_singleton. intros [<- <-]%lookup_singleton_Some. done.
Qed.

Lemma ex_multi_wf : ms_wf ex_multi.
Proof.
  constructor; [apply NoDup_singleton| |].
  - intros key. simpl. rewrite list_elem_of_singleton. split.
    + intros ->. by eexists.
    + intros [cs Hc]. by apply ex_multi_lookup in Hc as [-> _].
  - intros key cs [_ ->]%ex_multi_lookup. done.
Qed.

Lemma multi_revert_witness :
  exists s2, ms_run ex_ops ex_multi1 = Ok s2 /\ ms_RevertToSnapshot 0 s2 = Ok ex_multi.
Proof.
  assert (ms_Snapshot ex_multi = Ok (0, ex_multi1)) as Hs by (vm_compute; reflexivity).
  eexists. split; [vm_compute; reflexivity|].
  refine (proj2 (multi_revert_restores ex_multi 0 ex_multi1 ex_multi_wf Hs) ex_ops _ _ _).
  - repeat constructor.
  - vm_compute. reflexivity.
Defined.

Lemma multi_write_witness :
  exists s' outer' o', ms_Write ex_written ex_outer = Ok (s', outer') /\
    outer' !! "bank"%string = Some o' /\ layer_get o' "a" = Some "2"%string.
Proof.
  destruct (multi_write_flushes ex_written ex_outer) as (s' & outer' & Hw & _ & Hv).
  - apply ms_write_wf.
    exact (ab_wf _ _ (proj1 (proj2 (ms_Snapshot_above ex_multi ex_multi 0 ex_multi1 ex_multi_wf eq_refl)))).
  - intros key cs. unfold ex_written. rewrite ms_write_lookup. unfold ex_multi1.
    cbn [ms_stores]. rewrite lookup_fmap, <- option_fmap_compose.
    intros (c & Hc & ->)%fmap_Some. apply ex_multi_lookup in Hc as [-> ->].
    split; [split; [vm_compute; reflexivity|exact I]|]. eexists. split; [reflexivity|vm_compute; reflexivity].
  - destruct (Hv "bank"%string (layer_set "a" "2" (CacheWrap (CacheWrap (RLayer {["a"%string := "1"%string]} ∅)))))
      as (_ & o' & Ho & Hg); [reflexivity|].
    exists s', outer', o'. split; [exact Hw|]. split; [exact Ho|]. rewrite Hg. reflexivity.
Defined.
