(* ===== verification/StateDB.v ===== *)
(** * x/vm/statedb: the EVM's view of the chain state

    statedb.go, state_object.go and journal.go: the in-memory state that
    go-ethereum's interpreter works on. Accounts are loaded from the keeper on
    first use and kept as state objects; every change appends a journal entry
    that knows how to undo it; [Snapshot] remembers a journal length and
    [RevertToSnapshot] undoes the entries above it; [Commit] writes the dirty
    objects back through the keeper. A stateful precompile works on a branch of
    the stores (the cache context) with its own snapshots.

    The keeper is the interface of interfaces.go, here the class [StateKeeper];
    the branch is the class [Snapshotter] of SnapshotStore.v. A state object of
    the source is a pointer held by the map of live objects; here an operation
    on an object stores the changed object under its address. *)

From Stdlib Require Import ZArith Lia List String Ascii Bool.
From stdpp Require Import base gmap strings list sorting.
From S2P Require Import Prelude GoStrings Sdk AccessList SnapshotStore.
Local Open Scope Z_scope.
Local Open Scope go_scope.

(** ** go-ethereum values *)

Definition u256 (z : Z) : Z := (z mod two256)%Z.

(** [common.BytesToHash]: the last thirty-two bytes, padded on the left. *)
Definition BytesToHash (b : bytes) : hash :=
  let n := String.length b in
  if (32 <=? n)%nat then String.substring (n - 32) 32 b
  else (of_list (repeat (chr 0) (32 - n)) +:+ b)%string.

Record Log := MkLog {
  lg_Address : addr;
  lg_Topics : list hash;
  lg_Data : bytes;
  lg_TxIndex : Z;
  lg_Index : Z;
}.

(** An event of the SDK's event manager. *)
Record SdkEvent := MkSdkEvent { se_type : string; se_attrs : list (string * string) }.

(** [params.Rules], the flags [Prepare] reads. *)
Record Rules := MkRules { IsEIP2929 : bool; IsEIP4762 : bool; IsShanghai : bool }.

(** ** state_object.go *)

(** [None] is a nil pointer or a nil slice. *)
Record Account := MkAccount {
  ac_Nonce : Z;
  ac_Balance : option Z;
  ac_CodeHash : option bytes;
  ac_lockedBalance : option Z;
}.

Abbreviation Storage := (gmap hash hash).

Record stateObject := MkStateObject {
  so_account : Account;
  so_code : option bytes;
  so_originStorage : Storage;
  so_dirtyStorage : Storage;
  so_overrideStorage : option Storage;
  so_address : addr;
  so_dirtyCode : bool;
  so_selfDestructed : bool;
  so_newContract : bool;
}.

(** ** interfaces.go: the keeper *)

(** Reads and writes of a context of type [K]. The two operations that move
    coins can fail, and emit events of the bank. *)
Class StateKeeper (K : Type) := {
  kp_GetAccount : K -> addr -> option Account;
  kp_GetState : K -> addr -> hash -> hash;
  kp_GetCode : K -> hash -> option bytes;
  kp_ForEachStorage : K -> addr -> list (hash * hash);
  kp_SetAccount : addr -> Account -> K -> outcome (list SdkEvent) * K;
  kp_DeleteAccount : addr -> K -> outcome (list SdkEvent) * K;
  kp_SetState : addr -> hash -> bytes -> K -> K;
  kp_DeleteState : addr -> hash -> K -> K;
  kp_SetCode : bytes -> bytes -> K -> K;
  kp_DeleteCode : bytes -> K -> K;
}.

(** The branch a precompile works on: [ctx.CacheContext] wrapped into a
    snapshot store, and its [Write]. *)
Class CacheContext (S K : Type) := {
  NewBranch : K -> S;
  WriteBranch : S -> K -> K;
}.

(** ** journal.go *)

Inductive JournalEntry :=
| createObjectChange (account : addr)
| selfDestructChange (account : addr)
| balanceChange (account : addr) (prev : Z)
| nonceChange (account : addr) (prev : Z)
| storageChange (account : addr) (key prevalue : hash)
| transientStorageChange (account : addr) (key prevalue : hash)
| codeChange (account : addr) (prevcode : option bytes) (prevhash : bytes)
| refundChange (prev : Z)
| addLogChange
| accessListAddAccountChange (address : addr)
| accessListAddSlotChange (address : addr) (slot : hash)
| precompileCallChange (snapshot : Z) (prevEvents : list SdkEvent) (prevProcessedEventCount : Z)
| createContractChange (account : addr).

Definition Dirtied (e : JournalEntry) : option addr :=
  match e with
  | createObjectChange a | selfDestructChange a | balanceChange a _ | nonceChange a _
  | storageChange a _ _ | codeChange a _ _ => Some a
  | transientStorageChange _ _ _ | refundChange _ | addLogChange | accessListAddAccountChange _
  | accessListAddSlotChange _ _ | precompileCallChange _ _ _ | createContractChange _ => None
  end.

(** [sort.Search]: the smallest index in [0, n) where [f] holds, by bisection;
    [n] steps are enough. *)
Fixpoint search_loop (fuel : nat) (f : nat -> bool) (i j : nat) : nat :=
  match fuel with
  | O => i
  | S fuel' =>
    if (i <? j)%nat then
      let h := Nat.div2 (i + j) in
      if f h then search_loop fuel' f i h else search_loop fuel' f (S h) j
    else i
  end.
Definition sort_Search (n : nat) (f : nat -> bool) : nat := search_loop n f 0 n.

(** ** statedb.go *)

(** [sd_cache] is the cache context and its event manager, absent while no
    precompile has been called; a revision is an id and a journal length. *)
Record StateDB (K S : Type) := MkStateDB {
  sd_ctx : K;
  sd_events : list SdkEvent;
  sd_hasMultiStore : bool;
  sd_cache : option (S * list SdkEvent);
  sd_transient : transientStorage;
  sd_entries : list JournalEntry;
  sd_dirties : gmap addr Z;
  sd_revisions : list (Z * Z);
  sd_nextRevisionID : Z;
  sd_objects : gmap addr stateObject;
  sd_TxIndex : Z;
  sd_refund : Z;
  sd_logs : list Log;
  sd_accessList : accessList;
  sd_precompileCalls : Z;
  sd_processedEvents : Z;
}.
Arguments MkStateDB {K S}.
Arguments sd_ctx {K S}.
Arguments sd_events {K S}.
Arguments sd_hasMultiStore {K S}.
Arguments sd_cache {K S}.
Arguments sd_transient {K S}.
Arguments sd_entries {K S}.
Arguments sd_dirties {K S}.
Arguments sd_revisions {K S}.
Arguments sd_nextRevisionID {K S}.
Arguments sd_objects {K S}.
Arguments sd_TxIndex {K S}.
Arguments sd_refund {K S}.
Arguments sd_logs {K S}.
Arguments sd_accessList {K S}.
Arguments sd_precompileCalls {K S}.
Arguments sd_processedEvents {K S}.


Section statedb.
Context {Cr : EthCrypto}.

Definition EmptyCodeHash : bytes := Keccak256Hash [EmptyString].
Definition IsEmptyCodeHash (bz : bytes) : bool := String.eqb bz EmptyCodeHash.

Definition newObject (address : addr) (account : Account) : stateObject :=
  let balance := match ac_Balance account with None => 0 | Some b => b end in
  let codeHash := match ac_CodeHash account with None => EmptyCodeHash | Some h => h end in
  MkStateObject (MkAccount (ac_Nonce account) (Some balance) (Some codeHash) (ac_lockedBalance account))
    None ∅ ∅ None address false false false.

(** [Account{}] *)
Definition zeroAccount : Account := MkAccount 0 None None None.

(** The accessors; [newObject] leaves no nil balance or code hash. *)
Definition so_Balance (o : stateObject) : Z := default 0 (ac_Balance (so_account o)).
Definition so_CodeHash (o : stateObject) : bytes := default EmptyCodeHash (ac_CodeHash (so_account o)).
Definition so_Nonce (o : stateObject) : Z := ac_Nonce (so_account o).

Definition so_empty (o : stateObject) : bool :=
  (so_Nonce o =? 0) && (so_Balance o =? 0) && IsEmptyCodeHash (so_CodeHash o).

Definition with_account (f : Account -> Account) (o : stateObject) : stateObject :=
  MkStateObject (f (so_account o)) (so_code o) (so_originStorage o) (so_dirtyStorage o)
    (so_overrideStorage o) (so_address o) (so_dirtyCode o) (so_selfDestructed o) (so_newContract o).

Definition so_setBalance (amount : Z) : stateObject -> stateObject :=
  with_account (fun a => MkAccount (ac_Nonce a) (Some amount) (ac_CodeHash a) (ac_lockedBalance a)).
Definition so_setNonce (nonce : Z) : stateObject -> stateObject :=
  with_account (fun a => MkAccount nonce (ac_Balance a) (ac_CodeHash a) (ac_lockedBalance a)).
Definition so_setCode (codeHash : hash) (code : option bytes) (o : stateObject) : stateObject :=
  let a := so_account o in
  MkStateObject (MkAccount (ac_Nonce a) (ac_Balance a) (Some codeHash) (ac_lockedBalance a))
    code (so_originStorage o) (so_dirtyStorage o) (so_overrideStorage o) (so_address o)
    true (so_selfDestructed o) (so_newContract o).
Definition so_loadCode (code : option bytes) (o : stateObject) : stateObject :=
  MkStateObject (so_account o) code (so_originStorage o) (so_dirtyStorage o)
    (so_overrideStorage o) (so_address o) (so_dirtyCode o) (so_selfDestructed o) (so_newContract o).
Definition so_setState (key value : hash) (o : stateObject) : stateObject :=
  MkStateObject (so_account o) (so_code o) (so_originStorage o) (<[key := value]> (so_dirtyStorage o))
    (so_overrideStorage o) (so_address o) (so_dirtyCode o) (so_selfDestructed o) (so_newContract o).
Definition so_cacheOrigin (key value : hash) (o : stateObject) : stateObject :=
  MkStateObject (so_account o) (so_code o) (<[key := value]> (so_originStorage o)) (so_dirtyStorage o)
    (so_overrideStorage o) (so_address o) (so_dirtyCode o) (so_selfDestructed o) (so_newContract o).
Definition so_SetStorage (storage : Storage) (o : stateObject) : stateObject :=
  MkStateObject (so_account o) (so_code o) ∅ ∅ (Some storage) (so_address o)
    (so_dirtyCode o) (so_selfDestructed o) (so_newContract o).
Definition so_setDestructed (b : bool) (o : stateObject) : stateObject :=
  MkStateObject (so_account o) (so_code o) (so_originStorage o) (so_dirtyStorage o)
    (so_overrideStorage o) (so_address o) (so_dirtyCode o) b (so_newContract o).
Definition so_setNewContract (b : bool) (o : stateObject) : stateObject :=
  MkStateObject (so_account o) (so_code o) (so_originStorage o) (so_dirtyStorage o)
    (so_overrideStorage o) (so_address o) (so_dirtyCode o) (so_selfDestructed o) b.

(** *** The database and its setters *)

Context {K S : Type} {Kp : StateKeeper K} {Sn : Snapshotter S K} {Cc : CacheContext S K}.

Abbreviation StateDB := (StateDB K S).
Abbreviation MS := (M StateDB).

Definition set_ctx (x0 : K) (x1 : list SdkEvent) (s : StateDB) : StateDB :=
  MkStateDB x0 x1 (sd_hasMultiStore s) (sd_cache s) (sd_transient s) (sd_entries s) (sd_dirties s)
    (sd_revisions s) (sd_nextRevisionID s) (sd_objects s) (sd_TxIndex s) (sd_refund s) (sd_logs s)
    (sd_accessList s) (sd_precompileCalls s) (sd_processedEvents s).
Definition set_cache (x0 : option (S * list SdkEvent)) (s : StateDB) : StateDB :=
  MkStateDB (sd_ctx s) (sd_events s) (sd_hasMultiStore s) x0 (sd_transient s) (sd_entries s)
    (sd_dirties s) (sd_revisions s) (sd_nextRevisionID s) (sd_objects s) (sd_TxIndex s) (sd_refund
    s) (sd_logs s) (sd_accessList s) (sd_precompileCalls s) (sd_processedEvents s).
Definition set_transient (x0 : transientStorage) (s : StateDB) : StateDB :=
  MkStateDB (sd_ctx s) (sd_events s) (sd_hasMultiStore s) (sd_cache s) x0 (sd_entries s)
    (sd_dirties s) (sd_revisions s) (sd_nextRevisionID s) (sd_objects s) (sd_TxIndex s) (sd_refund
    s) (sd_logs s) (sd_accessList s) (sd_precompileCalls s) (sd_processedEvents s).
Definition set_journal (x0 : list JournalEntry) (x1 : gmap addr Z) (s : StateDB) : StateDB :=
  MkStateDB (sd_ctx s) (sd_events s) (sd_hasMultiStore s) (sd_cache s) (sd_transient s) x0 x1
    (sd_revisions s) (sd_nextRevisionID s) (sd_objects s) (sd_TxIndex s) (sd_refund s) (sd_logs s)
    (sd_accessList s) (sd_precompileCalls s) (sd_processedEvents s).
Definition set_revisions (x0 : list (Z * Z)) (s : StateDB) : StateDB :=
  MkStateDB (sd_ctx s) (sd_events s) (sd_hasMultiStore s) (sd_cache s) (sd_transient s)
    (sd_entries s) (sd_dirties s) x0 (sd_nextRevisionID s) (sd_objects s) (sd_TxIndex s) (sd_refund
    s) (sd_logs s) (sd_accessList s) (sd_precompileCalls s) (sd_processedEvents s).
Definition set_next (x0 : Z) (s : StateDB) : StateDB :=
  MkStateDB (sd_ctx s) (sd_events s) (sd_hasMultiStore s) (sd_cache s) (sd_transient s)
    (sd_entries s) (sd_dirties s) (sd_revisions s) x0 (sd_objects s) (sd_TxIndex s) (sd_refund s)
    (sd_logs s) (sd_accessList s) (sd_precompileCalls s) (sd_processedEvents s).
Definition set_objects (x0 : gmap addr stateObject) (s : StateDB) : StateDB :=
  MkStateDB (sd_ctx s) (sd_events s) (sd_hasMultiStore s) (sd_cache s) (sd_transient s)
    (sd_entries s) (sd_dirties s) (sd_revisions s) (sd_nextRevisionID s) x0 (sd_TxIndex s)
    (sd_refund s) (sd_logs s) (sd_accessList s) (sd_precompileCalls s) (sd_processedEvents s).
Definition set_refund (x0 : Z) (s : StateDB) : StateDB :=
  MkStateDB (sd_ctx s) (sd_events s) (sd_hasMultiStore s) (sd_cache s) (sd_transient s)
    (sd_entries s) (sd_dirties s) (sd_revisions s) (sd_nextRevisionID s) (sd_objects s) (sd_TxIndex
    s) x0 (sd_logs s) (sd_accessList s) (sd_precompileCalls s) (sd_processedEvents s).
Definition set_logs (x0 : list Log) (s : StateDB) : StateDB :=
  MkStateDB (sd_ctx s) (sd_events s) (sd_hasMultiStore s) (sd_cache s) (sd_transient s)
    (sd_entries s) (sd_dirties s) (sd_revisions s) (sd_nextRevisionID s) (sd_objects s) (sd_TxIndex
    s) (sd_refund s) x0 (sd_accessList s) (sd_precompileCalls s) (sd_processedEvents s).
Definition set_accessList (x0 : accessList) (s : StateDB) : StateDB :=
  MkStateDB (sd_ctx s) (sd_events s) (sd_hasMultiStore s) (sd_cache s) (sd_transient s)
    (sd_entries s) (sd_dirties s) (sd_revisions s) (sd_nextRevisionID s) (sd_objects s) (sd_TxIndex
    s) (sd_refund s) (sd_logs s) x0 (sd_precompileCalls s) (sd_processedEvents s).
Definition set_precompileCalls (x0 : Z) (s : StateDB) : StateDB :=
  MkStateDB (sd_ctx s) (sd_events s) (sd_hasMultiStore s) (sd_cache s) (sd_transient s)
    (sd_entries s) (sd_dirties s) (sd_revisions s) (sd_nextRevisionID s) (sd_objects s) (sd_TxIndex
    s) (sd_refund s) (sd_logs s) (sd_accessList s) x0 (sd_processedEvents s).
Definition set_processed (x0 : Z) (s : StateDB) : StateDB :=
  MkStateDB (sd_ctx s) (sd_events s) (sd_hasMultiStore s) (sd_cache s) (sd_transient s)
    (sd_entries s) (sd_dirties s) (sd_revisions s) (sd_nextRevisionID s) (sd_objects s) (sd_TxIndex
    s) (sd_refund s) (sd_logs s) (sd_accessList s) (sd_precompileCalls s) x0.

Definition nil_deref : string := "invalid memory address or nil pointer dereference".

Definition newStateDB (ctx : K) (events : list SdkEvent) (hasMultiStore : bool) (txIndex : Z) : StateDB :=
  MkStateDB ctx events hasMultiStore None ∅ [] ∅ [] 0 ∅ txIndex 0 [] newAccessList 0
    (Z.of_nat (length events)).

(** *** The journal *)

Definition bump (dirties : gmap addr Z) (a : addr) : gmap addr Z :=
  <[a := default 0 (dirties !! a) + 1]> dirties.

Definition journal_append (e : JournalEntry) : MS unit := mmodify (fun s =>
  set_journal (sd_entries s ++ [e])
    (match Dirtied e with Some a => bump (sd_dirties s) a | None => sd_dirties s end) s).

Definition setStateObject (o : stateObject) : MS unit := mmodify (fun s =>
  set_objects (<[so_address o := o]> (sd_objects s)) s).

Definition getStateObject (a : addr) : MS (option stateObject) := fun s =>
  match sd_objects s !! a with
  | Some o => (Ok (Some o), s)
  | None =>
    match kp_GetAccount (sd_ctx s) a with
    | None => (Ok None, s)
    | Some account =>
      let o := newObject a account in
      (Ok (Some o), set_objects (<[a := o]> (sd_objects s)) s)
    end
  end.

(** A method call on a nil object panics. *)
Definition getObject (a : addr) : MS stateObject :=
  let! o <- getStateObject a;
  match o with Some o => mret o | None => fun s => (Panic nil_deref, s) end.

Definition createObject (a : addr) : MS stateObject :=
  let o := newObject a zeroAccount in
  do! journal_append (createObjectChange a);
  do! setStateObject o;
  mret o.

Definition getOrNewStateObject (a : addr) : MS stateObject :=
  let! o <- getStateObject a;
  match o with Some o => mret o | None => createObject a end.

(** *** Methods of a state object that reach the database *)

Definition so_SetBalance (o : stateObject) (amount : Z) : MS Z :=
  do! journal_append (balanceChange (so_address o) (so_Balance o));
  do! setStateObject (so_setBalance amount o);
  mret (so_Balance o).

Definition so_AddBalance (o : stateObject) (amount : Z) : MS Z :=
  if amount =? 0 then mret (so_Balance o)
  else so_SetBalance o (u256 (so_Balance o + amount)).

Definition so_SubBalance (o : stateObject) (amount : Z) : MS Z :=
  if amount =? 0 then mret (so_Balance o)
  else if so_Balance o <? amount then fun s => (Panic "state balance underflow", s)
  else so_SetBalance o (so_Balance o - amount).

Definition so_SetNonce (o : stateObject) (nonce : Z) : MS unit :=
  do! journal_append (nonceChange (so_address o) (so_Nonce o));
  setStateObject (so_setNonce nonce o).

(** [Code] loads the code into the object. *)
Definition so_Code (o : stateObject) : MS (option bytes * stateObject) :=
  match so_code o with
  | Some c => mret (Some c, o)
  | None =>
    if IsEmptyCodeHash (so_CodeHash o) then mret (None, o)
    else
      let! code <- mreads (fun s => kp_GetCode (sd_ctx s) (BytesToHash (so_CodeHash o)));
      let o' := so_loadCode code o in
      do! setStateObject o';
      mret (code, o')
  end.

Definition so_SetCode (o : stateObject) (codeHash : hash) (code : option bytes) : MS unit :=
  let! (prevcode, o') <- so_Code o;
  do! journal_append (codeChange (so_address o') prevcode (so_CodeHash o'));
  setStateObject (so_setCode codeHash code o').

Definition so_GetCommittedState (o : stateObject) (key : hash) : MS (hash * stateObject) :=
  match so_overrideStorage o with
  | Some storage => mret (default zero_hash (storage !! key), o)
  | None =>
    match so_originStorage o !! key with
    | Some value => mret (value, o)
    | None =>
      let! value <- mreads (fun s => kp_GetState (sd_ctx s) (so_address o) key);
      let o' := so_cacheOrigin key value o in
      do! setStateObject o';
      mret (value, o')
    end
  end.

Definition so_GetState (o : stateObject) (key : hash) : MS (hash * stateObject) :=
  match so_dirtyStorage o !! key with
  | Some value => mret (value, o)
  | None => so_GetCommittedState o key
  end.

Definition so_SetState (o : stateObject) (key value : hash) : MS hash :=
  let! (prev, o') <- so_GetState o key;
  if String.eqb prev value then mret prev else
  do! journal_append (storageChange (so_address o') key prev);
  do! setStateObject (so_setState key value o');
  mret prev.

(** *** Readers *)

Definition StateDB_Exist (a : addr) : MS bool :=
  let! o <- getStateObject a; mret (match o with Some _ => true | None => false end).
Definition StateDB_Empty (a : addr) : MS bool :=
  let! o <- getStateObject a; mret (match o with Some o => so_empty o | None => true end).
Definition StateDB_GetBalance (a : addr) : MS Z :=
  let! o <- getStateObject a; mret (match o with Some o => so_Balance o | None => 0 end).
Definition StateDB_GetNonce (a : addr) : MS Z :=
  let! o <- getStateObject a; mret (match o with Some o => so_Nonce o | None => 0 end).
Definition StateDB_GetCode (a : addr) : MS (option bytes) :=
  let! o <- getStateObject a;
  match o with Some o => let! (c, _) <- so_Code o; mret c | None => mret None end.
Definition StateDB_GetCodeSize (a : addr) : MS Z :=
  let! o <- getStateObject a;
  match o with Some o => let! (c, _) <- so_Code o; mret (len (default EmptyString c)) | None => mret 0 end.
Definition StateDB_GetCodeHash (a : addr) : MS hash :=
  let! o <- getStateObject a;
  mret (match o with Some o => BytesToHash (so_CodeHash o) | None => zero_hash end).
Definition StateDB_GetState (a : addr) (key : hash) : MS hash :=
  let! o <- getStateObject a;
  match o with Some o => let! (v, _) <- so_GetState o key; mret v | None => mret zero_hash end.
Definition StateDB_GetCommittedState (a : addr) (key : hash) : MS hash :=
  let! o <- getStateObject a;
  match o with Some o => let! (v, _) <- so_GetCommittedState o key; mret v | None => mret zero_hash end.
Definition StateDB_GetStateAndCommittedState (a : addr) (key : hash) : MS (hash * hash) :=
  let! o <- getStateObject a;
  match o with
  | Some o =>
    let! (v, o1) <- so_GetState o key;
    let! (c, _) <- so_GetCommittedState o1 key;
    mret (v, c)
  | None => mret (zero_hash, zero_hash)
  end.
Definition StateDB_HasSelfDestructed (a : addr) : MS bool :=
  let! o <- getStateObject a; mret (match o with Some o => so_selfDestructed o | None => false end).
Definition StateDB_IsNewContract (a : addr) : MS bool :=
  let! o <- getStateObject a; mret (match o with Some o => so_newContract o | None => false end).
Definition StateDB_GetRefund : MS Z := mreads sd_refund.
Definition StateDB_Logs : MS (list Log) := mreads sd_logs.
Definition StateDB_IsStorageEmpty (a : addr) : MS bool := mreads (fun s =>
  match kp_ForEachStorage (sd_ctx s) a with [] => true | _ => false end).
Definition StateDB_GetTransientState (a : addr) (key : hash) : MS hash :=
  mreads (fun s => ts_Get (sd_transient s) a key).
Definition StateDB_AddressInAccessList (a : addr) : MS bool :=
  mreads (fun s => al_ContainsAddress (sd_accessList s) a).
Definition StateDB_SlotInAccessList (a : addr) (slot : hash) : MS (bool * bool) :=
  mtry (fun s => al_Contains (sd_accessList s) a slot).
Definition StateDB_IsEventProcessed (idx : Z) : MS bool := mreads (fun s => idx <? sd_processedEvents s).

(** [ForEachStorage] shows the callback the stored slots of an account, the
    dirty value in place of the stored one. *)
Definition StateDB_ForEachStorage (a : addr) : MS (list (hash * hash)) :=
  let! o <- getStateObject a;
  match o with
  | None => mret []
  | Some o => mreads (fun s =>
      map (fun '(k, v) => (k, default v (so_dirtyStorage o !! k))) (kp_ForEachStorage (sd_ctx s) a))
  end.

(** *** Writers *)

Definition StateDB_CreateAccount (a : addr) : MS unit := do! createObject a; mret tt.

Definition StateDB_CreateContract (a : addr) : MS unit :=
  let! o <- getObject a;
  if so_newContract o then mret tt else
  do! setStateObject (so_setNewContract true o);
  journal_append (createContractChange a).

Definition StateDB_AddBalance (a : addr) (amount : Z) : MS Z :=
  let! o <- getOrNewStateObject a; so_AddBalance o amount.

Definition StateDB_SubBalance (a : addr) (amount : Z) : MS Z :=
  let! o <- getOrNewStateObject a;
  if amount =? 0 then mret (so_Balance o) else so_SubBalance o amount.

Definition StateDB_SetBalance (a : addr) (amount : Z) : MS unit :=
  let! o <- getOrNewStateObject a; do! so_SetBalance o amount; mret tt.

Definition StateDB_SetNonce (a : addr) (nonce : Z) : MS unit :=
  let! o <- getOrNewStateObject a; so_SetNonce o nonce.

Definition StateDB_SetCode (a : addr) (code : option bytes) : MS (option bytes) :=
  let! o <- getOrNewStateObject a;
  do! so_SetCode o (Keccak256Hash [default EmptyString code]) code;
  mret (so_code o).

Definition StateDB_SetState (a : addr) (key value : hash) : MS hash :=
  let! o <- getOrNewStateObject a; so_SetState o key value.

Definition StateDB_SetStorage (a : addr) (storage : Storage) : MS unit :=
  let! o <- getOrNewStateObject a; setStateObject (so_SetStorage storage o).

Definition StateDB_SelfDestruct (a : addr) : MS unit :=
  let! o <- getStateObject a;
  match o with
  | None => mret tt
  | Some o =>
    do! journal_append (selfDestructChange a);
    setStateObject (so_setDestructed true o)
  end.

Definition StateDB_SetTransientState (a : addr) (key value : hash) : MS unit :=
  let! prev <- StateDB_GetTransientState a key;
  if String.eqb prev value then mret tt else
  do! journal_append (transientStorageChange a key prev);
  mmodify (fun s => set_transient (ts_Set (sd_transient s) a key value) s).

Definition StateDB_AddLog (l : Log) : MS unit :=
  do! journal_append addLogChange;
  mmodify (fun s => set_logs (sd_logs s ++
    [MkLog (lg_Address l) (lg_Topics l) (lg_Data l) (sd_TxIndex s) (Z.of_nat (length (sd_logs s)))]) s).

Definition StateDB_AddRefund (gas : Z) : MS unit :=
  let! prev <- mreads sd_refund;
  do! journal_append (refundChange prev);
  mmodify (set_refund (u64 (prev + gas))).

Definition StateDB_SubRefund (gas : Z) : MS unit :=
  let! prev <- mreads sd_refund;
  do! journal_append (refundChange prev);
  if prev <? gas then fun s => (Panic "Refund counter below zero", s)
  else mmodify (set_refund (prev - gas)).

Definition StateDB_AddAddressToAccessList (a : addr) : MS unit := fun s =>
  let '(added, al) := al_AddAddress (sd_accessList s) a in
  (if added then journal_append (accessListAddAccountChange a) else mret tt) (set_accessList al s).

Definition StateDB_AddSlotToAccessList (a : addr) (slot : hash) : MS unit := fun s =>
  match al_AddSlot (sd_accessList s) a slot with
  | Ok (addrMod, slotMod, al) =>
    (do! (if addrMod : bool then journal_append (accessListAddAccountChange a) else mret tt);
     if slotMod : bool then journal_append (accessListAddSlotChange a slot) else mret tt)
    (set_accessList al s)
  | Err e => (Err e, s)
  | Panic e => (Panic e, s)
  end.

(** The access list [Prepare] builds. *)
Fixpoint prepare_slots (al : accessList) (a : addr) (keys : list hash) : outcome accessList :=
  match keys with
  | [] => Ok al
  | k :: keys' => olet r <- al_AddSlot al a k; prepare_slots r.2 a keys'
  end.
Fixpoint prepare_list (al : accessList) (l : list (addr * list hash)) : outcome accessList :=
  match l with
  | [] => Ok al
  | (a, keys) :: l' => olet al' <- prepare_slots (al_AddAddress al a).2 a keys; prepare_list al' l'
  end.
Definition add_addresses (al : accessList) (l : list addr) : accessList :=
  fold_left (fun al a => (al_AddAddress al a).2) l al.

Definition StateDB_Prepare (rules : Rules) (sender coinbase : addr) (dst : option addr)
    (precompiles : list addr) (list : list (addr * list hash)) : MS unit :=
  if IsEIP2929 rules && IsEIP4762 rules
  then fun s => (Panic "eip2929 and eip4762 are both activated", s) else
  do! (if IsEIP2929 rules then
         let al := add_addresses newAccessList
                     (sender :: match dst with Some d => [d] | None => [] end ++ precompiles) in
         let! al' <- mlift (prepare_list al list);
         mmodify (set_accessList (if IsShanghai rules then (al_AddAddress al' coinbase).2 else al'))
       else mret tt);
  mmodify (set_transient ∅).

(** *** Precompile calls *)

Definition StateDB_cache : MS unit := fun s =>
  if negb (sd_hasMultiStore s) then (Err "ctx has no multi store", s)
  else (Ok tt, set_cache (Some (NewBranch (sd_ctx s), [])) s).

Definition StateDB_GetCacheContext : MS unit := fun s =>
  match sd_cache s with Some _ => (Ok tt, s) | None => StateDB_cache s end.

Definition StateDB_MultiStoreSnapshot : MS Z := fun s =>
  match sd_cache s with
  | None => (Panic nil_deref, s)
  | Some (st, evs) =>
    match Snapshot st with
    | Ok (id, st') => (Ok id, set_cache (Some (st', evs)) s)
    | Err e => (Err e, s)
    | Panic e => (Panic e, s)
    end
  end.

Definition StateDB_RevertMultiStore (snapshot : Z) : MS unit := fun s =>
  match sd_cache s with
  | None => (Panic nil_deref, s)
  | Some (st, evs) =>
    match RevertToSnapshot snapshot st with
    | Ok st' => (Ok tt, set_cache (Some (st', evs)) s)
    | Err e => (Err e, s)
    | Panic e => (Panic e, s)
    end
  end.

Definition MaxPrecompileCalls : Z := 20.

(** The counter is a [uint8]. *)
Definition StateDB_AddPrecompileFn (snapshot : Z) : MS unit := fun s =>
  match sd_cache s with
  | None => (Panic nil_deref, s)
  | Some (_, prevEvents) =>
    (do! journal_append (precompileCallChange snapshot prevEvents (sd_processedEvents s));
     do! mmodify (set_precompileCalls ((sd_precompileCalls s + 1) mod 256));
     let! n <- mreads sd_precompileCalls;
     mguard (negb (MaxPrecompileCalls <? n)) "max calls to precompiles (20) reached") s
  end.

Definition StateDB_MarkEventProcessed (idx : Z) : MS unit := fun s =>
  if negb (idx =? sd_processedEvents s)
  then (Panic "balance events must be processed sequentially", s)
  else (Ok tt, set_processed (sd_processedEvents s + 1) s).

(** *** Journal entries and snapshots *)

Definition JournalEntry_Revert (e : JournalEntry) : MS unit :=
  match e with
  | createContractChange a => let! o <- getObject a; setStateObject (so_setNewContract false o)
  | precompileCallChange snapshot prevEvents prevCount =>
    do! StateDB_RevertMultiStore snapshot;
    do! mmodify (fun s => match sd_cache s with
                          | Some (st, _) => set_cache (Some (st, prevEvents)) s
                          | None => s
                          end);
    mmodify (set_processed prevCount)
  | createObjectChange a => mmodify (fun s => set_objects (delete a (sd_objects s)) s)
  | selfDestructChange a =>
    let! o <- getStateObject a;
    match o with Some o => setStateObject (so_setDestructed false o) | None => mret tt end
  | balanceChange a prev => let! o <- getObject a; setStateObject (so_setBalance prev o)
  | nonceChange a prev => let! o <- getObject a; setStateObject (so_setNonce prev o)
  | codeChange a prevcode prevhash =>
    let! o <- getObject a; setStateObject (so_setCode (BytesToHash prevhash) prevcode o)
  | storageChange a key prevalue => let! o <- getObject a; setStateObject (so_setState key prevalue o)
  | transientStorageChange a key prevalue =>
    mmodify (fun s => set_transient (ts_Set (sd_transient s) a key prevalue) s)
  | refundChange prev => mmodify (set_refund prev)
  | addLogChange => mmodify (fun s => set_logs (take (length (sd_logs s) - 1) (sd_logs s)) s)
  | accessListAddAccountChange a =>
    mmodify (fun s => set_accessList (al_DeleteAddress (sd_accessList s) a) s)
  | accessListAddSlotChange a slot => fun s =>
    match al_DeleteSlot (sd_accessList s) a slot with
    | Ok al => (Ok tt, set_accessList al s)
    | Err e => (Err e, s)
    | Panic e => (Panic e, s)
    end
  end.

(** The counter of an address is decremented and dropped at zero. *)
Definition undirty (e : JournalEntry) (dirties : gmap addr Z) : gmap addr Z :=
  match Dirtied e with
  | None => dirties
  | Some a =>
    let n := default 0 (dirties !! a) - 1 in
    if n =? 0 then delete a dirties else <[a := n]> dirties
  end.

(** The loop of [journal.Revert], over the entries from the last one down. *)
Fixpoint undo_entries (l : list JournalEntry) : MS unit :=
  match l with
  | [] => mret tt
  | e :: l' =>
    do! JournalEntry_Revert e;
    do! mmodify (fun s => set_journal (sd_entries s) (undirty e (sd_dirties s)) s);
    undo_entries l'
  end.

Definition journal_Revert (snapshot : nat) : MS unit := fun s =>
  (do! undo_entries (rev (drop snapshot (sd_entries s)));
   mmodify (fun s => set_journal (take snapshot (sd_entries s)) (sd_dirties s) s)) s.

Definition StateDB_Snapshot : MS Z := fun s =>
  let id := sd_nextRevisionID s in
  (Ok id, set_revisions (sd_revisions s ++ [(id, Z.of_nat (length (sd_entries s)))])
            (set_next (id + 1) s)).

Definition StateDB_RevertToSnapshot (revid : Z) : MS unit := fun s =>
  let revs := sd_revisions s in
  let idx := sort_Search (length revs)
               (fun i => match revs !! i with Some (id, _) => revid <=? id | None => false end) in
  match revs !! idx with
  | None => (Panic "revision id cannot be reverted", s)
  | Some (id, journalIndex) =>
    if negb (id =? revid) then (Panic "revision id cannot be reverted", s) else
    (do! journal_Revert (Z.to_nat journalIndex);
     mmodify (fun s => set_revisions (take idx revs) s)) s
  end.

(** *** Commit *)

(** Addresses and slots in byte order. *)
Definition sorted_keys {V} (m : gmap string V) : list string :=
  merge_sort str_le (map fst (map_to_list m)).
Definition sortedDirties (s : StateDB) : list addr := sorted_keys (sd_dirties s).

(** [common.Hash.Bytes] of a slot value. *)
Definition Hash_Bytes (h : hash) : bytes := h.

Definition commit_slot (o : stateObject) (k : K) (key : hash) : K :=
  let valueBytes := Hash_Bytes (default zero_hash (so_dirtyStorage o !! key)) in
  if len valueBytes =? 0 then kp_DeleteState (so_address o) key k
  else kp_SetState (so_address o) key valueBytes k.

Definition commit_storage (o : stateObject) (k : K) : K :=
  fold_left (commit_slot o) (sorted_keys (so_dirtyStorage o)) k.

Definition commit_code (o : stateObject) (k : K) : K :=
  match so_code o with
  | Some code =>
    if so_dirtyCode o
    then if len code =? 0 then kp_DeleteCode (so_CodeHash o) k else kp_SetCode (so_CodeHash o) code k
    else k
  | None => k
  end.

(** A self-destructed object persists new code first, so that the keeper sees
    a contract to delete. *)
Definition commit_object (o : stateObject) (k : K) : outcome (list SdkEvent) * K :=
  if so_selfDestructed o then
    let '(pre, k1) :=
      match so_code o with
      | Some code =>
        if so_dirtyCode o && (0 <? len code)
        then kp_SetAccount (so_address o) (so_account o) (kp_SetCode (so_CodeHash o) code k)
        else (Ok [], k)
      | None => (Ok [], k)
      end in
    match pre with
    | Ok evs1 =>
      let '(r, k2) := kp_DeleteAccount (so_address o) k1 in
      (olet evs2 <- owrap "failed to delete account" r; Ok (evs1 ++ evs2), k2)
    | Err e => (owrap "failed to set account before delete" (Err e), k1)
    | Panic e => (Panic e, k1)
    end
  else
    let '(r, k1) := kp_SetAccount (so_address o) (so_account o) (commit_code o k) in
    match r with
    | Ok evs => (Ok evs, commit_storage o k1)
    | Err e => (owrap "failed to set account" (Err e), k1)
    | Panic e => (Panic e, k1)
    end.

(** [commitWithCtx] on a context and its events; the objects are only read. *)
Fixpoint commit_loop (objects : gmap addr stateObject) (l : list addr) (k : K) (evs : list SdkEvent)
    : outcome unit * (K * list SdkEvent) :=
  match l with
  | [] => (Ok tt, (k, evs))
  | a :: l' =>
    match objects !! a with
    | None => (Panic nil_deref, (k, evs))
    | Some o =>
      match commit_object o k with
      | (Ok new, k') => commit_loop objects l' k' (evs ++ new)
      | (Err e, k') => (Err e, (k', evs))
      | (Panic e, k') => (Panic e, (k', evs))
      end
    end
  end.

Definition StateDB_Commit : MS unit := fun s =>
  let '(k0, evs0) :=
    match sd_cache s with
    | Some (st, evs) => (WriteBranch st (sd_ctx s), sd_events s ++ evs)
    | None => (sd_ctx s, sd_events s)
    end in
  let '(r, (k, evs)) := commit_loop (sd_objects s) (sortedDirties s) k0 evs0 in
  (r, set_ctx k evs s).

Definition StateDB_FlushToCacheCtx : MS unit := fun s =>
  match sd_cache s with
  | None => (Panic nil_deref, s)
  | Some (st, evs) =>
    let '(r, (k, evs')) := commit_loop (sd_objects s) (sortedDirties s) (ss_view st) evs in
    let s' := set_cache (Some (ss_update (fun _ => k) st, evs')) s in
    match r with
    | Ok _ => (Ok tt, set_processed (Z.of_nat (length evs')) s')
    | _ => (r, s')
    end
  end.

(** [Finalise] forgets the self-destructed (and, if asked, the empty) dirty
    objects. *)
Definition finalise_object (deleteEmpty : bool) (objects : gmap addr stateObject) (a : addr)
    : gmap addr stateObject :=
  match objects !! a with
  | None => objects
  | Some o =>
    if so_selfDestructed o || (deleteEmpty && so_empty o) then delete (so_address o) objects else objects
  end.
Definition StateDB_Finalise (deleteEmpty : bool) : MS unit := mmodify (fun s =>
  set_objects (fold_left (finalise_object deleteEmpty) (sortedDirties s) (sd_objects s)) s).

(** [EthBurnLog] is go-ethereum's; the burned accounts are logged in address
    order. *)
Definition burn_list (s : StateDB) : list (addr * Z) :=
  omap (fun a => match sd_objects s !! a with
                 | Some o => if so_selfDestructed o && negb (so_Balance o =? 0)
                             then Some (so_address o, so_Balance o) else None
                 | None => None
                 end) (sortedDirties s).
Fixpoint add_logs (l : list Log) : MS unit :=
  match l with [] => mret tt | x :: l' => do! StateDB_AddLog x; add_logs l' end.
Definition StateDB_EmitLogsForBurnAccounts (EthBurnLog : addr -> Z -> Log) : MS unit := fun s =>
  add_logs (map (fun '(a, b) => EthBurnLog a b) (burn_list s)) s.
End statedb.
