(* ===== verification/StateDBFacts.v ===== *)
(** * x/vm/statedb: observational equivalence and undo

    Two states are equivalent when no reader of the EVM can tell them apart:
    the objects that were merely loaded, the slots and codes that were merely
    cached, and the marks that only decide what [Commit] writes do not count.
    Undoing a journal entry respects the equivalence ([Revert_proper]), and
    every operation of the state is undone, up to equivalence, by the entries
    it journals ([undoable]). *)

From Stdlib Require Import ZArith Lia List String Ascii Bool.
From stdpp Require Import base gmap strings list.
From S2P Require Import Prelude GoStrings Sdk AccessList SnapshotStore StateDB.
Local Open Scope Z_scope.
Local Open Scope go_scope.

(** What is assumed of the hash function and of the keeper: hashes have
    thirty-two bytes. *)
Class HashLaws (K : Type) `{!EthCrypto, !StateKeeper K} := {
  Keccak256Hash_length l : String.length (Keccak256Hash l) = 32%nat;
  kp_CodeHash_length (k : K) a acc h :
    kp_GetAccount k a = Some acc -> ac_CodeHash acc = Some h -> String.length h = 32%nat;
}.

(** A fresh branch is well-formed and has no snapshot to revert to. *)
Class BranchLaws (S K : Type) `{!Snapshotter S K, !CacheContext S K} := {
  NewBranch_ok (k : K) : ss_ok (NewBranch k);
  NewBranch_fresh (k : K) id (s : S) : RevertToSnapshot id (NewBranch k) <> Ok s;
}.

Create HintDb statedb.

Section facts.
Context {K S : Type} {Cr : EthCrypto} {Kp : StateKeeper K} {Sn : Snapshotter S K} {Cc : CacheContext S K}.
Context {HL : HashLaws K} {SL : SnapshotterLaws S K} {BL : BranchLaws S K}.
Abbreviation StateDB := (StateDB K S).
Implicit Types (s t u : StateDB) (o : stateObject) (a : addr) (e : JournalEntry) (k : K).

Lemma BytesToHash_id b : String.length b = 32%nat -> BytesToHash b = b.
Proof.
  intros H. unfold BytesToHash. rewrite H. simpl Nat.sub. cbn [Nat.leb]. rewrite <- H. apply substring_all.
Qed.

(** ** What a reader sees of an object *)

Definition code_view k o : option bytes :=
  match so_code o with
  | Some c => Some c
  | None => if IsEmptyCodeHash (so_CodeHash o) then None
            else kp_GetCode k (BytesToHash (so_CodeHash o))
  end.

Definition committed_view k o (key : hash) : hash :=
  match so_overrideStorage o with
  | Some storage => default zero_hash (storage !! key)
  | None => default (kp_GetState k (so_address o) key) (so_originStorage o !! key)
  end.

Definition state_view k o (key : hash) : hash :=
  default (committed_view k o key) (so_dirtyStorage o !! key).

Record obj_equiv k o o' : Prop := {
  oe_address : so_address o = so_address o';
  oe_account : so_account o = so_account o';
  oe_code : code_view k o = code_view k o';
  oe_committed key : committed_view k o key = committed_view k o' key;
  oe_state key : state_view k o key = state_view k o' key;
  oe_destructed : so_selfDestructed o = so_selfDestructed o';
  oe_new : so_newContract o = so_newContract o';
}.

#[export] Instance obj_equiv_equivalence k : Equivalence (obj_equiv k).
Proof.
  split.
  - by constructor.
  - intros o o' []. by constructor.
  - intros o1 o2 o3 [] []. constructor; intros; congruence.
Qed.

(** The object of an address, loaded or not. *)
Definition oview s a : option stateObject :=
  match sd_objects s !! a with
  | Some o => Some o
  | None => newObject a <$> kp_GetAccount (sd_ctx s) a
  end.

(** The cache context, as it is created on first use. *)
Definition cview s : S * list SdkEvent :=
  match sd_cache s with Some c => c | None => (NewBranch (sd_ctx s), []) end.

(** ** Equivalence of states

    Everything but the journal itself, the revisions and the count of
    precompile calls. *)
Record sequiv s t : Prop := {
  se_ctx : sd_ctx s = sd_ctx t;
  se_events : sd_events s = sd_events t;
  se_multi : sd_hasMultiStore s = sd_hasMultiStore t;
  se_index : sd_TxIndex s = sd_TxIndex t;
  se_dirties : sd_dirties s = sd_dirties t;
  se_refund : sd_refund s = sd_refund t;
  se_logs : sd_logs s = sd_logs t;
  se_access : sd_accessList s = sd_accessList t;
  se_transient a key : ts_Get (sd_transient s) a key = ts_Get (sd_transient t) a key;
  se_cache : cview s = cview t;
  se_processed : sd_processedEvents s = sd_processedEvents t;
  se_objects a : option_Forall2 (obj_equiv (sd_ctx s)) (oview s a) (oview t a);
}.

#[export] Instance sequiv_equivalence : Equivalence sequiv.
Proof.
  split.
  - intros s. by constructor.
  - intros s t []. constructor; try done. intros a. rewrite <- se_ctx0. symmetry. apply se_objects0.
  - intros s t u [] []. constructor; try congruence.
    intros a. etrans; [apply se_objects0|]. rewrite se_ctx0. apply se_objects1.
Qed.

(** ** Loading and storing objects *)

Definition load a s : StateDB :=
  match sd_objects s !! a with
  | Some _ => s
  | None =>
    match kp_GetAccount (sd_ctx s) a with
    | None => s
    | Some account => set_objects (<[a := newObject a account]> (sd_objects s)) s
    end
  end.

Definition put o s : StateDB := set_objects (<[so_address o := o]> (sd_objects s)) s.

Lemma getStateObject_eq a s : getStateObject a s = (Ok (oview s a), load a s).
Proof.
  unfold getStateObject, oview, load. destruct (sd_objects s !! a); [done|].
  by destruct (kp_GetAccount (sd_ctx s) a).
Qed.

Lemma getObject_eq a s :
  getObject a s = (match oview s a with Some o => Ok o | None => Panic nil_deref end, load a s).
Proof. unfold getObject, mbind'. rewrite getStateObject_eq. by destruct (oview s a). Qed.

Lemma oview_set objs s b :
  oview (set_objects objs s) b =
  match objs !! b with Some o => Some o | None => newObject b <$> kp_GetAccount (sd_ctx s) b end.
Proof. done. Qed.

Lemma oview_put o s b : oview (put o s) b = if decide (b = so_address o) then Some o else oview s b.
Proof.
  unfold put. rewrite oview_set. destruct (decide (b = so_address o)) as [->|Hne].
  - by rewrite lookup_insert_eq.
  - by rewrite lookup_insert_ne by done.
Qed.

(** Loading changes the live objects and nothing that is seen. *)
Lemma load_set a s : exists objs, load a s = set_objects objs s /\ forall b, oview (set_objects objs s) b = oview s b.
Proof.
  unfold load. destruct (sd_objects s !! a) eqn:Ha; [by exists (sd_objects s); destruct s|].
  destruct (kp_GetAccount (sd_ctx s) a) as [acc|] eqn:Hacc; [|by exists (sd_objects s); destruct s].
  eexists. split; [done|]. intros b. rewrite oview_set. unfold oview.
  destruct (decide (b = a)) as [->|Hne].
  - by rewrite lookup_insert_eq, Ha, Hacc.
  - by rewrite lookup_insert_ne by done.
Qed.

Lemma sequiv_objects s t objs objs' : sequiv s t ->
  (forall b, option_Forall2 (obj_equiv (sd_ctx s)) (oview (set_objects objs s) b) (oview (set_objects objs' t) b)) ->
  sequiv (set_objects objs s) (set_objects objs' t).
Proof. intros [] Ho. by constructor. Qed.

Lemma load_equiv a s : sequiv (load a s) s.
Proof.
  destruct (load_set a s) as (objs & -> & Hv).
  assert (s = set_objects (sd_objects s) s) as Hs by by destruct s.
  rewrite Hs at 2. apply sequiv_objects; [done|]. intros b. rewrite Hv, <- Hs. done.
Qed.

Lemma put_equiv o o' s t : sequiv s t -> obj_equiv (sd_ctx s) o o' -> sequiv (put o s) (put o' t).
Proof.
  intros Hs Ho. unfold put. apply sequiv_objects; [done|]. intros b.
  fold (put o s) (put o' t). rewrite !oview_put, <- (oe_address _ _ _ Ho).
  destruct (decide (b = so_address o)); [by constructor|apply Hs].
Qed.

(** Storing back what was there. *)
Lemma put_same o s : (exists o', oview s (so_address o) = Some o' /\ obj_equiv (sd_ctx s) o o') ->
  sequiv (put o s) s.
Proof.
  intros (o' & Hv & Ho). assert (s = set_objects (sd_objects s) s) as Hs by by destruct s.
  rewrite Hs at 2. unfold put. apply sequiv_objects; [done|]. intros b. rewrite <- Hs.
  fold (put o s). rewrite oview_put. destruct (decide (b = so_address o)) as [->|]; [|done].
  rewrite Hv. by constructor.
Qed.

Lemma put_put o o' s : so_address o = so_address o' -> put o (put o' s) = put o s.
Proof. intros H. unfold put, set_objects. simpl. by rewrite H, insert_insert_eq. Qed.

(** ** Setters respect the equivalence of objects *)

Definition respects (f : stateObject -> stateObject) : Prop :=
  forall k o o', obj_equiv k o o' -> obj_equiv k (f o) (f o').

Lemma CodeHash_equiv k o o' : obj_equiv k o o' -> so_CodeHash o = so_CodeHash o'.
Proof. intros []. unfold so_CodeHash. congruence. Qed.

Lemma setBalance_respects z : respects (so_setBalance z).
Proof.
  intros k o o' [Ha Hac Hc Hcm Hst Hd Hn]. constructor; try done. simpl. by rewrite Hac.
Qed.

Lemma setNonce_respects z : respects (so_setNonce z).
Proof.
  intros k o o' [Ha Hac Hc Hcm Hst Hd Hn]. constructor; try done. simpl. by rewrite Hac.
Qed.

Lemma setCode_respects h c : respects (so_setCode h c).
Proof. intros k o o' [Ha Hac Hc Hcm Hst Hd Hn]. constructor; try done. simpl. by rewrite Hac. Qed.

Lemma setState_respects key v : respects (so_setState key v).
Proof.
  intros k o o' [Ha Hac Hc Hcm Hst Hd Hn]. constructor; try done. intros j. specialize (Hst j).
  unfold state_view in *. simpl. destruct (decide (j = key)) as [->|Hne]; [by rewrite !lookup_insert_eq|].
  by rewrite !lookup_insert_ne by done.
Qed.

Lemma setDestructed_respects b : respects (so_setDestructed b).
Proof. intros k o o' []. by constructor. Qed.

Lemma setNewContract_respects b : respects (so_setNewContract b).
Proof. intros k o o' []. by constructor. Qed.

#[local] Hint Resolve setBalance_respects setNonce_respects setCode_respects setState_respects
  setDestructed_respects setNewContract_respects : statedb.

(** ** Undoing an entry respects the equivalence *)

Lemma modify_eq a f s :
  (let! o <- getObject a; setStateObject (f o)) s =
  match oview s a with
  | Some o => (Ok tt, put (f o) (load a s))
  | None => (Panic nil_deref, load a s)
  end.
Proof. unfold mbind'. rewrite getObject_eq. by destruct (oview s a). Qed.

Lemma oview_equiv s t a : sequiv s t -> option_Forall2 (obj_equiv (sd_ctx s)) (oview s a) (oview t a).
Proof. intros H. apply H. Qed.

Lemma ctx_load a s : sd_ctx (load a s) = sd_ctx s.
Proof. by destruct (load_set a s) as (objs & -> & _). Qed.

Lemma load_proper a s t : sequiv s t -> sequiv (load a s) (load a t).
Proof. intros H. by rewrite !load_equiv. Qed.

Lemma modify_proper a f s t s1 : respects f -> sequiv s t ->
  (let! o <- getObject a; setStateObject (f o)) s = (Ok tt, s1) ->
  exists t1, (let! o <- getObject a; setStateObject (f o)) t = (Ok tt, t1) /\ sequiv s1 t1.
Proof.
  intros Hf Hs. rewrite !modify_eq. destruct (oview_equiv s t a Hs) as [o o' Ho|]; [|done].
  intros [= <-]. eexists. split; [done|]. apply put_equiv; [by apply load_proper|].
  rewrite ctx_load. by apply Hf.
Qed.

(** Setters of the other fields. *)
Lemma oview_same s t : sd_objects s = sd_objects t -> sd_ctx s = sd_ctx t -> forall a, oview s a = oview t a.
Proof. intros Ho Hc a. unfold oview. by rewrite Ho, Hc. Qed.

Lemma cview_same s t : sd_cache s = sd_cache t -> sd_ctx s = sd_ctx t -> cview s = cview t.
Proof. intros Ho Hc. unfold cview. by rewrite Ho, Hc. Qed.

Lemma RevertMultiStore_proper id evs n s t s1 : sequiv s t ->
  JournalEntry_Revert (precompileCallChange id evs n) s = (Ok tt, s1) ->
  exists t1, JournalEntry_Revert (precompileCallChange id evs n) t = (Ok tt, t1) /\ sequiv s1 t1.
Proof.
  intros Hs. simpl. unfold StateDB_RevertMultiStore, mbind', mmodify.
  pose proof (se_cache _ _ Hs) as Hc. unfold cview in Hc. rewrite (se_ctx _ _ Hs) in Hc.
  destruct (sd_cache s) as [[st ev]|] eqn:Hcs; [|done].
  destruct (RevertToSnapshot id st) as [st'| |] eqn:Hr; try done. intros H. injection H as <-.
  destruct (sd_cache t) as [[st2 ev2]|] eqn:Hct.
  - injection Hc as -> ->. rewrite Hr. eexists. split; [done|]. simpl. constructor; try apply Hs; done.
  - injection Hc as -> ->. by apply NewBranch_fresh in Hr.
Qed.

Lemma Revert_proper e s t s1 : sequiv s t -> JournalEntry_Revert e s = (Ok tt, s1) ->
  exists t1, JournalEntry_Revert e t = (Ok tt, t1) /\ sequiv s1 t1.
Proof.
  intros Hs. destruct e; try (apply modify_proper; [auto with statedb|done]);
    try (by apply RevertMultiStore_proper).
  - intros H. injection H as <-. eexists. split; [done|]. apply sequiv_objects; [done|].
    intros b. rewrite !oview_set, <- (se_ctx _ _ Hs). destruct (decide (b = account)) as [->|Hne].
    + rewrite !lookup_delete_eq. done.
    + rewrite !lookup_delete_ne by done. pose proof (oview_equiv s t b Hs) as Hb. unfold oview in Hb.
      by rewrite <- (se_ctx _ _ Hs) in Hb.
  - simpl. unfold mbind'. rewrite !getStateObject_eq.
    destruct (oview_equiv s t account Hs) as [o o' Ho|]; intros H; injection H as <-; (eexists; split; [done|]).
    + apply (put_equiv (so_setDestructed false o) (so_setDestructed false o')); [by apply load_proper|].
      rewrite ctx_load. by apply setDestructed_respects.
    + by apply load_proper.
  - intros H. injection H as <-. eexists. split; [done|]. constructor; try apply Hs. simpl. intros a j.
    rewrite !ts_Get_Set. by rewrite (se_transient _ _ Hs).
  - intros H. injection H as <-. eexists. split; [done|]. constructor; try apply Hs. done.
  - intros H. injection H as <-. eexists. split; [done|]. constructor; try apply Hs. simpl.
    by rewrite (se_logs _ _ Hs).
  - intros H. injection H as <-. eexists. split; [done|]. constructor; try apply Hs. simpl.
    by rewrite (se_access _ _ Hs).
  - simpl. rewrite (se_access _ _ Hs). destruct (al_DeleteSlot _ _ _); try done. intros H. injection H as <-.
    eexists. split; [done|]. constructor; try apply Hs. done.
Qed.
End facts.

(** ** x/vm/statedb: every operation is undone by its journal entries *)

Section undo.
Context {K S : Type} {Cr : EthCrypto} {Kp : StateKeeper K} {Sn : Snapshotter S K} {Cc : CacheContext S K}.
Context {HL : HashLaws K} {SL : SnapshotterLaws S K} {BL : BranchLaws S K}.
Abbreviation StateDB := (StateDB K S).
Implicit Types (s t u : StateDB) (o : stateObject) (a : addr) (e : JournalEntry) (k : K).

(** ** Well-formed states *)

Definition obj_ok a o : Prop :=
  so_address o = a /\
  exists n b h l, so_account o = MkAccount n (Some b) (Some h) l /\ String.length h = 32%nat.

Record wf s : Prop := {
  wf_objects a o : sd_objects s !! a = Some o -> obj_ok a o;
  wf_dirties a n : sd_dirties s !! a = Some n -> 0 < n;
  wf_access : al_wf (sd_accessList s);
  wf_cache st evs : sd_cache s = Some (st, evs) -> ss_ok st;
}.

Lemma newObject_ok a acc : (forall h, ac_CodeHash acc = Some h -> String.length h = 32%nat) -> obj_ok a (newObject a acc).
Proof.
  intros H. split; [done|]. unfold newObject. simpl. eexists _, _, _, _. split; [done|].
  destruct (ac_CodeHash acc) as [h|]; [by apply H|apply Keccak256Hash_length].
Qed.

Lemma oview_ok s a o : wf s -> oview s a = Some o -> obj_ok a o.
Proof.
  intros Hw. unfold oview. destruct (sd_objects s !! a) eqn:Ha.
  - intros [= <-]. by eapply wf_objects.
  - intros (acc & Hacc & ->)%fmap_Some. apply newObject_ok. intros h Hh. by eapply kp_CodeHash_length.
Qed.

(** ** Undoing a list of entries *)

(** What undoing leaves alone. *)
Record frame s t : Prop := {
  fr_entries : sd_entries t = sd_entries s;
  fr_dirties : sd_dirties t = sd_dirties s;
  fr_revisions : sd_revisions t = sd_revisions s;
  fr_next : sd_nextRevisionID t = sd_nextRevisionID s;
  fr_ctx : sd_ctx t = sd_ctx s;
}.

#[export] Instance frame_preorder : PreOrder frame.
Proof. split; [by constructor|]. intros s t u [] []. constructor; congruence. Qed.

Lemma load_frame a s : frame s (load a s).
Proof. by destruct (load_set a s) as (objs & -> & _). Qed.

Lemma put_frame o s : frame s (put o s).
Proof. by constructor. Qed.

Lemma Revert_frame e s s1 : JournalEntry_Revert e s = (Ok tt, s1) -> frame s s1.
Proof.
  destruct e; try (intros H; injection H as <-; by constructor);
    try (cbn [JournalEntry_Revert]; rewrite modify_eq; destruct (oview s account) as [o|]; [|done];
         intros [= <-]; etrans; [apply load_frame|apply put_frame]).
  - cbn [JournalEntry_Revert]. unfold mbind'. rewrite getStateObject_eq.
    destruct (oview s account) as [o|]; intros [= <-]; [|apply load_frame].
    etrans; [apply load_frame|by constructor].
  - simpl. destruct (al_DeleteSlot _ _ _); intros H; simplify_eq. by constructor.
  - simpl. unfold StateDB_RevertMultiStore, mbind', mmodify. destruct (sd_cache s) as [[st ev]|]; [|done].
    destruct (RevertToSnapshot snapshot st); intros H; simplify_eq. by constructor.
Qed.

Definition undirtied e s : StateDB := set_journal (sd_entries s) (undirty e (sd_dirties s)) s.

Lemma undo_cons e l s s1 : undo_entries (e :: l) s = (Ok tt, s1) <->
  exists s0, JournalEntry_Revert e s = (Ok tt, s0) /\ undo_entries l (undirtied e s0) = (Ok tt, s1).
Proof.
  cbn [undo_entries]. unfold mbind' at 1. destruct (JournalEntry_Revert e s) as [[[]| |] s0].
  - split; [intros H; by exists s0|]. intros (s0' & Heq & H). by simplify_eq.
  - split; [done|]. by intros (? & ? & ?).
  - split; [done|]. by intros (? & ? & ?).
Qed.

Lemma undo_app l1 l2 s s1 s2 : undo_entries l1 s = (Ok tt, s1) -> undo_entries l2 s1 = (Ok tt, s2) ->
  undo_entries (l1 ++ l2) s = (Ok tt, s2).
Proof.
  revert s. induction l1 as [|e l1 IH]; intros s; [by intros [= <-]|].
  intros (s0 & Hr & Hu)%undo_cons H2. apply undo_cons. exists s0. split; [done|]. by apply IH.
Qed.

Lemma undirtied_proper e s t : sequiv s t -> sequiv (undirtied e s) (undirtied e t).
Proof. intros H. constructor; try apply H. simpl. by rewrite (se_dirties _ _ H). Qed.

Lemma undo_proper l s t s1 : sequiv s t -> undo_entries l s = (Ok tt, s1) ->
  exists t1, undo_entries l t = (Ok tt, t1) /\ sequiv s1 t1.
Proof.
  revert s t. induction l as [|e l IH]; intros s t Hs; [intros [= <-]; by exists t|].
  intros (s0 & Hr & Hu)%undo_cons. destruct (Revert_proper e s t s0 Hs Hr) as (t0 & Hr' & H0).
  destruct (IH _ (undirtied e t0) (undirtied_proper e _ _ H0) Hu) as (t1 & Hu' & H1).
  exists t1. split; [|done]. apply undo_cons. by exists t0.
Qed.

Lemma undo_frame l s s1 : undo_entries l s = (Ok tt, s1) ->
  sd_entries s1 = sd_entries s /\ sd_revisions s1 = sd_revisions s /\
  sd_nextRevisionID s1 = sd_nextRevisionID s.
Proof.
  revert s. induction l as [|e l IH]; intros s; [by intros [= <-]|].
  intros (s0 & Hr & Hu)%undo_cons. apply Revert_frame in Hr as [He _ Hv Hn _].
  apply IH in Hu as (-> & -> & ->). done.
Qed.

(** Undoing keeps the live objects in shape. *)
Definition objs_ok s : Prop := forall a o, sd_objects s !! a = Some o -> obj_ok a o.

Lemma objs_ok_load a s : objs_ok s -> objs_ok (load a s).
Proof.
  intros H b o. unfold load. destruct (sd_objects s !! a) eqn:Ha; [apply H|].
  destruct (kp_GetAccount (sd_ctx s) a) as [acc|] eqn:Hacc; [|apply H]. simpl.
  intros [[<- <-]|[_ Hb]]%lookup_insert_Some; [|by apply H].
  apply newObject_ok. intros h Hh. by eapply kp_CodeHash_length.
Qed.

Lemma objs_ok_put o s : obj_ok (so_address o) o -> objs_ok s -> objs_ok (put o s).
Proof. intros Ho H b o'. simpl. intros [[<- <-]|[_ Hb]]%lookup_insert_Some; [done|by apply H]. Qed.

Lemma obj_ok_setBalance a o z : obj_ok a o -> obj_ok a (so_setBalance z o).
Proof. intros (Ha & n & b & h & l & Hac & Hl). split; [done|]. simpl. rewrite Hac. by eexists _, _, _, _. Qed.
Lemma obj_ok_setNonce a o z : obj_ok a o -> obj_ok a (so_setNonce z o).
Proof. intros (Ha & n & b & h & l & Hac & Hl). split; [done|]. simpl. rewrite Hac. by eexists _, _, _, _. Qed.
Lemma obj_ok_setCode a o h c : obj_ok a o -> String.length h = 32%nat -> obj_ok a (so_setCode h c o).
Proof. intros (Ha & n & b & h' & l & Hac & Hl) Hh. split; [done|]. simpl. rewrite Hac. by eexists _, _, _, _. Qed.
Lemma obj_ok_setState a o key v : obj_ok a o -> obj_ok a (so_setState key v o).
Proof. done. Qed.
Lemma obj_ok_setDestructed a o b : obj_ok a o -> obj_ok a (so_setDestructed b o).
Proof. done. Qed.
Lemma obj_ok_setNewContract a o b : obj_ok a o -> obj_ok a (so_setNewContract b o).
Proof. done. Qed.

#[local] Hint Resolve obj_ok_setBalance obj_ok_setNonce obj_ok_setCode obj_ok_setState
  obj_ok_setDestructed obj_ok_setNewContract : statedb.

Lemma BytesToHash_length b : String.length (BytesToHash b) = 32%nat.
Proof.
  unfold BytesToHash. destruct (Nat.leb_spec 32 (String.length b)) as [Hle|Hlt].
  - assert (forall m n (x : string), (n + m <= String.length x)%nat -> String.length (String.substring n m x) = m) as Hsub.
    { induction m as [|m IH]; intros n x Hx.
      - clear. revert n. induction x as [|c x IH]; intros [|n]; try done. apply IH.
      - revert n Hx. induction x as [|c x IHx]; intros n Hx; simpl in Hx; [lia|].
        destruct n as [|n]; simpl; [f_equal; apply IH; simpl; lia|apply IHx; lia]. }
    apply Hsub. lia.
  - rewrite string_app_length.
    assert (forall n, String.length (of_list (repeat (chr 0) n)) = n) as Hr by (induction n; simpl; congruence).
    rewrite Hr. lia.
Qed.

Lemma Revert_objs_ok e s s1 : JournalEntry_Revert e s = (Ok tt, s1) -> objs_ok s -> objs_ok s1.
Proof.
  intros H Hok.
  assert (Hmod : forall a f, (forall o, obj_ok a o -> obj_ok a (f o)) ->
    (let! o <- getObject a; setStateObject (f o)) s = (Ok tt, s1) -> objs_ok s1).
  { intros a f Hf. rewrite modify_eq. destruct (oview s a) as [o|] eqn:Ho; [|done]. intros [= <-].
    assert (obj_ok a o) as Hoo.
    { revert Ho. unfold oview. destruct (sd_objects s !! a) eqn:Ha; [intros [= <-]; by apply Hok|].
      intros (acc & Hacc & ->)%fmap_Some. apply newObject_ok. intros h Hh. by eapply kp_CodeHash_length. }
    apply objs_ok_put; [|by apply objs_ok_load]. pose proof (Hf o Hoo) as Hfo. by rewrite (proj1 Hfo). }
  destruct e; try (injection H as <-; exact Hok);
    try (eapply Hmod; [|exact H]; simpl; eauto using BytesToHash_length with statedb).
  - injection H as <-. intros b o. simpl. intros [_ Hb]%lookup_delete_Some. by apply Hok.
  - cbn [JournalEntry_Revert] in H. unfold mbind' in H. rewrite getStateObject_eq in H.
    destruct (oview s account) as [o|] eqn:Ho; [|injection H as <-; by apply objs_ok_load].
    eapply (Hmod account (so_setDestructed false)); [done|]. rewrite modify_eq, Ho. exact H.
  - simpl in H. destruct (al_DeleteSlot _ _ _); simplify_eq. exact Hok.
  - simpl in H. unfold StateDB_RevertMultiStore, mbind', mmodify in H.
    destruct (sd_cache s) as [[st ev]|]; [|done]. destruct (RevertToSnapshot snapshot st); simplify_eq. exact Hok.
Qed.

Lemma undo_objs_ok l s s1 : undo_entries l s = (Ok tt, s1) -> objs_ok s -> objs_ok s1.
Proof.
  revert s. induction l as [|e l IH]; intros s; [by intros [= <-]|].
  intros (s0 & Hr & Hu)%undo_cons Hok. eapply IH; [exact Hu|]. by eapply Revert_objs_ok in Hr.
Qed.

(** ** Undoable steps *)

Definition append e s : StateDB :=
  set_journal (sd_entries s ++ [e])
    (match Dirtied e with Some a => bump (sd_dirties s) a | None => sd_dirties s end) s.

(** [s'] is [s] after some operations: the entries they journaled undo them. *)
Definition undoable s s' : Prop := exists new u,
  sd_entries s' = sd_entries s ++ new /\ sd_revisions s' = sd_revisions s /\
  sd_nextRevisionID s' = sd_nextRevisionID s /\
  undo_entries (rev new) s' = (Ok tt, u) /\ sequiv u s.

Lemma undoable_equiv s s' : sequiv s' s -> sd_entries s' = sd_entries s ->
  sd_revisions s' = sd_revisions s -> sd_nextRevisionID s' = sd_nextRevisionID s -> undoable s s'.
Proof. intros Hs He Hr Hn. exists [], s'. by rewrite app_nil_r. Qed.

Lemma undoable_refl s : undoable s s.
Proof. by apply undoable_equiv. Qed.

Lemma undoable_trans s t u : undoable s t -> undoable t u -> undoable s u.
Proof.
  intros (n1 & u1 & He1 & Hr1 & Hn1 & Hu1 & Hs1) (n2 & u2 & He2 & Hr2 & Hn2 & Hu2 & Hs2).
  destruct (undo_proper _ t u2 u1 (symmetry Hs2) Hu1) as (u3 & Hu3 & Hs3).
  exists (n1 ++ n2), u3. split_and!; [by rewrite He2, He1, app_assoc|congruence|congruence| |].
  - rewrite rev_app_distr. by eapply undo_app.
  - etrans; [symmetry; exact Hs3|done].
Qed.

Lemma undirty_bump d a : (forall b n, d !! b = Some n -> 0 < n) ->
  forall e, Dirtied e = Some a -> undirty e (bump d a) = d.
Proof.
  intros Hpos e He. unfold undirty, bump. rewrite He, lookup_insert_eq. simpl.
  destruct (d !! a) as [n|] eqn:Ha; simpl.
  - pose proof (Hpos _ _ Ha). rewrite (proj2 (Z.eqb_neq _ _)) by lia.
    rewrite insert_insert_eq. replace (n + 1 - 1) with n by lia. by apply insert_id.
  - by rewrite delete_insert_id.
Qed.

(** A single entry: [Revert] leads back, dirty counters apart. *)
Lemma undoable_one e s s' u : wf s ->
  sd_entries s' = sd_entries s ++ [e] -> sd_dirties s' = sd_dirties (append e s) ->
  sd_revisions s' = sd_revisions s -> sd_nextRevisionID s' = sd_nextRevisionID s ->
  JournalEntry_Revert e s' = (Ok tt, u) -> sequiv (set_journal (sd_entries u) (sd_dirties s) u) s ->
  undoable s s'.
Proof.
  intros Hw He Hd Hr Hn Hu Hs. exists [e], (undirtied e u). split_and!; [done..| |].
  - apply undo_cons. by exists u.
  - pose proof (Revert_frame _ _ _ Hu) as Hf.
    assert (undirty e (sd_dirties u) = sd_dirties s) as Hud.
    { rewrite (fr_dirties _ _ Hf), Hd. simpl. destruct (Dirtied e) as [a|] eqn:Ha.
      - apply undirty_bump; [|done]. intros b n. apply (wf_dirties _ Hw).
      - unfold undirty. by rewrite Ha. }
    unfold undirtied. by rewrite Hud.
Qed.

Record step_ok s s' : Prop := {
  st_undoable : undoable s s';
  st_wf : wf s';
}.

Lemma step_ok_trans s t u : step_ok s t -> (wf t -> step_ok t u) -> step_ok s u.
Proof. intros [H1 Hw1] H2. destruct (H2 Hw1) as [H2' Hw2]. split; [by eapply undoable_trans|done]. Qed.

Lemma step_ok_refl s : wf s -> step_ok s s.
Proof. intros. split; [apply undoable_refl|done]. Qed.

Lemma step_load a s : wf s -> step_ok s (load a s).
Proof.
  intros Hw. pose proof (objs_ok_load a s (wf_objects _ Hw)) as Hok.
  pose proof (load_frame a s) as [? ? ? ?]. pose proof (load_equiv a s).
  destruct (load_set a s) as (objs & Hl & _). split; [by apply undoable_equiv|].
  rewrite Hl in *. destruct Hw. by constructor.
Qed.

Lemma wf_append e s : wf s -> wf (append e s).
Proof.
  intros []. constructor; try done. intros a n. simpl. destruct (Dirtied e) as [b|]; [|apply wf_dirties0].
  unfold bump. intros [[<- <-]|[_ H]]%lookup_insert_Some; [|by eapply wf_dirties0].
  destruct (sd_dirties s !! b) eqn:Hb; simpl; [|lia]. apply wf_dirties0 in Hb. lia.
Qed.

Lemma wf_put o s : obj_ok (so_address o) o -> wf s -> wf (put o s).
Proof. intros Ho []. constructor; try done. by apply objs_ok_put. Qed.

Lemma load_live a s o : sd_objects s !! a = Some o -> load a s = s.
Proof. intros H. unfold load. by rewrite H. Qed.

Lemma oview_live a s o : sd_objects s !! a = Some o -> oview s a = Some o.
Proof. intros H. unfold oview. by rewrite H. Qed.

(** A journaled change of a live object. *)
Lemma object_change e f f' a o s : wf s -> sd_objects s !! a = Some o -> obj_ok a (f o) ->
  so_address (f' (f o)) = a -> obj_equiv (sd_ctx s) (f' (f o)) o ->
  (forall t o1, oview t a = Some o1 -> JournalEntry_Revert e t = (Ok tt, put (f' o1) (load a t))) ->
  step_ok s (put (f o) (append e s)).
Proof.
  intros Hw Hl Hok Ha' Heq Hrev. pose proof (proj1 Hok) as Ha.
  split; [|apply wf_put; [by rewrite Ha|by apply wf_append]].
  assert (oview (put (f o) (append e s)) a = Some (f o)) as Hv.
  { rewrite oview_put, Ha. by destruct (decide (a = a)). }
  eapply undoable_one; [done..|by rewrite (Hrev _ _ Hv)|].
  rewrite (load_live _ _ (f o)) by (simpl; rewrite Ha; apply lookup_insert_eq).
  rewrite put_put by congruence.
  transitivity (put (f' (f o)) s).
  - by constructor.
  - apply put_same. exists o. split; [|done]. rewrite Ha'. by apply oview_live.
Qed.
End undo.
