(* ===== verification/StateDBOps.v ===== *)
(** * x/vm/statedb: the operations of the EVM, one by one

    For every operation the interpreter or a precompile performs: unless it
    panics, it is undone by the entries it journaled, and it keeps the state
    well-formed ([step_ok]). *)

From Stdlib Require Import ZArith Lia List String Ascii Bool.
From stdpp Require Import base gmap strings list.
From S2P Require Import Prelude GoStrings Sdk AccessList SnapshotStore StateDB StateDBFacts.
Local Open Scope Z_scope.
Local Open Scope go_scope.

Section ops.
Context {K S : Type} {Cr : EthCrypto} {Kp : StateKeeper K} {Sn : Snapshotter S K} {Cc : CacheContext S K}.
Context {HL : HashLaws K} {SL : SnapshotterLaws S K} {BL : BranchLaws S K}.
Abbreviation StateDB := (StateDB K S).
Implicit Types (s t u : StateDB) (o : stateObject) (a : addr) (e : JournalEntry) (k : K).

#[local] Hint Resolve obj_ok_setBalance obj_ok_setNonce obj_ok_setCode obj_ok_setState
  obj_ok_setDestructed obj_ok_setNewContract : statedb.

(** A computation all of whose results that are not panics are [step_ok]. *)
Definition safe {A} (m : M StateDB A) s : Prop :=
  forall r s', m s = (r, s') -> (exists msg, r = Panic msg) \/ step_ok s s'.

Lemma safe_bind {A B} (m : M StateDB A) (f : A -> M StateDB B) s :
  safe m s -> (forall x s1, m s = (Ok x, s1) -> wf s1 -> safe (f x) s1) -> safe (mbind' m f) s.
Proof.
  intros Hm Hf r s' H. unfold mbind' in H. specialize (Hm _ _ (surjective_pairing (m s))).
  destruct (m s) as [r1 s1] eqn:Hms. simpl in Hm. destruct r1 as [x|e|e].
  - destruct Hm as [[e He]|Hm]; [done|]. destruct (Hf x s1 eq_refl (st_wf _ _ Hm) r s' H) as [|H2]; [by left|].
    right. by eapply step_ok_trans.
  - simplify_eq. destruct Hm as [[? ?]|?]; [done|by right].
  - simplify_eq. left. eauto.
Qed.

Lemma safe_ret {A} (x : A) s : wf s -> safe (mret x) s.
Proof. intros Hw r s' [= <- <-]. right. by apply step_ok_refl. Qed.

Lemma safe_const {A} (m : M StateDB A) s : wf s -> (m s).2 = s -> safe m s.
Proof. intros Hw Hc r s' H. rewrite H in Hc. simpl in Hc. subst. right. by apply step_ok_refl. Qed.

Lemma safe_eq {A} (m : M StateDB A) s r s' : m s = (r, s') -> step_ok s s' -> safe m s.
Proof. intros H Hs r1 s1 H1. rewrite H in H1. injection H1 as <- <-. by right. Qed.

Lemma safe_panic {A} msg s : safe (fun s => (@Panic A msg, s)) s.
Proof. intros r s' [= <- <-]. left. eauto. Qed.

(** ** Objects *)

Lemma getState_safe a s : wf s -> safe (getStateObject a) s.
Proof. intros Hw. eapply safe_eq; [apply getStateObject_eq|by apply step_load]. Qed.

Lemma getState_live a s o s1 : wf s -> getStateObject a s = (Ok (Some o), s1) ->
  sd_objects s1 !! a = Some o /\ obj_ok a o.
Proof.
  intros Hw. rewrite getStateObject_eq. intros [= Hv <-]. split; [|by eapply oview_ok].
  revert Hv. unfold oview, load. destruct (sd_objects s !! a) eqn:Ha; [congruence|].
  destruct (kp_GetAccount (sd_ctx s) a); [|done]. simpl. intros [= <-]. apply lookup_insert_eq.
Qed.

Lemma createObject_eq a s : createObject a s =
  (Ok (newObject a zeroAccount), put (newObject a zeroAccount) (append (createObjectChange a) s)).
Proof. done. Qed.

Lemma createObject_ok a s : wf s -> oview s a = None ->
  step_ok s (put (newObject a zeroAccount) (append (createObjectChange a) s)).
Proof.
  intros Hw Hv. assert (obj_ok a (newObject a zeroAccount)) as Ho by by apply newObject_ok.
  split; [|apply wf_put; [done|by apply wf_append]].
  eapply undoable_one; [done..|reflexivity|]. constructor; try done.
  intros b. unfold oview at 1. simpl.
  destruct (decide (b = a)) as [->|Hne].
  - rewrite lookup_delete_eq, Hv. revert Hv. unfold oview. destruct (sd_objects s !! a); [done|].
    by destruct (kp_GetAccount (sd_ctx s) a).
  - rewrite lookup_delete_ne, lookup_insert_ne by done. done.
Qed.

Lemma getOrNew_safe a s : wf s -> safe (getOrNewStateObject a) s.
Proof.
  intros Hw. apply safe_bind; [by apply getState_safe|]. intros [o|] s1 H Hw1; [by apply safe_ret|].
  eapply safe_eq; [apply createObject_eq|]. apply createObject_ok; [done|].
  rewrite getStateObject_eq in H. injection H as Hv <-. destruct (load_set a s) as (objs & -> & Hl).
  by rewrite Hl.
Qed.

Lemma getOrNew_live a s o s1 : wf s -> getOrNewStateObject a s = (Ok o, s1) ->
  sd_objects s1 !! a = Some o /\ obj_ok a o.
Proof.
  intros Hw. unfold getOrNewStateObject, mbind'. destruct (getStateObject a s) as [[[o'|]| |] s0] eqn:Hg; try done.
  - intros [= <- <-]. by eapply getState_live.
  - rewrite createObject_eq. intros [= <- <-]. split; [apply lookup_insert_eq|by apply newObject_ok].
Qed.

(** The setter of an object undone by the previous value. *)
Lemma equiv_setBalance k o b z : ac_Balance (so_account o) = Some b ->
  obj_equiv k (so_setBalance (so_Balance o) (so_setBalance z o)) o.
Proof.
  intros H. unfold so_Balance. rewrite H. simpl. constructor; try done; simpl.
  destruct (so_account o). simpl in *. by rewrite H.
Qed.

Lemma equiv_setNonce k o z : obj_equiv k (so_setNonce (so_Nonce o) (so_setNonce z o)) o.
Proof. constructor; try done. simpl. unfold so_Nonce. by destruct (so_account o). Qed.

Lemma equiv_setState k o key v : obj_equiv k (so_setState key (state_view k o key) (so_setState key v o)) o.
Proof.
  constructor; try done. intros j. unfold state_view at 1. simpl.
  destruct (decide (j = key)) as [->|Hne]; [by rewrite lookup_insert_eq|].
  by rewrite !lookup_insert_ne by done.
Qed.

Lemma equiv_setCode k a o h c : obj_ok a o ->
  obj_equiv k (so_setCode (BytesToHash (so_CodeHash o)) (code_view k o) (so_setCode h c o)) o.
Proof.
  intros (Ha & n & b & h' & l & Hac & Hl). unfold so_CodeHash. rewrite Hac. simpl. rewrite BytesToHash_id by done.
  constructor; try done; simpl; [by rewrite Hac|].
  unfold code_view at 1. simpl. unfold so_CodeHash. simpl.
  unfold code_view, so_CodeHash. rewrite Hac. simpl.
  destruct (so_code o); [done|]. destruct (IsEmptyCodeHash h'); [done|]. by destruct (kp_GetCode k (BytesToHash h')).
Qed.

Lemma append_put e o s : append e (put o s) = put o (append e s).
Proof. done. Qed.

Lemma revert_modify e a f : (forall t, JournalEntry_Revert e t = (let! o <- getObject a; setStateObject (f o)) t) ->
  forall t o1, oview t a = Some o1 -> JournalEntry_Revert e t = (Ok tt, put (f o1) (load a t)).
Proof. intros H t o1 Ho. by rewrite H, modify_eq, Ho. Qed.

Lemma SetBalance_safe a o z s : wf s -> sd_objects s !! a = Some o -> obj_ok a o -> safe (so_SetBalance o z) s.
Proof.
  intros Hw Hl Ho. pose proof (proj1 Ho) as Ha. eapply safe_eq; [reflexivity|].
  change (step_ok s (put (so_setBalance z o) (append (balanceChange (so_address o) (so_Balance o)) s))).
  rewrite Ha. apply (object_change _ _ (so_setBalance (so_Balance o)) a); eauto with statedb.
  - destruct Ho as (_ & n & b & h & l & Hac & _). eapply equiv_setBalance. by rewrite Hac.
  - by apply revert_modify.
Qed.

Lemma AddBalance_safe a o z s : wf s -> sd_objects s !! a = Some o -> obj_ok a o -> safe (so_AddBalance o z) s.
Proof. intros. unfold so_AddBalance. destruct (z =? 0); [by apply safe_ret|by eapply SetBalance_safe]. Qed.

Lemma SubBalance_safe a o z s : wf s -> sd_objects s !! a = Some o -> obj_ok a o -> safe (so_SubBalance o z) s.
Proof.
  intros. unfold so_SubBalance. destruct (z =? 0); [by apply safe_ret|].
  destruct (so_Balance o <? z); [apply safe_panic|by eapply SetBalance_safe].
Qed.

Lemma SetNonce_safe a o z s : wf s -> sd_objects s !! a = Some o -> obj_ok a o -> safe (so_SetNonce o z) s.
Proof.
  intros Hw Hl Ho. pose proof (proj1 Ho) as Ha. eapply safe_eq; [reflexivity|].
  change (step_ok s (put (so_setNonce z o) (append (nonceChange (so_address o) (so_Nonce o)) s))).
  rewrite Ha. apply (object_change _ _ (so_setNonce (so_Nonce o)) a); eauto with statedb.
  - apply equiv_setNonce.
  - by apply revert_modify.
Qed.

(** ** Code and storage, with their caches *)

Lemma cache_ok a o o' s : wf s -> sd_objects s !! a = Some o -> obj_ok a o' ->
  obj_equiv (sd_ctx s) o' o -> step_ok s (put o' s).
Proof.
  intros Hw Hl Ho Heq. pose proof (proj1 Ho) as Ha. split; [|apply wf_put; [by rewrite Ha|done]].
  apply undoable_equiv; [|done..]. apply put_same. exists o. rewrite Ha. split; [by apply oview_live|done].
Qed.

(** A read through the caches: the value seen, and the object it leaves. *)
Definition cached_read {V} (m : M StateDB (V * stateObject)) (v : V) a o s : Prop :=
  exists o' s1, m s = (Ok (v, o'), s1) /\ step_ok s s1 /\ sd_objects s1 !! a = Some o' /\ obj_ok a o' /\
    sd_ctx s1 = sd_ctx s /\ obj_equiv (sd_ctx s) o' o.

Lemma cached_ret {V} (v : V) a o s : wf s -> sd_objects s !! a = Some o -> obj_ok a o ->
  cached_read (mret (v, o)) v a o s.
Proof. intros. exists o, s. split_and!; try done. by apply step_ok_refl. Qed.

Lemma cached_put {V} (v : V) a o o' s : wf s -> sd_objects s !! a = Some o -> obj_ok a o' ->
  obj_equiv (sd_ctx s) o' o -> cached_read (do! setStateObject o'; mret (v, o')) v a o s.
Proof.
  intros Hw Hl Ho Heq. exists o', (put o' s). pose proof (proj1 Ho) as Ha.
  split_and!; try done; [by eapply cache_ok|]. simpl. rewrite Ha. apply lookup_insert_eq.
Qed.

Lemma Code_read a o s : wf s -> sd_objects s !! a = Some o -> obj_ok a o ->
  cached_read (so_Code o) (code_view (sd_ctx s) o) a o s.
Proof.
  intros Hw Hl Ho. unfold so_Code, code_view at 1. destruct (so_code o) as [c|] eqn:Hc; [by apply cached_ret|].
  destruct (IsEmptyCodeHash (so_CodeHash o)) eqn:He; [by apply cached_ret|].
  destruct (cached_put (kp_GetCode (sd_ctx s) (BytesToHash (so_CodeHash o))) a o
    (so_loadCode (kp_GetCode (sd_ctx s) (BytesToHash (so_CodeHash o))) o) s) as (o' & s1 & Hrun & H); try done.
  - constructor; try done. unfold code_view at 1, so_CodeHash. simpl. fold (so_CodeHash o). rewrite He.
    unfold code_view. rewrite Hc, He. by destruct (kp_GetCode _ _).
  - exists o', s1. split; [exact Hrun|exact H].
Qed.

Lemma Committed_read a o key s : wf s -> sd_objects s !! a = Some o -> obj_ok a o ->
  cached_read (so_GetCommittedState o key) (committed_view (sd_ctx s) o key) a o s.
Proof.
  intros Hw Hl Ho. unfold so_GetCommittedState, committed_view at 1.
  destruct (so_overrideStorage o) as [st|] eqn:Hov; [by apply cached_ret|].
  destruct (so_originStorage o !! key) as [v|] eqn:Hor; [by apply cached_ret|]. simpl.
  destruct (cached_put (kp_GetState (sd_ctx s) (so_address o) key) a o
    (so_cacheOrigin key (kp_GetState (sd_ctx s) (so_address o) key) o) s) as (o' & s1 & Hrun & H); try done.
  - assert (forall j, committed_view (sd_ctx s) (so_cacheOrigin key (kp_GetState (sd_ctx s) (so_address o) key) o) j
      = committed_view (sd_ctx s) o j) as Hcm.
    { intros j. unfold committed_view. simpl. rewrite Hov. destruct (decide (j = key)) as [->|Hne].
      - by rewrite lookup_insert_eq, Hor.
      - by rewrite lookup_insert_ne by done. }
    constructor; try done. intros j. unfold state_view. by rewrite Hcm.
  - exists o', s1. split; [exact Hrun|exact H].
Qed.

Lemma State_read a o key s : wf s -> sd_objects s !! a = Some o -> obj_ok a o ->
  cached_read (so_GetState o key) (state_view (sd_ctx s) o key) a o s.
Proof.
  intros Hw Hl Ho. unfold so_GetState, state_view.
  destruct (so_dirtyStorage o !! key); [by apply cached_ret|by apply Committed_read].
Qed.

Lemma cached_safe {V A} (m : M StateDB (V * stateObject)) v a o s (f : V * stateObject -> M StateDB A) :
  cached_read m v a o s ->
  (forall o' s1, wf s1 -> sd_objects s1 !! a = Some o' -> obj_ok a o' -> sd_ctx s1 = sd_ctx s ->
     obj_equiv (sd_ctx s1) o' o -> safe (f (v, o')) s1) ->
  safe (mbind' m f) s.
Proof.
  intros (o' & s1 & Hm & Hs & Hl & Ho & Hc & He) Hf. apply safe_bind; [by eapply safe_eq|].
  intros x s2 H2 Hw. rewrite Hm in H2. injection H2 as <- <-. apply Hf; try done. by rewrite Hc.
Qed.

Lemma SetCode_safe a o h c s : wf s -> sd_objects s !! a = Some o -> obj_ok a o -> String.length h = 32%nat ->
  safe (so_SetCode o h c) s.
Proof.
  intros Hw Hl Ho Hh. eapply cached_safe; [by apply Code_read|].
  intros o' s1 Hw1 Hl1 Ho1 Hc1 He1. pose proof (proj1 Ho1) as Ha. eapply safe_eq; [reflexivity|].
  change (step_ok s1 (put (so_setCode h c o')
    (append (codeChange (so_address o') (code_view (sd_ctx s) o) (so_CodeHash o')) s1))).
  rewrite Ha, <- Hc1, <- (oe_code _ _ _ He1).
  apply (object_change _ _ (so_setCode (BytesToHash (so_CodeHash o')) (code_view (sd_ctx s1) o')) a);
    eauto with statedb.
  - by eapply equiv_setCode.
  - by apply revert_modify.
Qed.

Lemma SetState_safe a o key v s : wf s -> sd_objects s !! a = Some o -> obj_ok a o ->
  safe (so_SetState o key v) s.
Proof.
  intros Hw Hl Ho. eapply cached_safe; [by apply State_read|].
  intros o' s1 Hw1 Hl1 Ho1 Hc1 He1. pose proof (proj1 Ho1) as Ha. cbv beta iota.
  destruct (String.eqb _ v); [by apply safe_ret|]. eapply safe_eq; [reflexivity|].
  change (step_ok s1 (put (so_setState key v o')
    (append (storageChange (so_address o') key (state_view (sd_ctx s) o key)) s1))).
  rewrite Ha, <- Hc1, <- (oe_state _ _ _ He1).
  apply (object_change _ _ (so_setState key (state_view (sd_ctx s1) o' key)) a); eauto with statedb.
  - apply equiv_setState.
  - by apply revert_modify.
Qed.

(** ** The operations *)

Lemma on_object {A} (f : stateObject -> M StateDB A) a s : wf s ->
  (forall o s1, wf s1 -> sd_objects s1 !! a = Some o -> obj_ok a o -> safe (f o) s1) ->
  safe (let! o <- getOrNewStateObject a; f o) s.
Proof.
  intros Hw Hf. apply safe_bind; [by apply getOrNew_safe|]. intros o s1 H Hw1.
  destruct (getOrNew_live a s o s1 Hw H). by apply Hf.
Qed.

Lemma safe_drop {A} (m : M StateDB A) s : safe m s -> safe (do! m; mret tt) s.
Proof. intros H. apply safe_bind; [done|]. intros x s1 _ Hw. by apply safe_ret. Qed.

Lemma SelfDestruct_safe a s : wf s -> (forall o, oview s a = Some o -> so_selfDestructed o = false) ->
  safe (StateDB_SelfDestruct a) s.
Proof.
  intros Hw Hd. apply safe_bind; [by apply getState_safe|]. intros [o|] s1 H Hw1; [|by apply safe_ret].
  destruct (getState_live a s o s1 Hw H) as [Hl Ho]. eapply safe_eq; [reflexivity|].
  change (step_ok s1 (put (so_setDestructed true o) (append (selfDestructChange a) s1))).
  assert (so_selfDestructed o = false) as Hnd.
  { apply Hd. rewrite getStateObject_eq in H. by injection H. }
  apply (object_change _ _ (so_setDestructed false) a); eauto with statedb.
  - apply Ho.
  - by constructor.
  - intros t o1 Ho1. cbn [JournalEntry_Revert]. unfold mbind'. rewrite getStateObject_eq, Ho1. done.
Qed.

Lemma CreateContract_safe a s : wf s -> safe (StateDB_CreateContract a) s.
Proof.
  intros Hw. unfold StateDB_CreateContract. apply safe_bind.
  - intros r s' H. rewrite getObject_eq in H. injection H as <- <-. right. by apply step_load.
  - intros o s1 H Hw1. rewrite getObject_eq in H. destruct (oview s a) as [o'|] eqn:Hv; [|done].
    injection H as <- <-. destruct (getState_live a s o' (load a s) Hw) as [Hl Ho]; [by rewrite getStateObject_eq, Hv|].
    destruct (so_newContract o') eqn:Hn; [by apply safe_ret|]. eapply safe_eq; [reflexivity|].
    pose proof (proj1 Ho) as Ha.
    change (step_ok (load a s) (put (so_setNewContract true o') (append (createContractChange a) (load a s)))).
    apply (object_change _ _ (so_setNewContract false) a); eauto with statedb.
    + by constructor.
    + by apply revert_modify.
Qed.

Lemma CreateAccount_safe a s : wf s -> oview s a = None -> safe (StateDB_CreateAccount a) s.
Proof.
  intros Hw Hv. apply safe_drop. eapply safe_eq; [apply createObject_eq|]. by apply createObject_ok.
Qed.

(** ** Transient storage, logs, refunds and the access list *)

Lemma wf_same s s' : wf s -> sd_objects s' = sd_objects s -> sd_dirties s' = sd_dirties s ->
  al_wf (sd_accessList s') -> sd_cache s' = sd_cache s -> wf s'.
Proof. intros [] Ho Hd Ha Hc. constructor; try rewrite Ho; try rewrite Hd; try rewrite Hc; done. Qed.

(** One entry and one change that its [Revert] takes back. *)
Lemma change_ok e f s u : wf s -> wf (f (append e s)) ->
  (forall t, sd_entries (f t) = sd_entries t /\ sd_dirties (f t) = sd_dirties t /\
     sd_revisions (f t) = sd_revisions t /\ sd_nextRevisionID (f t) = sd_nextRevisionID t) ->
  JournalEntry_Revert e (f (append e s)) = (Ok tt, u) ->
  sequiv (set_journal (sd_entries u) (sd_dirties s) u) s -> step_ok s (f (append e s)).
Proof.
  intros Hw Hw' Hf Hu Hs. destruct (Hf (append e s)) as (He & Hd & Hr & Hn).
  split; [|done]. exact (undoable_one e s _ u Hw He Hd Hr Hn Hu Hs).
Qed.

Lemma SetTransient_safe a key v s : wf s -> safe (StateDB_SetTransientState a key v) s.
Proof.
  intros Hw. unfold StateDB_SetTransientState. apply safe_bind; [by apply safe_const|].
  intros prev s1 [= <- <-] _. destruct (String.eqb _ v); [by apply safe_ret|]. eapply safe_eq; [reflexivity|].
  eapply (change_ok (transientStorageChange a key (ts_Get (sd_transient s) a key))
    (fun t => set_transient (ts_Set (sd_transient t) a key v) t)); try done.
  - eapply wf_same; [apply wf_append, Hw|done..|apply Hw|done].
  - constructor; try done. simpl. intros b j. rewrite !ts_Get_Set. case_bool_decide as Hb; [|done].
    by destruct Hb as [-> ->].
Qed.

Lemma AddLog_safe l s : wf s -> safe (StateDB_AddLog l) s.
Proof.
  intros Hw. eapply safe_eq; [reflexivity|].
  eapply (change_ok addLogChange (fun t => set_logs (sd_logs t ++ [MkLog (lg_Address l) (lg_Topics l) (lg_Data l)
    (sd_TxIndex t) (Z.of_nat (length (sd_logs t)))]) t)); try done.
  - eapply wf_same; [apply wf_append, Hw|done..|apply Hw|done].
  - constructor; try done. simpl. rewrite length_app. simpl. by rewrite Nat.add_sub, take_app_length.
Qed.

Lemma refund_ok x s : wf s -> step_ok s (set_refund x (append (refundChange (sd_refund s)) s)).
Proof.
  intros Hw. eapply (change_ok (refundChange (sd_refund s)) (set_refund x)); try done.
  eapply wf_same; [apply wf_append, Hw|done..|apply Hw|done].
Qed.

Lemma AddRefund_safe gas s : wf s -> safe (StateDB_AddRefund gas) s.
Proof. intros Hw. eapply safe_eq; [reflexivity|]. by apply refund_ok. Qed.

Lemma SubRefund_safe gas s : wf s -> safe (StateDB_SubRefund gas) s.
Proof.
  intros Hw r s'. unfold StateDB_SubRefund, mbind', mreads, journal_append, mmodify. simpl.
  destruct (sd_refund s <? gas); intros [= <- <-]; [left; eauto|right]. by apply refund_ok.
Qed.

Lemma AddAddress_safe a s : wf s -> safe (StateDB_AddAddressToAccessList a) s.
Proof.
  intros Hw. unfold StateDB_AddAddressToAccessList. pose proof (al_AddAddress_wf (sd_accessList s) a (wf_access _ Hw)).
  destruct (al_AddAddress (sd_accessList s) a) as [added al] eqn:Hal. simpl in *. destruct added.
  - eapply safe_eq; [cbv beta; rewrite Hal; reflexivity|].
    eapply (change_ok (accessListAddAccountChange a) (set_accessList al)); try done.
    + eapply wf_same; [apply wf_append, Hw|done..].
    + constructor; try done. simpl. by apply al_AddAddress_undo.
  - assert (al = sd_accessList s) as -> by (revert Hal; unfold al_AddAddress; by repeat case_match; intros; simplify_eq).
    eapply safe_eq; [cbv beta; rewrite Hal; reflexivity|]. assert (set_accessList (sd_accessList s) s = s) as -> by by destruct s.
    by apply step_ok_refl.
Qed.

Lemma slot_ok a slot al t : wf t -> al_wf al -> al_DeleteSlot al a slot = Ok (sd_accessList t) ->
  step_ok t (set_accessList al (append (accessListAddSlotChange a slot) t)).
Proof.
  intros Hw Hal Hdel. eapply (change_ok (accessListAddSlotChange a slot) (set_accessList al)); [done| |done| |].
  - eapply wf_same; [apply wf_append, Hw|done..].
  - simpl. rewrite Hdel. reflexivity.
  - by constructor.
Qed.

(** Two entries, the address first and the slot second, so the slot is undone
    first. *)
Lemma AddSlot_safe a slot s : wf s -> safe (StateDB_AddSlotToAccessList a slot) s.
Proof.
  intros Hw. unfold StateDB_AddSlotToAccessList.
  destruct (al_AddSlot_cases (sd_accessList s) a slot (wf_access _ Hw)) as (ac & sc & al & Hadd & Hwf & _).
  pose proof (al_AddSlot_undo _ _ _ _ _ _ (wf_access _ Hw) Hadd) as Hundo.
  destruct sc; [destruct Hundo as (al1 & Hdel & Hwf1 & Hal1); destruct ac|destruct Hundo as [-> ->]];
    (eapply safe_eq; [cbv beta; rewrite Hadd; reflexivity|]).
  - apply (step_ok_trans _ (set_accessList al1 (append (accessListAddAccountChange a) s))).
    + eapply (change_ok (accessListAddAccountChange a) (set_accessList al1)); [done| |done|reflexivity|].
      * eapply wf_same; [apply wf_append, Hw|done..].
      * by constructor.
    + intros Hwm. exact (slot_ok a slot al _ Hwm Hwf Hdel).
  - subst al1. exact (slot_ok a slot al s Hw Hwf Hdel).
  - assert (set_accessList (sd_accessList s) s = s) as -> by by destruct s. by apply step_ok_refl.
Qed.

(** ** Precompile calls

    Whatever a call writes to the branch after its snapshot, and whatever it
    does to the events and the counters, its one entry takes back. *)
Lemma precompile_ok st evs id st1 fs evs' calls n s : wf s -> cview s = (st, evs) ->
  Snapshot st = Ok (id, st1) ->
  step_ok s (set_processed n (set_precompileCalls calls
    (set_cache (Some (fold_left (fun c f => ss_update f c) fs st1, evs'))
      (append (precompileCallChange id evs (sd_processedEvents s)) s)))).
Proof.
  intros Hw Hc Hsn. assert (ss_ok st) as Hst.
  { revert Hc. unfold cview. destruct (sd_cache s) as [[]|] eqn:Hcs; intros [= <- <-]; [by eapply wf_cache|].
    apply NewBranch_ok. }
  eapply (change_ok (precompileCallChange id evs (sd_processedEvents s)) (fun t => set_processed n
    (set_precompileCalls calls (set_cache (Some (fold_left (fun c f => ss_update f c) fs st1, evs')) t)))); [exact Hw| |by intros t| |].
  - pose proof (wf_append (precompileCallChange id evs (sd_processedEvents s)) s Hw) as [].
    constructor; try done. simpl. intros st' evs0 [= <- <-].
    destruct (ss_Snapshot_ok st Hst) as (id' & st2 & Hsn' & Hok).
    rewrite Hsn in Hsn'. injection Hsn' as <- <-. clear -Hok SL. revert st1 Hok. induction fs as [|f fs IH]; intros st1 Hok; [done|]. by apply IH, ss_ok_update.
  - cbn [JournalEntry_Revert]. unfold StateDB_RevertMultiStore, mbind', mmodify.
    cbn -[fold_left]. rewrite (ss_revert st id st1 fs Hst Hsn). reflexivity.
  - constructor; try done.
Qed.

Lemma GetCacheContext_eq s : StateDB_GetCacheContext s =
  match sd_cache s with
  | Some _ => (Ok tt, s)
  | None => if sd_hasMultiStore s then (Ok tt, set_cache (Some (cview s)) s) else (Err "ctx has no multi store", s)
  end.
Proof.
  unfold StateDB_GetCacheContext, StateDB_cache, cview. destruct (sd_cache s); [done|].
  by destruct (sd_hasMultiStore s).
Qed.
End ops.
