(* ===== verification/EvmCoin.v ===== *)
(** * x/vm/types: the coin of the EVM

    denom.go, denom_config.go and the integer conversions of scaling.go, with
    [Uint256FromBigInt] of utils/utils.go. The coin information is a global of
    the source, stored once when the application is configured; here it is the
    first argument of the definitions that read it, absent before that. *)

From Stdlib Require Import ZArith Lia List String Ascii Bool.
From stdpp Require Import base gmap strings list.
From S2P Require Import Prelude GoStrings Sdk.
Local Open Scope Z_scope.
Local Open Scope go_scope.

(** ** denom.go *)

Definition EighteenDecimals : Z := 18.

Definition Decimals_Validate (d : Z) : outcome unit :=
  if (0 <? d) && (d <=? EighteenDecimals) then Ok tt
  else Err ("received unsupported decimals: " +:+ FormatInt d)%string.

(** The entries of the table; a missing one is the zero [math.Int], whose
    big integer is nil. *)
Definition ConversionFactor (d : Z) : option Z :=
  match d with
  | 1 => Some 100000000000000000
  | 2 => Some 10000000000000000
  | 3 => Some 1000000000000000
  | 4 => Some 100000000000000
  | 5 => Some 10000000000000
  | 6 => Some 1000000000000
  | 7 => Some 100000000000
  | 8 => Some 10000000000
  | 9 => Some 1000000000
  | 10 => Some 100000000
  | 11 => Some 10000000
  | 12 => Some 1000000
  | 13 => Some 100000
  | 14 => Some 10000
  | 15 => Some 1000
  | 16 => Some 100
  | 17 => Some 10
  | 18 => Some 1
  | _ => None
  end.

(** ** denom_config.go *)

Record EvmCoinInfo := MkEvmCoinInfo {
  ci_Denom : string;
  ci_ExtendedDenom : string;
  ci_DisplayDenom : string;
  ci_Decimals : Z;
}.

Definition getCoinInfo (info : option EvmCoinInfo) : outcome EvmCoinInfo :=
  match info with Some i => Ok i | None => Panic "global evmCoinInfo is not set yet!" end.

Definition GetEVMCoinDecimals (info : option EvmCoinInfo) : outcome Z :=
  olet i <- getCoinInfo info; Ok (ci_Decimals i).
Definition GetEVMCoinDenom (info : option EvmCoinInfo) : outcome string :=
  olet i <- getCoinInfo info; Ok (ci_Denom i).
Definition GetEVMCoinExtendedDenom (info : option EvmCoinInfo) : outcome string :=
  olet i <- getCoinInfo info; Ok (ci_ExtendedDenom i).

Section coin.
Context {Ty : SdkTypes}.

Definition validateCoinInfo (i : EvmCoinInfo) : outcome unit :=
  odo owrap "invalid EVM denom" (ValidateDenom (ci_Denom i));
  odo owrap "invalid EVM extended denom" (ValidateDenom (ci_ExtendedDenom i));
  odo owrap "invalid EVM display denom" (ValidateDenom (ci_DisplayDenom i));
  odo owrap "invalid EVM decimals" (Decimals_Validate (ci_Decimals i));
  odo oguard (ci_Decimals i =? EighteenDecimals)
    ("unsupported EVM decimals: " +:+ FormatInt (ci_Decimals i) +:+ " (only 18 is supported)")%string;
  oguard (String.eqb (ci_Denom i) (ci_ExtendedDenom i))
    "EVM denom and extended denom must be the same for 18 decimals".

Definition setCoinInfo (i : EvmCoinInfo) (info : option EvmCoinInfo) : outcome unit * option EvmCoinInfo :=
  match validateCoinInfo i with
  | Ok _ => (Ok tt, Some i)
  | e => (e, info)
  end.
End coin.

(** ** scaling.go *)

Definition nil_factor : string := "invalid memory address or nil pointer dereference".

Definition conversion_factor (info : option EvmCoinInfo) : outcome Z :=
  olet d <- GetEVMCoinDecimals info;
  match ConversionFactor d with Some f => Ok f | None => Panic nil_factor end.

Definition ConvertAmountTo18DecimalsBigInt (info : option EvmCoinInfo) (amt : Z) : outcome Z :=
  olet f <- conversion_factor info; Ok (amt * f).

(** [uint256.Int.Mul] wraps. *)
Definition ConvertAmountTo18Decimals256Int (info : option EvmCoinInfo) (amt : Z) : outcome Z :=
  olet f <- conversion_factor info; Ok ((amt * f) mod two256).

Definition ConvertEvmCoinDenomToExtendedDenom (info : option EvmCoinInfo) (coin : Coin) : outcome Coin :=
  olet d <- GetEVMCoinDenom info;
  if negb (String.eqb (Denom coin) d)
  then Err ("expected coin denom " +:+ d +:+ ", received " +:+ Denom coin)%string
  else olet x <- GetEVMCoinExtendedDenom info; Ok (MkCoin x (Amount coin)).

(** ** utils.go *)

(** [uint256.FromBig] reports an overflow beyond 256 bits. *)
Definition Uint256FromBigInt (i : Z) : outcome Z :=
  if i <? 0 then Err ("trying to convert negative *big.Int (" +:+ FormatInt i +:+ ") to uint256.Int")%string
  else if two256 <=? i then Err ("overflow trying to convert *big.Int (" +:+ FormatInt i +:+ ") to uint256.Int (" +:+
    FormatInt (i mod two256) +:+ ")")%string
  else Ok i.

(** ** Facts *)

Lemma decimals_cases d : 0 < d <= 18 ->
  d = 1 \/ d = 2 \/ d = 3 \/ d = 4 \/ d = 5 \/ d = 6 \/ d = 7 \/ d = 8 \/ d = 9 \/ d = 10 \/
  d = 11 \/ d = 12 \/ d = 13 \/ d = 14 \/ d = 15 \/ d = 16 \/ d = 17 \/ d = 18.
Proof. lia. Qed.

Lemma ConversionFactor_power d f : ConversionFactor d = Some f -> 0 < d <= 18 /\ f = 10 ^ (18 - d).
Proof.
  intros H. assert (0 < d <= 18) as Hd.
  { destruct d as [|p|p]; [done| |done]. do 5 (destruct p as [p|p|]; try done). }
  split; [done|]. pose proof (decimals_cases d Hd) as Hc.
  repeat destruct Hc as [->|Hc]; try (subst d); injection H as <-; reflexivity.
Qed.

Lemma ConversionFactor_total d : Decimals_Validate d = Ok tt <-> exists f, ConversionFactor d = Some f.
Proof.
  unfold Decimals_Validate, EighteenDecimals. split.
  - destruct ((0 <? d) && (d <=? 18)) eqn:Hd; [|done]. intros _. zify_bool.
    pose proof (decimals_cases d) as Hc. specialize (Hc ltac:(lia)).
    repeat destruct Hc as [->|Hc]; try (subst d); eexists; reflexivity.
  - intros [f [Hd _]%ConversionFactor_power]. by rewrite (proj2 (Z.ltb_lt _ _)), (proj2 (Z.leb_le _ _)) by lia.
Qed.

Section configured.
Context {Ty : SdkTypes}.

(** A configured coin has eighteen decimals and one name, so the conversions
    are the identity. *)
Lemma configured_identity i info' amt : setCoinInfo i None = (Ok tt, info') ->
  ConvertAmountTo18DecimalsBigInt info' amt = Ok amt /\
  GetEVMCoinDenom info' = Ok (ci_Denom i) /\ GetEVMCoinExtendedDenom info' = Ok (ci_Denom i).
Proof.
  unfold setCoinInfo. destruct (validateCoinInfo i) as [[]| |] eqn:Hv; try done. intros [= <-].
  unfold validateCoinInfo in Hv.
  repeat (apply obind_Ok in Hv as ([] & ? & Hv)).
  apply oguard_Ok, String.eqb_eq in Hv. repeat match goal with H : oguard _ _ = Ok _ |- _ => apply oguard_Ok in H end.
  assert (ci_Decimals i = 18) as Hd by (by apply Z.eqb_eq).
  unfold ConvertAmountTo18DecimalsBigInt, conversion_factor, GetEVMCoinDecimals, GetEVMCoinDenom,
    GetEVMCoinExtendedDenom. simpl. rewrite Hd, <- Hv. simpl. rewrite Z.mul_1_r. done.
Qed.
End configured.
