(* ===== verification/FeeMarket.v ===== *)
(** * x/feemarket: the base fee

    keeper/{eip1559,abci,params,keeper,msg_server,grpc_query}.go,
    types/{params,utils,genesis,msg}.go and genesis.go. Decimals are
    [cosmossdk.io/math]'s [LegacyDec], an integer scaled by 10^18; a nil one is
    [None]. The stored parameters go through the protobuf codec, the class
    [FmCodec]. Events, telemetry and logging are left out. *)

From Stdlib Require Import ZArith Lia List String Ascii Bool.
From stdpp Require Import base gmap strings list.
From S2P Require Import Prelude GoStrings Sdk EvmCoin.
Local Open Scope Z_scope.
Local Open Scope go_scope.

(** ** [math.LegacyDec] *)

Definition dec_one : Z := 10 ^ 18.
Definition dec_fits (z : Z) : bool := Z.abs z <? 2 ^ 315.

(** Dividing by 10^18 with ties to the even neighbour, on the magnitude. *)
Definition chop_round (z : Z) : Z :=
  let q := Z.abs z / dec_one in
  let r := Z.abs z mod dec_one in
  let m := if (2 * r <? dec_one) || ((2 * r =? dec_one) && Z.even q) then q else q + 1 in
  Z.sgn z * m.

Definition dec_overflow : string := "Int overflow".
Definition dec_div_zero : string := "division by zero".

Class SdkDec := {
  Dec_Add : Z -> Z -> outcome Z;
  Dec_Sub : Z -> Z -> outcome Z;
  Dec_Mul : Z -> Z -> outcome Z;
  Dec_MulInt : Z -> Z -> outcome Z;
  Dec_QuoInt : Z -> Z -> outcome Z;
  Dec_Ceil : Z -> Z;
  Dec_RoundInt : Z -> Z;
  Dec_TruncateInt : Z -> Z;
  Dec_Add_spec a b : Dec_Add a b = if dec_fits (a + b) then Ok (a + b) else Panic dec_overflow;
  Dec_Sub_spec a b : Dec_Sub a b = if dec_fits (a - b) then Ok (a - b) else Panic dec_overflow;
  Dec_Mul_spec a b :
    Dec_Mul a b = if dec_fits (chop_round (a * b)) then Ok (chop_round (a * b)) else Panic dec_overflow;
  Dec_MulInt_spec a i : Dec_MulInt a i = if dec_fits (a * i) then Ok (a * i) else Panic dec_overflow;
  Dec_QuoInt_spec a i : Dec_QuoInt a i = if i =? 0 then Panic dec_div_zero else Ok (Z.quot a i);
  (* the next whole number, and back to an integer *)
  Dec_Ceil_spec a : Dec_Ceil a = - (- a / dec_one) * dec_one;
  Dec_RoundInt_spec a : Dec_RoundInt a = chop_round a;
  Dec_TruncateInt_spec a : Dec_TruncateInt a = Z.quot a dec_one;
}.

Definition NewDecFromInt (i : Z) : Z := i * dec_one.

(** A method of a nil decimal dereferences it. *)
Definition nil_dec : string := "invalid memory address or nil pointer dereference".
Definition dec_get (d : option Z) : outcome Z := match d with Some z => Ok z | None => Panic nil_dec end.

(** ** types/params.go *)

Record FmParams := MkFmParams {
  NoBaseFee : bool;
  BaseFeeChangeDenominator : Z;
  ElasticityMultiplier : Z;
  EnableHeight : Z;
  BaseFee : option Z;
  MinGasPrice : option Z;
  MinGasMultiplier : option Z;
}.

Definition fm_DefaultParams : FmParams :=
  MkFmParams false 8 2 0 (Some (NewDecFromInt 1000000000)) (Some 0) (Some (dec_one / 2)).

Definition validateMinGasPrice (p : option Z) : outcome unit :=
  match p with
  | None => Err "invalid parameter: nil"
  | Some z => oguard (negb (z <? 0)) "value cannot be negative"
  end.

Definition validateMinGasMultiplier (m : option Z) : outcome unit :=
  match m with
  | None => Err "invalid parameter: nil"
  | Some z =>
    odo oguard (negb (z <? 0)) "value cannot be negative";
    oguard (negb (dec_one <? z)) "value cannot be greater than 1"
  end.

Definition FmParams_Validate (p : FmParams) : outcome unit :=
  odo oguard (negb (BaseFeeChangeDenominator p =? 0)) "base fee change denominator cannot be 0";
  olet b <- dec_get (BaseFee p);
  odo oguard (negb (b <? 0)) "initial base fee cannot be negative";
  odo oguard (negb (EnableHeight p <? 0)) "enable height cannot be negative";
  odo oguard (negb (ElasticityMultiplier p =? 0)) "elasticity multiplier cannot be zero";
  odo validateMinGasMultiplier (MinGasMultiplier p);
  validateMinGasPrice (MinGasPrice p).

Definition IsBaseFeeEnabled (p : FmParams) (height : Z) : bool :=
  negb (NoBaseFee p) && (EnableHeight p <=? height).

(** The codec: a nil decimal is written as zero. *)
Definition denil (p : FmParams) : FmParams :=
  MkFmParams (NoBaseFee p) (BaseFeeChangeDenominator p) (ElasticityMultiplier p) (EnableHeight p)
    (Some (default 0 (BaseFee p))) (Some (default 0 (MinGasPrice p))) (Some (default 0 (MinGasMultiplier p))).

Class FmCodec := {
  fm_Marshal : FmParams -> outcome bytes;
  fm_Unmarshal : bytes -> outcome FmParams;
  fm_codec p bz : fm_Marshal p = Ok bz -> fm_Unmarshal bz = Ok (denil p);
  fm_nonempty p bz : fm_Marshal p = Ok bz -> bz <> EmptyString;
}.

Section feemarket.
Context {Dc : SdkDec} {Cd : FmCodec}.

(** ** types/utils.go *)

Definition CalcGasBaseFee (gasUsed gasTarget baseFeeChangeDenom baseFee minUnitGas : Z) (minGasPrice : option Z)
    : outcome Z :=
  if gasUsed =? gasTarget then Ok baseFee
  else if gasTarget =? 0 then Ok 0
  else
    olet num <- Dec_Mul (NewDecFromInt (Z.abs (gasUsed - gasTarget))) baseFee;
    olet num <- Dec_QuoInt num gasTarget;
    olet num <- Dec_QuoInt num baseFeeChangeDenom;
    if gasTarget <? gasUsed then Dec_Add baseFee (Z.max num minUnitGas)
    else
      olet d <- Dec_Sub baseFee num;
      olet m <- dec_get minGasPrice;
      Ok (Z.max d m).

(** ** keeper *)

Definition ParamsKey : bytes := "Params".
Definition KeyPrefixBlockGasWanted : bytes := String (chr 1) EmptyString.

Definition fm_GetParams (kv : KVStore) : outcome FmParams :=
  match kv !! ParamsKey with
  | None => Ok fm_DefaultParams
  | Some bz => match fm_Unmarshal bz with Err e => Panic e | r => r end
  end.

Definition fm_SetParams (p : FmParams) : M KVStore unit :=
  let! bz <- mlift (fm_Marshal p);
  mmodify <[ParamsKey := bz]>.

Definition GetBaseFee (kv : KVStore) : outcome (option Z) :=
  olet p <- fm_GetParams kv;
  if NoBaseFee p then Ok None else Ok (BaseFee p).

Definition with_BaseFee (b : Z) (p : FmParams) : FmParams :=
  MkFmParams (NoBaseFee p) (BaseFeeChangeDenominator p) (ElasticityMultiplier p) (EnableHeight p)
    (Some b) (MinGasPrice p) (MinGasMultiplier p).

(** An error of [SetParams] is dropped. *)
Definition SetBaseFee (b : Z) : M KVStore unit := fun kv =>
  match fm_GetParams kv with
  | Ok p => match fm_SetParams (with_BaseFee b p) kv with
            | (Err _, kv') => (Ok tt, kv')
            | r => r
            end
  | Err e => (Err e, kv)
  | Panic e => (Panic e, kv)
  end.

(** [sdk.BigEndianToUint64] reads zero from an empty slice. *)
Definition GetBlockGasWanted (kv : KVStore) : Z := be_value (kv_get kv KeyPrefixBlockGasWanted).
Definition SetBlockGasWanted (gas : Z) : KVStore -> KVStore := <[KeyPrefixBlockGasWanted := PutUint64 gas]>.

(** ** eip1559.go

    [maxGas] is the block gas limit of the consensus parameters, if there are
    any. A nil result is [None]. *)
Definition gas_limit (maxGas : option Z) : Z :=
  match maxGas with Some g => if -1 <? g then g else MaxUint64 | None => MaxUint64 end.

Definition CalculateBaseFee (info : option EvmCoinInfo) (height : Z) (maxGas : option Z) (kv : KVStore)
    : outcome (option Z) :=
  olet p <- fm_GetParams kv;
  if negb (IsBaseFeeEnabled p height) then Ok None
  else if height =? EnableHeight p then Ok (BaseFee p)
  else
    match BaseFee p with
    | None => Ok None
    | Some parentBaseFee =>
      if ElasticityMultiplier p =? 0 then Panic dec_div_zero else
      let target := gas_limit maxGas / ElasticityMultiplier p in
      if negb (target <=? MaxUint64) then Ok None else
      olet factor <- conversion_factor info;
      olet unit <- Dec_QuoInt dec_one factor;
      olet r <- CalcGasBaseFee (GetBlockGasWanted kv) target (BaseFeeChangeDenominator p) parentBaseFee unit (MinGasPrice p);
      Ok (Some r)
    end.

(** ** abci.go *)

Definition fm_BeginBlock (info : option EvmCoinInfo) (height : Z) (maxGas : option Z) : M KVStore unit :=
  let! baseFee <- mtry (CalculateBaseFee info height maxGas);
  match baseFee with
  | None => mret tt
  | Some b => SetBaseFee b
  end.

(** [hasMeter]: the context has a block gas meter. *)
Definition fm_EndBlock (hasMeter : bool) (gasWanted gasUsed : Z) : M KVStore unit :=
  do! mguard hasMeter "block gas meter is nil when setting block gas wanted";
  do! mguard (negb (MaxInt64 <? gasWanted)) "integer overflow by integer type conversion. Gas wanted > MaxInt64";
  do! mguard (negb (MaxInt64 <? gasUsed)) "integer overflow by integer type conversion. Gas used > MaxInt64";
  let! p <- mtry fm_GetParams;
  let! m <- mlift (dec_get (MinGasMultiplier p));
  let! limited <- mlift (Dec_Mul (NewDecFromInt gasWanted) m);
  mmodify (SetBlockGasWanted (u64 (Dec_TruncateInt (Z.max limited (NewDecFromInt gasUsed))))).

(** ** Messages, genesis and queries *)

Context {Ty : SdkTypes}.

Record FmMsgUpdateParams := MkFmMsgUpdateParams { fm_Authority : string; fm_Params : FmParams }.

Definition FmMsg_ValidateBasic (m : FmMsgUpdateParams) : outcome unit :=
  odo owrap "invalid authority address" (AccAddressFromBech32 (fm_Authority m));
  FmParams_Validate (fm_Params m).

Definition fm_UpdateParams (ctx : Ctx) (authority : string) (m : FmMsgUpdateParams) : M KVStore unit :=
  do! mlift (ValidateAuthority ctx authority (fm_Authority m));
  fm_SetParams (fm_Params m).

Record FmGenesis := MkFmGenesis { fg_Params : FmParams; fg_BlockGas : Z }.

Definition fm_DefaultGenesis : FmGenesis := MkFmGenesis fm_DefaultParams 0.
Definition FmGenesis_Validate (g : FmGenesis) : outcome unit := FmParams_Validate (fg_Params g).

Definition fm_InitGenesis (g : FmGenesis) : M KVStore unit := fun kv =>
  match fm_SetParams (fg_Params g) kv with
  | (Ok _, kv') => (Ok tt, SetBlockGasWanted (fg_BlockGas g) kv')
  | (Err e, kv') => (Panic ("could not set parameters at genesis: " +:+ e)%string, kv')
  | (Panic e, kv') => (Panic e, kv')
  end.

Definition fm_ExportGenesis (kv : KVStore) : outcome FmGenesis :=
  olet p <- fm_GetParams kv; Ok (MkFmGenesis p (GetBlockGasWanted kv)).

Definition fm_BlockGas (kv : KVStore) : outcome Z :=
  let gas := GetBlockGasWanted kv in
  if MaxInt64 <? gas then Err "block gas is higher than MaxInt64" else Ok gas.
End feemarket.
