(* ===== verification/FeeMarketTheorems.v ===== *)
(** * x/feemarket: the theorems on the base fee

    With the concrete decimals and codec the witnesses run on. *)

From Stdlib Require Import ZArith Lia List String Ascii Bool.
From stdpp Require Import base gmap strings list countable.
From S2P Require Import Prelude GoStrings Sdk EvmCoin FeeMarket RefEnv.
Local Open Scope Z_scope.
Local Open Scope go_scope.

(** ** Reference decimals and codec

    Concrete instances of the classes of the fee market, with which its theorems
    are evaluated. The codec writes the parameters as the digits of their
    number under stdpp's [Countable] encoding. *)

#[export, refine] Instance ref_dec : SdkDec := {|
  Dec_Add a b := if dec_fits (a + b) then Ok (a + b) else Panic dec_overflow;
  Dec_Sub a b := if dec_fits (a - b) then Ok (a - b) else Panic dec_overflow;
  Dec_Mul a b := if dec_fits (chop_round (a * b)) then Ok (chop_round (a * b)) else Panic dec_overflow;
  Dec_MulInt a i := if dec_fits (a * i) then Ok (a * i) else Panic dec_overflow;
  Dec_QuoInt a i := if i =? 0 then Panic dec_div_zero else Ok (Z.quot a i);
  Dec_Ceil a := - (- a / dec_one) * dec_one;
  Dec_RoundInt a := chop_round a;
  Dec_TruncateInt a := Z.quot a dec_one;
|}.
Proof. all: done. Defined.

(** ** Digits *)

Fixpoint pos_digits (p : positive) : string :=
  match p with
  | xH => "."
  | xO q => String "0" (pos_digits q)
  | xI q => String "1" (pos_digits q)
  end.

Fixpoint digits_pos (s : string) : option positive :=
  match s with
  | String c t =>
    if Ascii.eqb c "." then (if String.eqb t EmptyString then Some xH else None)
    else if Ascii.eqb c "0" then xO <$> digits_pos t
    else if Ascii.eqb c "1" then xI <$> digits_pos t
    else None
  | EmptyString => None
  end.

Lemma digits_pos_digits p : digits_pos (pos_digits p) = Some p.
Proof. induction p as [p IH|p IH|]; simpl; by rewrite ?IH. Qed.

(** ** The codec *)

Definition params_tuple (p : FmParams) : bool * Z * Z * Z * Z * Z * Z :=
  (NoBaseFee p, BaseFeeChangeDenominator p, ElasticityMultiplier p, EnableHeight p,
   default 0 (BaseFee p), default 0 (MinGasPrice p), default 0 (MinGasMultiplier p)).

Definition tuple_params (t : bool * Z * Z * Z * Z * Z * Z) : FmParams :=
  let '(n, d, e, h, b, m, g) := t in MkFmParams n d e h (Some b) (Some m) (Some g).

#[export, refine] Instance ref_fm_codec : FmCodec := {|
  fm_Marshal p := Ok (pos_digits (encode (params_tuple p)));
  fm_Unmarshal bz := match digits_pos bz ≫= decode with
                     | Some t => Ok (tuple_params t)
                     | None => Err "cannot decode the parameters"
                     end;
|}.
Proof.
  - intros p bz [= <-]. rewrite digits_pos_digits. simpl. by rewrite decode_encode.
  - intros p bz [= <-]. by destruct (encode (params_tuple p)).
Defined.

(** Multiplying by a whole number is exact. *)
Lemma chop_round_exact z : chop_round (z * dec_one) = z.
Proof.
  unfold chop_round. assert (Z.abs (z * dec_one) = Z.abs z * dec_one) as -> by (rewrite Z.abs_mul; done).
  rewrite Z.div_mul, Z.mod_mul by done. simpl. rewrite Z.sgn_mul. change (Z.sgn dec_one) with 1.
  rewrite Z.mul_1_r. destruct z; done || lia.
Qed.

(** A product with a factor between zero and one stays below. *)
Lemma chop_round_bound z m : 0 <= z -> 0 <= m <= dec_one ->
  0 <= chop_round (z * dec_one * m) <= z * dec_one.
Proof.
  intros Hz Hm. replace (z * dec_one * m) with (z * m * dec_one) by lia. rewrite chop_round_exact. nia.
Qed.

Section theorems.
Context {Dc : SdkDec} {Cd : FmCodec}.

(** The change of the base fee, in whole steps of division. *)
Definition base_fee_delta (used target denom b : Z) : Z := Z.abs (used - target) * b / target / denom.

Lemma dec_fits_small z : Z.abs z < 2 ^ 315 -> dec_fits z = true.
Proof. intros H. by apply Z.ltb_lt. Qed.

Lemma delta_bounds used target denom b : 0 <= used < two64 -> 0 < target < two64 -> 0 < denom -> 0 <= b < 2 ^ 200 ->
  0 <= Z.abs (used - target) * b < 2 ^ 264 /\ 0 <= base_fee_delta used target denom b < 2 ^ 264.
Proof.
  intros Hu Ht Hd Hb. unfold two64 in *. assert (0 <= Z.abs (used - target) * b < 2 ^ 264) as Hp.
  { change (2 ^ 264) with (2 ^ 64 * 2 ^ 200). assert (0 <= Z.abs (used - target) < 2 ^ 64) by lia.
    revert Hb H. generalize (2 ^ 64) (2 ^ 200). intros x y Hb H. nia. }
  split; [done|]. unfold base_fee_delta. split; [apply Z.div_pos; [apply Z.div_pos|]; lia|].
  apply Z.le_lt_trans with (Z.abs (used - target) * b / target).
  - apply Z.div_le_upper_bound; [lia|]. assert (0 <= Z.abs (used - target) * b / target) by (apply Z.div_pos; lia). nia.
  - apply Z.le_lt_trans with (Z.abs (used - target) * b); [|lia]. apply Z.div_le_upper_bound; [lia|]. nia.
Qed.

Lemma CalcGasBaseFee_eq used target denom b unit m : 0 <= used < two64 -> 0 < target < two64 -> 0 < denom ->
  0 <= b < 2 ^ 200 -> 0 < unit <= dec_one -> 0 <= m ->
  CalcGasBaseFee used target denom b unit (Some m) =
  Ok (if used =? target then b
      else if target <? used then b + Z.max (base_fee_delta used target denom b) unit
      else Z.max (b - base_fee_delta used target denom b) m).
Proof.
  intros Hu Ht Hd Hb Hun Hm. unfold CalcGasBaseFee. destruct (used =? target); [done|].
  rewrite (proj2 (Z.eqb_neq target 0)) by lia.
  destruct (delta_bounds used target denom b Hu Ht Hd Hb) as [Hp Hdel].
  assert (2 ^ 264 < 2 ^ 315 /\ 2 ^ 200 + 2 ^ 264 < 2 ^ 315 /\ dec_one < 2 ^ 264) as (H1 & H2 & H3) by done.
  rewrite Dec_Mul_spec. unfold NewDecFromInt.
  replace (Z.abs (used - target) * dec_one * b) with (Z.abs (used - target) * b * dec_one) by lia.
  rewrite chop_round_exact, dec_fits_small by lia. simpl.
  rewrite Dec_QuoInt_spec, (proj2 (Z.eqb_neq target 0)) by lia. simpl.
  rewrite Dec_QuoInt_spec, (proj2 (Z.eqb_neq denom 0)) by lia. simpl.
  assert (Z.quot (Z.quot (Z.abs (used - target) * b) target) denom = base_fee_delta used target denom b) as ->.
  { unfold base_fee_delta. rewrite (Z.quot_div_nonneg (Z.abs (used - target) * b) target) by lia.
    apply Z.quot_div_nonneg; [|lia]. apply Z.div_pos; lia. }
  destruct (target <? used).
  - rewrite Dec_Add_spec, dec_fits_small by lia. done.
  - rewrite Dec_Sub_spec, dec_fits_small by lia. done.
Qed.

Lemma unit_of info f : conversion_factor info = Ok f -> 0 < Z.quot dec_one f <= dec_one.
Proof.
  unfold conversion_factor, GetEVMCoinDecimals. destruct info as [i|]; simpl; [|done].
  destruct (ConversionFactor (ci_Decimals i)) as [g|] eqn:Hg; [|done]. intros [= <-].
  apply ConversionFactor_power in Hg as [Hd ->].
  assert (0 < 10 ^ (18 - ci_Decimals i) <= dec_one) as Hp.
  { split; [apply Z.pow_pos_nonneg; lia|]. apply Z.pow_le_mono_r; lia. }
  rewrite Z.quot_div_nonneg by (unfold dec_one in *; lia). split.
  - apply Z.div_str_pos. lia.
  - apply Z.div_le_upper_bound; nia.
Qed.

(** Parameters that passed [Validate], with a base fee far from overflow. *)
Record sane (p : FmParams) (b m g : Z) : Prop := {
  sn_base : BaseFee p = Some b;
  sn_price : MinGasPrice p = Some m;
  sn_mult : MinGasMultiplier p = Some g;
  sn_range : 0 <= b < 2 ^ 200 /\ 0 <= m /\ 0 <= g <= dec_one;
  sn_denom : 0 < BaseFeeChangeDenominator p;
  sn_elastic : 0 < ElasticityMultiplier p;
}.

Lemma gas_limit_range maxGas : (forall g, maxGas = Some g -> g < two64) -> 0 <= gas_limit maxGas < two64.
Proof.
  intros H. unfold gas_limit, MaxUint64. destruct maxGas as [g|]; [|done]. specialize (H g eq_refl).
  destruct (Z.ltb_spec (-1) g); unfold two64 in *; lia.
Qed.

Lemma CalculateBaseFee_eq info f height maxGas kv p b m g : fm_GetParams kv = Ok p -> sane p b m g ->
  NoBaseFee p = false -> EnableHeight p < height -> conversion_factor info = Ok f ->
  (forall x, maxGas = Some x -> x < two64) -> 0 <= GetBlockGasWanted kv < two64 ->
  let target := gas_limit maxGas / ElasticityMultiplier p in 0 < target ->
  CalculateBaseFee info height maxGas kv =
  Ok (Some (if GetBlockGasWanted kv =? target then b
            else if target <? GetBlockGasWanted kv
            then b + Z.max (base_fee_delta (GetBlockGasWanted kv) target (BaseFeeChangeDenominator p) b) (Z.quot dec_one f)
            else Z.max (b - base_fee_delta (GetBlockGasWanted kv) target (BaseFeeChangeDenominator p) b) m)).
Proof.
  intros Hp [Hb Hm Hg (Hrb & Hrm & Hrg) Hd He] Hno Hh Hf Hmax Hused target Ht. unfold CalculateBaseFee. rewrite Hp. simpl.
  unfold IsBaseFeeEnabled. rewrite Hno, (proj2 (Z.leb_le _ _)), (proj2 (Z.eqb_neq height _)) by lia. simpl.
  rewrite Hb, (proj2 (Z.eqb_neq (ElasticityMultiplier p) 0)) by lia.
  pose proof (gas_limit_range maxGas Hmax) as Hlim. fold target.
  assert (target < two64) as Htl.
  { unfold target. apply Z.le_lt_trans with (gas_limit maxGas); [|lia]. apply Z.div_le_upper_bound; [lia|]. nia. }
  rewrite (proj2 (Z.leb_le target MaxUint64)) by (unfold MaxUint64; lia). simpl. rewrite Hf. simpl.
  pose proof (unit_of info f Hf) as Hun. rewrite Dec_QuoInt_spec.
  assert (f <> 0) as Hf0 by (intros ->; rewrite Z.quot_0_r_ext in Hun by done; lia).
  rewrite (proj2 (Z.eqb_neq f 0)) by done. simpl. rewrite Hm, CalcGasBaseFee_eq by (try lia; done). done.
Qed.

(** ** Bounds of the step *)

Lemma delta_increase used target denom b e : 0 <= b -> 0 < target -> 0 < denom -> target < used -> used <= e * target ->
  base_fee_delta used target denom b <= b * (e - 1) / denom.
Proof.
  intros Hb Ht Hd Hlt Hle. unfold base_fee_delta. apply Z.div_le_mono; [lia|].
  apply Z.div_le_upper_bound; [lia|]. rewrite Z.abs_eq by lia. nia.
Qed.

Lemma delta_decrease used target denom b : 0 <= b -> 0 <= used < target -> 0 < denom ->
  0 <= base_fee_delta used target denom b <= b / denom.
Proof.
  intros Hb Ht Hd. unfold base_fee_delta. split; [apply Z.div_pos; [apply Z.div_pos|]; nia|].
  apply Z.div_le_mono; [lia|]. apply Z.div_le_upper_bound; [lia|]. rewrite Z.abs_neq by lia. nia.
Qed.

(** C24: the base fee of a block follows EIP-1559. With validated parameters it
    is computed without a panic; it stays when the parent block met its gas
    target; above the target it rises, by at least the smallest unit and, when
    the parent stayed within [e] targets, by at most the larger of that unit and
    [(e - 1) / denominator] of itself; below the target it falls by at most
    [1 / denominator] of itself and never under the minimum gas price. *)
Theorem base_fee_eip1559 info f height maxGas kv p b m g e : fm_GetParams kv = Ok p -> sane p b m g ->
  NoBaseFee p = false -> EnableHeight p < height -> conversion_factor info = Ok f ->
  (forall x, maxGas = Some x -> x < two64) -> 0 <= GetBlockGasWanted kv < two64 ->
  let target := gas_limit maxGas / ElasticityMultiplier p in
  let used := GetBlockGasWanted kv in
  let unit := Z.quot dec_one f in
  0 < target ->
  exists r, CalculateBaseFee info height maxGas kv = Ok (Some r) /\
    (used = target -> r = b) /\
    (target < used -> b + unit <= r /\
       (used <= e * target -> r <= b + Z.max unit (b * (e - 1) / BaseFeeChangeDenominator p))) /\
    (used < target -> m <= r /\ b - b / BaseFeeChangeDenominator p <= r <= Z.max b m).
Proof.
  intros Hp Hs Hno Hh Hf Hmax Hused target used unit Ht.
  pose proof Hs as [Hb Hm Hg (Hrb & Hrm & Hrg) Hd He].
  eexists. split; [by apply (CalculateBaseFee_eq info f height maxGas kv p b m g)|]. fold target used. split_and!.
  - intros ->. by rewrite Z.eqb_refl.
  - intros Hlt. rewrite (proj2 (Z.eqb_neq _ _)), (proj2 (Z.ltb_lt _ _)) by lia. fold unit. split; [lia|].
    intros Hle. pose proof (delta_increase used target (BaseFeeChangeDenominator p) b e ltac:(lia) Ht Hd Hlt Hle). lia.
  - intros Hlt. rewrite (proj2 (Z.eqb_neq _ _)), (proj2 (Z.ltb_ge _ _)) by lia.
    pose proof (delta_decrease used target (BaseFeeChangeDenominator p) b ltac:(lia) ltac:(lia) Hd). lia.
Qed.

(** ** The block handlers *)

Lemma SetBaseFee_ok b kv p : fm_GetParams kv = Ok p -> (forall q msg, fm_Marshal q <> Panic msg) ->
  exists kv', SetBaseFee b kv = (Ok tt, kv') /\ (forall i, i <> ParamsKey -> kv' !! i = kv !! i) /\
    (fm_GetParams kv' = Ok p \/ fm_GetParams kv' = Ok (denil (with_BaseFee b p))).
Proof.
  intros Hp Hm. unfold SetBaseFee. rewrite Hp. unfold fm_SetParams, mbind', mlift.
  destruct (fm_Marshal (with_BaseFee b p)) as [bz|e|e] eqn:Hbz; [| |by apply Hm in Hbz].
  - simpl. eexists. split; [done|]. split; [intros i Hi; by rewrite lookup_insert_ne|]. right.
    unfold fm_GetParams. rewrite lookup_insert_eq. by rewrite (fm_codec _ _ Hbz).
  - eexists. split; [done|]. split; [done|by left].
Qed.

Lemma Validate_sane p : FmParams_Validate p = Ok tt -> 0 <= BaseFeeChangeDenominator p -> 0 <= ElasticityMultiplier p ->
  (forall b, BaseFee p = Some b -> b < 2 ^ 200) -> exists b m g, sane p b m g.
Proof.
  unfold FmParams_Validate, validateMinGasMultiplier, validateMinGasPrice, oguard, dec_get. intros H Hd He Hb.
  destruct (BaseFee p) as [b|] eqn:Hbf, (MinGasMultiplier p) as [g|] eqn:Hg, (MinGasPrice p) as [m|] eqn:Hm;
    repeat (case_match; simplify_eq/=).
  exists b, m, g. zify_bool. split; try done; try lia. specialize (Hb b eq_refl). lia.
Qed.

(** C25: with validated parameters and a stored base fee below 2^200 (the
    decimals hold 315 bits) the begin-block handler never halts the chain: it
    returns without an error or a panic, whatever gas the parent block used, and
    touches nothing but the parameters. *)
Theorem feemarket_never_halts info f height maxGas kv p : fm_GetParams kv = Ok p -> FmParams_Validate p = Ok tt ->
  0 <= BaseFeeChangeDenominator p -> 0 <= ElasticityMultiplier p -> (forall b, BaseFee p = Some b -> b < 2 ^ 200) ->
  conversion_factor info = Ok f -> (forall x, maxGas = Some x -> x < two64) -> 0 <= GetBlockGasWanted kv < two64 ->
  (forall q msg, fm_Marshal q <> Panic msg) ->
  exists kv', fm_BeginBlock info height maxGas kv = (Ok tt, kv') /\ (forall i, i <> ParamsKey -> kv' !! i = kv !! i).
Proof.
  intros Hp Hv Hdn Hen Hbb Hf Hmax Hused Hm. destruct (Validate_sane p Hv Hdn Hen Hbb) as (b & m & g & Hs). pose proof Hs as [Hb Hmp Hg (Hrb & Hrm & Hrg) Hd He].
  assert (exists r, CalculateBaseFee info height maxGas kv = Ok r) as [r Hr].
  { unfold CalculateBaseFee. rewrite Hp. cbn [obind]. destruct (IsBaseFeeEnabled p height); [|by eexists]. cbn [negb].
    destruct (height =? EnableHeight p); [by eexists|]. rewrite Hb, (proj2 (Z.eqb_neq (ElasticityMultiplier p) 0)) by lia.
    destruct (negb _); [by eexists|]. rewrite Hf. cbn [obind]. pose proof (unit_of info f Hf) as Hun.
    assert (f <> 0) as Hf0 by (intros ->; rewrite Z.quot_0_r_ext in Hun by done; lia).
    rewrite Dec_QuoInt_spec, (proj2 (Z.eqb_neq f 0)) by done. cbn [obind]. rewrite Hmp.
    pose proof (gas_limit_range maxGas Hmax) as Hlim.
    assert (0 <= gas_limit maxGas / ElasticityMultiplier p < two64) as Ht.
    { split; [apply Z.div_pos; lia|]. apply Z.le_lt_trans with (gas_limit maxGas); [|lia].
      apply Z.div_le_upper_bound; [lia|]. nia. }
    destruct (Z.eq_dec (gas_limit maxGas / ElasticityMultiplier p) 0) as [->|Hnz].
    - unfold CalcGasBaseFee. destruct (_ =? 0); by eexists.
    - rewrite CalcGasBaseFee_eq by (try lia; done). by eexists. }
  unfold fm_BeginBlock, mbind', mtry. rewrite Hr. destruct r as [r|]; [|by exists kv].
  destruct (SetBaseFee_ok r kv p Hp Hm) as (kv' & Hset & Hk & _). by exists kv'.
Qed.

(** The gas recorded for the next block lies between the gas used and the gas
    wanted. *)
Lemma EndBlock_bounds hasMeter wanted used kv kv' p b m g : fm_GetParams kv = Ok p -> sane p b m g ->
  0 <= wanted -> 0 <= used -> fm_EndBlock hasMeter wanted used kv = (Ok tt, kv') ->
  used <= GetBlockGasWanted kv' <= Z.max wanted used.
Proof.
  intros Hp [_ _ Hg (_ & _ & Hrg) _ _] Hw Hu. unfold fm_EndBlock, mbind', mguard, mlift, mtry, oguard.
  destruct hasMeter; [|done]. destruct (Z.ltb_spec MaxInt64 wanted) as [|Hwm]; [done|].
  destruct (Z.ltb_spec MaxInt64 used) as [|Hum]; [done|]. simpl. rewrite Hp, Hg. simpl. rewrite Dec_Mul_spec.
  destruct (dec_fits _); [|done]. intros [= <-]. unfold GetBlockGasWanted, SetBlockGasWanted, kv_get.
  rewrite lookup_insert_eq. simpl. rewrite Uint64_PutUint64. rewrite Dec_TruncateInt_spec.
  pose proof (chop_round_bound wanted g Hw Hrg) as Hc. unfold NewDecFromInt in *.
  set (lim := chop_round (wanted * dec_one * g)) in *. assert (0 < dec_one) as H1 by done.
  rewrite Z.quot_div_nonneg by nia.
  assert (used <= Z.max lim (used * dec_one) / dec_one <= Z.max wanted used) as Hq.
  { split; [apply Z.div_le_lower_bound; lia|]. apply Z.div_le_upper_bound; [done|]. nia. }
  assert (0 <= Z.max lim (used * dec_one) / dec_one < two64) as Hr by (unfold MaxInt64, two64 in *; lia).
  by rewrite !(u64_small _ Hr).
Qed.
End theorems.

(** ** Evaluations *)

(** The default parameters stored, a parent block of 40 million gas against a
    limit of 60 million: above the target of 30 million. *)
Definition ex_coin : option EvmCoinInfo := Some (MkEvmCoinInfo "axtc" "axtc" "XTC" 18).
Definition ex_kv : KVStore := SetBlockGasWanted 40000000 (fm_SetParams fm_DefaultParams ∅).2.

Lemma ex_kv_gas : GetBlockGasWanted ex_kv = 40000000.
Proof. by vm_compute. Qed.

Lemma ex_kv_params : fm_GetParams ex_kv = Ok fm_DefaultParams.
Proof. by vm_compute. Qed.

Lemma base_fee_eip1559_witness : exists r,
  CalculateBaseFee ex_coin 5 (Some 60000000) ex_kv = Ok (Some r) /\ NewDecFromInt 1000000000 < r.
Proof.
  destruct (base_fee_eip1559 ex_coin 1 5 (Some 60000000) ex_kv fm_DefaultParams (NewDecFromInt 1000000000) 0
    (dec_one / 2) 2) as (r & Hr & _ & Hup & _).
  - exact ex_kv_params.
  - split; [reflexivity..| |reflexivity|reflexivity]. by vm_compute.
  - done.
  - done.
  - by vm_compute.
  - intros x [= <-]. done.
  - by rewrite ex_kv_gas.
  - by vm_compute.
  - exists r. split; [exact Hr|]. rewrite ex_kv_gas in Hup. destruct (Hup ltac:(by vm_compute)) as [Hle _].
    change (Z.quot dec_one 1) with dec_one in Hle. unfold NewDecFromInt, dec_one in *. lia.
Defined.

Lemma feemarket_never_halts_witness : exists kv',
  fm_BeginBlock ex_coin 5 (Some 60000000) ex_kv = (Ok tt, kv') /\
  kv' !! KeyPrefixBlockGasWanted = ex_kv !! KeyPrefixBlockGasWanted.
Proof.
  destruct (feemarket_never_halts ex_coin 1 5 (Some 60000000) ex_kv fm_DefaultParams) as (kv' & Hr & Hk).
  - exact ex_kv_params.
  - by vm_compute.
  - done.
  - done.
  - intros b [= <-]. done.
  - by vm_compute.
  - intros x [= <-]. done.
  - by rewrite ex_kv_gas.
  - done.
  - exists kv'. split; [exact Hr|]. by apply Hk.
Defined.
