(* ===== verification/Precompile.v ===== *)
(** * precompiles/common: running a stateful precompile

    precompile.go, balance_handler.go, utils.go and revert.go. A stateful
    precompile works on the cache context of the state database: the stores are
    snapshotted, the call is journaled, the dirty objects are flushed to the
    branch, the native action runs on it, and the bank events it emitted are
    mirrored as balance changes of the state database.

    The native action is an argument: what it does to the branch, the events it
    emits, the logs it adds, the gas it consumes and how it ends. Bech32, the
    parser of coins, the ABI and the list of blocked addresses are libraries. *)

From Stdlib Require Import ZArith Lia List String Ascii Bool.
From stdpp Require Import base gmap strings list.
From S2P Require Import Prelude GoStrings Sdk EvmCoin AccessList SnapshotStore StateDB.
Local Open Scope Z_scope.
Local Open Scope go_scope.

(** [sdk.ParseCoinsNormalized] and [sdk.Coins.AmountOf], the bank's list of
    blocked addresses, and the ABI encoding of a string. *)
Class PrecompileLibs := {
  ParseCoinsNormalized : string -> outcome (list Coin);
  AmountOf : list Coin -> string -> Z;
  BlockedAddr : addr -> bool;
  abi_pack_string : string -> outcome bytes;
}.

(** ** RequiredGas *)

Record GasConfig := MkGasConfig {
  ReadCostFlat : Z;
  ReadCostPerByte : Z;
  WriteCostFlat : Z;
  WriteCostPerByte : Z;
}.

(** All in [uint64]. *)
Definition RequiredGas (c : GasConfig) (input : bytes) (isTransaction : bool) : Z :=
  if isTransaction then u64 (WriteCostFlat c + u64 (WriteCostPerByte c * len input))
  else u64 (ReadCostFlat c + u64 (ReadCostPerByte c * len input)).

(** ** SetupABI *)

Inductive FunctionType := Constructor | Fallback | Receive | Function.

(** What is used of [abi.ABI]: its methods, and the decoding of arguments. *)
Record ABI (Args : Type) := MkABI {
  Method : Type;
  m_Type : Method -> FunctionType;
  HasReceive : bool;
  HasFallback : bool;
  abi_Receive : Method;
  abi_Fallback : Method;
  MethodById : bytes -> outcome Method;
  Unpack : Method -> bytes -> outcome Args;
}.
Arguments Method {Args}.
Arguments m_Type {Args}.
Arguments HasReceive {Args}.
Arguments HasFallback {Args}.
Arguments abi_Receive {Args}.
Arguments abi_Fallback {Args}.
Arguments MethodById {Args}.
Arguments Unpack {Args}.

Definition ErrExecutionReverted : string := "execution reverted".
Definition ErrWriteProtection : string := "write protection".
Definition ErrOutOfGas : string := "out of gas".

Section setup.
Context {Args : Type} (api : ABI Args).

Definition emptyCallData (value : Z) : outcome (Method api) :=
  if (0 <? value) && HasReceive api then Ok (abi_Receive api)
  else if HasFallback api then Ok (abi_Fallback api)
  else Err ErrExecutionReverted.

Definition methodIDCallData : outcome (Method api) :=
  if negb (HasFallback api) then Err ErrExecutionReverted else Ok (abi_Fallback api).

Definition standardCallData (input : bytes) : outcome (Method api) :=
  match MethodById api (String.substring 0 4 input) with
  | Ok m => Ok m
  | Err e => if HasFallback api then Ok (abi_Fallback api) else Err e
  | Panic e => Panic e
  end.

(** A function call without arguments leaves them nil; [contract.Input[4:]]
    panics on a shorter input. *)
Definition SetupABI (input : bytes) (value : Z) (readOnly : bool) (isTransaction : Method api -> bool)
    : outcome (Method api * option Args) :=
  olet m <- (if len input =? 0 then emptyCallData value
             else if len input <? 4 then methodIDCallData
             else standardCallData input);
  odo oguard (negb (readOnly && isTransaction m)) ErrWriteProtection;
  match m_Type api m with
  | Function =>
    if len input <? 4 then Panic "slice bounds out of range"
    else olet args <- Unpack api m (String.substring 4 (String.length input - 4) input); Ok (m, Some args)
  | _ => Ok (m, None)
  end.
End setup.

(** ** utils.go *)

(** [common.BytesToAddress]: the last twenty bytes, padded on the left. *)
Definition BytesToAddress (b : bytes) : addr :=
  let n := String.length b in
  if (20 <=? n)%nat then String.substring (n - 20) 20 b
  else (of_list (repeat (chr 0) (20 - n)) +:+ b)%string.

Lemma BytesToAddress_id (b : bytes) : String.length b = 20%nat -> BytesToAddress b = b.
Proof. intros Hl. unfold BytesToAddress. rewrite Hl. simpl. rewrite <- Hl. apply substring_all. Qed.

Lemma substring_length n m s : (n + m <= String.length s)%nat -> String.length (String.substring n m s) = m.
Proof.
  revert n m. induction s as [|c s IH]; intros [|n] [|m]; cbn; intros; try lia; [by rewrite IH by lia|by apply IH; lia|apply IH; lia].
Qed.

Lemma BytesToAddress_length b : String.length (BytesToAddress b) = 20%nat.
Proof.
  unfold BytesToAddress. destruct (Nat.leb_spec 20 (String.length b)).
  - rewrite substring_length by lia. done.
  - rewrite string_app_length, <- (to_list_length (of_list _)), to_of_list, repeat_length. lia.
Qed.

Definition quote (s : string) : string := (String (chr 34) s +:+ String (chr 34) EmptyString)%string.

(** [event.GetAttribute]: the first attribute of the name. *)
Definition GetAttribute (ev : SdkEvent) (key : string) : option string :=
  snd <$> List.find (fun p => String.eqb (fst p) key) (se_attrs ev).

Definition EventTypeCoinSpent : string := "coin_spent".
Definition EventTypeCoinReceived : string := "coin_received".
Definition AttributeKeySpender : string := "spender".
Definition AttributeKeyReceiver : string := "receiver".
Definition AttributeKeyAmount : string := "amount".

Section run.
Context {Cr : EthCrypto} {Ty : SdkTypes} {Pl : PrecompileLibs} (info : option EvmCoinInfo).

Definition ParseAddress (ev : SdkEvent) (key : string) : outcome addr :=
  match GetAttribute ev key with
  | None => Err ("event " +:+ quote (se_type ev) +:+ " missing attribute " +:+ quote key)%string
  | Some v => owrap ("invalid address " +:+ quote v)%string (AccAddressFromBech32 v)
  end.

Definition ParseAmount (ev : SdkEvent) : outcome Z :=
  match GetAttribute ev AttributeKeyAmount with
  | None => Err ("event " +:+ quote EventTypeCoinSpent +:+ " missing attribute " +:+ quote AttributeKeyAmount)%string
  | Some v =>
    olet coins <- owrap ("failed to parse coins from " +:+ quote v)%string (ParseCoinsNormalized v);
    olet d <- GetEVMCoinDenom info;
    olet x <- GetEVMCoinExtendedDenom info;
    olet amt <- (if 0 <? AmountOf coins d then ConvertAmountTo18DecimalsBigInt info (AmountOf coins d)
                 else Ok (AmountOf coins x));
    owrap "failed to convert coin amount to Uint256" (Uint256FromBigInt amt)
  end.

(** ** balance_handler.go *)

Context {K S : Type} {Kp : StateKeeper K} {Sn : Snapshotter S K} {Cc : CacheContext S K}.
Abbreviation StateDB := (StateDB K S).
Abbreviation MS := (M StateDB).

Definition cache_events (s : StateDB) : list SdkEvent :=
  match sd_cache s with Some (_, evs) => evs | None => [] end.

Definition handle_spent (ev : SdkEvent) : MS unit :=
  let! a <- mlift (owrap ("failed to parse spender address from event " +:+ quote EventTypeCoinSpent)%string
                     (ParseAddress ev AttributeKeySpender));
  if BlockedAddr a then mret tt else
  let! amount <- mlift (owrap ("failed to parse amount from event " +:+ quote EventTypeCoinSpent)%string
                          (ParseAmount ev));
  do! StateDB_SubBalance (BytesToAddress a) amount; mret tt.

Definition handle_received (ev : SdkEvent) : MS unit :=
  let! a <- mlift (owrap ("failed to parse receiver address from event " +:+ quote EventTypeCoinReceived)%string
                     (ParseAddress ev AttributeKeyReceiver));
  if BlockedAddr a then mret tt else
  let! amount <- mlift (owrap ("failed to parse amount from event " +:+ quote EventTypeCoinReceived)%string
                          (ParseAmount ev));
  do! StateDB_AddBalance (BytesToAddress a) amount; mret tt.

Definition handle_event (idx : Z) (ev : SdkEvent) : MS unit :=
  let! processed <- StateDB_IsEventProcessed idx;
  if processed : bool then mret tt
  else if String.eqb (se_type ev) EventTypeCoinSpent then handle_spent ev
  else if String.eqb (se_type ev) EventTypeCoinReceived then handle_received ev
  else mret tt.

Fixpoint handle_events (idx : Z) (l : list SdkEvent) : MS unit :=
  match l with
  | [] => mret tt
  | ev :: l' => do! handle_event idx ev; handle_events (idx + 1) l'
  end.

Definition AfterBalanceChange (prevEventsLen : nat) : MS unit := fun s =>
  handle_events (Z.of_nat prevEventsLen) (drop prevEventsLen (cache_events s)) s.

(** ** Running the action *)

(** [NativeErr true] is an error that wraps [vm.ErrOutOfGas], [NativeOutOfGas]
    the panic of the gas meter. *)
Inductive NativeResult :=
| NativeOk (bz : bytes)
| NativeErr (outOfGas : bool) (msg : string)
| NativeOutOfGas
| NativePanic (msg : string).

(** What an action did with the context it was given. *)
Record NativeEffect := MkNativeEffect {
  ne_store : K;
  ne_events : list SdkEvent;
  ne_logs : list Log;
  ne_gas : Z;
  ne_result : NativeResult;
}.

(** The context: the branch, the events so far and the gas that is left. An
    action works on the context: one that calls the EVM again on the same state
    database is outside this type, and the handler is stated for every state
    such a call could leave. *)
Definition NativeAction : Type := K -> list SdkEvent -> Z -> NativeEffect.

Inductive CallResult := CallOk (bz : bytes) | CallErr (msg : string) | CallOutOfGas.

(** An error returned by a step ends the call with the gas as it is. *)
Definition or_err {A} (gas : Z) (m : MS A) (f : A -> MS (CallResult * Z)) : MS (CallResult * Z) := fun s =>
  match m s with
  | (Ok a, s') => f a s'
  | (Err e, s') => (Ok (CallErr e, gas), s')
  | (Panic e, s') => (Panic e, s')
  end.

(** [contract.UseGas] *)
Definition UseGas (gas amount : Z) : option Z := if gas <? amount then None else Some (gas - amount).

(** The effects of the action on the branch, the events and the logs. *)
Definition apply_native (eff : NativeEffect) : MS unit :=
  do! mmodify (fun s => match sd_cache s with
                        | Some (st, evs) =>
                          set_cache (Some (ss_update (fun _ => ne_store eff) st, evs ++ ne_events eff)) s
                        | None => s
                        end);
  add_logs (ne_logs eff).

Definition native_view (s : StateDB) : K :=
  match sd_cache s with Some (st, _) => ss_view st | None => sd_ctx s end.

(** The part of [runNativeAction] after the flush. [hasHandler]: the precompile
    was built with a balance handler factory; [initialGas] is what the context's
    meter had consumed. *)
Definition nativeBody (hasHandler : bool) (action : NativeAction) (gas initialGas : Z)
    : MS (CallResult * Z) :=
  if gas <? initialGas then mret (CallOutOfGas, gas) else
  let! prevEventsLen <- mreads (fun s => length (cache_events s));
  let! eff <- mreads (fun s => action (native_view s) (cache_events s) (gas - initialGas));
  do! apply_native eff;
  match ne_result eff with
  | NativePanic msg => fun s => (Panic msg, s)
  | NativeOutOfGas => mret (CallOutOfGas, default gas (UseGas gas (ne_gas eff)))
  | NativeErr outOfGas msg => mret (if outOfGas then CallOutOfGas else CallErr msg, gas)
  | NativeOk bz =>
    match UseGas gas (ne_gas eff) with
    | None => mret (CallOutOfGas, gas)
    | Some gas' =>
      if hasHandler
      then or_err gas' (AfterBalanceChange prevEventsLen) (fun _ => mret (CallOk bz, gas'))
      else mret (CallOk bz, gas')
    end
  end.

Definition runNativeAction (hasHandler : bool) (action : NativeAction) (gas initialGas : Z)
    : MS (CallResult * Z) :=
  or_err gas StateDB_GetCacheContext (fun _ =>
  or_err gas StateDB_MultiStoreSnapshot (fun snapshot =>
  or_err gas (StateDB_AddPrecompileFn snapshot) (fun _ =>
  or_err gas StateDB_FlushToCacheCtx (fun _ =>
  nativeBody hasHandler action gas initialGas)))).

(** ** revert.go *)

(** [crypto.Keccak256] of the signature, its first four bytes. *)
Definition RevertSelector : bytes := String.substring 0 4 (Keccak256Hash ["Error(string)"%string]).

Definition RevertReasonBytes (reason : string) : outcome bytes :=
  olet packed <- abi_pack_string reason; Ok (RevertSelector +:+ packed)%string.

(** The returned bytes and error, with the return data set on the machine. *)
Definition ReturnRevertError (msg : string) : option bytes * string :=
  match RevertReasonBytes msg with
  | Ok bz => (Some bz, ErrExecutionReverted)
  | _ => (None, ErrExecutionReverted)
  end.

(** [RunNativeAction]: the bytes returned, and the error if there is one. *)
Definition RunNativeAction (hasHandler : bool) (action : NativeAction) (gas initialGas : Z)
    : MS (option bytes * option string * Z) :=
  let! (r, gas') <- runNativeAction hasHandler action gas initialGas;
  mret (match r with
        | CallOk bz => (Some bz, None, gas')
        | CallOutOfGas => (None, Some ErrOutOfGas, gas')
        | CallErr msg => let '(bz, e) := ReturnRevertError msg in (bz, Some e, gas')
        end).
End run.
