(* ===== verification/StateDBRevert.v ===== *)
(** * x/vm/statedb: reverting to a snapshot restores the state

    Any sequence of operations of the interpreter and of precompile calls, with
    snapshots and reverts nested at will, can be undone: reverting to a snapshot
    that is still valid leads to a state no reader can tell from the one the
    snapshot was taken of. The calls of precompiles come first. *)

From Stdlib Require Import ZArith Lia List String Ascii Bool Sorted.
From stdpp Require Import base gmap strings list.
From S2P Require Import Prelude GoStrings Sdk EvmCoin AccessList SnapshotStore StateDB StateDBFacts StateDBOps Precompile.
Local Open Scope Z_scope.
Local Open Scope go_scope.

(** ** precompiles/common: a call is undone by its journal entries *)

Section facts.
Context {Cr : EthCrypto} {Ty : SdkTypes} {Pl : PrecompileLibs} (info : option EvmCoinInfo).
Context {K S : Type} {Kp : StateKeeper K} {Sn : Snapshotter S K} {Cc : CacheContext S K}.
Context {HL : HashLaws K} {SL : SnapshotterLaws S K} {BL : BranchLaws S K}.
Abbreviation StateDB := (StateDB K S).
Implicit Types (s t u : StateDB) (o : stateObject) (a : addr) (k : K).

Lemma safe_after {A} (m m' : M StateDB A) s t : m s = m' t -> step_ok s t -> safe m' t -> safe m s.
Proof.
  intros Heq Hs Hm r s' H. rewrite Heq in H. destruct (Hm r s' H) as [|H2]; [by left|].
  right. by eapply step_ok_trans.
Qed.

Lemma safe_lift {A} (m : outcome A) s : wf s -> safe (mlift m) s.
Proof. intros Hw. by apply safe_const. Qed.

Lemma StateDB_AddBalance_safe a z s : wf s -> safe (StateDB_AddBalance a z) s.
Proof. intros Hw. apply on_object; [done|]. intros. by eapply AddBalance_safe. Qed.

Lemma StateDB_SubBalance_safe a z s : wf s -> safe (StateDB_SubBalance a z) s.
Proof.
  intros Hw. apply on_object; [done|]. intros. destruct (z =? 0); [by apply safe_ret|]. by eapply SubBalance_safe.
Qed.

Lemma handle_event_safe idx ev s : wf s -> safe (handle_event info idx ev) s.
Proof.
  intros Hw. apply safe_bind; [by apply safe_const|]. intros b s1 _ Hw1.
  destruct b; [by apply safe_ret|].
  destruct (String.eqb _ EventTypeCoinSpent); [|destruct (String.eqb _ EventTypeCoinReceived); [|by apply safe_ret]];
    (apply safe_bind; [by apply safe_lift|]; intros a s2 _ Hw2; destruct (BlockedAddr a); [by apply safe_ret|];
     apply safe_bind; [by apply safe_lift|]; intros z s3 _ Hw3; apply safe_drop).
  - by apply StateDB_SubBalance_safe.
  - by apply StateDB_AddBalance_safe.
Qed.

Lemma handle_events_safe l idx s : wf s -> safe (handle_events info idx l) s.
Proof.
  revert idx s. induction l as [|ev l IH]; intros idx s Hw; [by apply safe_ret|].
  apply safe_bind; [by apply handle_event_safe|]. intros _ s1 _ Hw1. by apply IH.
Qed.

Lemma add_logs_safe l s : wf s -> safe (add_logs l) s.
Proof.
  revert s. induction l as [|x l IH]; intros s Hw; [by apply safe_ret|].
  apply safe_bind; [by apply AddLog_safe|]. intros _ s1 _ Hw1. by apply IH.
Qed.

Lemma or_err_safe {A} gas (m : M StateDB A) f s : safe m s ->
  (forall x s1, m s = (Ok x, s1) -> wf s1 -> safe (f x) s1) -> safe (or_err gas m f) s.
Proof.
  intros Hm Hf r s' H. unfold or_err in H. destruct (m s) as [r1 s1] eqn:Hms.
  destruct (Hm _ _ Hms) as [[e ->]|Hs]; [simplify_eq; left; eauto|].
  destruct r1 as [x|e|e]; simplify_eq; [|by right|left; eauto].
  destruct (Hf x s1 eq_refl (st_wf _ _ Hs) r s' H) as [|H2]; [by left|]. right. by eapply step_ok_trans.
Qed.

(** ** The state during a call: one entry, and a branch written to *)

Definition in_call id evs0 st1 c n fs evs s : StateDB :=
  set_processed n (set_precompileCalls c
    (set_cache (Some (fold_left (fun b f => ss_update f b) fs st1, evs))
      (append (precompileCallChange id evs0 (sd_processedEvents s)) s))).

Lemma in_call_ok st evs0 id st1 c n fs evs s : wf s -> cview s = (st, evs0) -> Snapshot st = Ok (id, st1) ->
  step_ok s (in_call id evs0 st1 c n fs evs s).
Proof. intros Hw Hc Hsn. by eapply precompile_ok. Qed.

Lemma GetCacheContext_cases s :
  StateDB_GetCacheContext s = (Err "ctx has no multi store", s) \/
  StateDB_GetCacheContext s = (Ok tt, set_cache (Some (cview s)) s).
Proof.
  rewrite GetCacheContext_eq. destruct (sd_cache s) as [[st evs]|] eqn:Hc.
  - right. unfold cview. rewrite Hc, <- Hc. by destruct s.
  - destruct (sd_hasMultiStore s); [by right|by left].
Qed.

Lemma cview_ok s st evs : wf s -> cview s = (st, evs) -> ss_ok st.
Proof.
  intros Hw. unfold cview. destruct (sd_cache s) as [[]|] eqn:Hcs; intros [= <- <-]; [by eapply wf_cache|].
  apply NewBranch_ok.
Qed.

(** The action and the balance handler, from a state of the call. *)
Lemma nativeBody_safe hasHandler action gas initialGas st evs0 id st1 c n fs evs s :
  wf s -> cview s = (st, evs0) -> Snapshot st = Ok (id, st1) ->
  forall r s', nativeBody info hasHandler action gas initialGas (in_call id evs0 st1 c n fs evs s) = (r, s') ->
  (exists msg, r = Panic msg) \/ step_ok s s'.
Proof.
  intros Hw Hc Hsn. set (t := in_call id evs0 st1 c n fs evs s).
  assert (step_ok s t) as Ht by by eapply in_call_ok. unfold nativeBody.
  destruct (gas <? initialGas); [intros r s' H; right; change (step_ok s (r, s').2); by rewrite <- H|].
  unfold mbind' at 1 2, mreads. cbv beta iota zeta.
  set (eff := action (native_view t) (cache_events t) (gas - initialGas)).
  set (t2 := in_call id evs0 st1 c n (fs ++ [fun _ => ne_store eff]) (evs ++ ne_events eff) s).
  assert (step_ok s t2) as Ht2 by by eapply in_call_ok.
  match goal with |- forall r s', mbind' _ ?k _ = _ -> _ => set (kont := k) end.
  assert (mbind' (apply_native eff) kont t = mbind' (add_logs (ne_logs eff)) kont t2) as ->.
  { unfold apply_native, mbind', mmodify at 1. unfold t2, t, in_call. cbn -[fold_left].
    by rewrite fold_left_app. }
  cut (safe (mbind' (add_logs (ne_logs eff)) kont) t2).
  { intros Hs r s' H. destruct (Hs r s' H) as [|H2]; [by left|]. right. by eapply step_ok_trans. }
  apply safe_bind; [apply add_logs_safe, Ht2|]. intros [] s1 _ Hw1. unfold kont.
  destruct (ne_result eff) as [bz|b msg| |msg]; [|by apply safe_ret..|apply safe_panic].
  destruct (UseGas gas (ne_gas eff)) as [gas'|]; [|by apply safe_ret]. destruct hasHandler; [|by apply safe_ret].
  apply or_err_safe; [by apply handle_events_safe|]. intros. by apply safe_ret.
Qed.

Lemma runNativeAction_safe hasHandler action gas initialGas s : wf s ->
  safe (runNativeAction info hasHandler action gas initialGas) s.
Proof.
  intros Hw r s'. unfold runNativeAction, or_err.
  destruct (GetCacheContext_cases s) as [-> | ->]; [intros [= <- <-]; right; by apply step_ok_refl|].
  destruct (cview s) as [st evs0] eqn:Hc.
  destruct (ss_Snapshot_ok st (cview_ok s st evs0 Hw Hc)) as (id & st1 & Hsn & Hst1).
  unfold StateDB_MultiStoreSnapshot at 1. cbn [sd_cache set_cache]. rewrite Hsn.
  set (c := (sd_precompileCalls s + 1) mod 256).
  set (t1 := in_call id evs0 st1 c (sd_processedEvents s) [] evs0 s).
  assert (step_ok s t1) as Ht1 by by eapply in_call_ok.
  assert (StateDB_AddPrecompileFn id (set_cache (Some (st1, evs0)) (set_cache (Some (st, evs0)) s)) =
    (oguard (negb (MaxPrecompileCalls <? c)) "max calls to precompiles (20) reached", t1)) as -> by done.
  destruct (MaxPrecompileCalls <? c); simpl; [intros H; right; change (step_ok s (r, s').2); by rewrite <- H|].
  unfold StateDB_FlushToCacheCtx. cbn [t1 in_call set_processed set_precompileCalls set_cache sd_cache fold_left].
  match goal with |- context [commit_loop ?o ?l ?k ?e] => destruct (commit_loop o l k e) as [rc [k' evs']] end.
  set (t2 := in_call id evs0 st1 c (sd_processedEvents s) [fun _ => k'] evs' s).
  assert (step_ok s t2) as Ht2 by by eapply in_call_ok.
  destruct rc as [[]|e|e]; [|intros H; right; change (step_ok s (r, s').2); by rewrite <- H|intros [= <- <-]; left; eauto].
  apply (nativeBody_safe hasHandler action gas initialGas st evs0 id st1 c (Z.of_nat (length evs')) [fun _ => k'] evs' s
    Hw Hc Hsn).
Qed.

Lemma RunNativeAction_safe hasHandler action gas initialGas s : wf s ->
  safe (RunNativeAction info hasHandler action gas initialGas) s.
Proof.
  intros Hw. apply safe_bind; [by apply runNativeAction_safe|]. intros [r g] s1 _ Hw1. by apply safe_ret.
Qed.
End facts.

(** ** Bisection *)

(** On a monotone predicate [sort.Search] finds the first index where it holds,
    and the fuel of the loop is never exhausted. *)
Lemma search_loop_spec f n fuel i j : (j - i <= fuel)%nat -> (i <= j <= n)%nat ->
  (forall x y, x <= y -> y < n -> f x = true -> f y = true)%nat ->
  (forall x, x < i -> f x = false)%nat -> (forall x, j <= x < n -> f x = true)%nat ->
  let r := search_loop fuel f i j in
  (r <= n)%nat /\ (forall x, x < r -> f x = false)%nat /\ (forall x, r <= x < n -> f x = true)%nat.
Proof.
  revert i j. induction fuel as [|fuel IH]; intros i j Hf Hij Hm Hlo Hhi; simpl.
  - assert (i = j) as -> by lia. split_and!; [lia|done|done].
  - destruct (Nat.ltb_spec i j) as [Hlt|Hge].
    2: { assert (i = j) as -> by lia. split_and!; [lia|done|done]. }
    pose proof (Nat.div2_div (i + j)) as Hdiv.
    pose proof (Nat.div_mod_eq (i + j) 2). pose proof (Nat.mod_upper_bound (i + j) 2).
    set (h := Nat.div2 (i + j)) in *. assert (i <= h < j)%nat as Hh by lia.
    destruct (f h) eqn:Hfh.
    + apply IH; try done; [lia..|]. intros x Hx. destruct (Nat.lt_ge_cases x j); [|apply Hhi; lia].
      apply (Hm h x); [lia|lia|done].
    + apply IH; try done; [lia..|]. intros x Hx. destruct (f x) eqn:Hfx; [|done].
      destruct (Nat.lt_ge_cases x i); [by rewrite Hlo in Hfx|]. rewrite (Hm x h) in Hfh; [done|lia|lia|done].
Qed.

Lemma sort_Search_spec f n : (forall x y, x <= y -> y < n -> f x = true -> f y = true)%nat ->
  let r := sort_Search n f in
  (r <= n)%nat /\ (forall x, x < r -> f x = false)%nat /\ (forall x, r <= x < n -> f x = true)%nat.
Proof. intros Hm. apply (search_loop_spec f n n 0 n); [lia|lia|done|lia|lia]. Qed.

Section revert.
Context {Cr : EthCrypto} {Ty : SdkTypes} {Pl : PrecompileLibs} (info : option EvmCoinInfo).
Context {K S : Type} {Kp : StateKeeper K} {Sn : Snapshotter S K} {Cc : CacheContext S K}.
Abbreviation StateDB := (StateDB K S).
Abbreviation MS := (M StateDB).
Implicit Types (s t u g : StateDB) (o : stateObject) (a : addr) (k : K).

(** ** Sequences of operations *)

Inductive op :=
| OExist (a : addr)
| OGetCode (a : addr)
| OGetState (a : addr) (key : hash)
| OGetCommittedState (a : addr) (key : hash)
| OCreateAccount (a : addr)
| OCreateContract (a : addr)
| OAddBalance (a : addr) (amount : Z)
| OSubBalance (a : addr) (amount : Z)
| OSetBalance (a : addr) (amount : Z)
| OSetNonce (a : addr) (nonce : Z)
| OSetCode (a : addr) (code : option bytes)
| OSetState (a : addr) (key value : hash)
| OSelfDestruct (a : addr)
| OSetTransientState (a : addr) (key value : hash)
| OAddLog (l : Log)
| OAddRefund (gas : Z)
| OSubRefund (gas : Z)
| OAddAddressToAccessList (a : addr)
| OAddSlotToAccessList (a : addr) (slot : hash)
| OPrecompile (hasHandler : bool) (action : NativeAction (K := K)) (gas initialGas : Z)
| OSnapshot
| ORevertToSnapshot (id : Z).

Definition drop_result {A} (m : MS A) : MS unit := do! m; mret tt.

Definition run_op (x : op) : MS unit :=
  match x with
  | OExist a => drop_result (StateDB_Exist a)
  | OGetCode a => drop_result (StateDB_GetCode a)
  | OGetState a key => drop_result (StateDB_GetState a key)
  | OGetCommittedState a key => drop_result (StateDB_GetCommittedState a key)
  | OCreateAccount a => StateDB_CreateAccount a
  | OCreateContract a => StateDB_CreateContract a
  | OAddBalance a z => drop_result (StateDB_AddBalance a z)
  | OSubBalance a z => drop_result (StateDB_SubBalance a z)
  | OSetBalance a z => StateDB_SetBalance a z
  | OSetNonce a z => StateDB_SetNonce a z
  | OSetCode a c => drop_result (StateDB_SetCode a c)
  | OSetState a key v => drop_result (StateDB_SetState a key v)
  | OSelfDestruct a => StateDB_SelfDestruct a
  | OSetTransientState a key v => StateDB_SetTransientState a key v
  | OAddLog l => StateDB_AddLog l
  | OAddRefund gas => StateDB_AddRefund gas
  | OSubRefund gas => StateDB_SubRefund gas
  | OAddAddressToAccessList a => StateDB_AddAddressToAccessList a
  | OAddSlotToAccessList a slot => StateDB_AddSlotToAccessList a slot
  | OPrecompile h action gas initialGas => drop_result (RunNativeAction info h action gas initialGas)
  | OSnapshot => drop_result StateDB_Snapshot
  | ORevertToSnapshot id => StateDB_RevertToSnapshot id
  end.

(** An account is created where there is none, and one that is marked as
    destroyed is not destroyed again; [destruct_twice_then_revert] shows what
    happens otherwise. *)
Definition destroys_once (x : op) s : bool :=
  match x with
  | OCreateAccount a => match oview s a with Some _ => false | None => true end
  | OSelfDestruct a => match oview s a with Some o => negb (so_selfDestructed o) | None => true end
  | _ => true
  end.

(** [None]: the operation panics. *)
Definition step (x : op) s : option StateDB :=
  match run_op x s with
  | (Panic _, _) => None
  | (_, s') => Some s'
  end.

Fixpoint run (l : list op) s : option StateDB :=
  match l with
  | [] => Some s
  | x :: l' => match step x s with Some s' => run l' s' | None => None end
  end.

(** Every operation of the run is one that [destroys_once] allows where it is
    run. *)
Fixpoint run_destroys_once (l : list op) s : bool :=
  match l with
  | [] => true
  | x :: l' => destroys_once x s && match step x s with Some s' => run_destroys_once l' s' | None => true end
  end.

(** No revert of the sequence goes as far back as [id]. *)
Definition keeps (id : Z) (l : list op) : bool :=
  forallb (fun x => match x with ORevertToSnapshot id' => id <? id' | _ => true end) l.

Context {HL : HashLaws K} {SL : SnapshotterLaws S K} {BL : BranchLaws S K}.

Definition plain (x : op) : Prop := match x with OSnapshot | ORevertToSnapshot _ => False | _ => True end.

Lemma plain_safe x s : plain x -> wf s -> destroys_once x s = true -> safe (run_op x) s.
Proof.
  intros Hp Hw Hal. destruct x; cbn [run_op destroys_once] in *; try done;
    try lazymatch goal with |- safe (drop_result _) _ => apply safe_drop end;
    try (by auto using CreateContract_safe, SetTransient_safe, AddLog_safe, AddRefund_safe, SubRefund_safe,
      AddAddress_safe, AddSlot_safe, RunNativeAction_safe);
    try (by first [apply StateDB_AddBalance_safe|apply StateDB_SubBalance_safe]).
  - apply safe_bind; [by apply getState_safe|]. intros x s1 _ Hw1. by apply safe_ret.
  - apply safe_bind; [by apply getState_safe|]. intros [o|] s1 H Hw1; [|by apply safe_ret].
    destruct (getState_live _ _ _ _ Hw H). eapply cached_safe; [by apply Code_read|]. intros. by apply safe_ret.
  - apply safe_bind; [by apply getState_safe|]. intros [o|] s1 H Hw1; [|by apply safe_ret].
    destruct (getState_live _ _ _ _ Hw H). eapply cached_safe; [by apply State_read|]. intros. by apply safe_ret.
  - apply safe_bind; [by apply getState_safe|]. intros [o|] s1 H Hw1; [|by apply safe_ret].
    destruct (getState_live _ _ _ _ Hw H). eapply cached_safe; [by apply Committed_read|]. intros. by apply safe_ret.
  - apply CreateAccount_safe; [done|]. by destruct (oview s a).
  - apply on_object; [done|]. intros. apply safe_drop. by eapply SetBalance_safe.
  - apply on_object; [done|]. intros. by eapply SetNonce_safe.
  - apply on_object; [done|]. intros o s1 Hw1 Hl Ho. apply safe_bind.
    + eapply SetCode_safe; eauto using Keccak256Hash_length.
    + intros [] s2 _ Hw2. by apply safe_ret.
  - apply on_object; [done|]. intros. by eapply SetState_safe.
  - apply SelfDestruct_safe; [done|]. intros o Ho. rewrite Ho in Hal. by apply negb_true_iff.
Qed.

(** ** What the journal remembers *)

(** The entries of [s] above those of [g] lead from [s] back to [g]. *)
Definition tracks g s : Prop := exists new u,
  sd_entries s = sd_entries g ++ new /\ undo_entries (rev new) s = (Ok tt, u) /\ sequiv u g.

Lemma tracks_self g s : sd_entries s = sd_entries g -> sequiv s g -> tracks g s.
Proof. intros He Hs. exists [], s. by rewrite app_nil_r. Qed.

Lemma tracks_length g s : tracks g s -> (length (sd_entries g) <= length (sd_entries s))%nat.
Proof. intros (new & u & He & _). rewrite He, length_app. lia. Qed.

Lemma tracks_undoable g s s' : tracks g s -> undoable s s' -> tracks g s'.
Proof.
  intros (n1 & u1 & He1 & Hu1 & Hs1) (n2 & u2 & He2 & _ & _ & Hu2 & Hs2).
  destruct (undo_proper _ s u2 u1 (symmetry Hs2) Hu1) as (u3 & Hu3 & Hs3).
  exists (n1 ++ n2), u3. split_and!; [by rewrite He2, He1, app_assoc| |].
  - rewrite rev_app_distr. by eapply undo_app.
  - etrans; [symmetry; exact Hs3|done].
Qed.

Lemma tracks_equiv g s s' : tracks g s -> sd_entries s' = sd_entries s -> sequiv s' s -> tracks g s'.
Proof.
  intros (new & u & He & Hu & Hs) He' Hs'. destruct (undo_proper _ _ s' _ (symmetry Hs') Hu) as (u' & Hu' & Hsu).
  exists new, u'. split_and!; [congruence|done|]. etrans; [symmetry; exact Hsu|done].
Qed.

Lemma undo_app_inv l1 l2 s u : undo_entries (l1 ++ l2) s = (Ok tt, u) ->
  exists m, undo_entries l1 s = (Ok tt, m) /\ undo_entries l2 m = (Ok tt, u).
Proof.
  revert s. induction l1 as [|e l1 IH]; intros s H; [by exists s|].
  simpl in H. apply undo_cons in H as (s0 & Hr & (m & H1 & H2)%IH). exists m. split; [|done].
  apply undo_cons. by exists s0.
Qed.

(** Undoing down to [g] still leads further back to an older [g0]. *)
Lemma tracks_back g0 g s s' new u : tracks g0 s -> sd_entries s = sd_entries g ++ new ->
  undo_entries (rev new) s = (Ok tt, u) -> (length (sd_entries g0) <= length (sd_entries g))%nat ->
  sd_entries s' = sd_entries g -> sequiv s' u -> tracks g0 s'.
Proof.
  intros (n0 & u0 & He0 & Hu0 & Hs0) He Hu Hlen He' Hs'. rewrite He in He0.
  apply app_eq_app in He0 as [mid [[Hg Hn]|[Hg Hn]]].
  - subst n0. rewrite rev_app_distr in Hu0. apply undo_app_inv in Hu0 as (m & Hm & Hu0).
    rewrite Hu in Hm. injection Hm as <-. destruct (undo_proper _ _ s' _ (symmetry Hs') Hu0) as (u' & Hu' & Hsu).
    exists mid, u'. split_and!; [congruence|done|]. etrans; [symmetry; exact Hsu|done].
  - assert (mid = []) as -> by (apply length_zero_iff_nil; apply (f_equal length) in Hg; rewrite length_app in Hg; lia).
    rewrite app_nil_r in Hg. simpl in Hn. subst new. rewrite Hu0 in Hu. injection Hu as <-.
    exists [], s'. rewrite app_nil_r. split_and!; [congruence|done|]. by etrans.
Qed.

(** ** The invariant *)

Definition older (r r' : Z * Z) : Prop := r.1 < r'.1 /\ r.2 <= r'.2.

Record inv s : Prop := {
  inv_wf : wf s;
  inv_sorted : StronglySorted older (sd_revisions s);
  inv_next : Forall (fun r => r.1 < sd_nextRevisionID s) (sd_revisions s);
  inv_tracks : Forall (fun r => exists g, wf g /\ r.2 = Z.of_nat (length (sd_entries g)) /\ tracks g s) (sd_revisions s);
}.

Lemma inv_new ctx events multi txIndex : inv (newStateDB ctx events multi txIndex).
Proof.
  constructor; [|constructor..]. by constructor.
Qed.

Lemma inv_undoable s s' : inv s -> step_ok s s' -> inv s'.
Proof.
  intros [Hw Hso Hn Ht] [Hu Hw']. pose proof Hu as (new & u & He & Hr & Hnx & _).
  constructor; [done|by rewrite Hr|by rewrite Hr, Hnx|]. rewrite Hr. eapply Forall_impl; [exact Ht|].
  intros r (g & Hg & Hj & Hgt). exists g. split_and!; [done..|]. by eapply tracks_undoable.
Qed.

Definition snap s : StateDB :=
  set_revisions (sd_revisions s ++ [(sd_nextRevisionID s, Z.of_nat (length (sd_entries s)))])
    (set_next (sd_nextRevisionID s + 1) s).

Lemma snap_equiv s : sequiv (snap s) s.
Proof. by constructor. Qed.

Lemma StronglySorted_snoc {A} (R : A -> A -> Prop) l x : StronglySorted R l -> Forall (fun y => R y x) l ->
  StronglySorted R (l ++ [x]).
Proof.
  induction 1 as [|y l Hs IH Hy]; intros Hx; simpl; [by repeat constructor|]. inversion_clear Hx.
  constructor; [by apply IH|]. apply Forall_app. split; [done|by repeat constructor].
Qed.

Lemma inv_snap s : inv s -> inv (snap s).
Proof.
  intros [Hw Hso Hn Ht]. constructor; simpl.
  - destruct Hw. by constructor.
  - apply StronglySorted_snoc; [done|]. rewrite Forall_forall in Hn, Ht |- *. intros r Hr. split; [by apply Hn|].
    destruct (Ht r Hr) as (g & _ & -> & Hg%tracks_length). simpl. lia.
  - apply Forall_app. split; [|repeat constructor; simpl; lia]. eapply Forall_impl; [exact Hn|]. simpl. lia.
  - apply Forall_app. split.
    + eapply Forall_impl; [exact Ht|]. intros r (g & Hg & Hj & Hgt). exists g. split_and!; [done..|].
      eapply tracks_equiv; [exact Hgt|done|apply snap_equiv].
    + repeat constructor. exists s. split_and!; [done..|]. by apply tracks_self.
Qed.

(** The bisection finds the revision. *)
Lemma find_revision pre id j post : StronglySorted older (pre ++ (id, j) :: post) ->
  let revs := pre ++ (id, j) :: post in
  sort_Search (length revs) (fun i => match revs !! i with Some (id', _) => id <=? id' | None => false end) = length pre.
Proof.
  intros Hs revs. set (f := fun i => match revs !! i with Some (id', _) => id <=? id' | None => false end).
  assert (forall x y r r', (x < y)%nat -> revs !! x = Some r -> revs !! y = Some r' -> r.1 < r'.1) as Hlt.
  { subst revs. clear f. revert Hs. generalize (pre ++ (id, j) :: post). induction 1 as [|r0 l Hl IH Hr]; [done|].
    intros [|x] [|y] r r' Hxy Hx Hy; simpl in *; try lia; [|eapply IH; [|exact Hx|exact Hy]; lia].
    injection Hx as <-. rewrite Forall_forall in Hr. apply Hr. by eapply list_elem_of_lookup_2. }
  assert (revs !! length pre = Some (id, j)) as Hp by apply list_lookup_middle, eq_refl.
  destruct (sort_Search_spec f (length revs)) as (Hr & Hlo & Hhi).
  - intros x y Hxy Hy. unfold f. destruct (revs !! x) as [[i1 j1]|] eqn:Hx; [|done].
    destruct (lookup_lt_is_Some_2 revs y Hy) as [[i2 j2] H2]. rewrite H2. intros Hle%Z.leb_le. apply Z.leb_le.
    destruct (decide (x = y)) as [->|]; [by simplify_eq|]. pose proof (Hlt x y _ _ ltac:(lia) Hx H2). simpl in *. lia.
  - fold f. set (r := sort_Search (length revs) f) in *.
    destruct (Nat.lt_trichotomy r (length pre)) as [Hc|[Hc|Hc]]; [|done|].
    + destruct (lookup_lt_is_Some_2 revs r) as [[i1 j1] H1]; [subst revs; rewrite length_app; lia|].
      pose proof (Hlt _ _ _ _ Hc H1 Hp). assert (f r = true) as Hf by (apply Hhi; subst revs; rewrite length_app; simpl; lia).
      unfold f in Hf. rewrite H1 in Hf. apply Z.leb_le in Hf. simpl in *. lia.
    + specialize (Hlo _ Hc). unfold f in Hlo. rewrite Hp in Hlo. apply Z.leb_gt in Hlo. lia.
Qed.

(** ** Reverting *)

Lemma wf_equiv s g : objs_ok s -> sequiv s g -> wf g -> wf s.
Proof.
  intros Ho Hs Hg. constructor; [exact Ho| | |].
  - intros a n. rewrite (se_dirties _ _ Hs). apply (wf_dirties _ Hg).
  - rewrite (se_access _ _ Hs). apply (wf_access _ Hg).
  - intros st evs Hc. apply (cview_ok g st evs Hg). rewrite <- (se_cache _ _ Hs). unfold cview. by rewrite Hc.
Qed.

Lemma revert_at s pre id post g : inv s -> wf g -> tracks g s ->
  sd_revisions s = pre ++ (id, Z.of_nat (length (sd_entries g))) :: post ->
  exists s', StateDB_RevertToSnapshot id s = (Ok tt, s') /\ sequiv s' g /\ wf s' /\
    sd_entries s' = sd_entries g /\ sd_revisions s' = pre /\ sd_nextRevisionID s' = sd_nextRevisionID s /\
    (forall g0, tracks g0 s -> (length (sd_entries g0) <= length (sd_entries g))%nat -> tracks g0 s').
Proof.
  intros Hi Hg Ht Hrev. pose proof Ht as (new & u & He & Hu & Hs).
  pose proof (undo_frame _ _ _ Hu) as (Hfe & Hfr & Hfn).
  exists (set_revisions pre (set_journal (sd_entries g) (sd_dirties u) u)).
  assert (sequiv (set_revisions pre (set_journal (sd_entries g) (sd_dirties u) u)) u) as Hsu by by constructor.
  split_and!; try done.
  - unfold StateDB_RevertToSnapshot. rewrite Hrev. rewrite find_revision by (rewrite <- Hrev; apply Hi).
    rewrite (list_lookup_middle pre post _ _ eq_refl), Z.eqb_refl. simpl. unfold journal_Revert, mbind', mmodify.
    rewrite He, Nat2Z.id, drop_app_length, Hu, Hfe, He, take_app_length. by rewrite take_app_length.
  - by etrans.
  - eapply wf_equiv; [|by etrans|done]. pose proof (undo_objs_ok _ _ _ Hu) as Hok. exact (Hok (wf_objects _ (inv_wf _ Hi))).
  - intros g0 Ht0 Hlen. eapply tracks_back; [exact Ht0|exact He|exact Hu|done|done|done].
Qed.

(** A revert that does not panic has found its revision. *)
Lemma revert_step id s s' : inv s -> step (ORevertToSnapshot id) s = Some s' ->
  exists pre post g, sd_revisions s = pre ++ (id, Z.of_nat (length (sd_entries g))) :: post /\ wf g /\ tracks g s /\
    StateDB_RevertToSnapshot id s = (Ok tt, s').
Proof.
  intros Hi. unfold step. cbn [run_op]. destruct (StateDB_RevertToSnapshot id s) as [r t] eqn:Hr. intros Hst.
  assert (exists pre j post, sd_revisions s = pre ++ (id, j) :: post) as (pre & j & post & Hrev).
  { revert Hr. unfold StateDB_RevertToSnapshot. destruct (sd_revisions s !! _) as [[id' j]|] eqn:Hl.
    - destruct (Z.eqb_spec id' id) as [->|_]; simpl; [|intros [= <- <-]; done]. intros _.
      apply list_elem_of_lookup_2, list_elem_of_split in Hl as (pre & post & H). eauto.
    - intros [= <- <-]. done. }
  pose proof (inv_tracks _ Hi) as Hts. rewrite Hrev in Hts. apply Forall_app in Hts as [_ Hts].
  apply Forall_cons in Hts as [(g & Hg & Hj & Ht) _]. simpl in Hj. subst j. exists pre, post, g. split_and!; try done.
  destruct (revert_at s pre id post g Hi Hg Ht Hrev) as (s1 & Hr1 & _). rewrite Hr in Hr1. simplify_eq. done.
Qed.

Lemma inv_revert id s s' : inv s -> step (ORevertToSnapshot id) s = Some s' -> inv s'.
Proof.
  intros Hi Hst. destruct (revert_step id s s' Hi Hst) as (pre & post & g & Hrev & Hg & Ht & Hr).
  destruct (revert_at s pre id post g Hi Hg Ht Hrev) as (s1 & Hr1 & Heq & Hw & He & Hrv & Hn & Hback).
  rewrite Hr in Hr1. injection Hr1 as <-. destruct Hi as [_ Hso Hnx Hts]. rewrite Hrev in Hso, Hnx, Hts.
  apply Forall_app in Hnx as [Hnx _]. apply Forall_app in Hts as [Hts _].
  assert (StronglySorted older pre /\ Forall (fun r => older r (id, Z.of_nat (length (sd_entries g)))) pre) as [Hsp Hop].
  { clear -Hso. induction pre as [|r pre IH]; [by repeat constructor|]. simpl in Hso. inversion Hso as [|? ? H1 H2]; subst.
    destruct (IH H1) as [H3 H4]. apply Forall_app in H2 as [H2 [H5 _]%Forall_cons]. by split; constructor. }
  constructor; [done|by rewrite Hrv|by rewrite Hrv, Hn|]. rewrite Hrv. rewrite Forall_forall in Hts, Hop |- *.
  intros r Hin. destruct (Hts r Hin) as (g0 & Hg0 & Hj0 & Ht0). exists g0. split_and!; [done..|].
  apply Hback; [done|]. destruct (Hop r Hin) as [_ Hle]. simpl in Hle. lia.
Qed.

Lemma step_plain x s s' : plain x -> inv s -> destroys_once x s = true -> step x s = Some s' -> step_ok s s'.
Proof.
  intros Hp Hi Ha. unfold step.
  pose proof (plain_safe x s Hp (inv_wf _ Hi) Ha) as Hs. destruct (run_op x s) as [r t] eqn:Hr.
  destruct (Hs r t Hr) as [[msg ->]|H]; [done|]. by destruct r; intros [= <-].
Qed.

Lemma inv_step x s s' : inv s -> destroys_once x s = true -> step x s = Some s' -> inv s'.
Proof.
  intros Hi Ha Hst.
  assert (Hp : plain x -> inv s') by (intros Hp; exact (inv_undoable s s' Hi (step_plain x s s' Hp Hi Ha Hst))).
  destruct x; try (exact (Hp I)).
  - change (Some (snap s) = Some s') in Hst. injection Hst as <-. by apply inv_snap.
  - by eapply inv_revert.
Qed.

Lemma inv_run l s s' : inv s -> run_destroys_once l s = true -> run l s = Some s' -> inv s'.
Proof.
  revert s. induction l as [|x l IH]; intros s Hi; simpl; [by intros _ [= <-]|].
  intros [Ha Hl]%andb_true_iff. destruct (step x s) as [s1|] eqn:Hs; [|done]. apply IH; [|done]. by eapply inv_step.
Qed.

(** ** A snapshot stays valid *)

Definition valid g s : Prop := inv s /\ tracks g s /\ exists rest,
  sd_revisions s = sd_revisions g ++ (sd_nextRevisionID g, Z.of_nat (length (sd_entries g))) :: rest.

Lemma valid_step g x s s' : valid g s -> keeps (sd_nextRevisionID g) [x] = true -> destroys_once x s = true -> step x s = Some s' -> valid g s'.
Proof.
  intros (Hi & Ht & rest & Hrev) Hk Ha Hst. pose proof (inv_step x s s' Hi Ha Hst) as Hi'.
  assert (Hp : plain x -> valid g s').
  { intros Hp. destruct (step_plain x s s' Hp Hi Ha Hst) as [Hu _]. split_and!; [done|by eapply tracks_undoable|].
    exists rest. destruct Hu as (? & ? & _ & -> & _). done. }
  destruct x; try (exact (Hp I)).
  - change (Some (snap s) = Some s') in Hst. injection Hst as <-. split_and!; [done| |].
    + eapply tracks_equiv; [exact Ht|done|apply snap_equiv].
    + exists (rest ++ [(sd_nextRevisionID s, Z.of_nat (length (sd_entries s)))]). simpl. by rewrite Hrev, <- app_assoc.
  - simpl in Hk. rewrite andb_true_r in Hk. apply Z.ltb_lt in Hk.
    destruct (revert_step id s s' Hi Hst) as (pre & post & g1 & Hrev1 & Hg1 & Ht1 & Hr).
    destruct (revert_at s pre id post g1 Hi Hg1 Ht1 Hrev1) as (s1 & Hr1 & _ & _ & _ & Hrv & _ & Hback).
    rewrite Hr in Hr1. injection Hr1 as <-.
    assert (exists rest', pre = sd_revisions g ++ (sd_nextRevisionID g, Z.of_nat (length (sd_entries g))) :: rest') as [rest' Hpre].
    { pose proof (inv_sorted _ Hi) as Hso. rewrite Hrev1 in Hso. rewrite Hrev1 in Hrev. clear -Hso Hrev Hk.
      revert Hrev Hso. generalize (sd_revisions g) as l. induction pre as [|r pre IH]; intros [|r' l] H Hso; simpl in *.
      - simplify_eq. lia.
      - injection H as <- H. inversion_clear Hso as [|? ? _ Hf]. rewrite H in Hf.
        apply Forall_app in Hf as [_ Hf]. inversion_clear Hf as [|? ? [Hlt _] _]. simpl in Hlt. lia.
      - injection H as -> H. by exists pre.
      - injection H as -> H. inversion_clear Hso. destruct (IH l H) as [rest' ->]; [done|]. by exists rest'. }
    split_and!; [done| |by exists rest'; rewrite Hrv].
    apply Hback; [done|]. pose proof (inv_sorted _ Hi) as Hso. rewrite Hrev1, Hpre, <- app_assoc in Hso.
    clear -Hso. induction (sd_revisions g) as [|r l IH]; simpl in Hso; inversion_clear Hso as [|? ? H1 H2]; [|by apply IH].
    apply Forall_app in H2 as [_ H2]. inversion_clear H2 as [|? ? [_ Hle] _]. simpl in Hle. lia.
Qed.

Lemma valid_run g l s s' : valid g s -> keeps (sd_nextRevisionID g) l = true -> run_destroys_once l s = true -> run l s = Some s' -> valid g s'.
Proof.
  revert s. induction l as [|x l IH]; intros s Hv Hk; simpl; [by intros _ [= <-]|].
  intros [Ha Hl]%andb_true_iff. destruct (step x s) as [s1|] eqn:Hs; [|done]. simpl in Hk. apply andb_true_iff in Hk as [Hk1 Hk2].
  apply IH; [|done..]. eapply valid_step; [exact Hv| |exact Ha|exact Hs]. simpl. by rewrite andb_true_r.
Qed.

Lemma valid_snap g : inv g -> valid g (snap g).
Proof.
  intros Hi. split_and!; [by apply inv_snap|by apply tracks_self|]. by exists [].
Qed.
End revert.
