(* ===== verification/VmKeeper.v ===== *)
(** * x/vm/keeper: accounts, code and storage of the EVM

    statedb.go, utils.go and the account, gas and header-hash parts of
    keeper.go, with wrappers/bank.go and the keys of types/key.go. The keeper is
    the implementation of the interface of the state database ([StateKeeper]),
    on a KV store and on the auth and bank modules of the Cosmos SDK, which are
    the class [AuthBank]. Tracing and logging are left out. *)

From Stdlib Require Import ZArith Lia List String Ascii Bool.
From stdpp Require Import base gmap strings list sorting.
From S2P Require Import Prelude GoStrings Sdk EvmCoin AccessList SnapshotStore StateDB Precompile.
Local Open Scope Z_scope.
Local Open Scope go_scope.

(** ** key.go *)

Definition KeyPrefixCode : bytes := String (chr 1) EmptyString.
Definition KeyPrefixStorage : bytes := String (chr 2) EmptyString.
Definition KeyPrefixCodeHash : bytes := String (chr 4) EmptyString.

Definition AddressStoragePrefix (a : addr) : bytes := (KeyPrefixStorage +:+ a)%string.
Definition StateKey (a : addr) (key : bytes) : bytes := (AddressStoragePrefix a +:+ key)%string.
Definition CodeHashKey (a : bytes) : bytes := (KeyPrefixCodeHash +:+ a)%string.
Definition CodeKey (h : bytes) : bytes := (KeyPrefixCode +:+ h)%string.

(** ** The auth and bank modules

    An account of the auth module; [aa_vesting] is the schedule of a vesting
    account. *)
Record AuthAccount := MkAuthAccount {
  aa_sequence : Z;
  aa_number : Z;
  aa_pubkey : option bytes;
  aa_module : bool;
  aa_vesting : option bytes;
}.

Class AuthBank (W : Type) := {
  auth_GetAccount : W -> addr -> option AuthAccount;
  auth_SetAccount : addr -> AuthAccount -> W -> W;
  auth_NewAccount : addr -> W -> AuthAccount * W;    (* NewAccountWithAddress *)
  auth_RemoveAccount : addr -> W -> W;
  bank_GetBalance : W -> addr -> string -> Z;
  bank_SpendableCoin : W -> addr -> string -> Z;
  bank_LockedCoins : W -> addr -> string -> Z;       (* LockedCoins(...).AmountOf *)
  bank_BlockedAddr : addr -> bool;
  bank_UncheckedSetBalance : addr -> Coin -> W -> outcome (list SdkEvent) * W;
}.

(** What the accounts of the SDK do: a map of accounts and a map of balances;
    what is locked of a balance follows from the vesting schedule; setting a
    balance changes that balance only. *)
Class AuthBankLaws (W : Type) `{!AuthBank W} := {
  vesting_locked : bytes -> string -> Z;
  auth_get_set a acc (w : W) b :
    auth_GetAccount (auth_SetAccount a acc w) b = if String.eqb a b then Some acc else auth_GetAccount w b;
  auth_get_remove a (w : W) b :
    auth_GetAccount (auth_RemoveAccount a w) b = if String.eqb a b then None else auth_GetAccount w b;
  auth_get_new a (w : W) b : auth_GetAccount (auth_NewAccount a w).2 b = auth_GetAccount w b;
  auth_new_base a (w : W) :
    aa_module (auth_NewAccount a w).1 = false /\ aa_vesting (auth_NewAccount a w).1 = None;
  bank_set_account a acc (w : W) b d : bank_GetBalance (auth_SetAccount a acc w) b d = bank_GetBalance w b d;
  bank_remove_account a (w : W) b d : bank_GetBalance (auth_RemoveAccount a w) b d = bank_GetBalance w b d;
  bank_new_account a (w : W) b d : bank_GetBalance (auth_NewAccount a w).2 b d = bank_GetBalance w b d;
  bank_locked (w : W) a d : bank_LockedCoins w a d =
    match auth_GetAccount w a with
    | Some acc => match aa_vesting acc with Some v => vesting_locked v d | None => 0 end
    | None => 0
    end;
  bank_spendable (w : W) a d :
    bank_SpendableCoin w a d = Z.max 0 (bank_GetBalance w a d - bank_LockedCoins w a d);
  bank_set_ok a c (w : W) evs w' : bank_UncheckedSetBalance a c w = (Ok evs, w') ->
    (forall b d, bank_GetBalance w' b d =
       if String.eqb a b && String.eqb (Denom c) d then Amount c else bank_GetBalance w b d) /\
    (forall b, auth_GetAccount w' b = auth_GetAccount w b);
  bank_set_keeps a c (w : W) b : auth_GetAccount (bank_UncheckedSetBalance a c w).2 b = auth_GetAccount w b;
}.

Record VmState (W : Type) := MkVmState { vk_store : KVStore; vk_world : W }.
Arguments MkVmState {W}.
Arguments vk_store {W}.
Arguments vk_world {W}.

Section keeper.
Context {Ma : SdkMath} {Ty : SdkTypes} {Cr : EthCrypto} {W : Type} {Ab : AuthBank W}.
(** [ethtypes.ParseDelegation]: is the code an EIP-7702 delegation? *)
Context (ParseDelegation : bytes -> bool) (info : EvmCoinInfo).
Abbreviation VmState := (VmState W).
Abbreviation MV := (M VmState).
Implicit Types (k : VmState) (a : addr).

Definition set_store (kv : KVStore) k : VmState := MkVmState kv (vk_world k).
Definition set_world (w : W) k : VmState := MkVmState (vk_store k) w.

(** ** wrappers/bank.go *)

Definition denom : string := ci_Denom info.

Definition wrap_GetBalance k a : Z := bank_GetBalance (vk_world k) a (ci_ExtendedDenom info).
Definition wrap_SpendableCoin k a : Z := bank_SpendableCoin (vk_world k) a (ci_ExtendedDenom info).

Definition wrap_SetBalance a (amt : Z) : MV (list SdkEvent) :=
  let! amount <- mlift (NewIntFromBigInt amt);
  let! coin <- mlift (owrap "failed to set coins in bank wrapper"
                        (ConvertEvmCoinDenomToExtendedDenom (Some info) (MkCoin denom amount)));
  fun k => let '(r, w) := bank_UncheckedSetBalance a coin (vk_world k) in (r, set_world w k).

(** ** statedb.go: reading *)

Definition vk_SpendableCoin k a : option Z :=
  match Uint256FromBigInt (wrap_SpendableCoin k a) with Ok z => Some z | _ => None end.
Definition vk_lockedCoin k a : Z := bank_LockedCoins (vk_world k) a denom.

Definition vk_GetState k a (key : hash) : hash :=
  let value := kv_get (vk_store k) (StateKey a key) in
  if len value =? 0 then zero_hash else BytesToHash value.

Definition vk_GetFastState k a (key : hash) : option bytes := vk_store k !! StateKey a key.

Definition vk_GetCodeHash k a : hash :=
  let bz := kv_get (vk_store k) (CodeHashKey a) in
  if len bz =? 0 then BytesToHash EmptyCodeHash else BytesToHash bz.

Definition vk_GetCode k (codeHash : hash) : option bytes := vk_store k !! CodeKey codeHash.

(** [storetypes.KVStorePrefixIterator]: the entries with the prefix, in the
    order of their keys. *)
Definition PrefixIterator (kv : KVStore) (prefix : bytes) : list (string * bytes) :=
  merge_sort key_le (base.filter (fun e => has_prefix prefix e.1 = true) (map_to_list kv)).

Definition vk_ForEachStorage k a : list (hash * hash) :=
  map (fun '(key, value) => (BytesToHash key, BytesToHash value))
    (PrefixIterator (vk_store k) (AddressStoragePrefix a)).

(** [IterateContracts] with a callback that never stops. *)
Definition vk_IterateContracts k : list (addr * hash) :=
  map (fun '(key, value) => (BytesToAddress key, BytesToHash value))
    (PrefixIterator (vk_store k) KeyPrefixCodeHash).

Definition vk_GetAccount k a : option Account :=
  match auth_GetAccount (vk_world k) a with
  | None => None
  | Some acct => Some (MkAccount (aa_sequence acct) (vk_SpendableCoin k a) (Some (vk_GetCodeHash k a))
                         (Some (vk_lockedCoin k a)))
  end.

(** ** keeper.go and utils.go: reading *)

Definition vk_GetAccountWithoutBalance k a : option (Z * hash) :=
  match auth_GetAccount (vk_world k) a with
  | None => None
  | Some acct => Some (aa_sequence acct, vk_GetCodeHash k a)
  end.

Definition vk_GetAccountOrEmpty k a : Account :=
  match vk_GetAccount k a with
  | Some acct => acct
  | None => MkAccount 0 (Some 0) (Some EmptyCodeHash) None
  end.

Definition vk_GetNonce k a : Z :=
  match auth_GetAccount (vk_world k) a with None => 0 | Some acct => aa_sequence acct end.

Definition vk_GetBalance k a : option Z :=
  match Uint256FromBigInt (wrap_GetBalance k a) with Ok z => Some z | _ => None end.

Definition vk_GetAccountStorage k a : list (hash * hash) := vk_ForEachStorage k a.

Definition vk_IsContract k a : bool :=
  let code := default EmptyString (vk_GetCode k (vk_GetCodeHash k a)) in
  (0 <? len code) && negb (ParseDelegation code).

(** ** statedb.go: writing *)

Definition vk_SetState a (key : hash) (value : bytes) k : VmState :=
  set_store (<[StateKey a key := value]> (vk_store k)) k.
Definition vk_DeleteState a (key : hash) k : VmState :=
  set_store (delete (StateKey a key) (vk_store k)) k.
Definition vk_SetCodeHash (addrBytes hashBytes : bytes) k : VmState :=
  set_store (<[CodeHashKey addrBytes := hashBytes]> (vk_store k)) k.
Definition vk_DeleteCodeHash a k : VmState := set_store (delete (CodeHashKey a) (vk_store k)) k.
Definition vk_SetCode (codeHash code : bytes) k : VmState :=
  set_store (<[CodeKey codeHash := code]> (vk_store k)) k.
Definition vk_DeleteCode (codeHash : bytes) k : VmState :=
  set_store (delete (CodeKey codeHash) (vk_store k)) k.

Definition vk_SetBalanceWithLocked a (amount : option Z) (locked : Z) : MV (list SdkEvent) :=
  match amount with
  | None => mret []
  | Some amount =>
    let! isModule <- mreads (fun k => match auth_GetAccount (vk_world k) a with
                                      | Some acct => aa_module acct | None => false end);
    let! coin <- mreads (fun k => wrap_SpendableCoin k a);
    let isBlockedChange := bank_BlockedAddr a && negb (amount =? coin) in
    if isModule || isBlockedChange then mfail (AccAddress_String a +:+ " is not allowed to receive funds: unauthorized")%string
    else wrap_SetBalance a (amount + locked)
  end.

Definition vk_SetBalance a (amount : option Z) : MV (list SdkEvent) :=
  let! locked <- mreads (fun k => vk_lockedCoin k a);
  vk_SetBalanceWithLocked a amount locked.

Definition vk_SetAccountBalance a (account : Account) : MV (list SdkEvent) :=
  match ac_lockedBalance account with
  | None => vk_SetBalance a (ac_Balance account)
  | Some locked => vk_SetBalanceWithLocked a (ac_Balance account) locked
  end.

(** [SetSequence] of an account. *)
Definition with_sequence (n : Z) (acct : AuthAccount) : AuthAccount :=
  MkAuthAccount n (aa_number acct) (aa_pubkey acct) (aa_module acct) (aa_vesting acct).

(** A store refuses a nil value. *)
Definition vk_SetAccount a (account : Account) : MV (list SdkEvent) :=
  let! acct <- (fun k => match auth_GetAccount (vk_world k) a with
                         | Some acct => (Ok acct, k)
                         | None => let '(acct, w) := auth_NewAccount a (vk_world k) in (Ok acct, set_world w k)
                         end);
  do! match ac_CodeHash account with
      | None => fun k => (Panic "value is nil", k)
      | Some h => mmodify (if IsEmptyCodeHash h then vk_DeleteCodeHash a else vk_SetCodeHash a h)
      end;
  do! mmodify (fun k => set_world (auth_SetAccount a (with_sequence (ac_Nonce account) acct) (vk_world k)) k);
  vk_SetAccountBalance a account.

(** A base account with the number, key and sequence of another. *)
Definition NewBaseAccount (acct : AuthAccount) : AuthAccount :=
  MkAuthAccount (aa_sequence acct) (aa_number acct) (aa_pubkey acct) false None.

Definition vk_DeleteAccount a : MV (list SdkEvent) := fun k =>
  match auth_GetAccount (vk_world k) a with
  | None => (Ok [], k)
  | Some acct =>
    (do! mguard (vk_IsContract k a) "only smart contracts can be self-destructed";
     do! mmodify (fun k => set_world (auth_SetAccount a (NewBaseAccount acct) (vk_world k)) k);
     let! evs <- vk_SetBalanceWithLocked a (Some 0) 0;
     let! keys <- mreads (fun k => map fst (vk_ForEachStorage k a));
     do! mmodify (fun k => fold_left (fun k key => vk_DeleteState a key k) keys k);
     do! mmodify (vk_DeleteCodeHash a);
     do! mmodify (fun k => set_world (auth_RemoveAccount a (vk_world k)) k);
     mret evs) k
  end.

(** ** The interface of the state database *)

#[export] Instance vk_StateKeeper : StateKeeper VmState := {|
  kp_GetAccount := vk_GetAccount;
  kp_GetState := vk_GetState;
  kp_GetCode := vk_GetCode;
  kp_ForEachStorage := vk_ForEachStorage;
  kp_SetAccount := vk_SetAccount;
  kp_DeleteAccount := vk_DeleteAccount;
  kp_SetState := vk_SetState;
  kp_DeleteState := vk_DeleteState;
  kp_SetCode := vk_SetCode;
  kp_DeleteCode := vk_DeleteCode;
|}.

(** ** keeper.go: block hashes in the storage of the history contract *)

Definition DefaultHistoryServeWindow : Z := 8192.

(** The eight bytes of a number, most significant first. *)
Definition uint64_key (n : Z) : hash :=
  (of_list (repeat (chr 0) 24) +:+ PutUint64 n)%string.

Definition history_key (servedWindow height : Z) : hash :=
  let window := if 0 <? servedWindow then servedWindow else DefaultHistoryServeWindow in
  uint64_key (height mod window).

Definition SetHeaderHash (HistoryStorageAddress : addr) (servedWindow height : Z) (headerHash : bytes) k : VmState :=
  match vk_GetAccount k HistoryStorageAddress with
  | Some _ =>
    if vk_IsContract k HistoryStorageAddress
    then vk_SetState HistoryStorageAddress (history_key servedWindow (u64 height)) headerHash k
    else k
  | None => k
  end.

Definition GetHeaderHash (HistoryStorageAddress : addr) (servedWindow height : Z) k : hash :=
  vk_GetState k HistoryStorageAddress (history_key servedWindow height).
End keeper.

(** ** keeper.go: gas used by the messages of a transaction

    Kept in the object store under the index of the transaction. *)
Definition GetTransientGasUsed (store : gmap Z Z) (txIndex : Z) : Z := default 0 (store !! txIndex).
Definition SetTransientGasUsed (txIndex gasUsed : Z) (store : gmap Z Z) : gmap Z Z :=
  <[txIndex := gasUsed]> store.
Definition AddTransientGasUsed (txIndex gasUsed : Z) : M (gmap Z Z) Z := fun store =>
  let result := u64 (GetTransientGasUsed store txIndex + gasUsed) in
  if result <? gasUsed then (Err "transient gas used: gas overflow", store)
  else (Ok result, SetTransientGasUsed txIndex result store).
