(* ===== verification/VmKeeperFacts.v ===== *)
(** * x/vm/keeper: what the writes of the keeper do to its reads *)

From Stdlib Require Import ZArith Lia List String Ascii Bool.
From stdpp Require Import base gmap strings list sorting.
From S2P Require Import Prelude GoStrings Sdk EvmCoin AccessList SnapshotStore StateDB StateDBFacts.
From S2P Require Import Precompile VmKeeper.
Local Open Scope Z_scope.
Local Open Scope go_scope.

(** ** Keys *)

Definition addr_ok (a : addr) : Prop := String.length a = 20%nat.
Definition hash_ok (h : hash) : Prop := String.length h = 32%nat.

Lemma app_split (s s' t t' : string) : String.length s = String.length s' ->
  (s +:+ t = s' +:+ t')%string -> s = s' /\ t = t'.
Proof.
  revert s'. induction s as [|c s IH]; intros [|c' s']; simpl; try done.
  intros [= Hl]. rewrite !string_app_cons. intros [= -> Ht]. destruct (IH s' Hl Ht) as [-> ->]. done.
Qed.

Lemma StateKey_inj a b x y : addr_ok a -> addr_ok b -> StateKey a x = StateKey b y -> a = b /\ x = y.
Proof.
  intros Ha Hb. unfold StateKey, AddressStoragePrefix, KeyPrefixStorage. rewrite !string_app_cons.
  intros [= H]. rewrite !string_app_nil_l in H. apply app_split in H; [done|congruence].
Qed.

Lemma StateKey_CodeHashKey a x b : StateKey a x <> CodeHashKey b.
Proof. done. Qed.
Lemma StateKey_CodeKey a x h : StateKey a x <> CodeKey h.
Proof. done. Qed.
Lemma CodeKey_CodeHashKey h b : CodeKey h <> CodeHashKey b.
Proof. done. Qed.
Lemma CodeHashKey_inj a b : CodeHashKey a = CodeHashKey b -> a = b.
Proof. apply string_app_inj_l. Qed.
Lemma CodeKey_inj a b : CodeKey a = CodeKey b -> a = b.
Proof. apply string_app_inj_l. Qed.

Lemma BytesToHash_app (p h : string) : hash_ok h -> BytesToHash (p +:+ h)%string = h.
Proof.
  intros Hh. unfold BytesToHash. rewrite string_app_length, Hh.
  rewrite (proj2 (Nat.leb_le _ _)) by lia. replace (String.length p + 32 - 32)%nat with (String.length p) by lia.
  clear -Hh. induction p as [|c p IH]; simpl.
  - rewrite string_app_nil_l. pose proof (BytesToHash_id h Hh) as H. unfold BytesToHash in H.
    by rewrite Hh in H.
  - exact IH.
Qed.

Section facts.
Context {Ma : SdkMath} {Ty : SdkTypes} {Cr : EthCrypto} {W : Type} {Ab : AuthBank W} {Al : AuthBankLaws W}.
Context (ParseDelegation : bytes -> bool) (info : EvmCoinInfo).
Abbreviation VmState := (VmState W).
Implicit Types (k : VmState) (a b : addr).

Abbreviation vk_SetAccount := (vk_SetAccount info).
Abbreviation vk_GetAccount := (vk_GetAccount info).
Abbreviation vk_DeleteAccount := (vk_DeleteAccount ParseDelegation info).

(** ** Storage *)

Lemma kv_get_insert (kv : KVStore) i v j :
  kv_get (<[i := v]> kv) j = if String.eqb i j then v else kv_get kv j.
Proof.
  unfold kv_get. destruct (String.eqb_spec i j) as [->|Hne]; [by rewrite lookup_insert_eq|].
  by rewrite lookup_insert_ne.
Qed.

Lemma GetState_SetState a key v k b key' : addr_ok a -> addr_ok b ->
  vk_GetState (vk_SetState a key v k) b key' =
  if String.eqb a b && String.eqb key key' then (if len v =? 0 then zero_hash else BytesToHash v)
  else vk_GetState k b key'.
Proof.
  intros Ha Hb. unfold vk_GetState, vk_SetState. simpl. rewrite kv_get_insert.
  destruct (String.eqb_spec (StateKey a key) (StateKey b key')) as [He|Hne].
  - apply StateKey_inj in He as [-> ->]; [|done..]. by rewrite !String.eqb_refl.
  - destruct (String.eqb_spec a b) as [->|]; [|done]. destruct (String.eqb_spec key key') as [->|]; [done|done].
Qed.

Lemma GetFastState_SetState a key v k b key' : addr_ok a -> addr_ok b ->
  vk_GetFastState (vk_SetState a key v k) b key' =
  if String.eqb a b && String.eqb key key' then Some v else vk_GetFastState k b key'.
Proof.
  intros Ha Hb. unfold vk_GetFastState, vk_SetState. simpl.
  destruct (decide (StateKey a key = StateKey b key')) as [He|Hne].
  - rewrite He, lookup_insert_eq. apply StateKey_inj in He as [-> ->]; [|done..]. by rewrite !String.eqb_refl.
  - rewrite lookup_insert_ne by done. destruct (String.eqb_spec a b) as [->|]; [|done].
    destruct (String.eqb_spec key key') as [->|]; [done|done].
Qed.

(** [GetState] reads the entry of the slot. *)
Definition slot_value (e : option bytes) : hash :=
  match e with Some v => if len v =? 0 then zero_hash else BytesToHash v | None => zero_hash end.

Lemma GetState_fast k a key : vk_GetState k a key = slot_value (vk_GetFastState k a key).
Proof.
  unfold vk_GetState, vk_GetFastState, kv_get, slot_value. by destruct (vk_store k !! StateKey a key).
Qed.

Lemma GetCodeHash_SetState a key v k b : vk_GetCodeHash (vk_SetState a key v k) b = vk_GetCodeHash k b.
Proof. unfold vk_GetCodeHash, vk_SetState. simpl. by rewrite kv_get_insert. Qed.

Lemma GetCode_SetState a key v k h : vk_GetCode (vk_SetState a key v k) h = vk_GetCode k h.
Proof. unfold vk_GetCode, vk_SetState. simpl. by rewrite lookup_insert_ne. Qed.

Lemma GetCodeHash_length k a : hash_ok (vk_GetCodeHash k a).
Proof. unfold vk_GetCodeHash, hash_ok. destruct (len _ =? 0); apply BytesToHash_length. Qed.

(** ** The account of an address *)

(** Nothing that makes up the account of [b] differs. *)
Record same_account k k' b : Prop := {
  sa_auth : auth_GetAccount (vk_world k') b = auth_GetAccount (vk_world k) b;
  sa_bank : wrap_GetBalance info k' b = wrap_GetBalance info k b;
  sa_hash : vk_GetCodeHash k' b = vk_GetCodeHash k b;
}.

#[export] Instance same_account_equivalence : PreOrder (fun k k' => forall b, same_account k k' b).
Proof.
  split; [intros k b; by constructor|]. intros k1 k2 k3 H1 H2 b. destruct (H1 b), (H2 b). constructor; congruence.
Qed.

Lemma lockedCoin_same k k' b d : auth_GetAccount (vk_world k') b = auth_GetAccount (vk_world k) b ->
  bank_LockedCoins (vk_world k') b d = bank_LockedCoins (vk_world k) b d.
Proof. intros H. by rewrite !bank_locked, H. Qed.

Lemma same_account_get k k' b : same_account k k' b -> vk_GetAccount k' b = vk_GetAccount k b.
Proof.
  intros [Ha Hb Hh]. unfold VmKeeper.vk_GetAccount, vk_SpendableCoin, vk_lockedCoin, wrap_SpendableCoin.
  rewrite Ha, Hh, !bank_spendable, !(lockedCoin_same k k') by done.
  unfold wrap_GetBalance in Hb. by rewrite Hb.
Qed.

Lemma same_account_trans k1 k2 k3 b : same_account k1 k2 b -> same_account k2 k3 b -> same_account k1 k3 b.
Proof. intros [] []. constructor; congruence. Qed.

Lemma SetState_same a key v k b : same_account k (vk_SetState a key v k) b.
Proof. constructor; [done..|apply GetCodeHash_SetState]. Qed.

Lemma SetCode_same h c k b : same_account k (vk_SetCode h c k) b.
Proof. constructor; [done..|]. unfold vk_GetCodeHash, vk_SetCode. simpl. by rewrite kv_get_insert. Qed.

Lemma kv_get_delete (kv : KVStore) i j : kv_get (delete i kv) j = if String.eqb i j then EmptyString else kv_get kv j.
Proof.
  unfold kv_get. destruct (String.eqb_spec i j) as [->|Hne]; [by rewrite lookup_delete_eq|].
  by rewrite lookup_delete_ne.
Qed.

Lemma DeleteCode_same h k b : same_account k (vk_DeleteCode h k) b.
Proof. constructor; [done..|]. unfold vk_GetCodeHash, vk_DeleteCode. simpl. by rewrite kv_get_delete. Qed.

(** ** Setting a balance *)

Lemma wrap_SetBalance_ok a amt k evs k' : wrap_SetBalance info a amt k = (Ok evs, k') ->
  vk_store k' = vk_store k /\
  (forall b, auth_GetAccount (vk_world k') b = auth_GetAccount (vk_world k) b) /\
  (forall b, wrap_GetBalance info k' b = if String.eqb a b then amt else wrap_GetBalance info k b).
Proof.
  unfold wrap_SetBalance, mbind', mlift. rewrite NewIntFromBigInt_spec. destruct (int_fits amt); [|done].
  unfold ConvertEvmCoinDenomToExtendedDenom, denom. simpl. rewrite String.eqb_refl. simpl.
  destruct (bank_UncheckedSetBalance _ _ _) as [r w] eqn:Hb. intros [= -> <-].
  apply bank_set_ok in Hb as [Hb Ha]. split_and!; [done|done|]. intros b. unfold wrap_GetBalance. simpl.
  rewrite Hb. simpl. rewrite String.eqb_refl. by rewrite andb_true_r.
Qed.

Lemma SetBalanceWithLocked_ok a amount locked k evs k' :
  vk_SetBalanceWithLocked info a (Some amount) locked k = (Ok evs, k') ->
  vk_store k' = vk_store k /\
  (forall b, auth_GetAccount (vk_world k') b = auth_GetAccount (vk_world k) b) /\
  (forall b, wrap_GetBalance info k' b = if String.eqb a b then amount + locked else wrap_GetBalance info k b).
Proof.
  unfold vk_SetBalanceWithLocked. unfold mbind', mreads. destruct (_ || _); [done|]. apply wrap_SetBalance_ok.
Qed.

(** The new or the stored account of [SetAccount]. *)
Definition opened a k : AuthAccount * VmState :=
  match auth_GetAccount (vk_world k) a with
  | Some acct => (acct, k)
  | None => let '(acct, w) := auth_NewAccount a (vk_world k) in (acct, set_world w k)
  end.

Lemma opened_ok a k : let '(acct, k1) := opened a k in
  vk_store k1 = vk_store k /\ (forall b, auth_GetAccount (vk_world k1) b = auth_GetAccount (vk_world k) b) /\
  (forall b, wrap_GetBalance info k1 b = wrap_GetBalance info k b) /\
  (forall d, match aa_vesting acct with Some v => vesting_locked v d | None => 0 end = bank_LockedCoins (vk_world k) a d).
Proof.
  unfold opened. destruct (auth_GetAccount (vk_world k) a) as [acct|] eqn:Ha.
  - split_and!; try done. intros d. by rewrite bank_locked, Ha.
  - destruct (auth_NewAccount a (vk_world k)) as [acct w] eqn:Hn.
    pose proof (auth_new_base a (vk_world k)) as [_ Hv]. rewrite Hn in Hv. simpl in Hv.
    split_and!; [done| | |].
    + intros b. pose proof (auth_get_new a (vk_world k) b) as H. by rewrite Hn in H.
    + intros b. pose proof (bank_new_account a (vk_world k) b (ci_ExtendedDenom info)) as H. by rewrite Hn in H.
    + intros d. by rewrite bank_locked, Ha, Hv.
Qed.

(** What [SetAccount] leaves in the store, the accounts and the balances. *)
Lemma SetAccount_raw a nonce amount h l k evs k' : (l = None \/ l = Some (vk_lockedCoin info k a)) ->
  vk_SetAccount a (MkAccount nonce (Some amount) (Some h) l) k = (Ok evs, k') ->
  exists acct,
    vk_store k' = (if IsEmptyCodeHash h then delete (CodeHashKey a) (vk_store k)
                   else <[CodeHashKey a := h]> (vk_store k)) /\
    (forall b, auth_GetAccount (vk_world k') b =
       if String.eqb a b then Some (with_sequence nonce acct) else auth_GetAccount (vk_world k) b) /\
    (forall b, wrap_GetBalance info k' b =
       if String.eqb a b then amount + vk_lockedCoin info k a else wrap_GetBalance info k b) /\
    (forall d, match aa_vesting acct with Some v => vesting_locked v d | None => 0 end = bank_LockedCoins (vk_world k) a d).
Proof.
  intros Hl. unfold VmKeeper.vk_SetAccount. pose proof (opened_ok a k) as Hop.
  unfold mbind' at 1. destruct (opened a k) as [acct k1] eqn:Ho.
  assert ((match auth_GetAccount (vk_world k) a with
    | Some acct => (Ok acct, k)
    | None => let '(acct, w) := auth_NewAccount a (vk_world k) in (Ok acct, set_world w k)
    end) = (Ok acct, k1)) as ->.
  { unfold opened in Ho. destruct (auth_GetAccount (vk_world k) a); [by simplify_eq|].
    destruct (auth_NewAccount a (vk_world k)). by simplify_eq. }
  destruct Hop as (Hst & Hau & Hba & Hve). unfold mbind', mmodify. cbv beta iota. cbn [ac_CodeHash ac_Nonce].
  set (k2 := set_world _ _). intros Hset. exists acct.
  assert (vk_SetBalanceWithLocked info a (Some amount) (vk_lockedCoin info k a) k2 = (Ok evs, k')) as H.
  { destruct Hl as [->| ->]; [|exact Hset]. unfold vk_SetAccountBalance, vk_SetBalance, mbind', mreads in Hset. simpl in Hset.
    rewrite <- Hset. f_equal. unfold vk_lockedCoin. rewrite <- Hve, bank_locked. subst k2. simpl.
    by rewrite auth_get_set, String.eqb_refl. }
  apply SetBalanceWithLocked_ok in H as (-> & Ha3 & Hb3). split_and!; [| | |exact Hve].
  - subst k2. destruct (IsEmptyCodeHash h); simpl; by rewrite Hst.
  - intros b. rewrite Ha3. subst k2. simpl. rewrite auth_get_set. destruct (String.eqb a b); [done|].
    destruct (IsEmptyCodeHash h); simpl; apply Hau.
  - intros b. rewrite Hb3. destruct (String.eqb a b); [done|]. unfold wrap_GetBalance in Hba |- *. subst k2. simpl.
    rewrite bank_set_account. destruct (IsEmptyCodeHash h); simpl; apply Hba.
Qed.

Lemma code_hash_written a h (kv : KVStore) w b : hash_ok h ->
  vk_GetCodeHash (MkVmState (if IsEmptyCodeHash h then delete (CodeHashKey a) kv else <[CodeHashKey a := h]> kv) w : VmState) b =
  if String.eqb a b then h else vk_GetCodeHash (MkVmState kv w : VmState) b.
Proof.
  intros Hh. unfold vk_GetCodeHash. simpl.
  assert (String.eqb (CodeHashKey a) (CodeHashKey b) = String.eqb a b) as Heq.
  { destruct (String.eqb_spec a b) as [->|Hne]; [apply String.eqb_refl|]. apply String.eqb_neq.
    by intros ?%CodeHashKey_inj. }
  destruct (IsEmptyCodeHash h) eqn:He.
  - rewrite kv_get_delete, Heq. destruct (String.eqb a b); [|done]. apply String.eqb_eq in He as <-. simpl.
    by apply BytesToHash_id.
  - rewrite kv_get_insert, Heq. destruct (String.eqb a b); [|done]. unfold len. rewrite Hh. simpl.
    by apply BytesToHash_id.
Qed.

(** What [SetAccount] means: the account reads back as it was written, with the
    locked part of its balance on top; storage, code and the other accounts are
    untouched. *)
Lemma SetAccount_writes a nonce amount h l k evs k' : ci_Denom info = ci_ExtendedDenom info -> hash_ok h -> 0 <= amount < two256 ->
  (l = None \/ l = Some (vk_lockedCoin info k a)) ->
  vk_SetAccount a (MkAccount nonce (Some amount) (Some h) l) k = (Ok evs, k') ->
  vk_GetAccount k' a = Some (MkAccount nonce (Some amount) (Some h) (Some (vk_lockedCoin info k a))) /\
  (forall b, b <> a -> same_account k k' b) /\
  (forall b key, vk_GetFastState k' b key = vk_GetFastState k b key) /\
  (forall c, vk_GetCode k' c = vk_GetCode k c).
Proof.
  intros Hinfo Hh Hamt Hl H. destruct (SetAccount_raw _ _ _ _ _ _ _ _ Hl H) as (acct & Hs & Ha & Hb & Hv).
  assert (forall b, vk_GetCodeHash k' b = if String.eqb a b then h else vk_GetCodeHash k b) as Hhash.
  { intros b. pose proof (code_hash_written a h (vk_store k) (vk_world k') b Hh) as Hc.
    rewrite <- Hs in Hc. by destruct k'. }
  assert (forall d, bank_LockedCoins (vk_world k') a d = bank_LockedCoins (vk_world k) a d) as Hlk.
  { intros d. rewrite (bank_locked (vk_world k')), Ha, String.eqb_refl. simpl. apply Hv. }
  split_and!.
  - unfold VmKeeper.vk_GetAccount. rewrite Ha, String.eqb_refl, Hhash, String.eqb_refl. simpl.
    unfold vk_SpendableCoin, wrap_SpendableCoin, vk_lockedCoin. rewrite bank_spendable, !Hlk.
    specialize (Hb a). rewrite String.eqb_refl in Hb. unfold wrap_GetBalance in Hb. rewrite Hb.
    unfold vk_lockedCoin, denom. rewrite Hinfo. rewrite Z.add_simpl_r, Z.max_r by lia.
    unfold Uint256FromBigInt. by rewrite (proj2 (Z.ltb_ge _ _)), (proj2 (Z.leb_gt _ _)) by lia.
  - intros b Hne. apply String.eqb_neq in Hne. rewrite String.eqb_sym in Hne.
    constructor; [by rewrite Ha, Hne|by rewrite Hb, Hne|by rewrite Hhash, Hne].
  - intros b key. unfold vk_GetFastState. rewrite Hs. destruct (IsEmptyCodeHash h).
    + by rewrite lookup_delete_ne.
    + by rewrite lookup_insert_ne.
  - intros c. unfold vk_GetCode. rewrite Hs. destruct (IsEmptyCodeHash h).
    + by rewrite lookup_delete_ne.
    + by rewrite lookup_insert_ne.
Qed.

(** ** Deleting an account *)

(** Every storage key of the store is an address and a slot. *)
Definition storage_keys_ok k : Prop := forall a t v,
  addr_ok a -> vk_store k !! (AddressStoragePrefix a +:+ t)%string = Some v -> hash_ok t.

Lemma PrefixIterator_elem (kv : KVStore) p key v :
  (key, v) ∈ PrefixIterator kv p <-> has_prefix p key = true /\ kv !! key = Some v.
Proof.
  unfold PrefixIterator. rewrite merge_sort_Permutation, list_elem_of_filter, elem_of_map_to_list. done.
Qed.

Lemma fold_delete a keys k : 
  (fold_left (fun k key => vk_DeleteState a key k) keys k) =
  set_store (fold_left (fun kv key => delete (StateKey a key) kv) keys (vk_store k)) k.
Proof. revert k. induction keys as [|key keys IH]; intros k; simpl; [by destruct k|]. by rewrite IH. Qed.

Lemma fold_delete_lookup a (keys : list hash) (kv : KVStore) i :
  fold_left (fun kv key => delete (StateKey a key) kv) keys kv !! i =
  if bool_decide (i ∈ StateKey a <$> keys) then None else kv !! i.
Proof.
  revert kv. induction keys as [|key keys IH]; intros kv; [done|]. simpl. rewrite IH.
  destruct (decide (i = StateKey a key)) as [->|Hne].
  - rewrite lookup_delete_eq. rewrite (bool_decide_eq_true_2 (_ ∈ _ :: _)) by constructor. by case_bool_decide.
  - rewrite lookup_delete_ne by done. rewrite (bool_decide_ext (i ∈ StateKey a key :: _) (i ∈ StateKey a <$> keys)); [done|].
    set_solver.
Qed.

(** The slots the loop of [DeleteAccount] visits are those of the account. *)
Lemma visited_slots a k key : addr_ok a -> storage_keys_ok k ->
  is_Some (vk_store k !! StateKey a key) -> key ∈ map fst (vk_ForEachStorage k a).
Proof.
  intros Ha Hk [v Hv]. apply list_elem_of_fmap. exists (key, BytesToHash v). split; [done|].
  apply list_elem_of_fmap. exists (StateKey a key, v). split.
  - unfold StateKey. by rewrite BytesToHash_app by (by eapply Hk).
  - apply PrefixIterator_elem. split; [|done]. apply has_prefix_iff. by exists key.
Qed.

(** What [DeleteAccount] leaves in the store, the accounts and the balances. *)
Lemma DeleteAccount_raw a k acct evs k' : auth_GetAccount (vk_world k) a = Some acct ->
  vk_DeleteAccount a k = (Ok evs, k') ->
  vk_store k' = delete (CodeHashKey a)
    (fold_left (fun kv key => delete (StateKey a key) kv) (map fst (vk_ForEachStorage k a)) (vk_store k)) /\
  (forall b, auth_GetAccount (vk_world k') b = if String.eqb a b then None else auth_GetAccount (vk_world k) b) /\
  (forall b, wrap_GetBalance info k' b = if String.eqb a b then 0 else wrap_GetBalance info k b).
Proof.
  intros Hacct. unfold VmKeeper.vk_DeleteAccount. rewrite Hacct. unfold mguard, mlift, oguard.
  unfold mbind' at 1. destruct (vk_IsContract ParseDelegation k a); [|done].
  unfold mbind', mmodify, mreads. cbv beta iota. set (k1 := set_world _ k).
  destruct (vk_SetBalanceWithLocked info a (Some 0) 0 k1) as [[evs1| |] k2] eqn:Hset; try done.
  apply SetBalanceWithLocked_ok in Hset as (Hs & Hau & Hba). intros [= <- <-].
  rewrite fold_delete. split_and!.
  - simpl. unfold vk_ForEachStorage. rewrite Hs. done.
  - intros b. simpl. rewrite auth_get_remove, Hau. subst k1. simpl. rewrite auth_get_set.
    by destruct (String.eqb a b).
  - intros b. unfold wrap_GetBalance in Hba |- *. simpl. rewrite bank_remove_account, Hba.
    destruct (String.eqb a b); [done|]. subst k1. simpl. apply bank_set_account.
Qed.

Lemma DeleteAccount_erases a k acct evs k' : addr_ok a -> storage_keys_ok k ->
  auth_GetAccount (vk_world k) a = Some acct -> vk_DeleteAccount a k = (Ok evs, k') ->
  vk_GetAccount k' a = None /\ wrap_GetBalance info k' a = 0 /\
  (forall key, vk_GetFastState k' a key = None) /\ vk_GetCodeHash k' a = BytesToHash EmptyCodeHash /\
  (forall b, addr_ok b -> b <> a -> same_account k k' b /\ forall key, vk_GetFastState k' b key = vk_GetFastState k b key) /\
  (forall h, vk_GetCode k' h = vk_GetCode k h).
Proof.
  intros Ha Hk Hacct H. destruct (DeleteAccount_raw a k acct evs k' Hacct H) as (Hs & Hau & Hba).
  set (keys := map fst (vk_ForEachStorage k a)) in *.
  assert (forall i, i <> CodeHashKey a -> vk_store k' !! i =
    if bool_decide (i ∈ StateKey a <$> keys) then None else vk_store k !! i) as Hl.
  { intros i Hi. by rewrite Hs, lookup_delete_ne, fold_delete_lookup by done. }
  split_and!.
  - unfold VmKeeper.vk_GetAccount. by rewrite Hau, String.eqb_refl.
  - by rewrite Hba, String.eqb_refl.
  - intros key. unfold vk_GetFastState. rewrite Hl by done. case_bool_decide as Hin; [done|].
    destruct (vk_store k !! StateKey a key) eqn:Hv; [|done]. exfalso. apply Hin.
    apply list_elem_of_fmap. exists key. split; [done|]. by apply visited_slots.
  - unfold vk_GetCodeHash. by rewrite Hs, kv_get_delete, String.eqb_refl.
  - intros b Hb Hne. pose proof Hne as Hn. apply String.eqb_neq in Hn. rewrite String.eqb_sym in Hn. split.
    + constructor; [by rewrite Hau, Hn|by rewrite Hba, Hn|].
      unfold vk_GetCodeHash, kv_get. rewrite Hl by (by intros ?%CodeHashKey_inj).
      rewrite bool_decide_eq_false_2; [done|]. by intros (key & ? & _)%list_elem_of_fmap.
    + intros key. unfold vk_GetFastState. rewrite Hl by done. rewrite bool_decide_eq_false_2; [done|].
      intros (key' & He & _)%list_elem_of_fmap. by apply StateKey_inj in He as [-> _].
  - intros h. unfold vk_GetCode. rewrite Hl by done. rewrite bool_decide_eq_false_2; [done|].
    by intros (key & ? & _)%list_elem_of_fmap.
Qed.

(** ** Block hashes *)

Lemma uint64_key_inj x y : is_u64 x -> is_u64 y -> uint64_key x = uint64_key y -> x = y.
Proof.
  intros Hx Hy H%string_app_inj_l. apply (f_equal be_value) in H. rewrite !Uint64_PutUint64 in H.
  by rewrite !u64_small in H.
Qed.

Lemma uint64_key_ok x : hash_ok (uint64_key x).
Proof. unfold hash_ok, uint64_key. by rewrite string_app_length, PutUint64_length. Qed.

Definition window_of (servedWindow : Z) : Z := if 0 <? servedWindow then servedWindow else DefaultHistoryServeWindow.

(** Heights less than a window apart have slots of their own. *)
Lemma history_key_inj w h h' : 0 <= w < two64 -> 0 <= h -> 0 <= h' -> Z.abs (h - h') < window_of w ->
  history_key w h = history_key w h' -> h = h'.
Proof.
  intros Hw Hh Hh' Hd. unfold history_key, window_of in *.
  set (n := if 0 <? w then w else DefaultHistoryServeWindow) in *.
  assert (0 < n < two64) as Hn.
  { subst n. unfold DefaultHistoryServeWindow, two64. destruct (Z.ltb_spec 0 w); unfold two64 in *; lia. }
  pose proof (Z.mod_pos_bound h n ltac:(lia)). pose proof (Z.mod_pos_bound h' n ltac:(lia)).
  intros He%uint64_key_inj; [|unfold is_u64; lia..].
  pose proof (Z.div_mod h n ltac:(lia)). pose proof (Z.div_mod h' n ltac:(lia)).
  destruct (Z.lt_trichotomy (h / n) (h' / n)) as [Hq|[Hq|Hq]]; [nia|rewrite <- Hq in *; lia|nia].
Qed.

(** The blocks from a height on, each recording its parent's hash. *)
Fixpoint record_headers (A : addr) (w h : Z) (hashes : list bytes) k : VmState :=
  match hashes with
  | [] => k
  | x :: l => record_headers A w (h + 1) l (SetHeaderHash ParseDelegation info A w h x k)
  end.

Lemma SetHeaderHash_live A w h x k : is_Some (vk_GetAccount k A) -> vk_IsContract ParseDelegation k A = true ->
  let k' := SetHeaderHash ParseDelegation info A w h x k in
  k' = vk_SetState A (history_key w (u64 h)) x k /\ is_Some (vk_GetAccount k' A) /\ vk_IsContract ParseDelegation k' A = true.
Proof.
  intros [acc Hacc] Hc. unfold SetHeaderHash. rewrite Hacc, Hc. simpl. split; [done|].
  rewrite (same_account_get k) by apply SetState_same. split; [by exists acc|].
  unfold vk_IsContract in *. by rewrite GetCodeHash_SetState, GetCode_SetState.
Qed.

(** Later blocks leave a recorded hash alone until the window has passed. *)
Lemma header_kept A w h x l h' k : addr_ok A -> 0 <= w < two64 -> 0 <= h -> h < h' ->
  h' + Z.of_nat (length l) - h <= window_of w -> h' + Z.of_nat (length l) < two64 ->
  vk_GetState k A (history_key w h) = x -> is_Some (vk_GetAccount k A) -> vk_IsContract ParseDelegation k A = true ->
  GetHeaderHash A w h (record_headers A w h' l k) = x.
Proof.
  intros HA Hw Hh. revert h' k. induction l as [|z l IH]; intros h' k Hlt Hle Hb Hx Ha Hc; [done|]. simpl in *.
  destruct (SetHeaderHash_live A w h' z k Ha Hc) as (Hk' & Ha' & Hc'). apply IH; try lia; try done.
  rewrite Hk', GetState_SetState by done. rewrite String.eqb_refl. cbn [andb].
  rewrite (proj2 (String.eqb_neq _ _)); [done|]. rewrite u64_small by (unfold is_u64; lia).
  intros He%history_key_inj; lia.
Qed.

Lemma headers_readable A w h hashes k i x : addr_ok A -> 0 <= w < two64 -> 0 <= h ->
  h + Z.of_nat (length hashes) < two64 -> Forall (fun x => hash_ok x) hashes ->
  is_Some (vk_GetAccount k A) -> vk_IsContract ParseDelegation k A = true ->
  hashes !! i = Some x -> Z.of_nat (length hashes) - Z.of_nat i <= window_of w ->
  GetHeaderHash A w (h + Z.of_nat i) (record_headers A w h hashes k) = x.
Proof.
  intros HA Hw. revert h k i. induction hashes as [|y l IH]; intros h k i Hh Hlen Hok Hacc Hc Hi Hwin; [done|].
  apply Forall_cons in Hok as [Hy Hok]. simpl in Hlen, Hwin. simpl.
  destruct (SetHeaderHash_live A w h y k Hacc Hc) as (Hk' & Hacc' & Hc').
  destruct i as [|i].
  - injection Hi as ->. rewrite Hk' in *. clear IH Hacc Hc Hk'. rewrite Z.add_0_r.
    assert (vk_GetState (vk_SetState A (history_key w (u64 h)) x k) A (history_key w h) = x) as Hx.
    { rewrite GetState_SetState by done. rewrite u64_small by (unfold is_u64; lia). rewrite !String.eqb_refl. cbn [andb].
      unfold len. rewrite Hy. by apply BytesToHash_id. }
    apply header_kept; try done; lia.
  - simpl in Hi. replace (h + Z.of_nat (Datatypes.S i)) with (h + 1 + Z.of_nat i) by lia. apply IH; try done; lia.
Qed.
End facts.
