(* ===== verification/StateDBCommit.v ===== *)
(** * x/vm: what Commit persists

    The state database on top of the keeper of x/vm: after [Commit], the keeper
    shows for every written account what the EVM saw of it, and every other
    account as it was. *)

From Stdlib Require Import ZArith Lia List String Ascii Bool.
From stdpp Require Import base gmap strings list sorting.
From S2P Require Import Prelude GoStrings Sdk EvmCoin AccessList SnapshotStore StateDB StateDBFacts Precompile VmKeeper VmKeeperFacts StateDBRevert.
Local Open Scope Z_scope.
Local Open Scope go_scope.

Lemma sorted_keys_elem {V} (m : gmap string V) i : i ∈ sorted_keys m <-> is_Some (m !! i).
Proof.
  unfold sorted_keys. rewrite merge_sort_Permutation, list_elem_of_fmap. split.
  - intros ([j v] & -> & H%elem_of_map_to_list). simpl. eauto.
  - intros [v Hv]. exists (i, v). by rewrite elem_of_map_to_list.
Qed.

Lemma sorted_keys_NoDup {V} (m : gmap string V) : NoDup (sorted_keys m).
Proof. unfold sorted_keys. rewrite merge_sort_Permutation. apply NoDup_fst_map_to_list. Qed.

Section commit.
Context {Ma : SdkMath} {Ty : SdkTypes} {Cr : EthCrypto} {W : Type} {Ab : AuthBank W} {Al : AuthBankLaws W}.
Context (ParseDelegation : bytes -> bool) (info : EvmCoinInfo) (Hinfo : ci_Denom info = ci_ExtendedDenom info).
Context {S : Type} {Sn : Snapshotter S (VmState W)} {Cc : CacheContext S (VmState W)}.
Abbreviation VmState := (VmState W).
#[local] Instance keeper : StateKeeper VmState := vk_StateKeeper ParseDelegation info.
Abbreviation StateDB := (StateDB VmState S).
Implicit Types (s : StateDB) (o : stateObject) (a b : addr) (k : VmState).

(** ** One object *)

(** An object as the operations of the state database leave it, on a context
    that shows the account with [locked] coins locked. *)
Record committable (locked : Z) a o : Prop := {
  cm_addr : addr_ok a;
  cm_address : so_address o = a;
  cm_account : exists n z h l, so_account o = MkAccount n (Some z) (Some h) l /\
    0 <= z < two256 /\ hash_ok h /\ (l = None \/ l = Some locked);
  cm_dirty key v : so_dirtyStorage o !! key = Some v -> hash_ok key /\ hash_ok v;
}.

Lemma commit_slots o keys k : addr_ok (so_address o) ->
  (forall key, key ∈ keys -> exists v, so_dirtyStorage o !! key = Some v /\ hash_ok v) ->
  let k' := fold_left (commit_slot o) keys k in
  (forall b, same_account info k k' b) /\
  (forall b key, addr_ok b -> vk_GetFastState k' b key =
     if bool_decide (b = so_address o /\ key ∈ keys) then so_dirtyStorage o !! key
     else vk_GetFastState k b key).
Proof.
  intros Ha. revert k. induction keys as [|i keys IH]; intros k Hk.
  - split; [intros b; by constructor|]. intros b key Hb. rewrite bool_decide_eq_false_2; [done|]. set_solver.
  - destruct (Hk i) as (v & Hv & Hlen); [left|].
    assert (commit_slot o k i = vk_SetState (so_address o) i v k) as Hi.
    { unfold commit_slot, Hash_Bytes. rewrite Hv. simpl. unfold len. by rewrite Hlen. }
    simpl. rewrite Hi. destruct (IH (vk_SetState (so_address o) i v k)) as [Hs Hg]; [intros; apply Hk; by right|].
    split; [intros b; eapply same_account_trans; [apply SetState_same|apply Hs]|].
    intros b key Hb. rewrite Hg, GetFastState_SetState by done.
    destruct (decide (b = so_address o)) as [->|Hne].
    + rewrite String.eqb_refl. destruct (String.eqb_spec i key) as [->|Hik]; simpl.
      * rewrite (bool_decide_eq_true_2 (_ /\ key ∈ key :: keys)) by (split; [done|left]). rewrite Hv. by case_bool_decide.
      * rewrite (bool_decide_ext (_ /\ key ∈ i :: keys) (so_address o = so_address o /\ key ∈ keys)); [done|].
        set_solver.
    + rewrite !bool_decide_eq_false_2 by naive_solver. rewrite (proj2 (String.eqb_neq _ _)) by done. done.
Qed.

Lemma commit_code_same o k : (forall b, same_account info k (commit_code o k) b) /\
  (forall b key, vk_GetFastState (commit_code o k) b key = vk_GetFastState k b key) /\
  (storage_keys_ok k -> storage_keys_ok (commit_code o k)).
Proof.
  unfold commit_code. destruct (so_code o) as [c|]; [|by split_and!].
  destruct (so_dirtyCode o); [|by split_and!]. destruct (len c =? 0); simpl.
  - split_and!; [apply DeleteCode_same| |].
    + intros b key. unfold vk_GetFastState, vk_DeleteCode. simpl. by rewrite lookup_delete_ne.
    + intros Hk b t v Hb. unfold vk_DeleteCode. simpl. rewrite lookup_delete_ne by done. by apply Hk.
  - split_and!; [apply SetCode_same| |].
    + intros b key. unfold vk_GetFastState, vk_SetCode. simpl. by rewrite lookup_insert_ne.
    + intros Hk b t v Hb. unfold vk_SetCode. simpl. rewrite lookup_insert_ne by done. by apply Hk.
Qed.

Lemma commit_slots_keys o keys k : addr_ok (so_address o) ->
  (forall key, key ∈ keys -> hash_ok key /\ exists v, so_dirtyStorage o !! key = Some v /\ hash_ok v) ->
  storage_keys_ok k -> storage_keys_ok (fold_left (commit_slot o) keys k).
Proof.
  intros Ha. revert k. induction keys as [|i keys IH]; intros k Hk Hok; [done|]. simpl.
  destruct (Hk i) as (Hi & v & Hv & Hlen); [left|]. apply IH; [intros; apply Hk; by right|].
  unfold commit_slot, Hash_Bytes. rewrite Hv. simpl. unfold len. rewrite Hlen. simpl.
  intros b t x Hb. unfold vk_SetState. simpl. intros [[He _]|[_ Hx]]%lookup_insert_Some; [|by eapply Hok].
  by apply (StateKey_inj (so_address o) b i t Ha Hb) in He as [_ <-].
Qed.

Definition account_of (locked : Z) o : Account :=
  MkAccount (so_Nonce o) (Some (so_Balance o)) (Some (so_CodeHash o)) (Some locked).

(** The entry of a slot: the dirty value over the stored one. *)
Definition merged k a o (key : hash) : option bytes :=
  match so_dirtyStorage o !! key with Some v => Some v | None => vk_GetFastState k a key end.

(** An object that lives on is written to the keeper as the EVM saw it. *)
Lemma commit_live a o k evs k' : committable (vk_lockedCoin info k a) a o -> so_selfDestructed o = false ->
  commit_object o k = (Ok evs, k') ->
  vk_GetAccount info k' a = Some (account_of (vk_lockedCoin info k a) o) /\
  (forall b, b <> a -> same_account info k k' b) /\
  (forall b key, addr_ok b -> vk_GetFastState k' b key =
     if String.eqb a b then merged k a o key else vk_GetFastState k b key) /\
  (storage_keys_ok k -> storage_keys_ok k').
Proof.
  intros [Ha Hoa (n & z & h & l & Hacc & Hz & Hh & Hl) Hd] Hnd. unfold commit_object. rewrite Hnd, Hoa.
  destruct (commit_code_same o k) as (Hcs & Hcg & Hck). set (k1 := commit_code o k) in *.
  simpl. rewrite Hacc.
  destruct (vk_SetAccount info a (MkAccount n (Some z) (Some h) l) k1) as [[evs1| |] k2] eqn:Hset; try done.
  intros [= <- <-]. assert (vk_lockedCoin info k1 a = vk_lockedCoin info k a) as Hlk.
  { unfold vk_lockedCoin. apply lockedCoin_same, (Hcs a). }
  destruct (SetAccount_writes info a n z h l k1 evs1 k2 Hinfo) as (Hget & Hsame & Hst & _); [done..|by rewrite Hlk|done|].
  destruct (commit_slots o (sorted_keys (so_dirtyStorage o)) k2) as [Hs2 Hg2]; [by rewrite Hoa| |].
  { intros key [v Hv]%sorted_keys_elem. exists v. split; [done|]. by apply (Hd key v). }
  fold (commit_storage o k2) in Hs2, Hg2. split_and!.
  - rewrite (same_account_get info k2) by apply Hs2. rewrite Hget, Hlk. unfold account_of, so_Nonce, so_Balance, so_CodeHash.
    by rewrite Hacc.
  - intros b Hb. eapply same_account_trans; [apply Hcs|]. eapply same_account_trans; [by apply Hsame|apply Hs2].
  - intros b key Hb. rewrite Hg2, Hst, Hcg by done. destruct (String.eqb_spec a b) as [<-|Hne].
    + unfold merged. destruct (so_dirtyStorage o !! key) as [v|] eqn:Hv.
      * rewrite bool_decide_eq_true_2; [done|]. split; [by rewrite Hoa|]. apply sorted_keys_elem. eauto.
      * rewrite bool_decide_eq_false_2; [done|]. intros [_ [v' Hv']%sorted_keys_elem]. congruence.
    + rewrite bool_decide_eq_false_2; [done|]. rewrite Hoa. naive_solver.
  - intros Hok%Hck. apply commit_slots_keys; [by rewrite Hoa| |].
    + intros key [v Hv]%sorted_keys_elem. destruct (Hd key v Hv). eauto.
    + destruct (SetAccount_raw info a n z h l k1 evs1 k2) as (acct & Hstore & _); [by rewrite Hlk|done|].
      intros b t x Hb. rewrite Hstore. destruct (IsEmptyCodeHash h).
      * rewrite lookup_delete_ne by done. by apply Hok.
      * rewrite lookup_insert_ne by done. by apply Hok.
Qed.

Lemma DeleteAccount_dead a k evs k' : addr_ok a -> storage_keys_ok k ->
  vk_DeleteAccount ParseDelegation info a k = (Ok evs, k') ->
  vk_GetAccount info k' a = None /\
  (is_Some (vk_GetAccount info k a) -> forall key, vk_GetFastState k' a key = None) /\
  (forall b, addr_ok b -> b <> a -> same_account info k k' b /\ forall key, vk_GetFastState k' b key = vk_GetFastState k b key) /\
  storage_keys_ok k'.
Proof.
  intros Ha Hok H. destruct (auth_GetAccount (vk_world k) a) as [acct|] eqn:Hacct.
  - destruct (DeleteAccount_erases ParseDelegation info a k acct evs k' Ha Hok Hacct H) as (Hg & _ & Hz & _ & Ho & _).
    split_and!; [done|done|done|].
    destruct (DeleteAccount_raw ParseDelegation info a k acct evs k' Hacct H) as (Hs & _).
    intros b t v Hb. rewrite Hs, lookup_delete_ne, fold_delete_lookup by done. case_bool_decide; [done|]. by apply Hok.
  - unfold vk_DeleteAccount in H. rewrite Hacct in H. injection H as <- <-. unfold vk_GetAccount. rewrite Hacct.
    split_and!; [done|by intros [? ?]| |done]. intros b _ _. split; [by constructor|done].
Qed.

(** A self-destructed object is erased; code deployed in the same transaction
    is written first. *)
Lemma commit_dead a o k evs k' : committable (vk_lockedCoin info k a) a o -> so_selfDestructed o = true ->
  storage_keys_ok k -> commit_object o k = (Ok evs, k') ->
  vk_GetAccount info k' a = None /\
  (is_Some (vk_GetAccount info k a) -> forall key, vk_GetFastState k' a key = None) /\
  (forall b, addr_ok b -> b <> a -> same_account info k k' b /\ forall key, vk_GetFastState k' b key = vk_GetFastState k b key) /\
  storage_keys_ok k'.
Proof.
  intros [Ha Hoa (n & z & h & l & Hacc & Hz & Hh & Hl) Hd] Hdes Hok. unfold commit_object. rewrite Hdes, Hoa, Hacc.
  set (pre := match so_code o with Some _ => _ | None => _ end).
  assert (pre = (Ok [], k) \/ exists c, pre = vk_SetAccount info a (MkAccount n (Some z) (Some h) l) (vk_SetCode (so_CodeHash o) c k)) as Hpre.
  { subst pre. destruct (so_code o) as [c|]; [|by left]. destruct (_ && _); [right; by exists c|by left]. }
  destruct Hpre as [->|[c ->]].
  - simpl. destruct (vk_DeleteAccount ParseDelegation info a k) as [[evs2| |] k2] eqn:Hdel; try done.
    intros [= _ <-]. by eapply DeleteAccount_dead.
  - destruct (vk_SetAccount info a (MkAccount n (Some z) (Some h) l) (vk_SetCode (so_CodeHash o) c k)) as [[evs1| |] k1] eqn:Hset; try done.
    simpl. destruct (vk_DeleteAccount ParseDelegation info a k1) as [[evs2| |] k2] eqn:Hdel; try done. intros [= _ <-].
    assert (l = None \/ l = Some (vk_lockedCoin info (vk_SetCode (so_CodeHash o) c k) a)) as Hl' by done.
    destruct (SetAccount_writes info a n z h l _ evs1 k1 Hinfo Hh Hz Hl' Hset) as (Hget & Hsame & Hst & _).
    assert (storage_keys_ok k1) as Hok1.
    { destruct (SetAccount_raw info a n z h l _ evs1 k1 Hl' Hset) as (acct & Hs & _). intros b t v Hb. rewrite Hs. simpl.
      destruct (IsEmptyCodeHash h); [rewrite lookup_delete_ne by done|rewrite lookup_insert_ne by done];
        (rewrite lookup_insert_ne by done); by apply Hok. }
    destruct (DeleteAccount_dead a k1 evs2 k2 Ha Hok1 Hdel) as (Hn & Hz0 & Ho & Hok2). split_and!; try done.
    + intros _. apply Hz0. rewrite Hget. eauto.
    + intros b Hb Hne. destruct (Ho b Hb Hne) as [Hsa Hsg]. split.
      * eapply same_account_trans; [apply (SetCode_same info (so_CodeHash o) c k)|].
        eapply same_account_trans; [by apply Hsame|done].
      * intros key. rewrite Hsg, Hst. unfold vk_GetFastState, vk_SetCode. simpl. by rewrite lookup_insert_ne.
Qed.

(** ** All objects *)

(** What the keeper shows of an address after its object was committed. *)
Definition persisted k k' a o : Prop :=
  if so_selfDestructed o
  then vk_GetAccount info k' a = None /\
       (is_Some (vk_GetAccount info k a) -> forall key, vk_GetFastState k' a key = None)
  else vk_GetAccount info k' a = Some (account_of (vk_lockedCoin info k a) o) /\
       (forall key, vk_GetFastState k' a key = merged k a o key).

Definition untouched k k' b : Prop :=
  same_account info k k' b /\ forall key, vk_GetFastState k' b key = vk_GetFastState k b key.

Lemma commit_object_ok a o k evs k' : committable (vk_lockedCoin info k a) a o -> storage_keys_ok k ->
  commit_object o k = (Ok evs, k') ->
  persisted k k' a o /\ (forall b, addr_ok b -> b <> a -> untouched k k' b) /\ storage_keys_ok k'.
Proof.
  intros Hc Hok H. unfold persisted. destruct (so_selfDestructed o) eqn:Hd.
  - destruct (commit_dead a o k evs k' Hc Hd Hok H) as (? & ? & Ho & ?). split_and!; [done..| |done]. exact Ho.
  - destruct (commit_live a o k evs k' Hc Hd H) as (Hg & Hs & Hst & Hk). split_and!; [done| | |by apply (Hk Hok)].
    + intros key. by rewrite Hst, String.eqb_refl by apply Hc.
    + intros b Hb Hne. split; [by apply Hs|]. intros key. rewrite Hst by done.
      by rewrite (proj2 (String.eqb_neq _ _)) by done.
Qed.

Lemma lockedCoin_untouched k k' b : untouched k k' b -> vk_lockedCoin info k' b = vk_lockedCoin info k b.
Proof. intros [Hs _]. unfold vk_lockedCoin. apply lockedCoin_same, Hs. Qed.

Lemma persisted_later k k1 k' a o : untouched k k1 a -> persisted k1 k' a o -> persisted k k' a o.
Proof.
  intros Hu. pose proof Hu as [Hs Hg]. unfold persisted. rewrite (lockedCoin_untouched k k1 a Hu).
  rewrite (same_account_get info k k1 a Hs). destruct (so_selfDestructed o); [done|].
  intros [H1 H2]. split; [done|]. intros key. rewrite H2. unfold merged. by rewrite Hg.
Qed.

Lemma persisted_kept k k1 k' a o : untouched k1 k' a -> persisted k k1 a o -> persisted k k' a o.
Proof.
  intros [Hs Hg]. unfold persisted. rewrite (same_account_get info k1 k' a Hs).
  destruct (so_selfDestructed o); intros [H1 H2]; (split; [done|]).
  - intros Hex key. rewrite Hg. by apply H2.
  - intros key. by rewrite Hg.
Qed.

Lemma untouched_trans k1 k2 k3 b : untouched k1 k2 b -> untouched k2 k3 b -> untouched k1 k3 b.
Proof.
  intros [Hs1 Hg1] [Hs2 Hg2]. split; [by eapply same_account_trans|]. intros key. by rewrite Hg2.
Qed.

(** The loop of [commitWithCtx]: each object is persisted, and nothing else is
    touched. *)
Lemma commit_loop_ok (objects : gmap addr stateObject) l k evs r : NoDup l -> Forall addr_ok l ->
  (forall a o, a ∈ l -> objects !! a = Some o -> committable (vk_lockedCoin info k a) a o) ->
  storage_keys_ok k -> commit_loop objects l k evs = (Ok tt, r) ->
  (forall a, a ∈ l -> exists o, objects !! a = Some o /\ persisted k r.1 a o) /\
  (forall b, addr_ok b -> b ∉ l -> untouched k r.1 b) /\ storage_keys_ok r.1.
Proof.
  revert k evs. induction l as [|a l IH]; intros k evs Hnd Hl Hc Hok; simpl.
  - intros [= <-]. split_and!; [by intros a ?%not_elem_of_nil| |done]. intros b _ _. by split; [constructor|].
  - apply NoDup_cons in Hnd as [Hal Hnd]. apply Forall_cons in Hl as [Ha Hl].
    destruct (objects !! a) as [o|] eqn:Ho; [|done].
    destruct (commit_object o k) as [[new| |] k1] eqn:Hco; try done. intros Hr.
    destruct (commit_object_ok a o k new k1) as (Hp & Hu & Hok1); [apply Hc; [left|done]|done|done|].
    rewrite Forall_forall in Hl.
    assert (forall b, b ∈ l -> untouched k k1 b) as Hul by (intros b Hb; apply Hu; [by apply Hl|congruence]).
    destruct (IH k1 (evs ++ new)) as (Hpl & Hunt & Hokr); [done|by apply Forall_forall| |done|done|].
    { intros b o' Hb Ho'. rewrite (lockedCoin_untouched k k1 b) by by apply Hul. apply Hc; [by right|done]. }
    split_and!; [| |done].
    + intros b [->|Hb]%elem_of_cons.
      * exists o. split; [done|]. eapply persisted_kept; [|exact Hp]. by apply Hunt.
      * destruct (Hpl b Hb) as (o' & Ho' & Hp'). exists o'. split; [done|]. eapply persisted_later; [|exact Hp'].
        by apply Hul.
    + intros b Hb [Hne Hnl]%not_elem_of_cons. eapply untouched_trans; [by apply Hu|by apply Hunt].
Qed.

(** The objects the journal marks as dirty are in shape. *)
Definition dirty_ok s : Prop := forall a, is_Some (sd_dirties s !! a) ->
  addr_ok a /\ forall o, sd_objects s !! a = Some o -> committable (vk_lockedCoin info (sd_ctx s) a) a o.

Lemma Commit_ok s s' : sd_cache s = None -> storage_keys_ok (sd_ctx s) -> dirty_ok s ->
  StateDB_Commit s = (Ok tt, s') ->
  (forall a, is_Some (sd_dirties s !! a) -> exists o, sd_objects s !! a = Some o /\ persisted (sd_ctx s) (sd_ctx s') a o) /\
  (forall b, addr_ok b -> sd_dirties s !! b = None -> untouched (sd_ctx s) (sd_ctx s') b) /\
  storage_keys_ok (sd_ctx s').
Proof.
  intros Hc Hok Hd. unfold StateDB_Commit. rewrite Hc.
  destruct (commit_loop (sd_objects s) (sortedDirties s) (sd_ctx s) (sd_events s)) as [r [k evs]] eqn:Hl.
  intros [= -> <-]. edestruct (commit_loop_ok (sd_objects s) (sortedDirties s)) as (Hp & Hu & Hk); [| | | |exact Hl|].
  - apply sorted_keys_NoDup.
  - apply Forall_forall. intros a Ha%sorted_keys_elem. by apply Hd.
  - intros a o Ha%sorted_keys_elem. by apply Hd.
  - done.
  - simpl in *. split_and!; [| |done].
    + intros a Ha. apply Hp. by apply sorted_keys_elem.
    + intros b Hb Hn. apply Hu; [done|]. intros Hin%sorted_keys_elem. rewrite Hn in Hin. by destruct Hin.
Qed.
End commit.

(** ** x/vm: the states a transaction reaches are in shape

    Whatever operations of the interpreter run, with snapshots and reverts, the
    live objects stay such that [Commit] can write them, and the cached slots
    agree with the keeper. *)

Create HintDb reach.

Section reach.
Context {Ma : SdkMath} {Ty : SdkTypes} {Cr : EthCrypto} {Pl : PrecompileLibs} {W : Type} {Ab : AuthBank W}.
Context (ParseDelegation : bytes -> bool) (info : EvmCoinInfo) (coinInfo : option EvmCoinInfo).
Context (Hkeccak : forall l, String.length (Keccak256Hash l) = 32%nat).
Context {S : Type} {Sn : Snapshotter S (VmState W)} {Cc : CacheContext S (VmState W)}.
Abbreviation VmState := (VmState W).
#[local] Instance reach_keeper : StateKeeper VmState := vk_StateKeeper ParseDelegation info.
Abbreviation StateDB := (StateDB VmState S).
Abbreviation MS := (M StateDB).
Implicit Types (s : StateDB) (o : stateObject) (a b : addr) (k : VmState).

(** ** Objects and entries in shape, over a fixed context *)

Section shape.
Context (k0 : VmState).

Record good_obj a o : Prop := {
  go_commit : committable (vk_lockedCoin info k0 a) a o;
  go_origin key v : so_originStorage o !! key = Some v -> v = vk_GetState k0 a key;
  go_override : so_overrideStorage o = None;
}.

Definition entry_ok (e : JournalEntry) : Prop :=
  match e with
  | balanceChange a prev => addr_ok a /\ 0 <= prev < two256
  | storageChange a key prev => addr_ok a /\ hash_ok key /\ hash_ok prev
  | precompileCallChange _ _ _ => False
  | createObjectChange a | selfDestructChange a | nonceChange a _ | codeChange a _ _ | createContractChange a
  | transientStorageChange a _ _ => addr_ok a
  | refundChange _ | addLogChange | accessListAddAccountChange _ | accessListAddSlotChange _ _ => True
  end.

Record good s : Prop := {
  gd_ctx : sd_ctx s = k0;
  gd_cache : sd_cache s = None;
  gd_objects a o : sd_objects s !! a = Some o -> good_obj a o;
  gd_entries : Forall entry_ok (sd_entries s);
  gd_dirties a : is_Some (sd_dirties s !! a) -> addr_ok a;
}.

Definition hoare {A} (m : MS A) (Q : A -> Prop) : Prop :=
  forall s, good s -> forall r s', m s = (r, s') -> good s' /\ (forall x, r = Ok x -> Q x).

Lemma hoare_bind {A B} (m : MS A) (f : A -> MS B) Q Q' :
  hoare m Q -> (forall x, Q x -> hoare (f x) Q') -> hoare (mbind' m f) Q'.
Proof.
  intros Hm Hf s Hs r s' H. unfold mbind' in H. destruct (m s) as [r1 s1] eqn:Hms.
  destruct (Hm s Hs r1 s1 Hms) as [H1 HQ]. destruct r1 as [x| |]; [|by simplify_eq..].
  by apply (Hf x (HQ x eq_refl) s1 H1).
Qed.

Lemma hoare_ret {A} (x : A) (Q : A -> Prop) : Q x -> hoare (mret x) Q.
Proof. intros HQ s Hs r s' [= <- <-]. split; [done|]. by intros ? [= <-]. Qed.

Lemma hoare_reads {A} (f : StateDB -> A) (Q : A -> Prop) : (forall s, good s -> Q (f s)) -> hoare (mreads f) Q.
Proof. intros HQ s Hs r s' [= <- <-]. split; [done|]. intros ? [= <-]. by apply HQ. Qed.

Lemma hoare_panic {A} msg (Q : A -> Prop) : hoare (fun s => (Panic msg, s)) Q.
Proof. by intros s Hs r s' [= <- <-]. Qed.

Lemma hoare_modify f (Q : unit -> Prop) : Q tt -> (forall s, good s -> good (f s)) -> hoare (mmodify f) Q.
Proof. intros HQ Hf s Hs r s' [= <- <-]. split; [by apply Hf|]. by intros [] _. Qed.

Lemma hoare_weaken {A} (m : MS A) (Q Q' : A -> Prop) : hoare m Q -> (forall x, Q x -> Q' x) -> hoare m Q'.
Proof. intros Hm HQ s Hs r s' H. destruct (Hm s Hs r s' H) as [? Hx]. split; [done|]. eauto. Qed.

Definition any {A} (_ : A) : Prop := True.

(** ** The setters of objects *)

Lemma good_setBalance a o z : 0 <= z < two256 -> good_obj a o -> good_obj a (so_setBalance z o).
Proof.
  intros Hz [[Ha Hoa (n & z' & h & l & Hacc & Hz' & Hh & Hl) Hd] Hor Hov]. constructor; [|done..].
  constructor; [done..| |done]. simpl. rewrite Hacc. by eexists _, _, _, _.
Qed.
Lemma good_setNonce a o n : good_obj a o -> good_obj a (so_setNonce n o).
Proof.
  intros [[Ha Hoa (n' & z' & h & l & Hacc & Hz' & Hh & Hl) Hd] Hor Hov]. constructor; [|done..].
  constructor; [done..| |done]. simpl. rewrite Hacc. by eexists _, _, _, _.
Qed.
Lemma good_setCode a o h c : hash_ok h -> good_obj a o -> good_obj a (so_setCode h c o).
Proof.
  intros Hh [[Ha Hoa (n' & z' & h' & l & Hacc & Hz' & Hh' & Hl) Hd] Hor Hov]. constructor; [|done..].
  constructor; [done..| |done]. simpl. rewrite Hacc. by eexists _, _, _, _.
Qed.
Lemma good_loadCode a o c : good_obj a o -> good_obj a (so_loadCode c o).
Proof. intros [[] ? ?]. constructor; [by constructor|done..]. Qed.
Lemma good_setState a o key v : hash_ok key -> hash_ok v -> good_obj a o -> good_obj a (so_setState key v o).
Proof.
  intros Hk Hv [[Ha Hoa Hacc Hd] Hor Hov]. constructor; [|done..]. constructor; [done..|]. simpl.
  intros i x [[<- <-]|[_ H]]%lookup_insert_Some; [done|by eapply Hd].
Qed.
Lemma good_cacheOrigin a o key : good_obj a o -> good_obj a (so_cacheOrigin key (vk_GetState k0 a key) o).
Proof.
  intros [[Ha Hoa Hacc Hd] Hor Hov]. constructor; [by constructor| |done]. simpl.
  intros i x [[<- <-]|[_ H]]%lookup_insert_Some; [done|by apply Hor].
Qed.
Lemma good_setDestructed a o (b : bool) : good_obj a o -> good_obj a (so_setDestructed b o).
Proof. intros [[] ? ?]. constructor; [by constructor|done..]. Qed.
Lemma good_setNewContract a o (b : bool) : good_obj a o -> good_obj a (so_setNewContract b o).
Proof. intros [[] ? ?]. constructor; [by constructor|done..]. Qed.

Lemma good_range a o : good_obj a o -> addr_ok a /\ 0 <= so_Balance o < two256 /\ hash_ok (so_CodeHash o) /\ so_address o = a.
Proof.
  intros [[Ha Hoa (n & z & h & l & Hacc & Hz & Hh & Hl) Hd] _ _]. unfold so_Balance, so_CodeHash. by rewrite Hacc.
Qed.

Lemma good_newObject a acc : addr_ok a -> vk_GetAccount info k0 a = Some acc -> good_obj a (newObject a acc).
Proof.
  intros Ha. unfold vk_GetAccount. destruct (auth_GetAccount (vk_world k0) a) as [aa|]; [|done]. intros [= <-].
  constructor; [|done..]. constructor; [done..| |done]. eexists _, _, _, _. split; [done|]. simpl. split_and!.
  - unfold vk_SpendableCoin, Uint256FromBigInt. destruct (Z.ltb_spec (wrap_SpendableCoin info k0 a) 0); [done|].
    destruct (Z.leb_spec two256 (wrap_SpendableCoin info k0 a)); [done|lia].
  - unfold vk_SpendableCoin, Uint256FromBigInt. destruct (Z.ltb_spec (wrap_SpendableCoin info k0 a) 0); [done|].
    destruct (Z.leb_spec two256 (wrap_SpendableCoin info k0 a)); [done|lia].
  - apply GetCodeHash_length.
  - by right.
Qed.

Lemma good_zero a : addr_ok a -> good_obj a (newObject a zeroAccount).
Proof.
  intros Ha. constructor; [|done..]. constructor; [done..| |done]. eexists _, _, _, _. split; [done|].
  split_and!; [done|done|apply Hkeccak|by left].
Qed.

(** ** The primitives *)

Lemma hoare_put a o : good_obj a o -> hoare (setStateObject o) any.
Proof.
  intros Ho. apply hoare_modify; [done|]. intros s [Hc Hca Hob He Hd]. constructor; try done. simpl.
  destruct (good_range a o Ho) as (_ & _ & _ & ->). intros b o' [[<- <-]|[_ H]]%lookup_insert_Some; [done|by apply Hob].
Qed.

Lemma dirtied_ok e a : entry_ok e -> Dirtied e = Some a -> addr_ok a.
Proof. destruct e; simpl; intros He H; simplify_eq; first [done|apply He]. Qed.

Lemma hoare_append e : entry_ok e -> hoare (journal_append e) any.
Proof.
  intros He. apply hoare_modify; [done|]. intros s [Hc Hca Hob Hes Hd]. constructor; try done; simpl.
  - apply Forall_app. split; [done|by repeat constructor].
  - intros b. destruct (Dirtied e) as [a|] eqn:Hde; [|apply Hd]. unfold bump.
    destruct (decide (b = a)) as [->|Hne]; [|rewrite lookup_insert_ne by done; apply Hd].
    intros _. by eapply dirtied_ok.
Qed.

Lemma hoare_get a : addr_ok a -> hoare (getStateObject a) (fun r => forall o, r = Some o -> good_obj a o).
Proof.
  intros Ha s Hs r s'. unfold getStateObject. pose proof Hs as [Hc Hca Hob Hes Hd].
  destruct (sd_objects s !! a) as [o|] eqn:Ho.
  - intros [= <- <-]. split; [done|]. intros x [= <-] o' [= <-]. by apply Hob.
  - simpl. rewrite Hc. destruct (vk_GetAccount info k0 a) as [acc|] eqn:Hacc; intros [= <- <-].
    + pose proof (good_newObject a acc Ha Hacc) as Hn. split; [|by intros x [= <-] o' [= <-]].
      constructor; try done. simpl. intros b o' [[<- <-]|[_ H]]%lookup_insert_Some; [done|by apply Hob].
    + split; [done|]. by intros x [= <-].
Qed.

Lemma hoare_getObject a : addr_ok a -> hoare (getObject a) (good_obj a).
Proof.
  intros Ha. eapply hoare_bind; [by apply hoare_get|]. intros [o|] H; [apply hoare_ret; by apply H|apply hoare_panic].
Qed.

Lemma hoare_create a : addr_ok a -> hoare (createObject a) (good_obj a).
Proof.
  intros Ha. eapply hoare_bind; [by apply hoare_append|]. intros _ _.
  eapply hoare_bind; [eapply hoare_put; by apply good_zero|]. intros _ _. apply hoare_ret. by apply good_zero.
Qed.

Lemma hoare_getOrNew a : addr_ok a -> hoare (getOrNewStateObject a) (good_obj a).
Proof.
  intros Ha. eapply hoare_bind; [by apply hoare_get|]. intros [o|] H; [apply hoare_ret; by apply H|by apply hoare_create].
Qed.

#[local] Hint Resolve good_setBalance good_setNonce good_setCode good_setState good_setDestructed good_setNewContract
  good_loadCode good_cacheOrigin : reach.

(** A change: one entry, one object. *)
Lemma hoare_change {A} a o e (x : A) : entry_ok e -> good_obj a o ->
  hoare (do! journal_append e; do! setStateObject o; mret x) any.
Proof.
  intros He Ho. eapply hoare_bind; [by apply hoare_append|]. intros _ _.
  eapply hoare_bind; [by eapply hoare_put|]. intros _ _. by apply hoare_ret.
Qed.

Lemma hoare_change_unit a o e : entry_ok e -> good_obj a o -> hoare (do! journal_append e; setStateObject o) any.
Proof. intros He Ho. eapply hoare_bind; [by apply hoare_append|]. intros _ _. by eapply hoare_put. Qed.

Lemma hoare_setBalance a o z : good_obj a o -> 0 <= z < two256 -> hoare (so_SetBalance o z) any.
Proof.
  intros Ho Hz. destruct (good_range a o Ho) as (Ha & Hb & _ & Had). eapply hoare_change.
  - simpl. by rewrite Had.
  - by apply good_setBalance.
Qed.

Lemma hoare_addBalance a o z : good_obj a o -> hoare (so_AddBalance o z) any.
Proof.
  intros Ho. unfold so_AddBalance. destruct (z =? 0); [by apply hoare_ret|]. eapply hoare_setBalance; [done|].
  unfold u256. apply Z.mod_pos_bound. done.
Qed.

Lemma hoare_subBalance a o z : good_obj a o -> 0 <= z -> hoare (so_SubBalance o z) any.
Proof.
  intros Ho Hz. destruct (good_range a o Ho) as (_ & Hb & _). unfold so_SubBalance.
  destruct (z =? 0); [by apply hoare_ret|]. destruct (Z.ltb_spec (so_Balance o) z); [apply hoare_panic|].
  eapply hoare_setBalance; [done|lia].
Qed.

Lemma hoare_setNonce a o z : good_obj a o -> hoare (so_SetNonce o z) any.
Proof.
  intros Ho. destruct (good_range a o Ho) as (Ha & _ & _ & Had). eapply hoare_change_unit.
  - simpl. by rewrite Had.
  - by apply good_setNonce.
Qed.

Lemma hoare_Code a o : good_obj a o -> hoare (so_Code o) (fun r => good_obj a r.2).
Proof.
  intros Ho. unfold so_Code. destruct (so_code o); [by apply hoare_ret|].
  destruct (IsEmptyCodeHash _); [by apply hoare_ret|]. eapply hoare_bind; [by apply (hoare_reads _ any)|].
  intros c _. eapply hoare_bind; [eapply hoare_put; by apply good_loadCode|]. intros _ _.
  apply hoare_ret. by apply good_loadCode.
Qed.

Lemma hoare_setCode a o h c : good_obj a o -> hash_ok h -> hoare (so_SetCode o h c) any.
Proof.
  intros Ho Hh. eapply hoare_bind; [by apply hoare_Code|]. intros [prev o'] Ho'. simpl in Ho'.
  destruct (good_range a o' Ho') as (Ha & _ & _ & Had). eapply hoare_change_unit.
  - simpl. by rewrite Had.
  - by apply good_setCode.
Qed.

Lemma GetState_ok k a key : hash_ok (vk_GetState k a key).
Proof. unfold vk_GetState, hash_ok. destruct (len _ =? 0); [done|apply BytesToHash_length]. Qed.

Lemma hoare_committed a o key : good_obj a o ->
  hoare (so_GetCommittedState o key) (fun r => hash_ok r.1 /\ good_obj a r.2).
Proof.
  intros Ho. unfold so_GetCommittedState. rewrite (go_override _ _ Ho).
  destruct (so_originStorage o !! key) as [v|] eqn:Hv.
  - apply hoare_ret. split; [|done]. simpl. rewrite (go_origin _ _ Ho _ _ Hv). apply GetState_ok.
  - destruct (good_range a o Ho) as (Ha & _ & _ & Had). rewrite Had.
    eapply hoare_bind; [apply (hoare_reads _ (fun v => v = vk_GetState k0 a key)); intros s Hs; by rewrite (gd_ctx _ Hs)|].
    intros v ->. eapply hoare_bind; [eapply hoare_put; by apply good_cacheOrigin|]. intros _ _. apply hoare_ret.
    split; [apply GetState_ok|by apply good_cacheOrigin].
Qed.

Lemma hoare_state a o key : good_obj a o -> hoare (so_GetState o key) (fun r => hash_ok r.1 /\ good_obj a r.2).
Proof.
  intros Ho. unfold so_GetState. destruct (so_dirtyStorage o !! key) as [v|] eqn:Hv; [|by apply hoare_committed].
  apply hoare_ret. split; [|done]. by apply (cm_dirty _ _ _ (go_commit _ _ Ho) key v).
Qed.

Lemma hoare_setState a o key v : good_obj a o -> hash_ok key -> hash_ok v -> hoare (so_SetState o key v) any.
Proof.
  intros Ho Hk Hv. eapply hoare_bind; [by apply hoare_state|]. intros [prev o'] [Hp Ho']. simpl in Hp, Ho'.
  destruct (String.eqb prev v); [by apply hoare_ret|]. destruct (good_range a o' Ho') as (Ha & _ & _ & Had).
  eapply hoare_change.
  - simpl. by rewrite Had.
  - by apply good_setState.
Qed.

(** ** Undoing *)

Lemma hoare_modifyObject a f : addr_ok a -> (forall o, good_obj a o -> good_obj a (f o)) ->
  hoare (let! o <- getObject a; setStateObject (f o)) any.
Proof.
  intros Ha Hf. eapply hoare_bind; [by apply hoare_getObject|]. intros o Ho. eapply hoare_put. by apply Hf.
Qed.

(** Changes of the fields [good] does not speak of. *)
Lemma hoare_other f : (forall s, sd_ctx (f s) = sd_ctx s /\ sd_cache (f s) = sd_cache s /\ sd_objects (f s) = sd_objects s /\
    sd_entries (f s) = sd_entries s /\ sd_dirties (f s) = sd_dirties s) -> hoare (mmodify f) any.
Proof.
  intros Hf. apply hoare_modify; [done|]. intros s [Hc Hca Ho He Hd]. destruct (Hf s) as (H1 & H2 & H3 & H4 & H5).
  constructor; rewrite ?H1, ?H2, ?H3, ?H4, ?H5; done.
Qed.

Lemma hoare_revert e : entry_ok e -> hoare (JournalEntry_Revert e) any.
Proof.
  intros He. destruct e; cbn [JournalEntry_Revert]; simpl in He;
    try (apply hoare_modifyObject; [first [exact He|apply He]|]; intros o Ho); try (by apply hoare_other).
  - apply hoare_modify; [done|]. intros s [Hc Hca Ho Hes Hd]. constructor; try done. simpl.
    intros b o [_ H]%lookup_delete_Some. by apply Ho.
  - eapply hoare_bind; [by apply hoare_get|]. intros [o|] H; [|by apply hoare_ret].
    eapply hoare_put. apply good_setDestructed. by apply H.
  - apply good_setBalance; [by destruct He|done].
  - by apply good_setNonce.
  - destruct He as (_ & Hk & Hv). by apply good_setState.
  - apply good_setCode; [apply BytesToHash_length|done].
  - intros s Hs r s'. destruct (al_DeleteSlot _ _ _); intros [= <- <-]; (split; [|done]); [|done..].
    destruct Hs. by constructor.
  - done.
  - by apply good_setNewContract.
Qed.

Lemma hoare_undo l : Forall entry_ok l -> hoare (undo_entries l) any.
Proof.
  induction 1 as [|e l He Hl IH]; [by apply hoare_ret|]. simpl.
  eapply hoare_bind; [by apply hoare_revert|]. intros _ _. eapply hoare_bind; [|intros _ _; exact IH].
  apply (hoare_modify _ any); [done|]. intros s [Hc Hca Ho Hes Hd]. constructor; try done. simpl.
  intros b. unfold undirty. destruct (Dirtied e) as [a|] eqn:Hde; [|apply Hd].
  destruct (_ =? 0); [intros [x [_ Hx]%lookup_delete_Some]; eauto|].
  destruct (decide (b = a)) as [->|Hne]; [intros _; by eapply dirtied_ok|].
  rewrite lookup_insert_ne by done. apply Hd.
Qed.

Lemma hoare_RevertToSnapshot id : hoare (StateDB_RevertToSnapshot id) any.
Proof.
  intros s Hs r s'. unfold StateDB_RevertToSnapshot. destruct (sd_revisions s !! _) as [[id' j]|]; [|by intros [= <- <-]].
  destruct (negb (id' =? id)); [by intros [= <- <-]|].
  apply (hoare_bind (journal_Revert (Z.to_nat j)) _ any any); [|intros _ _; by apply hoare_other|done].
  clear s Hs r s'. intros s Hs. apply (hoare_bind (undo_entries _) _ any any); [| |done].
  - apply hoare_undo. apply Forall_rev, Forall_drop. apply Hs.
  - intros _ _. apply (hoare_modify _ any); [done|]. intros t [Hc Hca Ho He Hd]. constructor; try done. simpl.
    by apply Forall_take.
Qed.

(** ** The operations *)

Definition op_ok (x : op (K := VmState)) : Prop :=
  match x with
  | OExist a | OGetCode a | OGetState a _ | OGetCommittedState a _ | OCreateAccount a | OCreateContract a
  | OAddBalance a _ | OSetNonce a _ | OSetCode a _ | OSelfDestruct a | OSetTransientState a _ _ => addr_ok a
  | OSubBalance a z => addr_ok a /\ 0 <= z
  | OSetBalance a z => addr_ok a /\ 0 <= z < two256
  | OSetState a key v => addr_ok a /\ hash_ok key /\ hash_ok v
  | OPrecompile _ _ _ _ => False
  | OAddLog _ | OAddRefund _ | OSubRefund _ | OAddAddressToAccessList _ | OAddSlotToAccessList _ _
  | OSnapshot | ORevertToSnapshot _ => True
  end.

Lemma hoare_drop {A} (m : MS A) : hoare m any -> hoare (drop_result m) any.
Proof. intros H. eapply hoare_bind; [exact H|]. intros _ _. by apply hoare_ret. Qed.

Lemma hoare_on {A} a (f : stateObject -> MS A) : addr_ok a -> (forall o, good_obj a o -> hoare (f o) any) ->
  hoare (let! o <- getOrNewStateObject a; f o) any.
Proof. intros Ha Hf. eapply hoare_bind; [by apply hoare_getOrNew|]. exact Hf. Qed.

Lemma hoare_op x : op_ok x -> hoare (run_op coinInfo x) any.
Proof.
  intros Hx. destruct x; cbn [run_op]; simpl in Hx; try done;
    try lazymatch goal with |- hoare (drop_result _) _ => apply hoare_drop end.
  - eapply hoare_bind; [by apply hoare_get|]. intros r _. by apply hoare_ret.
  - eapply hoare_bind; [by apply hoare_get|]. intros [o|] H; [|by apply hoare_ret].
    eapply hoare_bind; [eapply hoare_Code; by apply H|]. intros [] _. by apply hoare_ret.
  - eapply hoare_bind; [by apply hoare_get|]. intros [o|] H; [|by apply hoare_ret].
    eapply hoare_bind; [eapply hoare_state; by apply H|]. intros [] _. by apply hoare_ret.
  - eapply hoare_bind; [by apply hoare_get|]. intros [o|] H; [|by apply hoare_ret].
    eapply hoare_bind; [eapply hoare_committed; by apply H|]. intros [] _. by apply hoare_ret.
  - eapply hoare_bind; [by apply hoare_create|]. intros o _. by apply hoare_ret.
  - eapply hoare_bind; [by apply hoare_getObject|]. intros o Ho. destruct (so_newContract o); [by apply hoare_ret|].
    eapply hoare_bind; [eapply hoare_put; by apply good_setNewContract|]. intros _ _. by apply hoare_append.
  - apply (hoare_on a); [done|]. intros o Ho. by eapply hoare_addBalance.
  - apply (hoare_on a); [by destruct Hx|]. intros o Ho. destruct (amount =? 0); [by apply hoare_ret|].
    eapply hoare_subBalance; [done|by destruct Hx].
  - apply (hoare_on a); [by destruct Hx|]. intros o Ho.
    eapply hoare_bind; [eapply hoare_setBalance; [done|by destruct Hx]|]. intros _ _. by apply hoare_ret.
  - apply (hoare_on a); [done|]. intros o Ho. by eapply hoare_setNonce.
  - apply (hoare_on a); [done|]. intros o Ho. eapply hoare_bind; [eapply hoare_setCode; [done|apply Hkeccak]|].
    intros _ _. by apply hoare_ret.
  - apply (hoare_on a); [by destruct Hx|]. intros o Ho. destruct Hx as (_ & Hk & Hv). by eapply hoare_setState.
  - eapply hoare_bind; [by apply hoare_get|]. intros [o|] H; [|by apply hoare_ret].
    eapply hoare_change_unit; [done|]. apply good_setDestructed. by apply H.
  - eapply hoare_bind; [by apply (hoare_reads _ any)|]. intros prev _. destruct (String.eqb prev value); [by apply hoare_ret|].
    eapply hoare_bind; [by apply hoare_append|]. intros _ _. by apply hoare_other.
  - eapply hoare_bind; [by apply hoare_append|]. intros _ _. by apply hoare_other.
  - eapply hoare_bind; [by apply (hoare_reads _ any)|]. intros prev _.
    eapply hoare_bind; [by apply hoare_append|]. intros _ _. by apply hoare_other.
  - eapply hoare_bind; [by apply (hoare_reads _ any)|]. intros prev _.
    eapply hoare_bind; [by apply hoare_append|]. intros _ _. destruct (prev <? gas); [apply hoare_panic|by apply hoare_other].
  - intros s Hs. unfold StateDB_AddAddressToAccessList. destruct (al_AddAddress _ _) as [added al].
    assert (good (set_accessList al s)) as Hs' by (destruct Hs; by constructor).
    destruct added; [by apply (hoare_append (accessListAddAccountChange a) I)|by apply (hoare_ret tt any I)].
  - intros s Hs. unfold StateDB_AddSlotToAccessList.
    destruct (al_AddSlot _ _ _) as [[[ac sc] al]| |]; [|by intros r s' [= <- <-]..].
    assert (good (set_accessList al s)) as Hs' by (destruct Hs; by constructor).
    eapply (hoare_bind _ _ any any); [| |exact Hs'].
    + destruct ac; [by apply hoare_append|by apply hoare_ret].
    + intros _ _. destruct sc; [by apply hoare_append|by apply hoare_ret].
  - intros s Hs r s' [= <- <-]. split; [|done]. destruct Hs. by constructor.
  - apply hoare_RevertToSnapshot.
Qed.

Lemma good_run l s s' : Forall op_ok l -> good s -> run coinInfo l s = Some s' -> good s'.
Proof.
  revert s. induction l as [|x l IH]; intros s Hl Hs; simpl; [by intros [= <-]|].
  apply Forall_cons in Hl as [Hx Hl]. unfold step.
  destruct (run_op coinInfo x s) as [r s1] eqn:Hr. destruct (hoare_op x Hx s Hs r s1 Hr) as [H1 _].
  destruct r; [by apply IH..|done].
Qed.

Lemma good_new events multi txIndex : good (newStateDB k0 events multi txIndex).
Proof. constructor; try done. by intros a [x Hx]. Qed.
End shape.

Lemma good_dirty_ok k0 s : good k0 s -> dirty_ok info s.
Proof.
  intros [Hc Hca Ho He Hd] a Ha. split; [by apply Hd|]. intros o Hobj. rewrite Hc. by apply (Ho a o Hobj).
Qed.

(** What the EVM sees of the storage of a live object is the dirty slots over
    the stored ones. *)
Lemma good_state_view k0 a o key : good_obj k0 a o ->
  state_view k0 o key = default (vk_GetState k0 a key) (so_dirtyStorage o !! key).
Proof.
  intros Ho. unfold state_view. destruct (so_dirtyStorage o !! key); [done|]. simpl. unfold committed_view.
  rewrite (go_override _ _ _ Ho). destruct (so_originStorage o !! key) as [v|] eqn:Hv; simpl.
  - by apply (go_origin _ _ _ Ho).
  - destruct (good_range k0 a o Ho) as (_ & _ & _ & ->). done.
Qed.
End reach.
