(* ===== verification/VmRef.v ===== *)
(** * Concrete libraries for x/vm

    Executable instances of the classes of StateDB.v, VmKeeper.v and
    Precompile.v: accounts and balances as maps, and a branch of the state as a
    copy of it. They satisfy the laws, so the theorems on x/vm are about
    something, and their witnesses can be evaluated. *)

From Stdlib Require Import ZArith Lia List String Ascii Bool.
From stdpp Require Import base gmap strings list.
From S2P Require Import Prelude GoStrings Sha256 Sdk RefEnv EvmCoin AccessList SnapshotStore StateDB StateDBFacts.
From S2P Require Import Precompile VmKeeper VmKeeperFacts.
Local Open Scope Z_scope.
Local Open Scope go_scope.

(** ** Accounts and balances *)

Record rworld := MkRWorld {
  rw_accounts : gmap string AuthAccount;
  rw_balances : gmap (string * string) Z;
  rw_next : Z;
  rw_virtual : gmap (string * string) Z;      (* credits of the modules *)
}.

Definition rw_balance (w : rworld) (a : addr) (d : string) : Z := default 0 (rw_balances w !! (a, d)).

(** The reference schedule locks one coin per byte. *)
Definition rw_locked (w : rworld) (a : addr) (d : string) : Z :=
  match rw_accounts w !! a with
  | Some acc => match aa_vesting acc with Some v => Z.of_nat (String.length v) | None => 0 end
  | None => 0
  end.

#[export] Instance ref_authbank : AuthBank rworld := {|
  auth_GetAccount := fun w a => rw_accounts w !! a;
  auth_SetAccount := fun a acc w => MkRWorld (<[a := acc]> (rw_accounts w)) (rw_balances w) (rw_next w) (rw_virtual w);
  auth_NewAccount := fun a w => (MkAuthAccount 0 (rw_next w) None false None,
                                 MkRWorld (rw_accounts w) (rw_balances w) (rw_next w + 1) (rw_virtual w));
  auth_RemoveAccount := fun a w => MkRWorld (delete a (rw_accounts w)) (rw_balances w) (rw_next w) (rw_virtual w);
  bank_GetBalance := rw_balance;
  bank_SpendableCoin := fun w a d => Z.max 0 (rw_balance w a d - rw_locked w a d);
  bank_LockedCoins := rw_locked;
  bank_BlockedAddr := fun _ => false;
  bank_UncheckedSetBalance := fun a c w =>
    (Ok [], MkRWorld (rw_accounts w) (<[(a, Denom c) := Amount c]> (rw_balances w)) (rw_next w) (rw_virtual w));
|}.

#[export, refine] Instance ref_authbank_laws : AuthBankLaws rworld := {|
  vesting_locked := fun v _ => Z.of_nat (String.length v);
|}.
Proof.
  - intros a acc w b. simpl. destruct (String.eqb_spec a b) as [->|Hne]; [by rewrite lookup_insert_eq|].
    by rewrite lookup_insert_ne.
  - intros a w b. simpl. destruct (String.eqb_spec a b) as [->|Hne]; [by rewrite lookup_delete_eq|].
    by rewrite lookup_delete_ne.
  - done.
  - done.
  - done.
  - done.
  - done.
  - intros w a d. simpl. unfold rw_locked. done.
  - done.
  - intros a c w evs w' [= _ <-]. split; [|done]. intros b d. unfold bank_GetBalance, ref_authbank, rw_balance. cbn [rw_balances].
    destruct (String.eqb_spec a b) as [->|Ha]; cbn [andb].
    + destruct (String.eqb_spec (Denom c) d) as [<-|Hd]; [by rewrite lookup_insert_eq|].
      by rewrite lookup_insert_ne by congruence.
    + by rewrite lookup_insert_ne by congruence.
  - done.
Defined.

(** ** The coin, the keeper and its branches *)

Definition ref_coin : EvmCoinInfo := MkEvmCoinInfo "axit" "axit" "xit" 18.
Definition no_delegation (code : bytes) : bool := false.

#[export] Instance ref_keeper : StateKeeper (VmState rworld) := vk_StateKeeper no_delegation ref_coin.

#[export] Instance ref_hash_laws : HashLaws (VmState rworld).
Proof.
  constructor.
  - intros l. apply sha256_length.
  - intros k a acc h. simpl. unfold vk_GetAccount. destruct (auth_GetAccount (vk_world k) a); [|done].
    intros [= <-] [= <-]. apply GetCodeHash_length.
Qed.

#[export] Instance ref_vm_layer : CacheLayer (VmState rworld) := {|
  layer_get := fun c k => vk_store c !! k;
  layer_set := fun k v c => set_store (<[k := v]> (vk_store c)) c;
  layer_delete := fun k c => set_store (delete k (vk_store c)) c;
  CacheWrap := fun c => c;
  WriteTo := fun c _ => c;
|}.

#[export] Instance ref_cache : CacheContext (snapshotkv (VmState rworld)) (VmState rworld) := {|
  NewBranch := fun k => kv_NewStore (CacheWrap k);
  WriteBranch := fun st k => WriteTo (kv_CurrentStore st) k;
|}.

#[export] Instance ref_branch_laws : BranchLaws (snapshotkv (VmState rworld)) (VmState rworld).
Proof.
  constructor; [done|]. intros k id s. simpl. unfold kv_RevertToSnapshot. simpl.
  destruct (Z.ltb_spec id 0) as [|Hge]; simpl; [done|]. by rewrite (proj2 (Z.leb_le (Z.of_nat 0) id) Hge).
Qed.

(** ** What the precompiles use *)

#[export] Instance ref_precompile_libs : PrecompileLibs := {|
  ParseCoinsNormalized := fun s => olet c <- ParseCoinNormalized s; Ok [c];
  AmountOf := fun l d => match List.find (fun c => String.eqb (Denom c) d) l with Some c => Amount c | None => 0 end;
  BlockedAddr := fun _ => false;
  abi_pack_string := fun s => Ok s;
|}.

(** ** Some values *)

Definition alice : addr := of_list (repeat (chr 7) 20).
Definition bob : addr := of_list (repeat (chr 9) 20).
Definition slot1 : hash := of_list (repeat (chr 1) 32).
Definition word1 : hash := of_list (repeat (chr 5) 32).

Definition ex_state : VmState rworld := MkVmState ∅
  (MkRWorld {[ alice := MkAuthAccount 3 1 None false None ]} {[ (alice, "axit"%string) := 1000 ]} 2 ∅).

Abbreviation ExDB := (StateDB (VmState rworld) (snapshotkv (VmState rworld))).
Definition ex_db : ExDB := newStateDB ex_state [] true 0.

(** A native action that writes to the store, emits an event and a log. *)
Definition ex_action : NativeAction (K := VmState rworld) := fun k evs gas =>
  MkNativeEffect (vk_SetState bob slot1 word1 k)
    [MkSdkEvent "coin_received" [("receiver"%string, "r"%string); ("amount"%string, "5axit"%string)]]
    [MkLog bob [] "log" 0 0] 100 (NativeOk "done").
