(* ===== verification/StateDBTheorems.v ===== *)
(** * x/vm/statedb: the theorems on snapshots, commit and deletion

    With the instances the witnesses run on. *)

From Stdlib Require Import ZArith Lia List String Ascii Bool.
From stdpp Require Import base gmap strings list.
From S2P Require Import Prelude GoStrings Sha256 Sdk RefEnv EvmCoin AccessList SnapshotStore StateDB StateDBFacts StateDBOps Precompile StateDBRevert VmKeeper VmRef VmKeeperFacts StateDBCommit.
Local Open Scope Z_scope.
Local Open Scope go_scope.

Section theorems.
Context {Cr : EthCrypto} {Ty : SdkTypes} {Pl : PrecompileLibs} (info : option EvmCoinInfo).
Context {K S : Type} {Kp : StateKeeper K} {Sn : Snapshotter S K} {Cc : CacheContext S K}.
Context {HL : HashLaws K} {SL : SnapshotterLaws S K} {BL : BranchLaws S K}.
Abbreviation StateDB := (StateDB K S).
Implicit Types (s t : StateDB) (a : addr).

(** ** Readers *)

Lemma read_object {A} (f : option stateObject -> A) a s :
  (let! o <- getStateObject a; mret (f o)) s = (Ok (f (oview s a)), load a s).
Proof. unfold mbind'. by rewrite getStateObject_eq. Qed.

Lemma getOview_live a s o : oview s a = Some o -> sd_objects (load a s) !! a = Some o.
Proof.
  unfold oview, load. destruct (sd_objects s !! a) eqn:Ha; [congruence|].
  destruct (kp_GetAccount (sd_ctx s) a); [|done]. simpl. intros [= <-]. apply lookup_insert_eq.
Qed.

Lemma GetState_eq a key s :
  (StateDB_GetState a key s).1 = Ok (match oview s a with Some o => state_view (sd_ctx s) o key | None => zero_hash end).
Proof.
  unfold StateDB_GetState, mbind' at 1. rewrite getStateObject_eq. destruct (oview s a) as [o|]; [|done].
  unfold so_GetState, so_GetCommittedState, state_view, committed_view.
  destruct (so_dirtyStorage o !! key); [done|]. destruct (so_overrideStorage o); [done|].
  destruct (so_originStorage o !! key); [done|]. unfold mbind', mreads. cbn. by rewrite ctx_load.
Qed.

Lemma GetCode_eq a s : wf s ->
  (StateDB_GetCode a s).1 = Ok (match oview s a with Some o => code_view (sd_ctx s) o | None => None end).
Proof.
  intros Hw. unfold StateDB_GetCode, mbind' at 1. rewrite getStateObject_eq.
  destruct (oview s a) as [o|] eqn:Ho; [|done].
  destruct (Code_read a o (load a s)) as (o' & s1 & Hr & _).
  - apply step_load, Hw.
  - by apply getOview_live.
  - by eapply oview_ok.
  - unfold mbind'. rewrite Hr, ctx_load. done.
Qed.

(** Everything the interpreter can read. *)
Definition reads_alike s t : Prop :=
  (forall a, (StateDB_Exist a s).1 = (StateDB_Exist a t).1) /\
  (forall a, (StateDB_Empty a s).1 = (StateDB_Empty a t).1) /\
  (forall a, (StateDB_GetBalance a s).1 = (StateDB_GetBalance a t).1) /\
  (forall a, (StateDB_GetNonce a s).1 = (StateDB_GetNonce a t).1) /\
  (forall a, (StateDB_GetCodeHash a s).1 = (StateDB_GetCodeHash a t).1) /\
  (forall a, (StateDB_GetCode a s).1 = (StateDB_GetCode a t).1) /\
  (forall a key, (StateDB_GetState a key s).1 = (StateDB_GetState a key t).1) /\
  (forall a, (StateDB_HasSelfDestructed a s).1 = (StateDB_HasSelfDestructed a t).1) /\
  (forall a, (StateDB_IsNewContract a s).1 = (StateDB_IsNewContract a t).1) /\
  (forall a key, (StateDB_GetTransientState a key s).1 = (StateDB_GetTransientState a key t).1) /\
  (forall a, (StateDB_AddressInAccessList a s).1 = (StateDB_AddressInAccessList a t).1) /\
  (forall a slot, (StateDB_SlotInAccessList a slot s).1 = (StateDB_SlotInAccessList a slot t).1) /\
  (StateDB_GetRefund s).1 = (StateDB_GetRefund t).1 /\ (StateDB_Logs s).1 = (StateDB_Logs t).1.

Lemma sequiv_reads s t : wf s -> wf t -> sequiv s t -> reads_alike s t.
Proof.
  intros Hs Ht He. pose proof (se_ctx _ _ He) as Hctx. split_and!; intros;
    try (unfold StateDB_Exist, StateDB_Empty, StateDB_GetBalance, StateDB_GetNonce, StateDB_GetCodeHash,
           StateDB_HasSelfDestructed, StateDB_IsNewContract; rewrite !read_object; simpl;
         destruct (oview_equiv s t a He) as [o o' [Ha Hac Hc Hcm Hst Hd Hn]|]; [|done];
         unfold so_empty, so_Nonce, so_Balance, so_CodeHash; congruence).
  - rewrite GetCode_eq, GetCode_eq by done. rewrite <- Hctx. destruct (oview_equiv s t a He) as [o o' Ho|]; [|done].
    by rewrite (oe_code _ _ _ Ho).
  - rewrite !GetState_eq. rewrite <- Hctx. destruct (oview_equiv s t a He) as [o o' Ho|]; [|done].
    by rewrite (oe_state _ _ _ Ho).
  - unfold StateDB_GetTransientState. simpl. by rewrite (se_transient _ _ He).
  - unfold StateDB_AddressInAccessList. simpl. by rewrite (se_access _ _ He).
  - unfold StateDB_SlotInAccessList. simpl. by rewrite (se_access _ _ He).
  - unfold StateDB_GetRefund. simpl. by rewrite (se_refund _ _ He).
  - unfold StateDB_Logs. simpl. by rewrite (se_logs _ _ He).
Qed.

(** C4: a snapshot taken at any point of a transaction and reverted to later
    restores the state, provided that no operation of the transaction destroys
    an account that is already marked as destroyed or creates one that exists
    ([run_destroys_once]; the code refuses neither). After any other operations
    of the interpreter and any precompile calls, with nested snapshots and
    reverts above it, the revert succeeds: every reader, the refund counter, the
    logs, the access list, the transient storage and the branch of the
    precompiles show what they showed when the snapshot was taken, and the
    journal and the valid revisions are as then. *)
Theorem revert_restores_snapshot ctx events multi txIndex ops1 ops2 s id s1 s2 :
  run_destroys_once info ops1 (newStateDB ctx events multi txIndex) = true -> run info ops1 (newStateDB ctx events multi txIndex) = Some s ->
  StateDB_Snapshot s = (Ok id, s1) -> keeps id ops2 = true -> run_destroys_once info ops2 s1 = true -> run info ops2 s1 = Some s2 ->
  exists s3, StateDB_RevertToSnapshot id s2 = (Ok tt, s3) /\ reads_alike s3 s /\ sequiv s3 s /\
    sd_entries s3 = sd_entries s /\ sd_revisions s3 = sd_revisions s.
Proof.
  intros O1 H1 [= <- <-] Hk O2 H2. pose proof (inv_run info ops1 _ _ (inv_new ctx events multi txIndex) O1 H1) as Hi.
  destruct (valid_run info s ops2 _ s2 (valid_snap s Hi) Hk O2 H2) as (Hi2 & Ht & rest & Hrev).
  destruct (revert_at s2 _ _ _ s Hi2 (inv_wf _ Hi) Ht Hrev) as (s3 & Hr & Heq & Hw & He & Hrv & _).
  exists s3. split_and!; try done. apply sequiv_reads; [done|apply Hi|done].
Qed.

(** A second self-destruct of an account that is already marked, inside a
    snapshot that is then reverted, takes back the first one as well: the mark
    that was there when the snapshot was taken is gone. *)
Theorem destruct_twice_then_revert ctx events multi txIndex ops s a o :
  run_destroys_once info ops (newStateDB ctx events multi txIndex) = true -> run info ops (newStateDB ctx events multi txIndex) = Some s ->
  oview s a = Some o -> so_selfDestructed o = true ->
  (StateDB_HasSelfDestructed a s).1 = Ok true /\
  exists id s1 s2 s3, StateDB_Snapshot s = (Ok id, s1) /\ StateDB_SelfDestruct a s1 = (Ok tt, s2) /\
    StateDB_RevertToSnapshot id s2 = (Ok tt, s3) /\ (StateDB_HasSelfDestructed a s3).1 = Ok false.
Proof.
  intros O1 H1 Hv Hd. pose proof (inv_run info ops _ _ (inv_new ctx events multi txIndex) O1 H1) as Hi.
  pose proof (oview_ok s a o (inv_wf _ Hi) Hv) as [Hoa _]. split.
  { unfold StateDB_HasSelfDestructed. rewrite read_object, Hv. simpl. by rewrite Hd. }
  eexists _, (snap s), (put (so_setDestructed true o) (append (selfDestructChange a) (load a (snap s)))).
  assert (sd_entries (load a (snap s)) = sd_entries s /\ sd_revisions (load a (snap s)) = sd_revisions (snap s)) as [He Hr].
  { destruct (load_set a (snap s)) as (objs & -> & _). done. }
  eexists. split_and!; [done| | |].
  - unfold StateDB_SelfDestruct, mbind'. rewrite getStateObject_eq.
    assert (oview (snap s) a = Some o) as -> by exact Hv. done.
  - unfold StateDB_RevertToSnapshot. cbn [sd_revisions put append set_objects set_journal]. rewrite Hr.
    cbn [snap sd_revisions set_revisions].
    rewrite find_revision by (apply (inv_sorted _ (inv_snap s Hi))).
    rewrite (list_lookup_middle _ [] _ _ eq_refl), Z.eqb_refl. cbn [negb]. rewrite Nat2Z.id.
    unfold mbind' at 1, journal_Revert at 1. cbn [sd_entries put append set_objects set_journal]. rewrite He.
    rewrite drop_app_length. cbn [rev app]. unfold mbind' at 1. cbn [undo_entries].
    unfold mbind' at 1 2. cbn [JournalEntry_Revert]. unfold mbind' at 1. rewrite getStateObject_eq.
    assert (oview (put (so_setDestructed true o) (append (selfDestructChange a) (load a (snap s)))) a =
      Some (so_setDestructed true o)) as ->.
    { rewrite oview_put. simpl. rewrite Hoa. by rewrite decide_True. }
    reflexivity.
  - unfold StateDB_HasSelfDestructed. rewrite read_object. simpl. unfold oview. simpl. rewrite Hoa.
    by rewrite lookup_insert_eq.
Qed.
End theorems.

(** ** Witnesses *)

Definition ex_ops1 : list (op (K := VmState rworld)) :=
  [OSetState alice slot1 word1; OSubBalance alice 10; OSelfDestruct alice].
Definition ex_ops2 : list (op (K := VmState rworld)) :=
  [OAddBalance bob 10; OPrecompile true ex_action 100000 0; OSnapshot; OSetState alice slot1 zero_hash;
   OSetCode bob (Some "code"%string); ORevertToSnapshot 1; OSetNonce bob 1; OAddSlotToAccessList bob slot1].

Definition run_to (l : list (op (K := VmState rworld))) (s : ExDB) : ExDB :=
  default s (run (Some ref_coin) l s).

Lemma revert_restores_witness :
  exists s1 s2 s3, StateDB_Snapshot (run_to ex_ops1 ex_db) = (Ok 0, s1) /\ run (Some ref_coin) ex_ops2 s1 = Some s2 /\
    StateDB_RevertToSnapshot 0 s2 = (Ok tt, s3) /\ reads_alike s3 (run_to ex_ops1 ex_db).
Proof.
  destruct (revert_restores_snapshot (Some ref_coin) ex_state [] true 0 ex_ops1 ex_ops2 (run_to ex_ops1 ex_db) 0
    (snap (run_to ex_ops1 ex_db)) (run_to ex_ops2 (snap (run_to ex_ops1 ex_db)))) as (s3 & Hr & Ha & _).
  - vm_compute. reflexivity.
  - vm_compute. reflexivity.
  - vm_compute. reflexivity.
  - reflexivity.
  - vm_compute. reflexivity.
  - vm_compute. reflexivity.
  - eexists _, _, s3. split; [|split; [|split; [exact Hr|exact Ha]]].
    + vm_compute. reflexivity.
    + vm_compute. reflexivity.
Defined.

Lemma destruct_twice_witness :
  exists id s1 s2 s3, StateDB_Snapshot (run_to ex_ops1 ex_db) = (Ok id, s1) /\ StateDB_SelfDestruct alice s1 = (Ok tt, s2) /\
    StateDB_RevertToSnapshot id s2 = (Ok tt, s3) /\ (StateDB_HasSelfDestructed alice s3).1 = Ok false.
Proof.
  eapply (destruct_twice_then_revert (Some ref_coin) ex_state [] true 0 ex_ops1 (run_to ex_ops1 ex_db) alice).
  - vm_compute. reflexivity.
  - vm_compute. reflexivity.
  - vm_compute. reflexivity.
  - reflexivity.
Defined.

(** ** x/vm: the theorems on the keeper and on Commit *)

Section theorems.
Context {Ma : SdkMath} {Ty : SdkTypes} {Cr : EthCrypto} {Pl : PrecompileLibs} {W : Type} {Ab : AuthBank W} {Al : AuthBankLaws W}.
Context (ParseDelegation : bytes -> bool) (info : EvmCoinInfo).
Context {S : Type} {Sn : Snapshotter S (VmState W)} {Cc : CacheContext S (VmState W)}.
Abbreviation VmState := (VmState W).
#[local] Instance vm_keeper : StateKeeper VmState := vk_StateKeeper ParseDelegation info.
Context {HL : HashLaws VmState} {SL : SnapshotterLaws S VmState} {BL : BranchLaws S VmState}.
Abbreviation StateDB := (StateDB VmState S).
Implicit Types (s : StateDB) (a b : addr) (k : VmState).

(** What a new transaction reads of an account. *)
Definition reads_account s a s0 : Prop :=
  (StateDB_GetNonce a s).1 = (StateDB_GetNonce a s0).1 /\
  (StateDB_GetBalance a s).1 = (StateDB_GetBalance a s0).1 /\
  (StateDB_GetCodeHash a s).1 = (StateDB_GetCodeHash a s0).1 /\
  forall key, (StateDB_GetState a key s).1 = (StateDB_GetState a key s0).1.

Lemma persisted_reads ctx s a o k events multi txIndex : sd_ctx s = ctx ->
  good_obj info ctx a o -> sd_objects s !! a = Some o -> so_selfDestructed o = false ->
  persisted info ctx k a o -> reads_account (newStateDB k events multi txIndex) a s.
Proof.
  intros Hctx Hg Ho Hd. unfold persisted. rewrite Hd. intros [Hacc Hst].
  assert (oview s a = Some o) as Hv by by apply oview_live.
  assert (oview (newStateDB (S := S) k events multi txIndex) a =
    Some (newObject a (account_of (vk_lockedCoin info ctx a) o))) as Hn.
  { unfold oview. simpl. by rewrite Hacc. }
  destruct (good_range info ctx a o Hg) as (_ & _ & Hh & Hoa).
  unfold reads_account, StateDB_GetNonce, StateDB_GetBalance, StateDB_GetCodeHash. rewrite !read_object, Hv, Hn.
  split_and!; [done..|]. intros key. rewrite !GetState_eq, Hv, Hn, Hctx.
  f_equal. rewrite (good_state_view ParseDelegation info ctx a o key Hg). unfold state_view, committed_view. simpl.
  rewrite GetState_fast, Hst. unfold merged. destruct (so_dirtyStorage o !! key) as [v|] eqn:Hk; [|by rewrite GetState_fast].
  destruct (cm_dirty _ _ _ (go_commit _ _ _ _ Hg) key v Hk) as [_ Hlen]. simpl. unfold len. rewrite Hlen. simpl.
  by apply BytesToHash_id.
Qed.

(** C5: committing a transaction of the interpreter (no precompile was called)
    persists what it saw. For every account it changed, a new transaction reads
    the nonce, the balance, the code hash and every storage slot this one saw;
    a self-destructed account is gone and so is its storage; every other
    account and its storage are untouched. *)
Theorem commit_persists coin ctx events multi txIndex ops s s' :
  ci_Denom info = ci_ExtendedDenom info -> storage_keys_ok ctx -> Forall op_ok ops ->
  run coin ops (newStateDB ctx events multi txIndex) = Some s -> StateDB_Commit s = (Ok tt, s') ->
  (forall a, is_Some (sd_dirties s !! a) -> exists o, sd_objects s !! a = Some o /\
     if so_selfDestructed o
     then vk_GetAccount info (sd_ctx s') a = None /\
          (is_Some (vk_GetAccount info ctx a) -> forall key, vk_GetFastState (sd_ctx s') a key = None)
     else reads_account (newStateDB (sd_ctx s') events multi txIndex) a s) /\
  (forall b, addr_ok b -> sd_dirties s !! b = None ->
     vk_GetAccount info (sd_ctx s') b = vk_GetAccount info ctx b /\
     forall key, vk_GetFastState (sd_ctx s') b key = vk_GetFastState ctx b key).
Proof.
  intros Hinfo Hk Hops Hrun Hcommit.
  pose proof (good_run ParseDelegation info coin (Keccak256Hash_length) ctx ops _ _ Hops
    (good_new info ctx events multi txIndex) Hrun) as Hg.
  pose proof (good_dirty_ok info ctx s Hg) as Hd. pose proof (gd_ctx _ _ _ Hg) as Hctx.
  destruct (Commit_ok ParseDelegation info Hinfo s s') as (Hp & Hu & _);
    [apply Hg|by rewrite Hctx|done|done|]. rewrite Hctx in Hp, Hu. split.
  - intros a Ha. destruct (Hp a Ha) as (o & Ho & Hpo). exists o. split; [done|].
    destruct (so_selfDestructed o) eqn:Hdes.
    + unfold persisted in Hpo. by rewrite Hdes in Hpo.
    + eapply persisted_reads; try done. by apply (gd_objects _ _ _ Hg).
  - intros b Hb Hn. destruct (Hu b Hb Hn) as [Hs Hf]. split; [by apply same_account_get|done].
Qed.

(** [Commit] never deletes a slot. A slot whose last value is zero is
    written as thirty-two zero bytes, because the bytes of a hash are never
    empty: the branch that deletes it is dead, and the entry stays in the
    store. *)
Theorem zeroed_slot_stays coin ctx events multi txIndex ops s s' a o key :
  ci_Denom info = ci_ExtendedDenom info -> storage_keys_ok ctx -> Forall op_ok ops ->
  run coin ops (newStateDB ctx events multi txIndex) = Some s -> StateDB_Commit s = (Ok tt, s') ->
  is_Some (sd_dirties s !! a) -> sd_objects s !! a = Some o -> so_selfDestructed o = false ->
  so_dirtyStorage o !! key = Some zero_hash ->
  vk_GetFastState (sd_ctx s') a key = Some zero_hash /\ vk_GetState (sd_ctx s') a key = zero_hash.
Proof.
  intros Hinfo Hk Hops Hrun Hcommit Ha Ho Hdes Hkey.
  pose proof (good_run ParseDelegation info coin (Keccak256Hash_length) ctx ops _ _ Hops
    (good_new info ctx events multi txIndex) Hrun) as Hg.
  pose proof (good_dirty_ok info ctx s Hg) as Hd. pose proof (gd_ctx _ _ _ Hg) as Hctx.
  destruct (Commit_ok ParseDelegation info Hinfo s s') as (Hp & _ & _); [apply Hg|by rewrite Hctx|done|done|].
  destruct (Hp a Ha) as (o' & Ho' & Hpo). simplify_eq. unfold persisted in Hpo. rewrite Hdes in Hpo.
  destruct Hpo as [_ Hst]. rewrite GetState_fast, Hst. unfold merged. rewrite Hkey. done.
Qed.

(** [DeleteAccount] of a contract removes the account, its balance, its
    code hash and every slot of its storage, and leaves every other account
    with its storage as it was. The code itself stays in the store, under its
    hash. *)
Theorem delete_account_erases a k acct evs k' : addr_ok a -> storage_keys_ok k ->
  auth_GetAccount (vk_world k) a = Some acct -> vk_DeleteAccount ParseDelegation info a k = (Ok evs, k') ->
  vk_GetAccount info k' a = None /\ wrap_GetBalance info k' a = 0 /\
  (forall key, vk_GetState k' a key = zero_hash) /\ vk_GetCodeHash k' a = BytesToHash EmptyCodeHash /\
  (forall b, addr_ok b -> b <> a -> vk_GetAccount info k' b = vk_GetAccount info k b /\
     forall key, vk_GetState k' b key = vk_GetState k b key) /\
  (forall h, vk_GetCode k' h = vk_GetCode k h).
Proof.
  intros Ha Hk Hacct H.
  destruct (DeleteAccount_erases ParseDelegation info a k acct evs k' Ha Hk Hacct H) as (H1 & H2 & H3 & H4 & H5 & H6).
  split_and!; try done.
  - intros key. by rewrite GetState_fast, H3.
  - intros b Hb Hne. destruct (H5 b Hb Hne) as [Hs Hf]. split; [by apply same_account_get|].
    intros key. by rewrite !GetState_fast, Hf.
Qed.

(** While the history contract is deployed, the hash recorded in each block
    can be read back for as many blocks as the served window: the ring buffer
    in the contract's storage never hands out the hash of another height. *)
Theorem header_hashes_in_window A w h hashes k i x : addr_ok A -> 0 <= w < two64 -> 0 <= h ->
  h + Z.of_nat (length hashes) < two64 -> Forall (fun x => hash_ok x) hashes ->
  is_Some (vk_GetAccount info k A) -> vk_IsContract ParseDelegation k A = true ->
  hashes !! i = Some x -> Z.of_nat (length hashes) - Z.of_nat i <= window_of w ->
  GetHeaderHash A w (h + Z.of_nat i) (record_headers ParseDelegation info A w h hashes k) = x.
Proof. apply headers_readable. Qed.
End theorems.

(** ** Witnesses *)

Definition commit_ops : list (op (K := VmState rworld)) :=
  [OSetState alice slot1 word1; OSubBalance alice 10; OAddBalance bob 10; OSnapshot; OSetNonce alice 9;
   ORevertToSnapshot 0; OSetState alice slot1 zero_hash].

Definition committed (s : ExDB) : ExDB := (StateDB_Commit s).2.

Lemma ex_keys_ok : storage_keys_ok ex_state.
Proof. intros a t v _. simpl. by rewrite lookup_empty. Qed.

Lemma commit_ops_ok : Forall op_ok commit_ops.
Proof. repeat constructor; done. Qed.

Lemma commit_persists_witness :
  exists o, sd_objects (run_to commit_ops ex_db) !! alice = Some o /\ so_selfDestructed o = false /\
    reads_account no_delegation ref_coin (newStateDB (sd_ctx (committed (run_to commit_ops ex_db))) [] true 0) alice
      (run_to commit_ops ex_db).
Proof.
  destruct (commit_persists no_delegation ref_coin (Some ref_coin) ex_state [] true 0 commit_ops (run_to commit_ops ex_db)
    (committed (run_to commit_ops ex_db)) eq_refl ex_keys_ok commit_ops_ok) as [H _].
  - vm_compute. reflexivity.
  - vm_compute. reflexivity.
  - destruct (H alice) as (o & Ho & Hr); [vm_compute; eauto|]. exists o. split; [exact Ho|].
    vm_compute in Ho. injection Ho as <-. split; [reflexivity|exact Hr].
Defined.

Lemma zeroed_slot_witness :
  vk_GetFastState (sd_ctx (committed (run_to commit_ops ex_db))) alice slot1 = Some zero_hash /\
  vk_GetState (sd_ctx (committed (run_to commit_ops ex_db))) alice slot1 = zero_hash.
Proof.
  eapply (zeroed_slot_stays no_delegation ref_coin (Some ref_coin) ex_state [] true 0 commit_ops (run_to commit_ops ex_db)
    (committed (run_to commit_ops ex_db)) alice _ slot1 eq_refl ex_keys_ok commit_ops_ok).
  - vm_compute. reflexivity.
  - vm_compute. reflexivity.
  - vm_compute. eauto.
  - vm_compute. reflexivity.
  - reflexivity.
  - vm_compute. reflexivity.
Defined.

(** A contract with one slot. *)
Definition contract_state : VmState rworld :=
  MkVmState {[ CodeHashKey bob := word1; CodeKey word1 := "code"%string; StateKey bob slot1 := word1 ]}
    (MkRWorld {[ bob := MkAuthAccount 1 2 None false None ]} {[ (bob, "axit"%string) := 7 ]} 3 ∅).

Lemma contract_keys_ok : storage_keys_ok contract_state.
Proof.
  intros a t v Ha. unfold contract_state. simpl.
  intros [[He _]|[_ [[He _]|[_ [He _]%lookup_singleton_Some]]%lookup_insert_Some]]%lookup_insert_Some; [done|done|].
  by apply (StateKey_inj bob a slot1 t eq_refl Ha) in He as [_ <-].
Qed.

Lemma delete_account_witness : exists k', vk_DeleteAccount no_delegation ref_coin bob contract_state = (Ok [], k') /\
  vk_GetAccount ref_coin k' bob = None /\ vk_GetState k' bob slot1 = zero_hash /\ vk_GetCode k' word1 = Some "code"%string.
Proof.
  exists (vk_DeleteAccount no_delegation ref_coin bob contract_state).2.
  destruct (delete_account_erases no_delegation ref_coin bob contract_state (MkAuthAccount 1 2 None false None) []
    (vk_DeleteAccount no_delegation ref_coin bob contract_state).2 eq_refl contract_keys_ok) as (H1 & _ & H3 & _ & _ & H6).
  - reflexivity.
  - vm_compute. reflexivity.
  - split; [vm_compute; reflexivity|]. split; [exact H1|]. split; [apply H3|]. rewrite H6. reflexivity.
Defined.

Lemma header_hashes_witness :
  GetHeaderHash bob 2 11 (record_headers no_delegation ref_coin bob 2 10 [word1; slot1; word1] contract_state) = slot1.
Proof.
  apply (header_hashes_in_window no_delegation ref_coin bob 2 10 [word1; slot1; word1] contract_state 1 slot1).
  - reflexivity.
  - split; [lia|reflexivity].
  - lia.
  - reflexivity.
  - repeat constructor.
  - vm_compute. eauto.
  - vm_compute. reflexivity.
  - reflexivity.
  - vm_compute. discriminate.
Defined.
