(* ===== verification/PrecompileTheorems.v ===== *)
(** * precompiles/common: the theorems on precompile calls *)

From Stdlib Require Import ZArith Lia List String Ascii Bool.
From stdpp Require Import base gmap strings list.
From S2P Require Import Prelude GoStrings Sdk RefEnv EvmCoin AccessList SnapshotStore StateDB StateDBFacts.
From S2P Require Import StateDBOps Precompile StateDBRevert VmKeeper VmRef.
Local Open Scope Z_scope.
Local Open Scope go_scope.

Section theorems.
Context {Cr : EthCrypto} {Ty : SdkTypes} {Pl : PrecompileLibs} (info : option EvmCoinInfo).
Context {K S : Type} {Kp : StateKeeper K} {Sn : Snapshotter S K} {Cc : CacheContext S K}.
Abbreviation StateDB := (StateDB K S).
Implicit Types (s t : StateDB) (a b : addr).

(** ** Gas *)

Lemma UseGas_Some gas amount gas' : UseGas gas amount = Some gas' <-> amount <= gas /\ gas' = gas - amount.
Proof.
  unfold UseGas. destruct (Z.ltb_spec gas amount); split; [done|lia|intros [= <-]; lia|intros [_ ->]; done].
Qed.

Lemma or_err_inv {A} gas (m : M StateDB A) f s x s' : or_err gas m f s = (Ok x, s') ->
  (exists msg, m s = (Err msg, s') /\ x = (CallErr msg, gas)) \/
  exists y s1, m s = (Ok y, s1) /\ f y s1 = (Ok x, s').
Proof.
  unfold or_err. destruct (m s) as [[y|e|e] s1]; intros H; [right; eauto|left|done].
  injection H as <- <-. eauto.
Qed.

Lemma nativeBody_gas hasHandler action gas initialGas s r gas' s' : 0 <= gas ->
  (forall k evs g, 0 <= ne_gas (action k evs g)) ->
  nativeBody info hasHandler action gas initialGas s = (Ok (r, gas'), s') ->
  0 <= gas' <= gas /\ (forall bz, r = CallOk bz -> initialGas <= gas /\ exists k evs,
    ne_result (action k evs (gas - initialGas)) = NativeOk bz /\ gas' = gas - ne_gas (action k evs (gas - initialGas))).
Proof.
  intros Hg Ha. unfold nativeBody. destruct (Z.ltb_spec gas initialGas) as [|Hle]; [intros [= <- <- <-]; split; [lia|done]|].
  unfold mbind' at 1 2, mreads. cbv beta iota zeta. set (eff := action _ _ _).
  pose proof (Ha (native_view s) (cache_events s) (gas - initialGas)) as Hne. fold eff in Hne.
  unfold mbind'. destruct (apply_native eff s) as [[[]| |] s1]; try done.
  destruct (ne_result eff) as [bz|b msg| |msg] eqn:Hres; try done.
  - destruct (UseGas gas (ne_gas eff)) as [g|] eqn:Hu; [apply UseGas_Some in Hu as [Hu ->]|intros [= <- <- <-]; split; [lia|done]].
    assert (Hok : forall bz', CallOk bz = CallOk bz' -> initialGas <= gas /\ exists k evs,
      ne_result (action k evs (gas - initialGas)) = NativeOk bz' /\ gas - ne_gas eff = gas - ne_gas (action k evs (gas - initialGas))).
    { intros bz' [= <-]. split; [done|]. by eexists _, _. }
    destruct hasHandler; [|intros [= <- <- <-]; split; [lia|done]].
    intros [(msg & _ & [= -> ->])|(y & s2 & _ & [= <- <- _])]%or_err_inv; (split; [lia|done]).
  - destruct b; intros [= <- <- <-]; (split; [lia|done]).
  - intros [= <- <- <-]. split; [|done]. destruct (UseGas gas (ne_gas eff)) as [g|] eqn:Hu; simpl; [|lia].
    apply UseGas_Some in Hu. lia.
Qed.

(** A precompile call never returns more gas than it was given, and a
    successful one charges exactly what its action consumed; the gas the
    context had consumed before must have been covered. *)
Theorem native_call_charges hasHandler action gas initialGas s r gas' s' : 0 <= gas ->
  (forall k evs g, 0 <= ne_gas (action k evs g)) ->
  runNativeAction info hasHandler action gas initialGas s = (Ok (r, gas'), s') ->
  0 <= gas' <= gas /\ (forall bz, r = CallOk bz -> initialGas <= gas /\ exists k evs,
    ne_result (action k evs (gas - initialGas)) = NativeOk bz /\ gas' = gas - ne_gas (action k evs (gas - initialGas))).
Proof.
  intros Hg Ha. assert (Herr : forall msg, (r, gas') = (CallErr msg, gas) -> 0 <= gas' <= gas /\ (forall bz, r = CallOk bz ->
    initialGas <= gas /\ exists k evs, ne_result (action k evs (gas - initialGas)) = NativeOk bz /\
      gas' = gas - ne_gas (action k evs (gas - initialGas)))) by (intros msg [= -> ->]; split; [lia|done]).
  intros [(msg & _ & H)|(y & s1 & _ & H)]%or_err_inv; [by eapply Herr|].
  apply or_err_inv in H as [(msg & _ & H)|(id & s2 & _ & H)]; [by eapply Herr|].
  apply or_err_inv in H as [(msg & _ & H)|(z & s3 & _ & H)]; [by eapply Herr|].
  apply or_err_inv in H as [(msg & _ & H)|(w & s4 & _ & H)]; [by eapply Herr|].
  by eapply nativeBody_gas.
Qed.

(** ** The limit on precompile calls *)

(** Calls in a row, their errors ignored, as a contract can make them. *)
Fixpoint attempts (n : nat) (snapshot : Z) s : StateDB :=
  match n with
  | O => s
  | Datatypes.S n' => (StateDB_AddPrecompileFn snapshot (attempts n' snapshot s)).2
  end.

Lemma attempt_eq snapshot s st evs : sd_cache s = Some (st, evs) ->
  StateDB_AddPrecompileFn snapshot s =
  (oguard (negb (MaxPrecompileCalls <? (sd_precompileCalls s + 1) mod 256)) "max calls to precompiles (20) reached",
   set_precompileCalls ((sd_precompileCalls s + 1) mod 256)
     (append (precompileCallChange snapshot evs (sd_processedEvents s)) s)).
Proof. intros Hc. unfold StateDB_AddPrecompileFn. by rewrite Hc. Qed.

Lemma attempts_counter n snapshot s st evs : sd_cache s = Some (st, evs) -> sd_precompileCalls s = 0 ->
  sd_precompileCalls (attempts n snapshot s) = Z.of_nat n mod 256 /\ sd_cache (attempts n snapshot s) = Some (st, evs).
Proof.
  intros Hc H0. induction n as [|n [IH1 IH2]]; [cbn [attempts]; by rewrite H0|]. cbn [attempts].
  rewrite (attempt_eq snapshot _ st evs IH2). simpl. split; [|done]. rewrite IH1.
  rewrite Zplus_mod_idemp_l. f_equal. lia.
Qed.

(** The counter of precompile calls is a byte and refused calls count too:
    the call after [n] earlier ones is admitted exactly if [n + 1] modulo 256 is
    at most twenty. The limit of twenty calls holds for the first 255 and is
    then lifted: the 256th call is admitted again. *)
Theorem precompile_limit_wraps n snapshot s st evs : sd_cache s = Some (st, evs) -> sd_precompileCalls s = 0 ->
  is_ok (StateDB_AddPrecompileFn snapshot (attempts n snapshot s)).1 = (((Z.of_nat n + 1) mod 256) <=? MaxPrecompileCalls).
Proof.
  intros Hc H0. destruct (attempts_counter n snapshot s st evs Hc H0) as [H1 H2].
  rewrite (attempt_eq snapshot _ st evs H2). simpl. rewrite H1, Zplus_mod_idemp_l.
  rewrite Z.ltb_antisym, negb_involutive. by destruct (_ <=? _).
Qed.
End theorems.

(** ** Balances mirrored from bank events *)

Section mirror.
Context {Cr : EthCrypto} {Ty : SdkTypes} {Pl : PrecompileLibs} (info : option EvmCoinInfo).
Context {K S : Type} {Kp : StateKeeper K} {Sn : Snapshotter S K} {Cc : CacheContext S K}.
Context {HL : HashLaws K} {SL : SnapshotterLaws S K} {BL : BranchLaws S K}.
Abbreviation StateDB := (StateDB K S).
Implicit Types (s t : StateDB) (a b : addr).

(** What an event of the bank says about the balance of [a]. *)
Definition net (ev : SdkEvent) a : Z :=
  let move key sign :=
    match ParseAddress ev key, ParseAmount info ev with
    | Ok x, Ok z => if BlockedAddr x then 0 else if String.eqb (BytesToAddress x) a then sign * z else 0
    | _, _ => 0
    end in
  if String.eqb (se_type ev) EventTypeCoinSpent then move AttributeKeySpender (-1)
  else if String.eqb (se_type ev) EventTypeCoinReceived then move AttributeKeyReceiver 1
  else 0.

Definition net_all (l : list SdkEvent) a : Z := foldr (fun ev z => net ev a + z) 0 l.

Definition balance s a : Z := match oview s a with Some o => so_Balance o | None => 0 end.

Lemma getOrNew_balance a s o s1 : wf s -> getOrNewStateObject a s = (Ok o, s1) ->
  so_Balance o = balance s a /\ forall b, balance s1 b = balance s b.
Proof.
  intros Hw. unfold getOrNewStateObject, mbind'. rewrite getStateObject_eq. unfold balance.
  destruct (load_set a s) as (objs & Hl & Hv). destruct (oview s a) as [o'|] eqn:Ho.
  - intros [= <- <-]. split; [done|]. intros b. by rewrite Hl, Hv.
  - rewrite createObject_eq. intros [= <- <-]. split; [done|]. intros b. rewrite oview_put. simpl.
    destruct (decide (b = a)) as [->|Hne]; [by rewrite Ho|].
    rewrite (oview_same (append (createObjectChange a) (load a s)) (load a s)) by done. by rewrite Hl, Hv.
Qed.

Lemma SetBalance_balance a o z s s1 x : so_address o = a -> so_SetBalance o z s = (Ok x, s1) ->
  forall b, balance s1 b = if String.eqb a b then z else balance s b.
Proof.
  intros Ha [= <- <-] b. unfold balance.
  change (match oview (put (so_setBalance z o) (append (balanceChange (so_address o) (so_Balance o)) s)) b with
    | Some o0 => so_Balance o0 | None => 0 end = if String.eqb a b then z else match oview s b with
    | Some o0 => so_Balance o0 | None => 0 end).
  rewrite oview_put. simpl. rewrite Ha. destruct (decide (b = a)) as [->|Hne]; [by rewrite String.eqb_refl|].
  by rewrite (proj2 (String.eqb_neq a b)) by done.
Qed.

(** Equal up to the wrap-around of [uint256]. *)
Definition same256 (x y : Z) : Prop := x mod two256 = y mod two256.

Lemma same256_add x y z : same256 x y -> same256 (x + z) (y + z).
Proof. unfold same256. intros H. by rewrite (Z.add_mod x), (Z.add_mod y), H by done. Qed.

Lemma same256_trans x y z : same256 x y -> same256 y z -> same256 x z.
Proof. unfold same256. congruence. Qed.

Lemma AddBalance_balance a z s x s1 : wf s -> StateDB_AddBalance a z s = (Ok x, s1) ->
  forall b, same256 (balance s1 b) (balance s b + if String.eqb a b then z else 0).
Proof.
  intros Hw H. unfold StateDB_AddBalance, mbind' in H.
  destruct (getOrNewStateObject a s) as [[o| |] s0] eqn:Hg; try done.
  destruct (getOrNew_balance a s o s0 Hw Hg) as [Hb Hs0]. destruct (getOrNew_live a s o s0 Hw Hg) as [_ [Ha _]].
  unfold so_AddBalance in H. destruct (Z.eqb_spec z 0) as [->|Hz].
  - injection H as _ <-. intros b. rewrite Hs0. unfold same256. f_equal. destruct (String.eqb a b); lia.
  - intros b. rewrite (SetBalance_balance a o _ s0 s1 x Ha H). unfold same256.
    destruct (String.eqb_spec a b) as [<-|Hne]; [|rewrite Hs0; f_equal; lia].
    unfold u256. rewrite Z.mod_mod by done. by rewrite Hb.
Qed.

Lemma SubBalance_balance a z s x s1 : wf s -> StateDB_SubBalance a z s = (Ok x, s1) ->
  forall b, same256 (balance s1 b) (balance s b + if String.eqb a b then - z else 0).
Proof.
  intros Hw H. unfold StateDB_SubBalance, mbind' in H.
  destruct (getOrNewStateObject a s) as [[o| |] s0] eqn:Hg; try done.
  destruct (getOrNew_balance a s o s0 Hw Hg) as [Hb Hs0]. destruct (getOrNew_live a s o s0 Hw Hg) as [_ [Ha _]].
  unfold so_SubBalance in H. destruct (Z.eqb_spec z 0) as [->|Hz].
  - injection H as _ <-. intros b. rewrite Hs0. unfold same256. f_equal. destruct (String.eqb a b); lia.
  - destruct (so_Balance o <? z); [done|]. intros b. rewrite (SetBalance_balance a o _ s0 s1 x Ha H). unfold same256.
    destruct (String.eqb_spec a b) as [<-|Hne]; [|rewrite Hs0; f_equal; lia]. rewrite Hb. f_equal.
Qed.

Lemma handle_event_skips idx ev s : idx < sd_processedEvents s -> handle_event info idx ev s = (Ok tt, s).
Proof.
  intros H. unfold handle_event, StateDB_IsEventProcessed, mbind', mreads. by rewrite (proj2 (Z.ltb_lt _ _)) by done.
Qed.

Lemma handle_event_balance idx ev s s1 : wf s -> sd_processedEvents s <= idx -> handle_event info idx ev s = (Ok tt, s1) ->
  forall b, same256 (balance s1 b) (balance s b + net ev b).
Proof.
  intros Hw Hidx. unfold handle_event, StateDB_IsEventProcessed, mbind' at 1, mreads, net.
  rewrite (proj2 (Z.ltb_ge _ _)) by done. cbv beta iota.
  destruct (String.eqb (se_type ev) EventTypeCoinSpent); [|destruct (String.eqb (se_type ev) EventTypeCoinReceived)].
  - unfold handle_spent, mbind', mlift. destruct (ParseAddress ev AttributeKeySpender) as [x| |]; simpl; try done.
    destruct (BlockedAddr x) eqn:Hbl.
    + intros [= <-] b. destruct (ParseAmount info ev); by rewrite Z.add_0_r.
    + destruct (ParseAmount info ev) as [z| |]; simpl; try done.
      destruct (StateDB_SubBalance (BytesToAddress x) z s) as [[y| |] s2] eqn:Hsub; try done. intros [= <-] b.
      eapply same256_trans; [exact (SubBalance_balance _ _ _ _ _ Hw Hsub b)|]. unfold same256. f_equal; destruct (String.eqb _ b); lia.
  - unfold handle_received, mbind', mlift. destruct (ParseAddress ev AttributeKeyReceiver) as [x| |]; simpl; try done.
    destruct (BlockedAddr x) eqn:Hbl.
    + intros [= <-] b. destruct (ParseAmount info ev); by rewrite Z.add_0_r.
    + destruct (ParseAmount info ev) as [z| |]; simpl; try done.
      destruct (StateDB_AddBalance (BytesToAddress x) z s) as [[y| |] s2] eqn:Hadd; try done. intros [= <-] b.
      eapply same256_trans; [exact (AddBalance_balance _ _ _ _ _ Hw Hadd b)|]. unfold same256. f_equal; destruct (String.eqb _ b); lia.
  - intros [= <-] b. by rewrite Z.add_0_r.
Qed.

(** Handling an event does not move the count of processed ones. *)
Definition same_processed s s' : Prop := sd_processedEvents s' = sd_processedEvents s.

#[local] Instance same_processed_preorder : PreOrder same_processed.
Proof. split; [done|]. unfold same_processed. intros s t u. congruence. Qed.

Lemma getOrNew_processed a : mrel same_processed (getOrNewStateObject a).
Proof.
  apply mrel_bind; [apply _| |].
  - intros s. rewrite getStateObject_eq. simpl. by destruct (load_set a s) as (objs & -> & _).
  - intros [o|]; [apply mrel_ret, _|]. by intros s.
Qed.

Lemma handle_event_processed idx ev : mrel same_processed (handle_event info idx ev).
Proof.
  assert (Hset : forall o z, mrel same_processed (so_SetBalance o z)) by (by intros o z s).
  apply mrel_bind; [apply _|by apply mrel_const; [apply _|]|]. intros b.
  destruct b; [by apply mrel_const; [apply _|]|].
  destruct (String.eqb _ EventTypeCoinSpent); [|destruct (String.eqb _ EventTypeCoinReceived); [|by apply mrel_const; [apply _|]]];
    (apply mrel_bind; [apply _|by apply mrel_const; [apply _|]|]; intros x; destruct (BlockedAddr x); [by apply mrel_const; [apply _|]|];
     apply mrel_bind; [apply _|by apply mrel_const; [apply _|]|]; intros z; apply mrel_bind; [apply _| |intros y; by apply mrel_const; [apply _|]];
     apply mrel_bind; [apply _|apply getOrNew_processed|]; intros o).
  - destruct (z =? 0) eqn:Hz; [by apply mrel_const; [apply _|]|]. unfold so_SubBalance. rewrite Hz.
    destruct (_ <? _); [by apply mrel_const; [apply _|]|apply Hset].
  - unfold so_AddBalance. destruct (z =? 0); [by apply mrel_const; [apply _|]|apply Hset].
Qed.

Lemma handle_events_balance l idx s s1 : wf s -> handle_events info idx l s = (Ok tt, s1) ->
  wf s1 /\ sd_processedEvents s1 = sd_processedEvents s /\
  forall b, same256 (balance s1 b) (balance s b + net_all (drop (Z.to_nat (sd_processedEvents s - idx)) l) b).
Proof.
  revert idx s. induction l as [|ev l IH]; intros idx s Hw; simpl;
    [intros [= <-]; split_and!; [done..|]; intros b; by rewrite drop_nil, Z.add_0_r|].
  unfold mbind'. destruct (handle_event info idx ev s) as [[[]| |] s0] eqn:He; try done. intros H.
  assert (wf s0) as Hw0.
  { destruct (handle_event_safe info idx ev s Hw _ _ He) as [[msg Hm]|[_ Hs]]; done. }
  pose proof (handle_event_processed idx ev s) as Hp. rewrite He in Hp. unfold same_processed in Hp. simpl in Hp.
  destruct (IH (idx + 1) s0 Hw0 H) as (Hw1 & Hp1 & Hb). split_and!; [done|congruence|]. intros b.
  eapply same256_trans; [apply Hb|]. rewrite Hp. destruct (Z.lt_ge_cases idx (sd_processedEvents s)) as [Hlt|Hge].
  - rewrite handle_event_skips in He by done. injection He as <-.
    by replace (Z.to_nat (sd_processedEvents s - idx)) with (1 + Z.to_nat (sd_processedEvents s - (idx + 1)))%nat by lia.
  - replace (Z.to_nat (sd_processedEvents s - idx)) with 0%nat by lia.
    replace (Z.to_nat (sd_processedEvents s - (idx + 1))) with 0%nat by lia. simpl. fold (net_all l b).
    replace (balance s b + (net ev b + net_all l b)) with (balance s b + net ev b + net_all l b) by lia.
    apply same256_add. by eapply handle_event_balance.
Qed.

(** The events a handler that started at [prev] applies: those the action
    emitted, except the ones before the last flush. *)
Definition unprocessed (prev : nat) s : list SdkEvent :=
  drop (Nat.max prev (Z.to_nat (sd_processedEvents s))) (cache_events s).

Lemma AfterBalanceChange_balance prev s s1 : wf s -> AfterBalanceChange info prev s = (Ok tt, s1) ->
  wf s1 /\ sd_processedEvents s1 = sd_processedEvents s /\
  forall a, same256 (balance s1 a) (balance s a + net_all (unprocessed prev s) a).
Proof.
  intros Hw H. destruct (handle_events_balance _ _ _ _ Hw H) as (Hw1 & Hp & Hb). split_and!; [done..|]. intros a.
  eapply same256_trans; [apply Hb|]. rewrite drop_drop. unfold unprocessed.
  by replace (prev + Z.to_nat (sd_processedEvents s - Z.of_nat prev))%nat
    with (Nat.max prev (Z.to_nat (sd_processedEvents s))) by lia.
Qed.

(** C33: after a native action, the balance handler changes the balance of
    every account by exactly what the coin events the action emitted say it
    received and spent (blocked addresses left out), up to the wrap-around of
    the machine word. Of the events since [prev], those before the last flush
    are skipped: a nested precompile flushed them. The handler marks no event
    as processed: where a nested handler has applied events of its own since the
    last flush, this one applies them again ([handlers_apply_twice]). *)
Theorem balance_handler_mirrors prev s s1 : wf s -> AfterBalanceChange info prev s = (Ok tt, s1) ->
  sd_processedEvents s1 = sd_processedEvents s /\
  forall a, same256 (balance s1 a)
    (balance s a + net_all (drop (Nat.max prev (Z.to_nat (sd_processedEvents s))) (cache_events s)) a).
Proof. intros Hw H. by destruct (AfterBalanceChange_balance _ _ _ Hw H) as (_ & ? & ?). Qed.

(** The handler of a nested precompile, whose flush set the counter to [n],
    followed by the handler of the precompile that called it, on the same
    events: every event since the flush is applied by both. *)
Lemma handlers_apply_twice prev n s s1 s2 : wf s -> (prev <= n)%nat -> sd_processedEvents s = Z.of_nat n ->
  AfterBalanceChange info n s = (Ok tt, s1) -> cache_events s1 = cache_events s ->
  AfterBalanceChange info prev s1 = (Ok tt, s2) ->
  forall a, same256 (balance s2 a) (balance s a + 2 * net_all (drop n (cache_events s)) a).
Proof.
  intros Hw Hn Hp H1 He H2 a. destruct (AfterBalanceChange_balance _ _ _ Hw H1) as (Hw1 & Hp1 & Hb1).
  destruct (AfterBalanceChange_balance _ _ _ Hw1 H2) as (_ & _ & Hb2).
  unfold unprocessed in Hb1, Hb2. rewrite Hp1, He, Hp, Nat2Z.id, Nat.max_r in Hb2 by done.
  rewrite Hp, Nat2Z.id, Nat.max_id in Hb1. eapply same256_trans; [apply Hb2|].
  replace (balance s a + 2 * net_all (drop n (cache_events s)) a)
    with (balance s a + net_all (drop n (cache_events s)) a + net_all (drop n (cache_events s)) a) by lia.
  by apply same256_add.
Qed.
End mirror.

(** ** Witnesses *)

Lemma native_call_witness : exists gas' s', runNativeAction (Some ref_coin) true ex_action 100000 7 ex_db = (Ok (CallOk "done", gas'), s') /\
  0 <= gas' <= 100000.
Proof.
  eexists _, _. split; [vm_compute; reflexivity|].
  apply (native_call_charges (Some ref_coin) true ex_action 100000 7 ex_db (CallOk "done") 99900
    (runNativeAction (Some ref_coin) true ex_action 100000 7 ex_db).2).
  - lia.
  - intros k evs g. simpl. lia.
  - vm_compute. reflexivity.
Defined.

Definition cached_db : ExDB := set_cache (Some (NewBranch ex_state, [])) ex_db.

Lemma precompile_limit_witness :
  is_ok (StateDB_AddPrecompileFn 0 (attempts 20 0 cached_db)).1 = false /\
  is_ok (StateDB_AddPrecompileFn 0 (attempts 255 0 cached_db)).1 = true.
Proof.
  split; rewrite (precompile_limit_wraps _ 0 cached_db (NewBranch ex_state) []); reflexivity.
Defined.

(** The reference bech32 reads a visible text as the address. *)
Definition carol : addr := "carol_carol_carol_20".

Definition coin_to (who amount : string) : SdkEvent :=
  MkSdkEvent "coin_received" [("receiver"%string, who); ("amount"%string, amount)].

(** Three coins received before the last flush, five after it. *)
Definition event_db : ExDB :=
  set_processed 1 (set_cache (Some (NewBranch ex_state, [coin_to carol "3axit"; coin_to carol "5axit"])) ex_db).

Lemma event_db_wf : wf event_db.
Proof.
  constructor; simpl; [intros a o; by rewrite lookup_empty|intros a n; by rewrite lookup_empty|apply newAccessList_wf|done].
Qed.

(** The outer handler, from the first event, credits the second only. *)
Lemma balance_handler_witness : exists s1, AfterBalanceChange (Some ref_coin) 0 event_db = (Ok tt, s1) /\
  balance event_db carol = 0 /\ same256 (balance s1 carol) 5.
Proof.
  exists (AfterBalanceChange (Some ref_coin) 0 event_db).2. split_and!; [vm_compute; reflexivity..|].
  refine (proj2 (balance_handler_mirrors (Some ref_coin) 0 event_db
    (AfterBalanceChange (Some ref_coin) 0 event_db).2 event_db_wf _) carol).
  vm_compute. reflexivity.
Defined.

(** With the nested handler before it, the five coins are credited twice. *)
Lemma nested_credit_doubled : exists s1 s2, AfterBalanceChange (Some ref_coin) 1 event_db = (Ok tt, s1) /\
  AfterBalanceChange (Some ref_coin) 0 s1 = (Ok tt, s2) /\ balance s1 carol = 5 /\ balance s2 carol = 10.
Proof.
  exists (AfterBalanceChange (Some ref_coin) 1 event_db).2,
    (AfterBalanceChange (Some ref_coin) 0 (AfterBalanceChange (Some ref_coin) 1 event_db).2).2.
  split_and!; vm_compute; reflexivity.
Qed.
