(* ===== verification/Permissions.v ===== *)
(** * x/vm/types: who may create and call contracts

    The access control of params.go, the policy of permissions.go and the
    opcode hooks of opcodes_hooks.go that enforce it. A hook is a function of
    the caller (and the recipient); the EVM it is given is not read. *)

From Stdlib Require Import ZArith Lia List String Ascii Bool.
From stdpp Require Import base gmap strings list.
From S2P Require Import Prelude GoStrings Sdk.
Local Open Scope Z_scope.
Local Open Scope go_scope.

(** ** params.go *)

(** The enumeration of the protobuf definition; another number can be decoded. *)
Inductive AccessType :=
| AccessTypePermissionless
| AccessTypeRestricted
| AccessTypePermissioned
| AccessTypeUnknown (n : Z).

Record AccessControlType := MkAccessControlType { act_AccessType : AccessType; act_List : list string }.
Record AccessControl := MkAccessControl { ac_Create : AccessControlType; ac_Call : AccessControlType }.

Definition validateAccessType (t : AccessType) : outcome unit :=
  match t with
  | AccessTypeUnknown _ => Err "invalid access type"
  | _ => Ok tt
  end.

Section permissions.
Context {Ec : EthCommon}.

(** utils.ValidateAddress *)
Definition ValidateAddress (a : string) : outcome unit :=
  oguard (IsHexAddress a) ("address '" +:+ a +:+ "' is not a valid ethereum hex address")%string.

Fixpoint validateAllowlistAddresses (l : list string) : outcome unit :=
  match l with
  | [] => Ok tt
  | a :: l' =>
    match ValidateAddress a with
    | Ok _ => validateAllowlistAddresses l'
    | _ => Err ("invalid whitelist address: " +:+ a)%string
    end
  end.

Definition AccessControlType_Validate (act : AccessControlType) : outcome unit :=
  odo validateAccessType (act_AccessType act);
  validateAllowlistAddresses (act_List act).

Definition AccessControl_Validate (ac : AccessControl) : outcome unit :=
  odo AccessControlType_Validate (ac_Create ac);
  AccessControlType_Validate (ac_Call ac).

(** ** permissions.go *)

Definition newAddressSet (l : list string) : gset addr := list_to_set (map HexToAddress l).

Definition permissionlessCheckFn (addresses : list string) (signer : addr) : addr -> bool :=
  let blocked := newAddressSet addresses in
  let isSignerAllowed := negb (bool_decide (signer ∈ blocked)) in
  fun caller => isSignerAllowed && negb (bool_decide (caller ∈ blocked)).

Definition permissionedCheckFn (addresses : list string) (signer : addr) : addr -> bool :=
  let allowed := newAddressSet addresses in
  let isSignerAllowed := bool_decide (signer ∈ allowed) in
  fun caller => isSignerAllowed || bool_decide (caller ∈ allowed).

Definition check_fn (act : AccessControlType) (signer : addr) : addr -> bool :=
  match act_AccessType act with
  | AccessTypePermissionless => permissionlessCheckFn (act_List act) signer
  | AccessTypePermissioned => permissionedCheckFn (act_List act) signer
  | AccessTypeRestricted | AccessTypeUnknown _ => fun _ => false
  end.
Definition getCanCreateFn (ac : AccessControl) : addr -> addr -> bool := check_fn (ac_Create ac).
Definition getCanCallFn (ac : AccessControl) : addr -> addr -> bool := check_fn (ac_Call ac).

Record RestrictedPermissionPolicy := MkPolicy { canCreate : addr -> bool; canCall : addr -> bool }.
Definition NewRestrictedPermissionPolicy (ac : AccessControl) (signer : addr) : RestrictedPermissionPolicy :=
  MkPolicy (getCanCreateFn ac signer) (getCanCallFn ac signer).

Definition CreateHook : Type := addr -> outcome unit.
Definition CallHook : Type := addr -> addr -> outcome unit.

Definition GetCreateHook (p : RestrictedPermissionPolicy) : CreateHook := fun caller =>
  oguard (canCreate p caller) "caller address does not have permission to deploy contracts".
Definition GetCallHook (p : RestrictedPermissionPolicy) : CallHook := fun caller _ =>
  oguard (canCall p caller) "caller address does not have permission to perform a call".

(** ** opcodes_hooks.go *)

Record DefaultOpCodesHooks := MkHooks { callHooks : list CallHook; createHooks : list CreateHook }.
Definition NewDefaultOpCodesHooks : DefaultOpCodesHooks := MkHooks [] [].
Definition AddCallHooks (hs : list CallHook) (h : DefaultOpCodesHooks) : DefaultOpCodesHooks :=
  MkHooks (callHooks h ++ hs) (createHooks h).
Definition AddCreateHooks (hs : list CreateHook) (h : DefaultOpCodesHooks) : DefaultOpCodesHooks :=
  MkHooks (callHooks h) (createHooks h ++ hs).

Fixpoint run_create (hs : list CreateHook) (caller : addr) : outcome unit :=
  match hs with [] => Ok tt | h :: hs' => odo h caller; run_create hs' caller end.
Fixpoint run_call (hs : list CallHook) (caller recipient : addr) : outcome unit :=
  match hs with [] => Ok tt | h :: hs' => odo h caller recipient; run_call hs' caller recipient end.
Definition hooks_Create (h : DefaultOpCodesHooks) : addr -> outcome unit := run_create (createHooks h).
Definition hooks_Call (h : DefaultOpCodesHooks) : addr -> addr -> outcome unit := run_call (callHooks h).

(** ** ante/evm/04_validate.go *)

(** [to] is nil for the creation of a contract. *)
Definition is_restricted (t : AccessType) : bool := match t with AccessTypeRestricted => true | _ => false end.
Definition checkDisabledCreateCall (to : option addr) (ac : AccessControl) : outcome unit :=
  let blockCreate := is_restricted (act_AccessType (ac_Create ac)) in
  let blockCall := is_restricted (act_AccessType (ac_Call ac)) in
  if blockCreate && bool_decide (to = None) then Err "failed to create new contract: EVM Create operation is disabled"
  else if blockCall && negb (bool_decide (to = None)) then Err "failed to perform a call: EVM Call operation is disabled"
  else Ok tt.
End permissions.

(** ** Facts *)

Section facts.
Context {Ec : EthCommon}.

(** What each access type allows, for a signer and a caller. *)
Lemma check_fn_spec act signer caller : check_fn act signer caller = true <->
  match act_AccessType act with
  | AccessTypePermissionless => forall s, s ∈ act_List act -> HexToAddress s <> signer /\ HexToAddress s <> caller
  | AccessTypePermissioned => exists s, s ∈ act_List act /\ (HexToAddress s = signer \/ HexToAddress s = caller)
  | AccessTypeRestricted | AccessTypeUnknown _ => False
  end.
Proof.
  unfold check_fn, permissionlessCheckFn, permissionedCheckFn, newAddressSet.
  destruct (act_AccessType act); try done.
  - rewrite andb_true_iff, !negb_true_iff, !bool_decide_eq_false, !elem_of_list_to_set, !list_elem_of_fmap. split.
    + intros [H1 H2] s Hs. split; intros Heq; [apply H1|apply H2]; by exists s.
    + intros H. split; intros (s & -> & Hs); by destruct (H s Hs).
  - rewrite orb_true_iff, !bool_decide_eq_true, !elem_of_list_to_set, !list_elem_of_fmap. split.
    + intros [(s & -> & Hs)|(s & -> & Hs)]; exists s; auto.
    + intros (s & Hs & [<-|<-]); [left|right]; by exists s.
Qed.

Lemma hooks_of_policy p caller recipient :
  let h := AddCreateHooks [GetCreateHook p] (AddCallHooks [GetCallHook p] NewDefaultOpCodesHooks) in
  (hooks_Create h caller = Ok tt <-> canCreate p caller = true) /\
  (hooks_Call h caller recipient = Ok tt <-> canCall p caller = true).
Proof.
  simpl. unfold hooks_Create, hooks_Call, GetCreateHook, GetCallHook, oguard. simpl.
  destruct (canCreate p caller), (canCall p caller); simpl; naive_solver.
Qed.
End facts.
