(* ===== verification/EvmTx.v ===== *)
(** * x/vm: Ethereum transactions and their fees

    types/msg.go, types/tx.go, the fee and search helpers of types/utils.go,
    types/scaling.go on decimals and coins, and the fee checks of
    keeper/fees.go. A transaction is go-ethereum's; what the code reads of it is
    the record [Transaction], what it computes with go-ethereum is the class
    [TxLibs]. *)

From Stdlib Require Import ZArith Lia List String Ascii Bool.
From stdpp Require Import base gmap strings list.
From S2P Require Import Prelude GoStrings Sdk AccessList SnapshotStore StateDB EvmCoin FeeMarket Precompile.
Local Open Scope Z_scope.
Local Open Scope go_scope.

(** ** go-ethereum *)

(** An EIP-7702 authorization; [au_Authority] is the signer recovered from it. *)
Record SetCodeAuth := MkSetCodeAuth {
  au_ChainID : Z;
  au_Address : addr;
  au_Nonce : Z;
  au_Authority : outcome addr;
}.

Record Transaction := MkTransaction {
  tx_Type : Z;
  tx_Nonce : Z;
  tx_Gas : Z;
  tx_GasFeeCap : Z;
  tx_GasTipCap : Z;
  tx_To : option addr;
  tx_Value : Z;
  tx_Data : bytes;
  tx_AccessList : list (addr * list hash);
  tx_Authorizations : list SetCodeAuth;
  tx_Signature : bytes;
}.

Definition DynamicFeeTxType : Z := 2.
Definition SetCodeTxType : Z := 4.

(** The fields of [ethtypes.Header] that are set. *)
Record Header := MkHeader { hd_GasLimit : Z; hd_BaseFee : option Z; hd_Number : Z; hd_Time : Z }.

Class TxLibs := {
  Signer : Type;
  MakeSigner : Z -> Z -> Signer;                          (* block number and time *)
  Sender : Signer -> Transaction -> outcome addr;
  GasPrice : Transaction -> Z;
  Cost : Transaction -> Z;
  EffectiveGasTip : Transaction -> option Z -> Z;         (* its error is always dropped *)
  IntrinsicGas : bytes -> list (addr * list hash) -> list SetCodeAuth -> bool -> bool -> bool -> bool -> outcome Z;
  ValidateTransaction : Transaction -> Header -> Signer -> Z -> outcome unit;
  DefaultPowerReduction : Z;                              (* of the Cosmos SDK *)
  cfg_IsLondon : Z -> bool;
  cfg_Rules : Z -> Z -> bool * bool * bool;               (* homestead, istanbul, shanghai *)
  Sender_length s t a : Sender s t = Ok a -> String.length a = 20%nat;
  IntrinsicGas_nonneg data al auths c h i sh g : IntrinsicGas data al auths c h i sh = Ok g -> 0 <= g;
  DefaultPowerReduction_pos : 0 < DefaultPowerReduction;
  (* a transaction without a price of its own pays up to its fee cap *)
  GasPrice_spec t : GasPrice t = tx_GasFeeCap t;
  Cost_spec t : Cost t = GasPrice t * tx_Gas t + tx_Value t;
  EffectiveGasTip_spec t baseFee : EffectiveGasTip t baseFee =
    match baseFee with
    | None => tx_GasTipCap t
    | Some b => Z.min (tx_GasTipCap t) (tx_GasFeeCap t - b)
    end;
  (* the checks of the transaction pool: no negative value, a tip from zero
     (the minimum tip asked for) to the fee cap *)
  ValidateTransaction_ok t h s accept : ValidateTransaction t h s accept = Ok tt ->
    0 <= tx_Value t /\ 0 <= tx_GasTipCap t <= tx_GasFeeCap t;
}.

(** [int64(x)] of an unsigned word. *)
Definition to_int64 (z : Z) : Z := (z + 2 ^ 63) mod two64 - 2 ^ 63.

(** ** utils.go: the search for a gas limit *)

(** [BinSearch]; [executable] answers whether the call failed. [None] is a
    search that has not ended within the fuel. *)
Fixpoint BinSearch (fuel : nat) (lo hi : Z) (executable : Z -> outcome bool) : option (outcome Z) :=
  match fuel with
  | O => None
  | S fuel' =>
    if u64 (lo + 1) <? hi then
      let mid := u64 (hi + lo) / 2 in
      match executable mid with
      | Ok failed => if failed then BinSearch fuel' mid hi executable else BinSearch fuel' lo mid executable
      | Err e => Some (Err e)
      | Panic e => Some (Panic e)
      end
    else Some (Ok hi)
  end.

Section evmtx.
Context {Ge : TxLibs} {Dc : SdkDec} {Ma : SdkMath}.

(** ** scaling.go *)

Definition ConvertAmountTo18DecimalsLegacy (info : option EvmCoinInfo) (amt : Z) : outcome Z :=
  olet f <- conversion_factor info; Dec_MulInt amt f.

Definition ConvertBigIntFrom18DecimalsToLegacyDec (info : option EvmCoinInfo) (amt : Z) : outcome Z :=
  olet f <- conversion_factor info; Dec_QuoInt (NewDecFromInt amt) f.

(** The denomination of the EVM coin is replaced, then the coins are sorted by
    the library. *)
Definition convert_coin (i : EvmCoinInfo) (c : Coin) : Coin :=
  if String.eqb (Denom c) (ci_Denom i) then MkCoin (ci_ExtendedDenom i) (Amount c) else c.
Definition ConvertCoinsDenomToExtendedDenom (Sort : list Coin -> list Coin) (info : option EvmCoinInfo)
    (coins : list Coin) : outcome (list Coin) :=
  olet i <- getCoinInfo info; Ok (Sort (map (convert_coin i) coins)).

(** ** utils.go *)

Definition EffectiveGasPrice (baseFee feeCap tipCap : Z) : Z :=
  let calcVal := tipCap + baseFee in
  if calcVal <? feeCap then calcVal else feeCap.

(** [GetBaseFee]: nil before London. *)
Definition evm_GetBaseFee (info : option EvmCoinInfo) (height : Z) (p : FmParams) : outcome (option Z) :=
  if negb (cfg_IsLondon height) then Ok None
  else if NoBaseFee p then Ok (Some 0)
  else
    olet b <- dec_get (BaseFee p);
    if b =? 0 then Ok (Some 0)
    else olet c <- ConvertAmountTo18DecimalsLegacy info b; Ok (Some (Dec_TruncateInt c)).

(** ** tx.go *)

Definition DefaultPriorityReduction : Z := DefaultPowerReduction.

Definition is_int64 (z : Z) : bool := (- 2 ^ 63 <=? z) && (z <=? MaxInt64).

Definition GetTxPriority (t : Transaction) (baseFee : option Z) : Z :=
  let priorityBig := Z.quot (EffectiveGasTip t baseFee) DefaultPriorityReduction in
  if is_int64 priorityBig then priorityBig else MaxInt64.

(** ** msg.go *)

Record MsgEthereumTx := MkMsgEthereumTx { em_From : bytes; em_Raw : option Transaction }.

(** A method of a nil transaction dereferences it. *)
Definition raw_tx (m : MsgEthereumTx) : outcome Transaction :=
  match em_Raw m with Some t => Ok t | None => Panic nil_deref end.

Definition too_long (z : Z) : bool := two256 <=? Z.abs z.

Definition EthMsg_ValidateBasic (m : MsgEthereumTx) : outcome unit :=
  match em_Raw m with
  | None => Err "raw transaction is required"
  | Some t =>
    odo oguard (negb (len (em_From m) =? 0)) "sender address is missing";
    odo oguard (negb (tx_Value t <? 0)) "negative value";
    odo oguard (negb (too_long (tx_GasFeeCap t))) "max fee per gas higher than 2^256-1";
    odo oguard (negb (too_long (tx_GasTipCap t))) "max priority fee per gas higher than 2^256-1";
    odo oguard (negb (tx_GasTipCap t <? 0)) "transaction gas price below minimum";
    odo oguard (negb (tx_GasFeeCap t <? tx_GasTipCap t)) "max priority fee per gas higher than max fee per gas";
    olet intrGas <- IntrinsicGas (tx_Data t) (tx_AccessList t) (tx_Authorizations t)
                      (bool_decide (tx_To t = None)) true true true;
    odo oguard (negb (tx_Gas t <? intrGas)) "intrinsic gas too low";
    if tx_Type t =? SetCodeTxType
    then oguard (negb (Nat.eqb (length (tx_Authorizations t)) 0)) "set code tx must have at least one authorization tuple"
    else Ok tt
  end.

Definition GetFee (m : MsgEthereumTx) : outcome Z :=
  olet t <- raw_tx m; Ok (tx_Gas t * GasPrice t).

Definition GetEffectiveFee (m : MsgEthereumTx) (baseFee : Z) : outcome Z :=
  olet t <- raw_tx m; Ok (tx_Gas t * (EffectiveGasTip t (Some baseFee) + baseFee)).

Definition GetSender (m : MsgEthereumTx) : addr := BytesToAddress (em_From m).

Record CoreMessage := MkCoreMessage {
  cm_From : addr;
  cm_To : option addr;
  cm_Nonce : Z;
  cm_Value : Z;
  cm_GasLimit : Z;
  cm_GasPrice : Z;
  cm_GasFeeCap : Z;
  cm_GasTipCap : Z;
  cm_Data : bytes;
  cm_AccessList : list (addr * list hash);
  cm_Authorizations : list SetCodeAuth;
}.

Definition AsMessage (m : MsgEthereumTx) (baseFee : option Z) : outcome CoreMessage :=
  olet t <- raw_tx m;
  let gasPrice := match baseFee with
                  | None => GasPrice t
                  | Some b => let p := tx_GasTipCap t + b in if tx_GasFeeCap t <? p then tx_GasFeeCap t else p
                  end in
  Ok (MkCoreMessage (GetSender m) (tx_To t) (tx_Nonce t) (tx_Value t) (tx_Gas t) gasPrice
        (tx_GasFeeCap t) (tx_GasTipCap t) (tx_Data t) (tx_AccessList t) (tx_Authorizations t)).

Definition VerifySender (m : MsgEthereumTx) (signer : Signer) : outcome unit :=
  olet t <- raw_tx m;
  olet from <- Sender signer t;
  oguard (String.eqb (em_From m) from) "sender verification failed".

(** A message of a transaction. *)
Inductive TxMsg := EthMsg (m : MsgEthereumTx) | OtherMsg (typeName : string).

Definition UnpackEthMsg (m : TxMsg) : outcome (MsgEthereumTx * option Transaction) :=
  match m with
  | EthMsg m => Ok (m, em_Raw m)
  | OtherMsg n => Err ("invalid message type " +:+ n +:+ ", expected *types.MsgEthereumTx")%string
  end.

(** ** keeper/fees.go: checks *)

Definition CheckSenderBalance (balance : Z) (t : Transaction) : outcome unit :=
  let cost := Cost t in
  odo oguard (negb (cost <? 0)) "tx cost is negative and invalid";
  oguard (negb ((balance <? 0) || (balance <? cost))) "sender balance < tx cost".

(** The fee in 18 decimals; a nil base fee is dereferenced by the sum. *)
Definition VerifyFee (t : Transaction) (denom : string) (baseFee : option Z)
    (homestead istanbul shanghai isCheckTx : bool) : outcome (list Coin) :=
  olet intrinsicGas <- owrap "failed to retrieve intrinsic gas"
    (IntrinsicGas (tx_Data t) (tx_AccessList t) (tx_Authorizations t) (bool_decide (tx_To t = None))
       homestead istanbul shanghai);
  odo oguard (negb (isCheckTx && (tx_Gas t <? intrinsicGas))) "gas limit too low";
  odo match baseFee with
      | Some b => oguard (negb (tx_GasFeeCap t <? b)) "the tx gasfeecap is lower than the tx baseFee"
      | None => Ok tt
      end;
  match baseFee with
  | None => Panic nil_deref
  | Some b =>
    let feeAmt := tx_Gas t * (EffectiveGasTip t baseFee + b) in
    if feeAmt =? 0 then Ok [] else olet amt <- NewIntFromBigInt feeAmt; Ok [MkCoin denom amt]
  end.

(** ** Facts *)

Lemma EffectiveGasPrice_min b f t : EffectiveGasPrice b f t = Z.min (t + b) f.
Proof. unfold EffectiveGasPrice. destruct (Z.ltb_spec (t + b) f); lia. Qed.

(** The price of the message is the price of the fee. *)
Lemma AsMessage_price m b cm t : em_Raw m = Some t -> AsMessage m (Some b) = Ok cm ->
  cm_GasPrice cm = EffectiveGasTip t (Some b) + b /\ cm_GasPrice cm = EffectiveGasPrice b (tx_GasFeeCap t) (tx_GasTipCap t).
Proof.
  intros Hr. unfold AsMessage, raw_tx. rewrite Hr. intros [= <-]. simpl. rewrite EffectiveGasPrice_min, EffectiveGasTip_spec.
  destruct (Z.ltb_spec (tx_GasFeeCap t) (tx_GasTipCap t + b)); lia.
Qed.
End evmtx.

(** ** The search for a gas limit *)

Lemma bin_search_mid lo hi : 0 <= lo -> lo + 1 < hi -> 2 * hi <= two64 ->
  lo < u64 (hi + lo) / 2 < hi /\ u64 (lo + 1) = lo + 1.
Proof.
  intros H0 H1 H2. rewrite !u64_small by (unfold is_u64, two64 in *; lia). split; [|done]. split.
  - apply Z.lt_le_trans with (lo + 1); [lia|]. apply Z.div_le_lower_bound; lia.
  - apply Z.div_lt_upper_bound; lia.
Qed.

(** The binary search for a gas limit ends within as many steps as there
    are candidates and finds the smallest one, for bounds up to 2^63: if the call never fails with
    more gas than it succeeded with, every smaller limit fails, and the result
    succeeds unless it is the upper bound, which is not tried. *)
Theorem bin_search_smallest executable fuel lo hi : 0 <= lo < hi -> 2 * hi <= two64 ->
  (Z.to_nat (hi - lo) <= fuel)%nat ->
  (forall g, lo < g < hi -> exists failed, executable g = Ok failed) ->
  (forall g g', lo < g <= g' -> g' < hi -> executable g = Ok false -> executable g' = Ok false) ->
  exists r, BinSearch fuel lo hi executable = Some (Ok r) /\ lo < r <= hi /\
    (forall g, lo < g < r -> executable g = Ok true) /\ (r < hi -> executable r = Ok false).
Proof.
  revert lo hi. induction fuel as [|fuel IH]; intros lo hi Hr Hs Hf Ht Hm; [lia|]. simpl.
  destruct (Z.lt_ge_cases (lo + 1) hi) as [Hlt|Hge].
  2: { rewrite u64_small by (unfold is_u64, two64 in *; lia). rewrite (proj2 (Z.ltb_ge _ _)) by lia.
       exists hi. split_and!; try done; lia. }
  destruct (bin_search_mid lo hi) as [Hmid ->]; [lia..|]. rewrite (proj2 (Z.ltb_lt _ _)) by lia.
  set (mid := u64 (hi + lo) / 2) in *. destruct (Ht mid Hmid) as [failed Hex]. rewrite Hex. destruct failed.
  - destruct (IH mid hi) as (r & Hb & Hr' & Hsm & Hok); [lia|lia|lia| | |].
    + intros g Hg. apply Ht. lia.
    + intros g g' Hg Hg' He. apply (Hm g g'); [lia|lia|done].
    + exists r. split_and!; try done; try lia. intros g Hg. destruct (Z.le_gt_cases g mid) as [Hle|]; [|apply Hsm; lia].
      destruct (Ht g) as [[] Hg']; [lia|done|]. rewrite (Hm g mid ltac:(lia) ltac:(lia) Hg') in Hex. done.
  - destruct (IH lo mid) as (r & Hb & Hr' & Hsm & Hok); [lia|lia|lia| | |].
    + intros g Hg. apply Ht. lia.
    + intros g g' Hg Hg' He. apply (Hm g g'); [lia|lia|done].
    + exists r. split_and!; try done; try lia. intros _. destruct (Z.eq_dec r mid) as [->|]; [done|]. apply Hok. lia.
Qed.

(** A call that needs 53 units of gas. *)
Lemma bin_search_witness : BinSearch 100 20 120 (fun g => Ok (g <? 53)) = Some (Ok 53).
Proof.
  destruct (bin_search_smallest (fun g => Ok (g <? 53)) 100 20 120) as (r & Hb & Hr & Hs & Hok); [lia|done|done| | |].
  - intros g _. by eexists.
  - intros g g' Hg _ [= He]. zify_bool. f_equal. apply Z.ltb_ge. lia.
  - rewrite Hb. do 2 f_equal. destruct (Z.lt_trichotomy r 53) as [Hlt|[->|Hgt]]; [|done|].
    + specialize (Hok ltac:(lia)). injection Hok as Hok. zify_bool. lia.
    + specialize (Hs 53 ltac:(lia)). done.
Defined.
