(* ===== verification/EvmAnte.v ===== *)
(** * ante/evm: the checks before an Ethereum transaction runs

    The mono decorator (mono_decorator.go) with its ten steps (01 to 09, utils.go
    and types/block.go), and the part of x/vm/keeper/fees.go and
    x/vm/wrappers/bank.go it calls to take the fee. The state is the one of the
    EVM keeper and the cached result of the signature check; a returned error
    keeps the writes made so far, which the SDK discards with the transaction.
    The result of the decorator is the context it hands to the next one: the gas
    limit of the meter and the priority. Events are left out. *)

From Stdlib Require Import ZArith Lia List String Ascii Bool.
From stdpp Require Import base gmap strings list.
From S2P Require Import Prelude GoStrings Sdk AccessList SnapshotStore StateDB EvmCoin FeeMarket Precompile VmKeeper.
From S2P Require Import Permissions EvmTx.
Local Open Scope Z_scope.
Local Open Scope go_scope.

(** ** The transaction and its context *)

Record TxFee := MkTxFee { fe_Amount : list Coin; fe_GasLimit : Z; fe_Payer : string; fe_Granter : string }.

(** The protobuf transaction; of the lists only the lengths are read. *)
Record ProtoTx := MkProtoTx {
  pt_Memo : string;
  pt_TimeoutHeight : Z;
  pt_NonCriticalExtensionOptions : nat;
  pt_ExtensionOptions : nat;
  pt_SignerInfos : nat;
  pt_Fee : option TxFee;
  pt_Tip : bool;
  pt_Signatures : nat;
}.

(** What [ValidateBasic] of the SDK's transaction returns. *)
Inductive BasicResult := BasicOk | BasicNoSignatures | BasicErr (e : string).

(** [ct_ValidateBasic] and [ct_Proto] are absent when the transaction does not
    implement the interface. *)
Record CosmosTx := MkCosmosTx {
  ct_ValidateBasic : option BasicResult;
  ct_Proto : option ProtoTx;
  ct_IsGasTx : bool;
  ct_Msgs : list TxMsg;
}.

Record AnteCtx := MkAnteCtx {
  cx_Height : Z;
  cx_Time : Z;
  cx_CheckTx : bool;
  cx_ReCheckTx : bool;
  cx_SigverifyTx : bool;
  cx_MinGasPrice : Z;                 (* MinGasPrices().AmountOf(denom) *)
  cx_MaxGas : option Z;               (* of the consensus parameters *)
}.

(** The value cached for the signature check: a nil error, an error, or a value
    of another type. *)
Inductive SigCache := SigOk | SigErr (e : string) | SigOther.

(** ** The libraries *)

(** Coins, fee deduction and the bank's transfers to a module account. *)
Class FeeLibs (W : Type) := {
  Coins_IsValid : list Coin -> bool;
  Coins_IsZero : list Coin -> bool;
  Coins_Sort : list Coin -> list Coin;
  Coins_AmountOf : list Coin -> string -> Z;
  ModuleAddress : string -> addr;
  bank_DenomUnits : W -> string -> option (list (string * Z));   (* GetDenomMetaData *)
  bank_SendToModule : addr -> string -> list Coin -> W -> outcome unit * W;
  (* what the bank owes a module account: it pays it out when the block ends *)
  bank_Virtual : W -> string -> string -> Z;
  bank_SendToModuleVirtual : addr -> string -> list Coin -> W -> outcome unit * W;
  (* the SDK's own ante function, over a bank keeper *)
  auth_DeductFees : (addr -> string -> list Coin -> W -> outcome unit * W) ->
    addr -> list Coin -> W -> outcome unit * W;
  coin_info_Unmarshal : bytes -> outcome EvmCoinInfo;
}.

Definition FeeCollectorName : string := "fee_collector".

(** The laws describe successful calls; an existing account is kept by a
    transfer. A virtual transfer adds to what the module is credited at the end
    of the block, which no other operation here changes. *)
Class FeeLaws (W : Type) `{!AuthBank W, !FeeLibs W} := {
  Coins_Sort_one c : Coins_Sort [c] = [c];
  Coins_IsZero_nil : Coins_IsZero [] = true;
  Coins_IsZero_one c : Coins_IsZero [c] = (Amount c =? 0);
  auth_DeductFees_ok send a fees (w w' : W) : auth_DeductFees send a fees w = (Ok tt, w') ->
    send a FeeCollectorName fees w = (Ok tt, w');
  bank_SendToModule_ok a m d amt (w w' : W) : bank_SendToModule a m [MkCoin d amt] w = (Ok tt, w') ->
    amt <= bank_SpendableCoin w a d /\
    (forall b d', bank_GetBalance w' b d' = bank_GetBalance w b d'
       - (if bool_decide (b = a /\ d' = d) then amt else 0)
       + (if bool_decide (b = ModuleAddress m /\ d' = d) then amt else 0)) /\
    (forall b acc, auth_GetAccount w b = Some acc -> auth_GetAccount w' b = Some acc) /\
    (forall m' d', bank_Virtual w' m' d' = bank_Virtual w m' d');
  virtual_set_account a acc (w : W) m d : bank_Virtual (auth_SetAccount a acc w) m d = bank_Virtual w m d;
  virtual_new_account a (w : W) m d : bank_Virtual (auth_NewAccount a w).2 m d = bank_Virtual w m d;
  bank_SendToModuleVirtual_ok a m d amt (w w' : W) :
    bank_SendToModuleVirtual a m [MkCoin d amt] w = (Ok tt, w') ->
    amt <= bank_SpendableCoin w a d /\
    (forall b d', bank_GetBalance w' b d' = bank_GetBalance w b d'
       - (if bool_decide (b = a /\ d' = d) then amt else 0)) /\
    (forall b acc, auth_GetAccount w b = Some acc -> auth_GetAccount w' b = Some acc) /\
    (forall m' d', bank_Virtual w' m' d' = bank_Virtual w m' d' + (if bool_decide (m' = m /\ d' = d) then amt else 0));
}.

(** ** ante/types/block.go *)

Definition BlockGasLimit (ctx : AnteCtx) : Z :=
  match cx_MaxGas ctx with
  | None => 0
  | Some maxGas => if maxGas =? -1 then MaxUint64 else if 0 <? maxGas then maxGas else 0
  end.

(** ** 04_validate.go *)

Definition ValidateTx (tx : CosmosTx) : outcome (option TxFee) :=
  odo match ct_ValidateBasic tx with
      | Some (BasicErr e) => Err ("tx basic validation failed: " +:+ e)%string
      | _ => Ok tt
      end;
  match ct_Proto tx with
  | None => Err "invalid tx type, didn't implement interface ProtoTxProvider"
  | Some p =>
    odo oguard (negb (negb (String.eqb (pt_Memo p) EmptyString) || negb (pt_TimeoutHeight p =? 0) ||
                      negb (Nat.eqb (pt_NonCriticalExtensionOptions p) 0)))
      "for eth tx body Memo TimeoutHeight NonCriticalExtensionOptions should be empty";
    odo oguard (Nat.eqb (pt_ExtensionOptions p) 1) "for eth tx length of ExtensionOptions should be 1";
    odo oguard (Nat.eqb (pt_SignerInfos p) 0) "for eth tx AuthInfo SignerInfos should be empty";
    match pt_Fee p with
    | None => Err "authInfo.Fee should not be nil"
    | Some fee =>
      odo oguard (String.eqb (fe_Payer fee) EmptyString && String.eqb (fe_Granter fee) EmptyString)
        "for eth tx AuthInfo Fee payer and granter should be empty";
      odo oguard (negb (pt_Tip p)) "authInfo.Tip must be nil";
      odo oguard (Nat.eqb (pt_Signatures p) 0) "for eth tx Signatures should be empty";
      Ok (Some fee)
    end
  end.

Section ante.
Context {Ge : TxLibs} {Dc : SdkDec} {Ma : SdkMath} {Ty : SdkTypes} {Ec : EthCommon} {Cr : EthCrypto}.
Context {W : Type} {Ab : AuthBank W} {Fb : FeeLibs W}.

Definition ValidateMsg (ac : AccessControl) (ethTx : option Transaction) : outcome unit :=
  match ethTx with
  | None => Err "transaction is nil"
  | Some t => checkDisabledCreateCall (tx_To t) ac
  end.

Definition CheckTxFee (info : option EvmCoinInfo) (fee : option TxFee) (txFee txGasLimit : Z) : outcome unit :=
  match fee with
  | None => Ok tt
  | Some fi =>
    olet d <- GetEVMCoinExtendedDenom info;
    olet want <- NewIntFromBigInt txFee;
    odo oguard (Coins_AmountOf (fe_Amount fi) d =? want) "invalid AuthInfo Fee Amount";
    oguard (fe_GasLimit fi =? txGasLimit) "invalid AuthInfo Fee GasLimit"
  end.

(** ** 01, 02 and 03 *)

Definition SetupContextAndResetTransientGas (tx : CosmosTx) : outcome unit :=
  oguard (ct_IsGasTx tx) "invalid transaction type, expected GasTx".

Definition CheckMempoolFee (fee mempoolMinGasPrice gasLimit : Z) (isLondon : bool) : outcome unit :=
  if isLondon then Ok tt
  else olet requiredFee <- Dec_Mul mempoolMinGasPrice gasLimit;
       oguard (negb (fee <? requiredFee)) "insufficient fee".

Definition CheckGlobalFee (fee : Z) (globalMinGasPrice : option Z) (gasLimit : Z) : outcome unit :=
  olet price <- dec_get globalMinGasPrice;
  if price =? 0 then Ok tt
  else olet requiredFee <- Dec_Mul price gasLimit;
       oguard (negb (fee <? requiredFee)) "provided fee < minimum global fee".

(** ** utils.go *)

Record DecoratorUtils := MkDecoratorUtils {
  du_IsLondon : bool;
  du_Homestead : bool;
  du_Istanbul : bool;
  du_Shanghai : bool;
  du_Signer : Signer;
  du_BaseFee : option Z;
  du_MempoolMinGasPrice : Z;
  du_GlobalMinGasPrice : option Z;
}.

Definition NewMonoDecoratorUtils (info : option EvmCoinInfo) (ctx : AnteCtx) (fm : FmParams) : outcome DecoratorUtils :=
  odo GetEVMCoinDenom info;
  let '(homestead, istanbul, shanghai) := cfg_Rules (cx_Height ctx) (u64 (cx_Time ctx)) in
  let isLondon := cfg_IsLondon (cx_Height ctx) in
  olet baseFee <- evm_GetBaseFee info (cx_Height ctx) fm;
  odo oguard (negb (isLondon && bool_decide (baseFee = None))) "base fee is supported but evm block context value is nil";
  olet mempoolMinGasPrice <- ConvertAmountTo18DecimalsLegacy info (cx_MinGasPrice ctx);
  Ok (MkDecoratorUtils isLondon homestead istanbul shanghai (MakeSigner (cx_Height ctx) (u64 (cx_Time ctx)))
        baseFee mempoolMinGasPrice (MinGasPrice fm)).

(** ** The state *)

Record AnteState := MkAnteState { as_vm : VmState W; as_sigcache : option SigCache }.
Abbreviation MA := (M AnteState).

Definition with_vm {A} (m : M (VmState W) A) : MA A := fun s =>
  let '(r, k) := m (as_vm s) in (r, MkAnteState k (as_sigcache s)).
Definition with_world {A} (f : W -> outcome A * W) : M (VmState W) A := fun k =>
  let '(r, w) := f (vk_world k) in (r, set_world w k).

(** ** 05_signature_verification.go *)

Definition SignatureVerification (msg : MsgEthereumTx) (signer : Signer) : outcome unit :=
  owrap "signature verification failed" (VerifySender msg signer).

(** A panic of the check is not cached. *)
Definition verifyEthSigCached (ctx : AnteCtx) (verify : outcome unit) : MA unit := fun s =>
  if negb (cx_SigverifyTx ctx) then (Ok tt, s)
  else match as_sigcache s with
       | Some SigOk => (Ok tt, s)
       | Some (SigErr e) => (Err e, s)
       | Some SigOther => (Err "unexpected type cached", s)
       | None => match verify with
                 | Ok _ => (Ok tt, MkAnteState (as_vm s) (Some SigOk))
                 | Err e => (Err e, MkAnteState (as_vm s) (Some (SigErr e)))
                 | Panic e => (Panic e, s)
                 end
       end.

(** ** 06 and 07 *)

Context (ParseDelegation : bytes -> bool) (info : EvmCoinInfo).
Abbreviation MV := (M (VmState W)).

(** [HasCodeHash] of an account. *)
Definition HasCodeHash (acct : Account) : bool :=
  negb (IsEmptyCodeHash (default EmptyString (ac_CodeHash acct))).

Definition sender_is_eoa (k : VmState W) (account : option Account) : bool :=
  match account with
  | Some acct =>
    if HasCodeHash acct then
      let code := default EmptyString (vk_GetCode k (BytesToHash (default EmptyString (ac_CodeHash acct)))) in
      negb ((0 <? len code) && negb (ParseDelegation code))
    else true
  | None => true
  end.

(** A missing account is created; its balance counts as zero. *)
Definition VerifyAccountBalance (account : option Account) (from : addr) (t : Transaction) : MV unit :=
  let! eoa <- mreads (fun k => sender_is_eoa k account);
  do! mguard eoa "the sender is not EOA";
  let! balance <-
    match account with
    | Some acct => mlift (match ac_Balance acct with Some b => Ok b | None => Panic nil_deref end)
    | None => do! with_world (fun w => let '(acc, w') := auth_NewAccount from w in (Ok tt, auth_SetAccount from acc w'));
              mret 0
    end;
  let! b <- mlift (NewIntFromBigInt balance);
  mlift (owrap "failed to check sender balance" (CheckSenderBalance b t)).

Definition CanTransfer (msg : CoreMessage) (baseFee : option Z) (isLondon : bool) : MV unit :=
  do! match baseFee with
      | Some b => mguard (negb (isLondon && (cm_GasFeeCap msg <? b))) "max fee per gas less than block base fee"
      | None => if isLondon then mlift (Panic nil_deref) else mret tt
      end;
  let! value <- mlift (Uint256FromBigInt (cm_Value msg));
  if 0 <? cm_Value msg then
    let! account <- mreads (fun k => vk_GetAccount info k (cm_From msg));
    match account with
    | None => mlift (Panic nil_deref)
    | Some acct =>
      match ac_Balance acct with
      | None => mlift (Panic nil_deref)
      | Some b => mguard (negb (b <? value)) "failed to transfer using the EVM block context transfer function"
      end
    end
  else mret tt.

(** ** The fee: wrappers/bank.go, keeper/coin_info.go, keeper/fees.go *)

Definition wrap_SendToModule (a : addr) (m : string) (coins : list Coin) (w : W) : outcome unit * W :=
  match ConvertCoinsDenomToExtendedDenom Coins_Sort (Some info) coins with
  | Ok converted => if Coins_IsZero converted then (Ok tt, w) else bank_SendToModule a m converted w
  | Err e => (Err e, w)
  | Panic e => (Panic e, w)
  end.

Definition KeyPrefixEvmCoinInfo : bytes := String (chr 5) EmptyString.

Definition GetEvmCoinInfo (k : VmState W) : outcome EvmCoinInfo :=
  match vk_store k !! KeyPrefixEvmCoinInfo with
  | None => Ok info
  | Some bz => match coin_info_Unmarshal bz with Err e => Panic e | r => r end
  end.

(** Virtual fee collection is for coins with eighteen decimals only. *)
Definition bad_units (display : string) (units : list (string * Z)) : bool :=
  existsb (fun '(d, e) => String.eqb d display && negb (e =? EighteenDecimals)) units.

Definition DeductFees (a : addr) (fees : list Coin) : MV unit :=
  do! mguard (Coins_IsValid fees) "invalid fee amount";
  let! ci <- mtry GetEvmCoinInfo;
  do! (fun k =>
    if existsb (fun c => match bank_DenomUnits (vk_world k) (Denom c) with
                         | Some units => bad_units (ci_DisplayDenom ci) units
                         | None => false
                         end) fees
    then (Panic "Cannot use virtual fee collection for denom", k) else (Ok tt, k));
  with_world (fun w => let '(r, w') := bank_SendToModuleVirtual a FeeCollectorName fees w in
                       (owrap "insufficient funds" r, w')).

Definition DeductTxCostsFromUserBalance (virtual : bool) (fees : list Coin) (from : addr) : MV unit :=
  do! (fun k => match auth_GetAccount (vk_world k) from with
                | None => (Err "account not found for sender", k)
                | Some _ => (Ok tt, k)
                end);
  fun k => let '(r, k') := if virtual then DeductFees from fees k
                           else with_world (auth_DeductFees wrap_SendToModule from fees) k in
           (owrap "failed to deduct full gas cost from the user balance" r, k').

(** ** 08_gas_consume.go *)

Definition deductFees (virtual : bool) (fees : list Coin) (feePayer : bytes) : MV unit := fun k =>
  if Coins_IsZero fees then (Ok tt, k)
  else let '(r, k') := DeductTxCostsFromUserBalance virtual fees (BytesToAddress feePayer) k in
       (owrap "failed to deduct transaction costs from user balance" r, k').

Definition UpdateCumulativeGasWanted (ctx : AnteCtx) (msgGasWanted maxTxGasWanted cumulativeGasWanted : Z) : Z :=
  u64 (cumulativeGasWanted +
       if cx_CheckTx ctx && negb (maxTxGasWanted =? 0)
       then if maxTxGasWanted <? msgGasWanted then maxTxGasWanted else msgGasWanted
       else msgGasWanted).

Definition GetMsgPriority (t : Transaction) (minPriority : Z) (baseFee : option Z) : Z :=
  let priority := GetTxPriority t baseFee in
  if priority <? minPriority then priority else minPriority.

(** The gas limit of the new meter and the priority. *)
Definition CheckBlockGasLimit (ctx : AnteCtx) (gasWanted minPriority : Z) : outcome (Z * Z) :=
  odo oguard (negb (BlockGasLimit ctx <? gasWanted)) "tx gas exceeds block gas limit";
  Ok (gasWanted, minPriority).

(** ** 09_increment_sequence.go *)

Definition IncrementNonce (from : addr) (account : AuthAccount) (txNonce : Z) : MV unit :=
  let accountNonce := aa_sequence account in
  do! mguard (negb (accountNonce <? txNonce)) "tx nonce is higher than account nonce";
  do! mguard (negb (txNonce <? accountNonce)) "invalid nonce";
  do! mguard (negb (accountNonce =? MaxUint64)) "nonce overflow: increment beyond 2^64-1 violates EIP-2681";
  with_world (fun w => (Ok tt, auth_SetAccount from (with_sequence (accountNonce + 1) account) w)).

(** ** mono_decorator.go *)

(** The bits of the legacy, access list, dynamic fee and set code types. *)
Definition AcceptedTxType : Z :=
  Z.lor (Z.lor (Z.lor (Z.shiftl 1 0) (Z.shiftl 1 1)) (Z.shiftl 1 2)) (Z.shiftl 1 4).

Record MonoDecorator := MkMonoDecorator {
  md_maxGasWanted : Z;
  md_AccessControl : AccessControl;
  md_feemarketParams : FmParams;
  md_virtualFees : bool;
}.

(** Steps 2 and 3: the fees on offer against the prices of the mempool and of
    the fee market. *)
Definition check_prices (ctx : AnteCtx) (simulate : bool) (u : DecoratorUtils) (msg : MsgEthereumTx) (t : Transaction)
    : outcome unit :=
  olet feeAmt <- GetFee msg;
  let gasLimit := NewDecFromInt (tx_Gas t) in
  odo (if cx_CheckTx ctx && negb simulate
       then CheckMempoolFee (NewDecFromInt feeAmt) (du_MempoolMinGasPrice u) gasLimit (du_IsLondon u) else Ok tt);
  olet fee <- (match du_BaseFee u with
               | Some b => if DynamicFeeTxType <=? tx_Type t then GetEffectiveFee msg b else Ok feeAmt
               | None => Ok feeAmt
               end);
  CheckGlobalFee (NewDecFromInt fee) (du_GlobalMinGasPrice u) gasLimit.

Definition the_message (tx : CosmosTx) : outcome (MsgEthereumTx * Transaction) :=
  match ct_Msgs tx with
  | [m] => olet (msg, ethTx) <- UnpackEthMsg m;
           match ethTx with Some t => Ok (msg, t) | None => Panic nil_deref end
  | _ => Err "expected 1 message"
  end.

(** Steps 6 to 9 and the checks after them. *)
Definition charge_sender (md : MonoDecorator) (ctx : AnteCtx) (u : DecoratorUtils) (txFeeInfo : option TxFee)
    (msg : MsgEthereumTx) (t : Transaction) : MV (Z * Z) :=
  let from := em_From msg in
  let fromAddr := BytesToAddress from in
  let! account <- mreads (fun k => vk_GetAccount info k fromAddr);
  do! VerifyAccountBalance account fromAddr t;
  let! coreMsg <- mlift (AsMessage msg (du_BaseFee u));
  do! CanTransfer coreMsg (du_BaseFee u) (du_IsLondon u);
  let! fees <- mlift (VerifyFee t (ci_Denom info) (du_BaseFee u) (du_Homestead u) (du_Istanbul u) (du_Shanghai u)
                        (cx_CheckTx ctx));
  do! deductFees (md_virtualFees md) fees from;
  let gasWanted := UpdateCumulativeGasWanted ctx (tx_Gas t) (md_maxGasWanted md) 0 in
  let minPriority := GetMsgPriority t MaxInt64 (du_BaseFee u) in
  let! txFee <- mlift (GetFee msg);
  let! acc <- mreads (fun k => auth_GetAccount (vk_world k) from);
  do! match acc with
      | None => mfail "account does not exist"
      | Some acc => IncrementNonce from acc (tx_Nonce t)
      end;
  do! mlift (CheckTxFee (Some info) txFeeInfo txFee (tx_Gas t));
  mlift (CheckBlockGasLimit ctx gasWanted minPriority).

Definition Mono_AnteHandle (md : MonoDecorator) (ctx : AnteCtx) (tx : CosmosTx) (simulate : bool) : MA (Z * Z) :=
  let! txFeeInfo <- mlift (if cx_ReCheckTx ctx then Ok None else ValidateTx tx);
  do! mlift (SetupContextAndResetTransientGas tx);
  let! u <- mlift (NewMonoDecoratorUtils (Some info) ctx (md_feemarketParams md));
  let! (msg, t) <- mlift (the_message tx);
  do! mlift (ValidateTransaction t (MkHeader (tx_Gas t) (du_BaseFee u) (cx_Height ctx) (u64 (cx_Time ctx)))
               (du_Signer u) AcceptedTxType);
  do! mlift (check_prices ctx simulate u msg t);
  do! mlift (ValidateMsg (md_AccessControl md) (Some t));
  do! verifyEthSigCached ctx (SignatureVerification msg (du_Signer u));
  with_vm (charge_sender md ctx u txFeeInfo msg t).
End ante.
