(* ===== verification/EvmAnteTheorems.v ===== *)
(** * ante/evm: what an accepted transaction has shown and paid

    With the concrete libraries the witnesses run on. *)

From Stdlib Require Import ZArith Lia List String Ascii Bool.
From stdpp Require Import base gmap strings list.
From S2P Require Import Prelude GoStrings Sdk RefEnv AccessList SnapshotStore StateDB EvmCoin FeeMarket FeeMarketTheorems Precompile VmKeeper VmRef EvmTx EvmAnte Permissions.
Local Open Scope Z_scope.
Local Open Scope go_scope.

(** ** Concrete libraries for the ante handlers

    Executable instances of the classes of EvmTx.v and EvmAnte.v, over the
    accounts and balances of VmRef.v. A transaction is signed by writing the
    sender's address into it; no theorem depends on that. *)

#[export, refine] Instance ref_txlibs : TxLibs := {|
  Signer := unit;
  MakeSigner _ _ := tt;
  Sender _ t := if Nat.eqb (String.length (tx_Signature t)) 20 then Ok (tx_Signature t) else Err "invalid signature";
  GasPrice := tx_GasFeeCap;
  Cost t := tx_GasFeeCap t * tx_Gas t + tx_Value t;
  EffectiveGasTip t baseFee := match baseFee with
                               | None => tx_GasTipCap t
                               | Some b => Z.min (tx_GasTipCap t) (tx_GasFeeCap t - b)
                               end;
  IntrinsicGas data _ _ _ _ _ _ := Ok (21 + len data);
  ValidateTransaction t _ _ _ :=
    oguard ((0 <=? tx_Value t) && (0 <=? tx_GasTipCap t) && (tx_GasTipCap t <=? tx_GasFeeCap t)) "invalid transaction";
  DefaultPowerReduction := 1000000;
  cfg_IsLondon _ := true;
  cfg_Rules _ _ := (true, true, true);
|}.
Proof.
  - intros _ t a. destruct (Nat.eqb_spec (String.length (tx_Signature t)) 20) as [H|]; [|done]. by intros [= <-].
  - intros data _ _ _ _ _ _ g [= <-]. unfold len. lia.
  - done.
  - done.
  - done.
  - done.
  - intros t _ _ _ [[H1 H2]%andb_true_iff H3]%oguard_Ok%andb_true_iff. zify_bool. lia.
Defined.

(** ** Transfers to a module *)

Definition rw_take (a : addr) (d : string) (amt : Z) (w : rworld) : rworld :=
  MkRWorld (rw_accounts w) (<[(a, d) := rw_balance w a d - amt]> (rw_balances w)) (rw_next w) (rw_virtual w).
Definition rw_owed (w : rworld) (m d : string) : Z := default 0 (rw_virtual w !! (m, d)).
Definition rw_owe (m d : string) (amt : Z) (w : rworld) : rworld :=
  MkRWorld (rw_accounts w) (rw_balances w) (rw_next w) (<[(m, d) := rw_owed w m d + amt]> (rw_virtual w)).

Lemma rw_take_balance a d amt w b d' :
  rw_balance (rw_take a d amt w) b d' = rw_balance w b d' - (if bool_decide (b = a /\ d' = d) then amt else 0).
Proof.
  unfold rw_balance at 1, rw_take. simpl. case_bool_decide as Hx.
  - destruct Hx as [-> ->]. by rewrite lookup_insert_eq.
  - rewrite lookup_insert_ne by naive_solver. unfold rw_balance. lia.
Qed.

Lemma rw_owe_owed m d amt w m' d' :
  rw_owed (rw_owe m d amt w) m' d' = rw_owed w m' d' + (if bool_decide (m' = m /\ d' = d) then amt else 0).
Proof.
  unfold rw_owed at 1, rw_owe. simpl. case_bool_decide as Hx.
  - destruct Hx as [-> ->]. by rewrite lookup_insert_eq.
  - rewrite lookup_insert_ne by naive_solver. unfold rw_owed. lia.
Qed.

Definition rw_module (m : string) : addr := of_list (repeat (chr (len m)) 20).

Definition rw_send (virtual : bool) (a : addr) (m : string) (coins : list Coin) (w : rworld) : outcome unit * rworld :=
  match coins with
  | [MkCoin d amt] =>
    if amt <=? bank_SpendableCoin w a d
    then (Ok tt, if virtual then rw_owe m d amt (rw_take a d amt w) else rw_take (rw_module m) d (- amt) (rw_take a d amt w))
    else (Err "insufficient funds", w)
  | _ => (Err "unsupported coins", w)
  end.

#[export] Instance ref_feelibs : FeeLibs rworld := {|
  Coins_IsValid := forallb (fun c => 0 <? Amount c);
  Coins_IsZero := forallb (fun c => Amount c =? 0);
  Coins_Sort l := l;
  Coins_AmountOf l d := match List.find (fun c => String.eqb (Denom c) d) l with Some c => Amount c | None => 0 end;
  ModuleAddress := rw_module;
  bank_DenomUnits _ _ := None;
  bank_SendToModule := rw_send false;
  bank_Virtual := rw_owed;
  bank_SendToModuleVirtual := rw_send true;
  auth_DeductFees send a fees w := send a FeeCollectorName fees w;
  coin_info_Unmarshal _ := Err "not stored";
|}.

#[export] Instance ref_feelaws : FeeLaws rworld.
Proof.
  split.
  - done.
  - done.
  - intros c. simpl. apply andb_true_r.
  - done.
  - intros a m d amt w w'. simpl. case_match; [|done]. intros [= <-]. zify_bool. split; [done|]. split; [|done].
    intros b d'. rewrite !rw_take_balance. repeat case_bool_decide; lia.
  - done.
  - done.
  - intros a m d amt w w'. simpl. case_match; [|done]. intros [= <-]. zify_bool. split; [done|]. split; [|split; [done|]].
    + intros b d'. exact (rw_take_balance a d amt w b d').
    + intros m' d'. exact (rw_owe_owed m d amt (rw_take a d amt w) m' d').
Qed.

(** ** A transfer from alice to bob *)

Definition ex_tx : Transaction := MkTransaction 2 3 30 12 2 (Some bob) 100 EmptyString [] [] alice.
Definition ex_cosmos_tx : CosmosTx := MkCosmosTx (Some BasicNoSignatures)
  (Some (MkProtoTx EmptyString 0 0 1 0 (Some (MkTxFee [MkCoin "axit" 360] 30 EmptyString EmptyString)) false 0)) true
  [EthMsg (MkMsgEthereumTx alice (Some ex_tx))].
Definition ex_ctx : AnteCtx := MkAnteCtx 10 1700000000 false false true 0 (Some 1000).
Definition ex_fm : FmParams := MkFmParams false 8 2 0 (Some (NewDecFromInt 7)) (Some dec_one) (Some 0).
Definition ex_access : Permissions.AccessControl :=
  let all := Permissions.MkAccessControlType Permissions.AccessTypePermissionless [] in Permissions.MkAccessControl all all.
Definition ex_mono : MonoDecorator := MkMonoDecorator 0 ex_access ex_fm true.
Definition ex_ante : AnteState (W := rworld) := MkAnteState ex_state None.

Section facts.
Context {Ge : TxLibs} {Dc : SdkDec} {Ma : SdkMath} {Ty : SdkTypes} {Ec : EthCommon} {Cr : EthCrypto}.
Context {W : Type} {Ab : AuthBank W} {Al : AuthBankLaws W} {Fb : FeeLibs W} {Fl : FeeLaws W}.
Context (ParseDelegation : bytes -> bool) (info : EvmCoinInfo).
Implicit Types (k : VmState W) (a : addr) (t : Transaction).

Abbreviation acct k a := (auth_GetAccount (vk_world k) a).
Abbreviation bal k a d := (bank_GetBalance (vk_world k) a d).
Abbreviation owed k m d := (bank_Virtual (vk_world k) m d).

(** Accounts that exist are kept as they are. *)
Definition keeps_accounts k k' : Prop := forall a acc, acct k a = Some acc -> acct k' a = Some acc.

Lemma with_world_Ok {A} (f : W -> outcome A * W) k r k' :
  with_world f k = (r, k') <-> f (vk_world k) = (r, vk_world k') /\ vk_store k' = vk_store k.
Proof.
  unfold with_world, set_world. destruct (f (vk_world k)) as [r' w] eqn:Hf, k, k'. simpl. split.
  - by intros [= <- <- <-].
  - by intros [[= -> ->] ->].
Qed.

(** ** Step by step *)

Lemma CheckSenderBalance_Ok z t : CheckSenderBalance z t = Ok tt -> 0 <= Cost t <= z.
Proof.
  unfold CheckSenderBalance. intros ([] & H1%oguard_Ok & H2%oguard_Ok)%obind_Ok. revert H1 H2.
  rewrite !negb_true_iff, orb_false_iff. intros H1 [H2 H3]. zify_bool. lia.
Qed.

Lemma NewIntFromBigInt_Ok z r : NewIntFromBigInt z = Ok r -> r = z.
Proof. rewrite NewIntFromBigInt_spec. case_match; congruence. Qed.

Lemma VerifyAccountBalance_Ok a t k k' :
  VerifyAccountBalance ParseDelegation (vk_GetAccount info k a) a t k = (Ok tt, k') ->
  0 <= Cost t /\ (acct k a = None -> Cost t = 0) /\
  (is_Some (acct k a) -> k' = k /\ Cost t <= wrap_SpendableCoin info k a) /\
  is_Some (acct k' a) /\ keeps_accounts k k' /\ (forall b d, bal k' b d = bal k b d) /\
  (forall m d, owed k' m d = owed k m d) /\ vk_store k' = vk_store k.
Proof.
  unfold VerifyAccountBalance, vk_GetAccount. intros H. minv. revert H.
  destruct (acct k a) as [acc|] eqn:Ha; simpl; intros H; minv.
  - unfold vk_SpendableCoin, Uint256FromBigInt in *. simpl in *.
    apply NewIntFromBigInt_Ok in H3 as ->. apply CheckSenderBalance_Ok in H.
    clear H1. repeat (case_match; simplify_eq). split_and!; [lia|done|intros _; split; [done|lia]|done|by intros ??|done|done|done].
  - apply NewIntFromBigInt_Ok in H3 as ->. apply CheckSenderBalance_Ok in H.
    match goal with Hw : with_world _ _ = _ |- _ => apply with_world_Ok in Hw as [Hw Hst] end.
    destruct (auth_NewAccount a (vk_world k)) as [acc w] eqn:Hn. injection H0 as _ Hw.
    assert (w = (auth_NewAccount a (vk_world k)).2) as Ew by (by rewrite Hn).
    split_and!; try lia; try done.
    + rewrite <- Hw, auth_get_set, String.eqb_refl. done.
    + intros b x Hb. rewrite <- Hw, auth_get_set. destruct (String.eqb_spec a b) as [->|]; [congruence|].
      by rewrite Ew, auth_get_new.
    + intros b d. by rewrite <- Hw, bank_set_account, Ew, bank_new_account.
    + intros m d. by rewrite <- Hw, virtual_set_account, Ew, virtual_new_account.
Qed.

Lemma CanTransfer_Ok msg baseFee london k k' : CanTransfer info msg baseFee london k = (Ok tt, k') -> k' = k.
Proof.
  unfold CanTransfer. intros H. destruct baseFee; minv; repeat (case_match; minv); try done.
Qed.

Lemma VerifyFee_Ok t d bf h i s c fees : VerifyFee t d bf h i s c = Ok fees ->
  exists b, bf = Some b /\ b <= tx_GasFeeCap t /\
    let fee := tx_Gas t * EffectiveGasPrice b (tx_GasFeeCap t) (tx_GasTipCap t) in
    fees = if fee =? 0 then [] else [MkCoin d fee].
Proof.
  unfold VerifyFee. intros H. minv. destruct bf as [b|]; [|done]. minv. exists b. split; [done|]. zify_bool. split; [lia|].
  simpl. rewrite EffectiveGasPrice_min.
  assert (EffectiveGasTip t (Some b) + b = Z.min (tx_GasTipCap t + b) (tx_GasFeeCap t)) as <-.
  { rewrite EffectiveGasTip_spec. lia. }
  destruct (_ =? 0); minv; [done|]. by match goal with Hx : NewIntFromBigInt _ = _ |- _ => apply NewIntFromBigInt_Ok in Hx as -> end.
Qed.

(** ** Taking the fee *)

(** The fee leaves [a] and reaches the fee collector: at once, or, with virtual
    collection, as what the bank credits it at the end of the block. *)
Definition fee_paid (virtual : bool) (a : addr) (fee : Z) k k' : Prop :=
  (forall b d, bal k' b d = bal k b d
    - (if bool_decide (b = a /\ d = ci_Denom info) then fee else 0)
    + (if bool_decide (b = ModuleAddress FeeCollectorName /\ d = ci_Denom info) && negb virtual then fee else 0)) /\
  (forall m d, owed k' m d = owed k m d + (if bool_decide (m = FeeCollectorName /\ d = ci_Denom info) && virtual then fee else 0)).

Lemma fee_paid_zero v a k : fee_paid v a 0 k k.
Proof. split; intros; repeat case_match; lia. Qed.

Lemma wrapped_Ok {S A} p (m : outcome A * S) x s' :
  (let '(r, s1) := m in (owrap p r, s1)) = (Ok x, s') <-> m = (Ok x, s').
Proof. destruct m as [[]]; simpl; split; congruence. Qed.

Lemma DeductFees_Ok a fee k k' : DeductFees info a [MkCoin (ci_Denom info) fee] k = (Ok tt, k') ->
  fee_paid true a fee k k' /\ keeps_accounts k k' /\ vk_store k' = vk_store k.
Proof.
  unfold DeductFees. intros H. minv. case_match; simplify_eq. apply with_world_Ok in H as [H Hst].
  apply wrapped_Ok, bank_SendToModuleVirtual_ok in H as (_ & Hb & Ha & Hv).
  split; [|by split]. split; [intros b d; rewrite Hb, andb_false_r; lia|]. intros m d. by rewrite Hv, andb_true_r.
Qed.

Lemma send_fees_Ok a fee k k' : ci_ExtendedDenom info = ci_Denom info -> fee <> 0 ->
  with_world (auth_DeductFees (wrap_SendToModule info) a [MkCoin (ci_Denom info) fee]) k = (Ok tt, k') ->
  fee_paid false a fee k k' /\ keeps_accounts k k' /\ vk_store k' = vk_store k.
Proof.
  intros Hext Hne [H Hst]%with_world_Ok. apply auth_DeductFees_ok in H. revert H.
  unfold wrap_SendToModule, ConvertCoinsDenomToExtendedDenom, convert_coin. simpl.
  rewrite String.eqb_refl, Coins_Sort_one, Coins_IsZero_one, Hext. simpl. rewrite (proj2 (Z.eqb_neq fee 0)) by done.
  intros (_ & Hb & Ha & Hv)%bank_SendToModule_ok. split; [|by split]. split; [intros b d; by rewrite Hb, andb_true_r|].
  intros m d. rewrite Hv, andb_false_r. lia.
Qed.

Lemma deductFees_Ok v fee from k k' : ci_ExtendedDenom info = ci_Denom info ->
  deductFees info v (if fee =? 0 then [] else [MkCoin (ci_Denom info) fee]) from k = (Ok tt, k') ->
  fee_paid v (BytesToAddress from) fee k k' /\ keeps_accounts k k' /\ vk_store k' = vk_store k.
Proof.
  intros Hext. unfold deductFees. destruct (Z.eqb_spec fee 0) as [->|Hne].
  { rewrite Coins_IsZero_nil. intros [= <-]. split; [apply fee_paid_zero|by split; [intros ??|]]. }
  rewrite Coins_IsZero_one. simpl. rewrite (proj2 (Z.eqb_neq fee 0)) by done. rewrite wrapped_Ok.
  unfold DeductTxCostsFromUserBalance. intros H. minv. apply wrapped_Ok in H.
  destruct (acct k _); simplify_eq. destruct v; [by apply DeductFees_Ok|by apply send_fees_Ok].
Qed.

Lemma IncrementNonce_Ok a acc n k k' : IncrementNonce a acc n k = (Ok tt, k') ->
  aa_sequence acc = n /\ n <> MaxUint64 /\
  (forall b, acct k' b = if String.eqb a b then Some (with_sequence (n + 1) acc) else acct k b) /\
  (forall b d, bal k' b d = bal k b d) /\ (forall m d, owed k' m d = owed k m d) /\ vk_store k' = vk_store k.
Proof.
  unfold IncrementNonce. intros H. minv. zify_bool. apply with_world_Ok in H as [[= Hw] Hst].
  assert (aa_sequence acc = n) as Hn by lia. split_and!; [done|lia| | | |done].
  - intros b. by rewrite <- Hw, auth_get_set, Hn.
  - intros b d. by rewrite <- Hw, bank_set_account.
  - intros m d. by rewrite <- Hw, virtual_set_account.
Qed.

(** The whole of steps 6 to 9. *)
Lemma charge_sender_Ok md ctx u fi msg t g p k k' : ci_ExtendedDenom info = ci_Denom info ->
  em_Raw msg = Some t -> BytesToAddress (em_From msg) = em_From msg ->
  charge_sender ParseDelegation info md ctx u fi msg t k = (Ok (g, p), k') ->
  let from := em_From msg in
  exists b acc, du_BaseFee u = Some b /\ b <= tx_GasFeeCap t /\
    0 <= Cost t /\ (acct k from = None -> Cost t = 0) /\
    (forall acc0, acct k from = Some acc0 -> acc = acc0 /\ Cost t <= wrap_SpendableCoin info k from) /\
    aa_sequence acc = tx_Nonce t /\ acct k' from = Some (with_sequence (tx_Nonce t + 1) acc) /\
    (forall a x, a <> from -> acct k a = Some x -> acct k' a = Some x) /\
    fee_paid (md_virtualFees md) from (tx_Gas t * EffectiveGasPrice b (tx_GasFeeCap t) (tx_GasTipCap t)) k k' /\
    g <= BlockGasLimit ctx /\ vk_store k' = vk_store k.
Proof.
  intros Hext Hraw Hfrom H from. unfold charge_sender in H. rewrite Hfrom in H. fold from in H. minv.
  destruct a0, a2, a4, a7, a8. apply VerifyAccountBalance_Ok in H1 as (Hc & Hnone & Hsome & Hin & Hk1 & Hb1 & Hv1 & Hs1).
  apply CanTransfer_Ok in H3 as ->. apply VerifyFee_Ok in H4 as (b & Hb & Hcap & ->).
  apply deductFees_Ok in H5 as (Hpaid & Hk2 & Hs2); [|done]. unfold from in Hpaid. rewrite Hfrom in Hpaid. fold from in Hpaid.
  destruct Hin as [acc Hacc]. pose proof (Hk2 _ _ Hacc) as Hacc2. rewrite Hacc2 in H8.
  apply IncrementNonce_Ok in H8 as (Hn & _ & Ha3 & Hb3 & Hv3 & Hs3). unfold CheckBlockGasLimit in H. minv. zify_bool.
  exists b, acc. split_and!; try done; try lia.
  - intros acc0 Hx. destruct (Hsome ltac:(by eexists)) as [-> Hle]. split; [congruence|done].
  - by rewrite Ha3, String.eqb_refl.
  - intros c x Hne Hx. rewrite Ha3. destruct (String.eqb_spec from c); [congruence|]. by apply Hk2, Hk1.
  - destruct Hpaid as [Hp Hv]. split; [intros c d; by rewrite Hb3, Hp, Hb1|]. intros m d. by rewrite Hv3, Hv, Hv1.
  - congruence.
Qed.

(** The nonce alone, for a sender field of any length. *)
Lemma charge_sender_nonce md ctx u fi msg t r k k' : ci_ExtendedDenom info = ci_Denom info ->
  charge_sender ParseDelegation info md ctx u fi msg t k = (Ok r, k') ->
  exists acc, (forall acc0, acct k (em_From msg) = Some acc0 -> acc = acc0) /\ aa_sequence acc = tx_Nonce t /\
    acct k' (em_From msg) = Some (with_sequence (tx_Nonce t + 1) acc).
Proof.
  intros Hext H. unfold charge_sender in H. minv. repeat match goal with x : () |- _ => destruct x end.
  apply VerifyAccountBalance_Ok in H1 as (_ & _ & _ & _ & Hk1 & _ & _).
  apply CanTransfer_Ok in H3 as ->. apply VerifyFee_Ok in H4 as (b & Hb & Hcap & ->).
  apply deductFees_Ok in H5 as (_ & Hk2 & _); [|done].
  destruct (acct st4 (em_From msg)) as [acc|] eqn:Hacc; [|done].
  apply IncrementNonce_Ok in H8 as (Hn & _ & Ha3 & _). exists acc. split_and!; [|done|by rewrite Ha3, String.eqb_refl].
  intros acc0 H0%Hk1%Hk2. congruence.
Qed.

(** ** The whole decorator *)

Lemma the_message_Ok tx msg t : the_message tx = Ok (msg, t) -> ct_Msgs tx = [EthMsg msg] /\ em_Raw msg = Some t.
Proof.
  unfold the_message, UnpackEthMsg. destruct (ct_Msgs tx) as [|[m|n] [|]]; try done. simpl.
  destruct (em_Raw m) eqn:Hr; [|done]. intros [= <- <-]. done.
Qed.

Lemma check_prices_Ok ctx sim u msg t b m : em_Raw msg = Some t -> du_BaseFee u = Some b ->
  du_GlobalMinGasPrice u = Some m -> m <> 0 -> check_prices ctx sim u msg t = Ok tt -> DynamicFeeTxType <= tx_Type t ->
  m * tx_Gas t <= tx_Gas t * EffectiveGasPrice b (tx_GasFeeCap t) (tx_GasTipCap t) * dec_one.
Proof.
  intros Hr Hb Hm Hne H Hty. unfold check_prices, GetFee, GetEffectiveFee, raw_tx in H.
  rewrite Hr, Hb, (proj2 (Z.leb_le _ _) Hty) in H. cbn [obind] in H. apply obind_Ok in H as ([] & _ & H).
  unfold CheckGlobalFee in H. rewrite Hm in H. cbn [obind dec_get] in H. rewrite (proj2 (Z.eqb_neq m 0)) in H by done.
  rewrite Dec_Mul_spec in H. destruct (dec_fits _); [|done]. cbn [obind] in H. minv. zify_bool.
  unfold NewDecFromInt in H. rewrite Z.mul_assoc, chop_round_exact in H. rewrite EffectiveGasPrice_min.
  rewrite EffectiveGasTip_spec in H. replace (Z.min (tx_GasTipCap t + b) (tx_GasFeeCap t)) with
    (Z.min (tx_GasTipCap t) (tx_GasFeeCap t - b) + b) by lia. done.
Qed.

(** What an accepted transaction has shown: the signature is the sender's when
    the context asks for signatures to be verified, the nonce was the sender's next one, the balance covered the cost, and the price
    lies between the base fee and the fee cap. *)
Record accepted (md : MonoDecorator) (ctx : AnteCtx) (k k' : VmState W) (msg : MsgEthereumTx) (t : Transaction)
    (b : Z) (acc : AuthAccount) : Prop := {
  ap_raw : em_Raw msg = Some t;
  ap_sender : cx_SigverifyTx ctx = true -> Sender (MakeSigner (cx_Height ctx) (u64 (cx_Time ctx))) t = Ok (em_From msg);
  ap_base : evm_GetBaseFee (Some info) (cx_Height ctx) (md_feemarketParams md) = Ok (Some b);
  ap_price : b <= EffectiveGasPrice b (tx_GasFeeCap t) (tx_GasTipCap t) <= tx_GasFeeCap t;
  ap_floor m : MinGasPrice (md_feemarketParams md) = Some m -> m <> 0 -> DynamicFeeTxType <= tx_Type t ->
    m * tx_Gas t <= tx_Gas t * EffectiveGasPrice b (tx_GasFeeCap t) (tx_GasTipCap t) * dec_one;
  ap_cost : 0 <= Cost t /\ (acct k (em_From msg) = None -> Cost t = 0);
  ap_account acc0 : acct k (em_From msg) = Some acc0 -> acc = acc0 /\ Cost t <= wrap_SpendableCoin info k (em_From msg);
  ap_nonce : aa_sequence acc = tx_Nonce t /\ acct k' (em_From msg) = Some (with_sequence (tx_Nonce t + 1) acc);
  ap_others a x : a <> em_From msg -> acct k a = Some x -> acct k' a = Some x;
  ap_fee : fee_paid (md_virtualFees md) (em_From msg)
             (tx_Gas t * EffectiveGasPrice b (tx_GasFeeCap t) (tx_GasTipCap t)) k k';
  ap_store : vk_store k' = vk_store k;
}.

Lemma utils_Ok ctx fm u : NewMonoDecoratorUtils (Some info) ctx fm = Ok u ->
  du_Signer u = MakeSigner (cx_Height ctx) (u64 (cx_Time ctx)) /\
  evm_GetBaseFee (Some info) (cx_Height ctx) fm = Ok (du_BaseFee u) /\ du_GlobalMinGasPrice u = MinGasPrice fm.
Proof.
  unfold NewMonoDecoratorUtils. simpl. destruct (cfg_Rules _ _) as [[h i] sh]. intros H. minv. done.
Qed.

(** A check that passes is passed now, was passed when the cache was filled, or
    was not asked for. *)
Lemma verify_Ok ctx v (s s' : @AnteState W) : (as_sigcache s = Some SigOk -> v = Ok tt) ->
  verifyEthSigCached ctx v s = (Ok tt, s') -> (cx_SigverifyTx ctx = true -> v = Ok tt) /\ as_vm s' = as_vm s.
Proof.
  intros Hc. unfold verifyEthSigCached. destruct (cx_SigverifyTx ctx); simpl; [|by intros [= <-]].
  destruct (as_sigcache s) as [[]|]; [|done..|].
  - intros [= <-]. split; [|done]. intros _. by apply Hc.
  - destruct v as [[]| |]; try done. by intros [= <-].
Qed.
(** Only a passed check is cached as passed. *)
Lemma verify_caches ctx v (s s' : @AnteState W) r : verifyEthSigCached ctx v s = (r, s') ->
  as_sigcache s' = as_sigcache s \/ (as_sigcache s' = Some SigOk -> v = Ok tt).
Proof.
  unfold verifyEthSigCached. destruct (cx_SigverifyTx ctx); simpl; [|intros [= _ <-]; by left].
  destruct (as_sigcache s) as [[]|] eqn:Hs; [intros [= _ <-]; by left..|].
  destruct v as [[]| |]; intros [= _ <-]; [right; done|right; done|left; done].
Qed.

Lemma with_vm_Ok {A} (m : M (VmState W) A) (s : @AnteState W) x s' :
  with_vm m s = (Ok x, s') -> m (as_vm s) = (Ok x, as_vm s').
Proof. unfold with_vm. destruct (m (as_vm s)) as [r k]. by intros [= -> <-]. Qed.

Lemma Mono_inv md ctx tx simulate (s s' : @AnteState W) r :
  Mono_AnteHandle ParseDelegation info md ctx tx simulate s = (Ok r, s') ->
  exists u msg t fi h s1, NewMonoDecoratorUtils (Some info) ctx (md_feemarketParams md) = Ok u /\
    ct_Msgs tx = [EthMsg msg] /\ em_Raw msg = Some t /\ ValidateTransaction t h (du_Signer u) AcceptedTxType = Ok tt /\
    check_prices ctx simulate u msg t = Ok tt /\
    verifyEthSigCached ctx (SignatureVerification msg (du_Signer u)) s = (Ok tt, s1) /\
    charge_sender ParseDelegation info md ctx u fi msg t (as_vm s1) = (Ok r, as_vm s').
Proof.
  intros H. unfold Mono_AnteHandle in H. minv. destruct a2 as [msg t]. minv.
  repeat match goal with x : () |- _ => destruct x end. apply the_message_Ok in H3 as [Hm Ht]. apply with_vm_Ok in H.
  do 6 eexists. split_and!; eassumption || done.
Qed.

(** What the cache of a transaction may hold: it is empty before the first
    incarnation of the transaction, and each one leaves it as the handler does,
    whatever the state it runs on. *)
Inductive cache_of (height time : Z) (tx : CosmosTx) : option SigCache -> Prop :=
| cache_empty : cache_of height time tx None
| cache_left md ctx simulate s r s' : cache_of height time tx (as_sigcache s) -> cx_Height ctx = height -> cx_Time ctx = time ->
    Mono_AnteHandle ParseDelegation info md ctx tx simulate s = (r, s') -> cache_of height time tx (as_sigcache s').

Lemma with_vm_cache {A} (m : M (VmState W) A) (s : @AnteState W) r s' : with_vm m s = (r, s') -> as_sigcache s' = as_sigcache s.
Proof. unfold with_vm. destruct (m _). by intros [= _ <-]. Qed.

Lemma Mono_caches md ctx tx simulate (s s' : @AnteState W) r msg : ct_Msgs tx = [EthMsg msg] ->
  Mono_AnteHandle ParseDelegation info md ctx tx simulate s = (r, s') ->
  as_sigcache s' = as_sigcache s \/
  (as_sigcache s' = Some SigOk -> SignatureVerification msg (MakeSigner (cx_Height ctx) (u64 (cx_Time ctx))) = Ok tt).
Proof.
  intros Hm H. unfold Mono_AnteHandle in H.
  apply mbind_split in H as [(fi & ? & [_ ->]%mlift_Ok & H)|(_ & ? & _ & [= _ <-])]; [|by left].
  apply mbind_split in H as [([] & ? & [_ ->]%mlift_Ok & H)|(_ & ? & _ & [= _ <-])]; [|by left].
  apply mbind_split in H as [(u & ? & [Hu%utils_Ok ->]%mlift_Ok & H)|(_ & ? & _ & [= _ <-])]; [|by left].
  apply mbind_split in H as [([msg' t] & ? & [[Hm' _]%the_message_Ok ->]%mlift_Ok & H)|(_ & ? & _ & [= _ <-])]; [|by left].
  rewrite Hm in Hm'. injection Hm' as <-. destruct Hu as (<- & _).
  apply mbind_split in H as [([] & ? & [_ ->]%mlift_Ok & H)|(_ & ? & _ & [= _ <-])]; [|by left].
  apply mbind_split in H as [([] & ? & [_ ->]%mlift_Ok & H)|(_ & ? & _ & [= _ <-])]; [|by left].
  apply mbind_split in H as [([] & ? & [_ ->]%mlift_Ok & H)|(_ & ? & _ & [= _ <-])]; [|by left].
  apply mbind_split in H as [([] & s1 & Hv%verify_caches & ->%with_vm_cache)|(_ & ? & _ & Hv%verify_caches)]; exact Hv.
Qed.

Lemma cache_sound height time tx c msg : cache_of height time tx c -> ct_Msgs tx = [EthMsg msg] -> c = Some SigOk ->
  SignatureVerification msg (MakeSigner height (u64 time)) = Ok tt.
Proof.
  intros H Hm. induction H as [|md ctx simulate s r s' _ IH <- <- [->|Hv]%(Mono_caches _ _ _ _ _ _ _ _ Hm)]; [done|exact IH|exact Hv].
Qed.

(** The field of the sender is an address: it was compared with one, or has the
    length of one. *)
Definition sender_known (ctx : AnteCtx) (msg : MsgEthereumTx) : Prop :=
  cx_SigverifyTx ctx = true \/ String.length (em_From msg) = 20%nat.

Lemma Mono_accepted md ctx tx simulate s s' g p msg t : ci_ExtendedDenom info = ci_Denom info ->
  cache_of (cx_Height ctx) (cx_Time ctx) tx (as_sigcache s) ->
  Mono_AnteHandle ParseDelegation info md ctx tx simulate s = (Ok (g, p), s') ->
  ct_Msgs tx = [EthMsg msg] -> em_Raw msg = Some t -> sender_known ctx msg ->
  g <= BlockGasLimit ctx /\ exists b acc, accepted md ctx (as_vm s) (as_vm s') msg t b acc.
Proof.
  intros Hext Hcache H Hmsg Hraw Hknown.
  apply Mono_inv in H as (u & msg' & t' & fi & h & s1 & Hu & Hm & Hr & Hv & Hp & Hs & H).
  rewrite Hmsg in Hm. injection Hm as <-. rewrite Hraw in Hr. injection Hr as <-.
  apply utils_Ok in Hu as (Hsg & Hbf & Hgm). rewrite Hsg in *.
  apply verify_Ok in Hs as [Hs Hvm]; [|by apply (cache_sound _ _ _ _ _ Hcache)]. rewrite Hvm in H.
  assert (cx_SigverifyTx ctx = true -> Sender (MakeSigner (cx_Height ctx) (u64 (cx_Time ctx))) t = Ok (em_From msg)) as Hsend.
  { intros Hsig. specialize (Hs Hsig). unfold SignatureVerification, VerifySender, raw_tx in Hs. rewrite Hraw in Hs. cbn [obind] in Hs.
    apply owrap_Ok in Hs. apply obind_Ok in Hs as (from & Hf & Heq%oguard_Ok%String.eqb_eq). by rewrite Heq. }
  apply charge_sender_Ok in H as (b & acc & Hb & Hcap & Hc & Hc0 & Hacc & Hn & Hk' & Ho & Hfee & Hg & Hst);
    [|done|done|apply BytesToAddress_id; destruct Hknown; [by eapply Sender_length, Hsend|done]].
  rewrite Hb in Hbf. split; [done|]. exists b, acc.
  apply ValidateTransaction_ok in Hv as [_ Htip]. split; try done.
  - rewrite EffectiveGasPrice_min. lia.
  - intros m Hm0 Hne Hty. eapply check_prices_Ok; try done. by rewrite Hgm.
Qed.

(** C6: an Ethereum transaction that the ante handler accepts, with a signature
    cache that is empty or was left by earlier incarnations of the same
    transaction in the block, was signed by its sender unless the context does
    not ask for signatures; its nonce was the sender's next one and is used up;
    the sender's spendable balance covered the whole cost; the price paid is the
    effective gas price, between the base fee and the fee cap of the transaction
    (and not under the global minimum for dynamic fees); exactly gas times that
    price left the sender for the fee collector, or, with virtual collection, for
    what the bank credits the collector at the end of the block; no other account
    and no contract storage changed, and the gas fits the block. The coin has
    eighteen decimals. *)
Theorem mono_ante_accepts md ctx tx simulate s s' g p : ci_ExtendedDenom info = ci_Denom info ->
  cache_of (cx_Height ctx) (cx_Time ctx) tx (as_sigcache s) ->
  Mono_AnteHandle ParseDelegation info md ctx tx simulate s = (Ok (g, p), s') ->
  exists msg t, ct_Msgs tx = [EthMsg msg] /\ em_Raw msg = Some t /\
    (sender_known ctx msg -> g <= BlockGasLimit ctx /\ exists b acc, accepted md ctx (as_vm s) (as_vm s') msg t b acc).
Proof.
  intros Hext Hcache H. pose proof H as (u & msg & t & fi & h & s1 & _ & Hm & Hr & _)%Mono_inv.
  exists msg, t. split_and!; [done..|]. by eapply Mono_accepted.
Qed.

Lemma verify_vm ctx v (s s' : @AnteState W) u : verifyEthSigCached ctx v s = (Ok u, s') -> as_vm s' = as_vm s.
Proof.
  unfold verifyEthSigCached. repeat case_match; congruence || by intros [= _ <-].
Qed.

Lemma Mono_nonce md ctx tx simulate s s' r : ci_ExtendedDenom info = ci_Denom info ->
  Mono_AnteHandle ParseDelegation info md ctx tx simulate s = (Ok r, s') ->
  exists msg t acc, ct_Msgs tx = [EthMsg msg] /\ em_Raw msg = Some t /\
    (forall acc0, acct (as_vm s) (em_From msg) = Some acc0 -> acc = acc0) /\ aa_sequence acc = tx_Nonce t /\
    acct (as_vm s') (em_From msg) = Some (with_sequence (tx_Nonce t + 1) acc).
Proof.
  intros Hext H. apply Mono_inv in H as (u & msg & t & fi & h & s1 & _ & Hm & Hr & _ & _ & Hs & H).
  apply verify_vm in Hs. rewrite Hs in H. apply charge_sender_nonce in H as (acc & H1 & H2 & H3); [|done].
  by exists msg, t, acc.
Qed.

(** C7: no replay. Once a transaction was accepted, it is never accepted again
    in a state where the sender's account still exists and its sequence has not
    gone back, under any parameters, in any mode and whatever was cached. *)
Theorem mono_ante_no_replay md ctx tx simulate s s' r msg : ci_ExtendedDenom info = ci_Denom info ->
  Mono_AnteHandle ParseDelegation info md ctx tx simulate s = (Ok r, s') -> ct_Msgs tx = [EthMsg msg] ->
  forall md2 ctx2 simulate2 s2 acc2, acct (as_vm s2) (em_From msg) = Some acc2 ->
    vk_GetNonce (as_vm s') (em_From msg) <= aa_sequence acc2 ->
    is_ok (Mono_AnteHandle ParseDelegation info md2 ctx2 tx simulate2 s2).1 = false.
Proof.
  intros Hext H Hmsg md2 ctx2 sim2 s2 acc2 Hacc2 Hle.
  destruct (Mono_AnteHandle _ _ _ _ _ _ s2) as [[r2| |] s2'] eqn:H2; [exfalso|done..].
  apply Mono_nonce in H as (m1 & t1 & acc1 & E1 & R1 & _ & _ & H1); [|done].
  apply Mono_nonce in H2 as (m2 & t2 & acc3 & E2 & R2 & A2 & N2 & _); [|done].
  rewrite Hmsg in E1, E2. simplify_eq. specialize (A2 _ Hacc2). subst.
  unfold vk_GetNonce in Hle. rewrite H1 in Hle. simpl in Hle. lia.
Qed.
End facts.

(** ** Evaluations *)

Definition ex_run (s : AnteState) : outcome (Z * Z) * AnteState :=
  Mono_AnteHandle no_delegation ref_coin ex_mono ex_ctx ex_cosmos_tx false s.

Lemma ex_run_ok : ex_run ex_ante = (Ok (30, 0), (ex_run ex_ante).2).
Proof. apply injective_projections; [by vm_compute|done]. Qed.

(** Alice pays thirty times the price of nine, which the fee collector is owed. *)
Lemma mono_ante_accepts_witness : exists acc, accepted ref_coin ex_mono ex_ctx ex_state (as_vm (ex_run ex_ante).2)
    (MkMsgEthereumTx alice (Some ex_tx)) ex_tx 7 acc /\
  bank_GetBalance (vk_world (as_vm (ex_run ex_ante).2)) alice "axit" = 1000 - 30 * 9 /\
  bank_Virtual (vk_world (as_vm (ex_run ex_ante).2)) FeeCollectorName "axit" = 30 * 9.
Proof.
  destruct (mono_ante_accepts no_delegation ref_coin ex_mono ex_ctx ex_cosmos_tx false ex_ante (ex_run ex_ante).2 30 0)
    as (msg & t & Hm & Ht & H); [reflexivity|constructor|exact ex_run_ok|].
  injection Hm as <-. injection Ht as <-. destruct (H (or_introl eq_refl)) as (_ & b & acc & Ha).
  pose proof (ap_base _ _ _ _ _ _ _ _ _ Ha) as Hb. vm_compute in Hb. injection Hb as <-.
  exists acc. split; [exact Ha|split; by vm_compute].
Defined.

(** The same transaction again is refused. *)
Lemma mono_ante_no_replay_witness : is_ok (ex_run (ex_run ex_ante).2).1 = false.
Proof.
  apply (mono_ante_no_replay no_delegation ref_coin ex_mono ex_ctx ex_cosmos_tx false ex_ante (ex_run ex_ante).2 (30, 0)
    (MkMsgEthereumTx alice (Some ex_tx)) ltac:(reflexivity) ex_run_ok ltac:(reflexivity) ex_mono ex_ctx false
    (ex_run ex_ante).2 (MkAuthAccount 4 1 None false None)); [by vm_compute|]. vm_compute. done.
Defined.
