(* ===== verification/CosmosFees.v ===== *)
(** * ante: the fees of Cosmos transactions

    ante/evm/fee_checker.go (the dynamic fee of EIP-1559 applied to Cosmos
    transactions) and ante/cosmos/min_gas_price.go. *)

From Stdlib Require Import ZArith Lia List String Ascii Bool.
From stdpp Require Import base gmap strings list.
From S2P Require Import Prelude GoStrings Sdk RefEnv AccessList SnapshotStore StateDB EvmCoin FeeMarket FeeMarketTheorems.
From S2P Require Import Precompile VmKeeper EvmTx EvmAnte EvmAnteTheorems.
Local Open Scope Z_scope.
Local Open Scope go_scope.

(** ** The transaction *)

(** An extension option: a dynamic fee, whose price may be nil, or another. *)
Inductive ExtensionOption := DynamicFeeOption (maxPriorityPrice : option Z) | OtherOption.

(** [ft_Options] is absent when the transaction has no extension options
    interface; [ft_Fee] distinguishes nil coins. *)
Record FeeTx := MkFeeTx {
  ft_Gas : Z;
  ft_Fee : option (list Coin);
  ft_Options : option (list ExtensionOption);
}.

Record FeeCtx := MkFeeCtx {
  fc_Height : Z;
  fc_CheckTx : bool;
  fc_MinGasPrices : list (string * Z);
}.

Class CoinsLib := {
  AmountOf : list Coin -> string -> Z;
  IsAnyGTE : list Coin -> list Coin -> bool;
  (* is one of the required coins covered? *)
  IsAnyGTE_one l d n : 0 < n -> IsAnyGTE l [MkCoin d n] = (n <=? AmountOf l d);
}.

Section fees.
Context {Ge : TxLibs} {Dc : SdkDec} {Ma : SdkMath} {Ty : SdkTypes} {Cl : CoinsLib}.

Definition fee_coins (tx : FeeTx) : list Coin := default [] (ft_Fee tx).

(** ** fee_checker.go *)

Definition effectiveGasPriceLegacyDec (baseFee feeCap tipCap : Z) : outcome Z :=
  olet p <- Dec_Add tipCap baseFee; Ok (Z.min p feeCap).

Definition priority_of (z : Z) : Z := if is_int64 z then z else MaxInt64.

Fixpoint tx_priority (gas : Z) (l : list Coin) (priority : Z) : outcome Z :=
  match l with
  | [] => Ok priority
  | fee :: l' =>
    olet gasPrice <- Int_Quo (Amount fee) gas;
    olet amt <- Int_Quo gasPrice DefaultPriorityReduction;
    let p := priority_of amt in
    tx_priority gas l' (if (priority =? 0) || (p <? priority) then p else priority)
  end.
Definition getTxPriority (fees : list Coin) (gas : Z) : outcome Z := tx_priority gas fees 0.

Fixpoint required_fees (glDec : Z) (l : list (string * Z)) : outcome (list Coin) :=
  match l with
  | [] => Ok []
  | (d, price) :: l' =>
    olet fee <- Dec_Mul price glDec;
    olet c <- NewCoin d (Dec_RoundInt (Dec_Ceil fee));
    olet rest <- required_fees glDec l';
    Ok (c :: rest)
  end.

Definition checkTxFeeWithValidatorMinGasPrices (ctx : FeeCtx) (tx : FeeTx) : outcome (list Coin * Z) :=
  let feeCoins := fee_coins tx in
  let gas := to_int64 (ft_Gas tx) in
  odo (if fc_CheckTx ctx && negb (forallb (fun gp => gp.2 =? 0) (fc_MinGasPrices ctx)) then
         olet requiredFees <- required_fees (NewDecFromInt gas) (fc_MinGasPrices ctx);
         oguard (IsAnyGTE feeCoins requiredFees) "insufficient fees"
       else Ok tt);
  olet priority <- getTxPriority feeCoins gas;
  Ok (feeCoins, priority).

(** The first dynamic fee option decides; a nil price counts as zero. *)
Fixpoint priority_price (l : list ExtensionOption) : Z :=
  match l with
  | [] => NewDecFromInt MaxInt64
  | DynamicFeeOption p :: _ => default 0 p
  | OtherOption :: l' => priority_price l'
  end.

Definition base_fee_of (ctx : FeeCtx) (p : FmParams) : Z :=
  match BaseFee p with
  | Some b => if IsBaseFeeEnabled p (fc_Height ctx) then b else 0
  | None => 0
  end.

Definition FeeChecker (ctx : FeeCtx) (p : FmParams) (denom : string) (tx : FeeTx) : outcome (list Coin * Z) :=
  if negb (cfg_IsLondon (fc_Height ctx)) then checkTxFeeWithValidatorMinGasPrices ctx tx else
  let baseFee := base_fee_of ctx p in
  let maxPriorityPrice := priority_price (default [] (ft_Options tx)) in
  odo oguard (negb (maxPriorityPrice <? 0)) "max priority price cannot be negative";
  let gas := ft_Gas tx in
  odo oguard (negb (gas =? 0)) "gas cannot be zero";
  olet feeCap <- Dec_QuoInt (NewDecFromInt (AmountOf (fee_coins tx) denom)) gas;
  odo oguard (negb (feeCap <? baseFee)) "gas prices too low";
  olet effectivePrice <- effectiveGasPriceLegacyDec baseFee feeCap maxPriorityPrice;
  olet total <- Dec_MulInt effectivePrice gas;
  let effectiveFee := [MkCoin denom (Dec_RoundInt (Dec_Ceil total))] in
  olet tip <- Dec_Sub effectivePrice baseFee;
  olet reduced <- Dec_QuoInt tip DefaultPriorityReduction;
  Ok (effectiveFee, priority_of (Dec_TruncateInt reduced)).

(** A transaction without fees ([None]) cannot be decoded; genesis
    transactions fall back to the prices of the validator. *)
Definition NewDynamicFeeChecker (info : option EvmCoinInfo) (p : FmParams) (ctx : FeeCtx) (tx : option FeeTx)
    : outcome (list Coin * Z) :=
  match tx with
  | None => Err "Tx must be a FeeTx: tx parse error"
  | Some tx =>
    if fc_Height ctx =? 0 then checkTxFeeWithValidatorMinGasPrices ctx tx
    else olet denom <- GetEVMCoinDenom info; FeeChecker ctx p denom tx
  end.

(** ** min_gas_price.go *)

(** [sdk.DefaultBondDenom] *)
Definition DefaultBondDenom : string := "stake".

Definition valid_fees (evmDenom : string) (l : list Coin) : bool :=
  match l with
  | [] => true
  | [c] => existsb (String.eqb (Denom c)) [evmDenom; DefaultBondDenom]
  | _ => false
  end.

(** [Ok tt]: the next handler runs. *)
Definition MinGasPrice_AnteHandle (info : option EvmCoinInfo) (p : FmParams) (tx : option FeeTx) (simulate : bool)
    : outcome unit :=
  match tx with
  | None => Err "invalid transaction type, expected sdk.FeeTx"
  | Some tx =>
    olet evmDenom <- GetEVMCoinDenom info;
    odo oguard (valid_fees evmDenom (fee_coins tx) || simulate) "expected only native token for fee";
    olet minGasPrice <- dec_get (MinGasPrice p);
    if (minGasPrice =? 0) || simulate then Ok tt else
    olet total <- Dec_Mul minGasPrice (NewDecFromInt (ft_Gas tx));
    let fee := Dec_RoundInt (Dec_Ceil total) in
    let requiredFees := if 0 <? fee then [MkCoin evmDenom fee] else [] in
    match ft_Fee tx with
    | None => Err "fee not provided"
    | Some feeCoins => oguard (IsAnyGTE feeCoins requiredFees) "provided fee < minimum global fee"
    end
  end.

(** ** Theorems *)

Lemma ceil_whole z : Dec_RoundInt (Dec_Ceil z) = - (- z / dec_one).
Proof. rewrite Dec_RoundInt_spec, Dec_Ceil_spec. apply chop_round_exact. Qed.

Lemma ceil_bounds z : z <= - (- z / dec_one) * dec_one < z + dec_one.
Proof.
  assert (0 < dec_one) as H1 by done. pose proof (Z.div_mod (- z) dec_one ltac:(lia)) as Hd.
  pose proof (Z.mod_pos_bound (- z) dec_one H1) as Hm. lia.
Qed.

(** The dynamic fee checker charges a Cosmos transaction a single coin of
    the EVM denomination, never more than the fee it offered, at a price that
    is at least the base fee (if one is enabled) and at most the base fee plus
    the tip it allows, rounded up to a whole coin. *)
Theorem fee_checker_bounds ctx p denom tx coins priority : cfg_IsLondon (fc_Height ctx) = true ->
  0 < ft_Gas tx -> 0 <= AmountOf (fee_coins tx) denom ->
  FeeChecker ctx p denom tx = Ok (coins, priority) ->
  exists fee, coins = [MkCoin denom fee] /\ fee <= AmountOf (fee_coins tx) denom /\
    base_fee_of ctx p * ft_Gas tx <= fee * dec_one /\
    fee * dec_one < (base_fee_of ctx p + priority_price (default [] (ft_Options tx))) * ft_Gas tx + dec_one /\
    priority <= MaxInt64.
Proof.
  intros Hl Hg Ha H. unfold FeeChecker, effectiveGasPriceLegacyDec in H. rewrite Hl in H. cbn [negb] in H. minv.
  rewrite Dec_QuoInt_spec, (proj2 (Z.eqb_neq _ 0)) in H2 by lia. injection H2 as <-.
  rewrite Dec_Add_spec in H8. rewrite Dec_MulInt_spec in H5. repeat case_match; simplify_eq. zify_bool.
  set (amt := AmountOf (fee_coins tx) denom) in *. set (base := base_fee_of ctx p) in *.
  set (tip := priority_price _) in *. unfold NewDecFromInt in *. rewrite Z.quot_div_nonneg in * by (unfold dec_one in *; lia).
  set (cap := amt * dec_one / ft_Gas tx) in *. assert (cap * ft_Gas tx <= amt * dec_one) as Hcap.
  { unfold cap. rewrite Z.mul_comm. by apply Z.mul_div_le. }
  eexists. split; [done|]. rewrite ceil_whole. set (price := Z.min (tip + base) cap).
  assert (base <= price /\ price <= cap /\ price <= base + tip) as (Hp1 & Hp2 & Hp3) by lia.
  pose proof (ceil_bounds (price * ft_Gas tx)) as Hc. assert (0 < dec_one) as H1' by done. split_and!.
  - apply Z.opp_le_mono. rewrite Z.opp_involutive. apply Z.div_le_lower_bound; [done|]. nia.
  - nia.
  - nia.
  - unfold priority_of, is_int64. case_match; [|lia]. zify_bool. rewrite andb_true_iff in *. zify_bool. lia.
Qed.

(** The minimum gas price holds for every Cosmos transaction that is not
    simulated: what it offers in the EVM coin covers the price of its gas. *)
Lemma min_gas_price_enforced i p tx m : MinGasPrice p = Some m -> 0 < m -> 0 < ft_Gas tx ->
  MinGasPrice_AnteHandle (Some i) p (Some tx) false = Ok tt ->
  m * ft_Gas tx <= AmountOf (fee_coins tx) (ci_Denom i) * dec_one.
Proof.
  intros Hm Hpos Hg H. unfold MinGasPrice_AnteHandle in H. cbn [obind GetEVMCoinDenom getCoinInfo] in H.
  apply obind_Ok in H as ([] & _ & H). rewrite Hm in H. cbn [obind dec_get] in H.
  rewrite (proj2 (Z.eqb_neq m 0)), Dec_Mul_spec in H by lia. cbn [orb] in H. destruct (dec_fits _); [|done].
  cbn [obind] in H. rewrite ceil_whole in H. unfold NewDecFromInt in H. rewrite Z.mul_assoc, chop_round_exact in H.
  pose proof (ceil_bounds (m * ft_Gas tx)) as Hc. assert (0 < dec_one) as H1 by done.
  set (fee := - (- (m * ft_Gas tx) / dec_one)) in *. assert (0 < fee) as Hf by nia.
  rewrite (proj2 (Z.ltb_lt 0 fee) Hf) in H. unfold fee_coins. destruct (ft_Fee tx) as [l|]; [|done]. simpl.
  apply oguard_Ok in H. rewrite IsAnyGTE_one in H by done. zify_bool. nia.
Qed.
End fees.

(** ** Evaluation *)

#[export, refine] Instance ref_coins : CoinsLib := {|
  AmountOf := Coins_AmountOf (W := VmRef.rworld);
  IsAnyGTE l r := existsb (fun c => (0 <? Amount c) && (Amount c <=? Coins_AmountOf (W := VmRef.rworld) l (Denom c))) r;
|}.
Proof. intros l d n Hn. cbn [existsb Amount Denom]. by rewrite (proj2 (Z.ltb_lt 0 n) Hn), orb_false_r. Defined.

(** A transaction that offers 500 for 10 units of gas, with a tip of 5, while
    the base fee is 7: it pays 120. *)
Definition ex_fee_tx : FeeTx :=
  MkFeeTx 10 (Some [MkCoin "axit" 500]) (Some [OtherOption; DynamicFeeOption (Some (NewDecFromInt 5))]).
Definition ex_fee_ctx : FeeCtx := MkFeeCtx 10 true [].

Lemma fee_checker_bounds_witness : exists fee priority,
  FeeChecker ex_fee_ctx ex_fm "axit" ex_fee_tx = Ok ([MkCoin "axit" fee], priority) /\ 70 <= fee <= 120.
Proof.
  destruct (FeeChecker ex_fee_ctx ex_fm "axit" ex_fee_tx) as [[coins priority]| |] eqn:H; [|by vm_compute in H..].
  destruct (fee_checker_bounds ex_fee_ctx ex_fm "axit" ex_fee_tx coins priority) as (fee & -> & _ & Hlo & Hhi & _);
    [reflexivity|reflexivity|by vm_compute|exact H|].
  exists fee, priority. split; [done|]. change (base_fee_of ex_fee_ctx ex_fm) with (7 * dec_one) in *.
  change (priority_price (default [] (ft_Options ex_fee_tx))) with (5 * dec_one) in Hhi.
  change (ft_Gas ex_fee_tx) with 10 in *. unfold dec_one in *. lia.
Defined.
