(* ===== verification/StateTransition.v ===== *)
(** * x/vm/keeper: running a transaction

    state_transition.go (ApplyTransaction, ApplyMessageWithConfig and the
    EIP-7702 authorizations), gas.go, the bloom of keeper.go, and the gas meter
    of types/gasmeter.go. The interpreter is go-ethereum's: what a call or a
    creation does to the state database, the gas it leaves and how it ends are
    the class [ExecLibs]. The hooks after a transaction are an argument. The
    state overrides of queries, tracing and the hash of a block by number are
    left out. *)

From Stdlib Require Import ZArith Lia List String Ascii Bool.
From stdpp Require Import base gmap strings list.
From S2P Require Import Prelude GoStrings Sdk AccessList SnapshotStore StateDB EvmCoin FeeMarket Precompile VmKeeper.
From S2P Require Import EvmTx EvmAnte.
Local Open Scope Z_scope.
Local Open Scope go_scope.

(** ** types/gasmeter.go *)

Record GasMeter := MkGasMeter { gm_consumed : Z; gm_limit : Z }.
Definition NewInfiniteGasMeterWithLimit (limit : Z) : GasMeter := MkGasMeter 0 limit.

Definition addUint64Overflow (a b : Z) : Z * bool := if MaxUint64 - a <? b then (0, true) else (u64 (a + b), false).

(** On overflow the counter is left at zero. *)
Definition ConsumeGas (amount : Z) : M GasMeter unit := fun g =>
  let '(c, overflow) := addUint64Overflow (gm_consumed g) amount in
  let g' := MkGasMeter c (gm_limit g) in
  if overflow then (Panic "gas overflow", g') else (Ok tt, g').

Definition meter_RefundGas (amount : Z) : M GasMeter unit := fun g =>
  if gm_consumed g <? amount then (Panic "negative gas consumed", g)
  else (Ok tt, MkGasMeter (gm_consumed g - amount) (gm_limit g)).

Definition GasRemaining (g : GasMeter) : Z :=
  if gm_limit g <? gm_consumed g then 0 else gm_limit g - gm_consumed g.

(** ** gas.go *)

Definition ResetGasMeterAndConsumeGas (gasUsed : Z) : M GasMeter unit := fun g =>
  (do! meter_RefundGas (gm_consumed g); ConsumeGas gasUsed) g.

Definition GasToRefund (availableRefund gasConsumed refundQuotient : Z) : Z :=
  let refund := gasConsumed / refundQuotient in
  if availableRefund <? refund then availableRefund else refund.

(** ** Configuration, messages and results *)

(** The part of the configuration that the execution reads, with the forks of
    the chain configuration at the block. *)
Record EVMConfig := MkEVMConfig {
  ec_BaseFee : option Z;
  ec_MinGasMultiplier : option Z;
  ec_Rules : Rules;
  ec_IsLondon : bool;
  ec_IsPrague : bool;
  ec_IsAmsterdam : bool;
  ec_ChainID : Z;
}.

Record EvmResult := MkEvmResult {
  er_Ret : bytes;
  er_Leftover : Z;
  er_Err : option string;
  er_ReturnData : bytes;
}.

Record TxResponse := MkTxResponse {
  rs_GasUsed : Z;
  rs_MaxUsedGas : Z;
  rs_VmError : string;
  rs_Ret : bytes;
  rs_Logs : list Log;
}.
Definition Failed (r : TxResponse) : bool := 0 <? len (rs_VmError r).

(** What the hooks see of the receipt. *)
Record Receipt := MkReceipt {
  rc_Status : bool;
  rc_CumulativeGasUsed : Z;
  rc_GasUsed : Z;
  rc_Logs : list Log;
  rc_ContractAddress : option addr;
}.

Definition RefundQuotient : Z := 2.
Definition RefundQuotientEIP3529 : Z := 5.

Class ExecLibs (K S : Type) `{!TxLibs} := {
  evm_Create : addr -> bytes -> Z -> Z -> M (StateDB K S) EvmResult;
  evm_Call : addr -> addr -> bytes -> Z -> Z -> M (StateDB K S) EvmResult;
  ActivePrecompiles : list addr;
  FloorDataGas : bytes -> outcome Z;
  EthBurnLog : addr -> Z -> Log;
  ParseDelegationAddr : bytes -> option addr;
  AddressToDelegation : addr -> bytes;
  CreateAddress : addr -> Z -> addr;
  bloom_Add : bytes -> Z -> Z;
  TxAuthGas : Z;                      (* CallNewAccountGas - TxAuthTupleGas *)
  TransactionToMessage : Transaction -> Signer -> option Z -> outcome CoreMessage;
}.

(** The interpreter returns at most the gas it was given; a message has the
    sender and the gas of its transaction, at the effective price. *)
Class ExecLaws (K S : Type) `{!TxLibs, !ExecLibs K S} := {
  evm_Create_gas a data gas v s r s' : 0 <= gas -> evm_Create a data gas v s = (Ok r, s') -> 0 <= er_Leftover r <= gas;
  evm_Call_gas a b data gas v s r s' : 0 <= gas -> evm_Call a b data gas v s = (Ok r, s') -> 0 <= er_Leftover r <= gas;
  TransactionToMessage_ok t signer b msg : TransactionToMessage t signer (Some b) = Ok msg ->
    Sender signer t = Ok (cm_From msg) /\ cm_GasLimit msg = tx_Gas t /\
    cm_GasPrice msg = EffectiveGasPrice b (tx_GasFeeCap t) (tx_GasTipCap t);
}.

(** ** state_transition.go *)

Section message.
Context {Ge : TxLibs} {Dc : SdkDec} {Cr : EthCrypto}.
Context {K S : Type} {Kp : StateKeeper K} {Sn : Snapshotter S K} {Cc : CacheContext S K} {Ex : ExecLibs K S}.
Abbreviation StateDB := (StateDB K S).
Abbreviation MS := (M StateDB).

(** The blooms of go-ethereum are sets of bits, here a number. *)
Definition logsBloom (logs : list Log) : Z :=
  fold_left (fun bin log => fold_left (fun bin t => bloom_Add t bin) (lg_Topics log) (bloom_Add (lg_Address log) bin)) logs 0.

Definition GetEthIntrinsicGas (height time : Z) (msg : CoreMessage) (isContractCreation : bool) : outcome Z :=
  let '(homestead, istanbul, shanghai) := cfg_Rules height (u64 time) in
  IntrinsicGas (cm_Data msg) (cm_AccessList msg) (cm_Authorizations msg) isContractCreation homestead istanbul shanghai.

Definition validateAuthorization (auth : SetCodeAuth) (chainID : Z) : MS addr :=
  do! mguard (negb (negb (au_ChainID auth =? 0) && negb (au_ChainID auth =? chainID))) "EIP-7702 authorization chain ID mismatch";
  do! mguard (negb (u64 (au_Nonce auth + 1) <? au_Nonce auth)) "EIP-7702 authorization nonce > 64 bit";
  let! authority <- mlift (owrap "EIP-7702 authorization has invalid signature" (au_Authority auth));
  do! StateDB_AddAddressToAccessList authority;
  let! code <- StateDB_GetCode authority;
  let code := default EmptyString code in
  do! mguard (negb (negb (len code =? 0) && negb (bool_decide (is_Some (ParseDelegationAddr code)))))
    "EIP-7702 authorization destination is a contract";
  let! have <- StateDB_GetNonce authority;
  do! mguard (have =? au_Nonce auth) "EIP-7702 authorization nonce does not match current account nonce";
  mret authority.

Definition applyAuthorization (auth : SetCodeAuth) (chainID : Z) : MS unit :=
  let! authority <- validateAuthorization auth chainID;
  let! exists_ <- StateDB_Exist authority;
  do! (if exists_ then StateDB_AddRefund TxAuthGas else mret tt);
  do! StateDB_SetNonce authority (u64 (au_Nonce auth + 1));
  do! (if String.eqb (au_Address auth) zero_address then StateDB_SetCode authority None
       else StateDB_SetCode authority (Some (AddressToDelegation (au_Address auth))));
  mret tt.

(** An error of an authorization is logged and the next one tried. *)
Definition ignore_err {A} (m : MS A) : MS unit := fun s =>
  match m s with
  | (Panic e, s') => (Panic e, s')
  | (_, s') => (Ok tt, s')
  end.
Fixpoint applyAuthorizations (l : list SetCodeAuth) (chainID : Z) : MS unit :=
  match l with
  | [] => mret tt
  | auth :: l' => do! ignore_err (applyAuthorization auth chainID); applyAuthorizations l' chainID
  end.

(** The creation or the call; the nonce of a creating sender is managed here. *)
Definition execute (cfg : EVMConfig) (msg : CoreMessage) (leftoverGas value : Z) : MS EvmResult :=
  match cm_To msg with
  | None =>
    do! StateDB_SetNonce (cm_From msg) (cm_Nonce msg);
    let! r <- evm_Create (cm_From msg) (cm_Data msg) leftoverGas value;
    let! nonce <- StateDB_GetNonce (cm_From msg);
    do! (if nonce =? cm_Nonce msg then StateDB_SetNonce (cm_From msg) (u64 (cm_Nonce msg + 1)) else mret tt);
    mret r
  | Some to =>
    do! applyAuthorizations (cm_Authorizations msg) (ec_ChainID cfg);
    let! code <- StateDB_GetCode to;
    do! match ParseDelegationAddr (default EmptyString code) with
        | Some a => StateDB_AddAddressToAccessList a
        | None => mret tt
        end;
    evm_Call (cm_From msg) to (cm_Data msg) leftoverGas value
  end.

(** [math.Int.Uint64] panics out of range. *)
Definition Int_Uint64 (z : Z) : outcome Z :=
  if (0 <=? z) && (z <=? MaxUint64) then Ok z else Panic "Uint64() out of bounds".

(** The gas charged, from the gas left: the refund, then the minimum share of
    the gas limit. *)
Definition gas_charged (cfg : EVMConfig) (internal : bool) (gasLimit leftoverGas availableRefund : Z) : outcome (Z * Z) :=
  let refundQuotient := if internal then 1 else if ec_IsLondon cfg then RefundQuotientEIP3529 else RefundQuotient in
  let maxUsedGas := gasLimit - leftoverGas in
  let refund := GasToRefund availableRefund maxUsedGas refundQuotient in
  let leftoverGas := u64 (leftoverGas + refund) in
  let temporaryGasUsed := u64 (maxUsedGas - refund) in
  olet minimumGasUsed <- Dec_Mul (NewDecFromInt gasLimit) (default 0 (ec_MinGasMultiplier cfg));
  odo oguard (is_ok (Int_Uint64 (Dec_TruncateInt minimumGasUsed))) "minimumGasUsed is not a uint64";
  odo oguard (negb (gasLimit <? leftoverGas)) "message gas limit < leftover gas";
  let gasUsed := NewDecFromInt (to_int64 temporaryGasUsed) in
  let gasUsed := if internal then gasUsed else Z.max gasUsed minimumGasUsed in
  olet used <- Int_Uint64 (Dec_TruncateInt gasUsed);
  Ok (used, maxUsedGas).

Definition ApplyMessageWithConfig (height time : Z) (cfg : EVMConfig) (msg : CoreMessage)
    (commit callFromPrecompile internal : bool) : MS TxResponse :=
  let contractCreation := bool_decide (cm_To msg = None) in
  let! intrinsicGas <- mlift (owrap "intrinsic gas failed" (GetEthIntrinsicGas height time msg contractCreation));
  do! mguard (negb (cm_GasLimit msg <? intrinsicGas)) "apply message: intrinsic gas too low";
  do! (if ec_IsPrague cfg then
         let! floorDataGas <- mlift (FloorDataGas (cm_Data msg));
         mguard (negb (cm_GasLimit msg <? floorDataGas)) "insufficient gas for floor data gas cost"
       else mret tt);
  let leftoverGas := cm_GasLimit msg - intrinsicGas in
  do! (if callFromPrecompile then mret tt
       else StateDB_Prepare (ec_Rules cfg) (cm_From msg) zero_address (cm_To msg) ActivePrecompiles (cm_AccessList msg));
  let! value <- mlift (Uint256FromBigInt (cm_Value msg));
  let! r <- execute cfg msg leftoverGas value;
  let! availableRefund <- mreads (fun s => u64 (sd_refund s));
  do! mguard (negb (cm_GasLimit msg <? er_Leftover r)) "gas computation overflow/underflow: apply message";
  do! (if ec_IsAmsterdam cfg then StateDB_EmitLogsForBurnAccounts EthBurnLog else mret tt);
  do! (if commit then
         if callFromPrecompile
         then fun s => let '(o, s') := StateDB_FlushToCacheCtx s in (owrap "failed to flush stateDB to cacheCtx" o, s')
         else fun s => let '(o, s') := StateDB_Commit s in (owrap "failed to commit stateDB" o, s')
       else mret tt);
  let! (used, maxUsedGas) <- mlift (gas_charged cfg internal (cm_GasLimit msg) (er_Leftover r) availableRefund);
  let! logs <- mreads sd_logs;
  let vmError := default EmptyString (er_Err r) in
  mret (MkTxResponse used maxUsedGas vmError
          (if String.eqb vmError ErrExecutionReverted then er_ReturnData r else er_Ret r) logs).

Definition ApplyMessage (height time : Z) (cfg : outcome EVMConfig) (msg : CoreMessage)
    (commit callFromPrecompile internal : bool) : MS TxResponse :=
  let! cfg <- mlift (owrap "failed to load evm config" cfg);
  ApplyMessageWithConfig height time cfg msg commit callFromPrecompile internal.
End message.

(** ** The refund: wrappers/bank.go and gas.go *)

Class RefundLibs (W : Type) := {
  bank_SendFromModule : string -> addr -> list Coin -> W -> outcome unit * W;
  bank_SendFromModuleVirtual : string -> addr -> list Coin -> W -> outcome unit * W;
}.

(** A virtual transfer from a module is taken from what it is credited at the end
    of the block. *)
Class RefundLaws (W : Type) `{!AuthBank W, !FeeLibs W, !RefundLibs W} := {
  bank_SendFromModule_ok m a d amt (w w' : W) : bank_SendFromModule m a [MkCoin d amt] w = (Ok tt, w') ->
    (forall b d', bank_GetBalance w' b d' = bank_GetBalance w b d'
       + (if bool_decide (b = a /\ d' = d) then amt else 0)
       - (if bool_decide (b = ModuleAddress m /\ d' = d) then amt else 0)) /\
    (forall b acc, auth_GetAccount w b = Some acc -> auth_GetAccount w' b = Some acc) /\
    (forall m' d', bank_Virtual w' m' d' = bank_Virtual w m' d');
  bank_SendFromModuleVirtual_ok m a d amt (w w' : W) : bank_SendFromModuleVirtual m a [MkCoin d amt] w = (Ok tt, w') ->
    (forall b d', bank_GetBalance w' b d' = bank_GetBalance w b d'
       + (if bool_decide (b = a /\ d' = d) then amt else 0)) /\
    (forall b acc, auth_GetAccount w b = Some acc -> auth_GetAccount w' b = Some acc) /\
    (forall m' d', bank_Virtual w' m' d' = bank_Virtual w m' d' - (if bool_decide (m' = m /\ d' = d) then amt else 0));
}.

Section transaction.
Context {Ge : TxLibs} {Dc : SdkDec} {Ma : SdkMath} {Ty : SdkTypes} {Cr : EthCrypto}.
Context {W : Type} {Ab : AuthBank W} {Fb : FeeLibs W} {Rb : RefundLibs W}.
Context {S : Type} {Kp : StateKeeper (VmState W)} {Sn : Snapshotter S (VmState W)} {Cc : CacheContext S (VmState W)}.
Context {Ex : ExecLibs (VmState W) S} (info : EvmCoinInfo).

Definition wrap_SendFromModule (m : string) (a : addr) (coins : list Coin) (w : W) : outcome unit * W :=
  match ConvertCoinsDenomToExtendedDenom Coins_Sort (Some info) coins with
  | Ok converted => if Coins_IsZero converted then (Ok tt, w) else bank_SendFromModule m a converted w
  | Err e => (Err e, w)
  | Panic e => (Panic e, w)
  end.

Definition RefundGas (virtual : bool) (msg : CoreMessage) (leftoverGas : Z) (denom : string) : M (VmState W) unit :=
  let remaining := leftoverGas * cm_GasPrice msg in
  if remaining <? 0 then mfail "refunded amount value cannot be negative"
  else if 0 <? remaining then
    let! amt <- mlift (NewIntFromBigInt remaining);
    let! coin <- mlift (NewCoin denom amt);
    with_world (fun w =>
      let '(r, w') := if virtual then bank_SendFromModuleVirtual FeeCollectorName (cm_From msg) [coin] w
                      else wrap_SendFromModule FeeCollectorName (cm_From msg) [coin] w in
      (owrap "fee collector account failed to refund fees" r, w'))
  else mret tt.

(** ** ApplyTransaction *)

(** What a cache context copies: the EVM state, and the blooms of the block by
    transaction and message. *)
Record ExecState := MkExecState { xs_vm : VmState W; xs_bloom : gmap (Z * Z) Z }.

(** The gas counter of the block's transactions and the gas meter are changed
    on the outer context. *)
Record TxState := MkTxState { ts_exec : ExecState; ts_gas : gmap Z Z; ts_meter : GasMeter }.
Abbreviation MT := (M TxState).

Definition on_meter {A} (m : M GasMeter A) : MT A := fun st =>
  let '(r, g) := m (ts_meter st) in (r, MkTxState (ts_exec st) (ts_gas st) g).
Definition on_gas {A} (m : M (gmap Z Z) A) : MT A := fun st =>
  let '(r, g) := m (ts_gas st) in (r, MkTxState (ts_exec st) g (ts_meter st)).
Definition on_vm {A} (m : M (VmState W) A) : MT A := fun st =>
  let '(r, k) := m (xs_vm (ts_exec st)) in
  (r, MkTxState (MkExecState k (xs_bloom (ts_exec st))) (ts_gas st) (ts_meter st)).
Definition commit_exec (x : ExecState) : MT unit := mmodify (fun st => MkTxState x (ts_gas st) (ts_meter st)).

Definition SetTxBloom (txIndex msgIndex bloom : Z) (x : ExecState) : ExecState :=
  MkExecState (xs_vm x) (<[(txIndex, msgIndex) := bloom]> (xs_bloom x)).

Definition calculateCumulativeGasFromEthResponse (meter : GasMeter) (res : TxResponse) : Z :=
  let c := u64 (rs_GasUsed res + gm_consumed meter) in
  if gm_limit meter <? c then gm_limit meter else c.

Definition with_error (e : string) (res : TxResponse) : TxResponse :=
  MkTxResponse (rs_GasUsed res) (rs_MaxUsedGas res) e (rs_Ret res) [].
Definition with_logs (l : list Log) (res : TxResponse) : TxResponse :=
  MkTxResponse (rs_GasUsed res) (rs_MaxUsedGas res) (rs_VmError res) (rs_Ret res) l.

(** The hooks may change the state and the logs of the receipt. *)
Definition Hooks : Type := addr -> CoreMessage -> Receipt -> ExecState -> outcome (list Log) * ExecState.

(** The end of the execution: the cache context is committed, or dropped. *)
Definition post_process (hooks : option Hooks) (sender : addr) (msg : CoreMessage) (res : TxResponse) (receipt : Receipt)
    (tmp : ExecState) : MT TxResponse :=
  match hooks with
  | None => do! (if Failed res then mret tt else commit_exec tmp); mret res
  | Some h =>
    match h sender msg receipt tmp with
    | (Ok logs, tmp') => do! commit_exec tmp'; mret (if Failed res then with_logs [] res else with_logs logs res)
    | (Err e, _) => mret (with_error ("failed to execute post transaction processing: " +:+ e)%string res)
    | (Panic e, _) => mlift (Panic e)
    end
  end.

Definition ApplyTransaction (virtual : bool) (height time txIndex msgIndex : Z) (cfg : outcome EVMConfig)
    (hooks : option Hooks) (t : Transaction) : MT TxResponse :=
  let! cfg <- mlift (owrap "failed to load evm config" cfg);
  let signer := MakeSigner height (u64 time) in
  let! msg <- mlift (owrap "failed to return ethereum transaction as core message"
                       (TransactionToMessage t signer (ec_BaseFee cfg)));
  let! ctx <- mreads ts_exec;
  let '(r, sdb) := ApplyMessageWithConfig height time cfg msg true false false (newStateDB (xs_vm ctx) [] true txIndex) in
  match r with
  | Err e =>
    do! (fun st => on_meter (ResetGasMeterAndConsumeGas (gm_limit (ts_meter st))) st);
    mfail ("failed to apply ethereum core message: " +:+ e)%string
  | Panic e => mlift (Panic e)
  | Ok res =>
    let tmp := MkExecState (sd_ctx sdb) (xs_bloom ctx) in
    let tmp := if Nat.eqb (length (rs_Logs res)) 0 then tmp
               else SetTxBloom txIndex msgIndex (logsBloom (K := VmState W) (S := S) (rs_Logs res)) tmp in
    let! meter <- mreads ts_meter;
    let receipt := MkReceipt (negb (Failed res)) (calculateCumulativeGasFromEthResponse meter res) (rs_GasUsed res)
                     (rs_Logs res)
                     (match cm_To msg with None => Some (CreateAddress (cm_From msg) (cm_Nonce msg)) | Some _ => None end) in
    let tmp := if Failed res then ctx else tmp in
    let! sender <- mlift (owrap "failed to extract sender address from ethereum transaction" (Sender signer t));
    let! res <- post_process hooks sender msg res receipt tmp;
    let remainingGas := if rs_GasUsed res <? cm_GasLimit msg then cm_GasLimit msg - rs_GasUsed res else 0 in
    let! denom <- mlift (GetEVMCoinDenom (Some info));
    do! on_vm (fun k => let '(o, k') := RefundGas virtual msg remainingGas denom k in
                        (owrap "failed to refund leftover gas to sender" o, k'));
    let! totalGasUsed <- on_gas (fun g => let '(o, g') := AddTransientGasUsed txIndex (rs_GasUsed res) g in
                                         (owrap "failed to add transient gas used" o, g'));
    do! on_meter (ResetGasMeterAndConsumeGas totalGasUsed);
    mret res
  end.
End transaction.
