(* ===== verification/StateTransitionTheorems.v ===== *)
(** * x/vm/keeper: the gas a transaction is charged and what it costs

    With the concrete libraries the witnesses run on. *)

From Stdlib Require Import ZArith Lia List String Ascii Bool.
From stdpp Require Import base gmap strings list.
From S2P Require Import Prelude GoStrings Sdk RefEnv AccessList SnapshotStore StateDB EvmCoin FeeMarket FeeMarketTheorems Precompile VmKeeper VmRef EvmTx EvmAnte EvmAnteTheorems StateTransition Permissions.
Local Open Scope Z_scope.
Local Open Scope go_scope.

(** ** Concrete libraries for running a transaction

    Instances of the classes of StateTransition.v over the states of VmRef.v and
    EvmAnteTheorems.v. The interpreter writes a slot of the callee, spends half of its
    gas and reverts when there is no call data; it stands for go-ethereum's only
    in showing that the laws can hold. *)

Definition ref_run (a : addr) (data : bytes) (gas : Z) : M ExDB EvmResult :=
  do! StateDB_SetState a slot1 word1;
  mret (MkEvmResult data (gas / 2) (if len data =? 0 then Some ErrExecutionReverted else None) data).

#[export] Instance ref_execlibs : ExecLibs (VmState rworld) (snapshotkv (VmState rworld)) := {|
  evm_Create a data gas _ := ref_run a data gas;
  evm_Call _ b data gas _ := ref_run b data gas;
  ActivePrecompiles := [];
  FloorDataGas data := Ok (len data);
  EthBurnLog a amt := MkLog a [] EmptyString 0 0;
  ParseDelegationAddr _ := None;
  AddressToDelegation a := a;
  CreateAddress a _ := a;
  bloom_Add b bin := Z.lor bin (Z.shiftl 1 (len b));
  TxAuthGas := 12500;
  TransactionToMessage t signer baseFee :=
    olet from <- Sender signer t;
    let price := match baseFee with
                 | None => GasPrice t
                 | Some b => EffectiveGasPrice b (tx_GasFeeCap t) (tx_GasTipCap t)
                 end in
    Ok (MkCoreMessage from (tx_To t) (tx_Nonce t) (tx_Value t) (tx_Gas t) price (tx_GasFeeCap t) (tx_GasTipCap t)
          (tx_Data t) (tx_AccessList t) (tx_Authorizations t));
|}.

Lemma ref_run_gas a data gas s r s' : 0 <= gas -> ref_run a data gas s = (Ok r, s') -> 0 <= er_Leftover r <= gas.
Proof.
  intros Hg H. unfold ref_run in H. minv. simpl. split; [by apply Z.div_pos|apply Z.div_le_upper_bound; lia].
Qed.

#[export] Instance ref_execlaws : ExecLaws (VmState rworld) (snapshotkv (VmState rworld)).
Proof.
  split.
  - intros a data gas v s r s'. apply ref_run_gas.
  - intros a b data gas v s r s'. apply ref_run_gas.
  - intros t signer b msg H. simpl in H. apply obind_Ok in H as (from & Hf & [= <-]). by split.
Qed.

(** ** Transfers from a module *)

Definition rw_pay (virtual : bool) (m : string) (a : addr) (coins : list Coin) (w : rworld) : outcome unit * rworld :=
  match coins with
  | [MkCoin d amt] =>
    if virtual then (Ok tt, rw_owe m d (- amt) (rw_take a d (- amt) w))
    else if amt <=? bank_SpendableCoin w (rw_module m) d
         then (Ok tt, rw_take (rw_module m) d amt (rw_take a d (- amt) w))
         else (Err "insufficient funds", w)
  | _ => (Err "unsupported coins", w)
  end.

#[export] Instance ref_refundlibs : RefundLibs rworld := {|
  bank_SendFromModule := rw_pay false;
  bank_SendFromModuleVirtual := rw_pay true;
|}.

#[export] Instance ref_refundlaws : RefundLaws rworld.
Proof.
  split; intros m a d amt w w'.
  - simpl. case_match; [|done]. intros [= <-]. split; [|done].
    intros b d'. rewrite !rw_take_balance. repeat case_bool_decide; lia.
  - intros [= <-]. split; [|split; [done|]].
    + intros b d'. etransitivity; [exact (rw_take_balance a d (- amt) w b d')|]. change (bank_GetBalance w b d') with (rw_balance w b d'). case_bool_decide; lia.
    + intros m' d'. etransitivity; [exact (rw_owe_owed m d (- amt) (rw_take a d (- amt) w) m' d')|].
      change (rw_owed (rw_take a d (- amt) w) m' d') with (rw_owed w m' d'). change (bank_Virtual w m' d') with (rw_owed w m' d').
      case_bool_decide; lia.
Qed.

(** ** The transfer of EvmAnteTheorems.v, run *)

Definition ex_cfg : EVMConfig :=
  MkEVMConfig (Some 7) (Some (dec_one / 2)) (MkRules true false true) true true false 1.
Definition ex_msg (data : bytes) : CoreMessage := MkCoreMessage alice (Some bob) 3 0 100 9 12 2 data [] [].
(** A hook that gives bob five coins whatever happened. *)
Definition ex_hook : Hooks (W := rworld) := fun _ _ _ x =>
  (Ok [], MkExecState (set_world (rw_take bob "axit" (-5) (vk_world (xs_vm x))) (xs_vm x)) (xs_bloom x)).
Definition ex_apply (s : AnteState (W := rworld)) : outcome TxResponse * TxState :=
  ApplyTransaction ref_coin true 10 1700000000 0 0 (Ok ex_cfg) (Some ex_hook) ex_tx
    (MkTxState (MkExecState (as_vm s) ∅) ∅ (NewInfiniteGasMeterWithLimit 30)).

(** ** Gas *)

Lemma to_int64_small z : 0 <= z <= MaxInt64 -> to_int64 z = z.
Proof. intros H. unfold to_int64, two64, MaxInt64 in *. rewrite Z.mod_small by lia. lia. Qed.

Lemma max_div a x : (Z.max (a * dec_one) x) / dec_one = Z.max a (x / dec_one).
Proof.
  assert (0 < dec_one) as H1 by done. destruct (Z.max_spec (a * dec_one) x) as [[H ->]|[H ->]].
  - rewrite Z.max_r; [done|]. apply Z.div_le_lower_bound; lia.
  - rewrite Z.div_mul by lia. rewrite Z.max_l; [done|].
    rewrite <- (Z.div_mul a dec_one) by lia. by apply Z.div_le_mono.
Qed.

Lemma Int_Uint64_small z : 0 <= z <= MaxUint64 -> Int_Uint64 z = Ok z.
Proof. intros H. unfold Int_Uint64. by rewrite !(proj2 (Z.leb_le _ _)) by lia. Qed.

Lemma min_share limit m : 0 <= limit -> 0 <= m <= dec_one -> 0 <= limit * m / dec_one <= limit.
Proof.
  intros Hl Hm. assert (0 < dec_one) as H1 by done. split; [apply Z.div_pos; nia|apply Z.div_le_upper_bound; nia].
Qed.

Section gas.
Context {Ge : TxLibs} {Dc : SdkDec}.

Definition refund_quotient (cfg : EVMConfig) (internal : bool) : Z :=
  if internal then 1 else if ec_IsLondon cfg then RefundQuotientEIP3529 else RefundQuotient.

(** What is left to pay after the refund. *)
Definition after_refund (cfg : EVMConfig) (internal : bool) (used availableRefund : Z) : Z :=
  used - Z.min availableRefund (used / refund_quotient cfg internal).

Lemma gas_charged_eq cfg internal limit left avail m : 0 <= left <= limit -> limit <= MaxInt64 -> 0 <= avail ->
  default 0 (ec_MinGasMultiplier cfg) = m -> 0 <= m <= dec_one ->
  let spent := after_refund cfg internal (limit - left) avail in
  gas_charged cfg internal limit left avail =
    Ok (if internal then spent else Z.max spent (limit * m / dec_one), limit - left) /\
  0 <= spent <= limit - left.
Proof.
  intros Hl Hlim Ha Hm Hmr spent. set (used := limit - left) in *.
  assert (0 <= used / refund_quotient cfg internal <= used) as Hq.
  { assert (1 <= refund_quotient cfg internal) by (unfold refund_quotient; repeat case_match; done).
    split; [apply Z.div_pos; lia|]. apply Z.div_le_upper_bound; nia. }
  assert (GasToRefund avail used (refund_quotient cfg internal) = Z.min avail (used / refund_quotient cfg internal)) as Hr.
  { unfold GasToRefund. case_match; zify_bool; lia. }
  assert (0 <= spent <= used) as Hs by (unfold spent, after_refund; lia). split; [|done].
  unfold gas_charged. fold (refund_quotient cfg internal) used. rewrite Hr.
  rewrite (u64_small (used - _)) by (unfold is_u64, MaxInt64, two64 in *; lia).
  rewrite (u64_small (left + _)) by (unfold is_u64, MaxInt64, two64 in *; lia).
  rewrite Dec_Mul_spec, Hm. unfold NewDecFromInt.
  replace (limit * dec_one * m) with (limit * m * dec_one) by lia. rewrite chop_round_exact.
  change (used - Z.min avail (used / refund_quotient cfg internal)) with spent. rewrite to_int64_small by lia.
  assert (0 <= limit * m <= limit * dec_one) as Hmin by nia. assert (0 < dec_one) as H1 by done.
  pose proof (min_share limit m ltac:(lia) Hmr) as Hmin1.
  assert (dec_fits (limit * m) = true) as ->.
  { apply Z.ltb_lt. rewrite Z.abs_eq by lia. apply Z.le_lt_trans with (MaxInt64 * dec_one); [nia|done]. }
  cbn [obind]. rewrite !Dec_TruncateInt_spec, !Z.quot_div_nonneg by (repeat case_match; lia).
  rewrite (Int_Uint64_small (limit * m / dec_one)) by (unfold MaxInt64, MaxUint64, two64 in *; lia).
  rewrite (proj2 (Z.ltb_ge limit _)) by (unfold used in *; lia). cbn [is_ok oguard negb obind].
  assert ((if internal then spent * dec_one else Z.max (spent * dec_one) (limit * m)) / dec_one =
          if internal then spent else Z.max spent (limit * m / dec_one)) as ->.
  { destruct internal; [by apply Z.div_mul|apply max_div]. }
  rewrite Int_Uint64_small; [done|]. unfold used, MaxInt64, MaxUint64, two64 in *. destruct internal; lia.
Qed.

Context {Cr : EthCrypto} {K S : Type} {Kp : StateKeeper K} {Sn : Snapshotter S K} {Cc : CacheContext S K}.
Context {Ex : ExecLibs K S} {El : ExecLaws K S}.

Lemma execute_gas cfg msg gas v (s : StateDB K S) r s' : 0 <= gas ->
  execute cfg msg gas v s = (Ok r, s') -> 0 <= er_Leftover r <= gas.
Proof.
  intros Hg H. unfold execute in H. destruct (cm_To msg); minv; eauto using evm_Call_gas, evm_Create_gas.
Qed.

Lemma ApplyMessage_inv height time cfg msg commit callFromPrecompile internal s res s' :
  ApplyMessageWithConfig height time cfg msg commit callFromPrecompile internal s = (Ok res, s') ->
  exists intrinsic left avail, GetEthIntrinsicGas height time msg (bool_decide (cm_To msg = None)) = Ok intrinsic /\
    0 <= intrinsic /\ 0 <= left <= cm_GasLimit msg - intrinsic /\ 0 <= avail /\
    gas_charged cfg internal (cm_GasLimit msg) left avail = Ok (rs_GasUsed res, rs_MaxUsedGas res).
Proof.
  intros H. unfold ApplyMessageWithConfig in H. minv. destruct a9 as [used maxUsed]. minv. zify_bool.
  apply execute_gas in H5; [|lia]. exists a, (er_Leftover a4), (u64 (sd_refund st4)). split_and!; try done; try lia.
  - unfold GetEthIntrinsicGas in H0. destruct (cfg_Rules _ _) as [[h i] sh]. by apply IntrinsicGas_nonneg in H0.
  - apply u64_range.
Qed.

Lemma ApplyMessage_bounds height time cfg msg commit callFromPrecompile internal s res s' :
  cm_GasLimit msg <= MaxInt64 -> 0 <= default 0 (ec_MinGasMultiplier cfg) <= dec_one ->
  ApplyMessageWithConfig height time cfg msg commit callFromPrecompile internal s = (Ok res, s') ->
  0 <= rs_GasUsed res <= cm_GasLimit msg.
Proof.
  intros Hlim Hm H. apply ApplyMessage_inv in H as (i & left & avail & _ & Hi & Hl & Ha & H).
  destruct (gas_charged_eq cfg internal (cm_GasLimit msg) left avail _ ltac:(lia) Hlim Ha eq_refl Hm) as [Heq Hs].
  rewrite Heq in H. injection H as <- _. pose proof (min_share (cm_GasLimit msg) _ ltac:(lia) Hm). destruct internal; lia.
Qed.

(** C9: the gas charged for a message. It never exceeds the gas limit, and the
    gas spent before refunds covers the intrinsic gas and does not exceed the
    limit either. For a message of a transaction a refund takes back at most a
    fifth of what was spent (a half before London) and the charge is at least
    the minimum share of the gas limit that the fee market asks for; for an
    internal call of a module the refund may be all that was spent and there is
    no minimum. *)
Theorem apply_message_gas height time cfg msg commit callFromPrecompile internal s res s' m :
  cm_GasLimit msg <= MaxInt64 -> default 0 (ec_MinGasMultiplier cfg) = m -> 0 <= m <= dec_one ->
  ApplyMessageWithConfig height time cfg msg commit callFromPrecompile internal s = (Ok res, s') ->
  exists intrinsic refund, GetEthIntrinsicGas height time msg (bool_decide (cm_To msg = None)) = Ok intrinsic /\
    intrinsic <= rs_MaxUsedGas res <= cm_GasLimit msg /\
    0 <= refund <= (if internal then rs_MaxUsedGas res else rs_MaxUsedGas res / (if ec_IsLondon cfg then 5 else 2)) /\
    rs_GasUsed res <= cm_GasLimit msg /\
    rs_GasUsed res = if internal then rs_MaxUsedGas res - refund
                     else Z.max (rs_MaxUsedGas res - refund) (cm_GasLimit msg * m / dec_one).
Proof.
  intros Hlim Hm Hmr H. apply ApplyMessage_inv in H as (i & left & avail & Hi & Hi0 & Hl & Ha & H).
  destruct (gas_charged_eq cfg internal (cm_GasLimit msg) left avail m) as [Heq Hs]; try done; [lia|].
  rewrite Heq in H. injection H as Hu Hmax. rewrite <- Hu, <- Hmax. set (used := cm_GasLimit msg - left) in *.
  exists i, (Z.min avail (used / refund_quotient cfg internal)). pose proof (min_share (cm_GasLimit msg) m) as Hshare.
  assert (0 <= used / refund_quotient cfg internal).
  { apply Z.div_pos; [lia|]. unfold refund_quotient. repeat case_match; done. }
  assert ((if internal then used else used / (if ec_IsLondon cfg then 5 else 2)) = used / refund_quotient cfg internal) as ->.
  { unfold refund_quotient. destruct internal; [by rewrite Z.div_1_r|by destruct (ec_IsLondon cfg)]. }
  split_and!; try done; try lia. destruct internal; lia.
Qed.
End gas.

(** ** The cost of a transaction *)

Section transaction.
Context {Ge : TxLibs} {Dc : SdkDec} {Ma : SdkMath} {Ty : SdkTypes} {Ec : EthCommon} {Cr : EthCrypto}.
Context {W : Type} {Ab : AuthBank W} {Al : AuthBankLaws W} {Fb : FeeLibs W} {Fl : FeeLaws W}.
Context {Rb : RefundLibs W} {Rl : RefundLaws W}.
Context {S : Type} {Kp : StateKeeper (VmState W)} {Sn : Snapshotter S (VmState W)} {Cc : CacheContext S (VmState W)}.
Context {Ex : ExecLibs (VmState W) S} {El : ExecLaws (VmState W) S}.
Context (ParseDelegation : bytes -> bool) (info : EvmCoinInfo).
Implicit Types (k : VmState W) (a : addr) (t : Transaction).

Abbreviation acct k a := (auth_GetAccount (vk_world k) a).
Abbreviation bal k a d := (bank_GetBalance (vk_world k) a d).

(** A refund is a fee paid back. *)
Lemma RefundGas_Ok v msg gas k k' : ci_ExtendedDenom info = ci_Denom info ->
  RefundGas info v msg gas (ci_Denom info) k = (Ok tt, k') ->
  0 <= gas * cm_GasPrice msg /\ fee_paid info v (cm_From msg) (- (gas * cm_GasPrice msg)) k k' /\
  keeps_accounts k k' /\ vk_store k' = vk_store k.
Proof.
  intros Hext. unfold RefundGas. set (amt := gas * cm_GasPrice msg). destruct (Z.ltb_spec amt 0) as [|Hge]; [done|].
  split; [done|]. destruct (Z.ltb_spec 0 amt) as [Hpos|Hz].
  2: { apply mret_Ok in H as [_ ->]. assert (amt = 0) as -> by lia. split; [apply fee_paid_zero|by split; [intros ??|]]. }
  minv. apply NewIntFromBigInt_Ok in H0 as ->. rewrite NewCoin_spec in H1. destruct (_ && _); simplify_eq.
  apply with_world_Ok in H as [H Hst]. apply wrapped_Ok in H. destruct v.
  - apply bank_SendFromModuleVirtual_ok in H as (Hb & Ha & Hv). split; [|done]. split.
    + intros b d. rewrite Hb, andb_false_r. case_bool_decide; lia.
    + intros m d. rewrite Hv, andb_true_r. case_bool_decide; lia.
  - revert H. unfold wrap_SendFromModule, ConvertCoinsDenomToExtendedDenom, convert_coin. simpl.
    rewrite String.eqb_refl, Coins_Sort_one, Coins_IsZero_one, Hext. simpl.
    rewrite (proj2 (Z.eqb_neq amt 0)) by lia. intros (Hb & Ha & Hv)%bank_SendFromModule_ok. split; [|done]. split.
    + intros b d. rewrite Hb, andb_true_r. repeat case_bool_decide; lia.
    + intros m d. rewrite Hv, andb_false_r. lia.
Qed.

Lemma fee_paid_trans v a x y k k1 k2 : fee_paid info v a x k k1 -> fee_paid info v a y k1 k2 ->
  fee_paid info v a (x + y) k k2.
Proof.
  intros [H1 V1] [H2 V2]. split; [intros b d; rewrite H2, H1|intros m d; rewrite V2, V1]; repeat case_match; lia.
Qed.

Lemma on_vm_Ok {A} (m : M (VmState W) A) st (x : A) st' : on_vm m st = (Ok x, st') ->
  m (xs_vm (ts_exec st)) = (Ok x, xs_vm (ts_exec st')).
Proof. unfold on_vm. destruct (m _) as [r k]. by intros [= -> <-]. Qed.

Lemma on_gas_vm {A} (m : M (gmap Z Z) A) st (r : outcome A) (st' : @TxState W) : on_gas m st = (r, st') -> ts_exec st' = ts_exec st.
Proof. unfold on_gas. destruct (m _). by intros [= _ <-]. Qed.

Lemma on_meter_vm {A} (m : M GasMeter A) st (r : outcome A) (st' : @TxState W) : on_meter m st = (r, st') -> ts_exec st' = ts_exec st.
Proof. unfold on_meter. destruct (m _). by intros [= _ <-]. Qed.

(** What a failed transaction leaves of the state [x] before it: the state
    itself, or what the hooks made of it for a failed receipt. *)
Definition hook_left (hooks : option Hooks) (x : ExecState) k : Prop :=
  k = xs_vm x \/ exists h sender msg receipt logs x', hooks = Some h /\ rc_Status receipt = false /\
    h sender msg receipt x = (Ok logs, x') /\ k = xs_vm x'.

Lemma post_process_failed hooks sender msg res receipt tmp st r (st' : @TxState W) :
  post_process hooks sender msg res receipt tmp st = (Ok r, st') -> Failed r = true ->
  rc_Status receipt = negb (Failed res) -> (Failed res = true -> tmp = ts_exec st) ->
  rs_GasUsed r = rs_GasUsed res /\ hook_left hooks (ts_exec st) (xs_vm (ts_exec st')).
Proof.
  intros H Hf Hs Ht. unfold post_process in H. destruct hooks as [h|].
  - destruct (h sender msg receipt tmp) as [[logs|e|e] tmp'] eqn:Hh; [|by injection H as <- <-; split; [|left]|done].
    apply mbind_Ok in H as ([] & ? & ->%mmodify_Ok & [-> ->]%mret_Ok). destruct (Failed res) eqn:Hr.
    + split; [done|]. right. rewrite (Ht eq_refl) in Hh. by exists h, sender, msg, receipt, logs, tmp'.
    + exfalso. unfold Failed, with_logs in *. cbn in Hf. congruence.
  - destruct (Failed res) eqn:Hr; minv; [by split; [|left]|congruence].
Qed.

(** A transaction that fails drops the state the execution left; the gas that was
    not used is refunded on top of what the hooks left. *)
Lemma ApplyTransaction_failed v height time txIndex msgIndex cfg hooks t st res st' : ci_ExtendedDenom info = ci_Denom info ->
  ApplyTransaction info v height time txIndex msgIndex (Ok cfg) hooks t st = (Ok res, st') -> Failed res = true ->
  exists msg res0 sdb mid, TransactionToMessage t (MakeSigner height (u64 time)) (ec_BaseFee cfg) = Ok msg /\
    ApplyMessageWithConfig height time cfg msg true false false (newStateDB (xs_vm (ts_exec st)) [] true txIndex) = (Ok res0, sdb) /\
    rs_GasUsed res = rs_GasUsed res0 /\ hook_left hooks (ts_exec st) mid /\
    let left := if rs_GasUsed res <? cm_GasLimit msg then cm_GasLimit msg - rs_GasUsed res else 0 in
    fee_paid info v (cm_From msg) (- (left * cm_GasPrice msg)) mid (xs_vm (ts_exec st')) /\
    keeps_accounts mid (xs_vm (ts_exec st')) /\ vk_store (xs_vm (ts_exec st')) = vk_store mid.
Proof.
  intros Hext H Hfail. unfold ApplyTransaction in H. cbn [owrap] in H. minv.
  destruct (ApplyMessageWithConfig _ _ _ _ _ _ _ _) as [[r|e|e] sdb] eqn:Hm; minv.
  apply post_process_failed in H3 as [Hu Hx]; [|done|done|by intros ->].
  injection H4 as <-. apply on_vm_Ok in H5. apply wrapped_Ok in H5.
  destruct a5. apply RefundGas_Ok in H5 as (_ & Hfee & Hk & Hs); [|done].
  match goal with Hg : on_gas _ _ = _ |- _ => apply on_gas_vm in Hg end.
  match goal with Hg : on_meter _ _ = _ |- _ => apply on_meter_vm in Hg end.
  rewrite H7, H6. exists a0, r, sdb, (xs_vm (ts_exec st2)). split; [done|]. split; [exact Hm|]. done.
Qed.

(** C8: what a failed transaction costs. The ante handler, which checks the
    signature now or in an earlier incarnation, uses up the sender's nonce and
    takes the effective price for the whole gas limit; the execution that fails,
    or whose hooks fail, leaves nothing but what the hooks persist for a failed
    receipt ([hook_left]), and the price of the gas that was not charged is paid
    back on top of that. When the hooks persisted nothing, the sender has paid
    exactly the charged gas, never more than the limit, to the fee collector or,
    with virtual collection, to what the bank credits it at the end of the block;
    no other balance and no storage has changed and no other account is lost. *)
Theorem failed_tx_costs_gas_used md ctx tx simulate s g p s1 cfg hooks txIndex msgIndex blooms gases meter res st' msg t b :
  ci_ExtendedDenom info = ci_Denom info ->
  cache_of ParseDelegation info (cx_Height ctx) (cx_Time ctx) tx (as_sigcache s) -> cx_SigverifyTx ctx = true ->
  Mono_AnteHandle ParseDelegation info md ctx tx simulate s = (Ok (g, p), s1) ->
  ct_Msgs tx = [EthMsg msg] -> em_Raw msg = Some t -> tx_Gas t <= MaxInt64 ->
  evm_GetBaseFee (Some info) (cx_Height ctx) (md_feemarketParams md) = Ok (Some b) -> ec_BaseFee cfg = Some b ->
  0 <= default 0 (ec_MinGasMultiplier cfg) <= dec_one ->
  let x := MkExecState (as_vm s1) blooms in
  ApplyTransaction info (md_virtualFees md) (cx_Height ctx) (cx_Time ctx) txIndex msgIndex (Ok cfg) hooks t
    (MkTxState x gases meter) = (Ok res, st') -> Failed res = true ->
  let k := as_vm s in
  let k' := xs_vm (ts_exec st') in
  let from := em_From msg in
  let price := EffectiveGasPrice b (tx_GasFeeCap t) (tx_GasTipCap t) in
  let paid := fee_paid info (md_virtualFees md) from in
  0 <= rs_GasUsed res <= tx_Gas t /\
  (paid (tx_Gas t * price) k (as_vm s1) /\ (exists acc, acct (as_vm s1) from = Some (with_sequence (tx_Nonce t + 1) acc)) /\
   (forall a y, a <> from -> acct k a = Some y -> acct (as_vm s1) a = Some y) /\ vk_store (as_vm s1) = vk_store k) /\
  exists mid, hook_left hooks x mid /\
    paid (- ((tx_Gas t - rs_GasUsed res) * price)) mid k' /\ keeps_accounts mid k' /\ vk_store k' = vk_store mid /\
    (mid = as_vm s1 -> paid (rs_GasUsed res * price) k k' /\ (exists acc, acct k' from = Some (with_sequence (tx_Nonce t + 1) acc)) /\
       (forall a y, a <> from -> acct k a = Some y -> acct k' a = Some y) /\ vk_store k' = vk_store k).
Proof.
  intros Hext Hc Hsv Hante Hmsg Hraw Hgas Hbase Hcb Hmul x Happ Hfail k k' from price paid.
  destruct (Mono_accepted _ _ _ _ _ _ _ _ _ _ _ _ Hext Hc Hante Hmsg Hraw (or_introl Hsv)) as (_ & b' & acc & Ha).
  rewrite (ap_base _ _ _ _ _ _ _ _ _ Ha) in Hbase. injection Hbase as ->.
  apply ApplyTransaction_failed in Happ as (m & res0 & sdb & mid & Hm & Hrun & Hgu & Hmid & Hpay & Hkeep & Hst); [|done..].
  rewrite Hcb in Hm. apply TransactionToMessage_ok in Hm as (Hfrom & Hlim & Hprice).
  rewrite (ap_sender _ _ _ _ _ _ _ _ _ Ha Hsv) in Hfrom. injection Hfrom as Hfrom. rewrite Hlim, Hprice, <- Hfrom in Hpay.
  assert (0 <= rs_GasUsed res <= tx_Gas t) as Hused by (rewrite Hgu, <- Hlim in *; by eapply ApplyMessage_bounds).
  assert (paid (- ((tx_Gas t - rs_GasUsed res) * price)) mid k') as Hback.
  { destruct (Z.ltb_spec (rs_GasUsed res) (tx_Gas t)); [done|]. by replace (tx_Gas t - rs_GasUsed res) with 0 by lia. }
  split; [done|]. destruct (ap_nonce _ _ _ _ _ _ _ _ _ Ha) as [_ Hn]. split.
  { split_and!; [apply Ha|by exists acc|apply Ha|apply Ha]. }
  exists mid. split_and!; [done..|]. intros ->. split_and!.
  - replace (rs_GasUsed res * price) with (tx_Gas t * price + - ((tx_Gas t - rs_GasUsed res) * price)) by lia.
    eapply fee_paid_trans; [apply Ha|exact Hback].
  - exists acc. by apply Hkeep.
  - intros a y Hne Hy. apply Hkeep. by eapply ap_others.
  - unfold k'. rewrite Hst. apply Ha.
Qed.
End transaction.

(** ** Witnesses *)

Lemma run_Ok {A S} (m : outcome A * S) x : m.1 = Ok x -> m = (Ok x, m.2).
Proof. destruct m. simpl. by intros ->. Qed.

Definition ex_call : outcome TxResponse * ExDB :=
  ApplyMessageWithConfig 10 1700000000 ex_cfg (ex_msg "ok") true false false ex_db.
Definition ex_failed : outcome TxResponse * TxState := ex_apply (ex_run ex_ante).2.

Lemma ex_call_ok : ex_call = (Ok (MkTxResponse 62 62 EmptyString "ok" []), ex_call.2).
Proof. apply run_Ok. vm_compute. reflexivity. Qed.

Lemma ex_failed_ok : ex_failed =
  (Ok (MkTxResponse 26 26 ErrExecutionReverted EmptyString []), ex_failed.2).
Proof. apply run_Ok. vm_compute. reflexivity. Qed.

(** Of 100 gas the call with two bytes of data spends 62, its minimum being 50. *)
Lemma apply_message_gas_witness : exists refund, 62 = Z.max (62 - refund) (100 * (dec_one / 2) / dec_one).
Proof.
  destruct (apply_message_gas 10 1700000000 ex_cfg (ex_msg "ok") true false false ex_db
    (MkTxResponse 62 62 EmptyString "ok" []) ex_call.2 (dec_one / 2)) as (i & refund & _ & _ & _ & _ & Hused);
    [by vm_compute|reflexivity|by vm_compute|exact ex_call_ok|].
  exists refund. exact Hused.
Defined.

(** The transfer reverts: alice pays for 26 of its 30 units of gas, and bob has
    what the hook gave. *)
Lemma failed_tx_costs_gas_used_witness :
  bank_GetBalance (vk_world (xs_vm (ts_exec ex_failed.2))) alice "axit" = 1000 - 26 * 9 /\
  bank_Virtual (vk_world (xs_vm (ts_exec ex_failed.2))) FeeCollectorName "axit" = 26 * 9 /\
  bank_GetBalance (vk_world (xs_vm (ts_exec ex_failed.2))) bob "axit" = 5 /\
  exists mid, hook_left (Some ex_hook) (MkExecState (as_vm (ex_run ex_ante).2) ∅) mid /\
    fee_paid ref_coin true alice (- (4 * 9)) mid (xs_vm (ts_exec ex_failed.2)).
Proof.
  do 3 (split; [vm_compute; reflexivity|]).
  destruct (failed_tx_costs_gas_used no_delegation ref_coin ex_mono ex_ctx ex_cosmos_tx false ex_ante 30 0
    (ex_run ex_ante).2 ex_cfg (Some ex_hook) 0 0 ∅ ∅ (NewInfiniteGasMeterWithLimit 30)
    (MkTxResponse 26 26 ErrExecutionReverted EmptyString []) ex_failed.2
    (MkMsgEthereumTx alice (Some ex_tx)) ex_tx 7)
    as (_ & _ & mid & Hl & Hpaid & _); [reflexivity|constructor|reflexivity|exact ex_run_ok|reflexivity|reflexivity|
                         by vm_compute|reflexivity|reflexivity|by vm_compute|exact ex_failed_ok|reflexivity|].
  exists mid. split; [exact Hl|exact Hpaid].
Defined.
