(* ===== verification/GoHeap.v ===== *)
(** * Go's container/heap and map iteration

    The binary heaps of the transaction pool are slices ordered by
    [container/heap]. [up], [down], [Init], [Push], [Pop], [Remove] and [Fix] are
    the functions of the standard library on a list, over the [Less] of the
    caller. Every operation keeps the elements and restores the heap order, so
    that the first element is a smallest one. *)

From Stdlib Require Import ZArith Lia List Bool.
From stdpp Require Import base gmap list numbers sorting.
From S2P Require Import Prelude.

(** ** Iteration over a map

    The order in which [range] visits a map is not specified: any function that
    enumerates the entries. *)
Class MapRange := {
  go_range {K V} `{Countable K} : gmap K V -> list (K * V);
  go_range_perm {K V} `{Countable K} (m : gmap K V) : go_range m ≡ₚ map_to_list m;
}.

#[export] Instance ref_range : MapRange := {|
  go_range K V _ _ m := map_to_list m;
  go_range_perm K V _ _ m := Permutation_refl _;
|}.

Lemma go_range_elem {Mr : MapRange} {K V} `{Countable K} (m : gmap K V) k v :
  (k, v) ∈ go_range m <-> m !! k = Some v.
Proof. by rewrite go_range_perm, elem_of_map_to_list. Qed.

Lemma go_range_NoDup {Mr : MapRange} {K V} `{Countable K} (m : gmap K V) : NoDup (go_range m).*1.
Proof. rewrite go_range_perm. apply NoDup_fst_map_to_list. Qed.

(** ** The heap *)

Section heap.
Context {A : Type} `{!Inhabited A} (less : A -> A -> bool).
Implicit Types (l : list A) (i j k n : nat) (x y : A).

Definition swap l i j : list A := <[i := l !!! j]> (<[j := l !!! i]> l).
Definition parent j : nat := (j - 1) / 2.

(** At the root the parent of Go's [up] is the element itself. *)
Fixpoint up (fuel : nat) l j : list A :=
  match fuel with
  | O => l
  | S fuel' =>
    let i := parent j in
    if Nat.eqb i j || negb (less (l !!! j) (l !!! i)) then l else up fuel' (swap l i j) i
  end.

Definition smaller_child l i n : nat :=
  let j1 := 2 * i + 1 in
  if Nat.ltb (j1 + 1) n && less (l !!! (j1 + 1)) (l !!! j1) then j1 + 1 else j1.

Fixpoint down (fuel : nat) l i n : list A * bool :=
  match fuel with
  | O => (l, false)
  | S fuel' =>
    if Nat.leb n (2 * i + 1) then (l, false) else
    let j := smaller_child l i n in
    if less (l !!! j) (l !!! i) then ((down fuel' (swap l i j) j n).1, true) else (l, false)
  end.

(** The fuel: the index of [up] halves, the one of [down] grows up to [n]. *)
Definition heap_up l j : list A := up (S j) l j.
Definition heap_down l i n : list A * bool := down n l i n.

Fixpoint init_loop (i : nat) l : list A :=
  match i with
  | O => l
  | S i' => init_loop i' (heap_down l i' (length l)).1
  end.
Definition heap_Init l : list A := init_loop (length l / 2) l.

Definition heap_Push x l : list A := heap_up (l ++ [x]) (length l).

(** [Pop] of an empty heap is an index out of range. *)
Definition heap_Pop l : option (A * list A) :=
  match l with
  | [] => None
  | _ =>
    let n := length l - 1 in
    let l' := (heap_down (swap l 0 n) 0 n).1 in
    Some (l' !!! n, take n l')
  end.

Definition heap_Fix i l : list A :=
  let (l', moved) := heap_down l i (length l) in
  if moved then l' else heap_up l' i.

Definition heap_Remove i l : A * list A :=
  let n := length l - 1 in
  let l' := if Nat.eqb n i then l else
    let (l1, moved) := heap_down (swap l i n) i n in
    if moved then l1 else heap_up l1 i in
  (l' !!! n, take n l').
End heap.

(** ** Heap order

    [less] is a strict weak order: [le], its converse negated, is a total
    preorder. *)
Class StrictWeak {A} (less : A -> A -> bool) : Prop := {
  less_asym x y : less x y = true -> less y x = false;
  less_negtrans x y z : less y x = false -> less z y = false -> less z x = false;
}.

Lemma parent_bounds c : 0 < c -> 2 * parent c + 1 <= c <= 2 * parent c + 2.
Proof. unfold parent. intros. pose proof (Nat.div_mod (c - 1) 2). pose proof (Nat.mod_upper_bound (c - 1) 2). lia. Qed.

Lemma parent_root : parent 0 = 0.
Proof. done. Qed.

Section order.
Context {A : Type} `{!Inhabited A} (less : A -> A -> bool) `{!StrictWeak less}.
Implicit Types (l : list A) (i j k n : nat) (x y : A).

Definition le x y : Prop := less y x = false.

Lemma le_refl x : le x x.
Proof. unfold le. destruct (less x x) eqn:H; [|done]. by rewrite (less_asym x x H) in H. Qed.
Lemma le_trans x y z : le x y -> le y z -> le x z.
Proof. apply less_negtrans. Qed.
Lemma less_le x y : less x y = true -> le x y.
Proof. apply less_asym. Qed.

Definition ordered l i j : Prop := le (l !!! i) (l !!! j).
Definition heap_upto n l : Prop := forall c, 0 < c < n -> ordered l (parent c) c.
Definition heap_ok l : Prop := heap_upto (length l) l.

(** ** Swapping *)

Lemma swap_length l i j : length (swap l i j) = length l.
Proof. unfold swap. by rewrite !length_insert. Qed.

Lemma swap_lookup l i j k : i < length l -> j < length l ->
  swap l i j !!! k = if Nat.eqb k i then l !!! j else if Nat.eqb k j then l !!! i else l !!! k.
Proof.
  intros Hi Hj. unfold swap. destruct (Nat.eqb_spec k i) as [->|Hki].
  { rewrite list_lookup_total_insert_eq; [done|]. by rewrite length_insert. }
  rewrite list_lookup_total_insert_ne by done. destruct (Nat.eqb_spec k j) as [->|Hkj].
  - by rewrite list_lookup_total_insert_eq.
  - by rewrite list_lookup_total_insert_ne.
Qed.

Lemma swap_perm l i j : i < length l -> j < length l -> swap l i j ≡ₚ l.
Proof.
  intros Hi Hj. apply Permutation_inj. split; [apply swap_length|].
  exists (fun k => if Nat.eqb k i then j else if Nat.eqb k j then i else k). split.
  - intros a b. repeat case_match; repeat match goal with H : Nat.eqb _ _ = true |- _ => apply Nat.eqb_eq in H
      | H : Nat.eqb _ _ = false |- _ => apply Nat.eqb_neq in H end; lia.
  - intros k. destruct (decide (k < length l)) as [Hk|Hk].
    + rewrite (list_lookup_lookup_total_lt (swap l i j)) by (by rewrite swap_length).
      rewrite swap_lookup by done. symmetry. repeat case_match; by apply list_lookup_lookup_total_lt.
    + rewrite (lookup_ge_None_2 (swap l i j)) by (rewrite swap_length; lia). symmetry.
      rewrite (proj2 (Nat.eqb_neq k i)), (proj2 (Nat.eqb_neq k j)) by lia. apply lookup_ge_None_2. lia.
Qed.

(** Case analysis on the indices of a swapped list. *)
Ltac swap_cases :=
  unfold ordered in *; rewrite !swap_lookup by lia;
  repeat (case_match; repeat match goal with
    | H : Nat.eqb _ _ = true |- _ => apply Nat.eqb_eq in H
    | H : Nat.eqb _ _ = false |- _ => apply Nat.eqb_neq in H
    end; subst; try lia).

(** ** up *)

(** All pairs are ordered but the one of [j] and its parent, which does not
    matter to the children of [j]. *)
Definition up_pre n l j : Prop :=
  (forall c, 0 < c < n -> c <> j -> ordered l (parent c) c) /\
  (forall c, 0 < j -> 0 < c < n -> parent c = j -> ordered l (parent j) c).

Lemma up_step n l j : j < n <= length l -> 0 < j -> less (l !!! j) (l !!! parent j) = true ->
  up_pre n l j -> up_pre n (swap l (parent j) j) (parent j).
Proof.
  intros Hj Hpos Hless [H1 H2]. pose proof (parent_bounds j Hpos) as Hpj. apply less_le in Hless. split.
  - intros c Hc Hne. pose proof (parent_bounds c ltac:(lia)). swap_cases.
    + done.
    + apply le_trans with (l !!! parent j); [done|]. rewrite <- H0. apply H1; lia.
    + apply H2; lia.
    + apply H1; lia.
  - intros c Hp Hc Hpc. pose proof (parent_bounds c ltac:(lia)). pose proof (parent_bounds _ Hp).
    assert (ordered l (parent (parent j)) (parent j)) as Hpp by (apply H1; lia).
    swap_cases; [done|]. apply le_trans with (l !!! parent j); [done|]. rewrite <- Hpc. apply H1; lia.
Qed.

Lemma up_spec fuel n l j : j < fuel -> j < n <= length l -> up_pre n l j ->
  let l' := up less fuel l j in
  heap_upto n l' /\ l' ≡ₚ l /\ length l' = length l /\ forall k, n <= k -> l' !!! k = l !!! k.
Proof.
  revert l j. induction fuel as [|fuel IH]; intros l j Hf Hj Hpre; [lia|]. simpl.
  destruct (Nat.eqb_spec (parent j) j) as [Heq|Hne]; simpl.
  { assert (j = 0) as -> by (destruct (decide (0 < j)) as [Hp|]; [pose proof (parent_bounds j Hp)|]; lia).
    split_and!; try done. intros c Hc. apply Hpre; lia. }
  assert (0 < j) as Hpos by (destruct j; [done|lia]). pose proof (parent_bounds j Hpos).
  destruct (less (l !!! j) (l !!! parent j)) eqn:Hless; simpl.
  - destruct (IH (swap l (parent j) j) (parent j)) as (Hh & Hp & Hl & Hk); [lia|rewrite swap_length; lia|by apply up_step|].
    rewrite swap_length in Hl. split_and!; try done; [by rewrite Hp, swap_perm by lia|].
    intros k Hk'. rewrite Hk by lia. swap_cases. done.
  - split_and!; try done. intros c Hc. destruct (decide (c = j)) as [->|]; [done|]. apply Hpre; lia.
Qed.

(** ** down *)

Lemma smaller_child_spec l i n : 2 * i + 1 < n ->
  let j := smaller_child less l i n in
  0 < j < n /\ parent j = i /\ i < j /\ forall c, 0 < c < n -> parent c = i -> ordered l j c.
Proof.
  intros Hn j. unfold j, smaller_child.
  assert (parent (2 * i + 1) = i /\ parent (2 * i + 1 + 1) = i) as [Hp1 Hp2].
  { pose proof (parent_bounds (2 * i + 1)). pose proof (parent_bounds (2 * i + 1 + 1)). lia. }
  destruct (Nat.ltb_spec (2 * i + 1 + 1) n) as [Hn2|Hn2]; cbn [andb];
    [destruct (less (l !!! (2 * i + 1 + 1)) (l !!! (2 * i + 1))) eqn:Hless|];
    split_and!; try done; try lia; intros c Hc Hpc; pose proof (parent_bounds c ltac:(lia));
    assert (c = 2 * i + 1 \/ c = 2 * i + 1 + 1) as [->| ->] by lia; try lia; try apply le_refl; try done.
  by apply less_le.
Qed.

(** All pairs below a parent [k] are ordered but those of [i] with its parent
    and its children. *)
Definition down_pre k n l i : Prop :=
  (forall c, 0 < c < n -> k <= parent c -> parent c <> i -> c <> i -> ordered l (parent c) c) /\
  (forall c, 0 < c < n -> 0 < i -> k <= parent i -> parent c = i -> ordered l (parent i) c).

Lemma down_step k n l i j : 2 * i + 1 < n <= length l -> j = smaller_child less l i n ->
  down_pre k n l i -> down_pre k n (swap l i j) j.
Proof.
  intros Hn -> [H1 H2]. destruct (smaller_child_spec l i n) as (Hj & Hpj & Hij & Hmin); [lia|].
  set (j := smaller_child less l i n) in *. clearbody j. split.
  - intros c Hc Hk Hpc Hcj. pose proof (parent_bounds c ltac:(lia)). swap_cases.
    + apply Hmin; done || lia.
    + apply H2; done || lia.
    + apply H1; done || lia.
  - intros c Hc _ Hk Hpc. pose proof (parent_bounds c ltac:(lia)). swap_cases.
    apply H1; lia.
Qed.

Lemma down_spec fuel k n l i : n <= fuel + i -> i < n <= length l -> down_pre k n l i ->
  let '(l', moved) := down less fuel l i n in
  (forall c, 0 < c < n -> k <= parent c -> c <> i \/ moved = true -> ordered l' (parent c) c) /\
  (moved = false -> l' = l) /\ l' ≡ₚ l /\ length l' = length l /\ forall m, n <= m -> l' !!! m = l !!! m.
Proof.
  revert l i. induction fuel as [|fuel IH]; intros l i Hf Hi Hpre; [lia|]. simpl.
  destruct (Nat.leb_spec n (i + (i + 0) + 1)) as [Hn|Hn].
  { split_and!; try done. intros c Hc Hk [Hci|]; [|done]. pose proof (parent_bounds c ltac:(lia)). apply Hpre; lia. }
  destruct (smaller_child_spec l i n) as (Hj & Hpj & Hij & Hmin); [lia|].
  pose proof (down_step k n l i _ ltac:(lia) eq_refl Hpre) as Hstep.
  set (j := smaller_child less l i n) in *. clearbody j.
  destruct (less (l !!! j) (l !!! i)) eqn:Hless; simpl.
  - specialize (IH (swap l i j) j). destruct (down less fuel (swap l i j) j n) as [l' moved].  cbn [fst].
    destruct IH as (Hh & Hnm & Hp & Hl & Hm); [lia|rewrite swap_length; lia|done|].
    rewrite swap_length in Hl. split_and!; try done.
    + intros c Hc Hk _. destruct (decide (c = j)) as [->|]; [|apply Hh; auto].
      destruct moved; [apply Hh; auto|]. rewrite (Hnm eq_refl), Hpj. swap_cases. by apply less_le.
    + by rewrite Hp, swap_perm by lia.
    + intros m Hm'. rewrite Hm by lia. swap_cases. done.
  - split_and!; try done. intros c Hc Hk [Hci|]; [|done].
    destruct (decide (parent c = i)) as [Hpc|]; [|by apply Hpre].
    rewrite Hpc. apply le_trans with (l !!! j); [done|]. by apply Hmin.
Qed.

(** ** The operations *)

(** The first element of a heap is a smallest one. *)
Lemma heap_min l i : heap_ok l -> i < length l -> ordered l 0 i.
Proof.
  intros Hh. induction i as [i IH] using lt_wf_ind. intros Hi. destruct (decide (i = 0)) as [->|]; [apply le_refl|].
  pose proof (parent_bounds i ltac:(lia)). apply le_trans with (l !!! parent i); [apply IH; lia|apply Hh; lia].
Qed.

Lemma heap_min_elem x l y : heap_ok (x :: l) -> y ∈ x :: l -> le x y.
Proof.
  intros Hh [i Hi]%list_elem_of_lookup. pose proof (lookup_lt_Some _ _ _ Hi) as Hlt.
  pose proof (heap_min _ i Hh Hlt) as H. unfold ordered in H. by rewrite (list_lookup_total_correct _ _ _ Hi) in H.
Qed.

Lemma take_upto n l : n <= length l -> heap_upto n l -> heap_ok (take n l).
Proof.
  intros Hn Hh c. rewrite length_take, Nat.min_l by done. intros Hc. pose proof (parent_bounds c ltac:(lia)).
  unfold ordered. rewrite !lookup_total_take_lt by lia. by apply Hh.
Qed.

(** The part of a list up to its last element. *)
Lemma take_last l : 0 < length l -> l ≡ₚ l !!! (length l - 1) :: take (length l - 1) l.
Proof.
  intros Hl. rewrite <- (take_drop (length l - 1) l) at 1.
  assert (l !! (length l - 1) = Some (l !!! (length l - 1))) as Hx by (apply list_lookup_lookup_total_lt; lia).
  rewrite (drop_S _ _ _ Hx), (drop_ge l) by lia. by rewrite Permutation_app_comm.
Qed.

Lemma heap_Init_spec l : heap_ok (heap_Init less l) /\ heap_Init less l ≡ₚ l.
Proof.
  unfold heap_Init. assert (forall i l0, i <= length l0 -> (forall c, 0 < c < length l0 -> i <= parent c -> ordered l0 (parent c) c) ->
    heap_ok (init_loop less i l0) /\ init_loop less i l0 ≡ₚ l0) as Hloop.
  { induction i as [|i IH]; intros l0 Hi H0; simpl; [split; [|done]; intros c Hc; apply H0; lia|].
    pose proof (down_spec (length l0) i (length l0) l0 i ltac:(lia) ltac:(lia)) as Hd.
    fold (heap_down less l0 i (length l0)) in Hd. destruct (heap_down less l0 i (length l0)) as [l1 moved]. simpl.
    destruct Hd as (Hh & _ & Hp & Hl & _).
    { split; [intros c Hc Hk Hne _; apply H0; lia|]. intros c Hc Hp Hk. pose proof (parent_bounds i Hp). lia. }
    destruct (IH l1) as [Hok Hperm]; [lia| |split; [done|by rewrite Hperm, Hp]].
    intros c Hc Hk. rewrite Hl in Hc. apply Hh; [done..|]. pose proof (parent_bounds c ltac:(lia)). lia. }
  pose proof (Nat.div_mod (length l) 2). pose proof (Nat.mod_upper_bound (length l) 2).
  apply Hloop; [lia|]. intros c Hc Hk. pose proof (parent_bounds c ltac:(lia)). lia.
Qed.

Lemma heap_Push_spec x l : heap_ok l -> heap_ok (heap_Push less x l) /\ heap_Push less x l ≡ₚ x :: l.
Proof.
  intros Hh. pose proof (up_spec (S (length l)) (S (length l)) (l ++ [x]) (length l)) as Hup.
  cbv zeta in Hup. fold (heap_up less (l ++ [x]) (length l)) in Hup. fold (heap_Push less x l) in Hup.
  destruct Hup as (Hok & Hp & Hl & _); [lia|rewrite length_app; simpl; lia| |].
  - split.
    + intros c Hc Hne. pose proof (parent_bounds c ltac:(lia)). unfold ordered.
      rewrite !lookup_total_app_l by lia. apply Hh. lia.
    + intros c _ Hc Hpc. pose proof (parent_bounds c ltac:(lia)). lia.
  - rewrite length_app in Hl. split; [unfold heap_ok; by rewrite Hl, Nat.add_1_r|].
    rewrite Hp. by rewrite Permutation_app_comm.
Qed.

Lemma heap_Pop_spec x l : heap_ok (x :: l) -> exists l', heap_Pop less (x :: l) = Some (x, l') /\
  heap_ok l' /\ l' ≡ₚ l.
Proof.
  intros Hh. unfold heap_Pop. set (l0 := x :: l) in *. change (length l0 - 1) with (length l - 0). rewrite Nat.sub_0_r.
  set (n := length l). assert (length l0 = S n) as Hl0 by done.
  destruct (decide (n = 0)) as [Hz|Hnz].
  { assert (l = []) as -> by (by apply nil_length_inv). eexists. split; [done|]. split; [|done]. intros c Hc. simpl in Hc. lia. }
  pose proof (down_spec n 0 n (swap l0 0 n) 0) as Hd. fold (heap_down less (swap l0 0 n) 0 n) in Hd.
  destruct (heap_down less (swap l0 0 n) 0 n) as [l1 moved]. simpl.
  destruct Hd as (Hok & Hnm & Hp & Hl & Hm); [lia|rewrite swap_length; lia| |].
  { split; [|intros; lia]. intros c Hc _ Hpc Hc0. pose proof (parent_bounds c ltac:(lia)). pose proof (Hh c ltac:(lia)).
    swap_cases. done. }
  rewrite swap_length, Hl0 in Hl. assert (l1 !!! n = x) as Hx.
  { rewrite Hm by done. rewrite swap_lookup by lia. rewrite (proj2 (Nat.eqb_neq n 0)) by done. by rewrite Nat.eqb_refl. }
  exists (take n l1). rewrite Hx. split; [done|]. split.
  - apply take_upto; [lia|]. intros c Hc. apply Hok; [lia|lia|left; lia].
  - assert (x :: take n l1 ≡ₚ x :: l) as Hperm; [|by apply Permutation_cons_inv in Hperm].
    pose proof (take_last l1 ltac:(lia)) as Ht. rewrite Hl in Ht. change (S n - 1) with (n - 0) in Ht.
    rewrite Nat.sub_0_r, Hx in Ht. rewrite <- Ht, Hp. apply (swap_perm l0); rewrite Hl0; lia.
Qed.

(** The element at [i] was replaced: [down], and [up] when it did not move. *)
Definition fix_pre n l i : Prop :=
  (forall c, 0 < c < n -> parent c <> i -> c <> i -> ordered l (parent c) c) /\
  (forall c, 0 < c < n -> 0 < i -> parent c = i -> ordered l (parent i) c).

Lemma fix_spec n l i : i < n <= length l -> fix_pre n l i ->
  let l' := let (l1, moved) := heap_down less l i n in if moved then l1 else heap_up less l1 i in
  heap_upto n l' /\ l' ≡ₚ l /\ length l' = length l /\ forall k, n <= k -> l' !!! k = l !!! k.
Proof.
  intros Hi [H1 H2]. pose proof (down_spec n 0 n l i ltac:(lia) Hi) as Hd. fold (heap_down less l i n) in Hd.
  destruct (heap_down less l i n) as [l1 moved].
  destruct Hd as (Hok & Hnm & Hp & Hl & Hm); [split; [intros; apply H1|intros; apply H2]; done|].
  destruct moved; [split_and!; try done; intros c Hc; apply Hok; auto with lia|].
  rewrite (Hnm eq_refl) in *. unfold heap_up. apply up_spec; [lia|done|].
  split; [intros c Hc Hne; apply Hok; auto with lia|intros c Hi0 Hc Hpc; by apply H2].
Qed.

Lemma heap_Fix_spec i l : i < length l -> fix_pre (length l) l i -> heap_ok (heap_Fix less i l) /\ heap_Fix less i l ≡ₚ l.
Proof.
  intros Hi Hpre. destruct (fix_spec (length l) l i) as (Hok & Hp & Hl & _); [lia|done|].
  unfold heap_Fix. split; [|done]. unfold heap_ok. by rewrite Hl.
Qed.

(** Replacing one element of a heap leaves only its own pairs to fix. *)
Lemma insert_fix_pre i x l : heap_ok l -> i < length l -> fix_pre (length l) (<[i := x]> l) i.
Proof.
  intros Hh Hi. split.
  - intros c Hc Hpc Hci. unfold ordered. rewrite !list_lookup_total_insert_ne by done. apply Hh. lia.
  - intros c Hc Hi0 Hpc. pose proof (parent_bounds c ltac:(lia)). pose proof (parent_bounds i ltac:(lia)).
    unfold ordered. rewrite !list_lookup_total_insert_ne by lia. apply le_trans with (l !!! i).
    + apply Hh. lia.
    + rewrite <- Hpc. apply Hh. lia.
Qed.

Lemma heap_Remove_spec i l : heap_ok l -> i < length l ->
  let '(x, l') := heap_Remove less i l in x = l !!! i /\ heap_ok l' /\ l ≡ₚ x :: l'.
Proof.
  intros Hh Hi. unfold heap_Remove. set (n := length l - 1). destruct (Nat.eqb_spec n i) as [<-|Hne].
  { split_and!; [done| |by apply take_last; lia]. apply take_upto; [lia|]. intros c Hc. apply Hh. lia. }
  destruct (fix_spec n (swap l i n) i) as (Hok & Hp & Hl & Hk); [rewrite swap_length; lia| |].
  { split.
    - intros c Hc Hpc Hci. pose proof (parent_bounds c ltac:(lia)). pose proof (Hh c ltac:(lia)). swap_cases. done.
    - intros c Hc Hi0 Hpc. pose proof (parent_bounds c ltac:(lia)). pose proof (parent_bounds i Hi0).
      pose proof (Hh c ltac:(lia)) as Hc1. pose proof (Hh i ltac:(lia)) as Hi1. rewrite Hpc in Hc1. swap_cases.
      by eapply le_trans. }
  set (l' := let (l1, moved) := heap_down less (swap l i n) i n in if moved then l1 else heap_up less l1 i) in *.
  rewrite swap_length in Hl. assert (l' !!! n = l !!! i) as Hx.
  { rewrite Hk by done. rewrite swap_lookup by lia. rewrite (proj2 (Nat.eqb_neq n i)) by done. by rewrite Nat.eqb_refl. }
  rewrite Hx. split_and!; [done|apply take_upto; [lia|done]|].
  pose proof (take_last l' ltac:(lia)) as Ht. rewrite Hl in Ht. fold n in Ht. rewrite Hx in Ht.
  rewrite <- Ht, Hp. symmetry. apply swap_perm; lia.
Qed.

(** A sorted slice is a heap. *)
Lemma sorted_heap l : (forall i j, i < j < length l -> ordered l i j) -> heap_ok l.
Proof. intros H c Hc. pose proof (parent_bounds c ltac:(lia)). apply H. lia. Qed.
End order.

Arguments heap_ok {A _} less l.
Arguments le {A} less x y.
Arguments heap_Init {A _} less l : simpl never.
Arguments heap_Push {A _} less x l : simpl never.
Arguments heap_Pop {A _} less l : simpl never.
Arguments heap_Fix {A _} less i l : simpl never.
Arguments heap_Remove {A _} less i l : simpl never.
