(* ===== verification/TxList.v ===== *)
(** * mempool/txpool/legacypool: lists of transactions

    list.go: the nonce-sorted map with its heap and its cache, and the list of
    the transactions of an account with its running totals. The locks are left
    out: every operation runs under one. A result that the source collects from a map may
    hold nil, [None] here; [int] lengths and thresholds are [nat]. *)

From Stdlib Require Import ZArith Lia List String Bool.
From stdpp Require Import base gmap strings list sorting.
From S2P Require Import Prelude GoStrings GoHeap Sdk AccessList StateDB EvmCoin FeeMarket EvmTx.
Local Open Scope Z_scope.
Local Open Scope go_scope.

#[export] Instance tx_inhabited : Inhabited Transaction := populate (MkTransaction 0 0 0 0 0 None 0 EmptyString [] [] EmptyString).

(** What the pool reads of a transaction beside its fields. *)
Class PoolLibs := {
  tx_Hash : Transaction -> hash;
  tx_Size : Transaction -> Z;
  SetCodeAuthorities : Transaction -> list addr;
}.

Abbreviation Txs := (list (option Transaction)).

(** ** uint256 *)

Definition u256w (z : Z) : Z := z mod two256.
(** [uint256.FromBig] and whether it overflows. *)
Definition uint256_FromBig (z : Z) : Z * bool := (u256w z, two256 <=? Z.abs z).

(** ** SortedMap *)

Record SortedMap := MkSortedMap {
  sm_items : gmap Z Transaction;
  sm_index : list Z;
  sm_cache : option (list Transaction);
}.
Definition NewSortedMap : SortedMap := MkSortedMap ∅ [] None.

Definition by_nonce (a b : Transaction) : Prop := tx_Nonce a <= tx_Nonce b.
#[export] Instance by_nonce_dec : RelDecision by_nonce.
Proof. intros a b. unfold by_nonce. apply _. Defined.

Section sortedmap.
Context {Mr : MapRange}.
Abbreviation MM := (M SortedMap).

Definition slice_panic : string := "slice bounds out of range".

Definition sm_Get (nonce : Z) (m : SortedMap) : option Transaction := sm_items m !! nonce.
Definition sm_Len (m : SortedMap) : nat := size (sm_items m).

Definition sm_Put (tx : Transaction) (m : SortedMap) : SortedMap :=
  let nonce := tx_Nonce tx in
  let index := match sm_items m !! nonce with
               | None => heap_Push Z.ltb nonce (sm_index m)
               | Some _ => sm_index m
               end in
  MkSortedMap (<[nonce := tx]> (sm_items m)) index None.

Fixpoint forward_loop (fuel : nat) (threshold : Z) (items : gmap Z Transaction) (index : list Z)
    : Txs * gmap Z Transaction * list Z :=
  match fuel, heap_Pop Z.ltb index with
  | S fuel', Some (nonce, index') =>
    if default 0 (head index) <? threshold then
      let '(removed, items', index'') := forward_loop fuel' threshold (delete nonce items) index' in
      (items !! nonce :: removed, items', index'')
    else ([], items, index)
  | _, _ => ([], items, index)
  end.
Definition sm_Forward (threshold : Z) : MM Txs := fun m =>
  let '(removed, items, index) := forward_loop (length (sm_index m)) threshold (sm_items m) (sm_index m) in
  match sm_cache m with
  | None => (Ok removed, MkSortedMap items index None)
  | Some c =>
    if Nat.leb (length removed) (length c)
    then (Ok removed, MkSortedMap items index (Some (drop (length removed) c)))
    else (Panic slice_panic, MkSortedMap items index (Some c))
  end.

Definition sm_reheap (m : SortedMap) : SortedMap :=
  MkSortedMap (sm_items m) (heap_Init Z.ltb (go_range (sm_items m)).*1) None.

(** The heap is left as it is. *)
Definition sm_filter (f : Transaction -> bool) (m : SortedMap) : list Transaction * SortedMap :=
  let hit := List.filter (fun e => f e.2) (go_range (sm_items m)) in
  let items := foldl (fun it e => delete e.1 it) (sm_items m) hit in
  (hit.*2, MkSortedMap items (sm_index m) (match hit with [] => sm_cache m | _ => None end)).
Definition sm_Filter (f : Transaction -> bool) (m : SortedMap) : list Transaction * SortedMap :=
  let (removed, m') := sm_filter f m in
  (removed, match removed with [] => m' | _ => sm_reheap m' end).

Definition sm_flatten (m : SortedMap) : list Transaction * SortedMap :=
  match sm_cache m with
  | Some c => (c, m)
  | None => let c := merge_sort by_nonce (go_range (sm_items m)).*2 in (c, MkSortedMap (sm_items m) (sm_index m) (Some c))
  end.
Definition sm_LastElement : MM Transaction := fun m =>
  let (c, m') := sm_flatten m in
  match last c with Some t => (Ok t, m') | None => (Panic "index out of range", m') end.

(** The filter of a sorted pass may carry a state of its own. *)
Fixpoint filter_state {T} (f : Transaction -> T -> bool * T) (l : list Transaction) (t : T) : list Transaction * T :=
  match l with
  | [] => ([], t)
  | tx :: l' =>
    let (hit, t1) := f tx t in
    let (rest, t2) := filter_state f l' t1 in
    (if hit then tx :: rest else rest, t2)
  end.
Definition sm_filterSorted {T} (f : Transaction -> T -> bool * T) (t : T) (m : SortedMap) : list Transaction * T * SortedMap :=
  let (sorted, m') := sm_flatten m in
  let (removed, t') := filter_state f sorted t in
  let items := foldl (fun it tx => delete (tx_Nonce tx) it) (sm_items m') removed in
  (removed, t', MkSortedMap items (sm_index m') (match removed with [] => sm_cache m' | _ => None end)).

Fixpoint cap_loop (k : nat) (sorted : list Z) (size : nat) (items : gmap Z Transaction)
    : outcome (Txs * gmap Z Transaction) :=
  match k with
  | O => Ok ([], items)
  | S k' =>
    match sorted !! (size - 1)%nat with
    | None => Panic "index out of range"
    | Some n =>
      olet (drops, items') <- cap_loop k' sorted (size - 1) (delete n items);
      Ok (items !! n :: drops, items')
    end
  end.
Definition sm_Cap (threshold : nat) : MM Txs := fun m =>
  let size := size (sm_items m) in
  if Nat.leb size threshold then (Ok [], m) else
  let sorted := merge_sort Z.le (sm_index m) in
  match cap_loop (size - threshold) sorted size (sm_items m) with
  | Ok (drops, items) =>
    let index := take threshold sorted in
    match sm_cache m with
    | None => (Ok drops, MkSortedMap items index None)
    | Some c =>
      if Nat.leb (length drops) (length c)
      then (Ok drops, MkSortedMap items index (Some (take (length c - length drops) c)))
      else (Panic slice_panic, MkSortedMap items index (Some c))
    end
  | Err e => (Err e, m)
  | Panic e => (Panic e, m)
  end.

Definition sm_Remove (nonce : Z) (m : SortedMap) : bool * SortedMap :=
  match sm_items m !! nonce with
  | None => (false, m)
  | Some _ =>
    let index := match list_find (fun x => x = nonce) (sm_index m) with
                 | Some (i, _) => (heap_Remove Z.ltb i (sm_index m)).2
                 | None => sm_index m
                 end in
    (true, MkSortedMap (delete nonce (sm_items m)) index None)
  end.

Fixpoint ready_loop (fuel : nat) (next : Z) (items : gmap Z Transaction) (index : list Z)
    : Txs * gmap Z Transaction * list Z :=
  match fuel, heap_Pop Z.ltb index with
  | S fuel', Some (nonce, index') =>
    if default 0 (head index) =? next then
      let '(ready, items', index'') := ready_loop fuel' (u64 (next + 1)) (delete next items) index' in
      (items !! next :: ready, items', index'')
    else ([], items, index)
  | _, _ => ([], items, index)
  end.
Definition sm_Ready (start : Z) (m : SortedMap) : Txs * SortedMap :=
  match head (sm_index m) with
  | None => ([], m)
  | Some first =>
    if start <? first then ([], m) else
    let '(ready, items, index) := ready_loop (length (sm_index m)) first (sm_items m) (sm_index m) in
    (ready, MkSortedMap items index None)
  end.
End sortedmap.

(** ** list *)

Record TxList := MkTxList {
  tl_strict : bool;
  tl_txs : SortedMap;
  tl_costcap : Z;
  tl_gascap : Z;
  tl_totalcost : Z;
}.
Definition newList (strict : bool) : TxList := MkTxList strict NewSortedMap 0 0 0.

Section txlist.
Context {Mr : MapRange} {Ge : TxLibs}.
Abbreviation ML := (M TxList).

Definition tl_set_txs (m : SortedMap) (l : TxList) : TxList :=
  MkTxList (tl_strict l) m (tl_costcap l) (tl_gascap l) (tl_totalcost l).
Definition tl_set_total (z : Z) (l : TxList) : TxList :=
  MkTxList (tl_strict l) (tl_txs l) (tl_costcap l) (tl_gascap l) z.
Definition on_txs {A} (f : M SortedMap A) : ML A := fun l => let (r, m) := f (tl_txs l) in (r, tl_set_txs m l).
(** An operation that neither fails nor panics. *)
Definition sm_pure {A} (f : SortedMap -> A * SortedMap) : M SortedMap A := fun m => let (a, m') := f m in (Ok a, m').

Definition tl_Contains (nonce : Z) (l : TxList) : bool := bool_decide (is_Some (sm_Get nonce (tl_txs l))).
Definition tl_Len (l : TxList) : nat := sm_Len (tl_txs l).

Definition subTotalCost1 (tx : option Transaction) : ML unit := fun l =>
  match tx with
  | None => (Panic nil_deref, l)
  | Some t =>
    let (cost, overflow) := uint256_FromBig (Cost t) in
    if overflow then (Panic "overflow", l) else
    let l' := tl_set_total (u256w (tl_totalcost l - cost)) l in
    if tl_totalcost l <? cost then (Panic "totalcost underflow", l') else (Ok tt, l')
  end.
Fixpoint subTotalCost (txs : Txs) : ML unit :=
  match txs with
  | [] => mret tt
  | tx :: txs' => do! subTotalCost1 tx; subTotalCost txs'
  end.

(** The thresholds a replacement must reach. *)
Definition bumped (priceBump price : Z) : Z := (100 + to_int64 priceBump) * price / 100.
Definition underbids (priceBump : Z) (old tx : Transaction) : bool :=
  ((tx_GasFeeCap tx <=? tx_GasFeeCap old) || (tx_GasTipCap tx <=? tx_GasTipCap old)) ||
  ((tx_GasFeeCap tx <? bumped priceBump (tx_GasFeeCap old)) || (tx_GasTipCap tx <? bumped priceBump (tx_GasTipCap old))).

Definition tl_Add (tx : Transaction) (priceBump : Z) : ML (bool * option Transaction) := fun l =>
  let old := sm_Get (tx_Nonce tx) (tl_txs l) in
  if match old with Some o => underbids priceBump o tx | None => false end then (Ok (false, None), l) else
  (do! match old with Some o => subTotalCost [Some o] | None => mret tt end;
   let (cost, overflow) := uint256_FromBig (Cost tx) in
   if overflow then mret (false, None) else
   do! mmodify (fun l => MkTxList (tl_strict l) (sm_Put tx (tl_txs l)) (Z.max (tl_costcap l) cost)
                           (Z.max (tl_gascap l) (tx_Gas tx)) (u256w (tl_totalcost l + cost)));
   mret (true, old)) l.

Definition tl_Forward (threshold : Z) : ML Txs :=
  let! txs <- on_txs (sm_Forward threshold); do! subTotalCost txs; mret txs.

Definition filterInvalids (removed : list Transaction) : ML (list Transaction) :=
  let lowest := foldr Z.min MaxUint64 (tx_Nonce <$> removed) in
  on_txs (sm_pure (sm_filter (fun tx => lowest <? tx_Nonce tx))).

(** What follows the removal in [Filter] and [FilterSorted]. *)
Definition after_filter (removed : list Transaction) : ML (list Transaction * list Transaction) :=
  match removed with
  | [] => mret ([], [])
  | _ =>
    let! strict <- mreads tl_strict;
    let! invalids <- (if strict then filterInvalids removed else mret []);
    do! subTotalCost (Some <$> removed);
    do! subTotalCost (Some <$> invalids);
    do! mmodify (fun l => tl_set_txs (sm_reheap (tl_txs l)) l);
    mret (removed, invalids)
  end.
Definition tl_Filter (f : Transaction -> bool) : ML (list Transaction * list Transaction) :=
  let! removed <- on_txs (sm_pure (sm_Filter f)); after_filter removed.
Definition tl_FilterSorted {T} (f : Transaction -> T -> bool * T) (t : T) : ML (list Transaction * list Transaction * T) :=
  let! (removed, t') <- on_txs (sm_pure (sm_filterSorted f t));
  let! r <- after_filter removed; mret (r, t').

Definition over_limits (costLimit gasLimit : Z) (tx : Transaction) : bool :=
  (gasLimit <? tx_Gas tx) || (costLimit <? Cost tx).
Definition tl_CostFilter (costLimit gasLimit : Z) : ML (list Transaction * list Transaction) := fun l =>
  if (tl_costcap l <=? costLimit) && (tl_gascap l <=? gasLimit) then (Ok ([], []), l) else
  tl_Filter (over_limits costLimit gasLimit)
    (MkTxList (tl_strict l) (tl_txs l) costLimit gasLimit (tl_totalcost l)).

Definition tl_Cap (threshold : nat) : ML Txs :=
  let! txs <- on_txs (sm_Cap threshold); do! subTotalCost txs; mret txs.

Definition tl_Remove (tx : Transaction) : ML (bool * list Transaction) :=
  let nonce := tx_Nonce tx in
  let! found <- on_txs (sm_pure (sm_Remove nonce));
  if negb found then mret (false, []) else
  do! subTotalCost [Some tx];
  let! strict <- mreads tl_strict;
  if (strict : bool) then
    let! txs <- on_txs (sm_pure (sm_Filter (fun t => nonce <? tx_Nonce t)));
    do! subTotalCost (Some <$> txs);
    mret (true, txs)
  else mret (true, []).

Definition tl_Ready (start : Z) : ML Txs :=
  let! txs <- on_txs (sm_pure (sm_Ready start)); do! subTotalCost txs; mret txs.

Definition tl_Flatten : ML (list Transaction) := on_txs (sm_pure sm_flatten).
End txlist.
