(* ===== verification/TxListTheorems.v ===== *)
(** * The list of an account: totals, limits and order

    [tl_ok]: the nonce-sorted map is well formed, the running total is the sum
    of the costs, and the caps bound every transaction. Every operation keeps it
    and does not panic. *)

From Stdlib Require Import ZArith Lia List String Bool.
From stdpp Require Import base gmap strings list sorting.
From S2P Require Import Prelude GoStrings GoHeap Sdk AccessList StateDB EvmCoin FeeMarket EvmTx TxList RefEnv FeeMarketTheorems VmRef EvmAnte EvmAnteTheorems.
Local Open Scope Z_scope.

(** ** The nonce-sorted map: its invariant and its operations

    [sm_ok]: every transaction is stored under its nonce, the heap holds exactly
    the stored nonces, and a cache is the sorted content. The operations that
    walk the heap cut the sorted content in two; the filters keep it sorted. *)

#[export] Instance Zltb_weak : StrictWeak Z.ltb.
Proof.
  split; [intros x y; rewrite Z.ltb_lt, Z.ltb_ge; lia|intros x y z; rewrite !Z.ltb_ge; lia].
Qed.
#[export] Instance by_nonce_trans : Transitive by_nonce.
Proof. intros a b c. unfold by_nonce. lia. Qed.
#[export] Instance by_nonce_total : Total by_nonce.
Proof. intros a b. unfold by_nonce. lia. Qed.

(** ** The sorted content *)

Implicit Types (items : gmap Z Transaction) (m : SortedMap) (t : Transaction).

Definition keyed items : Prop := map_Forall (fun n t => tx_Nonce t = n /\ is_u64 n) items.
Definition txs_of items : list Transaction := (map_to_list items).*2.
Definition sorted_txs items : list Transaction := merge_sort by_nonce (txs_of items).

Lemma txs_of_elem items t : keyed items -> t ∈ txs_of items <-> items !! tx_Nonce t = Some t.
Proof.
  intros Hk. unfold txs_of. rewrite list_elem_of_fmap. split.
  - intros ([n t'] & -> & Hn%elem_of_map_to_list). simpl. by rewrite (proj1 (Hk _ _ Hn)).
  - intros H. exists (tx_Nonce t, t). by rewrite elem_of_map_to_list.
Qed.

Lemma keyed_delete n items : keyed items -> keyed (delete n items).
Proof. intros Hk. by apply map_Forall_delete. Qed.

Lemma txs_of_delete n t items : items !! n = Some t -> t :: txs_of (delete n items) ≡ₚ txs_of items.
Proof. intros H. unfold txs_of. by rewrite <- (map_to_list_delete items n t H). Qed.

Lemma txs_of_insert n t items : items !! n = None -> txs_of (<[n := t]> items) ≡ₚ t :: txs_of items.
Proof. intros H. unfold txs_of. by rewrite (map_to_list_insert items n t H). Qed.

Lemma txs_of_nonces items : keyed items -> tx_Nonce <$> txs_of items = (map_to_list items).*1.
Proof.
  intros Hk. unfold txs_of. rewrite <- list_fmap_compose. apply list_fmap_ext. intros i [n t] Hi. simpl.
  apply list_elem_of_lookup_2, elem_of_map_to_list in Hi. apply (Hk _ _ Hi).
Qed.

Lemma sorted_txs_perm items : sorted_txs items ≡ₚ txs_of items.
Proof. apply merge_sort_Permutation. Qed.

Lemma sorted_txs_elem items t : keyed items -> t ∈ sorted_txs items <-> items !! tx_Nonce t = Some t.
Proof. intros Hk. by rewrite sorted_txs_perm, txs_of_elem. Qed.

Lemma sorted_txs_sorted items : StronglySorted by_nonce (sorted_txs items).
Proof. apply StronglySorted_merge_sort; apply _. Qed.

Lemma sorted_txs_length items : length (sorted_txs items) = size items.
Proof. rewrite sorted_txs_perm. unfold txs_of. by rewrite length_fmap, length_map_to_list. Qed.

Lemma sorted_unique items l : keyed items -> StronglySorted by_nonce l -> l ≡ₚ txs_of items -> l = sorted_txs items.
Proof.
  intros Hk Hl Hp. apply (StronglySorted_unique_strong by_nonce); [|done|apply sorted_txs_sorted|by rewrite sorted_txs_perm].
  intros t1 t2. rewrite Hp, sorted_txs_perm, !txs_of_elem by done. unfold by_nonce. intros H1 H2 ??.
  replace (tx_Nonce t2) with (tx_Nonce t1) in H2 by lia. congruence.
Qed.

(** The transaction with the smallest nonce comes first, the one with the
    greatest last. *)
Lemma sorted_cons n t items : keyed items -> items !! n = Some t -> (forall n', is_Some (items !! n') -> n <= n') ->
  sorted_txs items = t :: sorted_txs (delete n items).
Proof.
  intros Hk Ht Hmin. symmetry. apply sorted_unique; [done| |by rewrite sorted_txs_perm, txs_of_delete].
  apply StronglySorted_cons. split; [|apply sorted_txs_sorted].
  apply Forall_forall. intros t' Ht'. apply (sorted_txs_elem _ _ (keyed_delete n _ Hk)) in Ht'.
  apply lookup_delete_Some in Ht' as [_ Ht']. unfold by_nonce. rewrite (proj1 (Hk _ _ Ht)). apply Hmin. eauto.
Qed.

Lemma sorted_snoc n t items : keyed items -> items !! n = Some t -> (forall n', is_Some (items !! n') -> n' <= n) ->
  sorted_txs items = sorted_txs (delete n items) ++ [t].
Proof.
  intros Hk Ht Hmax. symmetry. apply sorted_unique; [done| |].
  - apply StronglySorted_app_2; [|apply sorted_txs_sorted|repeat constructor].
    intros x1 x2 H1 ->%list_elem_of_singleton. apply (sorted_txs_elem _ _ (keyed_delete n _ Hk)) in H1.
    apply lookup_delete_Some in H1 as [_ H1]. unfold by_nonce. rewrite (proj1 (Hk _ _ Ht)). apply Hmax. eauto.
  - rewrite Permutation_app_comm. simpl. by rewrite sorted_txs_perm, txs_of_delete.
Qed.

(** ** The invariant *)

Definition indexed items (index : list Z) : Prop :=
  keyed items /\ index ≡ₚ (map_to_list items).*1 /\ heap_ok Z.ltb index.
Definition cached items (c : option (list Transaction)) : Prop := forall l, c = Some l -> l = sorted_txs items.
Definition sm_ok m : Prop := indexed (sm_items m) (sm_index m) /\ cached (sm_items m) (sm_cache m).

Lemma index_elem items index n : indexed items index -> n ∈ index <-> is_Some (items !! n).
Proof.
  intros (_ & Hp & _). rewrite Hp, list_elem_of_fmap. split.
  - intros ([n' t] & -> & H%elem_of_map_to_list). eauto.
  - intros [t H]. exists (n, t). by rewrite elem_of_map_to_list.
Qed.

Lemma index_length items index : indexed items index -> length index = size items.
Proof. intros (_ & Hp & _). by rewrite Hp, length_fmap, length_map_to_list. Qed.

Lemma new_sm_ok : sm_ok NewSortedMap.
Proof. split; [|done]. split_and!; [apply map_Forall_empty|done|]. intros c Hc. simpl in Hc. lia. Qed.

(** The head of the index: the smallest nonce, and what popping it leaves. *)
Lemma index_pop items n index : indexed items (n :: index) -> exists t index',
  heap_Pop Z.ltb (n :: index) = Some (n, index') /\ items !! n = Some t /\ indexed (delete n items) index' /\
  sorted_txs items = t :: sorted_txs (delete n items) /\ length index' = length index.
Proof.
  intros Hi. pose proof Hi as (Hk & Hp & Hh). destruct (heap_Pop_spec Z.ltb n index Hh) as (index' & Hpop & Hh' & Hp').
  destruct (proj1 (index_elem _ _ n Hi)) as [t Ht]; [by left|]. exists t, index'. split_and!; try done.
  - split_and!; [by apply keyed_delete| |done]. rewrite Hp'. apply (Permutation_cons_inv (a := n)).
    rewrite Hp. by rewrite <- (map_to_list_delete _ _ _ Ht).
  - apply sorted_cons; [done..|]. intros n' Hn'. apply (index_elem _ _ _ Hi) in Hn'.
    apply (heap_min_elem Z.ltb _ _ _ Hh) in Hn'. by apply Z.ltb_ge in Hn'.
  - by rewrite Hp'.
Qed.

Lemma index_nil items : indexed items [] -> items = ∅.
Proof.
  intros (_ & Hp & _). apply map_to_list_empty_iff. apply Permutation_nil_l in Hp. symmetry in Hp. by apply fmap_nil_inv in Hp.
Qed.

Lemma indexed_le items n index n' : indexed items (n :: index) -> is_Some (items !! n') -> n <= n'.
Proof.
  intros Hi Hn'. apply (index_elem _ _ _ Hi) in Hn'. destruct Hi as (_ & _ & Hh).
  apply (heap_min_elem Z.ltb _ _ _ Hh) in Hn'. by apply Z.ltb_ge in Hn'.
Qed.

(** A map whose heap is rebuilt. *)
#[export] Instance List_filter_perm {A} (f : A -> bool) : Proper (Permutation ==> Permutation) (List.filter f).
Proof. induction 1; simpl; repeat case_match; econstructor; eauto. Qed.

Section facts.
Context {Mr : MapRange}.

Lemma reheap_ok m : keyed (sm_items m) -> sm_ok (sm_reheap m).
Proof.
  intros Hk. split; [|done]. destruct (heap_Init_spec Z.ltb (go_range (sm_items m)).*1) as [Hh Hp].
  split_and!; [done| |done]. simpl. by rewrite Hp, go_range_perm.
Qed.

Lemma flatten_ok m : sm_ok m -> let (c, m') := sm_flatten m in
  c = sorted_txs (sm_items m) /\ sm_ok m' /\ sm_items m' = sm_items m.
Proof.
  intros [Hi Hc]. unfold sm_flatten. destruct (sm_cache m) as [c|] eqn:Hcache.
  { split_and!; [by apply Hc|split; [done|by rewrite Hcache]|done]. }
  assert (merge_sort by_nonce (go_range (sm_items m)).*2 = sorted_txs (sm_items m)) as ->.
  { apply sorted_unique; [apply Hi|apply StronglySorted_merge_sort; apply _|].
    rewrite merge_sort_Permutation. unfold txs_of. by rewrite go_range_perm. }
  split_and!; [done|split; [done|by intros l [= <-]]|done].
Qed.

Lemma Put_ok t m : sm_ok m -> is_u64 (tx_Nonce t) -> sm_ok (sm_Put t m).
Proof.
  intros [(Hk & Hp & Hh) _] Ht. split; [|done]. simpl. destruct (sm_items m !! tx_Nonce t) as [t'|] eqn:Hget.
  - split_and!; [by apply map_Forall_insert_2| |done]. rewrite Hp.
    rewrite <- (map_to_list_delete (<[tx_Nonce t := t]> _) (tx_Nonce t) t) by apply lookup_insert_eq.
    rewrite <- (map_to_list_delete _ _ _ Hget), delete_insert_eq. done.
  - destruct (heap_Push_spec Z.ltb (tx_Nonce t) (sm_index m) Hh) as [Hh' Hp'].
    split_and!; [by apply map_Forall_insert_2| |done]. rewrite Hp', map_to_list_insert, Hp by done. done.
Qed.

Lemma Remove_ok n m : sm_ok m -> let (found, m') := sm_Remove n m in
  found = bool_decide (is_Some (sm_items m !! n)) /\ sm_items m' = delete n (sm_items m) /\ sm_ok m'.
Proof.
  intros [Hi Hc]. unfold sm_Remove. destruct (sm_items m !! n) as [t|] eqn:Hget.
  2: { split_and!; [by rewrite bool_decide_eq_false_2 by (intros [??]; done)|by rewrite delete_id|by split]. }
  split_and!; [by rewrite bool_decide_eq_true_2 by eauto|done|]. split; [|done]. cbn [sm_items sm_index].
  destruct (list_find _ _) as [[i n']|] eqn:Hf.
  2: { exfalso. apply list_find_None in Hf. rewrite Forall_forall in Hf.
       apply (Hf n); [|done]. apply (index_elem _ _ _ Hi). eauto. }
  apply list_find_Some in Hf as (Hn' & -> & _). pose proof Hi as (Hk & Hp & Hh).
  pose proof (heap_Remove_spec Z.ltb i (sm_index m) Hh (lookup_lt_Some _ _ _ Hn')) as Hr.
  destruct (heap_Remove Z.ltb i (sm_index m)) as [x l']. destruct Hr as (Hx & Hh' & Hperm).
  rewrite (list_lookup_total_correct _ _ _ Hn') in Hx. subst x. split_and!; [by apply keyed_delete| |done].
  apply (Permutation_cons_inv (a := n)). rewrite <- Hperm, Hp. by rewrite <- (map_to_list_delete _ _ _ Hget).
Qed.

(** ** The walks: the sorted content is cut *)

(** [Forward]: the transactions below the threshold, in order. *)
Lemma forward_loop_ok fuel threshold items index : length index = fuel -> indexed items index ->
  let '(removed, items', index') := forward_loop fuel threshold items index in
  exists l, removed = Some <$> l /\ sorted_txs items = l ++ sorted_txs items' /\ indexed items' index' /\
    Forall (fun t => tx_Nonce t < threshold) l /\ map_Forall (fun n _ => threshold <= n) items' /\ items' ⊆ items.
Proof.
  revert items index. induction fuel as [|fuel IH]; intros items index Hl Hi.
  { apply nil_length_inv in Hl as ->. simpl. exists []. rewrite (index_nil _ Hi) in *. by split_and!. }
  destruct index as [|n index]; [done|]. simpl in Hl.
  destruct (index_pop _ _ _ Hi) as (t & index' & Hpop & Ht & Hi' & Hs & Hl'). cbn [forward_loop]. rewrite Hpop. cbn [head default id].
  destruct (Z.ltb_spec n threshold) as [Hlt|Hge].
  - specialize (IH (delete n items) index' ltac:(lia) Hi').
    destruct (forward_loop fuel threshold (delete n items) index') as [[removed items'] index''].
    destruct IH as (l & -> & Hs' & Hi'' & Hf & Hm & Hsub). exists (t :: l). rewrite Ht, Hs, Hs'. split_and!; try done.
    + constructor; [|done]. destruct Hi as [Hk _]. by rewrite (proj1 (Hk _ _ Ht)).
    + etransitivity; [exact Hsub|apply delete_subseteq].
  - exists []. split_and!; try done. intros n' t' Hn'. pose proof (indexed_le _ _ _ n' Hi ltac:(eauto)). lia.
Qed.

Lemma Forward_ok threshold m : sm_ok m -> exists l m', sm_Forward threshold m = (Ok (Some <$> l), m') /\ sm_ok m' /\
  sorted_txs (sm_items m) = l ++ sorted_txs (sm_items m') /\ sm_items m' ⊆ sm_items m /\
  Forall (fun t => tx_Nonce t < threshold) l /\ map_Forall (fun n _ => threshold <= n) (sm_items m').
Proof.
  intros [Hi Hc]. unfold sm_Forward.
  pose proof (forward_loop_ok _ threshold _ _ eq_refl Hi) as Hloop.
  destruct (forward_loop _ _ _ _) as [[removed items'] index']. destruct Hloop as (l & -> & Hs & Hi' & Hf & Hm & Hsub).
  destruct (sm_cache m) as [c|] eqn:Hcache.
  - rewrite (Hc c eq_refl), length_fmap, Hs, length_app.
    rewrite (proj2 (Nat.leb_le _ _)) by lia. exists l, (MkSortedMap items' index' (Some (sorted_txs items'))).
    rewrite drop_app_length. split_and!; try done. split; [done|]. by intros l' [= <-].
  - exists l, (MkSortedMap items' index' None). by split_and!.
Qed.

(** [Ready]: the run of consecutive nonces from the first one. *)
Lemma ready_loop_ok fuel next items index : length index = fuel -> indexed items index ->
  map_Forall (fun n _ => next <= n) items -> is_u64 next ->
  let '(ready, items', index') := ready_loop fuel next items index in
  exists l, ready = Some <$> l /\ sorted_txs items = l ++ sorted_txs items' /\ indexed items' index' /\ items' ⊆ items /\
    tx_Nonce <$> l = seqZ next (Z.of_nat (length l)) /\ items' !! (next + Z.of_nat (length l)) = None.
Proof.
  revert next items index. induction fuel as [|fuel IH]; intros next items index Hl Hi Hmin Hu.
  { apply nil_length_inv in Hl as ->. simpl. exists []. rewrite (index_nil _ Hi) in *. by split_and!. }
  destruct index as [|n index]; [done|]. simpl in Hl.
  destruct (index_pop _ _ _ Hi) as (t & index' & Hpop & Ht & Hi' & Hs & Hl'). cbn [ready_loop]. rewrite Hpop. cbn [head default id].
  assert (tx_Nonce t = n /\ is_u64 n) as [Hn Hnu] by (destruct Hi as [Hk _]; apply (Hk _ _ Ht)).
  destruct (Z.eqb_spec n next) as [->|Hne].
  - assert (map_Forall (fun n _ => next + 1 <= n) (delete next items)) as Hmin'.
    { intros n' t' [Hne Hn']%lookup_delete_Some. specialize (Hmin _ _ Hn'). simpl in Hmin. lia. }
    destruct (decide (is_u64 (next + 1))) as [Hu1|Hu1].
    + rewrite (u64_small _ Hu1). specialize (IH (next + 1) (delete next items) index' ltac:(lia) Hi' Hmin' Hu1).
      destruct (ready_loop fuel (next + 1) (delete next items) index') as [[ready items'] index''].
      destruct IH as (l & -> & Hs' & Hi'' & Hsub & Hseq & Hnone). exists (t :: l). rewrite Ht, Hs, Hs'.
      split_and!; try done; [etransitivity; [exact Hsub|apply delete_subseteq]| |].
      * cbn [fmap list_fmap length]. rewrite Nat2Z.inj_succ, seqZ_cons by lia. by rewrite Hn, Hseq, Z.pred_succ.
      * rewrite <- Hnone. f_equal. simpl. lia.
    + assert (delete next items = ∅) as Hempty.
      { apply map_empty. intros n'. destruct (delete next items !! n') as [t'|] eqn:Hn'; [|done].
        pose proof (Hmin' _ _ Hn') as Hge. simpl in Hge. apply lookup_delete_Some in Hn' as [_ Hn'].
        destruct Hi as [Hk _]. destruct (Hk _ _ Hn') as [_ Hu']. unfold is_u64 in *. lia. }
      assert (index' = []) as ->. { apply nil_length_inv. by rewrite (index_length _ _ Hi'), Hempty. }
      destruct fuel as [|fuel]; simpl; rewrite Hempty in *; exists [t]; rewrite Ht, Hs; split_and!; try done;
        try (apply map_empty_subseteq); simpl; by rewrite Hn.
  - exists []. rewrite Z.add_0_r. split_and!; try done. destruct (items !! next) as [t'|] eqn:Hnext; [|done].
    pose proof (indexed_le _ _ _ next Hi ltac:(eauto)). specialize (Hmin _ _ Ht). simpl in Hmin. lia.
Qed.

Lemma Ready_ok start m : sm_ok m -> exists l m', sm_Ready start m = (Some <$> l, m') /\ sm_ok m' /\
  sorted_txs (sm_items m) = l ++ sorted_txs (sm_items m') /\ sm_items m' ⊆ sm_items m /\
  match sorted_txs (sm_items m) with
  | [] => l = []
  | t :: _ => if start <? tx_Nonce t then l = []
              else tx_Nonce <$> l = seqZ (tx_Nonce t) (Z.of_nat (length l)) /\
                   sm_items m' !! (tx_Nonce t + Z.of_nat (length l)) = None /\ l <> []
  end.
Proof.
  intros Hok. pose proof Hok as [Hi Hc]. unfold sm_Ready. destruct (sm_index m) as [|n index] eqn:Hidx; cbn [head].
  { exists [], m. rewrite (index_nil _ Hi). by split_and!. }
  destruct (index_pop _ _ _ Hi) as (t & index' & Hpop & Ht & Hi' & Hs & Hl').
  assert (tx_Nonce t = n /\ is_u64 n) as [Hn Hnu] by (destruct Hi as [Hk _]; apply (Hk _ _ Ht)).
  destruct (Z.ltb_spec start n) as [Hlt|Hge].
  { exists [], m. split_and!; try done. rewrite Hs, Hn. by rewrite (proj2 (Z.ltb_lt _ _) Hlt). }
  pose proof (ready_loop_ok (length (n :: index)) n _ _ eq_refl Hi) as Hloop.
  destruct (ready_loop _ _ _ _) as [[ready items'] index'']. destruct Hloop as (l & -> & Hs' & Hi'' & Hsub & Hseq & Hnone);
    [intros n' t' Hn'; by apply (indexed_le _ _ _ n' Hi ltac:(eauto))|done|].
  exists l, (MkSortedMap items' index'' None). split_and!; try done.
  rewrite Hs, Hn, (proj2 (Z.ltb_ge _ _) Hge). split_and!; try done.
  intros ->. simpl in *. rewrite Z.add_0_r in Hnone. assert (t ∈ sorted_txs items') as Hin by (rewrite <- Hs', Hs; by left).
  apply (sorted_txs_elem _ _ (proj1 Hi'')) in Hin. by rewrite Hn, Hnone in Hin.
Qed.

(** [Cap]: the greatest nonces are dropped, the last one first. *)
Lemma sorted_last items l t : keyed items -> sorted_txs items = l ++ [t] ->
  items !! tx_Nonce t = Some t /\ l = sorted_txs (delete (tx_Nonce t) items).
Proof.
  intros Hk Hs. assert (items !! tx_Nonce t = Some t) as Ht.
  { apply sorted_txs_elem; [done|]. rewrite Hs. apply elem_of_app. right. by left. }
  split; [done|]. rewrite (sorted_snoc _ _ _ Hk Ht) in Hs; [by apply app_inj_tail in Hs as [-> _]|].
  intros n' [t' Hn']. pose proof (sorted_txs_sorted items) as Hsort. rewrite Hs in Hsort.
  assert (t' ∈ l ++ [t]) as Hin by (rewrite <- Hs; apply sorted_txs_elem; [done|]; by rewrite (proj1 (Hk _ _ Hn'))).
  apply elem_of_app in Hin as [Hin| ->%list_elem_of_singleton]; [|by rewrite <- (proj1 (Hk _ _ Hn'))].
  rewrite <- (proj1 (Hk _ _ Hn')). change (by_nonce t' t).
  eapply StronglySorted_app_1_elem_of; [exact Hsort|done|by left].
Qed.

Lemma cap_loop_ok k ns items : keyed items -> tx_Nonce <$> sorted_txs items = take (size items) ns -> (k <= size items)%nat ->
  exists l items', cap_loop k ns (size items) items = Ok (Some <$> l, items') /\ length l = k /\
    sorted_txs items = sorted_txs items' ++ reverse l /\ items' ⊆ items /\ keyed items'.
Proof.
  revert items. induction k as [|k IH]; intros items Hk Hns Hle.
  { exists [], items. split_and!; try done. by rewrite app_nil_r. }
  destruct (sorted_txs items) as [|t l _] eqn:Hs using rev_ind.
  { pose proof (sorted_txs_length items) as Hl. rewrite Hs in Hl. simpl in Hl. lia. }
  destruct (sorted_last _ _ _ Hk Hs) as [Ht Hdel]. pose proof (sorted_txs_length items) as Hl.
  rewrite Hs, length_app in Hl. simpl in Hl. set (n := tx_Nonce t) in *.
  assert (size (delete n items) = size items - 1)%nat as Hsz by (rewrite map_size_delete_Some by eauto; lia).
  rewrite fmap_app in Hns. simpl in Hns. fold n in Hns.
  assert (ns !! (size items - 1)%nat = Some n) as Hn.
  { rewrite <- (lookup_take_lt ns (size items)), <- Hns by lia. rewrite lookup_app_r by (rewrite length_fmap; lia).
    rewrite length_fmap. by replace (_ - _)%nat with O by lia. }
  destruct (IH (delete n items)) as (l' & items' & Hloop & Hlen & Hs' & Hsub & Hk'); [by apply keyed_delete| |lia|].
  { rewrite <- Hdel, Hsz. apply (f_equal (take (size items - 1))) in Hns. rewrite take_take, Nat.min_l in Hns by lia.
    rewrite <- Hns, take_app_le by (rewrite length_fmap; lia). rewrite take_ge; [done|]. rewrite length_fmap. lia. }
  rewrite Hsz in Hloop. exists (t :: l'), items'. simpl. rewrite Hn, Hloop. simpl. rewrite Ht. split_and!; try done.
  - by rewrite Hlen.
  - rewrite reverse_cons, app_assoc. by rewrite <- Hs', <- Hdel.
  - etransitivity; [exact Hsub|apply delete_subseteq].
Qed.

Lemma sorted_index items index : indexed items index -> merge_sort Z.le index = tx_Nonce <$> sorted_txs items.
Proof.
  intros (Hk & Hp & _). apply (StronglySorted_unique Z.le).
  - apply StronglySorted_merge_sort; apply _.
  - apply (StronglySorted_fmap _ by_nonce); [done|apply sorted_txs_sorted].
  - by rewrite merge_sort_Permutation, Hp, sorted_txs_perm, txs_of_nonces.
Qed.

Lemma sorted_indexed items : keyed items -> indexed items (tx_Nonce <$> sorted_txs items).
Proof.
  intros Hk. split_and!; [done|by rewrite sorted_txs_perm, txs_of_nonces|]. apply sorted_heap. intros i j Hij.
  rewrite length_fmap in Hij. pose proof (sorted_txs_sorted items) as Hs. unfold ordered, le. apply Z.ltb_ge.
  rewrite !(list_lookup_total_fmap tx_Nonce (sorted_txs items)) by lia. rewrite <- (take_drop j (sorted_txs items)) in Hs.
  eapply (StronglySorted_app_1_elem_of _ _ _ (sorted_txs items !!! i) (sorted_txs items !!! j)) in Hs; [exact Hs| |].
  - apply list_elem_of_lookup. exists i. rewrite lookup_take_lt by lia. apply list_lookup_lookup_total_lt. lia.
  - apply list_elem_of_lookup. exists O. rewrite lookup_drop, Nat.add_0_r. apply list_lookup_lookup_total_lt. lia.
Qed.

Lemma Cap_ok threshold m : sm_ok m -> exists l m', sm_Cap threshold m = (Ok (Some <$> l), m') /\ sm_ok m' /\
  sorted_txs (sm_items m) = sorted_txs (sm_items m') ++ reverse l /\ sm_items m' ⊆ sm_items m /\
  sm_Len m' = Nat.min threshold (sm_Len m).
Proof.
  intros Hok. pose proof Hok as [Hi Hc]. unfold sm_Cap, sm_Len. set (sz := size (sm_items m)).
  destruct (Nat.leb_spec sz threshold) as [Hle|Hgt].
  { exists [], m. split_and!; try done; [by rewrite app_nil_r|]. fold sz. lia. }
  rewrite (sorted_index _ _ Hi).
  destruct (cap_loop_ok (sz - threshold) (tx_Nonce <$> sorted_txs (sm_items m)) (sm_items m)) as
    (l & items' & Hloop & Hlen & Hs & Hsub & Hk'); [apply Hi| |fold sz; lia|].
  { rewrite take_ge; [done|]. by rewrite length_fmap, sorted_txs_length. }
  fold sz in Hloop. rewrite Hloop. pose proof (sorted_txs_length (sm_items m)) as Hl. pose proof (sorted_txs_length items') as Hl'.
  assert (length (sorted_txs items') = threshold) as Hth by (rewrite Hs, length_app, length_reverse in Hl; fold sz in Hl; lia).
  assert (take threshold (tx_Nonce <$> sorted_txs (sm_items m)) = tx_Nonce <$> sorted_txs items') as Htake.
  { rewrite <- fmap_take, Hs, take_app_le by lia. by rewrite take_ge by lia. }
  rewrite Htake. pose proof (sorted_indexed _ Hk') as Hi'. destruct (sm_cache m) as [c|] eqn:Hcache.
  - rewrite (Hc c eq_refl), length_fmap, (proj2 (Nat.leb_le _ _)) by (fold sz in Hl; lia).
    exists l, (MkSortedMap items' (tx_Nonce <$> sorted_txs items') (Some (sorted_txs items'))). simpl. split_and!; try done.
    + do 3 f_equal. rewrite Hs. rewrite length_app, length_reverse, Nat.add_sub, take_app_le, take_ge by lia. done.
    + split; [done|]. by intros l' [= <-].
    + fold sz. lia.
  - exists l, (MkSortedMap items' (tx_Nonce <$> sorted_txs items') None). simpl. split_and!; try done. fold sz. lia.
Qed.

(** ** The filters: the content is divided *)

Definition drop_all (items : gmap Z Transaction) (hit : list (Z * Transaction)) : gmap Z Transaction :=
  foldl (fun it e => delete e.1 it) items hit.

Lemma drop_all_lookup items hit n t : drop_all items hit !! n = Some t <-> items !! n = Some t /\ n ∉ hit.*1.
Proof.
  revert items. induction hit as [|[n' t'] hit IH]; intros items; simpl; [set_solver|].
  rewrite (IH (delete n' items)), lookup_delete_Some. set_solver.
Qed.

Lemma drop_all_perm items hit : (forall e, e ∈ hit -> items !! e.1 = Some e.2) -> NoDup hit.*1 ->
  txs_of items ≡ₚ hit.*2 ++ txs_of (drop_all items hit).
Proof.
  revert items. induction hit as [|[n t] hit IH]; intros items He Hnd; simpl; [done|].
  apply NoDup_cons in Hnd as [Hn Hnd]. simpl in Hn. rewrite <- (IH (delete n items)); [|intros e He'|done].
  - rewrite txs_of_delete; [done|]. apply (He (n, t)). by left.
  - rewrite lookup_delete_ne; [apply He; by right|]. intros ->. apply Hn. by apply list_elem_of_fmap_2.
Qed.

Lemma drop_all_sub items hit : drop_all items hit ⊆ items.
Proof. apply map_subseteq_spec. intros n t Ht. by apply drop_all_lookup in Ht as [Ht _]. Qed.

Lemma keyed_sub items items' : items' ⊆ items -> keyed items -> keyed items'.
Proof. intros Hsub Hk n t Ht. apply Hk. by eapply lookup_weaken. Qed.

Lemma NoDup_fst_filter {A B} (P : A * B -> bool) l : NoDup l.*1 -> NoDup (List.filter P l).*1.
Proof.
  induction l as [|e l IH]; [done|]. intros [Hn Hnd]%NoDup_cons. simpl. destruct (P e); [|by apply IH].
  apply NoDup_cons. split; [|by apply IH]. intros Hin. apply Hn. apply list_elem_of_fmap in Hin as (e' & -> & He').
  apply list_elem_of_fmap_2. apply list_elem_of_In, filter_In in He' as [He' _]. by apply list_elem_of_In.
Qed.

Lemma filter_ok (f : Transaction -> bool) m : keyed (sm_items m) -> let (removed, m') := sm_filter f m in
  txs_of (sm_items m) ≡ₚ removed ++ txs_of (sm_items m') /\ sm_items m' ⊆ sm_items m /\
  Forall (fun t => f t = true) removed /\ map_Forall (fun _ t => f t = false) (sm_items m') /\ (removed = [] -> m' = m).
Proof.
  intros Hk. unfold sm_filter. set (hit := List.filter _ _).
  assert (forall n t, (n, t) ∈ hit <-> sm_items m !! n = Some t /\ f t = true) as Hhit.
  { intros n t. unfold hit. rewrite list_elem_of_In, filter_In, <- list_elem_of_In, go_range_elem. done. }
  fold (drop_all (sm_items m) hit). simpl. split_and!.
  - apply drop_all_perm; [by intros [n t] [Hn _]%Hhit|]. unfold hit.
    apply NoDup_fst_filter, go_range_NoDup.
  - apply drop_all_sub.
  - apply Forall_fmap, Forall_forall. intros [n t] [_ Hf]%Hhit. done.
  - intros n t [Ht Hn]%drop_all_lookup. destruct (f t) eqn:Hf; [|done]. exfalso. apply Hn.
    apply list_elem_of_fmap. exists (n, t). split; [done|]. by apply Hhit.
  - intros Hnil%fmap_nil_inv. rewrite Hnil. by destruct m.
Qed.
End facts.

Local Open Scope go_scope.

Section totals.
Context {Mr : MapRange} {Ge : TxLibs}.
Implicit Types (l : TxList) (txs : list Transaction).

Definition cost_sum txs : Z := foldr (fun t z => Cost t + z) 0 txs.

#[export] Instance cost_sum_perm : Proper (Permutation ==> eq) cost_sum.
Proof. intros l1 l2 Hp. unfold cost_sum. induction Hp; simpl; lia. Qed.

Lemma cost_sum_app txs txs' : cost_sum (txs ++ txs') = cost_sum txs + cost_sum txs'.
Proof. induction txs as [|t txs IH]; unfold cost_sum in *; simpl; lia. Qed.

(** The totals of a list whose content is [items]. *)
Record accounts_for items (total costcap gascap : Z) : Prop := {
  af_keyed : keyed items;
  af_total : total = cost_sum (txs_of items);
  af_bound : total < two256;
  af_caps : map_Forall (fun _ t => 0 <= Cost t <= costcap /\ tx_Gas t <= gascap) items;
}.
Definition tl_items l : gmap Z Transaction := sm_items (tl_txs l).
Definition tl_ok l : Prop := sm_ok (tl_txs l) /\ accounts_for (tl_items l) (tl_totalcost l) (tl_costcap l) (tl_gascap l).

Lemma cost_sum_nonneg txs : Forall (fun t => 0 <= Cost t) txs -> 0 <= cost_sum txs.
Proof. induction 1; unfold cost_sum in *; simpl in *; lia. Qed.

Lemma txs_of_costs items total c g : accounts_for items total c g -> Forall (fun t => 0 <= Cost t) (txs_of items).
Proof.
  intros [Hk _ _ Hc]. apply Forall_forall. intros t Ht%txs_of_elem; [|done]. specialize (Hc _ _ Ht). simpl in Hc. lia.
Qed.

Lemma FromBig_small z : 0 <= z < two256 -> uint256_FromBig z = (z, false).
Proof.
  intros H. unfold uint256_FromBig, u256w. rewrite Z.mod_small by lia. f_equal. apply Z.leb_gt. lia.
Qed.

Lemma subTotalCost_ok txs l : Forall (fun t => 0 <= Cost t) txs -> cost_sum txs <= tl_totalcost l < two256 ->
  subTotalCost (Some <$> txs) l = (Ok tt, tl_set_total (tl_totalcost l - cost_sum txs) l).
Proof.
  revert l. induction txs as [|t txs IH]; intros l Hnn Hle.
  { unfold cost_sum. simpl. rewrite Z.sub_0_r. by destruct l. }
  apply Forall_cons in Hnn as [Ht Hnn]. pose proof (cost_sum_nonneg _ Hnn) as Hs.
  assert (cost_sum (t :: txs) = Cost t + cost_sum txs) as Hsum by done. rewrite Hsum in *.
  rewrite fmap_cons. cbn [subTotalCost]. unfold mbind', subTotalCost1. rewrite FromBig_small by lia. rewrite (proj2 (Z.ltb_ge _ _)) by lia.
  unfold u256w. rewrite Z.mod_small by lia. rewrite IH; [|done|simpl; lia]. f_equal. unfold tl_set_total. simpl. f_equal. lia.
Qed.

(** Removing transactions and their costs. *)
Lemma shrink items items' removed total c g : accounts_for items total c g ->
  txs_of items ≡ₚ removed ++ txs_of items' -> items' ⊆ items ->
  Forall (fun t => 0 <= Cost t) removed /\ cost_sum removed <= total < two256 /\
  accounts_for items' (total - cost_sum removed) c g.
Proof.
  intros Ha Hp Hsub. pose proof (txs_of_costs _ _ _ _ Ha) as Hnn. rewrite Hp in Hnn. apply Forall_app in Hnn as [Hr Hi].
  destruct Ha as [Hk Ht Hb Hc]. rewrite Hp, cost_sum_app in Ht.
  pose proof (cost_sum_nonneg _ Hi). pose proof (cost_sum_nonneg _ Hr). split_and!; [done|lia|done|].
  split; [by eapply keyed_sub|lia|lia|intros n t Hn; apply (Hc n); by eapply lookup_weaken].
Qed.

Lemma shrink_run l m' removed : tl_ok l -> sm_ok m' -> txs_of (tl_items l) ≡ₚ removed ++ txs_of (sm_items m') ->
  sm_items m' ⊆ tl_items l -> exists l', subTotalCost (Some <$> removed) (tl_set_txs m' l) = (Ok tt, l') /\
    tl_ok l' /\ tl_txs l' = m'.
Proof.
  intros [_ Ha] Hm Hp Hsub. destruct (shrink _ _ _ _ _ _ Ha Hp Hsub) as (Hr & Hle & Ha').
  rewrite subTotalCost_ok by done. eexists. split; [done|]. split; [by split|done].
Qed.

Lemma mreads_run {S A} (f : S -> A) (s : S) : mreads f s = (Ok (f s), s).
Proof. done. Qed.

Lemma List_filter_nil {A} (f : A -> bool) (l : list A) : List.filter f l = [] <-> forall x, x ∈ l -> f x = false.
Proof.
  induction l as [|a l IH]; simpl; [split; [by intros _ x ?%not_elem_of_nil|done]|]. destruct (f a) eqn:Hf; split.
  - done.
  - intros H. rewrite H in Hf by (by left). done.
  - intros H x [->|Hx]%elem_of_cons; [done|]. by apply IH.
  - intros H. apply IH. intros x Hx. apply H. by right.
Qed.

(** ** The operations *)

Lemma new_list_ok strict : tl_ok (newList strict).
Proof. split; [apply new_sm_ok|]. split; try done; apply map_Forall_empty. Qed.

(** The content in nonce order. *)
Definition content l : list Transaction := sorted_txs (tl_items l).

Lemma content_perm l : content l ≡ₚ txs_of (tl_items l).
Proof. apply sorted_txs_perm. Qed.

Lemma tl_Forward_ok threshold l : tl_ok l -> exists removed l', tl_Forward threshold l = (Ok (Some <$> removed), l') /\
  tl_ok l' /\ content l = removed ++ content l' /\
  Forall (fun t => tx_Nonce t < threshold) removed /\ Forall (fun t => threshold <= tx_Nonce t) (content l').
Proof.
  intros Hok. destruct (Forward_ok threshold (tl_txs l) (proj1 Hok)) as (removed & m' & Hrun & Hm & Hs & Hsub & Hf & Hge).
  destruct (shrink_run l m' removed) as (l' & Hsubt & Hl' & Htx); [done|done| |done|].
  { unfold tl_items. rewrite <- sorted_txs_perm, Hs, sorted_txs_perm. done. }
  exists removed, l'. unfold tl_Forward, on_txs, mbind'. rewrite Hrun, Hsubt. split_and!; [done|done| |done|].
  - unfold content, tl_items. by rewrite Htx.
  - apply Forall_forall. intros t Ht. unfold content, tl_items in Ht. rewrite Htx in Ht.
    apply sorted_txs_elem in Ht; [|apply Hm]. by apply (Hge _ _ Ht).
Qed.

Lemma tl_Ready_ok start l : tl_ok l -> exists ready l', tl_Ready start l = (Ok (Some <$> ready), l') /\
  tl_ok l' /\ content l = ready ++ content l' /\
  match content l with
  | [] => ready = []
  | t :: _ => if start <? tx_Nonce t then ready = []
              else ready <> [] /\ tx_Nonce <$> ready = seqZ (tx_Nonce t) (Z.of_nat (length ready)) /\
                   Forall (fun t' => tx_Nonce t' <> tx_Nonce t + Z.of_nat (length ready)) (content l')
  end.
Proof.
  intros Hok. destruct (Ready_ok start (tl_txs l) (proj1 Hok)) as (ready & m' & Hrun & Hm & Hs & Hsub & Hcase).
  destruct (shrink_run l m' ready) as (l' & Hsubt & Hl' & Htx); [done|done| |done|].
  { unfold tl_items. rewrite <- sorted_txs_perm, Hs, sorted_txs_perm. done. }
  exists ready, l'. unfold tl_Ready, on_txs, sm_pure, mbind'. rewrite Hrun, Hsubt. split_and!; [done|done| |].
  - unfold content, tl_items. by rewrite Htx.
  - unfold content, tl_items. rewrite Htx. destruct (sorted_txs (sm_items (tl_txs l))) as [|t rest]; [done|].
    destruct (start <? tx_Nonce t); [done|]. destruct Hcase as (Hseq & Hnone & Hne). split_and!; [done|done|].
    apply Forall_forall. intros t' Ht' Heq. apply sorted_txs_elem in Ht'; [|apply Hm]. by rewrite Heq, Hnone in Ht'.
Qed.

Lemma tl_Cap_ok threshold l : tl_ok l -> exists dropped l', tl_Cap threshold l = (Ok (Some <$> dropped), l') /\
  tl_ok l' /\ content l = content l' ++ reverse dropped /\ tl_Len l' = Nat.min threshold (tl_Len l).
Proof.
  intros Hok. destruct (Cap_ok threshold (tl_txs l) (proj1 Hok)) as (dropped & m' & Hrun & Hm & Hs & Hsub & Hlen).
  destruct (shrink_run l m' dropped) as (l' & Hsubt & Hl' & Htx); [done|done| |done|].
  { unfold tl_items. rewrite <- sorted_txs_perm, Hs, sorted_txs_perm. by rewrite Permutation_app_comm, reverse_Permutation. }
  exists dropped, l'. unfold tl_Cap, on_txs, mbind'. rewrite Hrun, Hsubt. split_and!; [done|done| |].
  - unfold content, tl_items. by rewrite Htx.
  - unfold tl_Len. by rewrite Htx.
Qed.

Lemma tl_Flatten_ok l : tl_ok l -> exists l', tl_Flatten l = (Ok (content l), l') /\ tl_ok l' /\ content l' = content l.
Proof.
  intros [Hm Ha]. unfold tl_Flatten, on_txs, sm_pure. pose proof (flatten_ok _ Hm) as Hf.
  destruct (sm_flatten (tl_txs l)) as [c m']. destruct Hf as (-> & Hm' & Hit).
  eexists. split; [done|]. unfold tl_ok, content, tl_items in *. simpl. by rewrite Hit.
Qed.

Lemma tl_Add_ok tx bump l : tl_ok l -> is_u64 (tx_Nonce tx) -> 0 <= Cost tx -> tl_totalcost l + Cost tx < two256 ->
  exists ok old l', tl_Add tx bump l = (Ok (ok, old), l') /\ tl_ok l' /\
    if ok then tl_items l' = <[tx_Nonce tx := tx]> (tl_items l) /\ old = tl_items l !! tx_Nonce tx /\
               (forall o, old = Some o -> underbids bump o tx = false)
    else l' = l.
Proof.
  intros Hok Hu Hc Hb. pose proof Hok as [Hm Ha]. unfold tl_Add, sm_Get.
  pose proof (txs_of_costs _ _ _ _ Ha) as Hnn. pose proof (cost_sum_nonneg _ Hnn) as H0. rewrite <- (af_total _ _ _ _ Ha) in H0.
  set (items := sm_items (tl_txs l)) in *. change (tl_items l) with items in *.
  assert (forall l1 o, tl_txs l1 = tl_txs l -> tl_costcap l1 = tl_costcap l -> tl_gascap l1 = tl_gascap l ->
    0 <= tl_totalcost l1 <= tl_totalcost l -> tl_totalcost l1 = cost_sum (txs_of (delete (tx_Nonce tx) items)) ->
    items !! tx_Nonce tx = o -> (forall o', o = Some o' -> underbids bump o' tx = false) ->
    exists ok old l', (let (cost, overflow) := uint256_FromBig (Cost tx) in
      if overflow then mret (false, None) else
      do! mmodify (fun l => MkTxList (tl_strict l) (sm_Put tx (tl_txs l)) (Z.max (tl_costcap l) cost)
                           (Z.max (tl_gascap l) (tx_Gas tx)) (u256w (tl_totalcost l + cost)));
      mret (true, o)) l1 = (Ok (ok, old), l') /\ tl_ok l' /\
      if (ok : bool) then tl_items l' = <[tx_Nonce tx := tx]> items /\ old = items !! tx_Nonce tx /\
               (forall o, old = Some o -> underbids bump o tx = false)
      else l' = l) as Hput.
  { intros l1 o Htx Hcc Hgc Hle Htot Ho Hbid. rewrite FromBig_small by lia. exists true, o. eexists. split; [done|].
    unfold u256w. rewrite Z.mod_small by lia. split; [|by rewrite Htx].
    split; [rewrite Htx; by apply Put_ok|]. rewrite Htx, Hcc, Hgc. unfold tl_items. cbn [tl_txs tl_totalcost tl_costcap tl_gascap].
    change (sm_items (sm_Put tx (tl_txs l))) with (<[tx_Nonce tx := tx]> items).
    assert (txs_of (<[tx_Nonce tx := tx]> items) ≡ₚ tx :: txs_of (delete (tx_Nonce tx) items)) as Hperm.
    { rewrite <- insert_delete_eq. apply txs_of_insert, lookup_delete_eq. }
    destruct Ha as [Hk _ _ Hcaps]. split; [by apply map_Forall_insert_2| |lia|].
    - rewrite Hperm. unfold cost_sum in *. simpl. lia.
    - intros n t [[<- <-]|[Hne Hn]]%lookup_insert_Some; [lia|]. specialize (Hcaps _ _ Hn). simpl in Hcaps. lia. }
  destruct (items !! tx_Nonce tx) as [o|] eqn:Ho.
  - destruct (underbids bump o tx) eqn:Hbid; [by exists false, None, l|].
    pose proof (txs_of_delete _ _ _ Ho) as Hperm. destruct (shrink items (delete (tx_Nonce tx) items) [o] _ _ _ Ha) as (Hr & Hle & Ha');
      [by rewrite <- Hperm|apply delete_subseteq|]. unfold mbind'. change [Some o] with (Some <$> [o]).
    rewrite subTotalCost_ok by done. assert (0 <= cost_sum [o]) by (by apply cost_sum_nonneg).
    apply Hput; try done; [cbn [tl_totalcost tl_set_total]; lia|apply Ha'|by intros o' [= <-]].
  - apply Hput; try done; try lia. rewrite delete_id by done. apply Ha.
Qed.

Lemma tl_set_txs_id l : tl_set_txs (tl_txs l) l = l.
Proof. by destruct l. Qed.

Lemma lowest_le removed t : t ∈ removed -> foldr Z.min MaxUint64 (tx_Nonce <$> removed) <= tx_Nonce t.
Proof.
  induction removed as [|r removed IH]; [by intros ?%not_elem_of_nil|].
  intros [->|H]%elem_of_cons; rewrite fmap_cons; cbn [foldr]; [lia|]. specialize (IH H). lia.
Qed.

Lemma after_filter_ok items0 c g removed l : removed <> [] -> accounts_for items0 (tl_totalcost l) c g ->
  txs_of items0 ≡ₚ removed ++ txs_of (tl_items l) -> tl_items l ⊆ items0 ->
  exists invalids l', after_filter removed l = (Ok (removed, invalids), l') /\ sm_ok (tl_txs l') /\
    accounts_for (tl_items l') (tl_totalcost l') c g /\ txs_of (tl_items l) ≡ₚ invalids ++ txs_of (tl_items l') /\
    tl_items l' ⊆ tl_items l /\ tl_costcap l' = tl_costcap l /\ tl_gascap l' = tl_gascap l /\
    if tl_strict l then forall t r, t ∈ txs_of (tl_items l') -> r ∈ removed -> tx_Nonce t <= tx_Nonce r else invalids = [].
Proof.
  intros Hne Ha Hp Hsub. destruct (shrink _ _ _ _ _ _ Ha Hp Hsub) as (Hr & Hle & Ha').
  assert (exists invalids m', (if tl_strict l then filterInvalids removed else mret []) l = (Ok invalids, tl_set_txs m' l) /\
    txs_of (tl_items l) ≡ₚ invalids ++ txs_of (sm_items m') /\ sm_items m' ⊆ tl_items l /\
    if tl_strict l then forall t r, t ∈ txs_of (sm_items m') -> r ∈ removed -> tx_Nonce t <= tx_Nonce r else invalids = [])
    as (invalids & m' & Hinv & Hp' & Hsub' & Hstrict).
  { destruct (tl_strict l); [|exists [], (tl_txs l); by destruct l].
    unfold filterInvalids, on_txs, sm_pure. set (low := foldr _ _ _).
    pose proof (filter_ok (fun tx => low <? tx_Nonce tx) (tl_txs l) (af_keyed _ _ _ _ Ha')) as Hf.
    destruct (sm_filter _ _) as [invalids m']. destruct Hf as (Hp' & Hsub' & _ & Hlow & _).
    exists invalids, m'. split_and!; try done. intros t r Ht Hr'.
    apply txs_of_elem in Ht; [|eapply keyed_sub; [exact Hsub'|apply Ha']]. specialize (Hlow _ _ Ht). simpl in Hlow.
    zify_bool. pose proof (lowest_le _ _ Hr'). fold low in H. lia. }
  destruct (shrink _ _ _ _ _ _ Ha' Hp' Hsub') as (Hr2 & Hle2 & Ha2).
  exists invalids. unfold after_filter. destruct removed as [|r0 removed0]; [done|].
  unfold mbind'. rewrite mreads_run, Hinv. rewrite subTotalCost_ok by done. rewrite subTotalCost_ok by done. simpl.
  eexists. split; [done|]. split_and!; try done. apply reheap_ok. apply Ha2.
Qed.

Lemma tl_Filter_ok (f : Transaction -> bool) c g l : sm_ok (tl_txs l) -> accounts_for (tl_items l) (tl_totalcost l) c g ->
  exists removed invalids l', tl_Filter f l = (Ok (removed, invalids), l') /\ sm_ok (tl_txs l') /\
    accounts_for (tl_items l') (tl_totalcost l') c g /\ txs_of (tl_items l) ≡ₚ removed ++ invalids ++ txs_of (tl_items l') /\
    tl_items l' ⊆ tl_items l /\ tl_costcap l' = tl_costcap l /\ tl_gascap l' = tl_gascap l /\
    removed ≡ₚ List.filter f (txs_of (tl_items l)) /\
    if tl_strict l then forall t r, t ∈ txs_of (tl_items l') -> r ∈ removed -> tx_Nonce t <= tx_Nonce r else invalids = [].
Proof.
  intros Hm Ha. pose proof (filter_ok f (tl_txs l) (af_keyed _ _ _ _ Ha)) as Hf.
  unfold tl_Filter, on_txs, sm_pure, sm_Filter, mbind'.
  destruct (sm_filter f (tl_txs l)) as [removed m']. destruct Hf as (Hp & Hsub & Hall & Hnone & Hnil).
  assert (removed ≡ₚ List.filter f (txs_of (tl_items l))) as Hrem.
  { unfold tl_items. rewrite Hp, List.filter_app. rewrite (forallb_filter_id f removed).
    - rewrite (proj2 (List_filter_nil _ _)); [by rewrite app_nil_r|].
      intros t Ht. apply txs_of_elem in Ht; [by apply (Hnone _ _ Ht)|eapply keyed_sub; [exact Hsub|apply Ha]].
    - apply forallb_forall. intros t Ht%list_elem_of_In. rewrite Forall_forall in Hall. by apply Hall. }
  destruct (decide (removed = [])) as [->|Hne].
  { rewrite (Hnil eq_refl), tl_set_txs_id. exists [], [], l. split_and!; try done.
    destruct (tl_strict l); [|done]. by intros ?? _ ?%not_elem_of_nil. }
  set (m2 := match removed with [] => m' | _ => sm_reheap m' end).
  assert (sm_items m2 = sm_items m') as Hm2 by (unfold m2; by destruct removed).
  destruct (after_filter_ok (tl_items l) c g removed (tl_set_txs m2 l)) as
    (invalids & l' & Hrun & Hm' & Ha' & Hp' & Hsub' & Hcc & Hgc & Hstrict); try done;
    [unfold tl_items; simpl; by rewrite Hm2..|]. unfold tl_items in Hp', Hsub'. simpl in Hp', Hsub'. rewrite Hm2 in Hp', Hsub'.
  exists removed, invalids, l'. rewrite Hrun. split_and!; try done.
  - unfold tl_items. by rewrite Hp, Hp'.
  - etransitivity; [exact Hsub'|exact Hsub].
Qed.

Lemma filter_state_sub {T} (f : Transaction -> T -> bool * T) txs (x : T) : (filter_state f txs x).1 `sublist_of` txs.
Proof.
  revert x. induction txs as [|t txs IH]; intros x; [done|]. simpl. destruct (f t x) as [hit x1]. specialize (IH x1).
  destruct (filter_state f txs x1) as [rest x2]. simpl in *. destruct hit; by constructor.
Qed.

Lemma tl_FilterSorted_ok {T} (f : Transaction -> T -> bool * T) (x : T) l : tl_ok l ->
  exists removed invalids l', tl_FilterSorted f x l = (Ok (removed, invalids, (filter_state f (content l) x).2), l') /\ tl_ok l' /\
    removed = (filter_state f (content l) x).1 /\ content l ≡ₚ removed ++ invalids ++ content l'.
Proof.
  intros [Hm Ha]. unfold tl_FilterSorted, on_txs, sm_pure, sm_filterSorted, mbind'.
  pose proof (flatten_ok _ Hm) as Hf. destruct (sm_flatten (tl_txs l)) as [c m']. destruct Hf as (-> & Hm' & Hit).
  fold (tl_items l). fold (content l). pose proof (filter_state_sub f (content l) x) as Hsub.
  destruct (filter_state f (content l) x) as [removed x'] eqn:Hfs. simpl in Hsub. cbn [fst snd].
  set (items' := foldl _ _ removed).
  assert (items' = drop_all (tl_items l) ((fun t => (tx_Nonce t, t)) <$> removed)) as Hitems.
  { unfold items', drop_all, tl_items. rewrite Hit. generalize (sm_items (tl_txs l)). clear.
    induction removed as [|t removed IH]; intros items; [done|]. rewrite fmap_cons. simpl. apply IH. }
  assert (txs_of (tl_items l) ≡ₚ removed ++ txs_of items') as Hp.
  { rewrite Hitems. rewrite (drop_all_perm (tl_items l) ((fun t => (tx_Nonce t, t)) <$> removed)).
    - rewrite <- list_fmap_compose. by rewrite (list_fmap_id removed : (snd ∘ (fun t => (tx_Nonce t, t))) <$> removed = removed).
    - intros e (t & -> & Ht)%list_elem_of_fmap. simpl. apply sorted_txs_elem; [apply Ha|].
      eapply elem_of_sublist; [exact Ht|exact Hsub].
    - rewrite <- list_fmap_compose. change (NoDup (tx_Nonce <$> removed)). eapply (sublist_NoDup _ (tx_Nonce <$> content l)).
      + rewrite content_perm, txs_of_nonces by apply Ha. apply NoDup_fst_map_to_list.
      + by apply fmap_sublist. }
  assert (items' ⊆ tl_items l) as Hsub' by (rewrite Hitems; apply drop_all_sub).
  destruct (decide (removed = [])) as [->|Hne].
  { change items' with (sm_items m'). exists [], [], (tl_set_txs m' l). split_and!; [by destruct m'| |done|].
    - unfold tl_ok, tl_items. simpl. by rewrite Hit.
    - unfold content, tl_items. simpl. by rewrite Hit. }
  set (m2 := MkSortedMap _ _ _).
  destruct (after_filter_ok (tl_items l) (tl_costcap l) (tl_gascap l) removed (tl_set_txs m2 l)) as
    (invalids & l' & Hrun & Hm2 & Ha' & Hp' & _ & Hcc & Hgc & _); try done.
  exists removed, invalids, l'. rewrite Hrun. split_and!; try done.
  - split; [done|]. by rewrite Hcc, Hgc.
  - rewrite !content_perm, Hp. by rewrite <- Hp'.
Qed.

Lemma tl_CostFilter_ok costLimit gasLimit l : tl_ok l ->
  exists removed invalids l', tl_CostFilter costLimit gasLimit l = (Ok (removed, invalids), l') /\ tl_ok l' /\
    removed ≡ₚ List.filter (over_limits costLimit gasLimit) (content l) /\
    content l ≡ₚ removed ++ invalids ++ content l' /\
    (if tl_strict l then forall t r, t ∈ content l' -> r ∈ removed -> tx_Nonce t <= tx_Nonce r else invalids = []).
Proof.
  intros [Hm Ha]. unfold tl_CostFilter.
  destruct ((tl_costcap l <=? costLimit) && (tl_gascap l <=? gasLimit)) eqn:Hcap.
  - exists [], [], l. split_and!; try done.
    + rewrite (proj2 (List_filter_nil _ _)); [done|]. intros t Ht. apply andb_true_iff in Hcap as [Hc Hg]. zify_bool.
      apply sorted_txs_elem in Ht; [|apply Ha]. pose proof (af_caps _ _ _ _ Ha _ _ Ht) as Hb. simpl in Hb.
      unfold over_limits. apply orb_false_iff. rewrite !Z.ltb_ge. lia.
    + destruct (tl_strict l); [|done]. by intros ?? _ ?%not_elem_of_nil.
  - set (l1 := MkTxList _ _ _ _ _).
    destruct (tl_Filter_ok (over_limits costLimit gasLimit) (tl_costcap l) (tl_gascap l) l1) as
      (removed & invalids & l' & Hrun & Hm' & Ha' & Hp & Hsub & Hcc & Hgc & Hrem & Hstrict); [done|done|].
    exists removed, invalids, l'. split_and!; try done.
    + split; [done|]. rewrite Hcc, Hgc. destruct Ha' as [Hk Ht Hb Hcaps]. split; try done.
      intros n t Hn. assert (t ∈ txs_of (tl_items l')) as Hin.
      { apply txs_of_elem; [done|]. by rewrite (proj1 (Hk _ _ Hn)). }
      specialize (Hcaps _ _ Hn). simpl in Hcaps. assert (over_limits costLimit gasLimit t = false) as Hover.
      { destruct (over_limits costLimit gasLimit t) eqn:Hov; [|done]. exfalso.
        assert (t ∈ removed) as Hr. { rewrite Hrem. apply list_elem_of_In, filter_In. split; [|done]. apply list_elem_of_In.
          rewrite Hp, !elem_of_app. auto. }
        assert (NoDup (txs_of (tl_items l1))) as Hnd.
        { apply (NoDup_fmap_1 tx_Nonce). rewrite txs_of_nonces by apply Ha. apply NoDup_fst_map_to_list. }
        rewrite Hp in Hnd. apply NoDup_app in Hnd as (_ & Hdis & _). apply (Hdis t Hr). apply elem_of_app. auto. }
      unfold over_limits in Hover. apply orb_false_iff in Hover as [Hg Hc]. zify_bool. simpl. lia.
    + by rewrite content_perm.
    + by rewrite !content_perm.
    + destruct (tl_strict l) eqn:Hs; rewrite Hs in Hstrict || simpl in Hstrict; [|done].
      intros t r Ht. rewrite content_perm in Ht. by apply Hstrict.
Qed.

Lemma tl_Remove_ok tx l : tl_ok l -> (forall t, tl_items l !! tx_Nonce tx = Some t -> Cost t = Cost tx) ->
  exists found txs l', tl_Remove tx l = (Ok (found, txs), l') /\ tl_ok l' /\
    found = bool_decide (is_Some (tl_items l !! tx_Nonce tx)).
Proof.
  intros [Hm Ha] Hcost. unfold tl_Remove, on_txs, sm_pure, mbind'.
  pose proof (Remove_ok (tx_Nonce tx) (tl_txs l) Hm) as Hr. destruct (sm_Remove _ _) as [found m'].
  destruct Hr as (-> & Hit & Hm'). fold (tl_items l) in *. destruct (tl_items l !! tx_Nonce tx) as [t|] eqn:Hget.
  2: { rewrite bool_decide_eq_false_2 by (intros [??]; done). simpl. exists false, []. eexists. split; [done|].
       split; [|done]. split; [done|]. unfold tl_items in *. simpl. by rewrite Hit, delete_id. }
  rewrite bool_decide_eq_true_2 by eauto. cbn [negb].
  destruct (shrink (tl_items l) (sm_items m') [t] _ _ _ Ha) as (Hnn & Hle & Ha');
    [rewrite Hit; by rewrite <- (txs_of_delete _ _ _ Hget)|rewrite Hit; apply delete_subseteq|].
  assert (cost_sum [t] = cost_sum [tx]) as Hsum by (unfold cost_sum; simpl; by rewrite (Hcost t)).
  rewrite Hsum in *. assert (Forall (fun t => 0 <= Cost t) [tx]) as Hnn'.
  { apply Forall_singleton. rewrite (Forall_singleton _ t) in Hnn. by rewrite <- (Hcost t). }
  change [Some tx] with (Some <$> [tx]). rewrite subTotalCost_ok by done. rewrite mreads_run. cbn [tl_strict tl_set_total tl_set_txs].
  set (l1 := tl_set_total _ _). destruct (tl_strict l).
  2: { exists true, [], l1. by split_and!. }
  pose proof (filter_ok (fun t => tx_Nonce tx <? tx_Nonce t) (tl_txs l1) (af_keyed _ _ _ _ Ha')) as Hf.
  unfold sm_Filter. destruct (sm_filter _ _) as [removed m2]. destruct Hf as (Hp & Hsub & _ & _ & Hnil).
  set (m3 := match removed with [] => m2 | _ => sm_reheap m2 end).
  assert (sm_items m3 = sm_items m2) as Hm3 by (unfold m3; by destruct removed).
  destruct (shrink_run l1 m3 removed) as (l' & Hrun & Hl' & _); [by split| | | |].
  - unfold m3. destruct removed; [by rewrite (Hnil eq_refl)|]. apply reheap_ok. eapply keyed_sub; [exact Hsub|apply Ha'].
  - by rewrite Hm3.
  - by rewrite Hm3.
  - exists true, removed, l'. unfold mbind'. by rewrite Hrun.
Qed.

(** ** Every operation *)

Inductive tl_op :=
| OpAdd (tx : Transaction) (priceBump : Z)
| OpForward (threshold : Z)
| OpFilter (f : Transaction -> bool)
| OpFilterSorted (f : Transaction -> Z -> bool * Z) (x : Z)
| OpCostFilter (costLimit gasLimit : Z)
| OpCap (threshold : nat)
| OpRemove (tx : Transaction)
| OpReady (start : Z)
| OpFlatten.

Definition done_with {A} (m : M TxList A) : M TxList unit := do! m; mret tt.
Definition tl_exec (op : tl_op) : M TxList unit :=
  match op with
  | OpAdd tx bump => done_with (tl_Add tx bump)
  | OpForward n => done_with (tl_Forward n)
  | OpFilter f => done_with (tl_Filter f)
  | OpFilterSorted f x => done_with (tl_FilterSorted f x)
  | OpCostFilter c g => done_with (tl_CostFilter c g)
  | OpCap n => done_with (tl_Cap n)
  | OpRemove tx => done_with (tl_Remove tx)
  | OpReady n => done_with (tl_Ready n)
  | OpFlatten => done_with tl_Flatten
  end.

(** What the list does not check itself: the costs of the transactions held and
    of the added one fit 256 bits together, and a transaction is removed with the
    cost it was added with. *)
Definition costs_fit (op : tl_op) l : Prop :=
  match op with
  | OpAdd tx _ => is_u64 (tx_Nonce tx) /\ 0 <= Cost tx /\ cost_sum (content l) + Cost tx < two256
  | OpRemove tx => forall t, t ∈ content l -> tx_Nonce t = tx_Nonce tx -> Cost t = Cost tx
  | _ => True
  end.

Fixpoint tl_run (ops : list tl_op) l : TxList :=
  match ops with
  | [] => l
  | op :: ops' => tl_run ops' (tl_exec op l).2
  end.
(** Every operation of the run meets [costs_fit] where it is run. *)
Fixpoint run_costs_fit (ops : list tl_op) l : Prop :=
  match ops with
  | [] => True
  | op :: ops' => costs_fit op l /\ run_costs_fit ops' (tl_exec op l).2
  end.

Lemma done_with_run {A} (m : M TxList A) l x l' : m l = (Ok x, l') -> done_with m l = (Ok tt, l').
Proof. intros H. unfold done_with, mbind'. by rewrite H. Qed.

Lemma tl_exec_ok op l : tl_ok l -> costs_fit op l -> exists l', tl_exec op l = (Ok tt, l') /\ tl_ok l'.
Proof.
  intros Hok Hal. pose proof Hok as [Hm Ha]. destruct op; simpl in *.
  - destruct Hal as (Hu & Hc & Hb). rewrite content_perm, <- (af_total _ _ _ _ Ha) in Hb.
    destruct (tl_Add_ok tx priceBump l) as (? & ? & l' & Hrun & Hl' & _); eauto using done_with_run.
  - destruct (tl_Forward_ok threshold l) as (? & l' & Hrun & Hl' & _); eauto using done_with_run.
  - destruct (tl_Filter_ok f _ _ l Hm Ha) as (? & ? & l' & Hrun & Hm' & Ha' & _ & _ & Hcc & Hgc & _).
    exists l'. split; [by eapply done_with_run|]. split; [done|]. by rewrite Hcc, Hgc.
  - destruct (tl_FilterSorted_ok f x l) as (? & ? & l' & Hrun & Hl' & _); eauto using done_with_run.
  - destruct (tl_CostFilter_ok costLimit gasLimit l) as (? & ? & l' & Hrun & Hl' & _); eauto using done_with_run.
  - destruct (tl_Cap_ok threshold l) as (? & l' & Hrun & Hl' & _); eauto using done_with_run.
  - destruct (tl_Remove_ok tx l) as (? & ? & l' & Hrun & Hl' & _); eauto using done_with_run.
    intros t Ht. assert (tx_Nonce t = tx_Nonce tx) as Hn by apply (af_keyed _ _ _ _ Ha _ _ Ht).
    apply Hal; [|done]. apply sorted_txs_elem; [apply Ha|]. by rewrite Hn.
  - destruct (tl_Ready_ok start l) as (? & l' & Hrun & Hl' & _); eauto using done_with_run.
  - destruct (tl_Flatten_ok l) as (l' & Hrun & Hl' & _); eauto using done_with_run.
Qed.

Lemma tl_run_ok strict ops : run_costs_fit ops (newList strict) -> tl_ok (tl_run ops (newList strict)).
Proof.
  generalize (newList strict) (new_list_ok strict). induction ops as [|op ops IH]; intros l Hok; [done|].
  intros [Hfit Hrest]. destruct (tl_exec_ok op l Hok Hfit) as (l' & Hrun & Hl'). cbn [tl_run]. rewrite Hrun in *. by apply IH.
Qed.

(** C26: along any run of operations on the list of an account in which the costs
    of the transactions held and added stay below 2^256 and a transaction is
    removed with the cost it was added with ([run_costs_fit]), the bookkeeping is
    exact and nothing panics: the running total is the sum of the costs of the
    transactions held, the caps bound every one of them, each is stored under
    its nonce, the heap holds exactly those nonces in heap order, and every
    further operation of this kind returns. [add_overflow_breaks_total] is a run
    without the first condition. *)
Theorem tx_list_invariant strict ops : run_costs_fit ops (newList strict) ->
  let l := tl_run ops (newList strict) in
  tl_totalcost l = cost_sum (content l) /\
  Forall (fun t => 0 <= Cost t <= tl_costcap l /\ tx_Gas t <= tl_gascap l /\ tl_Contains (tx_Nonce t) l = true) (content l) /\
  sm_index (tl_txs l) ≡ₚ tx_Nonce <$> content l /\ heap_ok Z.ltb (sm_index (tl_txs l)) /\
  forall op, costs_fit op l -> exists l', tl_exec op l = (Ok tt, l').
Proof.
  intros Hok%tl_run_ok l. fold l in Hok. pose proof Hok as [[(Hk & Hp & Hh) _] Ha]. split_and!.
  - by rewrite content_perm, (af_total _ _ _ _ Ha).
  - apply Forall_forall. intros t Ht. apply sorted_txs_elem in Ht; [|done].
    pose proof (af_caps _ _ _ _ Ha _ _ Ht) as Hb. simpl in Hb. split_and!; try lia.
    apply bool_decide_eq_true. unfold sm_Get. fold (tl_items l). by rewrite Ht.
  - by rewrite Hp, content_perm, txs_of_nonces.
  - done.
  - intros op Hal. destruct (tl_exec_ok op l Hok Hal) as (l' & H & _). eauto.
Qed.

(** What the walks take out of a list, relative to its content in nonce
    order: [Forward] the transactions below the threshold, [Ready] the run of
    consecutive nonces from the lowest one (if it is not above the start),
    [Cap] the highest ones beyond the limit, in descending order; [Flatten] is
    the content. The rest stays, in the same order. *)
Theorem tx_list_walks strict ops threshold start (limit : nat) : run_costs_fit ops (newList strict) ->
  let l := tl_run ops (newList strict) in
  (exists removed l', tl_Forward threshold l = (Ok (Some <$> removed), l') /\ content l = removed ++ content l' /\
     Forall (fun t => tx_Nonce t < threshold) removed /\ Forall (fun t => threshold <= tx_Nonce t) (content l')) /\
  (exists ready l', tl_Ready start l = (Ok (Some <$> ready), l') /\ content l = ready ++ content l' /\
     match content l with
     | [] => ready = []
     | t :: _ => if start <? tx_Nonce t then ready = []
                 else ready <> [] /\ tx_Nonce <$> ready = seqZ (tx_Nonce t) (Z.of_nat (length ready)) /\
                      Forall (fun t' => tx_Nonce t' <> tx_Nonce t + Z.of_nat (length ready)) (content l')
     end) /\
  (exists dropped l', tl_Cap limit l = (Ok (Some <$> dropped), l') /\ content l = content l' ++ reverse dropped /\
     length (content l') = Nat.min limit (length (content l))) /\
  (exists l', tl_Flatten l = (Ok (content l), l') /\ content l' = content l).
Proof.
  intros Hok%tl_run_ok l. fold l in Hok. split_and!.
  - destruct (tl_Forward_ok threshold l Hok) as (removed & l' & H & _ & Hc & H1 & H2). eauto 10.
  - destruct (tl_Ready_ok start l Hok) as (ready & l' & H & _ & Hc & H1). eauto 10.
  - destruct (tl_Cap_ok limit l Hok) as (dropped & l' & H & _ & Hc & Hlen). exists dropped, l'.
    split_and!; [done|done|]. unfold content, tl_items. rewrite !sorted_txs_length. exact Hlen.
  - destruct (tl_Flatten_ok l Hok) as (l' & H & _ & Hc). eauto.
Qed.

(** The cost filter with its short cut removes exactly what a plain scan
    would: every transaction over the balance or over the gas limit. What stays
    is within both, the rest was removed as invalid; in a strict list nothing
    with a nonce above a removed one stays, otherwise nothing else goes. *)
Theorem cost_filter_exact strict ops costLimit gasLimit : run_costs_fit ops (newList strict) ->
  let l := tl_run ops (newList strict) in
  exists removed invalids l', tl_CostFilter costLimit gasLimit l = (Ok (removed, invalids), l') /\
    removed ≡ₚ List.filter (over_limits costLimit gasLimit) (content l) /\
    content l ≡ₚ removed ++ invalids ++ content l' /\
    Forall (fun t => over_limits costLimit gasLimit t = false) (content l') /\
    (if tl_strict l then forall t r, t ∈ content l' -> r ∈ removed -> tx_Nonce t <= tx_Nonce r else invalids = []).
Proof.
  intros Hok%tl_run_ok l. fold l in Hok.
  destruct (tl_CostFilter_ok costLimit gasLimit l Hok) as (removed & invalids & l' & Hrun & Hl' & Hrem & Hp & Hs).
  exists removed, invalids, l'. split_and!; try done. apply Forall_forall. intros t Ht.
  destruct (over_limits costLimit gasLimit t) eqn:Hov; [|done]. exfalso.
  assert (NoDup (content l)) as Hnd.
  { apply (NoDup_fmap_1 tx_Nonce). destruct Hok as [_ Ha]. rewrite content_perm, txs_of_nonces by apply Ha. apply NoDup_fst_map_to_list. }
  rewrite Hp in Hnd. apply NoDup_app in Hnd as (_ & Hdis & _). apply (Hdis t); [|apply elem_of_app; auto].
  rewrite Hrem. apply list_elem_of_In, filter_In. split; [|done]. apply list_elem_of_In. rewrite Hp, !elem_of_app. auto.
Qed.
End totals.

(** ** Examples *)

Definition pool_tx (nonce feeCap value : Z) : Transaction :=
  MkTransaction 2 nonce 30 feeCap 2 (Some bob) value EmptyString [] [] alice.
Definition pool_ops : list tl_op :=
  [OpAdd (pool_tx 5 12 100) 10; OpAdd (pool_tx 3 12 900) 10; OpAdd (pool_tx 4 12 0) 10].
Definition pool_list : TxList := tl_run pool_ops (newList true).

Lemma pool_list_run : run_costs_fit pool_ops (newList true).
Proof. vm_compute. intuition congruence. Qed.

(** Three transactions, added out of order: one of them costs more than a
    thousand. *)
Lemma tx_list_invariant_witness : tl_totalcost pool_list = 2080 /\ cost_sum (content pool_list) = 2080.
Proof.
  destruct (tx_list_invariant true pool_ops pool_list_run) as [Ht _].
  split; [vm_compute; reflexivity|]. etransitivity; [symmetry; exact Ht|vm_compute; reflexivity].
Defined.

Lemma tx_list_walks_witness : exists ready l', tl_Ready 3 pool_list = (Ok (Some <$> ready), l') /\
  tx_Nonce <$> ready = [3; 4; 5].
Proof.
  destruct (tx_list_walks true pool_ops 0 3 0%nat pool_list_run) as (_ & (ready & l' & Hrun & Hc & _) & _).
  exists ready, l'. split; [exact Hrun|]. apply (f_equal fst) in Hrun. vm_compute in Hrun.
  destruct ready as [|t1 [|t2 [|t3 [|]]]]; try discriminate Hrun. injection Hrun as <- <- <-. reflexivity.
Defined.

Lemma cost_filter_exact_witness : exists removed invalids l', tl_CostFilter 1000 1000 pool_list = (Ok (removed, invalids), l') /\
  tx_Nonce <$> content l' = [].
Proof.
  destruct (cost_filter_exact true pool_ops 1000 1000 pool_list_run) as (removed & invalids & l' & Hrun & _).
  exists removed, invalids, l'. split; [exact Hrun|]. apply (f_equal snd) in Hrun. simpl in Hrun.
  rewrite <- Hrun. vm_compute. reflexivity.
Defined.

(** The list is left without the cost of a transaction that it still holds: a
    replacement whose cost overflows 256 bits is refused after the cost of the
    old transaction was subtracted. Removing the old one then panics. *)
Lemma add_overflow_breaks_total :
  let old := pool_tx 5 12 100 in
  let l := (tl_exec (OpAdd old 10) (newList false)).2 in
  let run := tl_Add (MkTransaction 2 5 30 24 4 (Some bob) two256 EmptyString [] [] alice) 10 l in
  run.1 = Ok (false, None) /\ content run.2 = [old] /\ tl_totalcost run.2 = 0 /\
  (tl_Forward 6 run.2).1 = Panic "totalcost underflow".
Proof. vm_compute. done. Qed.
