(* ===== verification/PricedList.v ===== *)
(** * mempool/txpool/legacypool: the lookup table and the price-sorted list

    The lookup of legacypool.go (transactions by hash, slots and pending
    authorizations) and [pricedList] of list.go: two heaps, the urgent one by
    effective tip and the floating one by fee cap, from which the cheapest
    transactions are evicted. Heap entries that are no longer in the lookup are
    stale. *)

From Stdlib Require Import ZArith Lia List String Bool.
From stdpp Require Import base gmap strings list.
From S2P Require Import Prelude GoStrings GoHeap Sdk AccessList StateDB EvmCoin FeeMarket EvmTx TxList.
Local Open Scope Z_scope.
Local Open Scope go_scope.

(** ** lookup *)

Record lookup_table := MkLookup {
  lk_slots : Z;
  lk_txs : gmap hash Transaction;
  lk_auths : gmap addr (list hash);
}.
Definition newLookup : lookup_table := MkLookup 0 ∅ ∅.

Definition txSlotSize : Z := 32 * 1024.

Section lookup.
Context {Mr : MapRange} {Pl : PoolLibs}.

Definition numSlots (tx : Transaction) : Z := u64 (tx_Size tx + txSlotSize - 1) / txSlotSize.

Definition lk_Get (h : hash) (t : lookup_table) : option Transaction := lk_txs t !! h.
Definition lk_Count (t : lookup_table) : nat := size (lk_txs t).
Definition hasAuth (a : addr) (t : lookup_table) : bool := negb (Nat.eqb (length (default [] (lk_auths t !! a))) 0).

Definition addAuthority (h : hash) (auths : gmap addr (list hash)) (a : addr) : gmap addr (list hash) :=
  let l := default [] (auths !! a) in
  if bool_decide (h ∈ l) then auths else <[a := l ++ [h]]> auths.
Definition addAuthorities (tx : Transaction) (auths : gmap addr (list hash)) : gmap addr (list hash) :=
  foldl (addAuthority (tx_Hash tx)) auths (SetCodeAuthorities tx).

(** Only the first occurrence goes. *)
Definition removeAuthority (h : hash) (auths : gmap addr (list hash)) (a : addr) : gmap addr (list hash) :=
  let l := default [] (auths !! a) in
  let l' := match list_find (fun x => x = h) l with
            | Some (i, _) => take i l ++ drop (S i) l
            | None => l
            end in
  match l' with [] => delete a auths | _ => <[a := l']> auths end.
Definition removeAuthorities (tx : Transaction) (auths : gmap addr (list hash)) : gmap addr (list hash) :=
  foldl (removeAuthority (tx_Hash tx)) auths (SetCodeAuthorities tx).

Definition lk_Add (tx : Transaction) (t : lookup_table) : lookup_table :=
  MkLookup (lk_slots t + numSlots tx) (<[tx_Hash tx := tx]> (lk_txs t)) (addAuthorities tx (lk_auths t)).
Definition lk_Remove (h : hash) (t : lookup_table) : lookup_table :=
  match lk_txs t !! h with
  | None => t
  | Some tx => MkLookup (lk_slots t - numSlots tx) (delete h (lk_txs t)) (removeAuthorities tx (lk_auths t))
  end.

Definition TxsBelowTip (threshold : Z) (t : lookup_table) : list Transaction :=
  List.filter (fun tx => tx_GasTipCap tx <? threshold) (go_range (lk_txs t)).*2.
End lookup.

(** ** priceHeap *)

(** [EffectiveGasTipCmp] compares these tips, computed on 256-bit words. *)
Class PriceLibs := { calcEffectiveGasTip : Transaction -> Z -> Z }.

Section priced.
Context {Mr : MapRange} {Pl : PoolLibs} {Pr : PriceLibs}.

Definition price_cmp (baseFee : option Z) (a b : Transaction) : comparison :=
  let c := match baseFee with
           | Some f => Z.compare (calcEffectiveGasTip a f) (calcEffectiveGasTip b f)
           | None => Eq
           end in
  match c with
  | Eq =>
    match Z.compare (tx_GasFeeCap a) (tx_GasFeeCap b) with
    | Eq => Z.compare (tx_GasTipCap a) (tx_GasTipCap b)
    | c => c
    end
  | c => c
  end.
Definition price_less (baseFee : option Z) (a b : Transaction) : bool :=
  match price_cmp baseFee a b with
  | Lt => true
  | Gt => false
  | Eq => tx_Nonce b <? tx_Nonce a
  end.

(** ** pricedList

    The base fee of the floating heap is never set. *)
Record PricedList := MkPricedList {
  pl_stales : Z;
  pl_urgent : list Transaction;
  pl_floating : list Transaction;
  pl_baseFee : option Z;
}.
Definition newPricedList : PricedList := MkPricedList 0 [] [] None.

Definition urgentRatio : nat := 4.
Definition floatingRatio : nat := 1.

Definition stale (all : lookup_table) (tx : Transaction) : bool :=
  match lk_Get (tx_Hash tx) all with None => true | Some _ => false end.

Definition pl_Put (tx : Transaction) (l : PricedList) : PricedList :=
  MkPricedList (pl_stales l) (heap_Push (price_less (pl_baseFee l)) tx (pl_urgent l)) (pl_floating l) (pl_baseFee l).

Fixpoint pop_n (n : nat) (less : Transaction -> Transaction -> bool) (h : list Transaction) : list Transaction * list Transaction :=
  match n with
  | O => ([], h)
  | S n' =>
    match heap_Pop less h with
    | None => ([], h)
    | Some (tx, h') => let (l, h'') := pop_n n' less h' in (tx :: l, h'')
    end
  end.
Definition pl_Reheap (all : lookup_table) (l : PricedList) : PricedList :=
  let less := price_less (pl_baseFee l) in
  let urgent := heap_Init less (go_range (lk_txs all)).*2 in
  let floatingCount := (length urgent * floatingRatio / (urgentRatio + floatingRatio))%nat in
  let (moved, urgent') := pop_n floatingCount less urgent in
  MkPricedList 0 urgent' (heap_Init (price_less None) moved) (pl_baseFee l).

Definition pl_SetBaseFee (all : lookup_table) (baseFee : option Z) (l : PricedList) : PricedList :=
  pl_Reheap all (MkPricedList (pl_stales l) (pl_urgent l) (pl_floating l) (Some (u256w (default 0 baseFee)))).

Definition pl_Removed (all : lookup_table) (count : Z) (l : PricedList) : PricedList :=
  let stales := pl_stales l + count in
  let l' := MkPricedList stales (pl_urgent l) (pl_floating l) (pl_baseFee l) in
  if stales <=? Z.of_nat (length (pl_urgent l) + length (pl_floating l)) / 4 then l' else pl_Reheap all l'.

(** Stale entries are popped from the start of the heap; the number of them is
    returned with the rest. *)
Fixpoint drop_stale (fuel : nat) (all : lookup_table) (less : Transaction -> Transaction -> bool) (h : list Transaction)
    : Z * list Transaction :=
  match fuel, h with
  | S fuel', head :: _ =>
    if stale all head then
      match heap_Pop less h with
      | Some (_, h') => let (n, h'') := drop_stale fuel' all less h' in (n + 1, h'')
      | None => (0, h)
      end
    else (0, h)
  | _, _ => (0, h)
  end.
Definition underpricedFor (all : lookup_table) (baseFee : option Z) (tx : Transaction) (h : list Transaction)
    : bool * Z * list Transaction :=
  let (n, h') := drop_stale (length h) all (price_less baseFee) h in
  (match h' with [] => false | head :: _ => bool_decide (price_cmp baseFee head tx <> Lt) end, n, h').

Definition pl_Underpriced (all : lookup_table) (tx : Transaction) (l : PricedList) : bool * PricedList :=
  let '(u, n, urgent) := underpricedFor all (pl_baseFee l) tx (pl_urgent l) in
  let l1 := MkPricedList (pl_stales l - n) urgent (pl_floating l) (pl_baseFee l) in
  if negb (u || Nat.eqb (length urgent) 0) then (false, l1) else
  let '(f, n', floating) := underpricedFor all None tx (pl_floating l1) in
  let l2 := MkPricedList (pl_stales l1 - n') (pl_urgent l1) floating (pl_baseFee l) in
  ((f || Nat.eqb (length floating) 0) && (negb (Nat.eqb (length urgent) 0) || negb (Nat.eqb (length floating) 0)), l2).

(** [None]: the fuel is used up. *)
Fixpoint discard_loop (fuel : nat) (all : lookup_table) (slots : Z) (drop : list Transaction) (l : PricedList)
    : option (Z * list Transaction * PricedList) :=
  if slots <=? 0 then Some (slots, drop, l) else
  match fuel with
  | O => None
  | S fuel' =>
    let less := price_less (pl_baseFee l) in
    if Nat.ltb (length (pl_floating l) * urgentRatio) (length (pl_urgent l) * floatingRatio) then
      match heap_Pop less (pl_urgent l) with
      | None => None
      | Some (tx, urgent) =>
        if stale all tx
        then discard_loop fuel' all slots drop (MkPricedList (pl_stales l - 1) urgent (pl_floating l) (pl_baseFee l))
        else discard_loop fuel' all slots drop
               (MkPricedList (pl_stales l) urgent (heap_Push (price_less None) tx (pl_floating l)) (pl_baseFee l))
      end
    else
      match heap_Pop (price_less None) (pl_floating l) with
      | None => Some (slots, drop, l)
      | Some (tx, floating) =>
        if stale all tx
        then discard_loop fuel' all slots drop (MkPricedList (pl_stales l - 1) (pl_urgent l) floating (pl_baseFee l))
        else discard_loop fuel' all (slots - numSlots tx) (drop ++ [tx])
               (MkPricedList (pl_stales l) (pl_urgent l) floating (pl_baseFee l))
      end
  end.

(** Every entry is popped at most twice. *)
Definition discard_fuel (l : PricedList) : nat := S (2 * length (pl_urgent l) + length (pl_floating l)).
Definition out_of_fuel : string := "out of fuel".
Definition pl_Discard (all : lookup_table) (slots : Z) (l : PricedList) : outcome (list Transaction * bool * PricedList) :=
  if slots <? 0 then Panic "makeslice: cap out of range" else
  match discard_loop (discard_fuel l) all slots [] l with
  | None => Err out_of_fuel
  | Some (rest, drop, l') =>
    if 0 <? rest
    then Ok ([], false, foldl (fun l tx => pl_Put tx l) l' drop)
    else Ok (drop, true, l')
  end.
End priced.
