(* ===== verification/PricedListTheorems.v ===== *)
(** * The lookup table and the price-sorted list: eviction

    The lookup counts the slots and the pending authorizations of exactly the
    transactions it holds. Eviction makes the room asked for or says that no
    eviction could, and does not lose a live transaction. *)

From Stdlib Require Import ZArith Lia List String Bool.
From stdpp Require Import base gmap strings list pretty.
From S2P Require Import Prelude GoStrings GoHeap Sdk AccessList StateDB EvmCoin FeeMarket EvmTx TxList TxListTheorems PricedList.
From S2P Require Import RefEnv FeeMarketTheorems VmRef EvmAnte EvmAnteTheorems.
Local Open Scope Z_scope.
Local Open Scope go_scope.

(** ** Slots and authorizations *)

Section lookup_facts.
Context {Mr : MapRange} {Pl : PoolLibs}.
Implicit Types (t : lookup_table) (tx : Transaction) (txs : gmap hash Transaction).

Definition slot_sum (l : list Transaction) : Z := foldr (fun tx z => numSlots tx + z) 0 l.
Definition map_slots txs : Z := slot_sum (map_to_list txs).*2.

#[export] Instance slot_sum_perm : Proper (Permutation ==> eq) slot_sum.
Proof. intros l1 l2 Hp. unfold slot_sum. induction Hp; simpl; lia. Qed.

Lemma slot_sum_app l l' : slot_sum (l ++ l') = slot_sum l + slot_sum l'.
Proof. induction l as [|tx l IH]; unfold slot_sum in *; simpl; lia. Qed.

Lemma numSlots_nonneg tx : 0 <= numSlots tx.
Proof. unfold numSlots, u64. apply Z.div_pos; [apply Z.mod_pos_bound|]; done. Qed.

Lemma slot_sum_nonneg l : 0 <= slot_sum l.
Proof. induction l as [|tx l IH]; unfold slot_sum in *; simpl; [done|]. pose proof (numSlots_nonneg tx). lia. Qed.

Lemma map_slots_insert txs h tx : txs !! h = None -> map_slots (<[h := tx]> txs) = numSlots tx + map_slots txs.
Proof. intros H. unfold map_slots. by rewrite map_to_list_insert by done. Qed.

Lemma map_slots_delete txs h tx : txs !! h = Some tx -> map_slots (delete h txs) = map_slots txs - numSlots tx.
Proof.
  intros H. rewrite <- (insert_delete_id txs h tx) at 2 by done. rewrite map_slots_insert by apply lookup_delete_eq. lia.
Qed.

(** The hashes tracked for an authority. *)
Definition tracked (auths : gmap addr (list hash)) (a : addr) : list hash := default [] (auths !! a).
Definition auths_ok txs (auths : gmap addr (list hash)) : Prop := forall a,
  NoDup (tracked auths a) /\ forall h, h ∈ tracked auths a <-> exists tx, txs !! h = Some tx /\ a ∈ SetCodeAuthorities tx.

Record lk_ok t : Prop := {
  lk_hashed h tx : lk_txs t !! h = Some tx -> tx_Hash tx = h;
  lk_exact : lk_slots t = map_slots (lk_txs t);
  lk_tracked : auths_ok (lk_txs t) (lk_auths t);
}.

Lemma tracked_insert auths a l b : tracked (<[a := l]> auths) b = if decide (a = b) then l else tracked auths b.
Proof. unfold tracked. destruct (decide (a = b)) as [->|]; [by rewrite lookup_insert_eq|by rewrite lookup_insert_ne]. Qed.

Lemma addAuthority_tracked h auths a b : NoDup (tracked auths b) ->
  NoDup (tracked (addAuthority h auths a) b) /\
  forall x, x ∈ tracked (addAuthority h auths a) b <-> x ∈ tracked auths b \/ (x = h /\ b = a).
Proof.
  intros Hnd. unfold addAuthority. fold (tracked auths a). case_bool_decide as Hin.
  - split; [done|]. intros x. split; [by left|]. by intros [|[-> ->]].
  - rewrite tracked_insert. destruct (decide (a = b)) as [->|Hne].
    + split; [apply NoDup_app; split_and!; [done|set_solver|apply NoDup_singleton]|set_solver].
    + split; [done|]. set_solver.
Qed.

Lemma addAuthorities_tracked h l auths b : NoDup (tracked auths b) ->
  NoDup (tracked (foldl (addAuthority h) auths l) b) /\
  forall x, x ∈ tracked (foldl (addAuthority h) auths l) b <-> x ∈ tracked auths b \/ (x = h /\ b ∈ l).
Proof.
  revert auths. induction l as [|a l IH]; intros auths Hnd; simpl; [set_solver|].
  destruct (addAuthority_tracked h auths a b Hnd) as [Hnd1 H1]. destruct (IH _ Hnd1) as [Hnd2 H2].
  split; [done|]. intros x. rewrite H2, H1. set_solver.
Qed.

Lemma remove_first (l : list hash) h : NoDup l ->
  let l' := match list_find (fun x => x = h) l with Some (i, _) => take i l ++ drop (S i) l | None => l end in
  NoDup l' /\ forall x, x ∈ l' <-> x ∈ l /\ x <> h.
Proof.
  intros Hnd. simpl. destruct (list_find (fun x => x = h) l) as [[i y]|] eqn:Hf.
  - apply list_find_Some in Hf as (Hi & -> & _). rewrite <- (take_drop_middle l i h Hi) in Hnd.
    apply NoDup_app in Hnd as (H1 & H2 & H3). apply NoDup_cons in H3 as [H3 H4].
    split; [apply NoDup_app; split_and!; [done|set_solver|done]|]. intros x.
    rewrite <- (take_drop_middle l i h Hi) at 3. set_solver.
  - apply list_find_None in Hf. rewrite Forall_forall in Hf. split; [done|]. intros x. split; [|by intros [? _]].
    intros Hx. split; [done|]. by apply Hf.
Qed.

Lemma removeAuthority_tracked h auths a b : NoDup (tracked auths a) -> NoDup (tracked auths b) ->
  NoDup (tracked (removeAuthority h auths a) b) /\
  forall x, x ∈ tracked (removeAuthority h auths a) b <-> x ∈ tracked auths b /\ ~ (x = h /\ b = a).
Proof.
  intros Ha Hb. unfold removeAuthority. fold (tracked auths a). destruct (remove_first _ h Ha) as [Hnd Hin].
  set (l' := match list_find _ _ with Some _ => _ | None => _ end) in *. clearbody l'.
  destruct (decide (a = b)) as [->|Hne].
  - assert (tracked (match l' with [] => delete b auths | _ => <[b := l']> auths end) b = l') as ->.
    { unfold tracked. destruct l'; [by rewrite lookup_delete_eq|by rewrite lookup_insert_eq]. }
    split; [done|]. intros x. rewrite Hin. naive_solver.
  - assert (tracked (match l' with [] => delete a auths | _ => <[a := l']> auths end) b = tracked auths b) as ->.
    { unfold tracked. destruct l'; [by rewrite lookup_delete_ne|by rewrite lookup_insert_ne]. }
    split; [done|]. naive_solver.
Qed.

Lemma removeAuthorities_tracked h l auths : (forall b, NoDup (tracked auths b)) -> forall b,
  NoDup (tracked (foldl (removeAuthority h) auths l) b) /\
  forall x, x ∈ tracked (foldl (removeAuthority h) auths l) b <-> x ∈ tracked auths b /\ ~ (x = h /\ b ∈ l).
Proof.
  revert auths. induction l as [|a l IH]; intros auths Hnd b; simpl; [set_solver|].
  destruct (IH (removeAuthority h auths a)) with (b := b) as [Hnd2 H2]; [intros c; by apply removeAuthority_tracked|].
  split; [done|]. intros x. rewrite H2. destruct (removeAuthority_tracked h auths a b) as [_ H1]; [done..|].
  rewrite H1. set_solver.
Qed.

Lemma lk_new_ok : lk_ok newLookup.
Proof.
  split; [done|done|]. intros a. unfold tracked. simpl. rewrite lookup_empty. split; [apply NoDup_nil_2|].
  intros h. split; [by intros ?%not_elem_of_nil|]. intros (tx & H & _). by rewrite lookup_empty in H.
Qed.

Lemma lk_Add_ok tx t : lk_ok t -> lk_Get (tx_Hash tx) t = None -> lk_ok (lk_Add tx t).
Proof.
  unfold lk_Get. intros [Hh Hs Ha] Hn. split; simpl.
  - intros h tx' [[<- <-]|[_ H]]%lookup_insert_Some; [done|by apply Hh].
  - rewrite map_slots_insert by done. lia.
  - intros a. destruct (Ha a) as [Hnd Hin].
    destruct (addAuthorities_tracked (tx_Hash tx) (SetCodeAuthorities tx) _ a Hnd) as [Hnd' Hin'].
    split; [done|]. intros h. unfold addAuthorities. rewrite Hin', Hin. split.
    + intros [(tx' & Htx & Hx)|[-> Hx]]; [|exists tx; by rewrite lookup_insert_eq].
      exists tx'. rewrite lookup_insert_ne; [done|congruence].
    + intros (tx' & [[<- <-]|[_ H]]%lookup_insert_Some & Hx); [by right|left; by exists tx'].
Qed.

Lemma lk_Remove_ok h t : lk_ok t -> lk_ok (lk_Remove h t) /\ lk_txs (lk_Remove h t) = delete h (lk_txs t).
Proof.
  intros Hok. unfold lk_Remove. destruct (lk_txs t !! h) as [tx|] eqn:Htx; [|by rewrite delete_id].
  split; [|done]. destruct Hok as [Hh Hs Ha]. pose proof (Hh _ _ Htx) as Heq. split; simpl.
  - intros h' tx' [_ H]%lookup_delete_Some. by apply Hh.
  - erewrite map_slots_delete by done. lia.
  - intros a. unfold removeAuthorities. rewrite Heq.
    destruct (removeAuthorities_tracked h (SetCodeAuthorities tx) (lk_auths t) (fun b => proj1 (Ha b)) a) as [Hnd Hin].
    split; [done|]. intros x. rewrite Hin, (proj2 (Ha a)). split.
    + intros [(tx' & Hx & Hax) Hnot]. exists tx'. split; [|done]. apply lookup_delete_Some. split; [|done].
      intros <-. apply Hnot. split; [done|]. by rewrite Htx in Hx; injection Hx as ->.
    + intros (tx' & [Hne Hx]%lookup_delete_Some & Hax). split; [by exists tx'|]. by intros [-> _].
Qed.
End lookup_facts.

(** ** The order of prices *)

Section price_order.
Context {Pr : PriceLibs}.
Implicit Types (a b c : Transaction) (f : option Z).

(** [a] pays no less than [b]. *)
Definition pays f a b : Prop := price_cmp f a b <> Lt.

Lemma price_cmp_key f : exists k1 k2 k3 : Transaction -> Z, forall a b,
  price_cmp f a b = match Z.compare (k1 a) (k1 b) with
                    | Eq => match Z.compare (k2 a) (k2 b) with Eq => Z.compare (k3 a) (k3 b) | c => c end
                    | c => c
                    end.
Proof.
  exists (fun tx => match f with Some x => calcEffectiveGasTip tx x | None => 0 end), tx_GasFeeCap, tx_GasTipCap.
  intros a b. unfold price_cmp. destruct f as [z|]; [|done].
  by destruct (calcEffectiveGasTip a z ?= calcEffectiveGasTip b z).
Qed.

Lemma pays_lex f : exists k1 k2 k3 : Transaction -> Z, forall a b,
  price_cmp f a b = Lt <-> k1 a < k1 b \/ k1 a = k1 b /\ (k2 a < k2 b \/ k2 a = k2 b /\ k3 a < k3 b).
Proof.
  destruct (price_cmp_key f) as (k1 & k2 & k3 & H). exists k1, k2, k3. intros a b. rewrite H.
  destruct (Z.compare_spec (k1 a) (k1 b)); [|split; [lia|done]|split; [done|lia]].
  destruct (Z.compare_spec (k2 a) (k2 b)); [|split; [lia|done]|split; [done|lia]].
  destruct (Z.compare_spec (k3 a) (k3 b)); (split; [done|lia]) || (split; [lia|done]).
Qed.

Lemma price_less_lex f : exists k1 k2 k3 : Transaction -> Z, forall a b,
  price_less f a b = true <-> k1 a < k1 b \/ k1 a = k1 b /\ (k2 a < k2 b \/ k2 a = k2 b /\
    (k3 a < k3 b \/ k3 a = k3 b /\ tx_Nonce b < tx_Nonce a)).
Proof.
  destruct (price_cmp_key f) as (k1 & k2 & k3 & H). exists k1, k2, k3. intros a b. unfold price_less. rewrite H.
  destruct (Z.compare_spec (k1 a) (k1 b)); [|split; [lia|done]|split; [done|lia]].
  destruct (Z.compare_spec (k2 a) (k2 b)); [|split; [lia|done]|split; [done|lia]].
  destruct (Z.compare_spec (k3 a) (k3 b)); [|split; [lia|done]|split; [done|lia]]. rewrite Z.ltb_lt. lia.
Qed.

#[export] Instance price_less_weak f : StrictWeak (price_less f).
Proof.
  destruct (price_less_lex f) as (k1 & k2 & k3 & H).
  split; [intros a b|intros a b c]; rewrite <- ?not_true_iff_false, !H; lia.
Qed.

Lemma pays_trans f a b c : pays f a b -> pays f b c -> pays f a c.
Proof. unfold pays. destruct (pays_lex f) as (k1 & k2 & k3 & H). rewrite !H. lia. Qed.

Lemma le_pays f a b : le (price_less f) b a -> pays f a b.
Proof. unfold le, pays, price_less. by destruct (price_cmp f a b). Qed.
End price_order.

(** ** The heaps *)

Section priced_facts.
Context {Mr : MapRange} {Pl : PoolLibs} {Pr : PriceLibs}.
Implicit Types (all : lookup_table) (l : PricedList) (tx : Transaction) (h : list Transaction).

Definition live all h : list Transaction := List.filter (fun tx => negb (stale all tx)) h.
Definition entries l : list Transaction := pl_urgent l ++ pl_floating l.

Record priced_ok l : Prop := {
  pl_urgent_ok : heap_ok (price_less (pl_baseFee l)) (pl_urgent l);
  pl_floating_ok : heap_ok (price_less None) (pl_floating l);
}.

Lemma live_app all h h' : live all (h ++ h') = live all h ++ live all h'.
Proof. apply List.filter_app. Qed.

Lemma live_stale all h : Forall (fun tx => stale all tx = true) h -> live all h = [].
Proof. induction 1 as [|tx h Hs _ IH]; [done|]. unfold live in *. simpl. by rewrite Hs. Qed.

Lemma live_live all h : Forall (fun tx => stale all tx = false) h -> live all h = h.
Proof. induction 1 as [|tx h Hs _ IH]; [done|]. unfold live in *. simpl. rewrite Hs. simpl. by f_equal. Qed.

Lemma live_elem all h tx : tx ∈ live all h <-> tx ∈ h /\ stale all tx = false.
Proof. unfold live. rewrite !list_elem_of_In, filter_In, negb_true_iff. done. Qed.

Lemma pl_Put_ok tx l : priced_ok l -> priced_ok (pl_Put tx l) /\ entries (pl_Put tx l) ≡ₚ tx :: entries l.
Proof.
  intros [Hu Hf]. destruct (heap_Push_spec (price_less (pl_baseFee l)) tx _ Hu) as [H1 H2].
  split; [by split|]. unfold entries, pl_Put. simpl. by rewrite H2.
Qed.

Lemma pl_Put_all txs l : priced_ok l -> priced_ok (foldl (fun l tx => pl_Put tx l) l txs) /\
  entries (foldl (fun l tx => pl_Put tx l) l txs) ≡ₚ txs ++ entries l.
Proof.
  revert l. induction txs as [|tx txs IH]; intros l Hok; [done|]. destruct (pl_Put_ok tx l Hok) as [Hok' Hp].
  destruct (IH _ Hok') as [Hok2 Hp2]. split; [done|]. simpl. rewrite Hp2, Hp. symmetry. apply Permutation_middle.
Qed.

(** What is left after the stale entries at the starts of the heaps are gone. *)
Lemma live_split all h gone h' : h ≡ₚ gone ++ h' -> Forall (fun tx => stale all tx = true) gone -> live all h ≡ₚ live all h'.
Proof. intros Hp Hg. unfold live at 1. rewrite Hp. fold (live all (gone ++ h')). by rewrite live_app, (live_stale _ gone). Qed.

(** *** Reheap *)

Lemma pop_n_spec (less : Transaction -> Transaction -> bool) `{!StrictWeak less} n h : heap_ok less h -> (n <= length h)%nat ->
  let (m, h') := pop_n n less h in heap_ok less h' /\ m ++ h' ≡ₚ h /\ length m = n /\
    forall x y, x ∈ m -> y ∈ h' -> le less x y.
Proof.
  revert h. induction n as [|n IH]; intros h Hh Hn; simpl; [split_and!; try done; by intros x y ?%not_elem_of_nil|].
  destruct h as [|x h]; [simpl in Hn; lia|]. destruct (heap_Pop_spec less x h Hh) as (h1 & Hpop & Hh1 & Hp). rewrite Hpop.
  specialize (IH h1 Hh1 ltac:(rewrite Hp; simpl in Hn; lia)).
  destruct (pop_n n less h1) as [m h']. destruct IH as (H1 & H2 & H3 & H4). split_and!; [done| |simpl; by rewrite H3|].
  - simpl. by rewrite H2, Hp.
  - intros a b [->|Ha]%elem_of_cons Hb; [|by apply H4]. apply (heap_min_elem less x h); [done|]. right.
    rewrite <- Hp, <- H2. apply elem_of_app. by right.
Qed.

Lemma pl_Reheap_ok all l : let l' := pl_Reheap all l in
  priced_ok l' /\ pl_baseFee l' = pl_baseFee l /\ pl_stales l' = 0 /\
  entries l' ≡ₚ (map_to_list (lk_txs all)).*2 /\
  length (pl_floating l') = (size (lk_txs all) / 5)%nat /\
  forall x y, x ∈ pl_floating l' -> y ∈ pl_urgent l' -> le (price_less (pl_baseFee l)) x y.
Proof.
  unfold pl_Reheap. set (less := price_less (pl_baseFee l)).
  destruct (heap_Init_spec less (go_range (lk_txs all)).*2) as [Hh Hp]. set (u := heap_Init less _) in *.
  assert (length u = size (lk_txs all)) as Hlen.
  { rewrite Hp, length_fmap, go_range_perm. apply length_map_to_list. }
  pose proof (pop_n_spec less (length u * floatingRatio / (urgentRatio + floatingRatio)) u Hh) as Hs.
  destruct (pop_n _ less u) as [m u']. destruct Hs as (H1 & H2 & H3 & H4).
  { unfold floatingRatio, urgentRatio. rewrite Nat.mul_1_r. apply Nat.Div0.div_le_upper_bound. lia. }
  destruct (heap_Init_spec (price_less None) m) as [Hf Hpf]. simpl. split_and!; [by split|done|done| | |].
  - unfold entries. simpl. rewrite Hpf, (Permutation_app_comm u' m), H2, Hp. by rewrite go_range_perm.
  - rewrite Hpf, H3, Hlen. unfold floatingRatio, urgentRatio. by rewrite Nat.mul_1_r.
  - intros x y Hx. apply H4. by rewrite <- Hpf.
Qed.

Lemma reheap_all_live all l : lk_ok all -> Forall (fun tx => stale all tx = false) (entries (pl_Reheap all l)).
Proof.
  intros Hok. destruct (pl_Reheap_ok all l) as (_ & _ & _ & Hp & _). rewrite Hp. apply Forall_forall.
  intros tx ([h tx'] & -> & Hin)%list_elem_of_fmap. apply elem_of_map_to_list in Hin. simpl.
  unfold stale, lk_Get. by rewrite (lk_hashed _ Hok _ _ Hin), Hin.
Qed.

(** *** Underpriced *)

Lemma drop_stale_spec all f fuel h : heap_ok (price_less f) h -> (length h <= fuel)%nat ->
  exists gone h', drop_stale fuel all (price_less f) h = (Z.of_nat (length gone), h') /\ heap_ok (price_less f) h' /\
    h ≡ₚ gone ++ h' /\ Forall (fun tx => stale all tx = true) gone /\
    match h' with [] => True | x :: _ => stale all x = false end.
Proof.
  revert h. induction fuel as [|fuel IH]; intros [|x h] Hh Hl; simpl in Hl; try lia;
    try (by exists [], []; split_and!; [| | |constructor|]).
  cbn [drop_stale]. destruct (stale all x) eqn:Hx; [|by exists [], (x :: h); split_and!; [| | |constructor|]].
  destruct (heap_Pop_spec (price_less f) x h Hh) as (h1 & -> & Hh1 & Hp).
  destruct (IH h1 Hh1) as (gone & h' & -> & H1 & H2 & H3 & H4); [rewrite Hp; lia|].
  exists (x :: gone), h'. split_and!; [simpl; f_equal; lia|done| |by constructor|done]. simpl. by rewrite <- H2, Hp.
Qed.

Lemma underpricedFor_spec all f tx h : heap_ok (price_less f) h ->
  exists u gone h', underpricedFor all f tx h = (u, Z.of_nat (length gone), h') /\ heap_ok (price_less f) h' /\
    h ≡ₚ gone ++ h' /\ Forall (fun tx => stale all tx = true) gone /\ (Nat.eqb (length h') 0 = true <-> live all h = []) /\
    (u || Nat.eqb (length h') 0 = true <-> forall x, x ∈ live all h -> pays f x tx).
Proof.
  intros Hh. unfold underpricedFor. destruct (drop_stale_spec all f (length h) h Hh) as (gone & h' & -> & H1 & H2 & H3 & H4); [done|].
  pose proof (live_split all _ _ _ H2 H3) as Hlive. destruct h' as [|x h'].
  - exists false, gone, []. simpl in Hlive. apply Permutation_nil_r in Hlive. rewrite Hlive.
    split_and!; [done|done|done|done|done|]. split; [|done]. by intros _ x ?%not_elem_of_nil.
  - assert (x ∈ live all h) as Hx.
    { rewrite Hlive. apply live_elem. split; [by left|done]. }
    assert (live all h <> []) as Hne by (intros E; rewrite E in Hx; by apply not_elem_of_nil in Hx).
    exists (bool_decide (price_cmp f x tx <> Lt)), gone, (x :: h').
    split_and!; [done|done|done|done|by split|]. simpl. rewrite orb_false_r, bool_decide_eq_true. split; [|by intros H; apply H].
    intros Hp y Hy. rewrite Hlive in Hy. apply live_elem in Hy as [Hy _].
    apply (pays_trans f y x tx); [|done]. apply le_pays. by apply (heap_min_elem _ x h').
Qed.

Lemma underpriced_spec all tx l : priced_ok l -> exists u l', pl_Underpriced all tx l = (u, l') /\ priced_ok l' /\
  pl_baseFee l' = pl_baseFee l /\ live all (entries l') ≡ₚ live all (entries l) /\
  (u = true <-> live all (entries l) <> [] /\
     (forall x, x ∈ live all (pl_urgent l) -> pays (pl_baseFee l) x tx) /\
     (forall x, x ∈ live all (pl_floating l) -> pays None x tx)).
Proof.
  intros [Hu Hf]. unfold pl_Underpriced.
  destruct (underpricedFor_spec all (pl_baseFee l) tx _ Hu) as (u & gone & h & -> & H1 & H2 & H3 & H4 & H5).
  destruct (underpricedFor_spec all None tx _ Hf) as (v & gone' & h' & Hv & G1 & G2 & G3 & G4 & G5).
  cbn [pl_floating pl_stales pl_urgent]. rewrite Hv.
  pose proof (live_split all _ _ _ H2 H3) as Hlu. pose proof (live_split all _ _ _ G2 G3) as Hlf.
  assert (live all (entries l) = [] <-> Nat.eqb (length h) 0 = true /\ Nat.eqb (length h') 0 = true) as Hnil.
  { unfold entries. rewrite live_app, H4, G4. apply app_nil. }
  destruct (u || Nat.eqb (length h) 0) eqn:Hcase; simpl; eexists _, _; (split; [done|]);
    (split_and!; [by split|done|unfold entries; simpl; rewrite !live_app, Hlu; by rewrite ?Hlf|]); rewrite Hnil, <- H5, <- G5.
  - destruct v, (Nat.eqb (length h) 0), (Nat.eqb (length h') 0); simpl; naive_solver.
  - naive_solver.
Qed.

(** *** Discard

    From [l], with [slots] asked for, the transactions [more] are evicted and
    [l'] is left. *)
Record discards all (slots : Z) l (more : list Transaction) l' : Prop := {
  ds_ok : priced_ok l';
  ds_entries : exists gone, entries l ≡ₚ more ++ gone ++ entries l' /\ Forall (fun tx => stale all tx = true) gone;
  ds_live : Forall (fun tx => stale all tx = false) more;
  ds_enough : slots - slot_sum more <= 0 \/ entries l' = [];
  ds_none : slots <= 0 -> l' = l;
  ds_last i x : more = i ++ [x] -> 0 < slots - slot_sum i /\ forall y, y ∈ pl_floating l' -> le (price_less None) x y;
}.

Lemma discards_skip all slots l gone l1 more l' : entries l ≡ₚ gone ++ entries l1 -> Forall (fun tx => stale all tx = true) gone ->
  0 < slots -> discards all slots l1 more l' -> discards all slots l more l'.
Proof.
  intros Hp Hg Hs [Hok (gone' & Hp' & Hg') Hl He Hn Hlast]. split; [done| |done|done|lia|done].
  exists (gone ++ gone'). split; [|by apply Forall_app]. rewrite Hp, Hp'. rewrite <- !app_assoc. apply Permutation_app_swap_app.
Qed.

Lemma discards_drop all slots l tx l1 more l' : entries l ≡ₚ tx :: entries l1 -> stale all tx = false -> 0 < slots ->
  (forall y, y ∈ pl_floating l1 -> le (price_less None) tx y) ->
  discards all (slots - numSlots tx) l1 more l' -> discards all slots l (tx :: more) l'.
Proof.
  intros Hp Hl Hs Hmin [Hok (gone & Hp' & Hg) Hlm He Hn Hlast].
  assert (forall i, slot_sum (tx :: i) = numSlots tx + slot_sum i) as Hsum by done.
  split; [done| |by constructor|rewrite Hsum; destruct He; [left; lia|by right]|lia|].
  { exists gone. split; [|done]. rewrite Hp, Hp'. done. }
  intros [|tx' i] x E; simpl in E; injection E as -> ->; [|rewrite Hsum; destruct (Hlast i x eq_refl); split; [lia|done]].
  split; [simpl; lia|]. simpl in He. intros y Hy. destruct (decide (slots - numSlots x <= 0)) as [Hle|]; [rewrite Hn in Hy by done; by apply Hmin|].
  destruct He as [|He]; [lia|]. apply app_nil in He as [_ He]. rewrite He in Hy. by apply not_elem_of_nil in Hy.
Qed.

Lemma discard_loop_spec all fuel slots drop l : priced_ok l -> (2 * length (pl_urgent l) + length (pl_floating l) < fuel)%nat ->
  exists more l', discard_loop fuel all slots drop l = Some (slots - slot_sum more, drop ++ more, l') /\ discards all slots l more l'.
Proof.
  revert slots drop l. induction fuel as [|fuel IH]; intros slots drop l [Hu Hfl] Hf; [lia|]. cbn [discard_loop].
  assert (slots <= 0 \/ entries l = [] -> discards all slots l [] l) as Hstop.
  { intros Hc. split; [by split|exists []; by split|done|simpl; rewrite Z.sub_0_r; naive_solver|done|]. intros i x E. by destruct i. }
  destruct (slots <=? 0) eqn:Hs; zify_bool.
  { exists [], l. simpl. rewrite Z.sub_0_r, app_nil_r. split; [done|]. apply Hstop. by left. }
  destruct l as [st u f b]. cbn [pl_urgent pl_floating pl_baseFee pl_stales] in *.
  destruct (Nat.ltb _ _) eqn:Hlt; unfold urgentRatio, floatingRatio in Hlt.
  - apply Nat.ltb_lt in Hlt. destruct u as [|tx u]; [simpl in Hlt; lia|].
    destruct (heap_Pop_spec _ tx u Hu) as (u' & -> & Hu' & Hp). pose proof (Permutation_length Hp) as Hlen. simpl in Hf.
    destruct (stale all tx) eqn:Hst.
    + destruct (IH slots drop (MkPricedList (st - 1) u' f b)) as (more & l' & -> & Hd); [by split|simpl; lia|].
      exists more, l'. split; [done|]. eapply (discards_skip _ _ _ [tx]); [|by constructor|lia|exact Hd].
      unfold entries. simpl. by rewrite Hp.
    + destruct (heap_Push_spec (price_less None) tx f Hfl) as [Hf' Hp']. pose proof (Permutation_length Hp') as Hlen'.
      destruct (IH slots drop (MkPricedList st u' (heap_Push (price_less None) tx f) b)) as (more & l' & -> & Hd);
        [by split|simpl in *; lia|].
      exists more, l'. split; [done|]. eapply (discards_skip _ _ _ []); [|by constructor|lia|exact Hd].
      unfold entries. simpl. rewrite Hp, Hp'. apply Permutation_middle.
  - apply Nat.ltb_ge in Hlt. destruct f as [|tx f].
    { simpl. exists [], (MkPricedList st u [] b). simpl. rewrite Z.sub_0_r, app_nil_r. split; [done|]. apply Hstop. right.
      destruct u; [done|simpl in Hlt; lia]. }
    destruct (heap_Pop_spec _ tx f Hfl) as (f' & -> & Hf' & Hp). pose proof (Permutation_length Hp) as Hlen. simpl in Hf.
    assert (forall k, entries (MkPricedList st u (tx :: f) b) ≡ₚ tx :: entries (MkPricedList k u f' b)) as Hent.
    { intros k. unfold entries. simpl. rewrite Hp. symmetry. apply Permutation_middle. }
    destruct (stale all tx) eqn:Hst.
    + destruct (IH slots drop (MkPricedList (st - 1) u f' b)) as (more & l' & -> & Hd); [by split|simpl; lia|].
      exists more, l'. split; [done|]. eapply (discards_skip _ _ _ [tx]); [apply Hent|by constructor|lia|exact Hd].
    + destruct (IH (slots - numSlots tx) (drop ++ [tx]) (MkPricedList st u f' b)) as (more & l' & -> & Hd); [by split|simpl; lia|].
      exists (tx :: more), l'. split; [rewrite <- app_assoc; simpl; do 3 f_equal; lia|].
      apply (discards_drop _ _ _ tx (MkPricedList st u f' b)); [apply Hent|done|lia| |done].
      simpl. intros y Hy. rewrite Hp in Hy. apply (heap_min_elem _ tx f); [done|by right].
Qed.

Lemma pl_Discard_ok all slots l : 0 <= slots -> priced_ok l -> exists drop ok l', pl_Discard all slots l = Ok (drop, ok, l') /\
  priced_ok l' /\ live all (entries l) ≡ₚ drop ++ live all (entries l') /\
  (if ok then slots <= slot_sum drop else drop = [] /\ slot_sum (live all (entries l)) < slots) /\
  forall i x, drop = i ++ [x] -> slot_sum i < slots /\ forall y, y ∈ pl_floating l' -> le (price_less None) x y.
Proof.
  intros Hs Hok. unfold pl_Discard. destruct (slots <? 0) eqn:E; zify_bool; [lia|].
  destruct (discard_loop_spec all (discard_fuel l) slots [] l Hok) as (more & l' & -> & Hd); [unfold discard_fuel; lia|].
  destruct Hd as [Hok' (gone & Hp & Hg) Hl He _ Hlast]. simpl.
  assert (live all (entries l) ≡ₚ more ++ live all (entries l')) as Hlive.
  { unfold live at 1. rewrite Hp. fold (live all (more ++ gone ++ entries l')).
    by rewrite !live_app, (live_live _ more), (live_stale _ gone). }
  destruct (0 <? slots - slot_sum more) eqn:Er; zify_bool.
  - destruct He as [|He]; [lia|]. destruct (pl_Put_all more l' Hok') as [Hok2 Hp2]. eexists [], false, _.
    split_and!; [done|done| |done| |intros i x Ex; by destruct i].
    + rewrite Hlive. simpl. unfold live at 2. rewrite Hp2. fold (live all (more ++ entries l')). by rewrite live_app, (live_live _ more).
    + rewrite Hlive, He, slot_sum_app. simpl. lia.
  - exists more, true, l'. split_and!; [done|done|done|lia|]. intros i x Hx. destruct (Hlast i x Hx). split; [lia|done].
Qed.

(** ** The lookup and the list together

    How the pool uses them: a transaction with a known hash is not added again;
    what is evicted is taken out of the lookup. *)

Inductive pool_op :=
  | PoolAdd (tx : Transaction)
  | PoolRemove (h : hash)
  | PoolEvict (slots : Z)
  | PoolBaseFee (baseFee : option Z).

Definition pool_exec (o : pool_op) (s : lookup_table * PricedList) : outcome (lookup_table * PricedList) :=
  let (all, l) := s in
  match o with
  | PoolAdd tx => if stale all tx then Ok (lk_Add tx all, pl_Put tx l) else Ok s
  | PoolRemove h =>
    match lk_Get h all with
    | None => Ok s
    | Some _ => let all' := lk_Remove h all in Ok (all', pl_Removed all' 1 l)
    end
  | PoolEvict slots =>
    olet (drop, _, l') <- pl_Discard all slots l;
    Ok (foldl (fun all tx => lk_Remove (tx_Hash tx) all) all drop, l')
  | PoolBaseFee f => Ok (all, pl_SetBaseFee all f l)
  end.
Fixpoint pool_run (ops : list pool_op) (s : lookup_table * PricedList) : outcome (lookup_table * PricedList) :=
  match ops with
  | [] => Ok s
  | o :: ops' => olet s' <- pool_exec o s; pool_run ops' s'
  end.

Record pool_ok (s : lookup_table * PricedList) : Prop := {
  po_lookup : lk_ok s.1;
  po_priced : priced_ok s.2;
  po_evictable k tx : lk_txs s.1 !! k = Some tx -> tx ∈ entries s.2;
}.

Definition pool_op_ok (o : pool_op) : Prop := match o with PoolEvict slots => 0 <= slots | _ => True end.

Lemma lk_Remove_all drop all : lk_ok all -> let all' := foldl (fun all tx => lk_Remove (tx_Hash tx) all) all drop in
  lk_ok all' /\ forall k tx, lk_txs all' !! k = Some tx <-> lk_txs all !! k = Some tx /\ k ∉ tx_Hash <$> drop.
Proof.
  revert all. induction drop as [|d drop IH]; intros all Hok; simpl; [set_solver|].
  destruct (lk_Remove_ok (tx_Hash d) all Hok) as [Hok1 Heq]. destruct (IH _ Hok1) as [Hok2 H2]. split; [done|].
  intros h tx. rewrite H2, Heq, lookup_delete_Some. set_solver.
Qed.

Lemma evictable_reheap all l : lk_ok all -> pool_ok (all, pl_Reheap all l).
Proof.
  intros Hok. destruct (pl_Reheap_ok all l) as (H1 & _ & _ & H2 & _). split; [done|done|]. simpl. intros h tx Htx.
  rewrite H2. apply list_elem_of_fmap. exists (h, tx). split; [done|]. by apply elem_of_map_to_list.
Qed.

Lemma pool_exec_ok o s : pool_ok s -> pool_op_ok o -> exists s', pool_exec o s = Ok s' /\ pool_ok s'.
Proof.
  destruct s as [all l]. intros Hs Ho. pose proof Hs as [Hl Hp He]. simpl in Hl, Hp, He. destruct o as [tx|h|slots|f]; simpl.
  - destruct (stale all tx) eqn:Hst; [|by eexists]. eexists. split; [done|]. destruct (pl_Put_ok tx l Hp) as [Hp' Hent].
    assert (lk_Get (tx_Hash tx) all = None) by (unfold stale in Hst; by destruct (lk_Get _ _)).
    split; [by apply lk_Add_ok|done|]. simpl. intros h tx' [[_ <-]|[_ H']]%lookup_insert_Some; rewrite Hent; [by left|].
    right. by apply (He h).
  - destruct (lk_Get h all) eqn:Hg; [|by eexists]. eexists. split; [done|]. destruct (lk_Remove_ok h all Hl) as [Hl' Heq].
    unfold pl_Removed. case_match; [|by apply evictable_reheap]. split; [done|by destruct Hp; split|]. simpl. rewrite Heq.
    intros h' tx' [_ Htx]%lookup_delete_Some. by apply (He h').
  - destruct (pl_Discard_ok all slots l Ho Hp) as (drop & ok & l' & -> & Hp' & Hlive & _). simpl. eexists. split; [done|].
    destruct (lk_Remove_all drop all Hl) as [Hl' Hin]. split; [done|done|]. simpl. intros h tx [Htx Hnot]%Hin.
    assert (tx ∈ live all (entries l)) as Hx.
    { apply live_elem. split; [by apply (He h)|]. unfold stale, lk_Get. by rewrite (lk_hashed _ Hl _ _ Htx), Htx. }
    rewrite Hlive in Hx. apply elem_of_app in Hx as [Hx|Hx]; [|by apply live_elem in Hx as [? _]].
    destruct Hnot. rewrite <- (lk_hashed _ Hl _ _ Htx). by apply list_elem_of_fmap_2.
  - eexists. split; [done|]. by apply evictable_reheap.
Qed.

Lemma pool_run_ok ops s : pool_ok s -> Forall pool_op_ok ops -> exists s', pool_run ops s = Ok s' /\ pool_ok s'.
Proof.
  intros Hs Ho. revert s Hs. induction Ho as [|o ops Ho Hos IH]; intros s Hs; simpl; [by eexists|].
  destruct (pool_exec_ok o s Hs Ho) as (s1 & -> & Hs1). simpl. by apply IH.
Qed.

Lemma pool_new_ok : pool_ok (newLookup, newPricedList).
Proof.
  split; [apply lk_new_ok|split; intros c Hc; simpl in Hc; lia|]. simpl. intros h tx H. by rewrite lookup_empty in H.
Qed.

(** C27: Whatever transactions are added, removed or evicted and however the
    base fee moves, nothing panics and the pool's books agree: the slots counted
    are those of the pooled transactions, an account has a pending
    authorization exactly when a pooled transaction carries one, both heaps are
    ordered, and every pooled transaction can be evicted. *)
Theorem priced_pool_invariant ops : Forall pool_op_ok ops ->
  exists all l, pool_run ops (newLookup, newPricedList) = Ok (all, l) /\
    lk_slots all = slot_sum (map_to_list (lk_txs all)).*2 /\
    (forall a, hasAuth a all = true <-> exists k tx, lk_txs all !! k = Some tx /\ a ∈ SetCodeAuthorities tx) /\
    heap_ok (price_less (pl_baseFee l)) (pl_urgent l) /\ heap_ok (price_less None) (pl_floating l) /\
    forall k tx, lk_txs all !! k = Some tx -> tx_Hash tx = k /\ tx ∈ pl_urgent l ++ pl_floating l.
Proof.
  intros Ho. destruct (pool_run_ok ops _ pool_new_ok Ho) as ([all l] & Hrun & [Hl [Hu Hf] He]). simpl in *.
  exists all, l. split_and!; [done|apply Hl| |done|done|intros h tx Htx; split; [by apply Hl|by apply (He h)]].
  intros a. destruct (lk_tracked _ Hl a) as [_ Hin]. unfold tracked in Hin. unfold hasAuth.
  destruct (default [] (lk_auths all !! a)) as [|h hs]; simpl.
  - split; [done|]. intros (h & tx & H). exfalso. apply (not_elem_of_nil h), Hin. by exists tx.
  - split; [intros _|done]. exists h. apply Hin. by left.
Qed.

(** Every live transaction has one entry. *)
Definition one_entry_each all l : Prop :=
  NoDup (tx_Hash <$> live all (entries l)) /\ forall tx, tx ∈ live all (entries l) -> lk_txs all !! tx_Hash tx = Some tx.
(** The transactions that are evicted leave the table. *)
Definition evict all (drop : list Transaction) : lookup_table := foldl (fun all tx => lk_Remove (tx_Hash tx) all) all drop.

Lemma evict_slots all drop : NoDup (tx_Hash <$> drop) -> (forall tx, tx ∈ drop -> lk_txs all !! tx_Hash tx = Some tx) ->
  lk_slots (evict all drop) = lk_slots all - slot_sum drop.
Proof.
  revert all. induction drop as [|tx drop IH]; intros all Hnd Hin; [cbn; lia|]. apply NoDup_cons in Hnd as [Hn Hnd].
  cbn [evict foldl]. fold (evict (lk_Remove (tx_Hash tx) all) drop).
  pose proof (Hin tx (list_elem_of_here _ _)) as Htx. unfold lk_Remove at 1. rewrite Htx. rewrite IH; [|done|].
  { change (slot_sum (tx :: drop)) with (numSlots tx + slot_sum drop). cbn [lk_slots]. lia. }
  intros tx' Ht. cbn. rewrite lookup_delete_ne; [by apply Hin, list_elem_of_further|].
  intros Heq. apply Hn. rewrite Heq. by apply list_elem_of_fmap_2.
Qed.

(** C28: Eviction always returns. Counting heap entries of pooled transactions,
    it succeeds exactly when they hold the slots asked for: then the entries it
    takes out hold enough, none is taken without need, and the last one has the
    lowest fee of the floating heap. Otherwise it takes out nothing. No other
    entry is lost. When no transaction has two live entries, the transactions
    taken out are different and evicting them frees exactly their slots;
    [revived_entry_discarded_twice] is a pool in which one has two. *)
Theorem discard_makes_room all slots l : 0 <= slots -> priced_ok l ->
  exists drop l', pl_Discard all slots l = Ok (drop, slots <=? slot_sum (live all (entries l)), l') /\ priced_ok l' /\
    live all (entries l) ≡ₚ drop ++ live all (entries l') /\
    (if slots <=? slot_sum (live all (entries l)) then slots <= slot_sum drop else drop = []) /\
    (forall i x, drop = i ++ [x] -> slot_sum i < slots /\ forall y, y ∈ pl_floating l' -> le (price_less None) x y) /\
    (one_entry_each all l -> NoDup (tx_Hash <$> drop) /\ lk_slots (evict all drop) = lk_slots all - slot_sum drop).
Proof.
  intros Hs Hok. destruct (pl_Discard_ok all slots l Hs Hok) as (drop & ok & l' & Hrun & Hok' & Hlive & Hc & Hlast).
  exists drop, l'. assert ((slots <=? slot_sum (live all (entries l))) = ok) as ->.
  { assert (slot_sum (live all (entries l)) = slot_sum drop + slot_sum (live all (entries l'))) as Hsum
      by (by rewrite Hlive, slot_sum_app). pose proof (slot_sum_nonneg (live all (entries l'))).
    destruct ok; [|destruct Hc]; [apply Z.leb_le|apply Z.leb_gt]; lia. }
  split_and!; [done|done|done|by destruct ok; [|apply Hc]|done|]. intros [Hnd Hin].
  rewrite Hlive, fmap_app in Hnd. apply NoDup_app in Hnd as [Hnd _]. split; [done|]. apply evict_slots; [done|].
  intros tx Htx. apply Hin. rewrite Hlive. apply elem_of_app. by left.
Qed.

(** A transaction is underpriced exactly when some transaction is live and
    every live one of either heap pays no less by the measure of its heap. *)
Theorem underpriced_exact all tx l : priced_ok l ->
  exists l', pl_Underpriced all tx l = (bool_decide (live all (entries l) <> [] /\
      Forall (fun x => price_cmp (pl_baseFee l) x tx <> Lt) (live all (pl_urgent l)) /\
      Forall (fun x => price_cmp None x tx <> Lt) (live all (pl_floating l))), l') /\
    priced_ok l' /\ live all (entries l') ≡ₚ live all (entries l).
Proof.
  intros Hok. destruct (underpriced_spec all tx l Hok) as (u & l' & -> & Hok' & _ & Hlive & Hu). exists l'.
  split_and!; [|done|done]. f_equal. apply eq_true_iff_eq. rewrite Hu, bool_decide_eq_true, !Forall_forall. done.
Qed.
End priced_facts.

(** ** A pool of five transactions

    The hash of a transaction is its nonce in decimal; its size is its gas
    limit. *)

#[local] Instance ref_pool : PoolLibs := {|
  tx_Hash tx := pretty (tx_Nonce tx);
  tx_Size tx := tx_Gas tx;
  SetCodeAuthorities tx := if tx_Type tx =? 4 then [alice] else [];
|}.
#[local] Instance ref_price : PriceLibs := {| calcEffectiveGasTip tx f := Z.min (tx_GasTipCap tx) (u256w (tx_GasFeeCap tx - f)) |}.

Definition priced_tx (nonce cap tip : Z) : Transaction := MkTransaction 2 nonce 21000 cap tip (Some bob) 0 EmptyString [] [] EmptyString.
Definition priced_ops : list pool_op :=
  [PoolAdd (priced_tx 1 10 1); PoolAdd (priced_tx 2 12 2); PoolAdd (priced_tx 3 14 3); PoolAdd (priced_tx 4 16 4);
   PoolBaseFee (Some 7); PoolAdd (MkTransaction 4 5 40000 20 1 (Some bob) 0 EmptyString [] [] EmptyString)].
Definition priced_pool : lookup_table * PricedList :=
  match pool_run priced_ops (newLookup, newPricedList) with Ok s => s | _ => (newLookup, newPricedList) end.

Lemma priced_ops_ok : Forall pool_op_ok priced_ops.
Proof. repeat constructor. Qed.

Lemma priced_pool_ok : priced_ok priced_pool.2.
Proof.
  destruct (pool_run_ok priced_ops _ pool_new_ok priced_ops_ok) as (s & Hs & [_ Hok _]). unfold priced_pool. by rewrite Hs.
Qed.

Lemma priced_pool_entries : one_entry_each priced_pool.1 priced_pool.2.
Proof.
  split; [apply (bool_decide_unpack _); vm_compute; exact I|]. apply Forall_forall. vm_compute. repeat constructor.
Qed.

Lemma priced_pool_invariant_witness : lk_slots priced_pool.1 = 6 /\ hasAuth alice priced_pool.1 = true /\
  heap_ok (price_less (Some 7)) (pl_urgent priced_pool.2).
Proof.
  destruct (priced_pool_invariant priced_ops priced_ops_ok) as (all & l & Hrun & _ & _ & Hu & _).
  split; [vm_compute; reflexivity|]. split; [vm_compute; reflexivity|].
  assert ((all, l) = priced_pool) as <- by (unfold priced_pool; rewrite Hrun; reflexivity).
  assert (pl_baseFee l = Some 7) as <-; [|exact Hu].
  apply (f_equal (fun o => match o with Ok s => pl_baseFee s.2 | _ => None end)) in Hrun. simpl snd in Hrun.
  rewrite <- Hrun. vm_compute. reflexivity.
Defined.

Lemma discard_makes_room_witness : exists drop l', pl_Discard priced_pool.1 3 priced_pool.2 = Ok (drop, true, l') /\
  tx_Nonce <$> drop = [1; 5] /\ lk_slots (evict priced_pool.1 drop) = lk_slots priced_pool.1 - slot_sum drop.
Proof.
  destruct (discard_makes_room priced_pool.1 3 priced_pool.2 ltac:(lia) priced_pool_ok) as (drop & l' & Hrun & _ & _ & _ & _ & Hev).
  exists drop, l'. split; [rewrite Hrun; vm_compute; reflexivity|]. split; [|apply Hev, priced_pool_entries].
  apply (f_equal (fun o => match o with Ok r => tx_Nonce <$> r.1.1 | _ => [] end)) in Hrun. simpl fst in Hrun.
  rewrite <- Hrun. vm_compute. reflexivity.
Defined.

Lemma underpriced_exact_witness : (pl_Underpriced priced_pool.1 (priced_tx 9 10 1) priced_pool.2).1 = true.
Proof.
  destruct (underpriced_exact priced_pool.1 (priced_tx 9 10 1) priced_pool.2 priced_pool_ok) as (l' & -> & _).
  vm_compute. reflexivity.
Defined.

(** An entry that became stale is live again when its transaction comes back
    before the heaps are rebuilt, beside the new entry: eviction of two slots
    then returns the transaction twice and frees one. *)
Lemma revived_entry_discarded_twice :
  let run := pool_run [PoolAdd (priced_tx 1 10 1); PoolAdd (priced_tx 2 12 2); PoolAdd (priced_tx 3 14 3);
                       PoolAdd (priced_tx 4 16 4); PoolRemove (pretty 1); PoolAdd (priced_tx 1 10 1)] (newLookup, newPricedList) in
  exists all l, run = Ok (all, l) /\ lk_slots all = 4 /\
    match pl_Discard all 2 l with
    | Ok (drop, ok, _) => ok = true /\ tx_Nonce <$> drop = [1; 1] /\
        lk_slots (foldl (fun all tx => lk_Remove (tx_Hash tx) all) all drop) = 3
    | _ => False
    end.
Proof. eexists _, _. split; [vm_compute; reflexivity|]. vm_compute. done. Qed.
