(* ===== verification/TxOrder.v ===== *)
(** * mempool: the order in which a block takes transactions

    mempool/miner/ordering.go (the pending transactions of the accounts merged
    by price), mempool/cosmos_ordering.go (the same for Cosmos transactions by
    signer set) and mempool/iterator.go (both merged by fee). *)

From Stdlib Require Import ZArith Lia List String Bool.
From stdpp Require Import base gmap strings list.
From S2P Require Import Prelude GoStrings GoHeap Sdk AccessList StateDB EvmCoin FeeMarket EvmTx TxList.
Local Open Scope Z_scope.
Local Open Scope go_scope.

(** Transactions of the Cosmos SDK, as far as the mempool looks into them; the
    builder makes one out of an Ethereum message, its fees and its gas. *)
Class MempoolTx := {
  SdkTx : Type;
  as_FeeTx : SdkTx -> option (list Coin * Z);
  build_tx : MsgEthereumTx -> list Coin -> Z -> outcome SdkTx;
  GetSigners : SdkTx -> outcome (list (string * Z));
  ChooseNonce : Z -> SdkTx -> outcome Z;
  sort_coins : list Coin -> list Coin;
}.

Definition index_panic : string := "index out of range".

(** ** Heads and rests

    A set of transactions keeps the next transaction of every account in a heap
    and the others in a map. *)

Record head (K T : Type) := MkHead { hd_tx : T; hd_from : K; hd_fees : Z }.
Arguments MkHead {K T}.
Arguments hd_tx {K T}.
Arguments hd_from {K T}.
Arguments hd_fees {K T}.
#[export] Instance head_inhabited {K T} `{!Inhabited K, !Inhabited T} : Inhabited (head K T) :=
  populate (MkHead inhabitant inhabitant 0).

(** [ts_conf]: what the fees of a new head are computed with. *)
Record TxSet (P K T : Type) `{Countable K} := MkTxSet {
  ts_conf : P;
  ts_txs : gmap K (list T);
  ts_heads : list (head K T);
}.
Arguments MkTxSet {P K T _ _}.
Arguments ts_conf {P K T _ _}.
Arguments ts_txs {P K T _ _}.
Arguments ts_heads {P K T _ _}.

(** ** miner/ordering.go *)

Record LazyTransaction := MkLazyTransaction {
  lz_Hash : hash;
  lz_Tx : Transaction;
  lz_Time : Z;
  lz_GasFeeCap : Z;
  lz_GasTipCap : Z;
  lz_Gas : Z;
  lz_BlobGas : Z;
}.
#[export] Instance lazy_inhabited : Inhabited LazyTransaction := populate (MkLazyTransaction EmptyString inhabitant 0 0 0 0 0).

Definition newTxWithMinerFee (baseFee : option Z) (from : addr) (tx : LazyTransaction) : outcome (head addr LazyTransaction) :=
  match baseFee with
  | None => Ok (MkHead tx from (lz_GasTipCap tx))
  | Some f =>
    if lz_GasFeeCap tx <? f then Err "max fee per gas less than block base fee" else
    let tip := u256w (lz_GasFeeCap tx - f) in
    Ok (MkHead tx from (if lz_GasTipCap tx <? tip then lz_GasTipCap tx else tip))
  end.

Definition txByPriceAndTime_Less (a b : head addr LazyTransaction) : bool :=
  match Z.compare (hd_fees a) (hd_fees b) with
  | Eq => lz_Time (hd_tx a) <? lz_Time (hd_tx b)
  | Gt => true
  | Lt => false
  end.

Abbreviation EvmSet := (TxSet (option Z) addr LazyTransaction).

Section evm_order.
Context {Mr : MapRange}.

(** An account without transactions has no first one. *)
Definition new_head (s : outcome EvmSet) (e : addr * list LazyTransaction) : outcome EvmSet :=
  olet s <- s;
  match e.2 with
  | [] => Panic index_panic
  | tx :: rest =>
    match newTxWithMinerFee (ts_conf s) e.1 tx with
    | Ok wrapped => Ok (MkTxSet (ts_conf s) (<[e.1 := rest]> (ts_txs s)) (ts_heads s ++ [wrapped]))
    | Err _ => Ok (MkTxSet (ts_conf s) (delete e.1 (ts_txs s)) (ts_heads s))
    | Panic p => Panic p
    end
  end.
Definition MustFromBig (z : Z) : outcome Z := let (w, overflow) := uint256_FromBig z in if overflow then Panic "overflow" else Ok w.
Definition NewTransactionsByPriceAndNonce (txs : gmap addr (list LazyTransaction)) (baseFee : option Z) : outcome EvmSet :=
  olet baseFeeUint <- match baseFee with None => Ok None | Some f => olet w <- MustFromBig f; Ok (Some w) end;
  olet s <- foldl new_head (Ok (MkTxSet baseFeeUint txs [])) (go_range txs);
  Ok (MkTxSet baseFeeUint (ts_txs s) (heap_Init txByPriceAndTime_Less (ts_heads s))).

Definition evm_Peek (s : EvmSet) : option (LazyTransaction * Z) :=
  match ts_heads s with [] => None | h :: _ => Some (hd_tx h, hd_fees h) end.
Definition evm_Empty (s : EvmSet) : bool := match ts_heads s with [] => true | _ => false end.

Definition evm_Pop (s : EvmSet) : outcome EvmSet :=
  match heap_Pop txByPriceAndTime_Less (ts_heads s) with
  | None => Panic index_panic
  | Some (_, heads) => Ok (MkTxSet (ts_conf s) (ts_txs s) heads)
  end.
Definition evm_Shift (s : EvmSet) : outcome EvmSet :=
  match ts_heads s with
  | [] => Panic index_panic
  | h :: _ =>
    let acc := hd_from h in
    match ts_txs s !! acc with
    | Some (tx :: rest) =>
      match newTxWithMinerFee (ts_conf s) acc tx with
      | Ok wrapped =>
        Ok (MkTxSet (ts_conf s) (<[acc := rest]> (ts_txs s))
              (heap_Fix txByPriceAndTime_Less 0 (<[0%nat := wrapped]> (ts_heads s))))
      | _ => evm_Pop s
      end
    | _ => evm_Pop s
    end
  end.
End evm_order.

(** ** cosmos_ordering.go *)

(** The metadata that the store computes: signers and their nonces (absent when
    the transaction has none that can be read), their sum and the keys. *)
Record cosmosTxWithMetadata {Mp : MempoolTx} := MkCosmosTx {
  ct_tx : SdkTx;
  ct_nonceMap : gmap string Z;
  ct_nonceSum : Z;
  ct_signerKey : string;
  ct_txKey : string;
}.

Section cosmos_order.
Context {Mr : MapRange} {Mp : MempoolTx} `{!Inhabited SdkTx} {Ma : SdkMath}.
Abbreviation CosmosSet := (TxSet (string * option Z) string cosmosTxWithMetadata).
#[export] Instance cosmos_inhabited : Inhabited cosmosTxWithMetadata :=
  populate (MkCosmosTx _ inhabitant ∅ 0 EmptyString EmptyString).

Definition compareCosmosTxWithMetadata (a b : cosmosTxWithMetadata) : comparison :=
  match Z.compare (ct_nonceSum a) (ct_nonceSum b) with
  | Eq => String.compare (ct_txKey a) (ct_txKey b)
  | c => c
  end.

Definition cosmosTxByPriceAndNonce_Less (a b : head string cosmosTxWithMetadata) : bool :=
  match Z.compare (hd_fees a) (hd_fees b) with
  | Eq =>
    match String.compare (hd_from a) (hd_from b) with
    | Eq => bool_decide (compareCosmosTxWithMetadata (hd_tx a) (hd_tx b) = Lt)
    | Lt => true
    | Gt => false
    end
  | Gt => true
  | Lt => false
  end.

(** The last coin of the denomination counts. *)
Fixpoint bond_fee (denom : string) (fees : list Coin) (amount : Z) : Z :=
  match fees with
  | [] => amount
  | c :: l => bond_fee denom l (if String.eqb (Denom c) denom then Amount c else amount)
  end.
Definition extractCosmosEffectiveTip (bondDenom : string) (baseFee : option Z) (tx : SdkTx) : outcome Z :=
  match as_FeeTx tx with
  | None => Ok 0
  | Some (fees, gas) =>
    if gas =? 0 then Ok 0 else
    olet q <- Int_Quo (bond_fee bondDenom fees 0) gas;
    let (gasPrice, overflow) := uint256_FromBig q in
    if overflow then Ok 0 else
    match baseFee with
    | None => Ok gasPrice
    | Some f => if gasPrice <? f then Ok 0 else Ok (u256w (gasPrice - f))
    end
  end.

Definition cosmos_head (conf : string * option Z) (key : string) (t : cosmosTxWithMetadata)
    : outcome (head string cosmosTxWithMetadata) :=
  olet fee <- extractCosmosEffectiveTip conf.1 conf.2 (ct_tx t); Ok (MkHead t key fee).

Definition new_cosmos_head (s : outcome CosmosSet) (e : string * list cosmosTxWithMetadata) : outcome CosmosSet :=
  olet s <- s;
  match e.2 with
  | [] => Ok (MkTxSet (ts_conf s) (delete e.1 (ts_txs s)) (ts_heads s))
  | t :: rest =>
    olet h <- cosmos_head (ts_conf s) e.1 t;
    Ok (MkTxSet (ts_conf s) (<[e.1 := rest]> (ts_txs s)) (ts_heads s ++ [h]))
  end.
(** [None] is the nil iterator. *)
Definition NewCosmosTransactionsByPriceAndNonce (txs : gmap string (list cosmosTxWithMetadata)) (bondDenom : string)
    (baseFee : option Z) : outcome (option CosmosSet) :=
  olet s <- foldl new_cosmos_head (Ok (MkTxSet (bondDenom, baseFee) txs [])) (go_range txs);
  match ts_heads s with
  | [] => Ok None
  | _ => Ok (Some (MkTxSet (ts_conf s) (ts_txs s) (heap_Init cosmosTxByPriceAndNonce_Less (ts_heads s))))
  end.

Definition cosmos_Tx (s : CosmosSet) : option SdkTx :=
  match ts_heads s with [] => None | h :: _ => Some (ct_tx (hd_tx h)) end.

Definition some_set (s : CosmosSet) : option CosmosSet := match ts_heads s with [] => None | _ => Some s end.
Definition cosmos_Next (s : CosmosSet) : outcome (option CosmosSet) :=
  match ts_heads s with
  | [] => Ok None
  | h :: _ =>
    let key := hd_from h in
    match default [] (ts_txs s !! key) with
    | t :: rest =>
      olet h' <- cosmos_head (ts_conf s) key t;
      Ok (some_set (MkTxSet (ts_conf s) (<[key := rest]> (ts_txs s))
                      (heap_Fix cosmosTxByPriceAndNonce_Less 0 (<[0%nat := h']> (ts_heads s)))))
    | [] =>
      match heap_Pop cosmosTxByPriceAndNonce_Less (ts_heads s) with
      | None => Panic index_panic
      | Some (_, heads) => Ok (some_set (MkTxSet (ts_conf s) (ts_txs s) heads))
      end
    end
  end.
End cosmos_order.

(** ** iterator.go *)

Inductive nextAction := none | advance | skipAccount.

Section iterator.
Abbreviation CosmosSet := (TxSet (string * option Z) string cosmosTxWithMetadata).
Context {Mr : MapRange} {Mp : MempoolTx} `{!Inhabited SdkTx} {Ma : SdkMath} {Ty : SdkTypes} {Ge : TxLibs}.

(** What an iterator keeps of the chain. *)
Record IterConfig := MkIterConfig {
  ic_bondDenom : string;
  ic_baseFee : option Z;
  ic_signer : Signer;
  ic_coinInfo : option EvmCoinInfo;
}.

Record EVMMempoolIterator := MkIterator {
  it_evm : option EvmSet;
  it_cosmos : option CosmosSet;
  it_currentTx : option SdkTx;
  it_nextEVMAction : nextAction;
  it_nextCosmosAction : nextAction;
}.

(** *** x/vm/types/msg.go *)

Definition FromSignedEthereumTx (signer : Signer) (tx : Transaction) : outcome MsgEthereumTx :=
  olet from <- Sender signer tx; Ok (MkMsgEthereumTx from (Some tx)).

Definition ConvertCoinsDenomToExtendedDenomWithEvmParams (evmDenom extendedDenom : string) (coins : list Coin) : list Coin :=
  sort_coins (map (fun c => if String.eqb (Denom c) evmDenom then MkCoin extendedDenom (Amount c) else c) coins).

Definition BuildTx (info : option EvmCoinInfo) (evmDenom : string) (m : MsgEthereumTx) : outcome SdkTx :=
  olet extendedDenom <- GetEVMCoinExtendedDenom info;
  olet fee <- GetFee m;
  olet feeAmt <- NewIntFromBigInt fee;
  olet fees <- (if 0 <? feeAmt
                then olet c <- NewCoin evmDenom feeAmt;
                     Ok (ConvertCoinsDenomToExtendedDenomWithEvmParams evmDenom extendedDenom [c])
                else Ok []);
  olet t <- raw_tx m;
  build_tx m fees (tx_Gas t).

Definition convertEVMToSDKTx (c : IterConfig) (tx : LazyTransaction) : outcome SdkTx :=
  olet m <- owrap "converting signed evm transaction" (FromSignedEthereumTx (ic_signer c) (lz_Tx tx));
  owrap "building cosmos tx from evm tx" (BuildTx (ic_coinInfo c) (ic_bondDenom c) m).

(** *** The iterator *)

Definition shouldSelectEVMTx (evm : option (LazyTransaction * Z)) (cosmos : option (SdkTx * Z)) : bool :=
  match evm, cosmos with
  | None, _ => false
  | _, None => true
  | Some (_, evmFee), Some (_, cosmosFee) => if cosmosFee =? 0 then true else negb (evmFee <? cosmosFee)
  end.

Definition peekEVM (i : EVMMempoolIterator) : option (LazyTransaction * Z) :=
  match it_evm i with None => None | Some s => evm_Peek s end.
Definition peekCosmos (c : IterConfig) (i : EVMMempoolIterator) : outcome (option (SdkTx * Z)) :=
  match it_cosmos i with
  | None => Ok None
  | Some s =>
    match cosmos_Tx s with
    | None => Ok None
    | Some tx => olet tip <- extractCosmosEffectiveTip (ic_bondDenom c) (ic_baseFee c) tx; Ok (Some (tx, tip))
    end
  end.

Definition resolveCurrentTx (c : IterConfig) (i : EVMMempoolIterator) : outcome EVMMempoolIterator :=
  let evm := peekEVM i in
  olet cosmos <- peekCosmos c i;
  let fall_back (evmAction : nextAction) :=
    Ok (MkIterator (it_evm i) (it_cosmos i) (option_map fst cosmos) evmAction advance) in
  match evm, cosmos with
  | None, None => Ok (MkIterator (it_evm i) (it_cosmos i) None none none)
  | _, _ =>
    match evm with
    | Some (evmTx, _) =>
      if shouldSelectEVMTx evm cosmos then
        match convertEVMToSDKTx c evmTx with
        | Ok sdkTx => Ok (MkIterator (it_evm i) (it_cosmos i) (Some sdkTx) advance (it_nextCosmosAction i))
        | Err _ => fall_back skipAccount
        | Panic p => Panic p
        end
      else fall_back (it_nextEVMAction i)
    | None => fall_back (it_nextEVMAction i)
    end
  end.

Definition handleNextEVMAction (i : EVMMempoolIterator) : outcome EVMMempoolIterator :=
  olet evm <- match it_evm i, it_nextEVMAction i with
              | Some s, advance => olet s' <- evm_Shift s; Ok (Some s')
              | Some s, skipAccount => olet s' <- evm_Pop s; Ok (Some s')
              | evm, _ => Ok evm
              end;
  Ok (MkIterator evm (it_cosmos i) (it_currentTx i) none (it_nextCosmosAction i)).

Definition handleNextCosmosAction (i : EVMMempoolIterator) : outcome EVMMempoolIterator :=
  olet cosmos <- match it_cosmos i, it_nextCosmosAction i with
                 | Some s, advance => cosmos_Next s
                 | cosmos, _ => Ok cosmos
                 end;
  Ok (MkIterator (it_evm i) cosmos (it_currentTx i) (it_nextEVMAction i) none).

(** The base fee of the latest header, nil when it does not fit. *)
Definition currentBaseFee (header : option Header) : option Z :=
  match header with
  | None => None
  | Some h =>
    match hd_BaseFee h with
    | None => None
    | Some f => let (w, overflow) := uint256_FromBig f in if overflow then None else Some w
    end
  end.

Definition some_iterator (i : EVMMempoolIterator) : option EVMMempoolIterator :=
  match it_currentTx i with None => None | Some _ => Some i end.

Definition iterator_Next (c : IterConfig) (i : EVMMempoolIterator) : outcome (option EVMMempoolIterator) :=
  olet i1 <- handleNextEVMAction i;
  olet i2 <- handleNextCosmosAction i1;
  olet i3 <- resolveCurrentTx c i2;
  Ok (some_iterator i3).

Definition NewEVMMempoolIterator (c : IterConfig) (evm : option EvmSet)
    (cosmos : option CosmosSet) : outcome (option EVMMempoolIterator) :=
  let hasEVM := match evm with Some s => negb (evm_Empty s) | None => false end in
  let hasCosmos := match cosmos with Some s => bool_decide (is_Some (cosmos_Tx s)) | None => false end in
  if negb hasEVM && negb hasCosmos then Ok None else
  olet i <- resolveCurrentTx c (MkIterator evm cosmos None none none);
  Ok (some_iterator i).

(** The transactions that a caller sees: [Tx], then [Next] until nil. [None]:
    the fuel is used up. *)
Fixpoint iterate (fuel : nat) (c : IterConfig) (i : option EVMMempoolIterator) : outcome (option (list SdkTx)) :=
  match i with
  | None => Ok (Some [])
  | Some it =>
    match fuel with
    | O => Ok None
    | S fuel' =>
      olet i' <- iterator_Next c it;
      olet l <- iterate fuel' c i';
      Ok (option_map (app (option_list (it_currentTx it))) l)
    end
  end.
End iterator.
