(* ===== verification/TxOrderTheorems.v ===== *)
(** * The order of a block's transactions

    The EVM set and the Cosmos set give out every account's queue in order, a
    best head at each step; the iterator merges the two by fee. *)

From Stdlib Require Import ZArith Lia List String Bool.
From stdpp Require Import base gmap strings list.
From S2P Require Import Prelude GoStrings GoHeap Sdk TxList TxOrder AccessList StateDB EvmCoin FeeMarket EvmTx RefEnv FeeMarketTheorems VmRef EvmAnteTheorems.
Local Open Scope Z_scope.

(** ** Merging the queues of the accounts

    A heap of heads over a map of rests, whatever the heads are compared by: it
    gives out the queue of every account in its order, up to the first
    transaction without a fee, and takes a best head at every step. *)

(** ** Comparisons *)

(** A comparison that orders: [Lt] and [Gt] mirror each other, and being at most
    is transitive. *)
Class CmpOk {A} (c : A -> A -> comparison) : Prop := {
  cmp_opp x y : c y x = CompOpp (c x y);
  cmp_trans x y z : c x y <> Gt -> c y z <> Gt -> c x z <> Gt;
}.

Definition lex {A} (c d : A -> A -> comparison) (x y : A) : comparison := match c x y with Eq => d x y | r => r end.
Definition on {A B} (k : A -> B) (c : B -> B -> comparison) (x y : A) : comparison := c (k x) (k y).

Section comparisons.
Context {A : Type} (c d : A -> A -> comparison) `{!CmpOk c, !CmpOk d}.

Lemma cmp_eq_trans x y z : c x y = Eq -> c y z = Eq -> c x z = Eq.
Proof.
  intros H1 H2. destruct (c x z) eqn:E; [done| |].
  - apply (f_equal CompOpp) in H1, H2. rewrite <- cmp_opp in H1, H2. simpl in *.
    destruct (cmp_trans (c := c) z y x); [congruence..|]. by rewrite cmp_opp, E.
  - destruct (cmp_trans (c := c) x y z); congruence.
Qed.

Lemma cmp_lt_le x y z : c x y = Lt -> c y z <> Gt -> c x z = Lt.
Proof.
  intros H1 H2. destruct (c x z) eqn:E; [|done|].
  - assert (c y x <> Gt) as Hyx; [|rewrite cmp_opp, H1 in Hyx; done].
    apply (cmp_trans y z x); [done|]. rewrite cmp_opp, E. done.
  - destruct (cmp_trans (c := c) x y z); congruence.
Qed.

Lemma cmp_le_lt x y z : c x y <> Gt -> c y z = Lt -> c x z = Lt.
Proof.
  intros H1 H2. destruct (c x z) eqn:E; [|done|].
  - assert (c z y <> Gt) as Hzy; [|rewrite cmp_opp, H2 in Hzy; done].
    apply (cmp_trans z x y); [|done]. rewrite cmp_opp, E. done.
  - destruct (cmp_trans (c := c) x y z); congruence.
Qed.

#[export] Instance lex_ok : CmpOk (lex c d).
Proof.
  split.
  - intros x y. unfold lex. rewrite (cmp_opp (c := c)). destruct (c x y) eqn:E; simpl; [|done|done]. apply cmp_opp.
  - intros x y z. unfold lex. destruct (c x y) eqn:E1; [| |done]; destruct (c y z) eqn:E2; try done; intros H1 H2.
    + rewrite (cmp_eq_trans x y z) by done. by apply (cmp_trans x y z).
    + by rewrite (cmp_le_lt x y z) by congruence.
    + by rewrite (cmp_lt_le x y z) by congruence.
    + by rewrite (cmp_lt_le x y z) by congruence.
Qed.

#[export] Instance on_ok {B} (k : B -> A) : CmpOk (on k c).
Proof. split; intros; unfold on; [apply cmp_opp|eapply cmp_trans; eauto]. Qed.

Lemma flip_ok : CmpOk (fun x y => c y x).
Proof. split; intros; [apply cmp_opp|eapply cmp_trans; eauto]. Qed.

Lemma less_weak (less : A -> A -> bool) : (forall x y, less x y = true <-> c x y = Lt) -> StrictWeak less.
Proof.
  intros H. split; [intros x y|intros x y z]; rewrite <- ?not_true_iff_false, !H.
  - rewrite (cmp_opp (c := c) x y). destruct (c x y); done.
  - intros H1 H2 H3. apply H2. apply (cmp_lt_le z x y); [done|]. intros H4.
    apply H1. by rewrite cmp_opp, H4.
Qed.
End comparisons.

#[export] Instance Z_cmp_ok : CmpOk Z.compare.
Proof.
  split; [intros x y; apply Z.compare_antisym|]. intros x y z. rewrite !Z.compare_ngt_iff. lia.
Qed.
#[export] Instance string_cmp_ok : CmpOk String.compare.
Proof.
  assert (forall x y, String.compare x y <> Gt <-> str_le x y) as Hle.
  { intros x y. unfold str_le, String.leb. by destruct (String.compare x y). }
  split; [intros x y; apply String.compare_antisym|]. intros x y z. rewrite !Hle. apply str_le_trans.
Qed.

(** ** The merge *)

Section merge.
Context {K T : Type} `{Countable K} `{!Inhabited K, !Inhabited T} (less : head K T -> head K T -> bool) `{!StrictWeak less}.
Context (mk : K -> T -> option (head K T)).
Context (mk_fields : forall k t h, mk k t = Some h -> hd_from h = k /\ hd_tx h = t).
Implicit Types (es : list (K * list T)) (txs : gmap K (list T)) (heads : list (head K T)) (k : K) (t : T) (l : list (K * T)).

(** The next transaction of the account of the head, or none. *)
Definition pop_head txs heads : gmap K (list T) * list (head K T) :=
  (txs, match heap_Pop less heads with Some (_, heads') => heads' | None => [] end).
Definition shift txs heads : gmap K (list T) * list (head K T) :=
  match heads with
  | [] => (txs, [])
  | h :: _ =>
    match default [] (txs !! hd_from h) with
    | [] => pop_head txs heads
    | t :: rest =>
      match mk (hd_from h) t with
      | Some w => (<[hd_from h := rest]> txs, heap_Fix less 0 (<[0%nat := w]> heads))
      | None => pop_head txs heads
      end
    end
  end.

(** The transactions up to the first one without a fee. *)
Fixpoint payable k (l : list T) : list T :=
  match l with
  | [] => []
  | t :: l' => match mk k t with Some _ => t :: payable k l' | None => [] end
  end.

Definition queue txs (h : head K T) : list (K * T) :=
  (hd_from h, hd_tx h) :: map (fun t => (hd_from h, t)) (payable (hd_from h) (default [] (txs !! hd_from h))).
Definition pending txs heads : list (K * T) := flat_map (queue txs) heads.
Definition per k l : list (K * T) := List.filter (fun e => bool_decide (e.1 = k)) l.

Record merge_ok txs heads : Prop := {
  mo_heap : heap_ok less heads;
  mo_accounts : NoDup (hd_from <$> heads);
  mo_heads : Forall (fun h => mk (hd_from h) (hd_tx h) = Some h) heads;
}.

Lemma pending_cons txs h heads : pending txs (h :: heads) = queue txs h ++ pending txs heads.
Proof. done. Qed.

Lemma pending_snoc txs h heads : pending txs (heads ++ [h]) = pending txs heads ++ queue txs h.
Proof. unfold pending. rewrite flat_map_app. f_equal. apply app_nil_r. Qed.

Lemma per_cons k e l : per k (e :: l) = if bool_decide (e.1 = k) then e :: per k l else per k l.
Proof. done. Qed.

Lemma per_app k l l' : per k (l ++ l') = per k l ++ per k l'.
Proof. apply List.filter_app. Qed.

Lemma per_queue k txs h : per k (queue txs h) = if decide (hd_from h = k) then queue txs h else [].
Proof.
  unfold queue. generalize (payable (hd_from h) (default [] (txs !! hd_from h))). intros l. unfold per. simpl.
  destruct (decide (hd_from h = k)) as [E|E].
  - rewrite bool_decide_eq_true_2 by done. f_equal. induction l as [|t l IH]; simpl; [done|].
    rewrite bool_decide_eq_true_2 by done. by f_equal.
  - rewrite bool_decide_eq_false_2 by done. induction l as [|t l IH]; simpl; [done|]. by rewrite bool_decide_eq_false_2.
Qed.

Lemma per_none k txs heads : k ∉ hd_from <$> heads -> per k (pending txs heads) = [].
Proof.
  induction heads as [|h heads IH]; [done|]. rewrite fmap_cons, not_elem_of_cons. intros [Hk Hn].
  rewrite pending_cons, per_app, per_queue, IH by done. by rewrite decide_False.
Qed.

Lemma per_head txs heads h : NoDup (hd_from <$> heads) -> h ∈ heads -> per (hd_from h) (pending txs heads) = queue txs h.
Proof.
  intros Hnd Hin. induction heads as [|x heads IH]; [by apply not_elem_of_nil in Hin|].
  rewrite fmap_cons, NoDup_cons in Hnd. destruct Hnd as [Hx Hnd].
  rewrite pending_cons, per_app, per_queue.
  apply elem_of_cons in Hin as [->|Hin]; [rewrite decide_True, per_none by done; by rewrite app_nil_r|].
  rewrite decide_False; [by apply IH|]. intros E. apply Hx. rewrite E. by apply list_elem_of_fmap_2.
Qed.

Lemma per_account txs heads k : NoDup (hd_from <$> heads) ->
  (exists h, h ∈ heads /\ hd_from h = k /\ per k (pending txs heads) = queue txs h) \/
  (k ∉ hd_from <$> heads /\ per k (pending txs heads) = []).
Proof.
  intros Hnd. destruct (decide (k ∈ hd_from <$> heads)) as [Hk|Hk]; [left|right; split; [done|by apply per_none]].
  apply list_elem_of_fmap in Hk as (h & -> & Hh). exists h. split_and!; [done|done|by apply per_head].
Qed.

(** One step: the head leaves the queue of its account, the other queues stay. *)
Definition stepped txs h heads txs' heads' : Prop :=
  merge_ok txs' heads' /\
  per (hd_from h) (pending txs (h :: heads)) = (hd_from h, hd_tx h) :: per (hd_from h) (pending txs' heads') /\
  (forall k, k <> hd_from h -> per k (pending txs (h :: heads)) = per k (pending txs' heads')) /\
  pending txs (h :: heads) ≡ₚ (hd_from h, hd_tx h) :: pending txs' heads'.

Lemma pending_perm txs heads heads' : heads ≡ₚ heads' -> pending txs heads ≡ₚ pending txs heads'.
Proof.
  induction 1 as [|h l l' _ IH|h h' l|l1 l2 l3 _ IH1 _ IH2]; [done| | |by etrans].
  - rewrite !pending_cons. by apply Permutation_app_head.
  - rewrite !pending_cons. apply Permutation_app_swap_app.
Qed.

Lemma per_perm txs heads heads' k : heads ≡ₚ heads' -> NoDup (hd_from <$> heads) ->
  per k (pending txs heads) = per k (pending txs heads').
Proof.
  intros Hp Hnd. assert (NoDup (hd_from <$> heads')) as Hnd' by by rewrite <- Hp.
  destruct (per_account txs heads k Hnd) as [(h & Hh & <- & ->)|[Hk ->]]; symmetry.
  - apply per_head; [done|]. by rewrite <- Hp.
  - apply per_none. by rewrite <- Hp.
Qed.

Lemma queue_other txs h k v : hd_from h <> k -> queue (<[k := v]> txs) h = queue txs h.
Proof. intros Hne. unfold queue. by rewrite lookup_insert_ne. Qed.

Lemma pending_other txs heads k v : k ∉ hd_from <$> heads -> pending (<[k := v]> txs) heads = pending txs heads.
Proof.
  induction heads as [|h heads IH]; [done|]. rewrite fmap_cons, not_elem_of_cons. intros [Hk Hn].
  rewrite !pending_cons, IH by done. by rewrite queue_other.
Qed.

Lemma stepped_intro txs h heads txs' hs heads' : merge_ok txs' heads' -> heads' ≡ₚ hs ->
  pending txs (h :: heads) = (hd_from h, hd_tx h) :: pending txs' hs -> stepped txs h heads txs' heads'.
Proof.
  intros Hok Hp Heq. pose proof (mo_accounts _ _ Hok) as Hnd. unfold stepped. rewrite Heq.
  split_and!; [done| | |by rewrite (pending_perm txs' heads' hs)].
  - rewrite per_cons, bool_decide_eq_true_2 by done. f_equal. symmetry. by apply per_perm.
  - intros k Hk. rewrite per_cons, bool_decide_eq_false_2 by (by apply not_eq_sym). symmetry. by apply per_perm.
Qed.

Lemma pop_stepped txs h heads : merge_ok txs (h :: heads) -> payable (hd_from h) (default [] (txs !! hd_from h)) = [] ->
  stepped txs h heads (pop_head txs (h :: heads)).1 (pop_head txs (h :: heads)).2.
Proof.
  intros [Hh Hnd Hhd] Hq. unfold pop_head. destruct (heap_Pop_spec less h heads Hh) as (heads' & -> & Hh' & Hp). simpl.
  apply (stepped_intro _ _ _ _ heads); [|done|rewrite pending_cons; unfold queue; by rewrite Hq].
  rewrite fmap_cons, NoDup_cons in Hnd. apply Forall_cons in Hhd as [_ Hhd]. destruct Hnd as [_ Hnd].
  split; [done|by rewrite Hp|by rewrite Hp].
Qed.

Lemma shift_stepped txs h heads : merge_ok txs (h :: heads) ->
  stepped txs h heads (shift txs (h :: heads)).1 (shift txs (h :: heads)).2.
Proof.
  intros Hok. unfold shift. destruct (default [] (txs !! hd_from h)) as [|t rest] eqn:Hq.
  { apply pop_stepped; [done|by rewrite Hq]. }
  destruct (mk (hd_from h) t) as [w|] eqn:Hw; [|apply pop_stepped; [done|by rewrite Hq; simpl; rewrite Hw]].
  destruct (mk_fields _ _ _ Hw) as [Hfrom Htx]. destruct Hok as [Hh Hnd Hhd].
  destruct (heap_Fix_spec less 0 (<[0%nat := w]> (h :: heads))) as [Hh' Hp];
    [simpl; lia|apply (insert_fix_pre less 0 w (h :: heads) Hh); simpl; lia|]. cbn [fst snd].
  change (<[0%nat := w]> (h :: heads)) with (w :: heads) in *.
  rewrite fmap_cons, NoDup_cons in Hnd. destruct Hnd as [Hn Hnd].
  apply (stepped_intro _ _ _ _ (w :: heads)); [|done|].
  - split; [done| |]; rewrite Hp; [rewrite fmap_cons, Hfrom; by constructor|].
    apply Forall_cons in Hhd as [_ Hhd]. constructor; [by rewrite Hfrom, Htx|done].
  - rewrite !pending_cons, pending_other by done. unfold queue. rewrite Hfrom, Htx, lookup_insert_eq, Hq. simpl. by rewrite Hw.
Qed.

(** Everything that the steps give out. *)
Fixpoint drain (fuel : nat) txs heads : list (K * T) :=
  match fuel, heads with
  | S fuel', h :: _ => let s := shift txs heads in (hd_from h, hd_tx h) :: drain fuel' s.1 s.2
  | _, _ => []
  end.

(** At every step no waiting head of another account goes before. *)
Definition greedy l : Prop := forall l1 e l2, l = l1 ++ e :: l2 ->
  forall e' h h', e'.1 <> e.1 -> hd_error (per e'.1 l2) = Some e' -> mk e.1 e.2 = Some h -> mk e'.1 e'.2 = Some h' -> le less h h'.

Lemma drain_spec fuel txs heads : merge_ok txs heads -> (length (pending txs heads) <= fuel)%nat ->
  (forall k, per k (drain fuel txs heads) = per k (pending txs heads)) /\
  drain fuel txs heads ≡ₚ pending txs heads /\ greedy (drain fuel txs heads).
Proof.
  revert txs heads. induction fuel as [|fuel IH]; intros txs [|h heads] Hok Hl.
  1, 3: by split_and!; [| |intros [] ? ? ?].
  { simpl in Hl. lia. }
  pose proof (shift_stepped txs h heads Hok) as (Hok' & Hself & Hother & Hp). cbn [drain]. destruct (shift txs (h :: heads)) as [txs' heads'].
  cbn [fst snd] in *. destruct (IH txs' heads' Hok') as (H1 & H2 & H3); [rewrite Hp in Hl; simpl in Hl; lia|]. split_and!.
  - intros k. rewrite per_cons, H1. cbn [fst]. case_bool_decide as Hk; [subst k; by rewrite Hself|]. symmetry. by apply Hother, not_eq_sym.
  - by rewrite Hp, H2.
  - intros [|e1 l1] e l2 E e' w w' Hne Hhd Hw Hw'; injection E as E1 E2; [|by eapply (H3 l1 e l2)]. subst e l2. cbn [fst snd] in *.
    pose proof (mo_heads _ _ Hok) as Hhds. apply Forall_cons in Hhds as [Hh _]. rewrite Hh in Hw. injection Hw as <-.
    rewrite H1, <- Hother in Hhd by done.
    destruct (per_account txs (h :: heads) e'.1 (mo_accounts _ _ Hok)) as [(x & Hx & Hfx & E)|[_ E]]; [|by rewrite E in Hhd].
    rewrite E in Hhd. injection Hhd as <-. cbn [fst snd] in *. pose proof (mo_heads _ _ Hok) as Hhds.
    rewrite Forall_forall in Hhds. rewrite (Hhds x Hx) in Hw'. injection Hw' as <-. by apply (heap_min_elem less h heads), Hx; apply Hok.
Qed.

(** *** The first heads *)

Definition fill_one (s : gmap K (list T) * list (head K T)) (e : K * list T) : gmap K (list T) * list (head K T) :=
  match e.2 with
  | [] => (delete e.1 s.1, s.2)
  | t :: rest =>
    match mk e.1 t with
    | Some h => (<[e.1 := rest]> s.1, s.2 ++ [h])
    | None => (delete e.1 s.1, s.2)
    end
  end.

Record filling (es : list (K * list T)) txs heads : Prop := {
  fi_keys : NoDup es.*1;
  fi_new k : k ∈ es.*1 -> k ∉ hd_from <$> heads;
  fi_entries k v : (k, v) ∈ es -> txs !! k = Some v;
  fi_accounts : NoDup (hd_from <$> heads);
  fi_heads : Forall (fun h => mk (hd_from h) (hd_tx h) = Some h) heads;
}.

Lemma pending_ext txs txs' heads : (forall h, h ∈ heads -> txs !! hd_from h = txs' !! hd_from h) ->
  pending txs heads = pending txs' heads.
Proof.
  induction heads as [|h heads IH]; intros Heq; [done|]. rewrite !pending_cons, IH by set_solver. unfold queue. by rewrite Heq by set_solver.
Qed.

Lemma fill_one_spec k v es txs heads : filling ((k, v) :: es) txs heads -> let s := fill_one (txs, heads) (k, v) in
  filling es s.1 s.2 /\ forall k', per k' (pending s.1 s.2) =
    if decide (k' = k) then map (fun t => (k, t)) (payable k v) else per k' (pending txs heads).
Proof.
  intros [Hk Hn He Ha Hh]. rewrite fmap_cons, NoDup_cons in Hk. destruct Hk as [Hnew Hk]. cbn [fst] in Hnew.
  assert (k ∉ hd_from <$> heads) as Hkh by (apply Hn; by left).
  assert (forall k0 v0, (k0, v0) ∈ es -> k0 <> k) as Hne.
  { intros k0 v0 Hin ->. apply Hnew. by apply (list_elem_of_fmap_2 fst _ (k, v0)). }
  assert (forall h, h ∈ heads -> hd_from h <> k) as Hhk.
  { intros h Hin <-. apply Hkh. by apply list_elem_of_fmap_2. }
  assert (payable k v = [] -> let s := (delete k txs, heads) in filling es s.1 s.2 /\ forall k', per k' (pending s.1 s.2) =
    if decide (k' = k) then map (fun t => (k, t)) (payable k v) else per k' (pending txs heads)) as Hdel.
  { intros Hp. cbn [fst snd]. split; [split; try done|].
    - intros k0 Hin. apply Hn. by right.
    - intros k0 v0 Hin. rewrite lookup_delete_ne by (apply not_eq_sym; by eapply Hne). apply He. by right.
    - intros k'. rewrite (pending_ext _ txs) by (intros h Hin; apply lookup_delete_ne, not_eq_sym; by apply Hhk).
      case_decide as E; [|done]. subst k'. by rewrite Hp, per_none. }
  unfold fill_one. cbn [fst snd]. destruct v as [|t rest]; [by apply Hdel|].
  destruct (mk k t) as [h|] eqn:Hmk; [|apply Hdel; simpl; by rewrite Hmk].
  destruct (mk_fields _ _ _ Hmk) as [Hf Ht]. cbn [fst snd]. split; [split; [done| | | |]|].
  - intros k0 Hin. rewrite fmap_app. change (hd_from <$> [h]) with [hd_from h]. rewrite elem_of_app, list_elem_of_singleton, Hf. intros [Hx|Hx]; [by apply (Hn k0); [right|]|by subst k0].
  - intros k0 v0 Hin. rewrite lookup_insert_ne by (apply not_eq_sym; by eapply Hne). apply He. by right.
  - rewrite fmap_app. change (hd_from <$> [h]) with [hd_from h]. rewrite NoDup_app. split_and!; [done| |apply NoDup_singleton]. intros x Hx ->%list_elem_of_singleton. by rewrite Hf in Hx.
  - apply Forall_app. split; [done|]. constructor; [|done]. by rewrite Hf, Ht.
  - intros k'. rewrite pending_snoc, per_app, per_queue, Hf.
    rewrite pending_other by done. destruct (decide (k = k')) as [<-|Hkk].
    + rewrite decide_True, per_none by done. simpl. unfold queue. rewrite Hf, Ht, lookup_insert_eq. simpl. by rewrite Hmk.
    + rewrite decide_False by (by apply not_eq_sym). by rewrite app_nil_r.
Qed.

Lemma fill_spec es txs heads : filling es txs heads -> let s := foldl fill_one (txs, heads) es in
  filling [] s.1 s.2 /\ forall k, per k (pending s.1 s.2) =
    match list_find (fun e => e.1 = k) es with
    | Some (_, e) => map (fun t => (k, t)) (payable k e.2)
    | None => per k (pending txs heads)
    end.
Proof.
  revert txs heads. induction es as [|[k v] es IH]; intros txs heads Hf; [by split|]. cbn [foldl].
  destruct (fill_one_spec k v es txs heads Hf) as [Hf1 H1]. destruct (fill_one (txs, heads) (k, v)) as [txs1 heads1].
  cbn [fst snd] in *. destruct (IH txs1 heads1 Hf1) as [Hf2 H2]. split; [done|]. intros k'. rewrite H2. cbn [list_find].
  destruct (decide (k = k')) as [<-|Hne]; simpl.
  - destruct (list_find (fun e => e.1 = k) es) as [[i e]|] eqn:Hfind; simpl.
    + apply list_find_Some in Hfind as (Hi & Hek & _). destruct Hf as [Hk _ _ _ _]. rewrite fmap_cons, NoDup_cons in Hk.
      destruct Hk as [Hk _]. destruct Hk. apply list_elem_of_lookup_2 in Hi. cbn [fst]. rewrite <- Hek. by apply (list_elem_of_fmap_2 fst).
    + rewrite H1. rewrite !decide_True by done. done.
  - rewrite H1. rewrite (decide_False (P := k = k')), (decide_False (P := k' = k)) by congruence.
    by destruct (list_find _ es) as [[i e]|].
Qed.

Lemma fill_all txs es : es ≡ₚ map_to_list txs -> let s := foldl fill_one (txs, []) es in
  merge_ok s.1 (heap_Init less s.2) /\
  forall k, per k (pending s.1 (heap_Init less s.2)) = map (fun t => (k, t)) (payable k (default [] (txs !! k))).
Proof.
  intros Hp. destruct (fill_spec es txs []) as [[_ _ _ Ha Hh] Hper].
  { split; [rewrite Hp; apply NoDup_fst_map_to_list|by intros ? _ ?%not_elem_of_nil| |constructor|constructor].
    intros k v Hin. rewrite Hp in Hin. by apply elem_of_map_to_list in Hin. }
  destruct (foldl fill_one (txs, []) es) as [txs' heads]. cbn [fst snd] in *.
  destruct (heap_Init_spec less heads) as [H1 H2]. split; [split; [done|by rewrite H2|by rewrite H2]|].
  intros k. rewrite <- (per_perm txs' heads) by done. rewrite Hper.
  destruct (list_find (fun e => e.1 = k) es) as [[i e]|] eqn:Hfind.
  - apply list_find_Some in Hfind as (Hi & Hek & _). apply list_elem_of_lookup_2 in Hi. rewrite Hp in Hi. destruct e as [k' v].
    apply elem_of_map_to_list in Hi. simpl in *. subst k'. by rewrite Hi.
  - destruct (txs !! k) as [v|] eqn:Hk; [|done]. apply list_find_None in Hfind. rewrite Forall_forall in Hfind.
    destruct (Hfind (k, v)); [|done]. rewrite Hp. by apply elem_of_map_to_list.
Qed.
End merge.

Local Open Scope go_scope.

(** ** The EVM set *)

Definition evm_cmp : head addr LazyTransaction -> head addr LazyTransaction -> comparison :=
  lex (fun x y => on hd_fees Z.compare y x) (on (fun h => lz_Time (hd_tx h)) Z.compare).

#[export] Instance evm_cmp_ok : CmpOk evm_cmp.
Proof. apply lex_ok; [apply flip_ok|]; apply _. Qed.
#[export] Instance evm_less_weak : StrictWeak txByPriceAndTime_Less.
Proof.
  apply (less_weak evm_cmp). intros x y. unfold txByPriceAndTime_Less, evm_cmp, lex, on. rewrite (Z.compare_antisym (hd_fees x) (hd_fees y)).
  destruct (hd_fees x ?= hd_fees y); simpl; [|done|done]. by rewrite Z.ltb_lt, Z.compare_lt_iff.
Qed.

Definition evm_mk (conf : option Z) (k : addr) (t : LazyTransaction) : option (head addr LazyTransaction) :=
  match newTxWithMinerFee conf k t with Ok h => Some h | _ => None end.

Lemma evm_mk_fields conf k t h : evm_mk conf k t = Some h -> hd_from h = k /\ hd_tx h = t.
Proof. unfold evm_mk, newTxWithMinerFee. destruct conf as [f|]; [destruct (_ <? f)|]; intros [= <-]; done. Qed.

Definition covered (conf : option Z) (t : LazyTransaction) : bool :=
  match conf with None => true | Some f => f <=? lz_GasFeeCap t end.
Fixpoint take_while {A} (f : A -> bool) (l : list A) : list A :=
  match l with
  | [] => []
  | x :: l' => if f x then x :: take_while f l' else []
  end.

Lemma evm_payable conf k l : payable (evm_mk conf) k l = take_while (covered conf) l.
Proof.
  induction l as [|t l IH]; simpl; [done|]. rewrite IH. unfold evm_mk, newTxWithMinerFee, covered. destruct conf as [f|]; [|done].
  rewrite Z.ltb_antisym. by destruct (f <=? lz_GasFeeCap t).
Qed.

Section evm.
Context {Mr : MapRange}.
Implicit Types (s : EvmSet).

Abbreviation evm_pending s := (pending (evm_mk (ts_conf s)) (ts_txs s) (ts_heads s)).
Abbreviation evm_ok s := (merge_ok txByPriceAndTime_Less (evm_mk (ts_conf s)) (ts_txs s) (ts_heads s)).

Definition evm_next s : EvmSet :=
  let r := shift txByPriceAndTime_Less (evm_mk (ts_conf s)) (ts_txs s) (ts_heads s) in MkTxSet (ts_conf s) r.1 r.2.

Lemma evm_Pop_run s h l : heap_ok txByPriceAndTime_Less (h :: l) -> ts_heads s = h :: l ->
  evm_Pop s = Ok (let r := pop_head txByPriceAndTime_Less (ts_txs s) (h :: l) in MkTxSet (ts_conf s) r.1 r.2).
Proof.
  intros Hh Hs. unfold evm_Pop, pop_head. rewrite Hs. by destruct (heap_Pop_spec txByPriceAndTime_Less h l Hh) as (l' & -> & _).
Qed.

Lemma evm_Shift_run s h l : evm_ok s -> ts_heads s = h :: l -> evm_Shift s = Ok (evm_next s).
Proof.
  intros [Hh _ _] Hs. unfold evm_Shift, evm_next, shift. rewrite Hs in *. pose proof (evm_Pop_run s h l Hh Hs) as Hpop.
  destruct (ts_txs s !! hd_from h) as [[|t rest]|]; simpl; [done| |done]. unfold evm_mk.
  destruct (newTxWithMinerFee (ts_conf s) (hd_from h) t); [done|done|done].
Qed.

Lemma new_head_one conf e txs heads : e.2 <> [] -> new_head (Ok (MkTxSet conf txs heads)) e =
  Ok (MkTxSet conf (fill_one (evm_mk conf) (txs, heads) e).1 (fill_one (evm_mk conf) (txs, heads) e).2).
Proof.
  destruct e as [k [|t rest]]; [done|]. intros _. unfold new_head, fill_one, evm_mk, newTxWithMinerFee. simpl.
  destruct conf as [f|]; [|done]. by destruct (_ <? f).
Qed.

Lemma new_head_run conf l txs heads : Forall (fun e => e.2 <> []) l ->
  foldl new_head (Ok (MkTxSet conf txs heads)) l =
  Ok (MkTxSet conf (foldl (fill_one (evm_mk conf)) (txs, heads) l).1 (foldl (fill_one (evm_mk conf)) (txs, heads) l).2).
Proof.
  intros Hl. revert txs heads. induction Hl as [|e l Hv _ IH]; intros txs heads; [done|]. cbn [foldl].
  rewrite new_head_one, IH by done. by rewrite <- surjective_pairing.
Qed.

(** Every transaction that a caller reads with [Peek] and [Shift]; [None] when
    the fuel is used up. *)
Fixpoint evm_all (fuel : nat) s : outcome (option (list (addr * LazyTransaction))) :=
  match ts_heads s with
  | [] => Ok (Some [])
  | h :: _ =>
    match fuel with
    | O => Ok None
    | S fuel' =>
      olet s' <- evm_Shift s;
      olet l <- evm_all fuel' s';
      Ok (option_map (cons (hd_from h, hd_tx h)) l)
    end
  end.

Lemma evm_next_stepped s h l : evm_ok s -> ts_heads s = h :: l -> evm_ok (evm_next s) /\
  length (evm_pending s) = S (length (evm_pending (evm_next s))).
Proof.
  intros Hok Hs. rewrite Hs in *. destruct (shift_stepped txByPriceAndTime_Less (evm_mk (ts_conf s)) (evm_mk_fields _) (ts_txs s) h l Hok)
    as (Hok' & _ & _ & Hp). unfold evm_next. rewrite Hs. split; [done|]. by rewrite Hp.
Qed.

Abbreviation evm_drain n s := (drain txByPriceAndTime_Less (evm_mk (ts_conf s)) n (ts_txs s) (ts_heads s)).

Lemma evm_all_run fuel s : evm_ok s -> (length (evm_pending s) <= fuel)%nat -> evm_all fuel s = Ok (Some (evm_drain fuel s)).
Proof.
  revert s. induction fuel as [|fuel IH]; intros s Hok Hl; cbn [evm_all]; destruct (ts_heads s) as [|h l] eqn:Hs; try done.
  { simpl in Hl. lia. }
  assert (evm_ok s) as Hok1 by by rewrite Hs. rewrite (evm_Shift_run s h l Hok1 Hs). cbn [obind].
  destruct (evm_next_stepped s h l Hok1 Hs) as [Hok2 Hlen]. rewrite IH; [|done|rewrite Hs in Hlen; lia].
  simpl. do 3 f_equal. unfold evm_next. by rewrite Hs.
Qed.

Lemma MustFromBig_fits z : 0 <= z < two256 -> MustFromBig z = Ok z.
Proof.
  unfold MustFromBig, uint256_FromBig, u256w. intros Hz. rewrite Z.mod_small by lia.
  destruct (two256 <=? Z.abs z) eqn:E; zify_bool; [lia|done].
Qed.

(** The fee of a head and the time of its transaction decide. *)
Lemma evm_le (h h' : head addr LazyTransaction) : le txByPriceAndTime_Less h h' ->
  hd_fees h' < hd_fees h \/ (hd_fees h' = hd_fees h /\ lz_Time (hd_tx h) <= lz_Time (hd_tx h')).
Proof.
  unfold le, txByPriceAndTime_Less. destruct (Z.compare_spec (hd_fees h') (hd_fees h)); [|by left|done].
  intros E. zify_bool. by right.
Qed.

Lemma evm_new_run txs f : (forall k l, txs !! k = Some l -> l <> []) -> (match f with Some z => 0 <= z < two256 | None => True end) ->
  exists s, NewTransactionsByPriceAndNonce txs f = Ok s /\ ts_conf s = f /\ evm_ok s /\
    forall k, per k (evm_pending s) = map (fun t => (k, t)) (take_while (covered f) (default [] (txs !! k))).
Proof.
  intros Hne Hf. assert (match f with None => Ok None | Some f => olet w <- MustFromBig f; Ok (Some w) end = Ok f) as Hconf.
  { destruct f as [z|]; [|done]. by rewrite MustFromBig_fits. }
  unfold NewTransactionsByPriceAndNonce. rewrite Hconf. cbn [obind]. rewrite new_head_run.
  2: { apply Forall_forall. intros [k l] Hin. rewrite go_range_perm in Hin. apply elem_of_map_to_list in Hin. by apply (Hne k). }
  cbn [obind]. eexists. split; [done|]. cbn [ts_conf ts_txs ts_heads]. split; [done|].
  destruct (fill_all txByPriceAndTime_Less (evm_mk f) (evm_mk_fields f) txs (go_range txs) (go_range_perm txs)) as [H1 H2].
  split; [done|]. intros k. by rewrite H2, evm_payable.
Qed.

(** C29: The EVM transactions of a block: reading the set with [Peek] and
    [Shift] until it is empty ends and gives, of every account, its transactions
    in order up to the first whose fee cap is below the base fee; and no
    transaction is given while the next one of another account pays a higher
    tip, or the same and came earlier. *)
Theorem evm_order_exact txs f : (forall k l, txs !! k = Some l -> l <> []) ->
  (match f with Some z => 0 <= z < two256 | None => True end) ->
  exists s fuel l, NewTransactionsByPriceAndNonce txs f = Ok s /\ evm_all fuel s = Ok (Some l) /\
    (forall k, per k l = map (fun t => (k, t)) (take_while (covered f) (default [] (txs !! k)))) /\
    forall l1 k t l2 k' t' h h', l = l1 ++ (k, t) :: l2 -> k' <> k -> hd_error (per k' l2) = Some (k', t') ->
      newTxWithMinerFee f k t = Ok h -> newTxWithMinerFee f k' t' = Ok h' ->
      hd_fees h' < hd_fees h \/ (hd_fees h' = hd_fees h /\ lz_Time t <= lz_Time t').
Proof.
  intros Hne Hf. destruct (evm_new_run txs f Hne Hf) as (s & Hs & Hc & Hok & Hper).
  destruct (drain_spec txByPriceAndTime_Less (evm_mk (ts_conf s)) (evm_mk_fields _) (length (evm_pending s)) (ts_txs s) (ts_heads s) Hok)
    as (H1 & _ & H3); [done|].
  eexists s, _, _. split; [done|]. split; [by apply evm_all_run|]. split; [intros k; by rewrite H1|].
  intros l1 k t l2 k' t' h h' El Hk Hhd Hh Hh'. rewrite Hc in *.
  assert (evm_mk f k t = Some h) as Hm by (unfold evm_mk; by rewrite Hh).
  assert (evm_mk f k' t' = Some h') as Hm' by (unfold evm_mk; by rewrite Hh').
  destruct (evm_mk_fields _ _ _ _ Hm) as [_ <-]. destruct (evm_mk_fields _ _ _ _ Hm') as [_ <-].
  apply evm_le. by eapply (H3 l1 (k, _) l2 El (k', _)).
Qed.
End evm.

(** ** The Cosmos set *)

Section cosmos.
Context {Mr : MapRange} {Mp : MempoolTx} `{!Inhabited SdkTx} {Ma : SdkMath}.
Abbreviation CosmosSet := (TxSet (string * option Z) string cosmosTxWithMetadata).
Implicit Types (s : CosmosSet).

Definition cosmos_cmp : head string cosmosTxWithMetadata -> head string cosmosTxWithMetadata -> comparison :=
  lex (fun x y => on hd_fees Z.compare y x) (lex (on hd_from String.compare)
    (lex (on (fun h => ct_nonceSum (hd_tx h)) Z.compare) (on (fun h => ct_txKey (hd_tx h)) String.compare))).

#[export] Instance cosmos_cmp_ok : CmpOk cosmos_cmp.
Proof. apply lex_ok; [apply flip_ok; apply _|]. apply lex_ok; [apply _|]. apply lex_ok; apply _. Qed.
#[export] Instance cosmos_less_weak : StrictWeak cosmosTxByPriceAndNonce_Less.
Proof.
  apply (less_weak cosmos_cmp). intros x y.
  unfold cosmosTxByPriceAndNonce_Less, cosmos_cmp, lex, on, compareCosmosTxWithMetadata. rewrite (Z.compare_antisym (hd_fees x) (hd_fees y)).
  destruct (hd_fees x ?= hd_fees y); simpl; [|done|done]. destruct (String.compare (hd_from x) (hd_from y)); [|done|done].
  rewrite bool_decide_eq_true. by destruct (ct_nonceSum (hd_tx x) ?= ct_nonceSum (hd_tx y)).
Qed.

Definition cosmos_mk (conf : string * option Z) (k : string) (t : cosmosTxWithMetadata) : option (head string cosmosTxWithMetadata) :=
  match cosmos_head conf k t with Ok h => Some h | _ => None end.

Lemma tip_runs denom f tx : exists z, extractCosmosEffectiveTip denom f tx = Ok z.
Proof.
  unfold extractCosmosEffectiveTip. destruct (as_FeeTx tx) as [[fees gas]|]; [|by eexists].
  destruct (gas =? 0) eqn:E; [by eexists|]. rewrite Int_Quo_spec, E. cbn [obind]. destruct (uint256_FromBig _) as [p []]; [by eexists|].
  destruct f as [f|]; [|by eexists]. by destruct (p <? f); eexists.
Qed.

Lemma cosmos_mk_runs conf k t : exists h, cosmos_head conf k t = Ok h /\ cosmos_mk conf k t = Some h.
Proof. unfold cosmos_mk, cosmos_head. destruct (tip_runs conf.1 conf.2 (ct_tx t)) as [z ->]. by eexists. Qed.

Lemma cosmos_mk_fields conf k t h : cosmos_mk conf k t = Some h -> hd_from h = k /\ hd_tx h = t.
Proof. unfold cosmos_mk, cosmos_head. destruct (tip_runs conf.1 conf.2 (ct_tx t)) as [z ->]. by intros [= <-]. Qed.

Lemma cosmos_payable conf k l : payable (cosmos_mk conf) k l = l.
Proof. induction l as [|t l IH]; simpl; [done|]. destruct (cosmos_mk_runs conf k t) as (h & _ & ->). by rewrite IH. Qed.

Abbreviation cosmos_pending s := (pending (cosmos_mk (ts_conf s)) (ts_txs s) (ts_heads s)).
Abbreviation cosmos_ok s := (merge_ok cosmosTxByPriceAndNonce_Less (cosmos_mk (ts_conf s)) (ts_txs s) (ts_heads s)).

Definition cosmos_next s : CosmosSet :=
  let r := shift cosmosTxByPriceAndNonce_Less (cosmos_mk (ts_conf s)) (ts_txs s) (ts_heads s) in MkTxSet (ts_conf s) r.1 r.2.

Lemma cosmos_Next_run s h l : cosmos_ok s -> ts_heads s = h :: l -> cosmos_Next s = Ok (some_set (cosmos_next s)).
Proof.
  intros [Hh _ _] Hs. unfold cosmos_Next, cosmos_next, shift. rewrite Hs in *.
  destruct (default [] (ts_txs s !! hd_from h)) as [|t rest].
  - unfold pop_head. by destruct (heap_Pop_spec cosmosTxByPriceAndNonce_Less h l Hh) as (l' & -> & _).
  - by destruct (cosmos_mk_runs (ts_conf s) (hd_from h) t) as (h' & -> & ->).
Qed.

Lemma new_cosmos_one conf e txs heads : new_cosmos_head (Ok (MkTxSet conf txs heads)) e =
  Ok (MkTxSet conf (fill_one (cosmos_mk conf) (txs, heads) e).1 (fill_one (cosmos_mk conf) (txs, heads) e).2).
Proof.
  destruct e as [k [|t rest]]; [done|]. unfold new_cosmos_head, fill_one. cbn [obind fst snd ts_conf].
  by destruct (cosmos_mk_runs conf k t) as (h & -> & ->).
Qed.

Lemma new_cosmos_run conf l txs heads : foldl new_cosmos_head (Ok (MkTxSet conf txs heads)) l =
  Ok (MkTxSet conf (foldl (fill_one (cosmos_mk conf)) (txs, heads) l).1 (foldl (fill_one (cosmos_mk conf)) (txs, heads) l).2).
Proof.
  revert txs heads. induction l as [|e l IH]; intros txs heads; [done|]. cbn [foldl].
  rewrite new_cosmos_one, IH. by rewrite <- surjective_pairing.
Qed.

Lemma cosmos_new_run txs denom f : exists s, NewCosmosTransactionsByPriceAndNonce txs denom f = Ok (some_set s) /\
  ts_conf s = (denom, f) /\ cosmos_ok s /\
  forall k, per k (cosmos_pending s) = map (fun t => (k, t)) (default [] (txs !! k)).
Proof.
  unfold NewCosmosTransactionsByPriceAndNonce. rewrite new_cosmos_run. cbn [obind ts_heads ts_conf ts_txs].
  destruct (fill_all cosmosTxByPriceAndNonce_Less (cosmos_mk (denom, f)) (cosmos_mk_fields _) txs (go_range txs) (go_range_perm txs)) as [H1 H2].
  set (r := foldl _ _ _) in *. clearbody r. destruct r as [txs' heads]. cbn [fst snd] in *.
  exists (MkTxSet (denom, f) txs' (heap_Init cosmosTxByPriceAndNonce_Less heads)). cbn [ts_conf ts_txs ts_heads].
  split_and!; [|done|done|intros k; by rewrite H2, cosmos_payable].
  destruct heads as [|h heads]; [done|]. unfold some_set. cbn [ts_heads].
  destruct (heap_Init_spec cosmosTxByPriceAndNonce_Less (h :: heads)) as [_ Hp].
  destruct (heap_Init cosmosTxByPriceAndNonce_Less (h :: heads)); [|done]. by apply Permutation_nil_cons in Hp.
Qed.
End cosmos.

(** ** The iterator *)

Section iterate.
Context {Mr : MapRange} {Mp : MempoolTx} `{!Inhabited SdkTx} {Ma : SdkMath} {Ty : SdkTypes} {Ge : TxLibs}.
Abbreviation CosmosSet := (TxSet (string * option Z) string cosmosTxWithMetadata).
Implicit Types (c : IterConfig) (s : EvmSet) (cs : CosmosSet).
Implicit Types (le : list (addr * LazyTransaction)) (lc : list (string * cosmosTxWithMetadata)).

Definition cosmos_tip c (t : cosmosTxWithMetadata) : Z :=
  match extractCosmosEffectiveTip (ic_bondDenom c) (ic_baseFee c) (ct_tx t) with Ok z => z | _ => 0 end.

(** Ties go to the EVM, as does a Cosmos transaction without a tip. *)
Definition evm_first (evmFee cosmosTip : Z) : bool := (cosmosTip =? 0) || (cosmosTip <=? evmFee).

(** [l] merges the EVM transactions [le], priced at the base fee [f], and the
    Cosmos transactions [lc]. *)
Inductive merges c (f : option Z) : list (addr * LazyTransaction) -> list (string * cosmosTxWithMetadata) -> list SdkTx -> Prop :=
  | merges_nil : merges c f [] [] []
  | merges_evm k t h x le lc l : newTxWithMinerFee f k t = Ok h -> convertEVMToSDKTx c t = Ok x ->
      (forall k' t' rest, lc = (k', t') :: rest -> evm_first (hd_fees h) (cosmos_tip c t') = true) ->
      merges c f le lc l -> merges c f ((k, t) :: le) lc (x :: l)
  | merges_cosmos k t le lc l :
      (forall k' t' rest h, le = (k', t') :: rest -> newTxWithMinerFee f k' t' = Ok h -> evm_first (hd_fees h) (cosmos_tip c t) = false) ->
      merges c f le lc l -> merges c f le ((k, t) :: lc) (ct_tx t :: l).

Abbreviation evm_ok s := (merge_ok txByPriceAndTime_Less (evm_mk (ts_conf s)) (ts_txs s) (ts_heads s)).
Abbreviation cosmos_ok s := (merge_ok cosmosTxByPriceAndNonce_Less (cosmos_mk (ts_conf s)) (ts_txs s) (ts_heads s)).
Abbreviation evm_pending s := (pending (evm_mk (ts_conf s)) (ts_txs s) (ts_heads s)).
Abbreviation cosmos_pending s := (pending (cosmos_mk (ts_conf s)) (ts_txs s) (ts_heads s)).

(** What is left of either set, in order. *)
Definition evm_list s := drain txByPriceAndTime_Less (evm_mk (ts_conf s)) (length (evm_pending s)) (ts_txs s) (ts_heads s).
Definition cosmos_list cs := drain cosmosTxByPriceAndNonce_Less (cosmos_mk (ts_conf cs)) (length (cosmos_pending cs)) (ts_txs cs) (ts_heads cs).

Lemma evm_list_cons s h l : evm_ok s -> ts_heads s = h :: l -> evm_list s = (hd_from h, hd_tx h) :: evm_list (evm_next s).
Proof.
  intros Hok Hs. destruct (evm_next_stepped s h l Hok Hs) as [_ Hlen]. unfold evm_list at 1. rewrite Hlen. cbn [drain]. by rewrite Hs at 1.
Qed.

Lemma cosmos_next_stepped cs h l : cosmos_ok cs -> ts_heads cs = h :: l -> cosmos_ok (cosmos_next cs) /\
  length (cosmos_pending cs) = S (length (cosmos_pending (cosmos_next cs))) /\
  cosmos_list cs = (hd_from h, hd_tx h) :: cosmos_list (cosmos_next cs).
Proof.
  intros Hok Hs. assert (cosmos_ok (cosmos_next cs) /\ length (cosmos_pending cs) = S (length (cosmos_pending (cosmos_next cs)))) as [H1 H2].
  { rewrite Hs in *. destruct (shift_stepped cosmosTxByPriceAndNonce_Less (cosmos_mk (ts_conf cs)) (cosmos_mk_fields _) (ts_txs cs) h l Hok)
      as (Hok' & _ & _ & Hp). unfold cosmos_next. rewrite Hs. split; [done|]. by rewrite Hp. }
  split_and!; [done|done|]. unfold cosmos_list at 1. rewrite H2. cbn [drain]. by rewrite Hs at 1.
Qed.

(** An iterator between two transactions. *)
Definition at_rest s cs (cur : option SdkTx) : EVMMempoolIterator := MkIterator (Some s) (some_set cs) cur none none.

Lemma peek_cosmos c s cs cur : peekCosmos c (at_rest s cs cur) =
  Ok (match ts_heads cs with [] => None | h :: _ => Some (ct_tx (hd_tx h), cosmos_tip c (hd_tx h)) end).
Proof.
  unfold peekCosmos, at_rest, some_set, cosmos_Tx. cbn [it_cosmos]. destruct (ts_heads cs) as [|h l] eqn:Hs; [done|]. rewrite Hs.
  unfold cosmos_tip. by destruct (tip_runs (ic_bondDenom c) (ic_baseFee c) (ct_tx (hd_tx h))) as [z ->].
Qed.

(** What the iterator settles on: nothing, the EVM head or the Cosmos head; and
    the state that the next call of [Next] starts from. *)
Inductive settles c s cs : option EVMMempoolIterator -> Prop :=
  | settles_end : ts_heads s = [] -> ts_heads cs = [] -> settles c s cs None
  | settles_evm i h l x : ts_heads s = h :: l -> convertEVMToSDKTx c (hd_tx h) = Ok x -> it_currentTx i = Some x ->
      (forall h' l', ts_heads cs = h' :: l' -> evm_first (hd_fees h) (cosmos_tip c (hd_tx h')) = true) ->
      (olet i1 <- handleNextEVMAction i; handleNextCosmosAction i1) = Ok (at_rest (evm_next s) cs (Some x)) ->
      settles c s cs (Some i)
  | settles_cosmos i h l : ts_heads cs = h :: l -> it_currentTx i = Some (ct_tx (hd_tx h)) ->
      (forall h' l', ts_heads s = h' :: l' -> evm_first (hd_fees h') (cosmos_tip c (hd_tx h)) = false) ->
      (olet i1 <- handleNextEVMAction i; handleNextCosmosAction i1) = Ok (at_rest s (cosmos_next cs) (it_currentTx i)) ->
      settles c s cs (Some i).

Lemma select_evm_first (tx : LazyTransaction) (f : Z) (y : SdkTx) (g : Z) : shouldSelectEVMTx (Some (tx, f)) (Some (y, g)) = evm_first f g.
Proof. unfold shouldSelectEVMTx, evm_first. destruct (g =? 0); [done|]. by rewrite Z.leb_antisym. Qed.

Lemma take_evm c s cs h l x : evm_ok s -> ts_heads s = h :: l ->
  (olet i1 <- handleNextEVMAction (MkIterator (Some s) (some_set cs) (Some x) advance none); handleNextCosmosAction i1) =
  Ok (at_rest (evm_next s) cs (Some x)).
Proof.
  intros Hok Hs. unfold handleNextEVMAction. cbn [it_evm it_nextEVMAction]. rewrite (evm_Shift_run s h l) by done. simpl.
  unfold handleNextCosmosAction, at_rest. simpl. by destruct (some_set cs).
Qed.

Lemma take_cosmos s cs h l cur : cosmos_ok cs -> ts_heads cs = h :: l ->
  (olet i1 <- handleNextEVMAction (MkIterator (Some s) (some_set cs) cur none advance); handleNextCosmosAction i1) =
  Ok (at_rest s (cosmos_next cs) cur).
Proof.
  intros Hok Hs. unfold handleNextEVMAction. simpl. unfold handleNextCosmosAction, some_set. simpl. rewrite Hs.
  by rewrite (cosmos_Next_run cs h l).
Qed.

Lemma resolve_settles c s cs cur : evm_ok s -> cosmos_ok cs ->
  (forall h l, ts_heads s = h :: l -> exists x, convertEVMToSDKTx c (hd_tx h) = Ok x) ->
  exists i, resolveCurrentTx c (at_rest s cs cur) = Ok i /\ settles c s cs (some_iterator i).
Proof.
  intros Hok Hoc Hconv. unfold resolveCurrentTx. rewrite peek_cosmos. cbn [obind]. unfold peekEVM, evm_Peek.
  cbn [it_evm it_cosmos it_nextEVMAction it_nextCosmosAction at_rest].
  destruct (ts_heads s) as [|h l] eqn:Hs, (ts_heads cs) as [|h' l'] eqn:Hc.
  - eexists. split; [done|]. by apply settles_end.
  - eexists. split; [done|]. cbn [some_iterator it_currentTx option_map fst].
    apply (settles_cosmos _ _ _ _ h' l'); [done|done|by rewrite Hs|by apply (take_cosmos s cs h' l'); rewrite ?Hc].
  - destruct (Hconv h l eq_refl) as [x Hx]. cbn [shouldSelectEVMTx]. rewrite Hx. eexists. split; [done|].
    apply (settles_evm _ _ _ _ h l x); [done|done|done|by rewrite Hc|by apply (take_evm c s cs h l); rewrite ?Hs].
  - rewrite select_evm_first. destruct (evm_first (hd_fees h) (cosmos_tip c (hd_tx h'))) eqn:Hf.
    + destruct (Hconv h l eq_refl) as [x Hx]. rewrite Hx. eexists. split; [done|].
      apply (settles_evm _ _ _ _ h l x); [done|done|done|congruence|by apply (take_evm c s cs h l); rewrite ?Hs].
    + eexists. split; [done|]. cbn [some_iterator it_currentTx option_map fst].
      apply (settles_cosmos _ _ _ _ h' l'); [done|done|congruence|by apply (take_cosmos s cs h' l'); rewrite ?Hc].
Qed.

Lemma iterate_step c n i r i2 x l : (olet i1 <- handleNextEVMAction i; handleNextCosmosAction i1) = Ok r ->
  resolveCurrentTx c r = Ok i2 -> iterate n c (some_iterator i2) = Ok (Some l) -> it_currentTx i = Some x ->
  iterate (S n) c (Some i) = Ok (Some (x :: l)).
Proof.
  intros H1 H2 H3 H4. cbn [iterate]. unfold iterator_Next. destruct (handleNextEVMAction i) as [i1| |]; [|done..]. simpl in H1.
  cbn [obind]. rewrite H1. cbn [obind]. rewrite H2. cbn [obind]. rewrite H3, H4. done.
Qed.

Lemma cosmos_list_head cs k t rest : cosmos_ok cs -> cosmos_list cs = (k, t) :: rest -> exists h l, ts_heads cs = h :: l /\ hd_tx h = t.
Proof.
  intros Hoc. destruct (ts_heads cs) as [|h l] eqn:Hc; [unfold cosmos_list; by rewrite Hc|].
  destruct (cosmos_next_stepped cs h l) as (_ & _ & ->); [by rewrite Hc|done|]. intros [= <- <- <-]. by eexists _, _.
Qed.

Lemma evm_list_head s k t rest : evm_ok s -> evm_list s = (k, t) :: rest ->
  exists h l, ts_heads s = h :: l /\ newTxWithMinerFee (ts_conf s) k t = Ok h.
Proof.
  intros Hok. destruct (ts_heads s) as [|h l] eqn:Hs; [unfold evm_list; by rewrite Hs|].
  rewrite (evm_list_cons s h l) by (by rewrite ?Hs). intros [= <- <- <-]. eexists _, _. split; [done|].
  destruct Hok as [_ _ Hh]. apply Forall_cons in Hh as [Hh _]. unfold evm_mk in Hh. by destruct (newTxWithMinerFee _ _ _); simplify_eq.
Qed.

(** The iterator merges what is left of the sets. *)
Lemma iterate_merges c n s cs cur : evm_ok s -> cosmos_ok cs -> (length (evm_pending s) + length (cosmos_pending cs) <= n)%nat ->
  Forall (fun e => exists x, convertEVMToSDKTx c e.2 = Ok x) (evm_pending s) ->
  exists i l, resolveCurrentTx c (at_rest s cs cur) = Ok i /\ iterate n c (some_iterator i) = Ok (Some l) /\
    merges c (ts_conf s) (evm_list s) (cosmos_list cs) l.
Proof.
  revert s cs cur. induction n as [n IH] using lt_wf_ind. intros s cs cur Hok Hoc Hn Hconv.
  destruct (resolve_settles c s cs cur Hok Hoc) as (i & Hi & Hset).
  { intros h l Hs. rewrite Hs in Hconv. rewrite pending_cons in Hconv. apply Forall_app in Hconv as [Hq _]. by apply Forall_cons in Hq as [? _]. }
  destruct n as [|n].
  { exists i, []. split; [done|]. destruct (ts_heads s) eqn:Hs; [|simpl in Hn; lia]. destruct (ts_heads cs) eqn:Hc; [|simpl in Hn; lia].
    destruct Hset as [_ _|i' h l' x Hs' _ _ _ _|i' h l' Hs' _ _ _]; [|congruence..]. split; [done|].
    unfold evm_list, cosmos_list. rewrite Hs, Hc. constructor. }
  exists i. destruct Hset as [Hs Hc|i' h l x Hs Hx Hcur Hfst Hstep|i' h l Hc Hcur Hfst Hstep].
  - exists []. split_and!; [done|done|]. unfold evm_list, cosmos_list. rewrite Hs, Hc. constructor.
  - destruct (evm_next_stepped s h l Hok Hs) as [Hok' Hlen].
    destruct (IH n ltac:(lia) (evm_next s) cs (Some x) Hok' Hoc) as (i2 & l2 & Hi2 & Hl2 & Hm); [lia| |].
    { rewrite Hs in Hconv, Hok. destruct (shift_stepped _ _ (evm_mk_fields _) _ _ _ Hok) as (_ & _ & _ & Hp).
      rewrite Hp in Hconv. apply Forall_cons in Hconv as [_ Hconv]. unfold evm_next. by rewrite Hs. }
    exists (x :: l2). split_and!; [done|by eapply iterate_step|]. rewrite (evm_list_cons s h l) by done.
    destruct (evm_list_head s (hd_from h) (hd_tx h) (evm_list (evm_next s)) Hok) as (h0 & l0 & Hs0 & Hmk); [by apply evm_list_cons with l|].
    rewrite Hs in Hs0. injection Hs0 as <- <-. apply (merges_evm _ _ _ _ h); [done|done| |done].
    intros k' t' rest Hc. destruct (cosmos_list_head cs k' t' rest Hoc Hc) as (h' & l' & Hh' & <-). by eapply Hfst.
  - destruct (cosmos_next_stepped cs h l Hoc Hc) as (Hoc' & Hlen & ->).
    destruct (IH n ltac:(lia) s (cosmos_next cs) (it_currentTx i') Hok Hoc') as (i2 & l2 & Hi2 & Hl2 & Hm); [lia|done|].
    exists (ct_tx (hd_tx h) :: l2). split_and!; [done|by eapply iterate_step|]. apply merges_cosmos; [|done].
    intros k' t' rest h0 He Hmk. destruct (evm_list_head s k' t' rest Hok He) as (h' & l' & Hh' & Hmk'). rewrite Hmk in Hmk'.
    injection Hmk' as <-. by eapply Hfst.
Qed.

Lemma take_while_elem {A} (f : A -> bool) (l : list A) x : x ∈ take_while f l -> x ∈ l.
Proof. induction l as [|y l IH]; simpl; [done|]. destruct (f y); [set_solver|]. by intros ?%not_elem_of_nil. Qed.

Lemma new_iterator_run c s cs : NewEVMMempoolIterator c (Some s) (some_set cs) =
  (olet i <- resolveCurrentTx c (at_rest s cs None); Ok (some_iterator i)).
Proof.
  unfold NewEVMMempoolIterator, evm_Empty, some_set. destruct (ts_heads s) as [|h l] eqn:Hs, (ts_heads cs) as [|h' l'] eqn:Hc; simpl.
  - unfold resolveCurrentTx. rewrite peek_cosmos, Hc. unfold peekEVM, evm_Peek. simpl. by rewrite Hs.
  - unfold cosmos_Tx. rewrite Hc. simpl. unfold at_rest, some_set. by rewrite Hc.
  - unfold at_rest, some_set. by rewrite Hc.
  - unfold at_rest, some_set. by rewrite Hc.
Qed.

(** C30: When every pending EVM transaction can be wrapped, the iterator over
    both pools ends and gives each transaction once: every EVM account's in
    order up to the first one below the base fee, every Cosmos signer's in
    order, and at each point the EVM transaction unless the Cosmos one pays a
    strictly higher tip. *)
Theorem iterator_merges c txs f ctxs denom cf : (forall k l, txs !! k = Some l -> l <> []) ->
  (match f with Some z => 0 <= z < two256 | None => True end) ->
  (forall k l t, txs !! k = Some l -> t ∈ l -> exists x, convertEVMToSDKTx c t = Ok x) ->
  exists s cit it fuel le lc l, NewTransactionsByPriceAndNonce txs f = Ok s /\
    NewCosmosTransactionsByPriceAndNonce ctxs denom cf = Ok cit /\ NewEVMMempoolIterator c (Some s) cit = Ok it /\
    iterate fuel c it = Ok (Some l) /\ merges c f le lc l /\
    (forall k, per k le = map (fun t => (k, t)) (take_while (covered f) (default [] (txs !! k)))) /\
    (forall k, per k lc = map (fun t => (k, t)) (default [] (ctxs !! k))).
Proof.
  intros Hne Hf Hconv. destruct (evm_new_run txs f Hne Hf) as (s & Hs & Hconf & Hok & Hper).
  destruct (cosmos_new_run ctxs denom cf) as (cs & Hcs & _ & Hoc & Hcper).
  destruct (iterate_merges c (length (evm_pending s) + length (cosmos_pending cs)) s cs None Hok Hoc) as (i & l & Hi & Hl & Hm); [lia| |].
  { apply Forall_forall. intros [k t] Hin. assert ((k, t) ∈ per k (evm_pending s)) as Hk.
    { unfold per. rewrite list_elem_of_In, filter_In, bool_decide_eq_true, <- list_elem_of_In. done. }
    rewrite Hper, list_elem_of_In, in_map_iff in Hk. destruct Hk as (t' & [= <-] & Ht). rewrite <- list_elem_of_In in Ht.
    apply take_while_elem in Ht. destruct (txs !! k) as [v|] eqn:Hv; [by apply (Hconv k v)|by apply not_elem_of_nil in Ht]. }
  eexists s, (some_set cs), (some_iterator i), _, (evm_list s), (cosmos_list cs), l.
  split_and!; [done|done|by rewrite new_iterator_run, Hi|done|by rewrite <- Hconf| |].
  - intros k. unfold evm_list. rewrite <- Hper. by apply (drain_spec txByPriceAndTime_Less (evm_mk (ts_conf s)) (evm_mk_fields _)).
  - intros k. unfold cosmos_list. rewrite <- Hcper.
    by apply (drain_spec cosmosTxByPriceAndNonce_Less (cosmos_mk (ts_conf cs)) (cosmos_mk_fields _)).
Qed.

(** With no Cosmos transaction left, an EVM transaction that cannot be
    wrapped ends the iteration, whatever transactions of other accounts are
    behind it in the heap. *)
Theorem iterator_stops_at_bad_transaction c i s h l e : it_evm i = Some s -> ts_heads s = h :: l -> it_cosmos i = None ->
  convertEVMToSDKTx c (hd_tx h) = Err e ->
  exists i', resolveCurrentTx c i = Ok i' /\ it_evm i' = Some s /\ some_iterator i' = None.
Proof.
  intros He Hs Hc Hx. unfold resolveCurrentTx, peekCosmos, peekEVM, evm_Peek. rewrite Hc, He, Hs. simpl. rewrite Hx. by eexists.
Qed.
End iterate.

(** ** Two EVM accounts and a Cosmos signer *)

(** A transaction is an Ethereum message with its fees and gas, or fees, gas and
    signers. *)
#[local] Instance ref_mempool : MempoolTx := {|
  SdkTx := (MsgEthereumTx * list Coin * Z) + (list Coin * Z * list (string * Z));
  as_FeeTx tx := match tx with inl (_, fees, gas) | inr (fees, gas, _) => Some (fees, gas) end;
  build_tx m fees gas := Ok (inl (m, fees, gas));
  GetSigners tx := match tx with inl (m, _, _) => Ok [(em_From m, 0)] | inr (_, _, l) => Ok l end;
  ChooseNonce seq _ := Ok seq;
  sort_coins l := l;
|}.
#[local] Instance ref_sdktx : Inhabited SdkTx := populate (inr ([], 0, [])).

Definition order_config : IterConfig := MkIterConfig "axit" (Some 10) tt (Some (MkEvmCoinInfo "axit" "axit" "xit" 18)).
Definition order_tx (from : bytes) (nonce cap tip : Z) : LazyTransaction :=
  MkLazyTransaction EmptyString (MkTransaction 2 nonce 21000 cap tip (Some bob) 0 EmptyString [] [] from) nonce cap tip 21000 0.
Definition order_cosmos (price nonce : Z) : cosmosTxWithMetadata :=
  MkCosmosTx _ (inr ([MkCoin "axit" (price * 100)], 100, [("carol", nonce)]))
    {["carol" := nonce]} nonce "carol" "carol/1".

Definition order_txs : gmap addr (list LazyTransaction) :=
  {[alice := [order_tx alice 1 30 4; order_tx alice 2 30 9; order_tx alice 3 9 1]; bob := [order_tx bob 7 40 6]]}.
Definition order_ctxs : gmap string (list cosmosTxWithMetadata) := {["carol" := [order_cosmos 15 11; order_cosmos 90 12]]}.

Lemma order_nonempty k l : order_txs !! k = Some l -> l <> [].
Proof. unfold order_txs. rewrite lookup_insert_Some, lookup_singleton_Some. intros [[_ <-]|[_ [_ <-]]]; done. Qed.

Lemma order_converts k l t : order_txs !! k = Some l -> t ∈ l -> exists x, convertEVMToSDKTx order_config t = Ok x.
Proof.
  unfold order_txs. rewrite lookup_insert_Some, lookup_singleton_Some.
  intros [[_ <-]|[_ [_ <-]]] Hin; repeat (apply elem_of_cons in Hin as [->|Hin]; [eexists; vm_compute; reflexivity|]);
    by apply not_elem_of_nil in Hin.
Qed.

(** The nonces in the order of a block. *)
Definition nonces_seen (l : list SdkTx) : list Z :=
  map (fun x => match x with inl (m, _, _) => match em_Raw m with Some t => tx_Nonce t | None => 0 end
                | inr (_, _, l) => match l with (_, n) :: _ => n | [] => 0 end end) l.

Lemma evm_order_exact_witness : exists s fuel l, NewTransactionsByPriceAndNonce order_txs (Some 10) = Ok s /\
  evm_all fuel s = Ok (Some l) /\ per alice l = [(alice, order_tx alice 1 30 4); (alice, order_tx alice 2 30 9)].
Proof.
  destruct (evm_order_exact order_txs (Some 10) order_nonempty ltac:(done)) as (s & fuel & l & H1 & H2 & H3 & _).
  exists s, fuel, l. split; [exact H1|]. split; [exact H2|]. rewrite H3. vm_compute. reflexivity.
Defined.

Lemma iterator_merges_witness : exists s cit it fuel l, NewTransactionsByPriceAndNonce order_txs (Some 10) = Ok s /\
  NewCosmosTransactionsByPriceAndNonce order_ctxs "axit" (Some 10) = Ok cit /\
  NewEVMMempoolIterator order_config (Some s) cit = Ok it /\ iterate fuel order_config it = Ok (Some l).
Proof.
  destruct (iterator_merges order_config order_txs (Some 10) order_ctxs "axit" (Some 10) order_nonempty ltac:(done) order_converts)
    as (s & cit & it & fuel & le & lc & l & H1 & H2 & H3 & H4 & _).
  exists s, cit, it, fuel, l. split; [exact H1|]. split; [exact H2|]. split; [exact H3|exact H4].
Defined.

(** Bob pays a tip of 6, then Alice 4 and 9, Carol 5 and 80. *)
Lemma order_run :
  (olet s <- NewTransactionsByPriceAndNonce order_txs (Some 10);
   olet cit <- NewCosmosTransactionsByPriceAndNonce order_ctxs "axit" (Some 10);
   olet it <- NewEVMMempoolIterator order_config (Some s) cit;
   olet l <- iterate 6 order_config it;
   Ok (option_map nonces_seen l)) = Ok (Some [7; 11; 12; 1; 2]).
Proof. vm_compute. reflexivity. Qed.

(** Alice's transaction has no valid signature and pays the most; Bob's is fine. *)
Definition bad_set : EvmSet :=
  match NewTransactionsByPriceAndNonce {[alice := [order_tx "x" 1 50 20]; bob := [order_tx bob 7 40 6]]} (Some 10) with
  | Ok s => s
  | _ => MkTxSet None ∅ []
  end.

Lemma iterator_stops_at_bad_transaction_witness :
  is_ok (convertEVMToSDKTx order_config (order_tx bob 7 40 6)) = true /\
  hd_tx <$> ts_heads bad_set = [order_tx "x" 1 50 20; order_tx bob 7 40 6] /\
  exists i', resolveCurrentTx order_config (MkIterator (Some bad_set) None None none none) = Ok i' /\ some_iterator i' = None.
Proof.
  split; [vm_compute; reflexivity|]. split; [vm_compute; reflexivity|].
  destruct (iterator_stops_at_bad_transaction order_config (MkIterator (Some bad_set) None None none none) bad_set
    (default inhabitant (hd_error (ts_heads bad_set))) (tail (ts_heads bad_set))
    "converting signed evm transaction: invalid signature") as (i' & H1 & _ & H2);
    [reflexivity|vm_compute; reflexivity|reflexivity|vm_compute; reflexivity|].
  exists i'. split; [exact H1|exact H2].
Defined.
