(* ===== verification/ReapList.v ===== *)
(** * mempool/internal/reaplist and mempool/reserver

    The list of validated transactions waiting to be broadcast, and the
    reservations by which an account sends through one sub-pool at a time. The
    locks are left out: every operation runs under one. *)

From Stdlib Require Import ZArith Lia List String Bool.
From stdpp Require Import base gmap strings list.
From S2P Require Import Prelude GoStrings Sdk AccessList StateDB.
Local Open Scope Z_scope.
Local Open Scope go_scope.

(** ** reaplist.go *)

Record txWithHash := MkTxWithHash { rt_bytes : bytes; rt_hash : string; rt_gas : Z }.

(** A dropped transaction leaves a hole; the index of a reaped one is -1. *)
Record ReapList := MkReapList {
  rl_txs : list (option txWithHash);
  rl_txIndex : gmap string Z;
}.
Definition NewReapList : ReapList := MkReapList [] ∅.

Definition rl_exists (h : string) (r : ReapList) : bool := bool_decide (is_Some (rl_txIndex r !! h)).

Definition rl_push (h : string) (tx : bytes) (gas : Z) (r : ReapList) : ReapList :=
  MkReapList (rl_txs r ++ [Some (MkTxWithHash tx h gas)]) (<[h := Z.of_nat (length (rl_txs r))]> (rl_txIndex r)).

(** [encode] is the encoder of the chain. *)
Definition PushEVMTx (h : string) (encoded : outcome bytes) (gas : Z) : M ReapList unit := fun r =>
  if rl_exists h r then (Ok tt, r) else
  match owrap "encoding evm tx to bytes" encoded with
  | Ok b => (Ok tt, rl_push h b gas r)
  | Err e => (Err e, r)
  | Panic p => (Panic p, r)
  end.
(** [gas] is absent when the transaction has no fee. *)
Definition PushCosmosTx (cosmosHash : bytes -> string) (encoded : outcome bytes) (gas : option Z) : M ReapList unit := fun r =>
  match owrap "encoding cosmos tx to bytes" encoded with
  | Ok b =>
    if rl_exists (cosmosHash b) r then (Ok tt, r) else
    match gas with
    | None => (Err "error getting tx gas: cosmos tx must implement sdk.FeeTx", r)
    | Some g => (Ok tt, rl_push (cosmosHash b) b g r)
    end
  | Err e => (Err e, r)
  | Panic p => (Panic p, r)
  end.

Definition rl_drop (h : string) (r : ReapList) : bool * ReapList :=
  match rl_txIndex r !! h with
  | None => (false, r)
  | Some idx =>
    let index := delete h (rl_txIndex r) in
    if (idx <? 0) || (Z.of_nat (length (rl_txs r)) <=? idx) then (false, MkReapList (rl_txs r) index)
    else (true, MkReapList (<[Z.to_nat idx := None]> (rl_txs r)) index)
  end.
Definition DropCosmosTx (cosmosHash : bytes -> string) (encoded : outcome bytes) (r : ReapList) : ReapList :=
  match encoded with Ok b => (rl_drop (cosmosHash b) r).2 | _ => r end.

Record reap_state := MkReap {
  rs_bytes : Z;
  rs_gas : Z;
  rs_result : list bytes;
  rs_next : nat;
  rs_index : gmap string Z;
}.

Definition exceeds (maxBytes maxGas : Z) (s : reap_state) (tx : txWithHash) : bool :=
  ((0 <? maxBytes) && (maxBytes <? u64 (rs_bytes s + len (rt_bytes tx)))) ||
  ((0 <? maxGas) && (maxGas <? u64 (rs_gas s + rt_gas tx))).

Fixpoint reap_loop (maxBytes maxGas : Z) (idx : nat) (txs : list (option txWithHash)) (s : reap_state) : outcome reap_state :=
  match txs with
  | [] => Ok s
  | None :: txs' => reap_loop maxBytes maxGas (S idx) txs' (MkReap (rs_bytes s) (rs_gas s) (rs_result s) (S idx) (rs_index s))
  | Some tx :: txs' =>
    if exceeds maxBytes maxGas s tx then Ok s else
    if bool_decide (is_Some (rs_index s !! rt_hash tx)) then
      reap_loop maxBytes maxGas (S idx) txs'
        (MkReap (u64 (rs_bytes s + len (rt_bytes tx))) (u64 (rs_gas s + rt_gas tx)) (rs_result s ++ [rt_bytes tx]) (S idx)
           (<[rt_hash tx := -1]> (rs_index s)))
    else Panic "removed a tx that was not in the tx index, this should not happen"
  end.

Fixpoint reindex (i : nat) (txs : list txWithHash) (index : gmap string Z) : outcome (gmap string Z) :=
  match txs with
  | [] => Ok index
  | tx :: txs' =>
    if bool_decide (is_Some (index !! rt_hash tx)) then reindex (S i) txs' (<[rt_hash tx := Z.of_nat i]> index)
    else Panic "tx that was not reaped is not in the tx index, this should not happen"
  end.

Definition Reap (maxBytes maxGas : Z) (r : ReapList) : outcome (list bytes * ReapList) :=
  olet s <- reap_loop maxBytes maxGas 0 (rl_txs r) (MkReap 0 0 [] 0 (rl_txIndex r));
  let txs := if Nat.leb (length (rl_txs r)) (rs_next s) then [] else omap id (drop (rs_next s) (rl_txs r)) in
  olet index <- reindex 0 txs (rs_index s);
  Ok (rs_result s, MkReapList (Some <$> txs) index).

(** ** reserver.go *)

(** A handle with [rh_refs] counts references. The errors are given without the
    address that the source formats into them. *)
Record ReservationHandle := MkHandle { rh_id : Z; rh_refs : option (gmap addr Z) }.

(** The tracker's accounts and the sub-pool of each, beside the handle that is
    used. *)
Abbreviation Reservations := (gmap addr Z).

Definition canHold (t : Reservations) (h : ReservationHandle) (a : addr) : outcome unit :=
  match t !! a with
  | Some owner => oguard (owner =? rh_id h) "address already reserved"
  | None => Ok tt
  end.
Definition canRelease (t : Reservations) (h : ReservationHandle) (a : addr) : outcome unit :=
  match t !! a with
  | None => Err "address not reserved"
  | Some owner => oguard (owner =? rh_id h) "address not owned by sub-pool"
  end.

Fixpoint all_ok {A} (f : A -> outcome unit) (l : list A) : outcome unit :=
  match l with [] => Ok tt | a :: l' => odo f a; all_ok f l' end.

Definition hold_one (s : Reservations * ReservationHandle) (a : addr) : Reservations * ReservationHandle :=
  let (t, h) := s in
  (match t !! a with None => <[a := rh_id h]> t | Some _ => t end,
   MkHandle (rh_id h) (option_map (fun refs => <[a := default 0 (refs !! a) + 1]> refs) (rh_refs h))).
Definition release_one (s : Reservations * ReservationHandle) (a : addr) : Reservations * ReservationHandle :=
  let (t, h) := s in
  match rh_refs h with
  | None => (delete a t, h)
  | Some refs =>
    if default 0 (refs !! a) <=? 1
    then (delete a t, MkHandle (rh_id h) (Some (delete a refs)))
    else (t, MkHandle (rh_id h) (Some (<[a := default 0 (refs !! a) - 1]> refs)))
  end.

Definition Hold (addrs : list addr) : M (Reservations * ReservationHandle) unit := fun s =>
  match all_ok (canHold s.1 s.2) addrs with
  | Ok _ => (Ok tt, foldl hold_one s addrs)
  | e => (e, s)
  end.
Definition Release (addrs : list addr) : M (Reservations * ReservationHandle) unit := fun s =>
  match all_ok (canRelease s.1 s.2) addrs with
  | Ok _ => (Ok tt, foldl release_one s addrs)
  | e => (e, s)
  end.
Definition Reserver_Has (t : Reservations) (h : ReservationHandle) (a : addr) : bool :=
  match t !! a with Some id => negb (id =? rh_id h) | None => false end.

(** ** txpool/legacypool/noncer.go *)

Section noncer.
Context (GetNonce : addr -> Z).

Definition nc_load (a : addr) (n : gmap addr Z) : gmap addr Z :=
  match n !! a with
  | Some _ => n
  | None => if GetNonce a =? 0 then n else <[a := GetNonce a]> n
  end.
Definition nc_get (a : addr) (n : gmap addr Z) : Z * gmap addr Z :=
  let n' := nc_load a n in (default 0 (n' !! a), n').
Definition nc_set (a : addr) (nonce : Z) (n : gmap addr Z) : gmap addr Z := <[a := nonce]> n.
Definition nc_setIfLower (a : addr) (nonce : Z) (n : gmap addr Z) : gmap addr Z :=
  let n' := nc_load a n in
  if default 0 (n' !! a) <=? nonce then n' else <[a := nonce]> n'.
End noncer.
