(* ===== verification/ReapListTheorems.v ===== *)
(** * The reap list is a queue; reservations are exclusive *)

From Stdlib Require Import ZArith Lia List String Bool.
From stdpp Require Import base gmap strings list.
From S2P Require Import Prelude GoStrings Sdk AccessList StateDB RefEnv FeeMarketTheorems VmRef ReapList.
Local Open Scope Z_scope.
Local Open Scope go_scope.

(** ** What the reap list promises

    A queue of transactions, and the hashes that were pushed and not dropped
    since. *)

Record reap_spec := MkReapSpec { sp_queue : list txWithHash; sp_seen : gset string }.

Fixpoint take_fit (maxBytes maxGas : Z) (b g : Z) (q : list txWithHash) : list txWithHash :=
  match q with
  | [] => []
  | tx :: q' =>
    if exceeds maxBytes maxGas (MkReap b g [] 0 ∅) tx then []
    else tx :: take_fit maxBytes maxGas (u64 (b + len (rt_bytes tx))) (u64 (g + rt_gas tx)) q'
  end.

Inductive reap_op :=
  | RPush (h : string) (tx : bytes) (gas : Z)
  | RDrop (h : string)
  | RReap (maxBytes maxGas : Z).

Definition spec_step (o : reap_op) (s : reap_spec) : list bytes * reap_spec :=
  match o with
  | RPush h tx gas =>
    if bool_decide (h ∈ sp_seen s) then ([], s)
    else ([], MkReapSpec (sp_queue s ++ [MkTxWithHash tx h gas]) ({[h]} ∪ sp_seen s))
  | RDrop h => ([], MkReapSpec (base.filter (fun tx => rt_hash tx <> h) (sp_queue s)) (sp_seen s ∖ {[h]}))
  | RReap maxBytes maxGas =>
    let taken := take_fit maxBytes maxGas 0 0 (sp_queue s) in
    (rt_bytes <$> taken, MkReapSpec (drop (length taken) (sp_queue s)) (sp_seen s))
  end.

Definition reap_step (o : reap_op) (r : ReapList) : outcome (list bytes * ReapList) :=
  match o with
  | RPush h tx gas => match PushEVMTx h (Ok tx) gas r with (Ok _, r') => Ok ([], r') | (Err e, _) => Err e | (Panic p, _) => Panic p end
  | RDrop h => Ok ([], (rl_drop h r).2)
  | RReap maxBytes maxGas => Reap maxBytes maxGas r
  end.

Fixpoint reap_run (ops : list reap_op) (r : ReapList) : outcome (list (list bytes) * ReapList) :=
  match ops with
  | [] => Ok ([], r)
  | o :: ops' => olet (out, r1) <- reap_step o r; olet (outs, r2) <- reap_run ops' r1; Ok (out :: outs, r2)
  end.
Fixpoint spec_run (ops : list reap_op) (s : reap_spec) : list (list bytes) * reap_spec :=
  match ops with
  | [] => ([], s)
  | o :: ops' => let (out, s1) := spec_step o s in let (outs, s2) := spec_run ops' s1 in (out :: outs, s2)
  end.

(** ** The index *)

Record reap_ok (r : ReapList) : Prop := {
  ri_entry i tx : rl_txs r !! i = Some (Some tx) -> rl_txIndex r !! rt_hash tx = Some (Z.of_nat i);
  ri_index h z : rl_txIndex r !! h = Some z -> z = -1 \/ exists i tx, z = Z.of_nat i /\ rl_txs r !! i = Some (Some tx) /\ rt_hash tx = h;
}.
Definition reap_abs (r : ReapList) : reap_spec := MkReapSpec (omap id (rl_txs r)) (dom (rl_txIndex r)).

Lemma omap_id_app {A} (l l' : list (option A)) : omap id (l ++ l') = omap id l ++ omap id l'.
Proof. apply omap_app. Qed.

Lemma elem_omap_id {A} (l : list (option A)) x : x ∈ omap id l <-> Some x ∈ l.
Proof. rewrite list_elem_of_omap. split; [intros (y & Hy & E); unfold id in E; by subst y|]. intros H. by exists (Some x). Qed.

Lemma filter_keep {A} (P : A -> Prop) `{!forall x, Decision (P x)} (l : list A) : (forall x, x ∈ l -> P x) -> base.filter P l = l.
Proof.
  induction l as [|x l IH]; intros Hall; [done|]. rewrite filter_cons_True by (apply Hall; by left). f_equal. apply IH.
  intros y Hy. apply Hall. by right.
Qed.

Lemma push_refines h tx gas r : reap_ok r -> rl_txIndex r !! h = None -> reap_ok (rl_push h tx gas r) /\
  reap_abs (rl_push h tx gas r) = MkReapSpec (omap id (rl_txs r) ++ [MkTxWithHash tx h gas]) ({[h]} ∪ dom (rl_txIndex r)).
Proof.
  intros [He Hi] Hn. split; [split|].
  - simpl. intros i t Ht. apply lookup_app_Some in Ht as [Ht|[Hl Ht]].
    + rewrite lookup_insert_ne; [by apply He|]. intros ->. by rewrite (He _ _ Ht) in Hn.
    + apply list_lookup_singleton_Some in Ht as [Hz [= <-]]. simpl. rewrite lookup_insert_eq. do 2 f_equal. lia.
  - simpl. intros h' z [[<- <-]|[_ Hz]]%lookup_insert_Some.
    + right. eexists _, _. split; [done|]. rewrite lookup_app_r, Nat.sub_diag by done. done.
    + destruct (Hi _ _ Hz) as [->|(i & t & -> & Ht & Hh)]; [by left|right]. exists i, t. split_and!; [done|by apply lookup_app_l_Some|done].
  - unfold reap_abs, rl_push. simpl. by rewrite omap_id_app, dom_insert_L.
Qed.

Lemma filter_hole (l : list (option txWithHash)) i tx : l !! i = Some (Some tx) ->
  (forall j t, l !! j = Some (Some t) -> rt_hash t = rt_hash tx -> j = i) ->
  omap id (<[i := None]> l) = base.filter (fun t => rt_hash t <> rt_hash tx) (omap id l).
Proof.
  intros Hi Huniq. rewrite <- (take_drop_middle l i _ Hi) at 2. rewrite insert_take_drop by (by eapply lookup_lt_Some).
  rewrite !omap_id_app. cbn [omap list_omap id]. rewrite filter_app. simpl. rewrite filter_cons_False by (by intros []).
  assert (forall l' : list (option txWithHash), (forall t, Some t ∈ l' -> rt_hash t <> rt_hash tx) ->
    base.filter (fun t => rt_hash t <> rt_hash tx) (omap id l') = omap id l') as Hall.
  { intros l' H. apply filter_keep. intros t Ht. by apply H, elem_omap_id. }
  rewrite !Hall; [done| |].
  - intros t [j Hj]%list_elem_of_lookup Hh. rewrite lookup_drop in Hj. specialize (Huniq _ _ Hj Hh). lia.
  - intros t [j Hj]%list_elem_of_lookup Hh. apply lookup_take_Some in Hj as [Hj Hlt]. specialize (Huniq _ _ Hj Hh). lia.
Qed.

Lemma drop_refines h r : reap_ok r -> reap_ok (rl_drop h r).2 /\ reap_abs (rl_drop h r).2 = (spec_step (RDrop h) (reap_abs r)).2.
Proof.
  intros [He Hi]. unfold rl_drop. destruct (rl_txIndex r !! h) as [z|] eqn:Hz.
  - assert (forall t, Some t ∈ rl_txs r -> rt_hash t = h -> z = -1 -> False) as Hgone.
    { intros t [i Ht]%list_elem_of_lookup <- ->. rewrite (He _ _ Ht) in Hz. injection Hz. lia. }
    destruct (Hi _ _ Hz) as [->|(i & tx & -> & Htx & Hh)]; simpl.
    + split; [split; simpl|].
      * intros i tx Ht. rewrite lookup_delete_ne; [by apply He|]. intros ->. eapply Hgone; [|done|done]. by eapply list_elem_of_lookup_2.
      * intros h' z' [_ Hz']%lookup_delete_Some. by apply Hi.
      * unfold reap_abs. simpl. rewrite dom_delete_L. f_equal. symmetry. apply filter_keep.
        intros t Ht%elem_omap_id Hh. by eapply Hgone.
    + assert (forall j t, rl_txs r !! j = Some (Some t) -> rt_hash t = h -> j = i) as Huniq.
      { intros j t Ht Hj. pose proof (He _ _ Ht) as Hx. rewrite Hj, Hz in Hx. injection Hx. lia. }
      pose proof (lookup_lt_Some _ _ _ Htx) as Hlt. rewrite (proj2 (Z.ltb_ge _ _)), (proj2 (Z.leb_gt _ _)) by lia. simpl. rewrite Nat2Z.id.
      split; [split; simpl|].
      * intros j t [[_ ?]|[Hne Ht]]%list_lookup_insert_Some; [naive_solver|].
        rewrite lookup_delete_ne; [by apply He|]. intros Heq. by eapply Hne, eq_sym, Huniq.
      * intros h' z' [Hne Hz']%lookup_delete_Some. destruct (Hi _ _ Hz') as [->|(j & t & -> & Ht & Hj)]; [by left|right].
        exists j, t. split_and!; [done| |done]. rewrite list_lookup_insert_ne; [done|]. intros <-. congruence.
      * unfold reap_abs. simpl. rewrite dom_delete_L. f_equal. rewrite (filter_hole _ i tx) by (congruence || naive_solver). by rewrite Hh.
  - split; [done|]. unfold reap_abs. simpl. f_equal.
    + symmetry. apply filter_keep. intros t Ht%elem_omap_id <-. apply list_elem_of_lookup in Ht as [i Ht]. by rewrite (He _ _ Ht) in Hz.
    + apply not_elem_of_dom in Hz. set_solver.
Qed.

(** ** Reap *)

Definition mark (taken : list txWithHash) (index : gmap string Z) : gmap string Z :=
  foldl (fun m tx => <[rt_hash tx := -1]> m) index taken.

Lemma mark_lookup taken index h : mark taken index !! h = if decide (h ∈ rt_hash <$> taken) then Some (-1) else index !! h.
Proof.
  revert index. induction taken as [|tx taken IH]; intros index; [done|].
  change (mark (tx :: taken) index) with (mark taken (<[rt_hash tx := -1]> index)). rewrite IH, fmap_cons.
  destruct (decide (h = rt_hash tx)) as [->|Hne]; [rewrite lookup_insert_eq|rewrite lookup_insert_ne by done];
    repeat case_decide; try done; set_solver.
Qed.

(** The loop takes what fits, passing over the holes. *)
Lemma reap_loop_spec maxB maxG l idx b g res index : (forall tx, Some tx ∈ l -> is_Some (index !! rt_hash tx)) ->
  exists n taken b' g', reap_loop maxB maxG idx l (MkReap b g res idx index) =
    Ok (MkReap b' g' (res ++ (rt_bytes <$> taken)) (idx + n) (mark taken index)) /\
    taken = take_fit maxB maxG b g (omap id l) /\ omap id (drop n l) = drop (length taken) (omap id l).
Proof.
  revert idx b g res index. induction l as [|[tx|] l IH]; intros idx b g res index Hin; simpl.
  - exists 0%nat, [], b, g. rewrite app_nil_r, Nat.add_0_r. done.
  - change (exceeds maxB maxG (MkReap b g [] 0 ∅) tx) with (exceeds maxB maxG (MkReap b g res idx index) tx).
    destruct (exceeds maxB maxG (MkReap b g res idx index) tx).
    { exists 0%nat, [], b, g. rewrite app_nil_r, Nat.add_0_r. done. }
    rewrite bool_decide_eq_true_2 by (apply Hin; by left).
    destruct (IH (S idx) (u64 (b + len (rt_bytes tx))) (u64 (g + rt_gas tx)) (res ++ [rt_bytes tx]) (<[rt_hash tx := -1]> index))
      as (n & taken & b' & g' & Hrun & Htaken & Hdrop).
    { intros t Ht. apply lookup_insert_is_Some'. right. apply Hin. by right. }
    exists (S n), (tx :: taken), b', g'. split_and!; [rewrite Hrun; do 2 f_equal; [by rewrite <- app_assoc|lia]|by rewrite Htaken|done].
  - destruct (IH (S idx) b g res index) as (n & taken & b' & g' & Hrun & Htaken & Hdrop); [intros t Ht; apply Hin; by right|].
    exists (S n), taken, b', g'. split_and!; [rewrite Hrun; do 2 f_equal; lia|done|done].
Qed.

Lemma reindex_spec l i index : NoDup (rt_hash <$> l) -> (forall tx, tx ∈ l -> is_Some (index !! rt_hash tx)) ->
  exists index', reindex i l index = Ok index' /\
    (forall j tx, l !! j = Some tx -> index' !! rt_hash tx = Some (Z.of_nat (i + j))) /\
    (forall h, h ∉ rt_hash <$> l -> index' !! h = index !! h).
Proof.
  revert i index. induction l as [|tx l IH]; intros i index Hnd Hin; simpl; [by exists index|].
  rewrite fmap_cons, NoDup_cons in Hnd. destruct Hnd as [Hn Hnd]. rewrite bool_decide_eq_true_2 by (apply Hin; by left).
  destruct (IH (S i) (<[rt_hash tx := Z.of_nat i]> index)) as (index' & Hrun & H1 & H2); [done| |].
  { intros t Ht. apply lookup_insert_is_Some'. right. apply Hin. by right. }
  exists index'. split_and!; [done| |].
  - intros [|j] t Ht; simpl in Ht; [injection Ht as <-|].
    + rewrite H2, lookup_insert_eq by done. do 2 f_equal. lia.
    + rewrite (H1 _ _ Ht). do 2 f_equal. lia.
  - intros h Hh. rewrite not_elem_of_cons in Hh. rewrite H2 by apply Hh. rewrite lookup_insert_ne; [done|]. symmetry. apply Hh.
Qed.

Lemma queue_NoDup r : reap_ok r -> NoDup (rt_hash <$> omap id (rl_txs r)).
Proof.
  intros [He _]. assert (forall i j t u, rl_txs r !! i = Some (Some t) -> rl_txs r !! j = Some (Some u) -> rt_hash t = rt_hash u -> i = j) as Hinj.
  { intros i j t u Ht Hu Heq. pose proof (He _ _ Ht) as H1. rewrite Heq, (He _ _ Hu) in H1. injection H1. lia. }
  clear He. induction (rl_txs r) as [|[t|] l IH]; simpl; [constructor| |].
  - constructor; [|apply IH; intros i j x y Hx Hy E; by injection (Hinj (S i) (S j) x y Hx Hy E)].
    intros (u & Hu & Hin)%list_elem_of_fmap. apply elem_omap_id, list_elem_of_lookup in Hin as [j Hj]. by pose proof (Hinj 0%nat (S j) t u eq_refl Hj Hu).
  - apply IH. intros i j x y Hx Hy E. by injection (Hinj (S i) (S j) x y Hx Hy E).
Qed.

Lemma take_fit_prefix maxB maxG b g q : exists l', q = take_fit maxB maxG b g q ++ l'.
Proof.
  revert b g. induction q as [|tx q IH]; intros b g; simpl; [by exists []|]. destruct (exceeds _ _ _ _); [by exists (tx :: q)|].
  destruct (IH (u64 (b + len (rt_bytes tx))) (u64 (g + rt_gas tx))) as [l' Hl']. exists l'. simpl. by f_equal.
Qed.

(** The list after the entries [taken] left and the rest moved to the start. *)
Lemma rest_indexed r taken l' index : reap_ok r -> omap id (rl_txs r) = taken ++ l' ->
  (forall x, x ∈ rt_hash <$> taken -> x ∉ rt_hash <$> l') ->
  (forall tx, tx ∈ omap id (rl_txs r) -> is_Some (rl_txIndex r !! rt_hash tx)) ->
  (forall j tx, l' !! j = Some tx -> index !! rt_hash tx = Some (Z.of_nat (0 + j))) ->
  (forall h, h ∉ rt_hash <$> l' -> index !! h = mark taken (rl_txIndex r) !! h) ->
  reap_ok (MkReapList (Some <$> l') index) /\ dom index = dom (rl_txIndex r).
Proof.
  intros [He Hi] Hq Hdisj Hsome H1 H2.
  assert (forall h, h ∈ rt_hash <$> l' -> exists j tx, l' !! j = Some tx /\ rt_hash tx = h /\ index !! h = Some (Z.of_nat j)) as Hin.
  { intros h (tx & -> & [j Hj]%list_elem_of_lookup)%list_elem_of_fmap. exists j, tx. split_and!; [done|done|]. by rewrite (H1 _ _ Hj). }
  split; [split; simpl|].
  - intros i tx Ht. rewrite list_lookup_fmap in Ht. destruct (l' !! i) as [t|] eqn:Hl; simplify_eq/=. by apply H1.
  - intros h z Hz. destruct (decide (h ∈ rt_hash <$> l')) as [Hh|Hh].
    + destruct (Hin h Hh) as (j & tx & Hj & Hhash & Hidx). right. exists j, tx. rewrite Hidx in Hz. injection Hz as <-.
      rewrite list_lookup_fmap, Hj. done.
    + rewrite H2, mark_lookup in Hz by done. case_decide as Hd; [left; congruence|].
      destruct (Hi _ _ Hz) as [->|(i & tx & -> & Ht & <-)]; [by left|]. exfalso.
      assert (tx ∈ taken ++ l') as [Hx|Hx]%elem_of_app by (rewrite <- Hq; apply elem_omap_id; by eapply list_elem_of_lookup_2);
        [apply Hd|apply Hh]; by apply list_elem_of_fmap_2.
  - apply set_eq. intros h. rewrite !elem_of_dom. destruct (decide (h ∈ rt_hash <$> l')) as [Hh|Hh].
    + destruct (Hin h Hh) as (j & tx & Hj & <- & ->). split; [|done]. intros _. apply Hsome. rewrite Hq. apply elem_of_app. right.
      by eapply list_elem_of_lookup_2.
    + rewrite H2, mark_lookup by done. case_decide as Hd; [|done]. split; [|done]. intros _.
      apply list_elem_of_fmap in Hd as (tx & -> & Htx). apply Hsome. rewrite Hq. apply elem_of_app. by left.
Qed.

Lemma reap_refines maxB maxG r : reap_ok r -> exists r', Reap maxB maxG r = Ok ((spec_step (RReap maxB maxG) (reap_abs r)).1, r') /\
  reap_ok r' /\ reap_abs r' = (spec_step (RReap maxB maxG) (reap_abs r)).2.
Proof.
  intros Hok. pose proof Hok as [He Hi]. unfold Reap.
  destruct (reap_loop_spec maxB maxG (rl_txs r) 0 0 0 [] (rl_txIndex r)) as (n & taken & b' & g' & -> & Htaken & Hdrop).
  { intros tx [i Ht]%list_elem_of_lookup. by rewrite (He _ _ Ht). }
  cbn [obind rs_next rs_index rs_result]. rewrite Nat.add_0_l. set (q := omap id (rl_txs r)) in *.
  assert ((if Nat.leb (length (rl_txs r)) n then [] else omap id (drop n (rl_txs r))) = drop (length taken) q) as ->.
  { rewrite <- Hdrop. destruct (Nat.leb_spec (length (rl_txs r)) n); [|done]. by rewrite drop_ge. }
  set (rest := drop (length taken) q).
  assert (exists l', q = taken ++ l') as [l' Hq].
  { rewrite Htaken. apply take_fit_prefix. }
  assert (rest = l') as Hrest by (unfold rest; rewrite Hq; apply drop_app_length). clearbody rest. subst rest.
  pose proof (queue_NoDup r Hok) as Hnd. fold q in Hnd. rewrite Hq, fmap_app, NoDup_app in Hnd. destruct Hnd as (_ & Hdisj & Hnd).
  assert (forall tx, tx ∈ q -> is_Some (rl_txIndex r !! rt_hash tx)) as Hsome.
  { intros tx [i Ht]%elem_omap_id%list_elem_of_lookup. by rewrite (He _ _ Ht). }
  destruct (reindex_spec l' 0 (mark taken (rl_txIndex r))) as (index & -> & H1 & H2); [done| |].
  { intros tx Ht. rewrite mark_lookup. case_decide; [done|]. apply Hsome. rewrite Hq. apply elem_of_app. by right. }
  simpl. eexists. split; [by rewrite Htaken|].
  destruct (rest_indexed r taken l' index Hok Hq) as [Hok' Hdom]; [done..|]. split; [done|]. unfold reap_abs. simpl. fold q.
  rewrite <- Htaken, Hdom, Hq, drop_app_length. f_equal. clear. induction l' as [|t l' IH]; simpl; [done|]. by f_equal.
Qed.

(** ** Any sequence of calls *)

Lemma step_refines o r : reap_ok r -> exists r', reap_step o r = Ok ((spec_step o (reap_abs r)).1, r') /\ reap_ok r' /\
  reap_abs r' = (spec_step o (reap_abs r)).2.
Proof.
  intros Hok. destruct o as [h tx gas|h|maxB maxG].
  - simpl. unfold PushEVMTx, rl_exists. case_bool_decide as Hin.
    + exists r. rewrite bool_decide_eq_true_2 by (by apply elem_of_dom). done.
    + rewrite bool_decide_eq_false_2 by (by rewrite elem_of_dom). simpl. eexists. split; [done|].
      apply push_refines; [done|]. by destruct (rl_txIndex r !! h) eqn:E; [destruct Hin|].
  - simpl. eexists. split; [done|]. by apply drop_refines.
  - by apply reap_refines.
Qed.

(** C32: The reap list never panics and is a queue: whatever is pushed, dropped
    and reaped, [Reap] returns the oldest transactions that fit the limits, in
    order; one that was reaped is not returned again unless it is dropped and
    pushed anew, and one that was dropped is not returned. *)
Theorem reap_list_refines ops : exists outs r, reap_run ops NewReapList = Ok (outs, r) /\
  spec_run ops (MkReapSpec [] ∅) = (outs, reap_abs r).
Proof.
  assert (reap_ok NewReapList) as Hok by (split; [done|]; intros h z; simpl; by rewrite lookup_empty).
  assert (MkReapSpec [] ∅ = reap_abs NewReapList) as -> by (unfold reap_abs; simpl; by rewrite dom_empty_L).
  revert Hok. generalize NewReapList as r. induction ops as [|o ops IH]; intros r Hok; simpl; [by eexists _, _|].
  destruct (step_refines o r Hok) as (r1 & -> & Hok1 & Habs). cbn [obind]. destruct (spec_step o (reap_abs r)) as [out s1]. simpl in *. subst s1.
  destruct (IH r1 Hok1) as (outs & r2 & -> & ->). by eexists _, _.
Qed.

(** ** Reservations

    What the sub-pools see: an address has an owner and a number of holds. A
    sub-pool that does not count has one hold at most. *)

Abbreviation holds := (gmap addr (Z * Z)).

Definition spec_hold (id : Z) (counts : bool) (m : holds) (a : addr) : holds :=
  match m !! a with
  | None => <[a := (id, 1)]> m
  | Some (o, n) => if counts then <[a := (o, n + 1)]> m else m
  end.
Definition spec_release (m : holds) (a : addr) : holds :=
  match m !! a with
  | None => m
  | Some (o, n) => if n <=? 1 then delete a m else <[a := (o, n - 1)]> m
  end.

Inductive reserve_op := OpHold (addrs : list addr) | OpRelease (addrs : list addr).

(** The tracker and the handles by sub-pool: none, or its counters if it has. *)
Definition reserve_state : Type := Reservations * gmap Z (option (gmap addr Z)).

Definition reserve_exec (id : Z) (o : reserve_op) (s : reserve_state) : outcome unit * reserve_state :=
  match s.2 !! id with
  | None => (Ok tt, s)
  | Some refs =>
    let '(r, (t, h)) := (match o with OpHold l => Hold l | OpRelease l => Release l end) (s.1, MkHandle id refs) in
    (r, (t, <[id := rh_refs h]> s.2))
  end.
Definition reserve_spec (counts : gmap Z bool) (id : Z) (o : reserve_op) (m : holds) : outcome unit * holds :=
  match counts !! id with
  | None => (Ok tt, m)
  | Some c =>
    match o with
    | OpHold l => if forallb (fun a => match m !! a with Some (o, _) => o =? id | None => true end) l
                  then (Ok tt, foldl (spec_hold id c) m l) else (Err "address already reserved", m)
    | OpRelease l =>
      match all_ok (fun a => match m !! a with
                             | Some (o, _) => oguard (o =? id) "address not owned by sub-pool"
                             | None => Err "address not reserved"
                             end) l with
      | Ok _ => (Ok tt, foldl spec_release m l)
      | e => (e, m)
      end
    end
  end.

Definition refs_of (id : Z) (m : holds) (a : addr) : option Z :=
  match m !! a with Some (o, n) => if o =? id then Some n else None | None => None end.

Record reserved (counts : gmap Z bool) (s : reserve_state) (m : holds) : Prop := {
  rv_owner a : s.1 !! a = fst <$> m !! a;
  rv_pools id : counts !! id = (fun r => bool_decide (is_Some r)) <$> s.2 !! id;
  rv_counted id refs a : s.2 !! id = Some (Some refs) -> refs !! a = refs_of id m a;
  rv_single a o n : m !! a = Some (o, n) -> 1 <= n /\ (counts !! o = Some false -> n = 1) /\ is_Some (counts !! o);
}.

(** The state with the handle [h] put back. *)
Definition put_back (hs : gmap Z (option (gmap addr Z))) (s : Reservations * ReservationHandle) : reserve_state :=
  (s.1, <[rh_id s.2 := rh_refs s.2]> hs).
Definition mine (id : Z) (m : holds) (a : addr) : Prop := match m !! a with Some (o, _) => o = id | None => True end.

Lemma refs_of_insert id m a o n b : refs_of id (<[a := (o, n)]> m) b =
  if decide (b = a) then (if o =? id then Some n else None) else refs_of id m b.
Proof. unfold refs_of. destruct (decide (b = a)) as [->|]; [by rewrite lookup_insert_eq|by rewrite lookup_insert_ne]. Qed.
Lemma refs_of_delete id m a b : refs_of id (delete a m) b = if decide (b = a) then None else refs_of id m b.
Proof. unfold refs_of. destruct (decide (b = a)) as [->|]; [by rewrite lookup_delete_eq|by rewrite lookup_delete_ne]. Qed.

(** A change of the holds at one address by its owner [id]. *)
Lemma reserved_step counts hs id refs t m a refs' t' m' c :
  reserved counts (put_back hs (t, MkHandle id refs)) m -> counts !! id = Some c -> mine id m a -> mine id m' a ->
  (refs = None <-> refs' = None) -> (forall b, b <> a -> t' !! b = t !! b /\ m' !! b = m !! b) -> t' !! a = fst <$> m' !! a ->
  (forall r r', refs = Some r -> refs' = Some r' -> r' !! a = snd <$> m' !! a /\ forall b, b <> a -> r' !! b = r !! b) ->
  (forall o n, m' !! a = Some (o, n) -> 1 <= n /\ (c = false -> n = 1)) ->
  reserved counts (put_back hs (t', MkHandle id refs')) m'.
Proof.
  intros [H1 H2 H3 H4] Hc Hm Hm' Hsome Hother Hta Hr Hn. unfold put_back in *. cbn [fst snd rh_id rh_refs] in *. split; cbn [fst snd].
  - intros b. destruct (decide (b = a)) as [->|Hb]; [done|]. destruct (Hother b Hb) as [-> ->]. apply H1.
  - intros i. rewrite H2. destruct (decide (i = id)) as [->|Hi]; [|by rewrite !lookup_insert_ne by done].
    rewrite !lookup_insert_eq. destruct refs, refs'; try done; [by discriminate (proj2 Hsome eq_refl)|by discriminate (proj1 Hsome eq_refl)].
  - intros i r b Hi. unfold refs_of. destruct (decide (b = a)) as [->|Hb].
    + destruct (decide (i = id)) as [->|Hne].
      * rewrite lookup_insert_eq in Hi. injection Hi as ->. destruct refs as [r0|]; [|by discriminate (proj1 Hsome eq_refl)].
        destruct (Hr r0 r eq_refl eq_refl) as [-> _]. unfold mine in Hm'. destruct (m' !! a) as [[o n]|]; [|done]. subst o. by rewrite Z.eqb_refl.
      * rewrite lookup_insert_ne in Hi by done. rewrite (H3 i r a) by (by rewrite lookup_insert_ne). unfold refs_of, mine in *.
        destruct (m !! a) as [[o n]|], (m' !! a) as [[o' n']|]; subst; try done; by rewrite ?(proj2 (Z.eqb_neq _ _) (not_eq_sym Hne)).
    + destruct (Hother b Hb) as [_ ->]. fold (refs_of i m b). destruct (decide (i = id)) as [->|Hne].
      * rewrite lookup_insert_eq in Hi. injection Hi as ->. destruct refs as [r0|].
        -- destruct (Hr r0 r eq_refl eq_refl) as [_ ->]; [|done]. apply H3. by rewrite lookup_insert_eq.
        -- by discriminate (proj1 Hsome eq_refl).
      * apply H3. by rewrite lookup_insert_ne in Hi |- *.
  - intros b o n Hb. destruct (decide (b = a)) as [->|Hne].
    + destruct (Hn o n Hb). unfold mine in Hm'. rewrite Hb in Hm'. subst o. rewrite Hc. split_and!; [done|naive_solver|done].
    + destruct (Hother b Hne) as [_ Heq]. rewrite Heq in Hb. by apply (H4 b).
Qed.

(** The handle's counter of an address that no other sub-pool holds. *)
Lemma own_count counts hs t id refs m a r : reserved counts (put_back hs (t, MkHandle id refs)) m -> mine id m a ->
  refs = Some r -> r !! a = snd <$> m !! a.
Proof.
  intros [_ _ H3 _] Hm ->. rewrite (H3 id r a) by (apply lookup_insert_eq). unfold refs_of, mine in *.
  destruct (m !! a) as [[o n]|]; [|done]. subst o. by rewrite Z.eqb_refl.
Qed.

Lemma hold_one_ok counts hs s m a c : reserved counts (put_back hs s) m -> counts !! rh_id s.2 = Some c -> mine (rh_id s.2) m a ->
  reserved counts (put_back hs (hold_one s a)) (spec_hold (rh_id s.2) c m a).
Proof.
  destruct s as [t [id refs]]. cbn [snd rh_id]. intros Hr Hc Hm. pose proof Hr as [H1 H2 H3 H4]. cbn [fst snd put_back rh_id rh_refs] in *.
  specialize (H2 id). rewrite Hc, lookup_insert_eq in H2. injection H2 as ->.
  assert (forall b, b <> a -> spec_hold id (bool_decide (is_Some refs)) m a !! b = m !! b) as Hb.
  { intros b Hb. unfold spec_hold. repeat case_match; by rewrite ?lookup_insert_ne by done. }
  pose proof (fun r => own_count counts hs t id refs m a r Hr Hm) as Hra.
  unfold hold_one. eapply (reserved_step counts hs id refs t m a); [exact Hr|exact Hc|exact Hm| | | | | |].
  - unfold mine, spec_hold in *. destruct (m !! a) as [[o n]|] eqn:E; [|by rewrite lookup_insert_eq].
    subst o. case_match; [by rewrite lookup_insert_eq|by rewrite E].
  - by destruct refs.
  - intros b Hne. split; [|by apply Hb]. case_match; by rewrite ?lookup_insert_ne by done.
  - rewrite (H1 a). unfold spec_hold. destruct (m !! a) as [[o n]|] eqn:E; simpl; [|by rewrite !lookup_insert_eq].
    rewrite H1, E. simpl. case_match; [by rewrite lookup_insert_eq|by rewrite E].
  - intros r r' -> [= <-]. rewrite lookup_insert_eq. split; [|intros b Hne; by rewrite lookup_insert_ne]. rewrite (Hra r eq_refl).
    unfold spec_hold. simpl. destruct (m !! a) as [[o n]|]; by rewrite lookup_insert_eq.
  - intros o n. unfold spec_hold. destruct (m !! a) as [[o' n']|] eqn:E.
    + destruct (H4 a o' n' E) as (Hn & Hs & _). case_bool_decide; [rewrite lookup_insert_eq; intros [= <- <-]; split; [lia|done]|].
      rewrite E. intros [= <- <-]. split; [done|]. intros _. apply Hs. unfold mine in Hm. rewrite E in Hm. by subst o'.
    + rewrite lookup_insert_eq. intros [= <- <-]. done.
Qed.

Lemma release_one_ok counts hs s m a c : reserved counts (put_back hs s) m -> counts !! rh_id s.2 = Some c -> mine (rh_id s.2) m a ->
  reserved counts (put_back hs (release_one s a)) (spec_release m a).
Proof.
  destruct s as [t [id refs]]. cbn [snd rh_id]. intros Hr Hc Hm. pose proof Hr as [H1 H2 H3 H4]. cbn [fst snd put_back rh_id rh_refs] in *.
  specialize (H2 id). rewrite Hc, lookup_insert_eq in H2. injection H2 as ->.
  assert (forall b, b <> a -> spec_release m a !! b = m !! b) as Hb.
  { intros b Hb. unfold spec_release. repeat case_match; by rewrite ?lookup_insert_ne, ?lookup_delete_ne by done. }
  pose proof (fun r => own_count counts hs t id refs m a r Hr Hm) as Hra.
  assert (forall t' refs', release_one (t, MkHandle id refs) a = (t', MkHandle id refs') ->
    (refs = None <-> refs' = None) /\ (forall b, b <> a -> t' !! b = t !! b) /\ t' !! a = fst <$> spec_release m a !! a /\
    (forall r r', refs = Some r -> refs' = Some r' -> r' !! a = snd <$> spec_release m a !! a /\ forall b, b <> a -> r' !! b = r !! b)) as Hrel.
  { intros t' refs'. unfold release_one, spec_release. cbn [rh_refs rh_id]. specialize (H1 a). destruct refs as [r|].
    - specialize (Hra r eq_refl). rewrite Hra. destruct (m !! a) as [[o n]|] eqn:E; simpl in *; [destruct (n <=? 1) eqn:En|];
        intros [= <- <-]; (split; [done|]); rewrite ?lookup_delete_eq, ?lookup_insert_eq, ?E, ?H1; (split_and!; [|done|]);
        try (intros b Hne; by rewrite ?lookup_delete_ne by done); intros r1 r2 [= <-] [= <-];
        rewrite ?lookup_delete_eq, ?lookup_insert_eq; (split; [done|]); intros b Hne; by rewrite ?lookup_delete_ne, ?lookup_insert_ne by done.
    - intros [= <- <-]. split; [done|]. split; [intros b Hne; by rewrite lookup_delete_ne|]. split; [|done]. rewrite lookup_delete_eq.
      destruct (m !! a) as [[o n]|] eqn:E; [|by rewrite E]. destruct (H4 a o n E) as (_ & Hs & _). unfold mine in Hm. rewrite E in Hm. subst o.
      rewrite (Hs Hc). simpl. by rewrite lookup_delete_eq. }
  destruct (release_one (t, MkHandle id refs) a) as [t' [id' refs']] eqn:Eq.
  assert (id' = id) as -> by (unfold release_one in Eq; cbn [rh_refs rh_id] in Eq; repeat case_match; by injection Eq).
  destruct (Hrel t' refs' eq_refl) as (R1 & R2 & R3 & R4).
  eapply (reserved_step counts hs id refs t m a); [exact Hr|exact Hc|exact Hm| |exact R1| |exact R3|exact R4|].
  - unfold mine, spec_release in *. destruct (m !! a) as [[o n]|] eqn:E; [|by rewrite E]. subst o.
    case_match; [by rewrite lookup_delete_eq|by rewrite lookup_insert_eq].
  - intros b Hne. split; [by apply R2|by apply Hb].
  - intros o n. unfold spec_release. destruct (m !! a) as [[o' n']|] eqn:E; [|by rewrite E]. destruct (H4 a o' n' E) as (Hn & Hs & _).
    destruct (n' <=? 1) eqn:En; zify_bool; [by rewrite lookup_delete_eq|]. rewrite lookup_insert_eq. intros [= <- <-]. split; [lia|].
    intros Hf. unfold mine in Hm. rewrite E in Hm. subst o'. rewrite Hc, Hf in Hs. specialize (Hs eq_refl). lia.
Qed.

Lemma spec_hold_mine id c m a b : mine id m b -> mine id (spec_hold id c m a) b.
Proof.
  unfold mine, spec_hold. destruct (decide (a = b)) as [->|Hne].
  - destruct (m !! b) as [[o n]|] eqn:E; [|by rewrite lookup_insert_eq]. intros ->. destruct c; [by rewrite lookup_insert_eq|by rewrite E].
  - destruct (m !! a) as [[o n]|]; [destruct c|]; by rewrite ?lookup_insert_ne by done.
Qed.
Lemma spec_release_mine id m a b : mine id m b -> mine id (spec_release m a) b.
Proof.
  unfold mine, spec_release. destruct (decide (a = b)) as [->|Hne].
  - destruct (m !! b) as [[o n]|] eqn:E; [|by rewrite E]. intros ->. destruct (n <=? 1); [by rewrite lookup_delete_eq|by rewrite lookup_insert_eq].
  - destruct (m !! a) as [[o n]|]; [destruct (n <=? 1)|]; by rewrite ?lookup_insert_ne, ?lookup_delete_ne by done.
Qed.

Lemma hold_all_ok counts hs l s m c : reserved counts (put_back hs s) m -> counts !! rh_id s.2 = Some c -> Forall (mine (rh_id s.2) m) l ->
  reserved counts (put_back hs (foldl hold_one s l)) (foldl (spec_hold (rh_id s.2) c) m l) /\ rh_id (foldl hold_one s l).2 = rh_id s.2.
Proof.
  revert s m. induction l as [|a l IH]; intros s m Hr Hc Hl; [done|]. apply Forall_cons in Hl as [Ha Hl]. cbn [foldl].
  assert (rh_id (hold_one s a).2 = rh_id s.2) as Hid by (by destruct s).
  destruct (IH (hold_one s a) (spec_hold (rh_id s.2) c m a)) as [H1 H2]; rewrite ?Hid in *; [by apply hold_one_ok|done| |done].
  eapply Forall_impl; [exact Hl|]. intros b. apply spec_hold_mine.
Qed.
Lemma release_all_ok counts hs l s m c : reserved counts (put_back hs s) m -> counts !! rh_id s.2 = Some c -> Forall (mine (rh_id s.2) m) l ->
  reserved counts (put_back hs (foldl release_one s l)) (foldl spec_release m l) /\ rh_id (foldl release_one s l).2 = rh_id s.2.
Proof.
  revert s m. induction l as [|a l IH]; intros s m Hr Hc Hl; [done|]. apply Forall_cons in Hl as [Ha Hl]. cbn [foldl].
  assert (rh_id (release_one s a).2 = rh_id s.2) as Hid by (destruct s as [t [id refs]]; unfold release_one; by repeat case_match).
  destruct (IH (release_one s a) (spec_release m a)) as [H1 H2]; rewrite ?Hid in *; [by eapply release_one_ok|done| |done].
  eapply Forall_impl; [exact Hl|]. intros b. apply spec_release_mine.
Qed.

Lemma can_hold_all counts s m id refs l : reserved counts s m ->
  all_ok (canHold s.1 (MkHandle id refs)) l =
    (if forallb (fun a => match m !! a with Some (o, _) => o =? id | None => true end) l then Ok tt else Err "address already reserved") /\
  (all_ok (canHold s.1 (MkHandle id refs)) l = Ok tt -> Forall (mine id m) l).
Proof.
  intros Hr. induction l as [|a l [IH1 IH2]]; simpl; [by split|]. unfold canHold at 1 3, mine at 1. rewrite (rv_owner _ _ _ Hr). simpl.
  destruct (m !! a) as [[o n]|] eqn:E; simpl.
  - destruct (o =? id) eqn:Eo; simpl; [|done]. zify_bool. split; [done|]. intros H. constructor; [unfold mine; by rewrite E|by apply IH2].
  - split; [done|]. intros H. constructor; [unfold mine; by rewrite E|by apply IH2].
Qed.
Lemma can_release_all counts s m id refs l : reserved counts s m ->
  all_ok (canRelease s.1 (MkHandle id refs)) l =
    all_ok (fun a => match m !! a with
                     | Some (o, _) => oguard (o =? id) "address not owned by sub-pool"
                     | None => Err "address not reserved"
                     end) l /\
  (all_ok (canRelease s.1 (MkHandle id refs)) l = Ok tt -> Forall (mine id m) l).
Proof.
  intros Hr. induction l as [|a l [IH1 IH2]]; simpl; [by split|]. unfold canRelease at 1 3. rewrite (rv_owner _ _ _ Hr). simpl.
  destruct (m !! a) as [[o n]|] eqn:E; simpl; [|done]. destruct (o =? id) eqn:Eo; simpl; [|done]. zify_bool.
  split; [done|]. intros H. constructor; [unfold mine; by rewrite E|by apply IH2].
Qed.

Lemma put_back_same hs t id refs : hs !! id = Some refs -> put_back hs (t, MkHandle id refs) = (t, hs).
Proof. intros H. unfold put_back. simpl. by rewrite insert_id. Qed.

Lemma reserve_refines counts id o s m : reserved counts s m ->
  (reserve_exec id o s).1 = (reserve_spec counts id o m).1 /\ reserved counts (reserve_exec id o s).2 (reserve_spec counts id o m).2.
Proof.
  intros Hr. unfold reserve_exec, reserve_spec. pose proof (rv_pools _ _ _ Hr id) as Hp. rewrite Hp.
  destruct (s.2 !! id) as [refs|] eqn:Hs; simpl in *; [|done]. destruct s as [t hs]. simpl in *.
  rewrite <- (put_back_same hs t id refs Hs) in Hr. destruct o as [l|l].
  - destruct (can_hold_all counts _ m id refs l Hr) as [H1 H2]. simpl in H1, H2. unfold Hold. simpl. rewrite H1 in H2 |- *. clear H1.
    destruct (forallb _ l); [|split; [done|exact Hr]].
    destruct (hold_all_ok counts hs l (t, MkHandle id refs) m _ Hr Hp (H2 eq_refl)) as [H3 H4].
    destruct (foldl hold_one _ l) as [t' h']. simpl in *. unfold put_back in H3. simpl in H3. by rewrite H4 in H3.
  - destruct (can_release_all counts _ m id refs l Hr) as [H1 H2]. simpl in H1, H2. unfold Release. simpl. rewrite H1 in H2 |- *. clear H1.
    destruct (all_ok _ l) as [[]| |]; [|split; [done|exact Hr]..].
    destruct (release_all_ok counts hs l (t, MkHandle id refs) m _ Hr Hp (H2 eq_refl)) as [H3 H4].
    destruct (foldl release_one _ l) as [t' h']. simpl in *. unfold put_back in H3. simpl in H3. by rewrite H4 in H3.
Qed.

Fixpoint reserve_run (ops : list (Z * reserve_op)) (s : reserve_state) : list (outcome unit) * reserve_state :=
  match ops with
  | [] => ([], s)
  | (id, o) :: ops' => let (r, s1) := reserve_exec id o s in let (rs, s2) := reserve_run ops' s1 in (r :: rs, s2)
  end.
Fixpoint reserve_spec_run (counts : gmap Z bool) (ops : list (Z * reserve_op)) (m : holds) : list (outcome unit) * holds :=
  match ops with
  | [] => ([], m)
  | (id, o) :: ops' =>
    let (r, m1) := reserve_spec counts id o m in let (rs, m2) := reserve_spec_run counts ops' m1 in (r :: rs, m2)
  end.
Definition new_reservations (counts : gmap Z bool) : reserve_state := (∅, (fun c : bool => if c then Some ∅ else None) <$> counts).

(** Reservations of accounts by the sub-pools: whatever they hold and
    release, the calls succeed and fail, and the accounts are owned, as in a
    table of owners and hold counts. An address has one owner, another sub-pool
    fails to hold or release it, and it is free again when its owner has
    released it as often as held, or once if that sub-pool does not count. *)
Theorem reserver_refines counts ops : exists rs s m, reserve_run ops (new_reservations counts) = (rs, s) /\
  reserve_spec_run counts ops ∅ = (rs, m) /\ (forall a, s.1 !! a = fst <$> m !! a) /\
  forall id a, Reserver_Has s.1 (MkHandle id None) a = match m !! a with Some (o, _) => negb (o =? id) | None => false end.
Proof.
  assert (reserved counts (new_reservations counts) ∅) as Hr.
  { split; simpl; intros *; rewrite ?lookup_empty; try done.
    - rewrite lookup_fmap. by destruct (counts !! id) as [[]|].
    - rewrite lookup_fmap. destruct (counts !! id) as [[]|]; simpl; intros [= <-]. unfold refs_of. by rewrite !lookup_empty. }
  revert Hr. generalize (new_reservations counts) as s0. generalize (∅ : holds) as m0.
  induction ops as [|[id o] ops IH]; intros m0 s0 Hr; simpl.
  - eexists _, _, _. split_and!; [done|done|apply Hr|]. intros id a. unfold Reserver_Has. rewrite (rv_owner _ _ _ Hr). by destruct (m0 !! a) as [[]|].
  - destruct (reserve_refines counts id o s0 m0 Hr) as [H1 H2]. destruct (reserve_exec id o s0) as [r s1], (reserve_spec counts id o m0) as [r' m1].
    simpl in *. subst r'. destruct (IH m1 s1 H2) as (rs & s & m & -> & -> & H3). by eexists _, _, _.
Qed.

(** ** Nonces *)

Lemma nc_get_set (GetNonce : addr -> Z) a b nonce n :
  (nc_get GetNonce b (nc_set a nonce n)).1 = if decide (b = a) then nonce else (nc_get GetNonce b n).1.
Proof.
  unfold nc_get, nc_load, nc_set. case_decide as Hb; [subst b; by rewrite !lookup_insert_eq|]. rewrite !lookup_insert_ne by done.
  destruct (n !! b) eqn:E; [by rewrite lookup_insert_ne, E|]. destruct (GetNonce b =? 0); simpl; [by rewrite lookup_insert_ne, E|].
  by rewrite !lookup_insert_eq.
Qed.

Lemma nc_get_setIfLower (GetNonce : addr -> Z) a b nonce n :
  (nc_get GetNonce b (nc_setIfLower GetNonce a nonce n)).1 =
  if decide (b = a) then Z.min nonce (nc_get GetNonce a n).1 else (nc_get GetNonce b n).1.
Proof.
  assert (forall x y, (nc_get GetNonce x (nc_load GetNonce y n)).1 = (nc_get GetNonce x n).1) as Hload.
  { intros x y. unfold nc_get, nc_load. destruct (n !! y) eqn:Ey; [done|]. destruct (GetNonce y =? 0) eqn:Ez; [done|].
    destruct (decide (y = x)) as [->|Hne]; [by rewrite Ey, Ez, lookup_insert_eq, lookup_insert_eq|]. rewrite !lookup_insert_ne by done.
    destruct (n !! x) eqn:Ex; simpl; [by rewrite lookup_insert_ne, Ex|]. destruct (GetNonce x =? 0); simpl; [by rewrite lookup_insert_ne, Ex|].
    by rewrite !lookup_insert_eq. }
  unfold nc_setIfLower. fold (nc_get GetNonce a n).1. destruct (_ <=? nonce) eqn:E; zify_bool.
  - rewrite Hload. case_decide as Hb; [|done]. subst b. unfold nc_get in E |- *. simpl in *. lia.
  - change (<[a := nonce]> (nc_load GetNonce a n)) with (nc_set a nonce (nc_load GetNonce a n)). rewrite nc_get_set, Hload. case_decide as Hb; [|done]. unfold nc_get in E |- *. simpl in *. lia.
Qed.
