(* ===== verification/TxStores.v ===== *)
(** * mempool: the stores of rechecked transactions

    mempool/txpool/legacypool/tx_store.go (EVM transactions by account),
    [filterAndWrapTxs] of legacypool.go and mempool/tx_store.go (Cosmos
    transactions by set of signers). The locks are left out. *)

From Stdlib Require Import ZArith Lia List String Ascii Bool.
From stdpp Require Import base gmap strings list sorting.
From S2P Require Import Prelude GoStrings GoHeap Sdk AccessList StateDB EvmCoin FeeMarket EvmTx TxList PricedList TxOrder.
Local Open Scope Z_scope.
Local Open Scope go_scope.

(** ** txpool/legacypool/tx_store.go *)

Record TxStore := MkTxStore {
  es_txs : gmap addr (list Transaction);
  es_lookup : gset hash;
  es_total : Z;
}.
Definition NewTxStore : TxStore := MkTxStore ∅ ∅ 0.

Record PendingFilter := MkPendingFilter { pf_MinTip : option Z; pf_BaseFee : option Z; pf_OnlyBlobTxs : bool }.

Section evm_store.
Context {Mr : MapRange} {Pl : PoolLibs} {Pr : PriceLibs}.

(** The ones not known yet; each is marked as it is met. *)
Fixpoint unknown_txs (txs : list Transaction) (lookup : gset hash) : list Transaction * gset hash :=
  match txs with
  | [] => ([], lookup)
  | tx :: txs' =>
    if bool_decide (tx_Hash tx ∈ lookup) then unknown_txs txs' lookup
    else let (l, lookup') := unknown_txs txs' ({[tx_Hash tx]} ∪ lookup) in (tx :: l, lookup')
  end.
Definition AddTxs (a : addr) (txs : list Transaction) (s : TxStore) : TxStore :=
  let (toAdd, lookup) := unknown_txs txs (es_lookup s) in
  MkTxStore (<[a := match es_txs s !! a with Some existing => existing ++ toAdd | None => toAdd end]> (es_txs s))
    (list_to_set (tx_Hash <$> toAdd) ∪ lookup) (u64 (es_total s + Z.of_nat (length toAdd))).

Definition RemoveTxsFromNonce (a : addr) (minNonce : Z) (s : TxStore) : TxStore :=
  match es_txs s !! a with
  | None => s
  | Some txs =>
    let gone := List.filter (fun tx => minNonce <=? tx_Nonce tx) txs in
    let next := List.filter (fun tx => negb (minNonce <=? tx_Nonce tx)) txs in
    MkTxStore (match next with [] => delete a (es_txs s) | _ => <[a := next]> (es_txs s) end)
      (foldl (fun l tx => l ∖ {[tx_Hash tx]}) (es_lookup s) gone) (u64 (es_total s - Z.of_nat (length gone)))
  end.

(** *** filterAndWrapTxs *)

Definition effective_tip (tx : Transaction) (baseFee : option Z) : Z :=
  match baseFee with None => tx_GasTipCap tx | Some f => calcEffectiveGasTip tx f end.
Fixpoint until_below (minTip : Z) (baseFee : option Z) (txs : list Transaction) : list Transaction :=
  match txs with
  | [] => []
  | tx :: txs' => if effective_tip tx baseFee <? minTip then [] else tx :: until_below minTip baseFee txs'
  end.
Definition wrap_lazy (time : Transaction -> Z) (tx : Transaction) : outcome LazyTransaction :=
  olet cap <- MustFromBig (tx_GasFeeCap tx);
  olet tip <- MustFromBig (tx_GasTipCap tx);
  Ok (MkLazyTransaction (tx_Hash tx) tx (time tx) cap tip (tx_Gas tx) 0).
Fixpoint omapM {A B} (f : A -> outcome B) (l : list A) : outcome (list B) :=
  match l with [] => Ok [] | x :: l' => olet y <- f x; olet ys <- omapM f l'; Ok (y :: ys) end.
Definition filterAndWrapTxs (time : Transaction -> Z) (txs : list Transaction) (minTip baseFee : option Z) : outcome (list LazyTransaction) :=
  omapM (wrap_lazy time) (match minTip with None => txs | Some t => until_below t baseFee txs end).

(** The transactions of an account are sorted in place. [time]: when a
    transaction was first seen. *)
Definition collect (time : Transaction -> Z) (f : PendingFilter)
    (r : outcome (gmap addr (list LazyTransaction) * TxStore)) (e : addr * list Transaction)
    : outcome (gmap addr (list LazyTransaction) * TxStore) :=
  olet (pending, s) <- r;
  let sorted := merge_sort by_nonce e.2 in
  let s' := MkTxStore (<[e.1 := sorted]> (es_txs s)) (es_lookup s) (es_total s) in
  olet lazies <- filterAndWrapTxs time sorted (pf_MinTip f) (pf_BaseFee f);
  Ok (match lazies with [] => pending | _ => <[e.1 := lazies]> pending end, s').
Definition TxStore_Txs (time : Transaction -> Z) (f : PendingFilter) (s : TxStore)
    : outcome (gmap addr (list LazyTransaction) * TxStore) :=
  if pf_OnlyBlobTxs f then Ok (∅, s) else foldl (collect time f) (Ok (∅, s)) (go_range (es_txs s)).
End evm_store.

(** ** mempool/tx_store.go *)

Section cosmos_store.
Context {Mr : MapRange} {Mp : MempoolTx}.
Abbreviation StoredTx := cosmosTxWithMetadata.

Record cosmosTxBucket := MkBucket { cb_txs : list StoredTx; cb_signers : option (gset string) }.
Record CosmosTxStore := MkCosmosStore { cs_txs : gmap string cosmosTxBucket; cs_nextUnkeyed : Z }.
Definition NewCosmosTxStore : CosmosTxStore := MkCosmosStore ∅ 0.

Fixpoint join_bar (l : list string) : string :=
  match l with
  | [] => EmptyString
  | [k] => k
  | k :: l' => (k +:+ "|" +:+ join_bar l')%string
  end.
Definition sortedSignerKeys (m : gmap string Z) : list string := merge_sort str_le (go_range m).*1.
Definition cosmosTxSignerSetKey (m : gmap string Z) : string := join_bar (sortedSignerKeys m).

(** [%020d]. *)
Definition pad20 (z : Z) : string :=
  let d := FormatInt z in (of_list (repeat "0"%char (20 - String.length d)) +:+ d)%string.
Definition cosmosTxKey (m : gmap string Z) : string :=
  join_bar (map (fun k => (k +:+ "/" +:+ pad20 (default 0 (m !! k)))%string) (sortedSignerKeys m)).
Definition cosmosTxNonceSum (m : gmap string Z) : Z := foldl (fun total e => u64 (total + e.2)) 0 (go_range m).

Fixpoint nonce_map (signers : list (string * Z)) (tx : SdkTx) (m : gmap string Z) : option (gmap string Z) :=
  match signers with
  | [] => Some m
  | (signer, sequence) :: l =>
    match ChooseNonce sequence tx with
    | Ok nonce => nonce_map l tx (<[signer := nonce]> m)
    | _ => None
    end
  end.
Definition cosmosTxNonceMap (tx : SdkTx) : option (gmap string Z) :=
  match GetSigners tx with
  | Ok [] => None
  | Ok signers => nonce_map signers tx ∅
  | _ => None
  end.

Definition newCosmosTxWithMetadata (tx : SdkTx) : StoredTx :=
  match cosmosTxNonceMap tx with
  | None => MkCosmosTx _ tx ∅ 0 EmptyString EmptyString
  | Some m => MkCosmosTx _ tx m (cosmosTxNonceSum m) (cosmosTxSignerSetKey m) (cosmosTxKey m)
  end.

Definition unkeyedSignerKey : string := "unkeyed".
Definition newUnkeyedStoreKey (s : CosmosTxStore) : string * CosmosTxStore :=
  (("unkeyed/" +:+ FormatInt (cs_nextUnkeyed s))%string, MkCosmosStore (cs_txs s) (u64 (cs_nextUnkeyed s + 1))).

Definition containsCosmosTx (l : list StoredTx) (key : string) : bool := existsb (fun t => String.eqb (ct_txKey t) key) l.

Definition at_most (a b : StoredTx) : Prop := compareCosmosTxWithMetadata a b <> Gt.
#[export] Instance at_most_dec : RelDecision at_most.
Proof. intros a b. unfold at_most. apply _. Defined.

Definition keyed_tx (tx : SdkTx) (s : CosmosTxStore) : StoredTx * CosmosTxStore :=
  let t := newCosmosTxWithMetadata tx in
  let signerKey := if String.eqb (ct_signerKey t) EmptyString then unkeyedSignerKey else ct_signerKey t in
  let (txKey, s') := if String.eqb (ct_txKey t) EmptyString then newUnkeyedStoreKey s else (ct_txKey t, s) in
  (MkCosmosTx _ (ct_tx t) (ct_nonceMap t) (ct_nonceSum t) signerKey txKey, s').

Definition CosmosTxStore_AddTx (tx : SdkTx) (s : CosmosTxStore) : CosmosTxStore :=
  let (t, s) := keyed_tx tx s in
  let bucket := default (MkBucket [] None) (cs_txs s !! ct_signerKey t) in
  if containsCosmosTx (cb_txs bucket) (ct_txKey t) then s else
  let signers := match cb_signers bucket with None => dom (ct_nonceMap t) | Some g => g end in
  MkCosmosStore (<[ct_signerKey t := MkBucket (merge_sort at_most (cb_txs bucket ++ [t])) (Some signers)]> (cs_txs s)) (cs_nextUnkeyed s).

Definition invalidatesCosmosTx (t : StoredTx) (thresholds : gmap string Z) : bool :=
  existsb (fun e => match ct_nonceMap t !! e.1 with Some nonce => e.2 <=? nonce | None => false end) (go_range thresholds).
Definition bucketContainsAnySigner (b : cosmosTxBucket) (thresholds : gmap string Z) : bool :=
  existsb (fun e => bool_decide (e.1 ∈ default ∅ (cb_signers b))) (go_range thresholds).

Definition invalidate_bucket (thresholds : gmap string Z) (r : Z * gmap string cosmosTxBucket) (e : string * cosmosTxBucket)
    : Z * gmap string cosmosTxBucket :=
  let (removed, txs) := r in
  if negb (bucketContainsAnySigner e.2 thresholds) then r else
  let next := List.filter (fun t => negb (invalidatesCosmosTx t thresholds)) (cb_txs e.2) in
  (removed + Z.of_nat (length (List.filter (fun t => invalidatesCosmosTx t thresholds) (cb_txs e.2))),
   match next with [] => delete e.1 txs | _ => <[e.1 := MkBucket next (cb_signers e.2)]> txs end).

Definition InvalidateFrom (tx : SdkTx) (s : CosmosTxStore) : Z * CosmosTxStore :=
  let t := newCosmosTxWithMetadata tx in
  if Nat.eqb (size (ct_nonceMap t)) 0 || String.eqb (ct_signerKey t) EmptyString || String.eqb (ct_txKey t) EmptyString then (0, s) else
  match cs_txs s !! ct_signerKey t with
  | None => (0, s)
  | Some bucket =>
    if negb (containsCosmosTx (cb_txs bucket) (ct_txKey t)) then (0, s) else
    let (removed, txs) := foldl (invalidate_bucket (ct_nonceMap t)) (0, cs_txs s) (go_range (cs_txs s)) in
    (removed, MkCosmosStore txs (cs_nextUnkeyed s))
  end.

Definition snapshotTxs (s : CosmosTxStore) : list SdkTx :=
  flat_map (fun k => match cs_txs s !! k with Some b => ct_tx <$> cb_txs b | None => [] end)
    (merge_sort str_le (go_range (cs_txs s)).*1).
Definition CosmosTxStore_Len (s : CosmosTxStore) : Z := foldl (fun n e => n + Z.of_nat (length (cb_txs e.2))) 0 (go_range (cs_txs s)).

(** cosmos_ordering.go: the ordered iterator over a copy. *)
Definition OrderedIterator `{!Inhabited SdkTx} {Ma : SdkMath} (bondDenom : string) (baseFee : option Z) (s : CosmosTxStore) :=
  if Nat.eqb (size (cs_txs s)) 0 then Ok None
  else NewCosmosTransactionsByPriceAndNonce (cb_txs <$> cs_txs s) bondDenom baseFee.
End cosmos_store.
