(* ===== verification/TxStoresTheorems.v ===== *)
(** * The stores of rechecked transactions *)

From Stdlib Require Import ZArith Lia List String Ascii Bool.
From stdpp Require Import base gmap strings list sorting.
From S2P Require Import Prelude GoStrings GoHeap Sdk AccessList StateDB EvmCoin FeeMarket EvmTx TxList TxListTheorems PricedList.
From S2P Require Import TxOrder TxOrderTheorems TxStores.
From S2P Require Import RefEnv FeeMarketTheorems VmRef EvmAnte EvmAnteTheorems.
Local Open Scope Z_scope.
Local Open Scope go_scope.

(** ** EVM transactions *)

Section evm_store_facts.
Context {Mr : MapRange} {Pl : PoolLibs} {Pr : PriceLibs}.
Implicit Types (s : TxStore) (tx : Transaction) (txs : list Transaction) (m : gmap addr (list Transaction)).

Definition all_txs m : list Transaction := concat (map_to_list m).*2.

Lemma all_insert m a txs : m !! a = None -> all_txs (<[a := txs]> m) ≡ₚ txs ++ all_txs m.
Proof. intros H. unfold all_txs. by rewrite map_to_list_insert by done. Qed.

Lemma all_delete m a txs : m !! a = Some txs -> all_txs m ≡ₚ txs ++ all_txs (delete a m).
Proof. intros H. rewrite <- (insert_delete_id m a txs) at 1 by done. apply all_insert, lookup_delete_eq. Qed.

Lemma all_replace m a txs : all_txs (<[a := txs]> m) ≡ₚ txs ++ all_txs (delete a m).
Proof. rewrite <- insert_delete_eq. apply all_insert, lookup_delete_eq. Qed.

Lemma all_split m a : all_txs m ≡ₚ default [] (m !! a) ++ all_txs (delete a m).
Proof. destruct (m !! a) as [txs|] eqn:E; simpl; [by apply all_delete|]. by rewrite delete_id. Qed.

Record store_ok s : Prop := {
  so_distinct : NoDup (tx_Hash <$> all_txs (es_txs s));
  so_lookup : es_lookup s = list_to_set (tx_Hash <$> all_txs (es_txs s));
  so_total : es_total s = u64 (Z.of_nat (length (all_txs (es_txs s))));
}.

Lemma unknown_txs_spec txs known : let (l, known') := unknown_txs txs known in
  NoDup (tx_Hash <$> l) /\ (forall x, x ∈ tx_Hash <$> l -> x ∉ known) /\ known' = list_to_set (tx_Hash <$> l) ∪ known /\ l ⊆+ txs.
Proof.
  revert known. induction txs as [|tx txs IH]; intros known; simpl.
  { split_and!; [constructor|by intros ? ?%not_elem_of_nil|set_solver|done]. }
  case_bool_decide as Hin.
  - specialize (IH known). destruct (unknown_txs txs known) as [l k]. destruct IH as (H1 & H2 & H3 & H4). split_and!; [done|done|done|by constructor].
  - specialize (IH ({[tx_Hash tx]} ∪ known)). destruct (unknown_txs txs _) as [l k]. destruct IH as (H1 & H2 & H3 & H4).
    rewrite !fmap_cons. split_and!.
    + constructor; [|done]. intros Hx. apply (H2 _ Hx). set_solver.
    + intros x [->|Hx]%elem_of_cons; [done|]. specialize (H2 _ Hx). set_solver.
    + rewrite H3. simpl. set_solver.
    + by constructor.
Qed.

Lemma AddTxs_ok a txs s : store_ok s -> store_ok (AddTxs a txs s) /\
  exists new, new ⊆+ txs /\ all_txs (es_txs (AddTxs a txs s)) ≡ₚ new ++ all_txs (es_txs s).
Proof.
  intros [Hd Hl Ht]. unfold AddTxs. pose proof (unknown_txs_spec txs (es_lookup s)) as Hu.
  destruct (unknown_txs txs (es_lookup s)) as [new known]. destruct Hu as (H1 & H2 & H3 & H4).
  assert (match es_txs s !! a with Some existing => existing ++ new | None => new end = default [] (es_txs s !! a) ++ new) as ->
    by (by destruct (es_txs s !! a)).
  assert (all_txs (<[a := default [] (es_txs s !! a) ++ new]> (es_txs s)) ≡ₚ new ++ all_txs (es_txs s)) as Hp.
  { rewrite all_replace, (all_split (es_txs s) a). rewrite <- app_assoc. apply Permutation_app_swap_app. }
  split; [|by exists new]. split; cbn [es_txs es_lookup es_total].
  - rewrite Hp, fmap_app, NoDup_app. split_and!; [done| |done]. intros x Hx. specialize (H2 x Hx). rewrite Hl in H2. set_solver.
  - rewrite H3, Hl. apply set_eq. intros x. rewrite !elem_of_union, !elem_of_list_to_set, Hp, fmap_app, elem_of_app. tauto.
  - rewrite Hp, length_app, Ht, Nat2Z.inj_add. unfold u64. rewrite Zplus_mod_idemp_l. f_equal. lia.
Qed.

Lemma difference_all (l : list Transaction) (k : gset hash) : foldl (fun l tx => l ∖ {[tx_Hash tx]}) k l = k ∖ list_to_set (tx_Hash <$> l).
Proof. revert k. induction l as [|tx l IH]; intros k; simpl; [set_solver|]. rewrite IH. set_solver. Qed.

Lemma filter_split (f : Transaction -> bool) txs : txs ≡ₚ List.filter f txs ++ List.filter (fun tx => negb (f tx)) txs.
Proof.
  induction txs as [|tx txs IH]; simpl; [done|]. destruct (f tx); simpl; [by rewrite <- IH|]. rewrite <- Permutation_middle. by rewrite <- IH.
Qed.

Lemma RemoveTxs_ok a n s : store_ok s -> store_ok (RemoveTxsFromNonce a n s) /\
  default [] (es_txs (RemoveTxsFromNonce a n s) !! a) = List.filter (fun tx => tx_Nonce tx <? n) (default [] (es_txs s !! a)) /\
  forall b, b <> a -> es_txs (RemoveTxsFromNonce a n s) !! b = es_txs s !! b.
Proof.
  intros [Hd Hl Ht]. unfold RemoveTxsFromNonce. destruct (es_txs s !! a) as [txs|] eqn:Ha; [|by rewrite Ha].
  set (gone := List.filter (fun tx => n <=? tx_Nonce tx) txs). set (next := List.filter (fun tx => negb (n <=? tx_Nonce tx)) txs).
  assert (next = List.filter (fun tx => tx_Nonce tx <? n) txs) as Hnext.
  { unfold next. apply filter_ext. intros tx. by rewrite Z.leb_antisym, negb_involutive. }
  set (m' := match next with [] => delete a (es_txs s) | _ => <[a := next]> (es_txs s) end).
  assert (default [] (m' !! a) = next) as Hm by (unfold m'; destruct next; [by rewrite lookup_delete_eq|by rewrite lookup_insert_eq]).
  assert (forall b, b <> a -> m' !! b = es_txs s !! b) as Hb
    by (intros b Hne; unfold m'; destruct next; [by rewrite lookup_delete_ne|by rewrite lookup_insert_ne]).
  assert (all_txs (es_txs s) ≡ₚ gone ++ all_txs m') as Hp.
  { rewrite (all_delete _ a txs Ha), (all_split m' a), Hm, app_assoc. unfold gone, next. rewrite <- filter_split. f_equiv.
    unfold m'. destruct next; [by rewrite delete_delete_eq|by rewrite delete_insert_eq]. }
  clearbody m'. split; [|split; [cbn [es_txs]; rewrite Hm; exact Hnext|exact Hb]]. split; cbn [es_txs es_lookup es_total].
  - rewrite Hp, fmap_app, NoDup_app in Hd. apply Hd.
  - rewrite Hp, fmap_app, NoDup_app in Hd. destruct Hd as (_ & Hdis & _). rewrite difference_all, Hl. apply set_eq. intros x.
    rewrite elem_of_difference, !elem_of_list_to_set, Hp, fmap_app, elem_of_app. specialize (Hdis x). tauto.
  - rewrite Ht, Hp, length_app, Nat2Z.inj_add. unfold u64. rewrite Zminus_mod_idemp_l. f_equal. lia.
Qed.

(** *** Collecting for a block *)

Definition caps_fit tx : Prop := 0 <= tx_GasFeeCap tx < two256 /\ 0 <= tx_GasTipCap tx < two256.
Definition tip_prefix (f : PendingFilter) txs : list Transaction :=
  match pf_MinTip f with None => txs | Some t => until_below t (pf_BaseFee f) txs end.

Lemma until_below_elem t f txs tx : tx ∈ until_below t f txs -> tx ∈ txs.
Proof. induction txs as [|x txs IH]; simpl; [done|]. destruct (_ <? t); [by intros ?%not_elem_of_nil|set_solver]. Qed.

Definition lazy_of (time : Transaction -> Z) tx : LazyTransaction :=
  MkLazyTransaction (tx_Hash tx) tx (time tx) (tx_GasFeeCap tx) (tx_GasTipCap tx) (tx_Gas tx) 0.

Lemma wrap_all time txs : Forall caps_fit txs -> omapM (wrap_lazy time) txs = Ok (lazy_of time <$> txs).
Proof.
  induction 1 as [|tx txs [H1 H2] _ IH]; cbn [omapM]; [done|]. unfold wrap_lazy at 1. rewrite !MustFromBig_fits by done. cbn [obind]. by rewrite IH.
Qed.

Lemma filterAndWrap_run time f txs : Forall caps_fit txs ->
  filterAndWrapTxs time txs (pf_MinTip f) (pf_BaseFee f) = Ok (lazy_of time <$> tip_prefix f txs).
Proof.
  intros Hfit. unfold filterAndWrapTxs, tip_prefix. apply wrap_all. destruct (pf_MinTip f); [|done]. rewrite Forall_forall in Hfit |- *.
  intros tx Hx. by eapply Hfit, until_below_elem.
Qed.

(** What is offered of an account. *)
Definition offered time f txs : list LazyTransaction := lazy_of time <$> tip_prefix f (merge_sort by_nonce txs).

Lemma collect_run time f l pending s : Forall (fun e => Forall caps_fit e.2) l -> NoDup l.*1 ->
  exists pending' s', foldl (collect time f) (Ok (pending, s)) l = Ok (pending', s') /\
    (forall a, a ∉ l.*1 -> pending' !! a = pending !! a) /\
    (forall a txs, (a, txs) ∈ l -> pending !! a = None -> pending' !! a = match offered time f txs with [] => None | o => Some o end).
Proof.
  revert pending s. induction l as [|[a txs] l IH]; intros pending s Hfit Hnd; simpl.
  { eexists _, _. split_and!; [done|done|by intros ? ? ?%not_elem_of_nil]. }
  apply Forall_cons in Hfit as [Ha Hfit]. simpl in Ha. apply NoDup_cons in Hnd as [Hn Hnd].
  rewrite filterAndWrap_run by (by rewrite merge_sort_Permutation). cbn [obind]. fold (offered time f txs).
  destruct (IH (match offered time f txs with [] => pending | _ => <[a := offered time f txs]> pending end)
    (MkTxStore (<[a := merge_sort by_nonce txs]> (es_txs s)) (es_lookup s) (es_total s)) Hfit Hnd) as (pending' & s' & Hrun & H1 & H2).
  exists pending', s'. split_and!; [exact Hrun| |].
  - intros b Hb. rewrite not_elem_of_cons in Hb. rewrite H1 by apply Hb. case_match; [done|]. rewrite lookup_insert_ne; [done|]. symmetry. apply Hb.
  - intros b txs' [[= -> ->]|Hin]%elem_of_cons Hnone.
    + rewrite H1 by done. case_match; [done|]. by rewrite lookup_insert_eq.
    + apply H2; [done|]. case_match; [done|]. rewrite lookup_insert_ne; [done|]. intros ->. apply Hn. by apply (list_elem_of_fmap_2 fst _ (b, txs')).
Qed.

Lemma TxStore_Txs_run time f s : pf_OnlyBlobTxs f = false -> Forall caps_fit (all_txs (es_txs s)) ->
  exists pending s', TxStore_Txs time f s = Ok (pending, s') /\
    forall a, pending !! a = match offered time f (default [] (es_txs s !! a)) with [] => None | o => Some o end.
Proof.
  intros Hb Hfit. unfold TxStore_Txs. rewrite Hb.
  destruct (collect_run time f (go_range (es_txs s)) ∅ s) as (pending & s' & Hrun & H1 & H2); [|apply go_range_NoDup|].
  { apply Forall_forall. intros [a txs] Hin%go_range_elem. rewrite (all_delete _ _ _ Hin), Forall_app in Hfit. apply Hfit. }
  exists pending, s'. split; [done|]. intros a. destruct (es_txs s !! a) as [txs|] eqn:Ha.
  - apply H2; [by apply go_range_elem|apply lookup_empty].
  - rewrite H1, lookup_empty; [by unfold offered, tip_prefix; destruct (pf_MinTip f)|].
    intros ([b txs] & -> & Hin%go_range_elem)%list_elem_of_fmap. simpl in Ha. by rewrite Hin in Ha.
Qed.

Inductive store_op := StAdd (a : addr) (txs : list Transaction) | StRemove (a : addr) (nonce : Z).
Definition store_exec (s : TxStore) (o : store_op) : TxStore :=
  match o with StAdd a txs => AddTxs a txs s | StRemove a n => RemoveTxsFromNonce a n s end.
Definition store_run (ops : list store_op) : TxStore := foldl store_exec NewTxStore ops.
Definition op_txs (o : store_op) : list Transaction := match o with StAdd _ txs => txs | StRemove _ _ => [] end.

Lemma store_run_ok ops : Forall (fun o => Forall caps_fit (op_txs o)) ops ->
  store_ok (store_run ops) /\ Forall caps_fit (all_txs (es_txs (store_run ops))).
Proof.
  unfold store_run. assert (store_ok NewTxStore /\ Forall caps_fit (all_txs (es_txs NewTxStore))) as H0.
  { unfold NewTxStore, all_txs. cbn [es_txs]. split; [split|]; cbn [es_txs es_lookup es_total]; unfold all_txs; rewrite map_to_list_empty;
      simpl; constructor || done. }
  revert H0. generalize NewTxStore as s. induction ops as [|o ops IH]; intros s [Hok Hfit] Hops; [done|].
  apply Forall_cons in Hops as [Ho Hops]. cbn [foldl]. apply IH; [|done]. destruct o as [a txs|a n]; simpl in *.
  - destruct (AddTxs_ok a txs s Hok) as (Hok' & new & Hnew & Hp). split; [done|]. rewrite Hp. apply Forall_app. split; [|done].
    rewrite Forall_forall in Ho |- *. intros tx Hx. apply Ho. by eapply elem_of_submseteq.
  - destruct (RemoveTxs_ok a n s Hok) as (Hok' & Ha & Hb). split; [done|]. rewrite (all_split _ a), Ha.
    rewrite (all_split _ a), Forall_app in Hfit. destruct Hfit as [Hf1 Hf2]. apply Forall_app. split.
    + rewrite Forall_forall in Hf1 |- *. intros tx [Hx _]%list_elem_of_In%filter_In. by apply Hf1, list_elem_of_In.
    + assert (delete a (es_txs (RemoveTxsFromNonce a n s)) = delete a (es_txs s)) as ->; [|done].
      apply map_eq. intros b. destruct (decide (b = a)) as [->|Hne]; [by rewrite !lookup_delete_eq|].
      rewrite !lookup_delete_ne by done. by apply Hb.
Qed.

(** C31: The store of rechecked EVM transactions and the order of a block: after
    any additions and removals the hashes it knows and its total are those of
    the transactions it holds, none of them twice; and what it hands out for a
    block is ordered without a panic, every account giving its transactions by
    nonce up to the first with too low a tip or a fee cap below the base fee. *)
Theorem store_feeds_block ops time f : Forall (fun o => Forall caps_fit (op_txs o)) ops -> pf_OnlyBlobTxs f = false ->
  (match pf_BaseFee f with Some z => 0 <= z < two256 | None => True end) ->
  let s := store_run ops in
  (NoDup (tx_Hash <$> all_txs (es_txs s)) /\ es_lookup s = list_to_set (tx_Hash <$> all_txs (es_txs s)) /\
   es_total s = u64 (Z.of_nat (length (all_txs (es_txs s))))) /\
  exists pending s' set fuel l, TxStore_Txs time f s = Ok (pending, s') /\
    NewTransactionsByPriceAndNonce pending (pf_BaseFee f) = Ok set /\ evm_all fuel set = Ok (Some l) /\
    forall a, per a l = map (fun t => (a, t)) (take_while (covered (pf_BaseFee f)) (offered time f (default [] (es_txs s !! a)))).
Proof.
  intros Hops Hb Hf s. destruct (store_run_ok ops Hops) as [[H1 H2 H3] Hfit]. fold s in H1, H2, H3, Hfit. clearbody s. split; [done|].
  destruct (TxStore_Txs_run time f s Hb Hfit) as (pending & s' & Hrun & Hp).
  destruct (evm_new_run pending (pf_BaseFee f)) as (set & Hset & Hconf & Hok & Hper); [|done|].
  { intros a l Hl. rewrite Hp in Hl. by destruct (offered time f _); simplify_eq. }
  eexists pending, s', set, _, _. split_and!; [done|done|by apply evm_all_run|]. intros a.
  destruct (drain_spec txByPriceAndTime_Less _ (evm_mk_fields (ts_conf set)) _ (ts_txs set) (ts_heads set) Hok (le_n _)) as (-> & _ & _).
  rewrite Hper, Hp. by destruct (offered time f _).
Qed.
End evm_store_facts.

(** ** Cosmos transactions *)

Lemma string_app_inj (a b c d : string) : String.length a = String.length b -> (a +:+ c = b +:+ d)%string -> a = b /\ c = d.
Proof.
  revert b. induction a as [|x a IH]; intros [|y b] Hl; simpl in *; try lia; [done|]. intros [= -> Heq]. destruct (IH b) as [-> ->]; [lia|done|done].
Qed.

Lemma str_length_app (a b : string) : String.length (a +:+ b)%string = (String.length a + String.length b)%nat.
Proof. induction a as [|x a IH]; simpl; [done|]. by rewrite IH. Qed.

Section cosmos_store_facts.
Context {Mr : MapRange} {Mp : MempoolTx}.
Implicit Types (s : CosmosTxStore) (t : cosmosTxWithMetadata) (m : gmap string Z) (k : string).

Definition long20 (k : string) : Prop := String.length k = 20%nat.

Lemma join_bar_inj l l' : Forall long20 l -> Forall long20 l' -> join_bar l = join_bar l' -> l = l'.
Proof.
  intros Hl. revert l'. induction Hl as [|k l Hk Hl IH]; intros l' Hl' Heq.
  - destruct Hl' as [|k' l' Hk' _]; [done|]. apply (f_equal String.length) in Heq. unfold long20 in Hk'.
    destruct l'; simpl in Heq; rewrite ?str_length_app in Heq; lia.
  - destruct Hl' as [|k' l' Hk' Hl'].
    { apply (f_equal String.length) in Heq. unfold long20 in Hk. destruct l; simpl in Heq; rewrite ?str_length_app in Heq; lia. }
    unfold long20 in Hk, Hk'. destruct l as [|k2 l], l' as [|k2' l']; [by f_equal| | |].
    + apply (f_equal String.length) in Heq. simpl in Heq. rewrite str_length_app in Heq. simpl in Heq. lia.
    + apply (f_equal String.length) in Heq. simpl in Heq. rewrite str_length_app in Heq. simpl in Heq. lia.
    + cbn [join_bar] in Heq. apply string_app_inj in Heq as [-> Heq]; [|congruence]. injection Heq as Heq. f_equal. by apply IH.
Qed.

Definition signers20 m : Prop := forall k, k ∈ dom m -> long20 k.

Lemma sortedSignerKeys_elem m k : k ∈ sortedSignerKeys m <-> k ∈ dom m.
Proof.
  unfold sortedSignerKeys. rewrite merge_sort_Permutation, go_range_perm, list_elem_of_fmap, elem_of_dom. split.
  - intros ([x z] & -> & Hin%elem_of_map_to_list). simpl. by rewrite Hin.
  - intros [z Hz]. exists (k, z). split; [done|]. by apply elem_of_map_to_list.
Qed.

Lemma signer_key_inj m m' : signers20 m -> signers20 m' -> cosmosTxSignerSetKey m = cosmosTxSignerSetKey m' -> dom m = dom m'.
Proof.
  intros Hm Hm' Heq. apply join_bar_inj in Heq.
  - apply set_eq. intros k. by rewrite <- !sortedSignerKeys_elem, Heq.
  - apply Forall_forall. intros k Hk. by apply Hm, sortedSignerKeys_elem.
  - apply Forall_forall. intros k Hk. by apply Hm', sortedSignerKeys_elem.
Qed.

Lemma signer_key_long m : signers20 m -> m <> ∅ -> (20 <= String.length (cosmosTxSignerSetKey m))%nat.
Proof.
  intros Hm Hne. unfold cosmosTxSignerSetKey. destruct (sortedSignerKeys m) as [|k l] eqn:E.
  - destruct Hne. apply dom_empty_inv_L, set_eq. intros k. rewrite <- sortedSignerKeys_elem, E. split; [by intros ?%not_elem_of_nil|set_solver].
  - assert (long20 k) as Hk by (apply Hm, sortedSignerKeys_elem; rewrite E; by left). unfold long20 in Hk.
    destruct l; simpl; [lia|]. rewrite str_length_app. lia.
Qed.

Definition library_signers20 : Prop := forall tx l, GetSigners tx = Ok l -> Forall (fun e => long20 e.1) l.

Lemma nonce_map_signers l tx m m' : nonce_map l tx m = Some m' -> Forall (fun e => long20 e.1) l -> signers20 m ->
  signers20 m' /\ (m <> ∅ \/ l <> [] -> m' <> ∅).
Proof.
  revert m. induction l as [|[k z] l IH]; intros m; simpl.
  { intros [= <-] _ Hm. split; [done|]. by intros [|]. }
  destruct (ChooseNonce z tx) as [n| |]; [|done..]. intros Hrun Hl Hm. apply Forall_cons in Hl as [Hk Hl].
  destruct (IH _ Hrun Hl) as [H1 H2]; [|split; [done|intros _; apply H2; left; apply insert_non_empty]].
  intros k'. rewrite dom_insert, elem_of_union, elem_of_singleton. intros [->|Hin]; [done|by apply Hm].
Qed.

(** The metadata of a transaction, as it is filed. *)
Definition filed t k : Prop :=
  (ct_nonceMap t = ∅ /\ k = unkeyedSignerKey) \/
  (ct_nonceMap t <> ∅ /\ signers20 (ct_nonceMap t) /\ k = cosmosTxSignerSetKey (ct_nonceMap t)).

Lemma new_metadata tx : library_signers20 -> let t := newCosmosTxWithMetadata tx in
  (ct_nonceMap t = ∅ /\ ct_signerKey t = EmptyString) \/
  (ct_nonceMap t <> ∅ /\ signers20 (ct_nonceMap t) /\ ct_signerKey t = cosmosTxSignerSetKey (ct_nonceMap t)).
Proof.
  intros Hlib. unfold newCosmosTxWithMetadata, cosmosTxNonceMap. destruct (GetSigners tx) as [[|e l]| |] eqn:Hs; try by left.
  destruct (nonce_map (e :: l) tx ∅) as [m|] eqn:Hm; [|by left]. right.
  destruct (nonce_map_signers _ _ _ _ Hm (Hlib _ _ Hs)) as [H1 H2]; [intros k; rewrite dom_empty; set_solver|].
  simpl. split_and!; [apply H2; by right|done|done].
Qed.

Lemma filed_inj t t' k : filed t k -> filed t' k -> dom (ct_nonceMap t) = dom (ct_nonceMap t').
Proof.
  intros [[H1 H2]|(H1 & H2 & H3)] [[H4 H5]|(H4 & H5 & H6)].
  - by rewrite H1, H4.
  - pose proof (signer_key_long _ H5 H4) as Hlen. rewrite <- H6, H2 in Hlen. simpl in Hlen. lia.
  - pose proof (signer_key_long _ H2 H1) as Hlen. rewrite <- H3, H5 in Hlen. simpl in Hlen. lia.
  - apply signer_key_inj; [done|done|]. by rewrite <- H3.
Qed.

Record bucket_ok k (b : cosmosTxBucket) : Prop := {
  bo_some : cb_txs b <> [];
  bo_filed t : t ∈ cb_txs b -> ct_signerKey t = k /\ filed t k;
  bo_signers : exists g, cb_signers b = Some g /\ forall t, t ∈ cb_txs b -> dom (ct_nonceMap t) = g;
  bo_distinct : NoDup (ct_txKey <$> cb_txs b);
}.
Definition cstore_ok s : Prop := map_Forall bucket_ok (cs_txs s).

Lemma contains_elem l key : containsCosmosTx l key = true <-> key ∈ ct_txKey <$> l.
Proof.
  unfold containsCosmosTx. rewrite existsb_exists, list_elem_of_fmap. split.
  - intros (t & Hin & Heq%String.eqb_eq). exists t. split; [done|by apply list_elem_of_In].
  - intros (t & -> & Hin). exists t. split; [by apply list_elem_of_In|by apply String.eqb_eq].
Qed.

Lemma AddTx_ok tx s : library_signers20 -> cstore_ok s -> cstore_ok (CosmosTxStore_AddTx tx s).
Proof.
  intros Hlib Hok. unfold CosmosTxStore_AddTx. destruct (keyed_tx tx s) as [t s'] eqn:Hk.
  assert (filed t (ct_signerKey t) /\ cs_txs s' = cs_txs s) as [Hfiled Hs].
  { unfold keyed_tx in Hk. destruct (if String.eqb _ _ then newUnkeyedStoreKey s else _) as [key s0] eqn:Hkey. injection Hk as <- <-.
    unfold newUnkeyedStoreKey in Hkey.
    split; [|by destruct (String.eqb (ct_txKey _) _); injection Hkey as _ <-]. destruct (new_metadata tx Hlib) as [[H1 H2]|(H1 & H2 & H3)]; cbn [ct_signerKey ct_nonceMap].
    - left. cbn [ct_nonceMap]. by rewrite H2.
    - right. cbn [ct_nonceMap]. split_and!; [done|done|]. pose proof (signer_key_long _ H2 H1) as Hlen. rewrite <- H3 in Hlen.
      destruct (String.eqb_spec (ct_signerKey (newCosmosTxWithMetadata tx)) EmptyString) as [E|]; [rewrite E in Hlen; simpl in Hlen; lia|done]. }
  rewrite Hs. destruct (containsCosmosTx _ _) eqn:Hc; [unfold cstore_ok; by rewrite Hs|]. unfold cstore_ok. cbn [cs_txs].
  apply map_Forall_insert_2; [|done]. set (bucket := default (MkBucket [] None) (cs_txs s !! ct_signerKey t)) in *.
  assert (bucket = MkBucket [] None \/ bucket_ok (ct_signerKey t) bucket) as Hb.
  { unfold bucket. destruct (cs_txs s !! ct_signerKey t) as [b|] eqn:E; [right; by apply (Hok _ _ E)|by left]. }
  clearbody bucket. assert (forall x, x ∈ merge_sort at_most (cb_txs bucket ++ [t]) <-> x ∈ cb_txs bucket \/ x = t) as Hin.
  { intros x. rewrite merge_sort_Permutation, elem_of_app, list_elem_of_singleton. done. }
  split; cbn [cb_txs cb_signers].
  - intros E. apply (not_elem_of_nil t). rewrite <- E. apply Hin. by right.
  - intros x [Hx| ->]%Hin; [|done]. destruct Hb as [->|Hb]; [by apply not_elem_of_nil in Hx|by apply (bo_filed _ _ Hb)].
  - destruct Hb as [->|Hb]; simpl in *.
    + eexists. split; [done|]. intros x [Hx| ->]%Hin; [by apply not_elem_of_nil in Hx|done].
    + destruct (bo_signers _ _ Hb) as (g & -> & Hg). eexists. split; [done|]. intros x [Hx| ->]%Hin; [by apply Hg|].
      destruct (cb_txs bucket) as [|y l] eqn:E; [by destruct (bo_some _ _ Hb)|]. rewrite <- (Hg y) by (by left).
      apply (filed_inj _ _ (ct_signerKey t)); [done|]. apply (bo_filed _ _ Hb). rewrite E. by left.
  - rewrite merge_sort_Permutation, fmap_app, NoDup_app. split_and!; [destruct Hb as [->|Hb]; [constructor|apply Hb]| |apply NoDup_singleton].
    intros x Hx ->%list_elem_of_singleton. apply contains_elem in Hx. congruence.
Qed.

(** *** Invalidation *)

(** A stored transaction that shares a signer at the same or a later nonce. *)
Definition outdated (th : gmap string Z) t : Prop :=
  exists a n n', th !! a = Some n /\ ct_nonceMap t !! a = Some n' /\ n <= n'.

Lemma invalidates_outdated t th : invalidatesCosmosTx t th = true <-> outdated th t.
Proof.
  unfold invalidatesCosmosTx, outdated. rewrite existsb_exists. split.
  - intros ([a n] & Hin & Hx). rewrite <- list_elem_of_In in Hin. apply go_range_elem in Hin. simpl in Hx.
    destruct (ct_nonceMap t !! a) as [n'|] eqn:E; [|done]. zify_bool. by exists a, n, n'.
  - intros (a & n & n' & H1 & H2 & H3). exists (a, n). rewrite <- list_elem_of_In, go_range_elem. split; [done|]. simpl. rewrite H2. by apply Z.leb_le.
Qed.

Lemma skipped_valid k b th t : bucket_ok k b -> bucketContainsAnySigner b th = false -> t ∈ cb_txs b -> invalidatesCosmosTx t th = false.
Proof.
  intros Hb Hno Ht. apply not_true_iff_false. intros (a & n & n' & H1 & H2 & _)%invalidates_outdated. apply not_true_iff_false in Hno. apply Hno.
  apply existsb_exists. exists (a, n). rewrite <- list_elem_of_In, go_range_elem. split; [done|]. apply bool_decide_eq_true.
  destruct (bo_signers _ _ Hb) as (g & Hg & Hall). rewrite Hg. simpl. rewrite <- (Hall t Ht), elem_of_dom. by exists n'.
Qed.

(** What is left of a bucket, and how many transactions left it. *)
Definition valid_part (th : gmap string Z) (l : list cosmosTxWithMetadata) := List.filter (fun t => negb (invalidatesCosmosTx t th)) l.
Definition invalid_count (th : gmap string Z) (l : list cosmosTxWithMetadata) : Z :=
  Z.of_nat (length (List.filter (fun t => invalidatesCosmosTx t th) l)).
Definition next_bucket (th : gmap string Z) (b : cosmosTxBucket) : option cosmosTxBucket :=
  match valid_part th (cb_txs b) with [] => None | l => Some (MkBucket l (cb_signers b)) end.

Lemma all_valid th l : (forall t, t ∈ l -> invalidatesCosmosTx t th = false) -> valid_part th l = l /\ invalid_count th l = 0.
Proof.
  intros H. unfold valid_part, invalid_count. induction l as [|t l IH]; simpl; [done|]. rewrite (H t) by (by left). simpl.
  destruct IH as [H1 H2]; [intros x Hx; apply H; by right|]. split; [by rewrite H1|exact H2].
Qed.

Lemma invalidate_one k b th removed txs : bucket_ok k b -> txs !! k = Some b ->
  invalidate_bucket th (removed, txs) (k, b) =
  (removed + invalid_count th (cb_txs b), match next_bucket th b with None => delete k txs | Some b' => <[k := b']> txs end).
Proof.
  intros Hb Hk. unfold invalidate_bucket. cbn [fst snd]. destruct (bucketContainsAnySigner b th) eqn:E; cbn [negb].
  - unfold next_bucket. fold (valid_part th (cb_txs b)). by destruct (valid_part th (cb_txs b)).
  - destruct (all_valid th (cb_txs b)) as [H1 H2]; [intros t Ht; by eapply skipped_valid|]. unfold next_bucket. rewrite H1, H2, Z.add_0_r.
    destruct b as [[|x l] g]; [by destruct (bo_some _ _ Hb)|]. cbn [cb_txs cb_signers]. by rewrite insert_id.
Qed.

Lemma invalidate_all th l removed txs : NoDup l.*1 -> (forall k b, (k, b) ∈ l -> bucket_ok k b /\ txs !! k = Some b) ->
  exists txs', foldl (invalidate_bucket th) (removed, txs) l =
    (foldl (fun n e => n + invalid_count th (cb_txs e.2)) removed l, txs') /\
    (forall k b, (k, b) ∈ l -> txs' !! k = next_bucket th b) /\ (forall k, k ∉ l.*1 -> txs' !! k = txs !! k).
Proof.
  revert removed txs. induction l as [|[k b] l IH]; intros removed txs Hnd Hl.
  { exists txs. split_and!; [done|by intros ? ? ?%not_elem_of_nil|done]. }
  rewrite fmap_cons, NoDup_cons in Hnd. destruct Hnd as [Hn Hnd]. simpl in Hn. cbn [foldl].
  destruct (Hl k b) as [Hb Hk]; [by left|]. rewrite invalidate_one by done.
  set (txs1 := match next_bucket th b with None => delete k txs | Some b' => <[k := b']> txs end).
  assert (txs1 !! k = next_bucket th b) as Hk1 by (unfold txs1; destruct (next_bucket th b); [apply lookup_insert_eq|apply lookup_delete_eq]).
  assert (forall k', k' <> k -> txs1 !! k' = txs !! k') as Hk2
    by (intros k' Hne; unfold txs1; destruct (next_bucket th b); [by rewrite lookup_insert_ne|by rewrite lookup_delete_ne]).
  clearbody txs1. destruct (IH (removed + invalid_count th (cb_txs b)) txs1 Hnd) as (txs' & -> & H1 & H2).
  { intros k' b' Hin. destruct (Hl k' b') as [Hb' Hk']; [by right|]. split; [done|]. rewrite Hk2; [done|].
    intros ->. apply Hn. by apply (list_elem_of_fmap_2 fst _ (k, b')). }
  exists txs'. split_and!; [done| |].
  - intros k' b' [[= -> ->]|Hin]%elem_of_cons; [by rewrite H2|by apply H1].
  - intros k' Hk'. rewrite fmap_cons, not_elem_of_cons in Hk'. rewrite H2 by apply Hk'. apply Hk2. apply Hk'.
Qed.

Definition in_store s t : Prop := exists k b, cs_txs s !! k = Some b /\ t ∈ cb_txs b.

(** A known transaction, or one that is not in the store under its keys. *)
Definition known tx s : bool :=
  let t := newCosmosTxWithMetadata tx in
  negb (Nat.eqb (size (ct_nonceMap t)) 0 || String.eqb (ct_signerKey t) EmptyString || String.eqb (ct_txKey t) EmptyString) &&
  match cs_txs s !! ct_signerKey t with Some b => containsCosmosTx (cb_txs b) (ct_txKey t) | None => false end.

Lemma InvalidateFrom_ok tx s : cstore_ok s ->
  (known tx s = false -> InvalidateFrom tx s = (0, s)) /\
  (known tx s = true -> cstore_ok (InvalidateFrom tx s).2 /\
    (forall t, in_store (InvalidateFrom tx s).2 t <-> in_store s t /\ ~ outdated (ct_nonceMap (newCosmosTxWithMetadata tx)) t) /\
    (InvalidateFrom tx s).1 =
      foldl (fun n e => n + invalid_count (ct_nonceMap (newCosmosTxWithMetadata tx)) (cb_txs e.2)) 0 (go_range (cs_txs s))).
Proof.
  intros Hok. unfold known, InvalidateFrom. set (t0 := newCosmosTxWithMetadata tx). clearbody t0.
  destruct (_ || _ || _); cbn [negb andb]; [done|]. destruct (cs_txs s !! ct_signerKey t0) as [b0|]; [|done].
  destruct (containsCosmosTx (cb_txs b0) (ct_txKey t0)); cbn [negb]; [|done]. split; [done|]. intros _.
  destruct (invalidate_all (ct_nonceMap t0) (go_range (cs_txs s)) 0 (cs_txs s) (go_range_NoDup _)) as (txs' & -> & H1 & H2).
  { intros k b Hin%go_range_elem. split; [by apply Hok|done]. }
  assert (forall k, txs' !! k = match cs_txs s !! k with Some b => next_bucket (ct_nonceMap t0) b | None => None end) as Htxs.
  { intros k. destruct (cs_txs s !! k) as [b|] eqn:E; [apply H1; by apply go_range_elem|]. rewrite H2; [done|].
    intros ([k' b] & -> & Hin%go_range_elem)%list_elem_of_fmap. simpl in E. congruence. }
  cbn [fst snd]. assert (forall b t, t ∈ valid_part (ct_nonceMap t0) (cb_txs b) <-> t ∈ cb_txs b /\ ~ outdated (ct_nonceMap t0) t) as Hvp.
  { intros b t. unfold valid_part. rewrite list_elem_of_In, filter_In, negb_true_iff, <- list_elem_of_In, <- not_true_iff_false, invalidates_outdated. done. }
  split_and!; [| |done].
  - intros k b'. cbn [cs_txs]. rewrite Htxs. destruct (cs_txs s !! k) as [b|] eqn:E; [|done]. unfold next_bucket.
    destruct (valid_part (ct_nonceMap t0) (cb_txs b)) as [|x l] eqn:Ev; [done|]. intros [= <-]. rewrite <- Ev. destruct (Hok _ _ E) as [B1 B2 B3 B4].
    split; cbn [cb_txs cb_signers].
    + by rewrite Ev.
    + intros t [Ht _]%Hvp. by apply B2.
    + destruct B3 as (g & Hg & Hall). exists g. split; [done|]. intros t [Ht _]%Hvp. by apply Hall.
    + unfold valid_part. clear -B4. induction (cb_txs b) as [|t l IH]; [constructor|]. rewrite fmap_cons, NoDup_cons in B4.
      destruct B4 as [Hn Hnd]. simpl. destruct (negb _); [|by apply IH]. rewrite fmap_cons. constructor; [|by apply IH].
      intros (y & Heq & Hy)%list_elem_of_fmap. apply Hn. rewrite Heq. apply list_elem_of_fmap_2.
      apply list_elem_of_In, filter_In in Hy as [Hy _]. by apply list_elem_of_In.
  - intros t. split.
    + intros (k & b' & Hb' & Ht). cbn [cs_txs] in Hb'. rewrite Htxs in Hb'. destruct (cs_txs s !! k) as [b|] eqn:E; [|done]. unfold next_bucket in Hb'.
      destruct (valid_part (ct_nonceMap t0) (cb_txs b)) as [|x l] eqn:Ev; [done|]. injection Hb' as <-. cbn [cb_txs] in Ht. rewrite <- Ev in Ht.
      apply Hvp in Ht as [Ht Hno]. split; [by exists k, b|done].
    + intros [(k & b & Hb & Ht) Hno]. assert (t ∈ valid_part (ct_nonceMap t0) (cb_txs b)) as Hv by (by apply Hvp).
      exists k, (MkBucket (valid_part (ct_nonceMap t0) (cb_txs b)) (cb_signers b)). cbn [cs_txs cb_txs]. split; [|done]. rewrite Htxs, Hb. unfold next_bucket.
      destruct (valid_part (ct_nonceMap t0) (cb_txs b)); [by apply not_elem_of_nil in Hv|done].
Qed.

Inductive cosmos_op := CoAdd (tx : SdkTx) | CoInvalidate (tx : SdkTx).
Definition cosmos_exec s (o : cosmos_op) : CosmosTxStore :=
  match o with CoAdd tx => CosmosTxStore_AddTx tx s | CoInvalidate tx => (InvalidateFrom tx s).2 end.
Definition cosmos_store_run (ops : list cosmos_op) : CosmosTxStore := foldl cosmos_exec NewCosmosTxStore ops.

Lemma cosmos_store_run_ok ops : library_signers20 -> cstore_ok (cosmos_store_run ops).
Proof.
  intros Hlib. unfold cosmos_store_run. assert (cstore_ok NewCosmosTxStore) as H0 by apply map_Forall_empty.
  revert H0. generalize NewCosmosTxStore as s. induction ops as [|o ops IH]; intros s Hs; [done|]. cbn [foldl]. apply IH.
  destruct o as [tx|tx]; simpl; [by apply AddTx_ok|]. destruct (InvalidateFrom_ok tx s Hs) as [H1 H2].
  destruct (known tx s); [by apply H2|by rewrite H1].
Qed.

(** Replacing a Cosmos transaction: when a transaction that the store holds
    comes in again, exactly the stored transactions that share a signer with it
    at the same or a later nonce leave the store; for any other transaction
    nothing changes. *)
Theorem invalidate_exact ops tx : library_signers20 ->
  let s := cosmos_store_run ops in
  let t := newCosmosTxWithMetadata tx in
  if known tx s
  then forall x, in_store (InvalidateFrom tx s).2 x <-> in_store s x /\
         ~ (exists a n n', ct_nonceMap t !! a = Some n /\ ct_nonceMap x !! a = Some n' /\ n <= n')
  else InvalidateFrom tx s = (0, s).
Proof.
  intros Hlib s t. destruct (InvalidateFrom_ok tx s (cosmos_store_run_ok ops Hlib)) as [H1 H2].
  destruct (known tx s); [by apply H2|by apply H1].
Qed.
End cosmos_store_facts.

(** ** A store in use *)

#[local] Instance store_pool : PoolLibs := {|
  tx_Hash tx := (FormatInt (tx_Nonce tx) +:+ tx_Signature tx)%string;
  tx_Size tx := tx_Gas tx;
  SetCodeAuthorities tx := [];
|}.
#[local] Instance store_price : PriceLibs := {| calcEffectiveGasTip tx f := Z.min (tx_GasTipCap tx) (u256w (tx_GasFeeCap tx - f)) |}.

Definition stored_tx (from : bytes) (nonce cap tip : Z) : Transaction := MkTransaction 2 nonce 21000 cap tip (Some bob) 0 EmptyString [] [] from.
Definition ex_store_ops : list store_op :=
  [StAdd alice [stored_tx alice 2 30 4; stored_tx alice 1 30 9; stored_tx alice 2 30 4]; StAdd bob [stored_tx bob 7 40 6];
   StAdd alice [stored_tx alice 3 30 1]; StRemove bob 7].

Lemma store_feeds_block_witness : es_total (store_run ex_store_ops) = 3 /\
  exists pending s' set fuel l,
    TxStore_Txs tx_Nonce (MkPendingFilter (Some 2) (Some 10) false) (store_run ex_store_ops) = Ok (pending, s') /\
    NewTransactionsByPriceAndNonce pending (Some 10) = Ok set /\ evm_all fuel set = Ok (Some l) /\
    (fun e => lz_Gas e.2) <$> per alice l = [21000; 21000].
Proof.
  destruct (store_feeds_block ex_store_ops tx_Nonce (MkPendingFilter (Some 2) (Some 10) false)) as [_ (pending & s' & set & fuel & l & H1 & H2 & H3 & H4)].
  - repeat constructor; vm_compute; done.
  - reflexivity.
  - done.
  - split; [vm_compute; reflexivity|]. exists pending, s', set, fuel, l. split; [exact H1|]. split; [exact H2|]. split; [exact H3|].
    rewrite H4. vm_compute. reflexivity.
Defined.

(** A transaction is its signers and nonces; a signer has 20 bytes. *)
#[local] Instance store_mempool : MempoolTx := {|
  SdkTx := list (string * Z);
  as_FeeTx _ := None;
  build_tx _ _ _ := Err "no builder";
  GetSigners tx := if forallb (fun e => Nat.eqb (String.length e.1) 20) tx then Ok tx else Err "bad signer";
  ChooseNonce seq _ := Ok seq;
  sort_coins l := l;
|}.
Definition ex_cosmos_ops : list cosmos_op :=
  [CoAdd [(alice, 1)]; CoAdd [(alice, 2)]; CoAdd [(alice, 3); (bob, 5)]; CoAdd [(bob, 4)]].

Lemma invalidate_exact_witness : known [(alice, 2)] (cosmos_store_run ex_cosmos_ops) = true /\
  (forall x, in_store (InvalidateFrom [(alice, 2)] (cosmos_store_run ex_cosmos_ops)).2 x <->
     in_store (cosmos_store_run ex_cosmos_ops) x /\
     ~ (exists a n n', ct_nonceMap (newCosmosTxWithMetadata [(alice, 2)]) !! a = Some n /\ ct_nonceMap x !! a = Some n' /\ n <= n')) /\
  snapshotTxs (InvalidateFrom [(alice, 2)] (cosmos_store_run ex_cosmos_ops)).2 = [[(alice, 1)]; [(bob, 4)]].
Proof.
  assert (library_signers20 (Mp := store_mempool)) as Hlib.
  { intros tx l. simpl. destruct (forallb _ tx) eqn:E; [|done]. intros [= <-]. rewrite forallb_forall in E. apply Forall_forall.
    intros e He. apply Nat.eqb_eq, E. by apply list_elem_of_In. }
  assert (known [(alice, 2)] (cosmos_store_run ex_cosmos_ops) = true) as Hk by (vm_compute; reflexivity).
  split; [exact Hk|]. split; [|vm_compute; reflexivity].
  pose proof (invalidate_exact ex_cosmos_ops [(alice, 2)] Hlib) as H. cbv zeta in H. rewrite Hk in H. exact H.
Defined.
