(* ===== verification/Erc20Types.v ===== *)
(** * x/erc20/types: token pairs, allowances, names and messages

    token_pair.go, allowance.go, params.go, utils.go, proposal.go, msg.go and
    genesis.go of src/x/erc20/types, with the helpers of src/utils and src/ibc
    they call. Hex addresses and denominations are those of go-ethereum and the
    SDK (Sdk.v); bank metadata is a type of the SDK, validated by the SDK. *)

From Stdlib Require Import ZArith Lia List String Ascii Bool.
From stdpp Require Import base gmap strings list.
From S2P Require Import Prelude GoStrings Sha256 Sdk.
Local Open Scope Z_scope.
Local Open Scope go_scope.

(** ** Documented behaviour of [common.Address] *)

Definition alnum (c : ascii) : bool :=
  in_range 48 (ord c) 57 || in_range 65 (ord c) 90 || in_range 97 (ord c) 122.

Class EthAddrLaws `{EthCommon} := {
  HexToAddress_length s : String.length (HexToAddress s) = 20%nat;
  HexToAddress_Hex a : String.length a = 20%nat -> HexToAddress (Address_Hex a) = a;
  IsHexAddress_Hex a : String.length a = 20%nat -> IsHexAddress (Address_Hex a) = true;
  IsHexAddress_nonempty : IsHexAddress EmptyString = false;
  IsHexAddress_alnum s : IsHexAddress s = true -> forallb alnum (to_list s) = true;
}.

(** ** Token pairs *)

Inductive Owner := OWNER_UNSPECIFIED | OWNER_MODULE | OWNER_EXTERNAL.
#[export] Instance Owner_eq_dec : EqDecision Owner.
Proof. solve_decision. Defined.

Record TokenPair := MkTokenPair {
  tp_Erc20Address : string;
  tp_Denom : string;
  tp_Enabled : bool;
  tp_ContractOwner : Owner;
}.
#[export] Instance TokenPair_eq_dec : EqDecision TokenPair.
Proof. solve_decision. Defined.

Record Allowance := MkAllowance {
  al_Erc20Address : string;
  al_Owner : string;
  al_Spender : string;
  al_Value : Z;
}.

Record Erc20Params := MkErc20Params { p_EnableErc20 : bool; p_PermissionlessRegistration : bool }.
Definition DefaultParams : Erc20Params := MkErc20Params true false.

Definition ModuleName : string := "erc20".

Section pairs.
Context {Ty : SdkTypes} {Eth : EthCommon}.

(** utils.ValidateAddress *)
Definition ValidateAddress (address : string) : outcome unit :=
  oguard (IsHexAddress address) "not a valid ethereum hex address".

Definition NewTokenPair (erc20Address : addr) (denom : string) (owner : Owner) : TokenPair :=
  MkTokenPair (Address_Hex erc20Address) denom true owner.

(** The text the identifier of a pair hashes; [tmhash.Sum] is SHA-256. *)
Definition id_text (tp : TokenPair) : string := (tp_Erc20Address tp +:+ "|" +:+ tp_Denom tp)%string.
Definition GetID (tp : TokenPair) : bytes := sha256 (id_text tp).
Definition GetERC20Contract (tp : TokenPair) : addr := HexToAddress (tp_Erc20Address tp).

Definition TokenPair_Validate (tp : TokenPair) : outcome unit :=
  odo ValidateDenom (tp_Denom tp);
  ValidateAddress (tp_Erc20Address tp).

Definition IsNativeCoin (tp : TokenPair) : bool := bool_decide (tp_ContractOwner tp = OWNER_MODULE).
Definition IsNativeERC20 (tp : TokenPair) : bool := bool_decide (tp_ContractOwner tp = OWNER_EXTERNAL).

(** ** Allowances *)

(** [math.NewIntFromBigInt] does not panic for what the keeper stores: values
    of at most 256 bits. *)
Definition NewAllowance (erc20 owner spender : addr) (value : Z) : Allowance :=
  MkAllowance (Address_Hex erc20) (Address_Hex owner) (Address_Hex spender) value.

Definition Allowance_Validate (a : Allowance) : outcome unit :=
  odo oguard (IsHexAddress (al_Erc20Address a)) "invalid erc20 hex address";
  odo oguard (IsHexAddress (al_Owner a)) "invalid owner hex address";
  odo oguard (IsHexAddress (al_Spender a)) "invalid sender hex address";
  oguard (0 <? al_Value a) "invalid allowance value".

Definition AllowanceKey (erc20 owner spender : addr) : bytes := (erc20 +:+ owner +:+ spender)%string.

(** ** proposal.go: denominations of ERC-20 contracts *)

Definition Erc20NativeCoinDenomPrefix : string := "erc20:".
Definition CreateDenomDescription (address : string) : string :=
  ("Cosmos coin token representation of " +:+ address)%string.
Definition CreateDenom (address : string) : string := (Erc20NativeCoinDenomPrefix +:+ address)%string.
Definition ValidateErc20Denom (denom : string) : outcome unit :=
  if has_prefix Erc20NativeCoinDenomPrefix denom then
    let trimmed := TrimPrefix denom Erc20NativeCoinDenomPrefix in
    odo oguard (negb (len trimmed =? 0)) "invalid denom: missing address after prefix";
    ValidateAddress trimmed
  else Err "invalid denom: denomination should be prefixed with erc20:".

End pairs.

(** ** utils.go: names *)

(** [(?m)^(\d+)] replaced by nothing: the digits at the start of every line. *)
Fixpoint strip_numbers (line_start : bool) (s : list ascii) : list ascii :=
  match s with
  | [] => []
  | c :: s' =>
    if line_start && in_range 48 (ord c) 57 then strip_numbers true s'
    else c :: strip_numbers (ord c =? 10) s'
  end.
Definition removeLeadingNumbers (str : string) : string := of_list (strip_numbers true (to_list str)).

Definition letter (c : ascii) : bool := in_range 65 (ord c) 90 || in_range 97 (ord c) 122.
Definition dnm_char (c : ascii) : bool := alnum c || (ord c =? 47) || (ord c =? 58) || (ord c =? 45).

(** [^[^A-Za-z]|[^a-zA-Z0-9/:-]] replaced by nothing. The anchor is the start of
    the text only. A rune outside ASCII is never in the second class, so all its
    bytes go. *)
Definition removeSpecialChars (str : string) : string :=
  match to_list str with
  | [] => EmptyString
  | c :: s => of_list ((if letter c then [c] else []) ++ List.filter dnm_char s)
  end.

Fixpoint removeInvalidPrefixes (str : string) : string :=
  match str with
  | String "i" (String "b" (String "c" (String "/" s))) => removeInvalidPrefixes s
  | String "e" (String "r" (String "c" (String "2" (String "0" (String "/" s))))) => removeInvalidPrefixes s
  | String "e" (String "r" (String "c" (String "2" (String "0" (String ":" s))))) => removeInvalidPrefixes s
  | _ => str
  end.

Definition SanitizeERC20Name (name : string) : string :=
  let name := removeLeadingNumbers name in
  let name := removeSpecialChars name in
  let name := if 128 <? len name then String.substring 0 128 name else name in
  removeInvalidPrefixes name.

(** ** Bank metadata *)

Record DenomUnit := MkDenomUnit { du_Denom : string; du_Exponent : Z; du_Aliases : list string }.
Record Metadata := MkMetadata {
  md_Description : string;
  md_DenomUnits : list DenomUnit;
  md_Base : string;
  md_Display : string;
  md_Name : string;
  md_Symbol : string;
  md_URI : string;
  md_URIHash : string;
}.

Fixpoint EqualStringSlice (a b : list string) : bool :=
  match a, b with
  | [], [] => true
  | x :: a', y :: b' => String.eqb x y && EqualStringSlice a' b'
  | _, _ => false
  end.
Fixpoint equal_units (a b : list DenomUnit) : bool :=
  match a, b with
  | x :: a', y :: b' =>
    if negb (du_Exponent x =? du_Exponent y) || negb (String.eqb (du_Denom x) (du_Denom y)) ||
       negb (EqualStringSlice (du_Aliases x) (du_Aliases y)) then false else equal_units a' b'
  | _, _ => true
  end.
Definition EqualMetadata (a b : Metadata) : outcome unit :=
  if String.eqb (md_Base a) (md_Base b) && String.eqb (md_Description a) (md_Description b) &&
     String.eqb (md_Display a) (md_Display b) && String.eqb (md_Name a) (md_Name b) && String.eqb (md_Symbol a) (md_Symbol b) then
    odo oguard (Nat.eqb (length (md_DenomUnits a)) (length (md_DenomUnits b))) "metadata provided has different denom units from stored";
    oguard (equal_units (md_DenomUnits a) (md_DenomUnits b)) "metadata provided has different denom unit from stored"
  else Err "metadata provided is different from stored".

(** ** genesis.go *)

Record GenesisState := MkGenesisState {
  gs_Params : Erc20Params;
  gs_TokenPairs : list TokenPair;
  gs_Allowances : list Allowance;
  gs_NativePrecompiles : list string;
  gs_DynamicPrecompiles : list string;
}.
Definition DefaultGenesisState : GenesisState := MkGenesisState DefaultParams [] [] [] [].

Definition hasActiveTokenPair (pairs : list TokenPair) (address : string) : bool :=
  existsb (fun p => String.eqb (tp_Erc20Address p) address && tp_Enabled p) pairs.
Definition validatePrecompiles (pairs : list TokenPair) (precompiles : list string) : outcome unit :=
  oguard (forallb (hasActiveTokenPair pairs) precompiles) "precompile address not found in token pairs".

Section genesis.
Context {Ty : SdkTypes} {Eth : EthCommon}.

Fixpoint validate_pairs (pairs : list TokenPair) (seenErc20 seenDenom : gset string) : outcome (gset string) :=
  match pairs with
  | [] => Ok seenErc20
  | b :: pairs' =>
    odo oguard (negb (bool_decide (tp_Erc20Address b ∈ seenErc20))) "token ERC20 contract duplicated on genesis";
    odo oguard (negb (bool_decide (tp_Denom b ∈ seenDenom))) "coin denomination duplicated on genesis";
    odo TokenPair_Validate b;
    validate_pairs pairs' ({[tp_Erc20Address b]} ∪ seenErc20) ({[tp_Denom b]} ∪ seenDenom)
  end.
Definition allowance_text (a : Allowance) : string := (al_Erc20Address a +:+ al_Owner a +:+ al_Spender a)%string.
Fixpoint validate_allowances (l : list Allowance) (seenErc20 seen : gset string) : outcome unit :=
  match l with
  | [] => Ok tt
  | a :: l' =>
    odo oguard (negb (bool_decide (allowance_text a ∈ seen))) "duplicated allowance on genesis";
    odo oguard (bool_decide (al_Erc20Address a ∈ seenErc20)) "allowance has no corresponding token pair on genesis";
    odo owrap "invalid allowance on genesis" (Allowance_Validate a);
    validate_allowances l' seenErc20 ({[allowance_text a]} ∪ seen)
  end.
Definition GenesisState_Validate (gs : GenesisState) : outcome unit :=
  olet seenErc20 <- validate_pairs (gs_TokenPairs gs) ∅ ∅;
  odo owrap "invalid dynamic precompiles on genesis" (validatePrecompiles (gs_TokenPairs gs) (gs_DynamicPrecompiles gs));
  odo owrap "invalid native precompiles on genesis" (validatePrecompiles (gs_TokenPairs gs) (gs_NativePrecompiles gs));
  validate_allowances (gs_Allowances gs) seenErc20 ∅.

(** ** msg.go *)

Record MsgConvertERC20 := MkMsgConvertERC20 {
  ce_ContractAddress : string;
  ce_Amount : Z;
  ce_Receiver : string;
  ce_Sender : string;
}.
Record MsgConvertCoin := MkMsgConvertCoin { cc_Coin : Coin; cc_Receiver : string; cc_Sender : string }.
Record MsgRegisterERC20 := MkMsgRegisterERC20 { re_Signer : string; re_Erc20Addresses : list string }.
Record MsgToggleConversion := MkMsgToggleConversion { mt_Authority : string; mt_Token : string }.
Record MsgUpdateErc20Params := MkMsgUpdateErc20Params { mu_Authority : string; mu_Params : Erc20Params }.

Definition MsgConvertERC20_ValidateBasic (m : MsgConvertERC20) : outcome unit :=
  odo oguard (IsHexAddress (ce_ContractAddress m)) "invalid contract hex address";
  odo oguard (0 <? ce_Amount m) "cannot mint a non-positive amount";
  odo owrap "invalid receiver address" (AccAddressFromBech32 (ce_Receiver m));
  oguard (IsHexAddress (ce_Sender m)) "invalid sender hex address".
Definition MsgConvertCoin_ValidateBasic (m : MsgConvertCoin) : outcome unit :=
  odo oguard (negb (len (Denom (cc_Coin m)) =? 0)) "denom cannot be empty";
  odo oguard (0 <? Amount (cc_Coin m)) "cannot mint a non-positive amount";
  odo owrap "invalid sender address" (AccAddressFromBech32 (cc_Sender m));
  oguard (IsHexAddress (cc_Receiver m)) "invalid receiver hex address".
Definition MsgRegisterERC20_ValidateBasic (m : MsgRegisterERC20) : outcome unit :=
  odo owrap "invalid signer address" (AccAddressFromBech32 (re_Signer m));
  oguard (forallb IsHexAddress (re_Erc20Addresses m)) "invalid ERC20 contract address".
Definition MsgToggleConversion_ValidateBasic (m : MsgToggleConversion) : outcome unit :=
  odo owrap "Invalid authority address" (AccAddressFromBech32 (mt_Authority m));
  Ok tt.
Definition MsgUpdateErc20Params_ValidateBasic (m : MsgUpdateErc20Params) : outcome unit :=
  odo owrap "Invalid authority address" (AccAddressFromBech32 (mu_Authority m));
  Ok tt.

End genesis.
