(* ===== verification/Erc20Keeper.v ===== *)
(** * x/erc20/keeper: the registry of token pairs, allowances and precompiles

    token_pairs.go, allowance.go, params.go, precompiles.go and
    dynamic_precompiles.go of src/x/erc20/keeper. The prefixes of the module's
    store are maps of their own (the source's prefixes are distinct bytes, the
    parameter keys start with another one); values are the decoded records, as
    the codec's round trip gives them back. The bank and the EVM are the
    interfaces of src/x/erc20/types/interfaces.go: type classes over the world
    the module runs in. *)

From Stdlib Require Import ZArith Lia List String Ascii Bool.
From stdpp Require Import base gmap strings list sorting.
From S2P Require Import Prelude GoStrings Sha256 Sdk StateDB Precompile EvmTx StateTransition Erc20Types.
Local Open Scope Z_scope.
Local Open Scope go_scope.

(** ** The store *)

Record Erc20Store := MkErc20Store {
  st_pairs : gmap bytes TokenPair;         (* KeyPrefixTokenPair *)
  st_byERC20 : gmap addr bytes;            (* KeyPrefixTokenPairByERC20 *)
  st_byDenom : gmap string bytes;          (* KeyPrefixTokenPairByDenom *)
  st_allowances : gmap bytes Allowance;    (* KeyPrefixAllowance *)
  st_native : gset string;                 (* KeyPrefixNativePrecompiles *)
  st_dynamic : gset string;                (* KeyPrefixDynamicPrecompiles *)
  st_enabled : bool;                       (* ParamStoreKeyEnableErc20 *)
  st_permissionless : bool;                (* ParamStoreKeyPermissionlessRegistration *)
}.
Definition empty_store : Erc20Store := MkErc20Store ∅ ∅ ∅ ∅ ∅ ∅ false false.

Definition set_pairs f s := MkErc20Store (f (st_pairs s)) (st_byERC20 s) (st_byDenom s) (st_allowances s) (st_native s) (st_dynamic s) (st_enabled s) (st_permissionless s).
Definition set_byERC20 f s := MkErc20Store (st_pairs s) (f (st_byERC20 s)) (st_byDenom s) (st_allowances s) (st_native s) (st_dynamic s) (st_enabled s) (st_permissionless s).
Definition set_byDenom f s := MkErc20Store (st_pairs s) (st_byERC20 s) (f (st_byDenom s)) (st_allowances s) (st_native s) (st_dynamic s) (st_enabled s) (st_permissionless s).
Definition set_allowances f s := MkErc20Store (st_pairs s) (st_byERC20 s) (st_byDenom s) (f (st_allowances s)) (st_native s) (st_dynamic s) (st_enabled s) (st_permissionless s).
Definition set_native f s := MkErc20Store (st_pairs s) (st_byERC20 s) (st_byDenom s) (st_allowances s) (f (st_native s)) (st_dynamic s) (st_enabled s) (st_permissionless s).
Definition set_dynamic f s := MkErc20Store (st_pairs s) (st_byERC20 s) (st_byDenom s) (st_allowances s) (st_native s) (f (st_dynamic s)) (st_enabled s) (st_permissionless s).

(** The values under a prefix in the order of their keys. *)
Definition key_order {A} (x y : string * A) : Prop := str_le x.1 y.1.
#[export] Instance key_order_dec {A} : RelDecision (@key_order A).
Proof. intros x y. unfold key_order, str_le. apply _. Defined.
Definition by_key {A} (m : gmap string A) : list A := snd <$> merge_sort key_order (map_to_list m).

Definition ErrTokenPairAlreadyExists : string := "token pair already exists".
Definition ErrTokenPairNotFound : string := "token pair not found".
Definition ErrERC20TokenPairDisabled : string := "erc20 token pair is disabled".
Definition ErrERC20Disabled : string := "erc20 module is disabled".
Definition ErrInvalidAllowance : string := "invalid allowance".
Definition ErrInvalidAddress : string := "invalid address".
Definition empty_key : string := "key is nil or empty".

(** [len(id) == 0] of an identifier that may be nil. *)
Definition no_id (id : option bytes) : bool := match id with None => true | Some b => len b =? 0 end.

Section store.
Context {Ty : SdkTypes} {Eth : EthCommon}.
Abbreviation MS := (M Erc20Store).

(** ** token_pairs.go *)

Definition IsDenomRegistered (denom : string) (s : Erc20Store) : bool := bool_decide (is_Some (st_byDenom s !! denom)).
Definition IsERC20Registered (erc20 : addr) (s : Erc20Store) : bool := bool_decide (is_Some (st_byERC20 s !! erc20)).
Definition IsTokenPairRegistered (id : bytes) (s : Erc20Store) : bool := bool_decide (is_Some (st_pairs s !! id)).
Definition GetERC20Map (erc20 : addr) (s : Erc20Store) : option bytes := st_byERC20 s !! erc20.
Definition GetDenomMap (denom : string) (s : Erc20Store) : option bytes := st_byDenom s !! denom.
Definition SetTokenPair (p : TokenPair) (s : Erc20Store) : Erc20Store := set_pairs <[GetID p := p]> s.
Definition SetERC20Map (erc20 : addr) (id : bytes) (s : Erc20Store) : Erc20Store := set_byERC20 <[erc20 := id]> s.
(** The store panics on an empty key. *)
Definition SetDenomMap (denom : string) (id : bytes) : MS unit :=
  if String.eqb denom EmptyString then mlift (Panic empty_key) else mmodify (set_byDenom <[denom := id]>).

Definition SetToken (pair : TokenPair) : MS unit :=
  let! denomRegistered <- mreads (IsDenomRegistered (tp_Denom pair));
  do! mguard (negb denomRegistered) ErrTokenPairAlreadyExists;
  let! erc20Registered <- mreads (IsERC20Registered (GetERC20Contract pair));
  do! mguard (negb erc20Registered) ErrTokenPairAlreadyExists;
  do! mmodify (SetTokenPair pair);
  do! SetDenomMap (tp_Denom pair) (GetID pair);
  mmodify (SetERC20Map (GetERC20Contract pair) (GetID pair)).

(** A pair whose fields all have their zero value is encoded as no bytes. *)
Definition zero_pair : TokenPair := MkTokenPair EmptyString EmptyString false OWNER_UNSPECIFIED.
Definition GetTokenPair (id : option bytes) (s : Erc20Store) : option TokenPair :=
  match id with
  | None => None
  | Some id =>
    match st_pairs s !! id with
    | Some p => if bool_decide (p = zero_pair) then None else Some p
    | None => None
    end
  end.
Definition GetTokenPairs (s : Erc20Store) : list TokenPair := by_key (st_pairs s).
Definition GetTokenPairID (token : string) (s : Erc20Store) : option bytes :=
  if IsHexAddress token then GetERC20Map (HexToAddress token) s else GetDenomMap token s.

Definition deleteAllowances (erc20 : addr) (s : Erc20Store) : Erc20Store :=
  let keys := List.filter (has_prefix erc20) (fst <$> map_to_list (st_allowances s)) in
  set_allowances (fun m => foldl (fun m k => delete k m) m keys) s.
Definition DeleteTokenPair (p : TokenPair) (s : Erc20Store) : Erc20Store :=
  let s := set_pairs (delete (GetID p)) s in
  let s := set_byERC20 (delete (GetERC20Contract p)) s in
  let s := set_byDenom (delete (tp_Denom p)) s in
  deleteAllowances (GetERC20Contract p) s.

Definition GetTokenDenom (tokenAddress : addr) (s : Erc20Store) : outcome string :=
  let id := GetERC20Map tokenAddress s in
  odo oguard (negb (no_id id)) ErrTokenPairNotFound;
  match GetTokenPair id s with None => Err ErrTokenPairNotFound | Some p => Ok (tp_Denom p) end.

(** ** allowance.go *)

Definition GetAllowance (erc20 owner spender : addr) (s : Erc20Store) : Z :=
  match st_allowances s !! AllowanceKey erc20 owner spender with None => 0 | Some a => al_Value a end.

(** A nil value is [None]. *)
Definition setAllowance (erc20 owner spender : addr) (value : option Z) (allowDisabledTokenPair : bool) : MS unit := fun s =>
  (match GetTokenPair (GetERC20Map erc20 s) s with
   | None => mfail ErrTokenPairNotFound
   | Some tokenPair =>
     do! mguard (allowDisabledTokenPair || tp_Enabled tokenPair) ErrERC20TokenPairDisabled;
     do! mguard (negb (String.eqb owner zero_address)) ErrInvalidAddress;
     do! mguard (negb (String.eqb spender zero_address)) ErrInvalidAddress;
     match value with
     | None => mfail ErrInvalidAllowance
     | Some v =>
       do! mguard (0 <=? v) ErrInvalidAllowance;
       do! mguard (v <? two256) ErrInvalidAllowance;
       if v =? 0 then mmodify (set_allowances (delete (AllowanceKey erc20 owner spender)))
       else mmodify (set_allowances <[AllowanceKey erc20 owner spender := NewAllowance erc20 owner spender v]>)
     end
   end) s.
Definition SetAllowance (erc20 owner spender : addr) (value : option Z) : MS unit := setAllowance erc20 owner spender value false.
Definition DeleteAllowance (erc20 owner spender : addr) : MS unit := setAllowance erc20 owner spender (Some 0) false.
Definition UnsafeSetAllowance (erc20 owner spender : addr) (value : option Z) : MS unit := setAllowance erc20 owner spender value true.
Definition GetAllowances (s : Erc20Store) : list Allowance := by_key (st_allowances s).

(** ** params.go *)

Definition GetParams (s : Erc20Store) : Erc20Params := MkErc20Params (st_enabled s) (st_permissionless s).
Definition SetParams (p : Erc20Params) (s : Erc20Store) : Erc20Store :=
  MkErc20Store (st_pairs s) (st_byERC20 s) (st_byDenom s) (st_allowances s) (st_native s) (st_dynamic s) (p_EnableErc20 p) (p_PermissionlessRegistration p).

(** ** precompiles.go: the sets of precompiles *)

Definition IsNativePrecompileAvailable (a : addr) (s : Erc20Store) : bool := bool_decide (Address_Hex a ∈ st_native s).
Definition IsDynamicPrecompileAvailable (a : addr) (s : Erc20Store) : bool := bool_decide (Address_Hex a ∈ st_dynamic s).
Definition SetNativePrecompile (a : addr) : Erc20Store -> Erc20Store := set_native ({[Address_Hex a]} ∪.).
Definition SetDynamicPrecompile (a : addr) : Erc20Store -> Erc20Store := set_dynamic ({[Address_Hex a]} ∪.).
Definition DeleteNativePrecompile (a : addr) : Erc20Store -> Erc20Store := set_native (.∖ {[Address_Hex a]}).
Definition DeleteDynamicPrecompile (a : addr) : Erc20Store -> Erc20Store := set_dynamic (.∖ {[Address_Hex a]}).
Definition GetNativePrecompiles (s : Erc20Store) : list string := sort_Strings (elements (st_native s)).
Definition GetDynamicPrecompiles (s : Erc20Store) : list string := sort_Strings (elements (st_dynamic s)).

(** ** proposals.go: toggleConversion *)

Definition toggleConversion (token : string) : MS TokenPair :=
  let! id <- mreads (GetTokenPairID token);
  do! mguard (negb (no_id id)) ErrTokenPairNotFound;
  let! found <- mreads (GetTokenPair id);
  match found with
  | None => mfail ErrTokenPairNotFound
  | Some p =>
    let pair := MkTokenPair (tp_Erc20Address p) (tp_Denom p) (negb (tp_Enabled p)) (tp_ContractOwner p) in
    do! mmodify (SetTokenPair pair);
    mret pair
  end.

End store.

(** ** The world: the store, the bank, the EVM and the gas meter *)

Record World (B E G : Type) := MkWorld {
  w_store : Erc20Store;
  w_bank : B;
  w_evm : E;
  w_gas : G;
}.
Arguments MkWorld {B E G}.
Arguments w_store {B E G}.
Arguments w_bank {B E G}.
Arguments w_evm {B E G}.
Arguments w_gas {B E G}.

Definition on_store {B E G A} (m : M Erc20Store A) : M (World B E G) A := fun w =>
  let (r, s) := m (w_store w) in (r, MkWorld s (w_bank w) (w_evm w) (w_gas w)).
Definition on_bank {B E G A} (m : M B A) : M (World B E G) A := fun w =>
  let (r, b) := m (w_bank w) in (r, MkWorld (w_store w) b (w_evm w) (w_gas w)).
Definition on_gas {B E G A} (m : M G A) : M (World B E G) A := fun w =>
  let (r, g) := m (w_gas w) in (r, MkWorld (w_store w) (w_bank w) (w_evm w) g).

(** The bank keeper beyond [BankOps]: the message server's [Send], metadata and
    who may send. *)
Class Erc20Bank (B : Type) := {
  bk_SendCoins : addr -> addr -> list Coin -> M B unit;
  bk_Send : addr -> addr -> list Coin -> M B unit;
  bk_BlockedAddr : addr -> bool;
  bk_IsSendEnabled : B -> string -> bool;
  bk_GetDenomMetaData : B -> string -> option Metadata;
  bk_SetDenomMetaData : Metadata -> B -> B;
  bk_SpendableCoin : B -> addr -> string -> Z;
  Metadata_Validate : Metadata -> outcome unit;
  Coins_Validate : list Coin -> outcome unit;
}.

Class GasOps (G : Type) := {
  gas_Consumed : G -> Z;
  gas_Limit : G -> Z;
  gas_Refund : Z -> M G unit;
  gas_Consume : Z -> M G unit;
}.

(** An account is a base account or a module account ([sdk.ModuleAccountI]). *)
Inductive AccountI := BaseAccount | ModuleAccount.

(** The EVM keeper, the account keeper and the staking keeper. *)
Class Erc20Evm (B E G : Type) := {
  ev_GetAccount : World B E G -> addr -> option Account;
  ev_GetAccountWithoutBalance : World B E G -> addr -> option Account;
  ev_SetAccount : addr -> Account -> M (World B E G) unit;
  ev_GetCode : World B E G -> bytes -> bytes;
  ev_SetCode : bytes -> bytes -> M (World B E G) unit;
  ev_ApplyMessage : CoreMessage -> bool -> bool -> bool -> M (World B E G) TxResponse;
  ak_GetSequence : World B E G -> addr -> outcome Z;
  ak_GetAccount : World B E G -> addr -> option AccountI;
  sk_BondDenom : World B E G -> outcome string;
  Erc20Bytecode : bytes;
}.

(** The denominations of ibc-go and the codec of addresses. *)
Record IbcDenom := MkIbcDenom { dn_Base : string; dn_Trace : list (string * string) }.
Class IbcLibs := {
  ParseHexHash : string -> outcome bytes;
  ExtractDenomFromPath : string -> IbcDenom;
  IBCDenom : IbcDenom -> string;
  Denom_HasPrefix : IbcDenom -> string -> string -> bool;
  addr_StringToBytes : string -> outcome addr;
}.

Section keeper.
Context {Ty : SdkTypes} {Eth : EthCommon} {Cr : EthCrypto} {Ibc : IbcLibs}.
Context {B E G : Type} {Ev : Erc20Evm B E G}.
Abbreviation W := (World B E G).
Abbreviation MW := (M (World B E G)).

Definition HasCodeHash (acct : Account) : bool := negb (IsEmptyCodeHash (default EmptyString (ac_CodeHash acct))).
Definition NewEmptyAccount : Account := MkAccount 0 (Some 0) (Some EmptyCodeHash) None.

(** ** utils.GetIBCDenomAddress, types.NewTokenPairSTRv2 *)
Definition GetIBCDenomAddress (denom : string) : outcome addr :=
  odo oguard (has_prefix "ibc/" denom) "coin does not have 'ibc/' prefix";
  odo oguard (negb ((len denom <? 5) || String.eqb (TrimSpace (drop_bytes 4 denom)) EmptyString)) "coin is not a valid IBC voucher hash";
  olet bz <- ParseHexHash (drop_bytes 4 denom);
  Ok (BytesToAddress bz).
Definition NewTokenPairSTRv2 (denom : string) : outcome TokenPair :=
  olet address <- GetIBCDenomAddress denom;
  Ok (MkTokenPair (Address_Hex address) denom true OWNER_MODULE).

Definition CreateNewTokenPair (denom : string) : MW TokenPair :=
  let! tp <- mlift (NewTokenPairSTRv2 denom);
  let! account <- mreads (fun w => ev_GetAccount w (GetERC20Contract tp));
  do! mguard (match account with Some a => negb (HasCodeHash a) | None => true end) ErrTokenPairAlreadyExists;
  do! on_store (SetToken tp);
  mret tp.

Definition GetCoinAddress (denom : string) (s : Erc20Store) : outcome addr :=
  let id := GetDenomMap denom s in
  if no_id id then GetIBCDenomAddress denom else
  match GetTokenPair id s with None => Err ErrTokenPairNotFound | Some p => Ok (GetERC20Contract p) end.

(** ** dynamic_precompiles.go *)

Definition RegisterERC20CodeHash (erc20Addr : addr) : MW unit :=
  let codeHash := Keccak256Hash [Erc20Bytecode] in
  let! code <- mreads (fun w => ev_GetCode w codeHash);
  do! (if len code =? 0 then ev_SetCode codeHash Erc20Bytecode else mret tt);
  let! acc <- mreads (fun w => ev_GetAccount w erc20Addr);
  let acc := default NewEmptyAccount acc in
  ev_SetAccount erc20Addr (MkAccount (ac_Nonce acc) (ac_Balance acc) (Some codeHash) (ac_lockedBalance acc)).

Definition UnRegisterERC20CodeHash (erc20Addr : addr) : MW unit :=
  let! acc <- mreads (fun w => ev_GetAccount w erc20Addr);
  let '(nonce, balance) := match acc with Some a => (ac_Nonce a, ac_Balance a) | None => (0, Some 0) end in
  ev_SetAccount erc20Addr (MkAccount nonce balance (Some EmptyCodeHash) None).

(** ** precompiles.go *)

Inductive PrecompileType := PrecompileTypeNative | PrecompileTypeDynamic.

Definition RegisterCodeHash (a : addr) (pType : PrecompileType) : MW unit :=
  let! available <- mreads (fun w => match pType with
                                     | PrecompileTypeNative => IsNativePrecompileAvailable a (w_store w)
                                     | PrecompileTypeDynamic => IsDynamicPrecompileAvailable a (w_store w)
                                     end);
  if negb available then RegisterERC20CodeHash a else mret tt.
Definition EnableNativePrecompile (a : addr) : MW unit :=
  do! RegisterCodeHash a PrecompileTypeNative;
  on_store (mmodify (SetNativePrecompile a)).
Definition EnableDynamicPrecompile (a : addr) : MW unit :=
  do! RegisterCodeHash a PrecompileTypeDynamic;
  on_store (mmodify (SetDynamicPrecompile a)).

(** What an address runs: nothing, the ERC-20 precompile or the wrapped one. *)
Inductive PrecompileInstance := Erc20Instance (p : TokenPair) | Werc20Instance (p : TokenPair).
Definition InstantiateERC20Precompile (contractAddr : addr) (hasWrappedMethods : bool) (s : Erc20Store) : outcome PrecompileInstance :=
  let id := GetTokenPairID (Address_Hex contractAddr) s in
  odo oguard (negb (no_id id)) "precompile id not found";
  match GetTokenPair id s with
  | None => Err "token pair not found"
  | Some tp => Ok (if hasWrappedMethods then Werc20Instance tp else Erc20Instance tp)
  end.
Definition GetERC20PrecompileInstance (address : addr) (s : Erc20Store) : outcome (option PrecompileInstance) :=
  let isNative := IsNativePrecompileAvailable address s in
  let isDynamic := IsDynamicPrecompileAvailable address s in
  if negb (isNative || isDynamic) then Ok None else
  olet p <- owrap "precompiled contract not initialized" (InstantiateERC20Precompile address isNative s);
  Ok (Some p).

Definition RegisterERC20Extension (denom : string) : MW TokenPair :=
  let! tp <- CreateNewTokenPair denom;
  do! EnableDynamicPrecompile (GetERC20Contract tp);
  mret tp.

End keeper.
