(* ===== verification/Erc20Convert.v ===== *)
(** * x/erc20/keeper: conversions, the message server and the IBC callbacks

    evm.go, util.go, mint.go, convert.go, proposals.go, msg_server.go and
    ibc_callbacks.go of src/x/erc20/keeper, genesis.go and ibc_middleware.go of
    src/x/erc20, and x/vm/keeper/call_evm.go, through which the module calls
    contracts. A contract call runs [ev_ApplyMessage] of the world; the ABI
    encoding is a library. A handler is the body of the message; [deliver] adds
    the stateless checks and the discarding of a failed message. *)

From Stdlib Require Import ZArith Lia List String Ascii Bool.
From stdpp Require Import base gmap strings list.
From S2P Require Import Prelude GoStrings Sha256 Sdk AccessList StateDB Precompile EvmTx StateTransition Erc20Types Erc20Keeper.
Local Open Scope Z_scope.
Local Open Scope go_scope.

(** ** The ABI of ERC20MinterBurnerDecimals *)

Inductive abi_value := AAddress (a : addr) | ABigInt (z : Z) | AOther.

Class Erc20Abi := {
  abi_Pack : string -> list abi_value -> outcome bytes;
  abi_Unpack : string -> bytes -> outcome (list abi_value);
  abi_UnpackBool : string -> bytes -> outcome bool;
  abi_UnpackString : string -> bytes -> outcome string;
  abi_UnpackUint8 : string -> bytes -> outcome Z;
  logTransferSigHash : hash;
  logApprovalSigHash : hash;
}.

Definition ErrNativeConversionDisabled : string := "native coins manual conversion is disabled".
Definition ErrUndefinedOwner : string := "undefined owner of contract pair".
Definition ErrBalanceInvariance : string := "post transfer balance invariant failed".
Definition ErrEVMCall : string := "EVM call unexpected error".
Definition ErrExpectedEvent : string := "expected event".
Definition ErrUnexpectedEvent : string := "unexpected event".
Definition ErrInternalTokenPair : string := "internal ethereum token mapping error".
Definition no_topic : string := "index out of range".

(** ** util.go *)

Fixpoint approval_free (sig : hash) (logs : list Log) : outcome unit :=
  match logs with
  | [] => Ok tt
  | log :: logs' =>
    match lg_Topics log with
    | [] => Panic no_topic
    | t :: _ => if String.eqb t sig then Err ErrUnexpectedEvent else approval_free sig logs'
    end
  end.
Definition validateApprovalEventDoesNotExist {A : Erc20Abi} (logs : list Log) : outcome unit := approval_free logApprovalSigHash logs.

(** Topics and addresses are compared in hex by the source. *)
Fixpoint transfer_events (sig : hash) (token : addr) (logs : list Log) (found : bool) : outcome bool :=
  match logs with
  | [] => Ok found
  | log :: logs' =>
    match lg_Topics log with
    | [] => Panic no_topic
    | t :: _ =>
      if String.eqb t sig then
        if negb (String.eqb (lg_Address log) token) then Err ErrUnexpectedEvent
        else if found then Err ErrUnexpectedEvent
        else transfer_events sig token logs' true
      else transfer_events sig token logs' found
    end
  end.
Definition validateTransferEventExists {A : Erc20Abi} (logs : list Log) (tokenAddress : addr) : outcome unit :=
  odo oguard (negb (Nat.eqb (length logs) 0)) ErrExpectedEvent;
  olet found <- transfer_events logTransferSigHash tokenAddress logs false;
  oguard found ErrExpectedEvent.

(** utils.Bytes32ToString: up to the first zero byte. *)
Fixpoint Bytes32ToString (data : string) : string :=
  match data with
  | EmptyString => EmptyString
  | String c s => if ord c =? 0 then EmptyString else String c (Bytes32ToString s)
  end.

Record ERC20Data := MkERC20Data { ed_Name : string; ed_Symbol : string; ed_Decimals : Z }.

(** ** ibc/utils.go *)

Record PacketData := MkPacketData { pd_Denom : string; pd_Amount : string; pd_Sender : string; pd_Receiver : string }.
Record Packet := MkPacket { pk_SourcePort : string; pk_SourceChannel : string; pk_DestinationPort : string; pk_DestinationChannel : string }.

Section ibc_utils.
Context {Ma : SdkMath} {Ibc : IbcLibs}.

(** The amount is nil when it does not parse. *)
Definition GetReceivedCoin (packet : Packet) (d : IbcDenom) (amount : string) : outcome (string * option Z) :=
  let amountInt := NewIntFromString amount in
  if Denom_HasPrefix d (pk_SourcePort packet) (pk_SourceChannel packet) then
    match dn_Trace d with
    | [] => Panic "slice bounds out of range"
    | _ :: rest => Ok (IBCDenom (MkIbcDenom (dn_Base d) rest), amountInt)
    end
  else Ok (IBCDenom (MkIbcDenom (dn_Base d) ((pk_DestinationPort packet, pk_DestinationChannel packet) :: dn_Trace d)), amountInt).
Definition GetSentCoin (rawDenom rawAmt : string) : string * option Z :=
  (IBCDenom (ExtractDenomFromPath rawDenom), NewIntFromString rawAmt).

End ibc_utils.

Section convert.
Context {Ma : SdkMath} {Ty : SdkTypes} {Eth : EthCommon} {Cr : EthCrypto} {Ibc : IbcLibs} {Ab : Erc20Abi}.
Context {B E G : Type} {Bo : BankOps B} {Bk : Erc20Bank B} {Go : GasOps G} {Ev : Erc20Evm B E G}.
Abbreviation W := (World B E G).
Abbreviation MW := (M (World B E G)).

(** [types.ModuleAddress] *)
Definition ModuleAddress : addr := BytesToAddress (GetModuleAddress ModuleName).

(** ** x/vm/keeper/call_evm.go *)

Definition DefaultGasCap : Z := 25000000.
Definition call_gas_limit (gasCap : option Z) : Z :=
  match gasCap with
  | None => DefaultGasCap
  | Some c => if (0 <? c) && (c <? two64) && (c <? DefaultGasCap) then c else DefaultGasCap
  end.
Definition call_message (from contract : addr) (nonce gasLimit : Z) (data : bytes) : CoreMessage :=
  MkCoreMessage from (Some contract) nonce 0 gasLimit 0 0 0 data [] [].
Definition CallEVMWithData (from contract : addr) (data : bytes) (commit callFromPrecompile : bool) (gasCap : option Z) : MW TxResponse :=
  let! nonce <- mtry (fun w => ak_GetSequence w from);
  let msg := call_message from contract nonce (call_gas_limit gasCap) data in
  let! res <- ev_ApplyMessage msg commit callFromPrecompile true;
  if Failed res then
    do! on_gas (fun g => gas_Refund (gas_Consumed g) g);
    do! on_gas (fun g => gas_Consume (gas_Limit g) g);
    mfail (rs_VmError res)
  else
    do! on_gas (gas_Consume (rs_GasUsed res));
    mret res.
Definition CallEVM (from contract : addr) (commit callFromPrecompile : bool) (gasCap : option Z) (method : string)
    (args : list abi_value) : MW TxResponse :=
  let! data <- mlift (owrap "failed to create transaction data" (abi_Pack method args));
  CallEVMWithData from contract data commit callFromPrecompile gasCap.

(** ** evm.go *)

(** An error of the call or of the decoding gives nil; a panic goes through. *)
Definition recover_err {A} (m : MW A) : MW (option A) := fun w =>
  match m w with
  | (Ok a, w') => (Ok (Some a), w')
  | (Err _, w') => (Ok None, w')
  | (Panic p, w') => (Panic p, w')
  end.
Definition BalanceOf (contract account : addr) : MW (option Z) :=
  let! res <- recover_err (CallEVM ModuleAddress contract false false None "balanceOf" [AAddress account]);
  match res with
  | None => mret None
  | Some res =>
    match abi_Unpack "balanceOf" (rs_Ret res) with
    | Ok (ABigInt z :: _) => mret (Some z)
    | Panic p => mlift (Panic p)
    | _ => mret None
    end
  end.

Definition queryERC20String (contract : addr) (method : string) : MW string :=
  let! res <- CallEVM ModuleAddress contract false false None method [];
  match abi_UnpackString method (rs_Ret res) with
  | Ok s => mret s
  | Panic p => mlift (Panic p)
  | Err _ => if len (rs_Ret res) =? 32 then mret (Bytes32ToString (rs_Ret res)) else mfail "failed to unpack as both string and raw bytes32"
  end.
Definition QueryERC20 (contract : addr) : MW ERC20Data :=
  let! name <- queryERC20String contract "name";
  let! symbol <- queryERC20String contract "symbol";
  let! res <- CallEVM ModuleAddress contract false false None "decimals" [];
  let! decimals <- mlift (owrap "failed to unpack decimals" (abi_UnpackUint8 "decimals" (rs_Ret res)));
  mret (MkERC20Data name symbol decimals).

(** ** mint.go *)

Definition MintingEnabled (receiver : addr) (token : string) : MW TokenPair :=
  let! s <- mreads w_store;
  do! mguard (st_enabled s) ErrERC20Disabled;
  let id := GetTokenPairID token s in
  do! mguard (negb (no_id id)) ErrTokenPairNotFound;
  match GetTokenPair id s with
  | None => mfail ErrTokenPairNotFound
  | Some p =>
    do! mguard (tp_Enabled p) ErrERC20TokenPairDisabled;
    do! mguard (negb (bk_BlockedAddr receiver)) "not allowed to receive transactions";
    let! sendEnabled <- mreads (fun w => bk_IsSendEnabled (w_bank w) (tp_Denom p));
    do! mguard sendEnabled "send transactions are disabled";
    mret p
  end.

(** ** convert.go *)

(** The check of what a transfer returned, common to both directions. *)
Definition check_transfer (res : TxResponse) (contract : addr) : outcome unit :=
  if len (rs_Ret res) =? 0 then validateTransferEventExists (rs_Logs res) contract
  else
    olet value <- abi_UnpackBool "transfer" (rs_Ret res);
    oguard value "failed to execute transfer".

(** Whether the contract is gone. *)
Definition suicided (w : W) (contract : addr) : bool :=
  match ev_GetAccountWithoutBalance w contract with Some a => negb (HasCodeHash a) | None => true end.

(** [None] is the nil response after the deletion of the pair. The state
    database is a new one, or the running one of the precompile that calls;
    either is part of the world. *)
Definition ConvertERC20IntoCoinsForNativeToken (contract : addr) (amount : Z) (receiver sender : addr)
    (commit callFromPrecompile : bool) : MW (option unit) :=
  let! p <- MintingEnabled receiver (Address_Hex contract);
  do! mguard (IsNativeERC20 p) (if IsNativeCoin p then ErrNativeConversionDisabled else ErrUndefinedOwner);
  let! gone <- mreads (fun w => suicided w (GetERC20Contract p));
  if gone then do! on_store (mmodify (DeleteTokenPair p)); mret None
  else
    let erc20Contract := GetERC20Contract p in
    let! balanceCoin <- mreads (fun w => GetBalance (w_bank w) receiver (tp_Denom p));
    let! balanceToken <- BalanceOf erc20Contract ModuleAddress;
    match balanceToken with
    | None => mfail ErrEVMCall
    | Some balanceToken =>
      let! transferData <- mlift (abi_Pack "transfer" [AAddress ModuleAddress; ABigInt amount]);
      let! res <- CallEVMWithData sender erc20Contract transferData commit callFromPrecompile None;
      do! mlift (check_transfer res erc20Contract);
      let! balanceTokenAfter <- BalanceOf erc20Contract ModuleAddress;
      match balanceTokenAfter with
      | None => mfail ErrEVMCall
      | Some balanceTokenAfter =>
        do! mguard (balanceTokenAfter =? balanceToken + amount) ErrBalanceInvariance;
        let coins := [MkCoin (tp_Denom p) amount] in
        do! on_bank (MintCoins ModuleName coins);
        do! on_bank (SendCoinsFromModuleToAccount ModuleName receiver coins);
        let! balanceCoinAfter <- mreads (fun w => GetBalance (w_bank w) receiver (tp_Denom p));
        let! expCoin <- mlift (Int_Add balanceCoin amount);
        do! mguard (balanceCoinAfter =? expCoin) ErrBalanceInvariance;
        mret (Some tt)
      end
    end.

(** ** msg_server.go *)

(** A nil amount ([None]) has no sign. *)
Definition ConvertCoinNativeERC20 (p : TokenPair) (amount : option Z) (receiver sender : addr) (callFromPrecompile : bool) : MW unit :=
  match amount with
  | None => mlift (Panic nil_deref)
  | Some amount =>
    do! mguard (0 <? amount) "converted coin amount must be positive";
    let contract := GetERC20Contract p in
    let! balanceToken <- BalanceOf contract receiver;
    match balanceToken with
    | None => mfail ErrEVMCall
    | Some balanceToken =>
      let coins := [MkCoin (tp_Denom p) amount] in
      do! on_bank (SendCoinsFromAccountToModule sender ModuleName coins);
      let! res <- CallEVM ModuleAddress contract true callFromPrecompile None "transfer" [AAddress receiver; ABigInt amount];
      do! mlift (check_transfer res contract);
      let! balanceTokenAfter <- BalanceOf contract receiver;
      match balanceTokenAfter with
      | None => mfail ErrEVMCall
      | Some balanceTokenAfter =>
        do! mguard (balanceTokenAfter =? balanceToken + amount) ErrBalanceInvariance;
        on_bank (BurnCoins ModuleName coins)
      end
    end
  end.

Definition ConvertERC20 (m : MsgConvertERC20) : MW (option unit) :=
  let! receiver <- mlift (AccAddressFromBech32 (ce_Receiver m));
  ConvertERC20IntoCoinsForNativeToken (HexToAddress (ce_ContractAddress m)) (ce_Amount m) receiver (HexToAddress (ce_Sender m)) true false.

(** [sdk.MustAccAddressFromBech32] panics on an error. *)
Definition must {A} (o : outcome A) : outcome A := match o with Err e => Panic e | o => o end.
Definition ConvertCoin (m : MsgConvertCoin) : MW unit :=
  let! sender <- mlift (must (AccAddressFromBech32 (cc_Sender m)));
  let receiver := HexToAddress (cc_Receiver m) in
  let! p <- MintingEnabled receiver (Denom (cc_Coin m));
  if IsNativeERC20 p then
    let! gone <- mreads (fun w => suicided w (GetERC20Contract p));
    if gone then on_store (mmodify (DeleteTokenPair p))
    else ConvertCoinNativeERC20 p (Some (Amount (cc_Coin m))) receiver sender false
  else mfail (if IsNativeCoin p then ErrNativeConversionDisabled else ErrUndefinedOwner).

(** ** proposals.go *)

Definition coin_metadata (contract : addr) (data : ERC20Data) : Metadata :=
  let strContract := Address_Hex contract in
  let base := CreateDenom strContract in
  let nameSanitized := SanitizeERC20Name (ed_Name data) in
  if 0 <? ed_Decimals data then
    MkMetadata (CreateDenomDescription strContract) [MkDenomUnit base 0 []; MkDenomUnit nameSanitized (ed_Decimals data) []]
      base nameSanitized base (ed_Symbol data) EmptyString EmptyString
  else
    MkMetadata (CreateDenomDescription strContract) [MkDenomUnit base 0 []] base base base (ed_Symbol data) EmptyString EmptyString.
Definition CreateCoinMetadata (contract : addr) : MW Metadata :=
  let! data <- QueryERC20 contract;
  let denom := CreateDenom (Address_Hex contract) in
  let! found <- mreads (fun w => bk_GetDenomMetaData (w_bank w) denom);
  do! mguard (match found with Some _ => false | None => true end) ErrInternalTokenPair;
  let! registered <- mreads (fun w => IsDenomRegistered denom (w_store w));
  do! mguard (negb registered) ErrInternalTokenPair;
  let metadata := coin_metadata contract data in
  do! mlift (owrap "ERC20 token data is invalid" (Metadata_Validate metadata));
  do! on_bank (mmodify (bk_SetDenomMetaData metadata));
  mret metadata.
Definition registerERC20 (contract : addr) : MW TokenPair :=
  let! registered <- mreads (fun w => IsERC20Registered contract (w_store w));
  do! mguard (negb registered) ErrTokenPairAlreadyExists;
  let! metadata <- CreateCoinMetadata contract;
  let p := NewTokenPair contract (md_Name metadata) OWNER_EXTERNAL in
  do! on_store (SetToken p);
  mret p.

(** ** msg_server.go: the messages of governance *)

Definition validateAuthority (ctx : Ctx) (keeperAuthority authority : string) : outcome unit :=
  odo owrap "invalid authority address" (addr_StringToBytes authority);
  ValidateAuthority ctx keeperAuthority authority.
Definition UpdateParams (ctx : Ctx) (keeperAuthority : string) (m : MsgUpdateErc20Params) : MW unit :=
  do! mlift (validateAuthority ctx keeperAuthority (mu_Authority m));
  on_store (mmodify (SetParams (mu_Params m))).
Fixpoint register_all (addrs : list string) : MW unit :=
  match addrs with
  | [] => mret tt
  | a :: addrs' =>
    do! mguard (IsHexAddress a) "invalid ERC20 contract address";
    do! registerERC20 (HexToAddress a);
    register_all addrs'
  end.
Definition RegisterERC20 (ctx : Ctx) (keeperAuthority : string) (m : MsgRegisterERC20) : MW unit :=
  let! s <- mreads w_store;
  do! (if negb (st_permissionless s) then mlift (validateAuthority ctx keeperAuthority (re_Signer m)) else mret tt);
  do! mguard (st_enabled s) ErrERC20Disabled;
  register_all (re_Erc20Addresses m).
Definition ToggleConversion (ctx : Ctx) (keeperAuthority : string) (m : MsgToggleConversion) : MW unit :=
  let! s <- mreads w_store;
  do! mguard (st_enabled s) ErrERC20Disabled;
  do! mlift (validateAuthority ctx keeperAuthority (mt_Authority m));
  do! on_store (toggleConversion (mt_Token m));
  mret tt.

(** A message as it is delivered: the stateless checks, then the handler; a
    failure discards what was written. *)
Inductive Erc20Msg :=
  | ConvertERC20Msg (m : MsgConvertERC20)
  | ConvertCoinMsg (m : MsgConvertCoin)
  | RegisterERC20Msg (m : MsgRegisterERC20)
  | ToggleConversionMsg (m : MsgToggleConversion)
  | UpdateParamsMsg (m : MsgUpdateErc20Params).
Definition handle (ctx : Ctx) (keeperAuthority : string) (m : Erc20Msg) : MW unit :=
  match m with
  | ConvertERC20Msg m => do! mlift (MsgConvertERC20_ValidateBasic m); do! ConvertERC20 m; mret tt
  | ConvertCoinMsg m => do! mlift (MsgConvertCoin_ValidateBasic m); ConvertCoin m
  | RegisterERC20Msg m => do! mlift (MsgRegisterERC20_ValidateBasic m); RegisterERC20 ctx keeperAuthority m
  | ToggleConversionMsg m => do! mlift (MsgToggleConversion_ValidateBasic m); ToggleConversion ctx keeperAuthority m
  | UpdateParamsMsg m => do! mlift (MsgUpdateErc20Params_ValidateBasic m); UpdateParams ctx keeperAuthority m
  end.
Definition deliver (ctx : Ctx) (keeperAuthority : string) (m : Erc20Msg) : MW unit := atomically (handle ctx keeperAuthority m).

(** ** ibc_callbacks.go *)

Inductive Acknowledgement := AckResult (result : bytes) | AckError (e : string).
Definition Ack_Success (a : Acknowledgement) : bool := match a with AckResult _ => true | AckError _ => false end.

Definition IsModuleAccount (acc : option AccountI) : bool := match acc with Some ModuleAccount => true | _ => false end.

(** An error becomes an error acknowledgement. *)
Definition or_ack {A} (m : MW A) (k : A -> MW Acknowledgement) : MW Acknowledgement := fun w =>
  match m w with
  | (Ok a, w') => k a w'
  | (Err e, w') => (Ok (AckError e), w')
  | (Panic p, w') => (Panic p, w')
  end.

Definition OnRecvPacket (packet : Packet) (packetData : outcome PacketData) (ack : Acknowledgement) : MW Acknowledgement := fun w =>
  if negb (st_enabled (w_store w)) then (Ok ack, w) else
  or_ack (mlift packetData) (fun data =>
  let! coin <- mlift (GetReceivedCoin packet (ExtractDenomFromPath (pd_Denom data)) (pd_Amount data));
  if has_prefix "factory/" (pd_Denom data) then mret ack else
  or_ack (mtry sk_BondDenom) (fun bondDenom =>
  if String.eqb coin.1 bondDenom then mret ack else
  or_ack (mlift (addr_StringToBytes (pd_Receiver data))) (fun recipient =>
  let! receiverAcc <- mreads (fun w => ak_GetAccount w recipient);
  if IsModuleAccount receiverAcc then mret ack else
  let! found <- mreads (fun w => GetTokenPair (GetTokenPairID coin.1 (w_store w)) (w_store w));
  match found with
  | None =>
    if has_prefix "ibc/" coin.1 then or_ack (RegisterERC20Extension coin.1) (fun _ => mret ack) else mret ack
  | Some p =>
    if IsNativeERC20 p then
      if negb (tp_Enabled p) then mret ack else
      or_ack (MintingEnabled recipient coin.1) (fun p' =>
      or_ack (ConvertCoinNativeERC20 p' coin.2 (BytesToAddress recipient) recipient false) (fun _ => mret ack))
    else mret ack
  end))) w.

Definition ConvertCoinToERC20FromPacket (data : PacketData) : MW unit :=
  let! sender <- mlift (addr_StringToBytes (pd_Sender data));
  let! s <- mreads w_store;
  match GetTokenPair (GetTokenPairID (pd_Denom data) s) s with
  | None => mret tt
  | Some p =>
    let coin := GetSentCoin (pd_Denom data) (pd_Amount data) in
    if IsNativeCoin p then mret tt
    else if IsNativeERC20 p then
      if negb (p_EnableErc20 (GetParams s)) || negb (IsDenomRegistered coin.1 s) then mret tt else
      let! senderAcc <- mreads (fun w => ak_GetAccount w sender);
      if IsModuleAccount senderAcc then mret tt else
      do! recover_err (ConvertCoinNativeERC20 p coin.2 (BytesToAddress sender) sender false);
      mret tt
    else mret tt
  end.
Definition OnAcknowledgementPacket (data : PacketData) (ack : Acknowledgement) : MW unit :=
  match ack with
  | AckError _ => ConvertCoinToERC20FromPacket data
  | AckResult _ => mret tt
  end.
Definition OnTimeoutPacket (data : PacketData) : MW unit := ConvertCoinToERC20FromPacket data.

(** ** ibc_middleware.go: around the application below, the ICS-20 transfer *)

Definition mw_OnRecvPacket (app : MW Acknowledgement) (packet : Packet) (packetData : outcome PacketData) : MW Acknowledgement :=
  let! ack <- app;
  if negb (Ack_Success ack) then mret ack else OnRecvPacket packet packetData ack.
Definition mw_OnAcknowledgementPacket (app : MW unit) (ack : outcome Acknowledgement) (canonical : bool) (data : outcome PacketData) : MW unit :=
  let! ack <- mlift (owrap "cannot unmarshal ICS-20 transfer packet acknowledgement" ack);
  do! mguard canonical "acknowledgement did not marshal to expected bytes";
  let! data <- mlift (owrap "cannot unmarshal ICS-20 transfer packet data" data);
  do! app;
  OnAcknowledgementPacket data ack.
Definition mw_OnTimeoutPacket (app : MW unit) (data : outcome PacketData) : MW unit :=
  let! data <- mlift (owrap "cannot unmarshal ICS-20 transfer packet data" data);
  do! app;
  OnTimeoutPacket data.

(** ** genesis.go *)

Fixpoint each {A} (f : A -> MW unit) (l : list A) : MW unit :=
  match l with [] => mret tt | a :: l' => do! f a; each f l' end.
Fixpoint set_tokens (pairs : list TokenPair) : MW bool :=
  match pairs with
  | [] => mret true
  | p :: pairs' =>
    let! r <- recover_err (on_store (SetToken p));
    match r with None => mret false | Some _ => set_tokens pairs' end
  end.
Definition or_panic (m : MW unit) : MW unit := fun w => let (r, w') := m w in (must r, w').

(** The module account is set by the account keeper when it is missing. *)
Definition InitGenesis (data : GenesisState) : MW unit :=
  do! on_store (mmodify (SetParams (gs_Params data)));
  let! all <- set_tokens (gs_TokenPairs data);
  if negb all then mret tt else
  do! each (fun p => or_panic (EnableNativePrecompile (HexToAddress p))) (gs_NativePrecompiles data);
  do! each (fun p => or_panic (EnableDynamicPrecompile (HexToAddress p))) (gs_DynamicPrecompiles data);
  each (fun a => or_panic (on_store (UnsafeSetAllowance (HexToAddress (al_Erc20Address a)) (HexToAddress (al_Owner a))
                              (HexToAddress (al_Spender a)) (Some (al_Value a))))) (gs_Allowances data).
Definition ExportGenesis (s : Erc20Store) : GenesisState :=
  MkGenesisState (GetParams s) (GetTokenPairs s) (GetAllowances s) (GetNativePrecompiles s) (GetDynamicPrecompiles s).

(** ** grpc_query.go *)

Definition query_TokenPair (token : string) (s : Erc20Store) : outcome TokenPair :=
  odo (if is_ok (ValidateAddress token) then Ok tt else match ValidateDenom token with Err _ => Err "invalid format for token" | o => o end);
  let id := GetTokenPairID token s in
  odo oguard (negb (no_id id)) "token pair not found";
  match GetTokenPair id s with None => Err "token pair not found" | Some p => Ok p end.

End convert.
