(* ===== verification/Erc20Precompile.v ===== *)
(** * precompiles/erc20 and precompiles/werc20

    tx.go, approve.go, query.go, types.go, errors.go, events.go, msgsrv.go and
    erc20.go of src/precompiles/erc20, and tx.go, events.go and werc20.go of
    src/precompiles/werc20, on the keeper of Erc20Keeper.v. A precompile is the
    native action that Precompile.v runs. Methods, arguments and return values
    are decoded; events are the values they carry, kept in the order they are
    logged. The bank keeper is a [BaseKeeper], the type [MsgServer.Send]
    accepts. *)

From Stdlib Require Import ZArith Lia List String Ascii Bool.
From stdpp Require Import base gmap strings list.
From S2P Require Import Prelude GoStrings Sdk EvmCoin StateDB Precompile Erc20Types Erc20Keeper Erc20Convert.
Local Open Scope Z_scope.
Local Open Scope go_scope.

Inductive Erc20Event :=
  | EvTransfer (contract from to : addr) (value : Z)
  | EvApproval (contract owner spender : addr) (value : Z)
  | EvDeposit (contract dst : addr) (value : Z)
  | EvWithdrawal (contract src : addr) (value : Z).

Inductive ret_value := RetNone | RetBool (b : bool) | RetInt (z : Z) | RetString (s : string) | RetUint8 (z : Z).

Record Contract := MkContract { ct_Caller : addr; ct_Input : bytes; ct_Value : Z }.

Definition ErrInsufficientAllowance : string := "ERC20: insufficient allowance".
Definition ErrTransferAmountExceedsBalance : string := "ERC20: transfer amount exceeds balance".
Definition ErrDecreasedAllowanceBelowZero : string := "ERC20: decreased allowance below zero".
Definition ErrNegativeAmount : string := "cannot approve negative values".
Definition ErrIntegerOverflow : string := "causes integer overflow".
Definition ErrCannotReceiveFunds : string := "cannot receive funds".
Definition ErrUnknownMethod : string := "unknown method".
Definition ErrNoIBCVoucherDenom : string := "denom is not an IBC voucher".
Definition ErrDenomNotFound : string := "denom not found".
Definition ErrInvalidBaseDenom : string := "invalid base denom".

(** [strings.Contains] *)
Fixpoint strings_Contains (s sub : string) : bool :=
  has_prefix sub s || match s with EmptyString => false | String _ s' => strings_Contains s' sub end.

(** Errors are their texts; [errors.Is] is the containment of a sentinel's. *)
Definition ConvertErrToERC20Error (e : error) : error :=
  if strings_Contains e "spendable balance" then ErrTransferAmountExceedsBalance
  else if strings_Contains e "requested amount is more than spend limit" then ErrInsufficientAllowance
  else if strings_Contains e "subtracted value cannot be greater than existing allowance" then ErrDecreasedAllowanceBelowZero
  else if strings_Contains e ErrIntegerOverflow then ErrExecutionReverted
  else if strings_Contains e ErrNoIBCVoucherDenom || strings_Contains e ErrDenomNotFound ||
          strings_Contains e "invalid base denomination" || strings_Contains e "display denomination not found" ||
          strings_Contains e "invalid decimals" then ErrExecutionReverted
  else e.
Definition convert_err {S A} (m : M S A) : M S A := fun s =>
  match m s with (Err e, s') => (Err (ConvertErrToERC20Error e), s') | r => r end.

(** ** types.go *)

Definition ParseTransferArgs (args : list abi_value) : outcome (addr * Z) :=
  match args with
  | [AAddress to; ABigInt amount] => Ok (to, amount)
  | [AAddress _; _] => Err "invalid amount"
  | [_; _] => Err "invalid to address"
  | _ => Err "invalid number of arguments; expected 2"
  end.
Definition ParseTransferFromArgs (args : list abi_value) : outcome (addr * addr * Z) :=
  match args with
  | [AAddress from; AAddress to; ABigInt amount] => Ok (from, to, amount)
  | [AAddress _; AAddress _; _] => Err "invalid amount"
  | [AAddress _; _; _] => Err "invalid to address"
  | [_; _; _] => Err "invalid from address"
  | _ => Err "invalid number of arguments; expected 3"
  end.
Definition ParseApproveArgs (args : list abi_value) : outcome (addr * Z) :=
  match args with
  | [AAddress spender; ABigInt amount] => Ok (spender, amount)
  | [AAddress _; _] => Err "invalid amount"
  | [_; _] => Err "invalid spender address"
  | _ => Err "invalid number of arguments; expected 2"
  end.
Definition ParseAllowanceArgs (args : list abi_value) : outcome (addr * addr) :=
  match args with
  | [AAddress owner; AAddress spender] => Ok (owner, spender)
  | [AAddress _; _] => Err "invalid spender address"
  | [_; _] => Err "invalid owner address"
  | _ => Err "invalid number of arguments; expected 2"
  end.
Definition ParseBalanceOfArgs (args : list abi_value) : outcome addr :=
  match args with
  | [AAddress account] => Ok account
  | [_] => Err "invalid account address"
  | _ => Err "invalid number of arguments; expected 1"
  end.

(** ** ibc/utils.go and the names of vouchers *)

(** [unicode.ToUpper] outside ASCII. *)
Class UpperTables := { ToUpper_wide : Z -> Z }.
Definition ToUpper_rune {U : UpperTables} (r : Z) : Z :=
  if r <? 128 then (if in_range 97 r 122 then r - 32 else r) else ToUpper_wide r.
Definition ToUpper {U : UpperTables} (s : string) : string :=
  of_list (flat_map (fun r => encode_rune (ToUpper_rune r.1)) (runes s)).

Definition DeriveDecimalsFromDenom (baseDenom : string) : outcome Z :=
  match baseDenom with
  | EmptyString => Err ErrInvalidBaseDenom
  | String "u" _ => Ok 6
  | String "a" _ => Ok 18
  | _ => Err ErrInvalidBaseDenom
  end.

(** The part of a text after its last slash. *)
Fixpoint last_segment (acc s : string) : string :=
  match s with
  | EmptyString => acc
  | String "/" s' => last_segment EmptyString s'
  | String c s' => last_segment (acc +:+ String c EmptyString)%string s'
  end.

(** The exponent of the display unit, searched from the last one. *)
Definition display_exponent (md : Metadata) : option Z :=
  let display := if has_prefix "ibc/" (md_Base md) then last_segment EmptyString (md_Display md) else md_Display md in
  match List.find (fun u => String.eqb (du_Denom u) display) (rev (md_DenomUnits md)) with
  | Some u => Some (du_Exponent u)
  | None => None
  end.

Section precompile.
Context {Ma : SdkMath} {Ty : SdkTypes} {Eth : EthCommon} {Ibc : IbcLibs} {Up : UpperTables}.
Context {B E G : Type} {Bo : BankOps B} {Bk : Erc20Bank B}.

(** The world and the events of the call. *)
Record PState := MkPState { ps_world : World B E G; ps_events : list Erc20Event }.
Abbreviation MP := (M PState).
Definition on_world {A} (m : M (World B E G) A) : MP A := fun s =>
  let (r, w) := m (ps_world s) in (r, MkPState w (ps_events s)).
Definition emit (e : Erc20Event) : MP unit := mmodify (fun s => MkPState (ps_world s) (ps_events s ++ [e])).
Definition read_store {A} (f : Erc20Store -> A) : MP A := mreads (fun s => f (w_store (ps_world s))).
Definition read_bank {A} (f : B -> A) : MP A := mreads (fun s => f (w_bank (ps_world s))).

Context (GetDenom : World B E G -> bytes -> option IbcDenom).

Definition TransferMethod : string := "transfer".
Definition TransferFromMethod : string := "transferFrom".
Definition ApproveMethod : string := "approve".

Definition Address (tp : TokenPair) : addr := GetERC20Contract tp.

(** ** events.go *)

Definition EmitTransferEvent (tp : TokenPair) (from to : addr) (value : Z) : MP unit := emit (EvTransfer (Address tp) from to value).
Definition EmitApprovalEvent (tp : TokenPair) (owner spender : addr) (value : Z) : MP unit := emit (EvApproval (Address tp) owner spender value).

(** ** tx.go *)

Definition Send (from to : addr) (coins : list Coin) : MP unit := convert_err (on_world (on_bank (bk_Send from to coins))).

Definition spend_allowance (tp : TokenPair) (from spender : addr) (amount : Z) : MP Z :=
  let! prevAllowance <- read_store (GetAllowance (Address tp) from spender);
  let newAllowance := prevAllowance - amount in
  do! mguard (0 <=? newAllowance) ErrInsufficientAllowance;
  do! convert_err (on_world (on_store (if newAllowance =? 0 then DeleteAllowance (Address tp) from spender
                                       else SetAllowance (Address tp) from spender (Some newAllowance))));
  mret newAllowance.

Definition transfer (tp : TokenPair) (caller : addr) (method : string) (from to : addr) (amount : Z) : MP ret_value :=
  let! value <- mlift (NewIntFromBigInt amount);
  let coins := [MkCoin (tp_Denom tp) value] in
  do! mlift (Coins_Validate coins);
  let isTransferFrom := String.eqb method TransferFromMethod in
  let! newAllowance <- (if isTransferFrom then spend_allowance tp from caller amount else mret 0);
  do! convert_err (Send from to coins);
  do! EmitTransferEvent tp from to amount;
  do! (if isTransferFrom then EmitApprovalEvent tp from caller newAllowance else mret tt);
  mret (RetBool true).

Definition Transfer (tp : TokenPair) (caller : addr) (args : list abi_value) : MP ret_value :=
  let! p <- mlift (ParseTransferArgs args);
  transfer tp caller TransferMethod caller p.1 p.2.
Definition TransferFrom (tp : TokenPair) (caller : addr) (args : list abi_value) : MP ret_value :=
  let! p <- mlift (ParseTransferFromArgs args);
  transfer tp caller TransferFromMethod p.1.1 p.1.2 p.2.

(** ** approve.go *)

Definition precompile_setAllowance (tp : TokenPair) (owner spender : addr) (allowance : Z) : MP unit :=
  do! mguard (Z.abs allowance <? two256) ErrIntegerOverflow;
  on_world (on_store (SetAllowance (Address tp) owner spender (Some allowance))).
Definition Approve (tp : TokenPair) (caller : addr) (args : list abi_value) : MP ret_value :=
  let! p <- mlift (ParseApproveArgs args);
  let '(spender, amount) := (p.1, p.2) in
  let! allowance <- read_store (GetAllowance (Address tp) caller spender);
  do! (if (allowance =? 0) && (amount <? 0) then mfail ErrNegativeAmount
       else if (allowance =? 0) && (0 <? amount) then precompile_setAllowance tp caller spender amount
       else if (0 <? allowance) && (amount <=? 0) then on_world (on_store (DeleteAllowance (Address tp) caller spender))
       else if (0 <? allowance) && (0 <? amount) then precompile_setAllowance tp caller spender amount
       else mret tt);
  do! EmitApprovalEvent tp caller spender amount;
  mret (RetBool true).

(** ** query.go *)

(** ibc.GetDenom *)
Definition ibc_GetDenom (voucherDenom : string) : MP IbcDenom := fun s =>
  (odo oguard (has_prefix "ibc/" voucherDenom) ErrNoIBCVoucherDenom;
   olet h <- ParseHexHash (drop_bytes 4 voucherDenom);
   match GetDenom (ps_world s) h with None => Err ErrDenomNotFound | Some d => Ok d end, s).
Definition getBaseDenomFromIBCVoucher (voucherDenom : string) : MP string :=
  let! d <- ibc_GetDenom voucherDenom;
  do! mguard (negb (len (dn_Base d) <? 3)) "invalid base denomination; should be at least length 3";
  mret (dn_Base d).

(** The byte is converted to a rune before it is raised. *)
Definition voucher_name (base : string) : string :=
  match base with
  | String _ (String c rest) => (ToUpper (of_list (encode_rune (ord c))) +:+ rest)%string
  | _ => EmptyString
  end.
Definition TokenName (tp : TokenPair) : MP ret_value :=
  let! metadata <- read_bank (fun b => bk_GetDenomMetaData b (tp_Denom tp));
  match metadata with
  | Some md => mret (RetString (md_Name md))
  | None =>
    let! base <- convert_err (getBaseDenomFromIBCVoucher (tp_Denom tp));
    mret (RetString (voucher_name base))
  end.
Definition Symbol (tp : TokenPair) : MP ret_value :=
  let! metadata <- read_bank (fun b => bk_GetDenomMetaData b (tp_Denom tp));
  match metadata with
  | Some md => mret (RetString (md_Symbol md))
  | None =>
    let! base <- convert_err (getBaseDenomFromIBCVoucher (tp_Denom tp));
    mret (RetString (ToUpper (drop_bytes 1 base)))
  end.
Definition Decimals (tp : TokenPair) : MP ret_value :=
  let! metadata <- read_bank (fun b => bk_GetDenomMetaData b (tp_Denom tp));
  match metadata with
  | None =>
    let! d <- convert_err (ibc_GetDenom (tp_Denom tp));
    let! decimals <- convert_err (mlift (DeriveDecimalsFromDenom (dn_Base d)));
    mret (RetUint8 decimals)
  | Some md =>
    match display_exponent md with
    | None => mfail ErrExecutionReverted
    | Some decimals => if 255 <? decimals then mfail ErrExecutionReverted else mret (RetUint8 decimals)
    end
  end.
Definition TotalSupply (tp : TokenPair) : MP ret_value :=
  let! supply <- read_bank (fun b => GetSupply b (tp_Denom tp));
  mret (RetInt supply).
Definition precompile_BalanceOf (tp : TokenPair) (args : list abi_value) : MP ret_value :=
  let! account <- mlift (ParseBalanceOfArgs args);
  let! balance <- read_bank (fun b => bk_SpendableCoin b account (tp_Denom tp));
  mret (RetInt balance).
Definition precompile_Allowance (tp : TokenPair) (args : list abi_value) : MP ret_value :=
  let! p <- mlift (ParseAllowanceArgs args);
  let! allowance <- read_store (GetAllowance (Address tp) p.1 p.2);
  mret (RetInt allowance).

(** ** erc20.go *)

Definition HandleMethod (tp : TokenPair) (caller : addr) (method : string) (args : list abi_value) : MP ret_value :=
  if String.eqb method TransferMethod then Transfer tp caller args
  else if String.eqb method TransferFromMethod then TransferFrom tp caller args
  else if String.eqb method ApproveMethod then Approve tp caller args
  else if String.eqb method "name" then TokenName tp
  else if String.eqb method "symbol" then Symbol tp
  else if String.eqb method "decimals" then Decimals tp
  else if String.eqb method "totalSupply" then TotalSupply tp
  else if String.eqb method "balanceOf" then precompile_BalanceOf tp args
  else if String.eqb method "allowance" then precompile_Allowance tp args
  else mfail ErrUnknownMethod.
Definition erc20_IsTransaction (method : string) : bool :=
  String.eqb method TransferMethod || String.eqb method TransferFromMethod || String.eqb method ApproveMethod.

Definition erc20_gas (method : string) : Z :=
  if String.eqb method TransferMethod then 9000
  else if String.eqb method TransferFromMethod then 30500
  else if String.eqb method ApproveMethod then 8100
  else if String.eqb method "name" then 3421
  else if String.eqb method "symbol" then 3464
  else if String.eqb method "decimals" then 427
  else if String.eqb method "totalSupply" then 2480
  else if String.eqb method "balanceOf" then 2870
  else if String.eqb method "allowance" then 3225
  else 0.

Section api.
Context (api : ABI (list abi_value)) (m_Name : Method api -> string).

Definition erc20_RequiredGas (input : bytes) : Z :=
  if len input <? 4 then 0 else
  match MethodById api (String.substring 0 4 input) with Ok m => erc20_gas (m_Name m) | _ => 0 end.

Definition erc20_Execute (tp : TokenPair) (contract : Contract) (readOnly : bool) : MP ret_value :=
  do! mguard (negb (0 <? ct_Value contract)) ErrCannotReceiveFunds;
  let! call <- mlift (SetupABI api (ct_Input contract) (ct_Value contract) readOnly (fun m => erc20_IsTransaction (m_Name m)));
  HandleMethod tp (ct_Caller contract) (m_Name call.1) (default [] call.2).

(** ** werc20 *)

Definition DepositMethod : string := "deposit".
Definition WithdrawMethod : string := "withdraw".
Context (EVMCoinDenom EVMCoinExtendedDenom : string).

Definition Deposit (tp : TokenPair) (contract : Contract) : MP ret_value :=
  let! amount <- mlift (NewIntFromBigInt (ct_Value contract));
  do! on_world (on_bank (bk_SendCoins (Address tp) (ct_Caller contract) (NewCoins [MkCoin EVMCoinExtendedDenom amount])));
  do! emit (EvDeposit (Address tp) (ct_Caller contract) (ct_Value contract));
  mret RetNone.
Definition Withdraw (tp : TokenPair) (contract : Contract) (args : list abi_value) : MP ret_value :=
  match args with
  | [] => mlift (Panic "index out of range")
  | ABigInt amount :: _ =>
    let! amountInt <- mlift (NewIntFromBigInt amount);
    let! nativeBalance <- read_bank (fun b => bk_SpendableCoin b (ct_Caller contract) EVMCoinDenom);
    do! mguard (negb (nativeBalance <? amountInt)) "account balance is lower than withdraw balance";
    do! emit (EvWithdrawal (Address tp) (ct_Caller contract) amount);
    mret RetNone
  | _ => mfail "invalid argument type"
  end.

Definition pays_in (m : Method api) : bool :=
  match m_Type api m with Fallback | Receive => true | _ => false end.
Definition werc20_IsTransaction (m : Method api) : bool :=
  String.eqb (m_Name m) DepositMethod || String.eqb (m_Name m) WithdrawMethod || pays_in m || erc20_IsTransaction (m_Name m).
Definition werc20_RequiredGas (input : bytes) : Z :=
  if len input <? 4 then 23878 else
  match MethodById api (String.substring 0 4 input) with
  | Ok m => if String.eqb (m_Name m) DepositMethod then 23878
            else if String.eqb (m_Name m) WithdrawMethod then 9207
            else erc20_RequiredGas input
  | _ => 0
  end.
Definition werc20_Execute (tp : TokenPair) (contract : Contract) (readOnly : bool) : MP ret_value :=
  let! call <- mlift (SetupABI api (ct_Input contract) (ct_Value contract) readOnly werc20_IsTransaction);
  if pays_in call.1 || String.eqb (m_Name call.1) DepositMethod then Deposit tp contract
  else if String.eqb (m_Name call.1) WithdrawMethod then Withdraw tp contract (default [] call.2)
  else HandleMethod tp (ct_Caller contract) (m_Name call.1) (default [] call.2).

End api.
End precompile.
