(* ===== verification/Erc20Facts.v ===== *)
(** * x/erc20: the registry stays well-formed

    The invariant [registry_ok] of the module's store, the changes of the store
    ([store_step]: the keeper's operations), and that each keeps the invariant.
    The identifier of a pair is a SHA-256 hash; the texts that are hashed are
    assumed free of collisions in a set [U] of pairs that the theorems name. *)

From Stdlib Require Import ZArith Lia List String Ascii Bool.
From stdpp Require Import base gmap strings list sorting.
From S2P Require Import Prelude GoStrings Sha256 Sdk StateDB Precompile EvmTx StateTransition Erc20Types Erc20Keeper.
Local Open Scope Z_scope.
Local Open Scope go_scope.

Definition is_addr (a : addr) : Prop := String.length a = 20%nat.

Section registry.
Context {Ty : SdkTypes} {Eth : EthCommon} {El : EthAddrLaws}.

(** ** Identifiers *)

Lemma split_at_bar (x y s t : list ascii) c : ~ In c x -> ~ In c y -> x ++ c :: s = y ++ c :: t -> x = y /\ s = t.
Proof.
  revert y. induction x as [|a x IH]; intros [|b y] Hx Hy Heq; cbn in *; simplify_eq; [done|tauto|tauto|].
  destruct (IH y) as [-> ->]; tauto.
Qed.

Lemma hex_no_bar s : IsHexAddress s = true -> ~ In "|"%char (to_list s).
Proof.
  intros H%IsHexAddress_alnum Hin. rewrite forallb_forall in H. specialize (H _ Hin). done.
Qed.

Lemma id_text_inj p q : IsHexAddress (tp_Erc20Address p) = true -> IsHexAddress (tp_Erc20Address q) = true ->
  id_text p = id_text q -> tp_Erc20Address p = tp_Erc20Address q /\ tp_Denom p = tp_Denom q.
Proof.
  intros Hp%hex_no_bar Hq%hex_no_bar Heq. unfold id_text in Heq. apply (f_equal to_list) in Heq.
  rewrite !to_list_app in Heq. apply split_at_bar in Heq as [H1 H2]; [|done..].
  split; by apply to_list_inj.
Qed.

Lemma Address_Hex_inj a b : is_addr a -> is_addr b -> Address_Hex a = Address_Hex b -> a = b.
Proof. intros Ha Hb H. by rewrite <- (HexToAddress_Hex a), <- (HexToAddress_Hex b), H. Qed.

(** ** The invariant *)

Record allowance_ok (byERC20 : gmap addr bytes) (k : bytes) (al : Allowance) : Prop := {
  ao_addrs : exists erc20 owner spender, is_addr erc20 /\ is_addr owner /\ is_addr spender /\
    owner <> zero_address /\ spender <> zero_address /\
    k = AllowanceKey erc20 owner spender /\ al = NewAllowance erc20 owner spender (al_Value al) /\
    is_Some (byERC20 !! erc20);
  ao_value : 0 < al_Value al < two256;
}.

Record pair_ok (byERC20 : gmap addr bytes) (byDenom : gmap string bytes) (id : bytes) (p : TokenPair) : Prop := {
  po_id : id = GetID p;
  po_hex : IsHexAddress (tp_Erc20Address p) = true;
  po_denom : tp_Denom p <> EmptyString;
  po_byERC20 : byERC20 !! GetERC20Contract p = Some id;
  po_byDenom : byDenom !! tp_Denom p = Some id;
}.

Record registry_ok (s : Erc20Store) : Prop := {
  ro_pairs : forall id p, st_pairs s !! id = Some p -> pair_ok (st_byERC20 s) (st_byDenom s) id p;
  ro_byERC20 : forall a id, st_byERC20 s !! a = Some id -> exists p, st_pairs s !! id = Some p /\ GetERC20Contract p = a;
  ro_byDenom : forall d id, st_byDenom s !! d = Some id -> exists p, st_pairs s !! id = Some p /\ tp_Denom p = d;
  ro_allowances : forall k al, st_allowances s !! k = Some al -> allowance_ok (st_byERC20 s) k al;
  ro_native : forall x, x ∈ st_native s -> exists a, is_addr a /\ x = Address_Hex a;
  ro_dynamic : forall x, x ∈ st_dynamic s -> exists a, is_addr a /\ x = Address_Hex a;
}.

Lemma registry_ok_empty : registry_ok empty_store.
Proof. split; intros *; simpl; rewrite ?lookup_empty; set_solver. Qed.

Lemma pair_not_zero m n id p : pair_ok m n id p -> p <> zero_pair.
Proof. intros H ->. pose proof (po_hex _ _ _ _ H) as Hh. simpl in Hh. by rewrite IsHexAddress_nonempty in Hh. Qed.

Lemma GetTokenPair_ok s id : registry_ok s -> GetTokenPair id s = match id with Some i => st_pairs s !! i | None => None end.
Proof.
  intros Hok. destruct id as [i|]; [|done]. simpl. destruct (st_pairs s !! i) as [p|] eqn:Hp; [|done].
  rewrite bool_decide_eq_false_2; [done|]. eapply pair_not_zero, ro_pairs; eauto.
Qed.

Lemma contract_addr p : is_addr (GetERC20Contract p).
Proof. apply HexToAddress_length. Qed.

(** A registered pair is found by its contract and by its denomination, and
    either determines it. *)
Lemma lookup_by_contract s p id : registry_ok s -> st_pairs s !! id = Some p ->
  GetTokenPair (GetERC20Map (GetERC20Contract p) s) s = Some p.
Proof.
  intros Hok Hp. rewrite GetTokenPair_ok by done. unfold GetERC20Map.
  rewrite (po_byERC20 _ _ _ _ (ro_pairs _ Hok _ _ Hp)). done.
Qed.

Lemma lookup_by_denom s p id : registry_ok s -> st_pairs s !! id = Some p ->
  GetTokenPair (GetDenomMap (tp_Denom p) s) s = Some p.
Proof.
  intros Hok Hp. rewrite GetTokenPair_ok by done. unfold GetDenomMap.
  rewrite (po_byDenom _ _ _ _ (ro_pairs _ Hok _ _ Hp)). done.
Qed.

Lemma same_contract s i j p q : registry_ok s -> st_pairs s !! i = Some p -> st_pairs s !! j = Some q ->
  GetERC20Contract p = GetERC20Contract q -> i = j /\ p = q.
Proof.
  intros Hok Hp Hq Heq. pose proof (po_byERC20 _ _ _ _ (ro_pairs _ Hok _ _ Hp)).
  pose proof (po_byERC20 _ _ _ _ (ro_pairs _ Hok _ _ Hq)). rewrite Heq in *. naive_solver.
Qed.

Lemma same_denom s i j p q : registry_ok s -> st_pairs s !! i = Some p -> st_pairs s !! j = Some q ->
  tp_Denom p = tp_Denom q -> i = j /\ p = q.
Proof.
  intros Hok Hp Hq Heq. pose proof (po_byDenom _ _ _ _ (ro_pairs _ Hok _ _ Hp)).
  pose proof (po_byDenom _ _ _ _ (ro_pairs _ Hok _ _ Hq)). rewrite Heq in *. naive_solver.
Qed.

Lemma GetTokenPair_registered s token p : registry_ok s -> GetTokenPair (GetTokenPairID token s) s = Some p ->
  st_pairs s !! GetID p = Some p.
Proof.
  intros Hok H. rewrite GetTokenPair_ok in H by done. destruct (GetTokenPairID token s) as [i|]; [|done].
  by rewrite <- (po_id _ _ _ _ (ro_pairs _ Hok _ _ H)).
Qed.

(** ** Changes of the store *)

(** The new pair's identifier is taken by no other text. *)
Definition id_fresh (p : TokenPair) (s : Erc20Store) : Prop :=
  forall q, st_pairs s !! GetID p = Some q -> id_text q = id_text p.

(** Sets of pairs that do not depend on whether a pair is enabled. *)
Definition pair_set : Type := string -> string -> Owner -> Prop.
Definition pair_in (U : pair_set) (p : TokenPair) : Prop := U (tp_Erc20Address p) (tp_Denom p) (tp_ContractOwner p).

Inductive evm_step : Erc20Store -> Erc20Store -> Prop :=
  | es_allow erc20 owner spender value any s s' : is_addr erc20 -> is_addr owner -> is_addr spender ->
      setAllowance erc20 owner spender value any s = (Ok tt, s') -> evm_step s s'
  | es_delete p s : st_pairs s !! GetID p = Some p -> evm_step s (DeleteTokenPair p s).

Inductive store_step (U : pair_set) : Erc20Store -> Erc20Store -> Prop :=
  | ss_evm s s' : evm_step s s' -> store_step U s s'
  | ss_token p s s' : IsHexAddress (tp_Erc20Address p) = true -> pair_in U p ->
      SetToken p s = (Ok tt, s') -> store_step U s s'
  | ss_toggle token p s s' : toggleConversion token s = (Ok p, s') -> store_step U s s'
  | ss_params p s : store_step U s (SetParams p s)
  | ss_native a s : is_addr a -> store_step U s (SetNativePrecompile a s)
  | ss_dynamic a s : is_addr a -> store_step U s (SetDynamicPrecompile a s).

(** *** SetToken *)

Lemma SetToken_Ok p s s' : SetToken p s = (Ok tt, s') <->
  st_byDenom s !! tp_Denom p = None /\ st_byERC20 s !! GetERC20Contract p = None /\ tp_Denom p <> EmptyString /\
  s' = SetERC20Map (GetERC20Contract p) (GetID p) (set_byDenom <[tp_Denom p := GetID p]> (SetTokenPair p s)).
Proof.
  unfold SetToken, IsDenomRegistered, IsERC20Registered, SetDenomMap. split.
  - intros H. minv. destruct (String.eqb (tp_Denom p) EmptyString) eqn:Hd; minv.
    apply String.eqb_neq in Hd. zify_bool.
    repeat match goal with H : bool_decide _ = false |- _ => apply bool_decide_eq_false in H end.
    rewrite <- !eq_None_not_Some in *. done.
  - intros (Hd & He & Hne & ->). unfold mbind', mreads, mguard, mlift, mmodify, oguard; cbn.
    rewrite Hd, He. cbn. apply String.eqb_neq in Hne. rewrite Hne. done.
Qed.

Lemma SetToken_registry p s s' : registry_ok s -> IsHexAddress (tp_Erc20Address p) = true -> id_fresh p s ->
  SetToken p s = (Ok tt, s') -> registry_ok s'.
Proof.
  intros Hok Hhex Hfresh (Hd & He & Hne & ->)%SetToken_Ok.
  assert (Hnew : st_pairs s !! GetID p = None).
  { destruct (st_pairs s !! GetID p) as [q|] eqn:Hq; [|done]. pose proof (ro_pairs _ Hok _ _ Hq) as Hpo.
    apply Hfresh in Hq as Ht. apply id_text_inj in Ht as [_ Ht]; [|by eapply po_hex|done].
    pose proof (po_byDenom _ _ _ _ Hpo) as Hb. by rewrite Ht, Hd in Hb. }
  split; simpl.
  - intros id q [[<- <-]|[Hid Hq]]%lookup_insert_Some.
    + split; simpl; rewrite ?lookup_insert_eq; done.
    + destruct (ro_pairs _ Hok _ _ Hq) as [Ha Hb Hc Hf Hg]. split; simpl; try done; rewrite lookup_insert_ne; congruence.
  - intros a id [[<- <-]|[Ha H]]%lookup_insert_Some; [eexists; by rewrite lookup_insert_eq|].
    destruct (ro_byERC20 _ Hok _ _ H) as (q & Hq & <-). exists q. by rewrite lookup_insert_ne by congruence.
  - intros d id [[<- <-]|[Hdd H]]%lookup_insert_Some; [eexists; by rewrite lookup_insert_eq|].
    destruct (ro_byDenom _ Hok _ _ H) as (q & Hq & <-). exists q. by rewrite lookup_insert_ne by congruence.
  - intros k al H. destruct (ro_allowances _ Hok _ _ H) as [(x & y & z & H1 & H2 & H3 & H4 & H5 & H6 & H7 & H8) Hv].
    split; [|done]. exists x, y, z. repeat split; try done. apply lookup_insert_is_Some. destruct (decide (GetERC20Contract p = x)); auto.
  - apply ro_native; done.
  - apply ro_dynamic; done.
Qed.

(** *** toggleConversion *)

Definition toggled (p : TokenPair) : TokenPair := MkTokenPair (tp_Erc20Address p) (tp_Denom p) (negb (tp_Enabled p)) (tp_ContractOwner p).

Lemma toggleConversion_Ok token s q s' : registry_ok s -> toggleConversion token s = (Ok q, s') ->
  exists p, GetTokenPair (GetTokenPairID token s) s = Some p /\ st_pairs s !! GetID p = Some p /\ q = toggled p /\ s' = SetTokenPair (toggled p) s.
Proof.
  intros Hok. unfold toggleConversion. intros H. minv.
  destruct (GetTokenPair (GetTokenPairID token s) s) as [p|] eqn:Hp; minv.
  exists p. split; [done|]. split; [by eapply GetTokenPair_registered|done].
Qed.

Lemma SetTokenPair_registry p q s : registry_ok s -> st_pairs s !! GetID p = Some p ->
  tp_Erc20Address q = tp_Erc20Address p -> tp_Denom q = tp_Denom p -> registry_ok (SetTokenPair q s).
Proof.
  intros Hok Hp Ha Hd.
  assert (Hid : GetID q = GetID p) by (unfold GetID, id_text; by rewrite Ha, Hd).
  assert (Hc : GetERC20Contract q = GetERC20Contract p) by (unfold GetERC20Contract; by rewrite Ha).
  assert (Hget : forall id x, <[GetID q := q]> (st_pairs s) !! id = Some x -> exists y, st_pairs s !! id = Some y /\
    tp_Erc20Address x = tp_Erc20Address y /\ tp_Denom x = tp_Denom y).
  { intros id x [[<- <-]|[? ?]]%lookup_insert_Some; [exists p; by rewrite Hid|eauto]. }
  assert (Hset : forall id y, st_pairs s !! id = Some y -> exists x, <[GetID q := q]> (st_pairs s) !! id = Some x /\
    tp_Erc20Address x = tp_Erc20Address y /\ tp_Denom x = tp_Denom y).
  { intros id y Hy. destruct (decide (GetID q = id)) as [<-|Hn]; [|exists y; by rewrite lookup_insert_ne].
    exists q. rewrite lookup_insert_eq. rewrite Hid, Hp in Hy. by simplify_eq. }
  split; simpl.
  - intros id x (y & Hy & H1 & H2)%Hget. destruct (ro_pairs _ Hok _ _ Hy) as [E1 E2 E3 E4 E5].
    split; simpl; unfold GetID, id_text, GetERC20Contract in *; by rewrite ?H1, ?H2.
  - intros a id H. destruct (ro_byERC20 _ Hok _ _ H) as (y & Hy & <-). destruct (Hset _ _ Hy) as (x & Hx & H1 & _).
    exists x. split; [done|]. unfold GetERC20Contract. by rewrite H1.
  - intros d id H. destruct (ro_byDenom _ Hok _ _ H) as (y & Hy & <-). destruct (Hset _ _ Hy) as (x & Hx & _ & H2). eauto.
  - apply ro_allowances; done.
  - apply ro_native; done.
  - apply ro_dynamic; done.
Qed.

(** *** Allowances *)

Lemma AllowanceKey_inj a o s a' o' s' : is_addr a -> is_addr a' -> is_addr o -> is_addr o' ->
  AllowanceKey a o s = AllowanceKey a' o' s' -> a = a' /\ o = o' /\ s = s'.
Proof.
  unfold is_addr, AllowanceKey. intros Ha Ha' Ho Ho' H. apply (f_equal to_list) in H. rewrite !to_list_app in H.
  apply app_inj_1 in H as [H1 H]; [|rewrite !to_list_length; congruence].
  apply app_inj_1 in H as [H2 H3]; [|rewrite !to_list_length; congruence].
  auto using to_list_inj.
Qed.

Lemma setAllowance_Ok erc20 owner spender value any s s' : registry_ok s ->
  setAllowance erc20 owner spender value any s = (Ok tt, s') <->
  exists p v, GetTokenPair (GetERC20Map erc20 s) s = Some p /\ (any = true \/ tp_Enabled p = true) /\
    owner <> zero_address /\ spender <> zero_address /\ value = Some v /\ 0 <= v < two256 /\
    s' = set_allowances (fun m => if v =? 0 then delete (AllowanceKey erc20 owner spender) m
                                  else <[AllowanceKey erc20 owner spender := NewAllowance erc20 owner spender v]> m) s.
Proof.
  intros Hok. unfold setAllowance. destruct (GetTokenPair (GetERC20Map erc20 s) s) as [p|]; [|split; [done|by intros (? & ? & ? & _)]].
  split.
  - intros H. minv. destruct value as [v|]; minv. exists p, v. zify_bool.
    rewrite <- orb_true_iff. destruct (v =? 0); minv; repeat split; done.
  - intros (p' & v & Hp & Hen & Ho & Hs & -> & Hv & ->). simplify_eq.
    apply String.eqb_neq in Ho, Hs. unfold mguard, mlift, oguard, mbind'. rewrite Ho, Hs.
    destruct Hen as [->| ->]; rewrite ?orb_true_r; cbn;
      (destruct (0 <=? v) eqn:E1; [|lia]); (destruct (v <? two256) eqn:E2; [|lia]); by destruct (v =? 0).
Qed.

Lemma setAllowance_registry erc20 owner spender value any s s' : registry_ok s -> is_addr erc20 -> is_addr owner -> is_addr spender ->
  setAllowance erc20 owner spender value any s = (Ok tt, s') -> registry_ok s'.
Proof.
  intros Hok He Ho Hs H. apply setAllowance_Ok in H as (p & v & Hp & _ & Hno & Hns & -> & Hv & ->); [|done].
  destruct Hok as [H1 H2 H3 H4 H5 H6]. split; try done. simpl. intros k al Hk.
  destruct (v =? 0) eqn:Hz; [apply lookup_delete_Some in Hk as [_ Hk]; eauto|].
  apply lookup_insert_Some in Hk as [[<- <-]|[_ Hk]]; [|eauto]. split; [|simpl; lia].
  exists erc20, owner, spender. repeat split; try done.
  unfold GetERC20Map in Hp. destruct (st_byERC20 s !! erc20); [eauto|done].
Qed.

(** *** Deletion *)

Lemma delete_keys_lookup {A} (m : gmap string A) keys k :
  foldl (fun m k => delete k m) m keys !! k = if bool_decide (k ∈ keys) then None else m !! k.
Proof.
  revert m. induction keys as [|x keys IH]; intros m; cbn; [done|]. rewrite IH.
  destruct (decide (k = x)) as [->|Hne].
  - rewrite lookup_delete_eq, (bool_decide_eq_true_2 (x ∈ x :: keys)) by set_solver. by case_bool_decide.
  - rewrite lookup_delete_ne by done. repeat case_bool_decide; set_solver.
Qed.

Lemma deleteAllowances_lookup erc20 s k :
  st_allowances (deleteAllowances erc20 s) !! k = if has_prefix erc20 k then None else st_allowances s !! k.
Proof.
  unfold deleteAllowances. cbn. rewrite delete_keys_lookup.
  destruct (st_allowances s !! k) as [al|] eqn:Hk; [|case_bool_decide; by destruct (has_prefix _ _)].
  assert (Hin : k ∈ List.filter (has_prefix erc20) (map_to_list (st_allowances s)).*1 <-> has_prefix erc20 k = true).
  { rewrite list_elem_of_In, filter_In, <- list_elem_of_In, list_elem_of_fmap. split; [naive_solver|].
    intros H. split; [|done]. exists (k, al). by rewrite elem_of_map_to_list. }
  destruct (has_prefix erc20 k); [rewrite bool_decide_eq_true_2|rewrite bool_decide_eq_false_2]; naive_solver.
Qed.

Lemma has_prefix_key c a o s : is_addr c -> is_addr a -> has_prefix c (AllowanceKey a o s) = true <-> a = c.
Proof.
  intros Hc Ha. rewrite has_prefix_iff. unfold AllowanceKey. split.
  - intros (t & Ht). apply (f_equal to_list) in Ht. rewrite !to_list_app in Ht.
    apply app_inj_1 in Ht as [Ht _]; [by apply to_list_inj|]. rewrite !to_list_length. unfold is_addr in *. congruence.
  - intros ->. eauto.
Qed.

Lemma DeleteTokenPair_registry p s : registry_ok s -> st_pairs s !! GetID p = Some p -> registry_ok (DeleteTokenPair p s).
Proof.
  intros Hok Hp. pose proof (ro_pairs _ Hok _ _ Hp) as Hpo. unfold DeleteTokenPair.
  split; cbn.
  - intros id q [Hid Hq]%lookup_delete_Some. destruct (ro_pairs _ Hok _ _ Hq) as [E1 E2 E3 E4 E5].
    split; cbn; try done; rewrite lookup_delete_ne; try done; intros Heq; apply Hid.
    + by destruct (same_contract _ _ _ _ _ Hok Hp Hq Heq).
    + by destruct (same_denom _ _ _ _ _ Hok Hp Hq Heq).
  - intros a id [Ha H]%lookup_delete_Some. destruct (ro_byERC20 _ Hok _ _ H) as (q & Hq & <-).
    exists q. split; [|done]. rewrite lookup_delete_ne; [done|]. intros <-. rewrite Hp in Hq. by simplify_eq.
  - intros d id [Hd H]%lookup_delete_Some. destruct (ro_byDenom _ Hok _ _ H) as (q & Hq & <-).
    exists q. split; [|done]. rewrite lookup_delete_ne; [done|]. intros <-. rewrite Hp in Hq. by simplify_eq.
  - intros k al Hk. change (st_allowances (deleteAllowances (GetERC20Contract p) s) !! k = Some al) in Hk.
    rewrite deleteAllowances_lookup in Hk. destruct (has_prefix _ k) eqn:Hpre; [done|].
    destruct (ro_allowances _ Hok _ _ Hk) as [(x & y & z & H1 & H2 & H3 & H4 & H5 & -> & H7 & H8) Hv].
    split; [|done]. exists x, y, z. repeat split; try done. rewrite lookup_delete_ne; [done|]. intros <-.
    by rewrite (proj2 (has_prefix_key _ _ y z (contract_addr p) (contract_addr p)) eq_refl) in Hpre.
  - apply ro_native; done.
  - apply ro_dynamic; done.
Qed.

(** *** All of them *)

Definition collision_free (U : pair_set) : Prop := forall p q, pair_in U p -> pair_in U q -> GetID p = GetID q -> id_text p = id_text q.
Definition pairs_in (U : pair_set) (s : Erc20Store) : Prop := forall id p, st_pairs s !! id = Some p -> pair_in U p.

Lemma evm_step_ok U s s' : evm_step s s' -> registry_ok s -> pairs_in U s -> registry_ok s' /\ pairs_in U s'.
Proof.
  intros [erc20 owner spender value any s1 s2 He Ho Hs Hset|p s1 Hp] Hok HU.
  - split; [by apply (setAllowance_registry erc20 owner spender value any s1)|]. by apply setAllowance_Ok in Hset as (? & ? & ? & ? & ? & ? & ? & ? & ->).
  - split; [by apply DeleteTokenPair_registry|]. intros id q Hq. change (delete (GetID p) (st_pairs s1) !! id = Some q) in Hq.
    apply lookup_delete_Some in Hq as [_ Hq]. eauto.
Qed.

Lemma store_step_ok U s s' : collision_free U -> store_step U s s' -> registry_ok s -> pairs_in U s -> registry_ok s' /\ pairs_in U s'.
Proof.
  intros Hcf Hstep Hok HU. destruct Hstep as [s s' H|p s s' Hhex Hu H|token p s s' H|p s|a s Ha|a s Ha].
  - by eapply evm_step_ok.
  - split.
    + eapply SetToken_registry; [done..| |done]. intros q Hq. apply Hcf; [by eapply HU|done|].
      by rewrite <- (po_id _ _ _ _ (ro_pairs _ Hok _ _ Hq)).
    + apply SetToken_Ok in H as (_ & _ & _ & ->). intros id q. cbn. intros [[<- <-]|[_ Hq]]%lookup_insert_Some; eauto.
  - apply toggleConversion_Ok in H as (q & _ & Hq & _ & ->); [|done]. split; [by eapply SetTokenPair_registry|].
    intros id x. cbn. intros [[<- <-]|[_ Hx]]%lookup_insert_Some; [|eauto]. by apply (HU _ _ Hq).
  - split; [|done]. by destruct Hok.
  - split; [|done]. destruct Hok. split; try done. cbn. set_solver.
  - split; [|done]. destruct Hok. split; try done. cbn. set_solver.
Qed.

Lemma store_steps_ok U s s' : collision_free U -> rtc (store_step U) s s' -> registry_ok s -> pairs_in U s -> registry_ok s' /\ pairs_in U s'.
Proof. intros Hcf Hs. induction Hs as [|s1 s2 s3 H12 _ IH]; [done|]. intros Hok HU. destruct (store_step_ok U s1 s2); auto. Qed.

Lemma evm_steps U s s' : rtc evm_step s s' -> rtc (store_step U) s s'.
Proof. intros H. induction H; [done|]. eapply rtc_l; [by apply ss_evm|done]. Qed.

End registry.
