(* ===== verification/Erc20Registry.v ===== *)
(** * x/erc20: every run of the module keeps the registry

    The interface of the EVM as a class of laws, the steps of the chain that
    reach the module (messages, IBC callbacks, everything else), and that the
    registry stays well-formed along them. *)

From Stdlib Require Import ZArith Lia List String Ascii Bool.
From stdpp Require Import base gmap strings list relations.
From S2P Require Import Prelude GoStrings Sha256 Sdk StateDB Precompile EvmTx StateTransition Erc20Types Erc20Keeper Erc20Convert Erc20Facts.
Local Open Scope Z_scope.
Local Open Scope go_scope.

(** What the module relies on of the EVM: a call that is not committed leaves no
    trace, contracts reach the store through the ERC-20 precompile and the
    conversion of the ICS-20 precompile only, accounts and code are elsewhere. *)
Class Erc20EvmLaws `{!SdkTypes, !EthCommon} (B E G : Type) {Ev : Erc20Evm B E G} := {
  ApplyMessage_view msg internal w r w' : ev_ApplyMessage msg false false internal w = (r, w') -> w' = w;
  ApplyMessage_store msg commit fromPrecompile internal w r w' :
    ev_ApplyMessage msg commit fromPrecompile internal w = (r, w') -> rtc evm_step (w_store w) (w_store w');
  SetAccount_store a acc w r w' : ev_SetAccount a acc w = (r, w') -> w_store w' = w_store w;
  SetCode_store h code w r w' : ev_SetCode h code w = (r, w') -> w_store w' = w_store w;
}.

Section run.
Context {Ma : SdkMath} {Ty : SdkTypes} {Eth : EthCommon} {El : EthAddrLaws} {Cr : EthCrypto} {Ibc : IbcLibs} {Ab : Erc20Abi}.
Context {B E G : Type} {Bo : BankOps B} {Bk : Erc20Bank B} {Go : GasOps G} {Ev : Erc20Evm B E G} {Evl : Erc20EvmLaws B E G}.
Abbreviation W := (World B E G).
Abbreviation MW := (M (World B E G)).

Section universe.
Context (U : pair_set) (Hcf : collision_free U).

Definition good (w : W) : Prop := registry_ok (w_store w) /\ pairs_in U (w_store w).
Definition keeps (w w' : W) : Prop := good w -> good w'.
#[local] Instance keeps_preorder : PreOrder keeps.
Proof. split; [by intros w H|]. intros w1 w2 w3 H12 H23 H. by apply H23, H12. Qed.

Lemma keeps_store w w' : w_store w' = w_store w -> keeps w w'.
Proof. unfold keeps, good. by intros ->. Qed.
Lemma keeps_step w w' : rtc (store_step U) (w_store w) (w_store w') -> keeps w w'.
Proof. intros H [Hok HU]. by eapply store_steps_ok. Qed.

Lemma mrel_same {A} (m : MW A) : (forall w r w', m w = (r, w') -> w_store w' = w_store w) -> mrel keeps m.
Proof. intros H w. apply keeps_store. destruct (m w) eqn:Hm. by eapply H. Qed.
Lemma mrel_bank {A} (m : M B A) : mrel keeps (on_bank m).
Proof. apply mrel_same. unfold on_bank. intros w r w'. destruct (m (w_bank w)); intros; by simplify_eq. Qed.
Lemma mrel_gas {A} (m : M G A) : mrel keeps (on_gas m).
Proof. apply mrel_same. unfold on_gas. intros w r w'. destruct (m (w_gas w)); intros; by simplify_eq. Qed.
Lemma mrel_try {A} (f : W -> outcome A) : mrel keeps (mtry f).
Proof. by apply mrel_const; [apply _|]. Qed.
Lemma mrel_recover {A} (m : MW A) : mrel keeps m -> mrel keeps (recover_err m).
Proof. intros Hm w. specialize (Hm w). unfold recover_err. by destruct (m w) as [[]]. Qed.
Lemma mrel_or_ack {A} (m : MW A) k : mrel keeps m -> (forall a, mrel keeps (k a)) -> mrel keeps (or_ack m k).
Proof.
  intros Hm Hk w. specialize (Hm w). unfold or_ack. destruct (m w) as [[a|e|p] w1]; [|done|done].
  etransitivity; [exact Hm|apply Hk].
Qed.
Lemma mrel_apply msg c f i : mrel keeps (ev_ApplyMessage msg c f i).
Proof.
  intros w. destruct (ev_ApplyMessage msg c f i w) as [r w'] eqn:H. apply keeps_step, evm_steps.
  by eapply ApplyMessage_store.
Qed.
Lemma mrel_account a acc : mrel keeps (ev_SetAccount a acc).
Proof. apply mrel_same, SetAccount_store. Qed.
Lemma mrel_code h code : mrel keeps (ev_SetCode h code).
Proof. apply mrel_same, SetCode_store. Qed.
#[local] Hint Resolve mrel_bank mrel_gas mrel_try mrel_apply mrel_account mrel_code : mrel.

Lemma mrel_call from contract data c f cap : mrel keeps (CallEVMWithData from contract data c f cap).
Proof. unfold CallEVMWithData. mrel_auto. Qed.
#[local] Hint Resolve mrel_call : mrel.
Lemma mrel_callEVM from contract c f cap m args : mrel keeps (CallEVM from contract c f cap m args).
Proof. unfold CallEVM. mrel_auto. Qed.
#[local] Hint Resolve mrel_callEVM mrel_recover : mrel.
Lemma mrel_balance contract a : mrel keeps (BalanceOf contract a).
Proof. unfold BalanceOf. mrel_auto. Qed.
#[local] Hint Resolve mrel_balance : mrel.
Lemma mrel_query contract : mrel keeps (QueryERC20 contract).
Proof. unfold QueryERC20, queryERC20String. mrel_auto. Qed.
#[local] Hint Resolve mrel_query : mrel.
Lemma mrel_convert_coin p amount receiver sender f : mrel keeps (ConvertCoinNativeERC20 p amount receiver sender f).
Proof. unfold ConvertCoinNativeERC20. mrel_auto. Qed.
#[local] Hint Resolve mrel_convert_coin : mrel.
Lemma mrel_metadata contract : mrel keeps (CreateCoinMetadata contract).
Proof. unfold CreateCoinMetadata. mrel_auto. Qed.
#[local] Hint Resolve mrel_metadata : mrel.


(** *** Steps that depend on what was read *)

Lemma mrel_bind_Ok {A C} (m : MW A) (f : A -> MW C) :
  mrel keeps m -> (forall a (w w' : W), m w = (Ok a, w') -> mrel keeps (f a)) -> mrel keeps (mbind' m f).
Proof.
  intros Hm Hf w. specialize (Hm w). unfold mbind'. destruct (m w) as [[a|e|p] w1] eqn:Hw; [|done|done].
  etransitivity; [exact Hm|]. by eapply Hf.
Qed.

Lemma MintingEnabled_same receiver token (w : W) : (MintingEnabled receiver token w).2 = w.
Proof.
  unfold MintingEnabled, mbind', mreads, mguard, mlift, mret, mfail, oguard.
  repeat (case_match; cbn in *; simplify_eq; try done).
Qed.
Lemma MintingEnabled_Ok receiver token (w : W) p w' : MintingEnabled receiver token w = (Ok p, w') ->
  w' = w /\ st_enabled (w_store w) = true /\ GetTokenPair (GetTokenPairID token (w_store w)) (w_store w) = Some p /\
  tp_Enabled p = true /\ bk_BlockedAddr receiver = false /\ bk_IsSendEnabled (w_bank w) (tp_Denom p) = true.
Proof.
  unfold MintingEnabled. intros H. minv.
  destruct (GetTokenPair (GetTokenPairID token (w_store w)) (w_store w)) as [q|]; minv. zify_bool. done.
Qed.

Lemma mrel_mint {A} receiver token (f : TokenPair -> MW A) :
  (forall p w, good w -> st_pairs (w_store w) !! GetID p = Some p -> good (f p w).2) ->
  mrel keeps (mbind' (MintingEnabled receiver token) f).
Proof.
  intros Hf w Hg. unfold mbind'. pose proof (MintingEnabled_same receiver token w) as Hs.
  destruct (MintingEnabled receiver token w) as [[p|e|p] w1] eqn:Hm; cbn in Hs; subst w1; [|done|done].
  apply Hf; [done|]. apply MintingEnabled_Ok in Hm as (_ & _ & Hp & _).
  eapply GetTokenPair_registered; [apply Hg|done].
Qed.

Lemma good_delete p w : good w -> st_pairs (w_store w) !! GetID p = Some p -> good (on_store (mmodify (DeleteTokenPair p)) w).2.
Proof. intros Hg Hp. eapply (keeps_step w); [|done]. apply rtc_once, ss_evm, es_delete, Hp. Qed.

Lemma mrel_convert_erc20 contract amount receiver sender c f :
  mrel keeps (ConvertERC20IntoCoinsForNativeToken contract amount receiver sender c f).
Proof.
  apply mrel_mint. intros p w Hg Hp. unfold mbind' at 1, mguard, mlift, oguard.
  destruct (IsNativeERC20 p); [|done]. unfold mbind' at 1, mreads.
  destruct (suicided w _); [by apply good_delete|].
  match goal with |- good (?m w).2 => enough (H : mrel keeps m) by (by apply H) end. mrel_auto.
Qed.
Lemma mrel_ConvertCoin m : mrel keeps (ConvertCoin m).
Proof.
  unfold ConvertCoin. apply mrel_bind; [apply _|mrel_auto|intros sender].
  apply mrel_mint. intros p w Hg Hp. destruct (IsNativeERC20 p); [|done]. unfold mbind', mreads.
  destruct (suicided w _); [by apply good_delete|by apply mrel_convert_coin].
Qed.

Lemma mrel_SetToken p : IsHexAddress (tp_Erc20Address p) = true -> pair_in U p -> tp_Denom p <> EmptyString ->
  mrel keeps (on_store (SetToken p)).
Proof.
  intros Hhex Hu Hne w. unfold on_store. destruct (SetToken p (w_store w)) as [r s'] eqn:Hs. cbn.
  destruct r as [[]|e|e].
  - apply keeps_step, rtc_once. by eapply ss_token.
  - apply keeps_store. cbn. revert Hs. unfold SetToken, SetDenomMap, mbind', mreads, mguard, mlift, mmodify, oguard.
    repeat (case_match; cbn in *; simplify_eq; try done); intros; by simplify_eq.
  - exfalso. revert Hs. unfold SetToken, SetDenomMap, mbind', mreads, mguard, mlift, mmodify, oguard.
    apply String.eqb_neq in Hne. rewrite Hne. repeat (case_match; cbn in *; simplify_eq; try done).
Qed.

(** The pair that the registration of a contract stores. *)
Definition register_pair (a : string) : TokenPair :=
  let c := HexToAddress a in NewTokenPair c (CreateDenom (Address_Hex c)) OWNER_EXTERNAL.

Lemma CreateCoinMetadata_Ok contract (w : W) md w' : CreateCoinMetadata contract w = (Ok md, w') -> md_Name md = CreateDenom (Address_Hex contract).
Proof.
  unfold CreateCoinMetadata. intros H. minv. unfold coin_metadata. by destruct (0 <? _).
Qed.

Lemma mrel_registerERC20 a : pair_in U (register_pair a) -> mrel keeps (registerERC20 (HexToAddress a)).
Proof.
  intros Hu. unfold registerERC20. apply mrel_bind; [apply _|mrel_auto|intros registered].
  apply mrel_bind; [apply _|mrel_auto|intros _].
  apply mrel_bind_Ok; [mrel_auto|]. intros md w w' Hmd%CreateCoinMetadata_Ok.
  apply mrel_bind; [apply _| |mrel_auto]. rewrite Hmd. apply mrel_SetToken; [|exact Hu|done].
  apply IsHexAddress_Hex, HexToAddress_length.
Qed.
Lemma mrel_register_all l : Forall (fun a => pair_in U (register_pair a)) l -> mrel keeps (register_all l).
Proof.
  induction 1 as [|a l Ha Hl IH]; cbn; [mrel_auto|].
  apply mrel_bind; [apply _|mrel_auto|intros _]. apply mrel_bind; [apply _|by apply mrel_registerERC20|done].
Qed.

Lemma mrel_toggle token : mrel keeps (on_store (toggleConversion token)).
Proof.
  intros w. unfold on_store. destruct (toggleConversion token (w_store w)) as [r s'] eqn:Hs. cbn. destruct r as [p|e|e].
  - apply keeps_step, rtc_once. by eapply ss_toggle.
  - apply keeps_store. cbn. revert Hs. unfold toggleConversion, mbind', mreads, mguard, mlift, mmodify, oguard, mret, mfail.
    repeat (case_match; cbn in *; simplify_eq; try done); intros; by simplify_eq.
  - exfalso. revert Hs. unfold toggleConversion, mbind', mreads, mguard, mlift, mmodify, oguard, mret, mfail.
    repeat (case_match; cbn in *; simplify_eq; try done).
Qed.
Lemma mrel_store_modify f : (forall s, rtc (store_step U) s (f s)) -> mrel keeps (on_store (mmodify f)).
Proof. intros H w. by apply keeps_step, H. Qed.

Definition msg_in (m : Erc20Msg) : Prop :=
  match m with RegisterERC20Msg m => Forall (fun a => pair_in U (register_pair a)) (re_Erc20Addresses m) | _ => True end.

Lemma mrel_handle ctx auth m : msg_in m -> mrel keeps (handle ctx auth m).
Proof.
  intros Hm. destruct m as [m|m|m|m|m]; cbn in *; (apply mrel_bind; [apply _|mrel_auto|intros _]).
  - unfold ConvertERC20. apply mrel_bind; [apply _| |mrel_auto].
    apply mrel_bind; [apply _|mrel_auto|intros]. apply mrel_convert_erc20.
  - apply mrel_ConvertCoin.
  - unfold RegisterERC20. apply mrel_bind; [apply _|mrel_auto|intros s].
    apply mrel_bind; [apply _|mrel_auto|intros _]. apply mrel_bind; [apply _|mrel_auto|intros _]. by apply mrel_register_all.
  - unfold ToggleConversion. do 3 (apply mrel_bind; [apply _|mrel_auto|intros ?]).
    apply mrel_bind; [apply _|apply mrel_toggle|mrel_auto].
  - unfold UpdateParams. apply mrel_bind; [apply _|mrel_auto|intros ?]. apply mrel_store_modify. intros s. apply rtc_once, ss_params.
Qed.

(** *** IBC *)

Definition recv_in (packet : Packet) (packetData : outcome PacketData) : Prop :=
  forall data coin p, packetData = Ok data -> GetReceivedCoin packet (ExtractDenomFromPath (pd_Denom data)) (pd_Amount data) = Ok coin ->
    NewTokenPairSTRv2 coin.1 = Ok p -> pair_in U p.

Lemma NewTokenPairSTRv2_Ok denom p : NewTokenPairSTRv2 denom = Ok p ->
  tp_Denom p = denom /\ tp_Denom p <> EmptyString /\ has_prefix "ibc/" denom = true /\
  exists a, is_addr a /\ tp_Erc20Address p = Address_Hex a /\ tp_ContractOwner p = OWNER_MODULE /\ tp_Enabled p = true.
Proof.
  unfold NewTokenPairSTRv2, GetIBCDenomAddress. rewrite obind_Ok. intros (a & Ha & [= <-]). cbn.
  apply obind_Ok in Ha as (? & Hp%oguard_Ok & Ha). apply obind_Ok in Ha as (? & _ & Ha). apply obind_Ok in Ha as (bz & _ & [= <-]).
  repeat split; [by intros ->|done|]. exists (BytesToAddress bz). repeat split. apply BytesToAddress_length.
Qed.

Lemma mrel_extension denom : (forall p, NewTokenPairSTRv2 denom = Ok p -> pair_in U p) -> mrel keeps (RegisterERC20Extension denom).
Proof.
  intros Hu. unfold RegisterERC20Extension.
  assert (Hc : mrel keeps (CreateNewTokenPair denom)).
  { unfold CreateNewTokenPair. apply mrel_bind_Ok; [mrel_auto|]. intros p w w' Hp. minv.
    do 2 (apply mrel_bind; [apply _|mrel_auto|intros ?]). apply mrel_bind; [apply _| |mrel_auto].
    pose proof (Hu _ Hp). apply NewTokenPairSTRv2_Ok in Hp as (_ & Hne & _ & c & Ha & He & _).
    apply mrel_SetToken; [|done..]. rewrite He. by apply IsHexAddress_Hex. }
  apply mrel_bind; [apply _|done|intros p]. apply mrel_bind; [apply _| |mrel_auto].
  unfold EnableDynamicPrecompile. apply mrel_bind; [apply _| |intros _].
  - unfold RegisterCodeHash, RegisterERC20CodeHash. mrel_auto.
  - apply mrel_store_modify. intros s. apply rtc_once, ss_dynamic, contract_addr.
Qed.

Lemma mrel_or_ack_Ok {A} (m : MW A) k : mrel keeps m -> (forall a w w', m w = (Ok a, w') -> mrel keeps (k a)) -> mrel keeps (or_ack m k).
Proof.
  intros Hm Hk w. specialize (Hm w). unfold or_ack. destruct (m w) as [[a|e|p] w1] eqn:Hw; [|done|done].
  etransitivity; [exact Hm|]. by eapply Hk.
Qed.

Lemma mrel_OnRecvPacket packet packetData ack : recv_in packet packetData -> mrel keeps (OnRecvPacket packet packetData ack).
Proof.
  intros Hin w. unfold OnRecvPacket. destruct (st_enabled (w_store w)); [|done]. cbn [negb].
  match goal with |- keeps w (?m w).2 => enough (H : mrel keeps m) by apply H end.
  apply mrel_or_ack_Ok; [mrel_auto|]. intros data w1 w2 Hd. minv.
  apply mrel_bind_Ok; [mrel_auto|]. intros coin w3 w4 Hc. minv.
  destruct (has_prefix "factory/" _); [mrel_auto|]. apply mrel_or_ack; [mrel_auto|intros bond].
  destruct (String.eqb _ bond); [mrel_auto|]. apply mrel_or_ack; [mrel_auto|intros recipient].
  apply mrel_bind; [apply _|mrel_auto|intros acc]. destruct (IsModuleAccount acc); [mrel_auto|].
  apply mrel_bind; [apply _|mrel_auto|intros [p|]].
  - destruct (IsNativeERC20 p); [|mrel_auto]. destruct (tp_Enabled p); cbn [negb]; [|mrel_auto].
    apply mrel_or_ack; [apply mrel_const; [apply _|apply MintingEnabled_same]|intros q].
    apply mrel_or_ack; mrel_auto.
  - destruct (has_prefix "ibc/" _); [|mrel_auto]. apply mrel_or_ack; [|mrel_auto].
    apply mrel_extension. intros p Hp. by eapply Hin.
Qed.

Lemma mrel_FromPacket data : mrel keeps (ConvertCoinToERC20FromPacket data).
Proof. unfold ConvertCoinToERC20FromPacket. mrel_auto. Qed.
#[local] Hint Resolve mrel_FromPacket : mrel.


(** *** Runs *)

(** IBC writes what a received packet did only for a successful
    acknowledgement. *)
Definition recv_commit (m : MW Acknowledgement) (w : W) : W :=
  match m w with
  | (Ok ack, w') => if Ack_Success ack then w' else w
  | _ => w
  end.

(** [env] is what the rest of the chain, and the application below the
    middleware, may do between and inside the module's own steps. *)
Section env.
Context (env : W -> W -> Prop).
Inductive chain_step : W -> W -> Prop :=
  | cs_msg ctx auth m w : msg_in m -> chain_step w (deliver ctx auth m w).2
  | cs_recv app packet data w : mrel env app -> recv_in packet data -> chain_step w (recv_commit (mw_OnRecvPacket app packet data) w)
  | cs_ack app ack canonical data w : mrel env app -> chain_step w (atomically (mw_OnAcknowledgementPacket app ack canonical data) w).2
  | cs_timeout app data w : mrel env app -> chain_step w (atomically (mw_OnTimeoutPacket app data) w).2
  | cs_other w w' : env w w' -> chain_step w w'.
End env.

(** The store is reached as the EVM reaches it. *)
Definition store_env (w w' : W) : Prop := rtc evm_step (w_store w) (w_store w').

Lemma chain_step_keeps env w w' : (forall w w', env w w' -> store_env w w') -> chain_step env w w' -> keeps w w'.
Proof.
  intros Henv Hstep.
  assert (Hq : forall A (app : MW A), mrel env app -> mrel keeps app) by (intros A app H w1; by apply keeps_step, evm_steps, Henv, H).
  destruct Hstep as [ctx auth m w1 Hm|app packet data w1 Happ%Hq Hin|app ack canonical data w1 Happ%Hq|app data w1 Happ%Hq|w1 w2 H].
  - exact (mrel_atomically keeps _ (mrel_handle ctx auth m Hm) w1).
  - assert (H : mrel keeps (mw_OnRecvPacket app packet data)).
    { unfold mw_OnRecvPacket. apply mrel_bind; [apply _|done|intros ack].
      destruct (Ack_Success ack); cbn [negb]; [by apply mrel_OnRecvPacket|mrel_auto]. }
    specialize (H w1). unfold recv_commit. destruct (mw_OnRecvPacket app packet data w1) as [[ack|e|e] w2]; [|done|done].
    by destruct (Ack_Success ack).
  - refine (mrel_atomically keeps _ _ w1). unfold mw_OnAcknowledgementPacket, OnAcknowledgementPacket. mrel_auto.
  - refine (mrel_atomically keeps _ _ w1). unfold mw_OnTimeoutPacket, OnTimeoutPacket. mrel_auto.
  - by apply keeps_step, evm_steps, Henv.
Qed.

Lemma chain_keeps w w' : rtc (chain_step store_env) w w' -> keeps w w'.
Proof. induction 1 as [|w1 w2 w3 H _ IH]; [done|]. etransitivity; [by eapply chain_step_keeps|done]. Qed.

End universe.

End run.
