(* ===== verification/Erc20Backing.v ===== *)
(** * x/erc20: converted coins are backed by escrowed tokens

    For a contract [c] that is an ERC-20 token and its coin [d], the class
    [HonestToken] states what a call of the contract does. The file shows what
    both conversions do on every path, and that the tokens the module holds
    minus the supply of the coin never decrease along a run. *)

From Stdlib Require Import ZArith Lia List String Ascii Bool.
From stdpp Require Import base gmap strings list relations.
From S2P Require Import Prelude GoStrings Sha256 Sdk StateDB Precompile EvmTx StateTransition Erc20Types Erc20Keeper Erc20Convert Erc20Facts Erc20Registry.
Local Open Scope Z_scope.
Local Open Scope go_scope.

(** Metadata is apart from the money, sending does not change a supply, and what
    a module with the permission has just received it can burn; burning touches
    its own coin only. *)
Class Erc20BankLaws (B : Type) {Bo : BankOps B} {Bk : Erc20Bank B} := {
  SetDenomMetaData_supply md b d : GetSupply (bk_SetDenomMetaData md b) d = GetSupply b d;
  SendToModule_supply a m cs b r b' d : SendCoinsFromAccountToModule a m cs b = (r, b') -> GetSupply b' d = GetSupply b d;
  SendToModule_burnable a m d amt b b' : 0 < amt -> SendCoinsFromAccountToModule a m [MkCoin d amt] b = (Ok tt, b') ->
    exists b'', BurnCoins m [MkCoin d amt] b' = (Ok tt, b'');
  BurnCoins_other m d amt b r b' d' : d' <> d -> BurnCoins m [MkCoin d amt] b = (r, b') -> GetSupply b' d' = GetSupply b d';
}.

(** A gas meter panics when it runs out. *)
Class GasLaws (G : Type) {Go : GasOps G} := {
  gas_Consume_panics z g : (exists g', gas_Consume z g = (Ok tt, g')) \/ (exists e g', gas_Consume z g = (Panic e, g'));
  gas_Refund_panics z g : (exists g', gas_Refund z g = (Ok tt, g')) \/ (exists e g', gas_Refund z g = (Panic e, g'));
}.

(** The balances of an ERC-20 contract after [amt] moved. *)
Definition ledger_moved (l : addr -> Z) (from to : addr) (amt : Z) (a : addr) : Z :=
  l a - (if bool_decide (a = from) then amt else 0) + (if bool_decide (a = to) then amt else 0).

(** The contract [c] is an ERC-20 token whose balances are [ledger]: [balanceOf]
    reads them, [transfer] moves them when the module accepts its result and
    changes nothing else; no call of another contract takes tokens of the module
    or makes coins [d] that are not backed, and writing an account or code does
    not move tokens. *)
Class HonestToken `{!SdkTypes, !EthCommon, !Erc20Abi} (B E G : Type) {Bo : BankOps B} {Ev : Erc20Evm B E G} (c : addr) (d : string) := {
  ledger : E -> addr -> Z;
  module_sequence (w : World B E G) : exists n, ak_GetSequence w (ModuleAddress (B := B)) = Ok n;
  balanceOf_reads data a n w : abi_Pack "balanceOf" [AAddress a] = Ok data -> exists res,
    ev_ApplyMessage (call_message (ModuleAddress (B := B)) c n DefaultGasCap data) false false true w = (Ok res, w) /\
    Failed res = false /\ abi_Unpack "balanceOf" (rs_Ret res) = Ok [ABigInt (ledger (w_evm w) a)];
  transfer_moves data from to amt n fromPrecompile w r w' : abi_Pack "transfer" [AAddress to; ABigInt amt] = Ok data ->
    ev_ApplyMessage (call_message from c n DefaultGasCap data) true fromPrecompile true w = (r, w') ->
    w_store w' = w_store w /\ w_bank w' = w_bank w /\
    forall a, ledger (w_evm w') a =
      if match r with Ok res => negb (Failed res) && is_ok (check_transfer res c) | _ => false end
      then ledger_moved (ledger (w_evm w)) from to amt a else ledger (w_evm w) a;
  other_calls msg commit fromPrecompile internal w r w' : cm_To msg <> Some c ->
    ev_ApplyMessage msg commit fromPrecompile internal w = (r, w') ->
    ledger (w_evm w) (ModuleAddress (B := B)) - GetSupply (w_bank w) d <= ledger (w_evm w') (ModuleAddress (B := B)) - GetSupply (w_bank w') d;
  SetAccount_keeps a acc w r w' : ev_SetAccount a acc w = (r, w') -> (forall x, ledger (w_evm w') x = ledger (w_evm w) x) /\ GetSupply (w_bank w') d = GetSupply (w_bank w) d;
  SetCode_keeps h code w r w' : ev_SetCode h code w = (r, w') -> (forall x, ledger (w_evm w') x = ledger (w_evm w) x) /\ GetSupply (w_bank w') d = GetSupply (w_bank w) d;
}.

Section backing.
Context {Ma : SdkMath} {Ty : SdkTypes} {Eth : EthCommon} {El : EthAddrLaws} {Cr : EthCrypto} {Ibc : IbcLibs} {Ab : Erc20Abi}.
Context {B E G : Type} {Bo : BankOps B} {Bl : BankLaws B} {Bk : Erc20Bank B} {Bkl : Erc20BankLaws B}.
Context {Go : GasOps G} {Gl : GasLaws G} {Ev : Erc20Evm B E G} {Evl : Erc20EvmLaws B E G}.
Abbreviation W := (World B E G).
Abbreviation MW := (M (World B E G)).
Abbreviation module := (ModuleAddress (B := B)).

(** ** Calls *)

Definition same_but_gas (w w' : W) : Prop := w_store w' = w_store w /\ w_bank w' = w_bank w /\ w_evm w' = w_evm w.
#[local] Instance same_but_gas_preorder : PreOrder same_but_gas.
Proof. split; [done|]. intros w1 w2 w3 (H1 & H2 & H3) (H4 & H5 & H6). repeat split; congruence. Qed.

Lemma on_gas_same {A} (m : M G A) (w : W) r w' : on_gas m w = (r, w') -> same_but_gas w w'.
Proof. unfold on_gas. destruct (m (w_gas w)). by intros [= <- <-]. Qed.

Lemma on_gas_ok z (w : W) r w' : on_gas (gas_Consume z) w = (r, w') -> r = Ok tt \/ exists e, r = Panic e.
Proof.
  unfold on_gas. destruct (gas_Consume_panics z (w_gas w)) as [(g & ->)|(e & g & ->)]; intros [= <- <-]; eauto.
Qed.

(** What a call returns and where it leaves the world, given what the message
    did. *)
Lemma CallEVMWithData_cases from contract data commit f (w : W) r w' : CallEVMWithData from contract data commit f None w = (r, w') ->
  (exists e, r = Err e /\ w' = w /\ ak_GetSequence w from = Err e) \/
  (exists e, r = Panic e) \/
  (exists n r1 w1, ak_GetSequence w from = Ok n /\
     ev_ApplyMessage (call_message from contract n DefaultGasCap data) commit f true w = (r1, w1) /\ same_but_gas w1 w' /\
     ((exists e, r = Err e /\ match r1 with Ok res => Failed res = true | _ => True end) \/
      (exists res, r = Ok res /\ r1 = Ok res /\ Failed res = false))).
Proof.
  unfold CallEVMWithData. unfold mbind' at 1, mtry. destruct (ak_GetSequence w from) as [n|e|e]; [|intros [= <- <-]; eauto..].
  unfold mbind' at 1. cbn [call_gas_limit].
  destruct (ev_ApplyMessage _ commit f true w) as [r1 w1] eqn:Happ.
  destruct r1 as [res|e|e]; [|intros [= <- <-]; right; right; exists n; repeat eexists; eauto; by left; eauto|intros [= <- <-]; eauto].
  destruct (Failed res) eqn:Hf; intros H.
  - unfold mbind', mfail in H.
    destruct (on_gas (fun g => gas_Refund (gas_Consumed g) g) w1) as [r2 w2] eqn:H2. pose proof (on_gas_same _ _ _ _ H2) as S2.
    assert (r2 = Ok tt \/ exists e, r2 = Panic e) as [->|[e ->]].
    { revert H2. unfold on_gas. destruct (gas_Refund_panics (gas_Consumed (w_gas w1)) (w_gas w1)) as [(g & ->)|(e & g & ->)]; intros [= <- <-]; eauto. }
    2: { simplify_eq. eauto. }
    destruct (on_gas (fun g => gas_Consume (gas_Limit g) g) w2) as [r3 w3] eqn:H3. pose proof (on_gas_same _ _ _ _ H3) as S3.
    assert (r3 = Ok tt \/ exists e, r3 = Panic e) as [->|[e ->]].
    { revert H3. unfold on_gas. destruct (gas_Consume_panics (gas_Limit (w_gas w2)) (w_gas w2)) as [(g & ->)|(e & g & ->)]; intros [= <- <-]; eauto. }
    2: { simplify_eq. eauto. }
    simplify_eq. right; right. exists n, (Ok res), w1. split; [done|]. split; [done|]. split; [by etransitivity|]. left. eauto.
  - unfold mbind', mret in H. destruct (on_gas (gas_Consume (rs_GasUsed res)) w1) as [r2 w2] eqn:H2.
    pose proof (on_gas_same _ _ _ _ H2) as S2. apply on_gas_ok in H2 as [->|[e ->]]; [|simplify_eq; eauto].
    simplify_eq. right; right. exists n, (Ok res), w1. eauto 10.
Qed.

Section token.
Context (c : addr) (d : string) {Ht : HonestToken B E G c d}.
Abbreviation bal := (ledger (c := c) (d := d)).

Definition slack (w : W) : Z := bal (w_evm w) module - GetSupply (w_bank w) d.

Lemma slack_gas w w' : same_but_gas w w' -> slack w' = slack w.
Proof. intros (H1 & H2 & H3). unfold slack. by rewrite H2, H3. Qed.

(** [BalanceOf] of the token: its ledger, unless the packing of the call fails
    or the gas runs out. *)
Lemma BalanceOf_cases a w :
  (exists e w', BalanceOf c a w = (Panic e, w')) \/
  (is_ok (abi_Pack "balanceOf" [AAddress a]) = false /\ BalanceOf c a w = (Ok None, w)) \/
  (is_ok (abi_Pack "balanceOf" [AAddress a]) = true /\ exists w', BalanceOf c a w = (Ok (Some (bal (w_evm w) a)), w') /\ same_but_gas w w').
Proof.
  unfold BalanceOf, CallEVM, recover_err, mbind', mlift.
  destruct (abi_Pack "balanceOf" [AAddress a]) as [data|e|e] eqn:Hp; cbn [owrap]; [|eauto..].
  destruct (CallEVMWithData module c data false false None w) as [r w1] eqn:Hc.
  apply CallEVMWithData_cases in Hc as [(e & -> & -> & Hs)|[(e & ->)|(n & r1 & w2 & _ & Happ & Hsame & Hr)]].
  - destruct (module_sequence (c := c) (d := d) w) as [n Hn]. congruence.
  - eauto.
  - destruct (balanceOf_reads (d := d) data a n w Hp) as (res & Hres & Hf & Hu). rewrite Hres in Happ. simplify_eq.
    destruct Hr as [(e & -> & Hr)|(res' & -> & Hr & _)]; [congruence|]. simplify_eq. rewrite Hu. unfold mret. right; right. eauto.
Qed.

(** A transfer of the token. *)
Lemma transfer_cases data from to amt f w r w' : abi_Pack "transfer" [AAddress to; ABigInt amt] = Ok data ->
  CallEVMWithData from c data true f None w = (r, w') ->
  (exists e, r = Panic e) \/
  (w_store w' = w_store w /\ w_bank w' = w_bank w /\
   ((exists e, r = Err e) /\ (forall a, bal (w_evm w') a = bal (w_evm w) a) \/
    (exists res, r = Ok res /\ forall a, bal (w_evm w') a =
       if is_ok (check_transfer res c) then ledger_moved (bal (w_evm w)) from to amt a else bal (w_evm w) a))).
Proof.
  intros Hp H. apply CallEVMWithData_cases in H as [(e & -> & -> & Hs)|[(e & ->)|(n & r1 & w1 & _ & Happ & (S1 & S2 & S3) & Hr)]].
  - right. eauto 10.
  - eauto.
  - destruct (transfer_moves (d := d) data from to amt n f w r1 w1 Hp Happ) as (T1 & T2 & T3). right.
    rewrite S1, S2, S3. split; [done|]. split; [done|]. destruct Hr as [(e & -> & Hr)|(res & -> & -> & Hf)].
    + left. split; [eauto|]. intros a. rewrite T3. destruct r1 as [res| |]; [|done..]. by rewrite Hr.
    + right. exists res. split; [done|]. intros a. rewrite T3, Hf. done.
Qed.

(** ** From coins to tokens *)

(** What a successful conversion of [amt] coins of the sender does. *)
Definition coin_converted (amt : Z) (receiver sender : addr) (w w' : W) : Prop :=
  0 < amt /\ receiver <> module /\ (forall a, bal (w_evm w') a = ledger_moved (bal (w_evm w)) module receiver amt a) /\
  GetSupply (w_bank w') d = GetSupply (w_bank w) d - amt /\
  (forall a d', GetBalance (w_bank w') a d' = GetBalance (w_bank w) a d' - (if bool_decide (a = sender /\ d' = d) then amt else 0)).

(** The second half: the tokens are sent, the coins burned. *)
Lemma unescrow_cases amt receiver sender f L (w w1 : W) r w' :
  0 < amt -> L = bal (w_evm w) receiver -> is_ok (abi_Pack "balanceOf" [AAddress receiver]) = true ->
  w_store w1 = w_store w -> w_evm w1 = w_evm w -> SendCoinsFromAccountToModule sender ModuleName [MkCoin d amt] (w_bank w) = (Ok tt, w_bank w1) ->
  (let! res <- CallEVM module c true f None "transfer" [AAddress receiver; ABigInt amt];
   do! mlift (check_transfer res c);
   let! balanceTokenAfter <- BalanceOf c receiver;
   match balanceTokenAfter with
   | None => mfail ErrEVMCall
   | Some balanceTokenAfter =>
     do! mguard (balanceTokenAfter =? L + amt) ErrBalanceInvariance;
     on_bank (BurnCoins ModuleName [MkCoin d amt])
   end) w1 = (r, w') ->
  (exists e, r = Panic e) \/
  (w_store w' = w_store w /\ slack w' = slack w /\ (r = Ok tt -> coin_converted amt receiver sender w w')).
Proof.
  intros Hamt -> Hpk S1 E1 Hsend H.
  pose proof (SendToModule_ok _ _ _ _ _ _ Hsend) as [Hsup Hbal].
  assert (Hs1 : slack w1 = slack w) by (unfold slack; rewrite E1, Hsup; done).
  unfold CallEVM, mbind' at 1, mlift in H. unfold mbind' at 1 in H.
  destruct (abi_Pack "transfer" [AAddress receiver; ABigInt amt]) as [data|e|e] eqn:Hp; cbn [owrap] in H; [|simplify_eq; right; split; [congruence|by split]|simplify_eq; eauto].
  destruct (CallEVMWithData module c data true f None w1) as [r2 w2] eqn:Hcall.
  apply (transfer_cases _ _ _ _ _ _ _ _ Hp) in Hcall as [(e & ->)|(S2 & B2 & [((e & ->) & Hl)|(res & -> & Hl)])].
  - simplify_eq. eauto.
  - simplify_eq. right. split; [congruence|]. split; [|done]. unfold slack in *. by rewrite Hl, B2.
  - unfold mbind' at 1 in H. destruct (check_transfer res c) as [[]|e|e] eqn:Hchk; cbn [is_ok] in Hl.
    2: { simplify_eq. right. split; [congruence|]. split; [|done]. unfold slack in *. by rewrite Hl, B2. }
    2: { simplify_eq. eauto. }
    unfold mbind' at 1 in H. destruct (BalanceOf_cases receiver w2) as [(e & w3 & Hb)|[(Hb & _)|(_ & w3 & Hb & S3 & B3 & E3)]]; [|congruence|];
      rewrite Hb in H; [simplify_eq; eauto|].
    rewrite Hl, E1 in H. unfold mbind', mguard, mlift, oguard in H.
    destruct (decide (receiver = module)) as [->|Hne].
    + assert (Hsame : forall a, ledger_moved (bal (w_evm w)) module module amt a = bal (w_evm w) a)
        by (intros a; unfold ledger_moved; case_bool_decide; lia).
      rewrite Hsame in H. destruct (_ =? _) eqn:Heq in H; [apply Z.eqb_eq in Heq; lia|]. simplify_eq. right.
      split; [congruence|]. split; [|done]. unfold slack in *. rewrite E3, B3, Hl, E1, Hsame, B2, Hsup. done.
    + assert (Hrec : ledger_moved (bal (w_evm w)) module receiver amt receiver = bal (w_evm w) receiver + amt)
        by (unfold ledger_moved; rewrite bool_decide_eq_false_2, bool_decide_eq_true_2 by done; lia).
      rewrite Hrec, Z.eqb_refl in H. unfold on_bank in H. rewrite B3, B2 in H.
      destruct (SendToModule_burnable _ _ _ _ _ _ Hamt Hsend) as [b Hburn]. rewrite Hburn in H. simplify_eq. right.
      apply BurnCoins_ok in Hburn as [Bsup Bbal]. cbn. split; [congruence|].
      assert (Hmod : ledger_moved (bal (w_evm w)) module receiver amt module = bal (w_evm w) module - amt)
        by (unfold ledger_moved; rewrite bool_decide_eq_true_2, bool_decide_eq_false_2 by congruence; lia).
      split; [|intros _].
      * unfold slack. cbn. rewrite E3, Hl, E1, Hmod, Bsup, Hsup, bool_decide_eq_true_2 by done. lia.
      * unfold coin_converted. cbn. split; [done|]. split; [done|].
        split; [intros a; by rewrite E3, Hl, E1|]. split; [rewrite Bsup, Hsup, bool_decide_eq_true_2 by done; lia|].
        intros a d'. rewrite Bbal, Hbal. unfold moved. repeat case_bool_decide; lia.
Qed.

Lemma convert_coin_cases p amount receiver sender f w r w' : GetERC20Contract p = c -> tp_Denom p = d ->
  ConvertCoinNativeERC20 p amount receiver sender f w = (r, w') ->
  (exists e, r = Panic e) \/
  (w_store w' = w_store w /\ slack w' = slack w /\
   (r = Ok tt -> exists amt, amount = Some amt /\ coin_converted amt receiver sender w w')).
Proof.
  intros Hc Hd. unfold ConvertCoinNativeERC20. destruct amount as [amt|]; [|intros [= <- <-]; eauto].
  unfold mbind' at 1, mguard at 1, mlift, oguard. destruct (0 <? amt) eqn:Hamt; [|intros [= <- <-]; by right].
  apply Z.ltb_lt in Hamt. rewrite Hc, Hd. unfold mbind' at 1. intros H.
  destruct (BalanceOf_cases receiver w) as [(e & w1 & Hb)|[(_ & Hb)|(Hpk & w1 & Hb & S1 & B1 & E1)]]; rewrite Hb in H;
    [simplify_eq; eauto|unfold mfail in H; simplify_eq; by right|].
  unfold mbind' at 1 in H. destruct (on_bank (SendCoinsFromAccountToModule sender ModuleName [MkCoin d amt]) w1) as [r2 w2] eqn:Hs.
  unfold on_bank in Hs. rewrite B1 in Hs.
  destruct (SendCoinsFromAccountToModule sender ModuleName [MkCoin d amt] (w_bank w)) as [r3 b] eqn:Hsend. simplify_eq.
  destruct r2 as [[]|e|e]; simplify_eq; [|right|eauto].
  - match type of H with ?m ?w2 = _ => pose proof (unescrow_cases amt receiver sender f _ w w2 r w' Hamt eq_refl Hpk S1 E1 Hsend H) as Hu end.
    destruct Hu as [Hu|(H1 & H2 & H3)]; [by left|]. right. split; [done|]. split; [done|]. eauto.
  - split; [done|]. split; [|done]. unfold slack. cbn. by rewrite E1, (SendToModule_supply _ _ _ _ _ _ d Hsend).
Qed.

(** ** From tokens to coins *)

Definition token_converted (amt : Z) (receiver sender : addr) (w w' : W) : Prop :=
  (forall a, bal (w_evm w') a = ledger_moved (bal (w_evm w)) sender module amt a) /\
  GetSupply (w_bank w') d = GetSupply (w_bank w) d + amt /\
  (forall a d', GetBalance (w_bank w') a d' = GetBalance (w_bank w) a d' + (if bool_decide (a = receiver /\ d' = d) then amt else 0)).

Lemma minted amt receiver b b1 b2 : MintCoins ModuleName [MkCoin d amt] b = (Ok tt, b1) ->
  SendCoinsFromModuleToAccount ModuleName receiver [MkCoin d amt] b1 = (Ok tt, b2) ->
  GetSupply b2 d = GetSupply b d + amt /\
  (forall a d', GetBalance b2 a d' = GetBalance b a d' + (if bool_decide (a = receiver /\ d' = d) then amt else 0)).
Proof.
  intros [M1 M2]%MintCoins_ok [S1 S2]%SendToAccount_ok. split; [rewrite S1, M1, bool_decide_eq_true_2 by done; lia|].
  intros a d'. rewrite S2. unfold moved. rewrite !M2. repeat case_bool_decide; lia.
Qed.

Lemma escrow_cases p amt receiver sender f w w' : GetERC20Contract p = c -> tp_Denom p = d ->
  (let! balanceCoin <- mreads (fun w => GetBalance (w_bank w) receiver (tp_Denom p));
   let! balanceToken <- BalanceOf c module;
   match balanceToken with
   | None => mfail ErrEVMCall
   | Some balanceToken =>
     let! transferData <- mlift (abi_Pack "transfer" [AAddress module; ABigInt amt]);
     let! res <- CallEVMWithData sender c transferData true f None;
     do! mlift (check_transfer res c);
     let! balanceTokenAfter <- BalanceOf c module;
     match balanceTokenAfter with
     | None => mfail ErrEVMCall
     | Some balanceTokenAfter =>
       do! mguard (balanceTokenAfter =? balanceToken + amt) ErrBalanceInvariance;
       do! on_bank (MintCoins ModuleName [MkCoin (tp_Denom p) amt]);
       do! on_bank (SendCoinsFromModuleToAccount ModuleName receiver [MkCoin (tp_Denom p) amt]);
       let! balanceCoinAfter <- mreads (fun w => GetBalance (w_bank w) receiver (tp_Denom p));
       let! expCoin <- mlift (Int_Add balanceCoin amt);
       do! mguard (balanceCoinAfter =? expCoin) ErrBalanceInvariance;
       mret (Some tt)
     end
   end) w = (Ok (Some tt), w') ->
  w_store w' = w_store w /\ slack w' = slack w /\ token_converted amt receiver sender w w'.
Proof.
  intros _ -> H. rewrite mbind_reads in H. apply mbind_Ok in H as ([L|] & w1 & Hb & H); [|by minv].
  destruct (BalanceOf_cases module w) as [(e & w2 & Hb2)|[(_ & Hb2)|(Hpk & w2 & Hb2 & S1 & B1 & E1)]]; rewrite Hb in Hb2; simplify_eq.
  apply mbind_Ok in H as (data & w3 & Hp & H). apply mlift_Ok in Hp as [Hp ->].
  apply mbind_Ok in H as (res & w4 & Hcall & H). apply mbind_Ok in H as ([] & w5 & Hchk & H). apply mlift_Ok in Hchk as [Hchk ->].
  apply (transfer_cases _ _ _ _ _ _ _ _ Hp) in Hcall as [(e & ?)|(S2 & B2 & [((e & ?) & _)|(res' & ? & Hl)])]; [done..|]. simplify_eq.
  rewrite Hchk in Hl. cbn [is_ok] in Hl.
  apply mbind_Ok in H as ([L'|] & w6 & Hb3 & H); [|by minv].
  destruct (BalanceOf_cases module w4) as [(e & w7 & Hb4)|[(? & _)|(_ & w7 & Hb4 & S3 & B3 & E3)]]; [congruence..|].
  rewrite Hb3 in Hb4; simplify_eq.
  apply mbind_Ok in H as ([] & w8 & Hg & H). apply mguard_Ok in Hg as [Hg ->]. apply Z.eqb_eq in Hg.
  apply mbind_Ok in H as ([] & w9 & Hm & H). apply mbind_Ok in H as ([] & w10 & Hs & H). minv.
  unfold on_bank in Hm, Hs. destruct (MintCoins ModuleName [MkCoin d amt] (w_bank w7)) as [rm b1] eqn:Hmint. simplify_eq. cbn in Hs.
  destruct (SendCoinsFromModuleToAccount ModuleName receiver [MkCoin d amt] b1) as [rs b2] eqn:Hsend. simplify_eq. cbn in *.
  destruct (minted _ _ _ _ _ Hmint Hsend) as [M1 M2]. rewrite B3, B2, B1 in M1, M2.
  split; [congruence|]. unfold slack, token_converted. cbn. rewrite E3, M1.
  split; [lia|]. split; [|done]. intros a. by rewrite Hl, E1.
Qed.

(** ** Everything else *)

(** Unless it panics, the computation does not lower the slack. *)
Definition steady {A} (m : MW A) : Prop := forall w r w', m w = (r, w') -> (exists e, r = Panic e) \/ slack w <= slack w'.

Lemma steady_const {A} (m : MW A) : (forall w, (m w).2 = w) -> steady m.
Proof. intros H w r w' Hm. right. specialize (H w). rewrite Hm in H. cbn in H. by subst. Qed.
Lemma steady_bind {A C} (m : MW A) (f : A -> MW C) : steady m -> (forall a, steady (f a)) -> steady (mbind' m f).
Proof.
  intros Hm Hf w r w'. unfold mbind'. destruct (m w) as [r1 w1] eqn:H1.
  destruct (Hm _ _ _ H1) as [(e & ->)|Hs]; [intros [= <- <-]; eauto|].
  destruct r1 as [a|e|e]; [|intros [= <- <-]; eauto..]. intros H2.
  destruct (Hf _ _ _ _ H2) as [?|?]; [eauto|right; lia].
Qed.
Lemma steady_recover {A} (m : MW A) : steady m -> steady (recover_err m).
Proof.
  intros Hm w r w'. unfold recover_err. destruct (m w) as [r1 w1] eqn:H1.
  destruct (Hm _ _ _ H1) as [(e & ->)|Hs]; [intros [= <- <-]; eauto|]. destruct r1; intros [= <- <-]; eauto.
Qed.
Lemma steady_store {A} (m : M Erc20Store A) : steady (on_store m).
Proof. intros w r w'. unfold on_store. destruct (m (w_store w)). intros [= <- <-]. by right. Qed.
Lemma steady_bank {A} (m : M B A) : (forall b r b', m b = (r, b') -> GetSupply b' d = GetSupply b d) -> steady (on_bank m).
Proof.
  intros Hm w r w'. unfold on_bank. destruct (m (w_bank w)) as [r1 b] eqn:H1. intros [= <- <-]. right.
  unfold slack. cbn. by rewrite (Hm _ _ _ H1).
Qed.
Lemma steady_burn d1 amt : d1 <> d -> steady (on_bank (BurnCoins ModuleName [MkCoin d1 amt])).
Proof. intros Hne. apply steady_bank. intros b r b' H. by eapply BurnCoins_other. Qed.
Lemma steady_send a cs : steady (on_bank (SendCoinsFromAccountToModule a ModuleName cs)).
Proof. apply steady_bank. intros b r b' H. by eapply SendToModule_supply. Qed.

Lemma steady_call from contract data commit f : contract <> c \/ commit = false /\ f = false ->
  steady (CallEVMWithData from contract data commit f None).
Proof.
  intros Hcond w r w' H.
  apply CallEVMWithData_cases in H as [(e & -> & -> & _)|[(e & ->)|(n & r1 & w1 & _ & Happ & Hsame & _)]]; [by right|eauto|].
  right. rewrite (slack_gas _ _ Hsame). destruct Hcond as [Hne|[-> ->]].
  - eapply (other_calls (c := c) (d := d)); [|exact Happ]. cbn. congruence.
  - apply ApplyMessage_view in Happ. by subst.
Qed.
Lemma steady_callEVM from contract commit f m args : contract <> c \/ commit = false /\ f = false ->
  steady (CallEVM from contract commit f None m args).
Proof. intros H. apply steady_bind; [by apply steady_const|]. intros data. by apply steady_call. Qed.
Lemma steady_BalanceOf contract a : steady (BalanceOf contract a).
Proof.
  apply steady_bind; [apply steady_recover, steady_callEVM; auto|]. intros [res|]; [|by apply steady_const].
  destruct (abi_Unpack "balanceOf" (rs_Ret res)) as [[|[]]| |]; by apply steady_const.
Qed.
Create HintDb steady discriminated.
#[local] Hint Resolve steady_store steady_burn steady_send steady_BalanceOf : steady.

(** A conversion of another pair. *)
Lemma steady_convert_coin p amount receiver sender f : (tp_Denom p = d <-> GetERC20Contract p = c) ->
  steady (ConvertCoinNativeERC20 p amount receiver sender f).
Proof.
  intros Hown. destruct (decide (GetERC20Contract p = c)) as [Hc|Hc].
  - intros w r w' H. apply convert_coin_cases in H as [?|(_ & H & _)]; [by left|right; lia|done|by apply Hown].
  - assert (Hd : tp_Denom p <> d) by tauto. unfold ConvertCoinNativeERC20. destruct amount as [amt|]; [|by apply steady_const].
    apply steady_bind; [by apply steady_const|intros _]. apply steady_bind; [auto with steady|intros [L|]]; [|by apply steady_const].
    apply steady_bind; [auto with steady|intros _]. apply steady_bind; [apply steady_callEVM; auto|intros res].
    apply steady_bind; [by apply steady_const|intros _]. apply steady_bind; [auto with steady|intros [L'|]]; [|by apply steady_const].
    apply steady_bind; [by apply steady_const|intros _]. auto with steady.
Qed.

(** What a successful computation does to the slack. *)
Definition gains {A} (m : MW A) : Prop := forall w a w', m w = (Ok a, w') -> slack w <= slack w'.
Lemma steady_gains {A} (m : MW A) : steady m -> gains m.
Proof. intros Hm w a w' H. by destruct (Hm _ _ _ H) as [(e & ?)|?]. Qed.
Lemma gains_bind {A C} (m : MW A) (f : A -> MW C) : gains m -> (forall a, gains (f a)) -> gains (mbind' m f).
Proof.
  intros Hm Hf w a w' H. apply mbind_Ok in H as (x & w1 & H1 & H2). specialize (Hm _ _ _ H1). specialize (Hf _ _ _ _ H2). lia.
Qed.

Lemma gains_mint d1 amt : d1 <> d -> gains (on_bank (MintCoins ModuleName [MkCoin d1 amt])).
Proof.
  intros Hne w [] w'. unfold on_bank. destruct (MintCoins ModuleName [MkCoin d1 amt] (w_bank w)) as [r b] eqn:Hm. intros [= -> <-].
  apply MintCoins_ok in Hm as [Hs _]. unfold slack. cbn. rewrite Hs, bool_decide_eq_false_2 by congruence. lia.
Qed.
Lemma gains_payout d1 a amt : gains (on_bank (SendCoinsFromModuleToAccount ModuleName a [MkCoin d1 amt])).
Proof.
  intros w [] w'. unfold on_bank. destruct (SendCoinsFromModuleToAccount ModuleName a [MkCoin d1 amt] (w_bank w)) as [r b] eqn:Hm. intros [= -> <-].
  apply SendToAccount_ok in Hm as [Hs _]. unfold slack. cbn. by rewrite Hs.
Qed.

Lemma gains_convert_erc20 contract amt receiver sender f w r w' :
  (forall p, GetTokenPair (GetTokenPairID (Address_Hex contract) (w_store w)) (w_store w) = Some p -> IsNativeERC20 p = true ->
     (tp_Denom p = d <-> GetERC20Contract p = c)) ->
  ConvertERC20IntoCoinsForNativeToken contract amt receiver sender true f w = (Ok r, w') -> slack w <= slack w'.
Proof.
  intros Hown H. unfold ConvertERC20IntoCoinsForNativeToken in H.
  apply mbind_Ok in H as (p & w1 & Hm & H). apply MintingEnabled_Ok in Hm as (-> & _ & Hp & _).
  apply mbind_Ok in H as ([] & w1 & Hg & H). apply mguard_Ok in Hg as [Hn ->]. specialize (Hown p Hp Hn).
  rewrite mbind_reads in H. destruct (suicided w (GetERC20Contract p)).
  - apply mbind_Ok in H as ([] & w1 & Hs & H). minv. unfold on_store, mmodify in Hs. by simplify_eq.
  - destruct (decide (GetERC20Contract p = c)) as [Hc|Hc].
    + rewrite Hc in H. destruct r as [[]|].
      * apply escrow_cases in H as (_ & H & _); [lia|done|by apply Hown].
      * exfalso. minv. by repeat (case_match; minv).
    + assert (Hd : tp_Denom p <> d) by tauto. revert H. match goal with |- ?m w = _ -> _ => enough (Hgain : gains m) by (intros H; by eapply Hgain) end.
      apply gains_bind; [by apply steady_gains, steady_const|intros bc]. apply gains_bind; [by apply steady_gains; auto with steady|].
      intros [L|]; [|by apply steady_gains, steady_const]. apply gains_bind; [by apply steady_gains, steady_const|intros data].
      apply gains_bind; [apply steady_gains, steady_call; auto|intros res]. apply gains_bind; [by apply steady_gains, steady_const|intros _].
      apply gains_bind; [by apply steady_gains; auto with steady|]. intros [L'|]; [|by apply steady_gains, steady_const].
      apply gains_bind; [by apply steady_gains, steady_const|intros _]. apply gains_bind; [by apply gains_mint|intros _].
      apply gains_bind; [apply gains_payout|intros _]. do 3 (apply gains_bind; [by apply steady_gains, steady_const|intros ?]).
      by apply steady_gains, steady_const.
Qed.

(** ** Runs *)

Lemma steady_account a acc : steady (ev_SetAccount a acc).
Proof. intros w r w' [H1 H2]%(SetAccount_keeps (c := c) (d := d)). right. unfold slack. rewrite H1, H2. lia. Qed.
Lemma steady_code h code : steady (ev_SetCode h code).
Proof. intros w r w' [H1 H2]%(SetCode_keeps (c := c) (d := d)). right. unfold slack. rewrite H1, H2. lia. Qed.
Lemma steady_metadata md : steady (on_bank (mmodify (bk_SetDenomMetaData md))).
Proof. apply steady_bank. intros b r b' [= <- <-]. apply SetDenomMetaData_supply. Qed.
#[local] Hint Resolve steady_account steady_code steady_metadata : steady.

Lemma steady_mret {A} (a : A) : steady (mret a).
Proof. by apply steady_const. Qed.
Lemma steady_mfail {A} e : steady (@mfail W A e).
Proof. by apply steady_const. Qed.
Lemma steady_mlift {A} (o : outcome A) : steady (mlift o).
Proof. by apply steady_const. Qed.
Lemma steady_mguard b e : steady (mguard b e).
Proof. by apply steady_const. Qed.
Lemma steady_mreads {A} (f : W -> A) : steady (mreads f).
Proof. by apply steady_const. Qed.
Lemma steady_view from contract m args : steady (CallEVM from contract false false None m args).
Proof. apply steady_callEVM. auto. Qed.
#[local] Hint Resolve steady_mret steady_mfail steady_mlift steady_mguard steady_mreads steady_view : steady.

Ltac steady_auto :=
  repeat first
    [ progress intros
    | solve [auto with steady]
    | apply steady_bind
    | match goal with |- context [match ?x with _ => _ end] => destruct x end ].

Lemma steady_register l : steady (register_all l).
Proof.
  induction l as [|a l IH]; cbn; [steady_auto|]. apply steady_bind; [steady_auto|intros _]. apply steady_bind; [|done].
  unfold registerERC20, CreateCoinMetadata, QueryERC20, queryERC20String. steady_auto.
Qed.
Lemma steady_extension denom : steady (RegisterERC20Extension denom).
Proof.
  unfold RegisterERC20Extension, CreateNewTokenPair, EnableDynamicPrecompile, RegisterCodeHash, RegisterERC20CodeHash. steady_auto.
Qed.
#[local] Hint Resolve steady_register steady_extension : steady.

Section universe.
Context (U : pair_set) (Hcf : collision_free U) (Hd : d = CreateDenom (Address_Hex c)) (Hc : is_addr c).

(** A pair of the module's messages belongs to [d] exactly when it belongs to
    [c]; a pair of an IBC coin is never converted. *)
Definition owned : pair_set := fun a d' o => U a d' o /\ (o = OWNER_EXTERNAL -> (d' = d <-> HexToAddress a = c)).

Lemma owned_collision_free : collision_free owned.
Proof. intros p q [Hp _] [Hq _]. by apply Hcf. Qed.

Lemma owned_own (w : W) token p : good owned w -> GetTokenPair (GetTokenPairID token (w_store w)) (w_store w) = Some p ->
  IsNativeERC20 p = true -> (tp_Denom p = d <-> GetERC20Contract p = c).
Proof.
  intros [Hok Hin] Hp%GetTokenPair_registered Hn; [|done]. apply bool_decide_eq_true in Hn. destruct (Hin _ _ Hp) as [_ H]. auto.
Qed.

Lemma register_owned a : pair_in U (register_pair a) -> pair_in owned (register_pair a).
Proof.
  intros H. split; [done|]. intros _. cbn. rewrite HexToAddress_Hex by apply HexToAddress_length. rewrite Hd. unfold CreateDenom. split.
  - intros Heq%string_app_inj_l. apply Address_Hex_inj in Heq; [done|apply HexToAddress_length|done].
  - by intros ->.
Qed.
Lemma msg_owned m : msg_in U m -> msg_in owned m.
Proof. destruct m; try done. cbn. intros H. eapply Forall_impl; [done|]. intros a. apply register_owned. Qed.
Lemma recv_owned packet data : recv_in U packet data -> recv_in owned packet data.
Proof.
  intros H dt coin p H1 H2 H3. split; [by eapply H|]. intros Ho. apply NewTokenPairSTRv2_Ok in H3 as (_ & _ & _ & a & _ & _ & Hown & _).
  congruence.
Qed.
Lemma chain_owned env w w' : chain_step U env w w' -> chain_step owned env w w'.
Proof. intros []; [apply cs_msg|apply cs_recv|apply cs_ack|apply cs_timeout|apply cs_other]; auto using msg_owned, recv_owned. Qed.

Lemma handle_gains ctx auth m w u w' : good owned w -> handle ctx auth m w = (Ok u, w') -> slack w <= slack w'.
Proof.
  intros Hg. destruct m as [m|m|m|m|m]; intros H; cbn [handle] in H; apply mbind_Ok in H as (? & w1 & Hv & H); apply mlift_Ok in Hv as [_ ->].
  - apply mbind_Ok in H as (r & w1 & H & Hr). apply mret_Ok in Hr as [_ ->]. unfold ConvertERC20 in H.
    apply mbind_Ok in H as (receiver & w2 & Hb & H). apply mlift_Ok in Hb as [_ ->].
    eapply gains_convert_erc20; [|exact H]. intros p. by apply owned_own.
  - unfold ConvertCoin in H. apply mbind_Ok in H as (sender & w2 & Hb & H). apply mlift_Ok in Hb as [_ ->].
    apply mbind_Ok in H as (p & w2 & Hm & H). apply MintingEnabled_Ok in Hm as (-> & _ & Hp & _).
    destruct (IsNativeERC20 p) eqn:Hn; [|by minv]. rewrite mbind_reads in H. destruct (suicided w _).
    + eapply steady_gains; [apply steady_store|exact H].
    + eapply steady_gains; [|exact H]. apply steady_convert_coin. by eapply owned_own.
  - eapply steady_gains; [|exact H]. unfold RegisterERC20. steady_auto.
  - eapply steady_gains; [|exact H]. unfold ToggleConversion. steady_auto.
  - eapply steady_gains; [|exact H]. unfold UpdateParams. steady_auto.
Qed.

Lemma refund_gains data w u w' : good owned w -> ConvertCoinToERC20FromPacket data w = (Ok u, w') -> slack w <= slack w'.
Proof.
  intros Hg H. unfold ConvertCoinToERC20FromPacket in H. apply mbind_Ok in H as (sender & w1 & Hb & H). apply mlift_Ok in Hb as [_ ->].
  rewrite mbind_reads in H. destruct (GetTokenPair _ _) as [p|] eqn:Hp; [|by minv]. destruct (IsNativeCoin p); [by minv|].
  destruct (IsNativeERC20 p) eqn:Hn; [|by minv]. pose proof (owned_own _ _ _ Hg Hp Hn) as Hown. revert H.
  match goal with |- ?m w = _ -> _ => enough (Hs : steady m) by (intros H; by eapply steady_gains) end.
  assert (forall a r f, steady (recover_err (ConvertCoinNativeERC20 p a r sender f))) by (intros; by apply steady_recover, steady_convert_coin).
  steady_auto.
Qed.

Lemma or_ack_success {A} (m : MW A) k w ack w' : or_ack m k w = (Ok ack, w') -> Ack_Success ack = true ->
  exists a w1, m w = (Ok a, w1) /\ k a w1 = (Ok ack, w').
Proof. unfold or_ack. destruct (m w) as [[a|e|e] w1]; intros H Hs; simplify_eq; eauto. Qed.

Lemma recv_gains packet data ack0 w ack w' : good owned w -> OnRecvPacket packet data ack0 w = (Ok ack, w') -> Ack_Success ack = true -> slack w <= slack w'.
Proof.
  intros Hg H Hs. unfold OnRecvPacket in H. destruct (st_enabled (w_store w)); cbn [negb] in H; [|by simplify_eq].
  apply or_ack_success in H as (dt & w1 & Hd1 & H); [|done]. apply mlift_Ok in Hd1 as [_ ->].
  apply mbind_Ok in H as (coin & w1 & Hco & H). apply mlift_Ok in Hco as [_ ->]. destruct (has_prefix "factory/" _); [by minv|].
  apply or_ack_success in H as (bond & w1 & Hb & H); [|done]. apply mtry_Ok in Hb as [_ ->]. destruct (String.eqb _ _); [by minv|].
  apply or_ack_success in H as (recipient & w1 & Hb & H); [|done]. apply mlift_Ok in Hb as [_ ->]. rewrite mbind_reads in H.
  destruct (IsModuleAccount _); [by minv|]. rewrite mbind_reads in H. destruct (GetTokenPair _ _) as [p|] eqn:Hp.
  - destruct (IsNativeERC20 p) eqn:Hn; [|by minv]. destruct (tp_Enabled p); cbn [negb] in H; [|by minv].
    apply or_ack_success in H as (q & w1 & Hm & H); [|done]. apply MintingEnabled_Ok in Hm as (-> & _ & Hq & _).
    apply or_ack_success in H as ([] & w1 & Hconv & H); [|done]. minv. rewrite Hp in Hq. simplify_eq.
    eapply steady_gains; [|exact Hconv]. apply steady_convert_coin. by eapply owned_own.
  - destruct (has_prefix "ibc/" _); [|by minv]. apply or_ack_success in H as (q & w1 & He & H); [|done]. minv.
    eapply steady_gains; [apply steady_extension|exact He].
Qed.

(** What the rest of the chain may do: it reaches the store as contracts do, and
    does not lower the slack. *)
Definition honest_env (w w' : W) : Prop := store_env w w' /\ slack w <= slack w'.

Lemma chain_step_slack w w' : good owned w -> chain_step owned honest_env w w' -> slack w <= slack w'.
Proof.
  intros Hg Hstep.
  assert (Hk : forall A (app : MW A) w, mrel honest_env app -> good owned w -> good owned (app w).2).
  { intros A app v Happ Hgv. destruct (Happ v) as [He _]. eapply (keeps_step owned owned_collision_free); [|exact Hgv]. by apply evm_steps. }
  destruct Hstep as [ctx auth m w1 Hm|app packet data w1 Happ Hin|app ack canonical data w1 Happ|app data w1 Happ|w1 w2 [_ H]]; [..|done].
  - unfold deliver, atomically. destruct (handle ctx auth m w1) as [[u|e|e] w2] eqn:H; cbn; [|done..]. by eapply handle_gains.
  - unfold recv_commit, mw_OnRecvPacket, mbind'. pose proof (Hk _ _ _ Happ Hg) as Hg1. destruct (Happ w1) as [_ Hs].
    destruct (app w1) as [[ack|e|e] w2]; cbn in *; [|done..]. destruct (Ack_Success ack) eqn:Ha; cbn; [|by rewrite Ha].
    destruct (OnRecvPacket packet data ack w2) as [[ack'|e|e] w3] eqn:Hr; [|done..]. destruct (Ack_Success ack') eqn:Ha'; [|done].
    pose proof (recv_gains _ _ _ _ _ _ Hg1 Hr Ha'). lia.
  - unfold atomically. destruct (mw_OnAcknowledgementPacket app ack canonical data w1) as [[u|e|e] w2] eqn:H; cbn; [|done..].
    unfold mw_OnAcknowledgementPacket in H. apply mbind_Ok in H as (ack' & w3 & H1 & H). apply mlift_Ok in H1 as [_ ->].
    apply mbind_Ok in H as ([] & w3 & H1 & H). apply mguard_Ok in H1 as [_ ->]. apply mbind_Ok in H as (dt & w3 & H1 & H). apply mlift_Ok in H1 as [_ ->].
    apply mbind_Ok in H as ([] & w3 & H1 & H). pose proof (Hk _ _ _ Happ Hg) as Hg1. destruct (Happ w1) as [_ Hs]. rewrite H1 in Hg1, Hs. cbn in *.
    unfold OnAcknowledgementPacket in H. destruct ack'; [by minv|]. pose proof (refund_gains _ _ _ _ Hg1 H). lia.
  - unfold atomically. destruct (mw_OnTimeoutPacket app data w1) as [[u|e|e] w2] eqn:H; cbn; [|done..].
    unfold mw_OnTimeoutPacket in H. apply mbind_Ok in H as (dt & w3 & H1 & H). apply mlift_Ok in H1 as [_ ->].
    apply mbind_Ok in H as ([] & w3 & H1 & H). pose proof (Hk _ _ _ Happ Hg) as Hg1. destruct (Happ w1) as [_ Hs]. rewrite H1 in Hg1, Hs. cbn in *.
    pose proof (refund_gains _ _ _ _ Hg1 H). lia.
Qed.

Lemma chain_slack w w' : good owned w -> rtc (chain_step U honest_env) w w' -> good owned w' /\ slack w <= slack w'.
Proof.
  intros Hg Hrun. induction Hrun as [|w1 w2 w3 H%chain_owned _ IH]; [done|].
  pose proof (chain_step_slack _ _ Hg H). assert (Hg2 : good owned w2).
  { eapply (chain_step_keeps owned owned_collision_free honest_env); [|exact H|exact Hg]. by intros ?? []. }
  destruct (IH Hg2). split; [done|lia].
Qed.
End universe.
End token.
End backing.
