(* ===== verification/Erc20Genesis.v ===== *)
(** * x/erc20: genesis

    Exporting the store and importing it into an empty one gives it back; and an
    export that the genesis validation refuses. *)

From Stdlib Require Import ZArith Lia List String Ascii Bool.
From stdpp Require Import base gmap strings list sorting.
From S2P Require Import Prelude GoStrings Sha256 Sdk StateDB Precompile EvmTx StateTransition Erc20Types Erc20Keeper Erc20Convert Erc20Facts Erc20Registry.
Local Open Scope Z_scope.
Local Open Scope go_scope.

Lemma by_key_perm {A} (m : gmap string A) : by_key m ≡ₚ (map_to_list m).*2.
Proof. unfold by_key. by rewrite merge_sort_Permutation. Qed.
Lemma by_key_elem {A} (m : gmap string A) x : x ∈ by_key m <-> exists k, m !! k = Some x.
Proof.
  rewrite by_key_perm, list_elem_of_fmap. split.
  - intros ([k y] & -> & H%elem_of_map_to_list). eauto.
  - intros (k & H%elem_of_map_to_list). by exists (k, x).
Qed.
(** The values of a map under keys that they determine. *)
Section keyed.
Context {A : Type} (m : gmap string A) (key : A -> string) (Hkey : forall k x, m !! k = Some x -> key x = k).
Lemma by_key_pairs : (fun x => (key x, x)) <$> by_key m ≡ₚ map_to_list m.
Proof.
  rewrite by_key_perm, <- list_fmap_compose. rewrite <- (list_fmap_id (map_to_list m)) at 2.
  apply reflexive_eq, list_fmap_ext. intros i [k x] Hi. cbn.
  rewrite (Hkey k); [done|]. apply elem_of_map_to_list. by eapply list_elem_of_lookup_2.
Qed.
Lemma by_key_NoDup : NoDup (key <$> by_key m).
Proof.
  assert (H : key <$> by_key m = ((fun x => (key x, x)) <$> by_key m).*1) by (by rewrite <- list_fmap_compose).
  rewrite H, by_key_pairs. apply NoDup_fst_map_to_list.
Qed.
Lemma by_key_map l : l ≡ₚ by_key m -> list_to_map ((fun x => (key x, x)) <$> l) = m.
Proof.
  intros Hl. rewrite <- (list_to_map_to_list m). apply list_to_map_proper; [|by rewrite Hl, by_key_pairs].
  rewrite <- list_fmap_compose. change (NoDup (key <$> l)). rewrite Hl. apply by_key_NoDup.
Qed.
End keyed.

(** A map given by the values of a list. *)
Lemma list_to_map_values {A V} (l : list A) (k : A -> string) (v : A -> V) (m : gmap string V) : NoDup (k <$> l) ->
  (forall i x, m !! i = Some x <-> exists a, a ∈ l /\ k a = i /\ v a = x) -> list_to_map ((fun a => (k a, v a)) <$> l) = m.
Proof.
  intros Hnd Hm. apply map_eq. intros i. apply option_eq. intros x. rewrite Hm. rewrite <- elem_of_list_to_map.
  - rewrite list_elem_of_fmap. split; [intros (a & ? & ?); simplify_eq; eauto|intros (a & ? & <- & <-); eauto].
  - by rewrite <- list_fmap_compose.
Qed.

Section genesis.
Context {Ma : SdkMath} {Ty : SdkTypes} {Eth : EthCommon} {El : EthAddrLaws} {Cr : EthCrypto} {Ibc : IbcLibs} {Ab : Erc20Abi}.
Context {B E G : Type} {Bo : BankOps B} {Bk : Erc20Bank B} {Go : GasOps G} {Ev : Erc20Evm B E G} {Evl : Erc20EvmLaws B E G}.
Abbreviation W := (World B E G).
Abbreviation MW := (M (World B E G)).

(** ** Token pairs *)

(** The store with the pairs of a list. *)
Definition with_pairs (l : list TokenPair) (s : Erc20Store) : Erc20Store :=
  MkErc20Store (list_to_map ((fun p => (GetID p, p)) <$> l)) (list_to_map ((fun p => (GetERC20Contract p, GetID p)) <$> l))
    (list_to_map ((fun p => (tp_Denom p, GetID p)) <$> l)) (st_allowances s) (st_native s) (st_dynamic s) (st_enabled s) (st_permissionless s).

Lemma SetToken_fresh p l s : tp_Denom p <> EmptyString -> tp_Denom p ∉ tp_Denom <$> l -> GetERC20Contract p ∉ GetERC20Contract <$> l ->
  SetToken p (with_pairs l s) = (Ok tt, with_pairs (p :: l) s).
Proof.
  intros Hne Hd Hc. apply SetToken_Ok. cbn.
  rewrite !not_elem_of_list_to_map_1; [done|..]; rewrite <- list_fmap_compose; done.
Qed.

Lemma set_tokens_all l done s (w : W) : w_store w = with_pairs done s -> Forall (fun p => tp_Denom p <> EmptyString) l ->
  NoDup (tp_Denom <$> (l ++ done)) -> NoDup (GetERC20Contract <$> (l ++ done)) ->
  exists w', set_tokens l w = (Ok true, w') /\ w_store w' = with_pairs (rev l ++ done) s.
Proof.
  revert done w. induction l as [|p l IH]; intros done w Hw Hne Hd Hc; [by exists w|].
  apply Forall_cons in Hne as [Hp Hne]. rewrite <- app_comm_cons in Hd, Hc. rewrite fmap_cons in Hd, Hc.
  apply NoDup_cons in Hd as [Hd1 Hd2]. apply NoDup_cons in Hc as [Hc1 Hc2].
  cbn [set_tokens]. unfold mbind', recover_err, on_store. rewrite Hw, SetToken_fresh; [|done|set_solver|set_solver].
  destruct (IH (p :: done) (MkWorld (with_pairs (p :: done) s) (w_bank w) (w_evm w) (w_gas w))) as (w' & H1 & H2);
    [done|done|..].
  - rewrite <- Permutation_middle, fmap_cons. by apply NoDup_cons.
  - rewrite <- Permutation_middle, fmap_cons. by apply NoDup_cons.
  - exists w'. rewrite H1, H2. cbn [rev]. by rewrite <- app_assoc.
Qed.

(** ** Precompiles *)

Context (SetAccount_succeeds : forall a acc (w : W), exists w', ev_SetAccount a acc w = (Ok tt, w')).
Context (SetCode_succeeds : forall h code (w : W), exists w', ev_SetCode h code w = (Ok tt, w')).

Lemma RegisterERC20CodeHash_ok a (w : W) : exists w', RegisterERC20CodeHash a w = (Ok tt, w') /\ w_store w' = w_store w.
Proof.
  unfold RegisterERC20CodeHash. rewrite mbind_reads. unfold mbind' at 1.
  set (m := if len _ =? 0 then _ else _).
  assert (Hm : exists w1, m w = (Ok tt, w1) /\ w_store w1 = w_store w).
  { unfold m. destruct (len _ =? 0); [|by exists w].
    destruct (SetCode_succeeds (Keccak256Hash [Erc20Bytecode]) Erc20Bytecode w) as [w1 H1]. exists w1. split; [done|by eapply SetCode_store]. }
  destruct Hm as (w1 & -> & S1). rewrite mbind_reads.
  edestruct SetAccount_succeeds as [w2 H2]. exists w2. split; [exact H2|]. rewrite <- S1. by eapply SetAccount_store.
Qed.
Lemma RegisterCodeHash_ok a t (w : W) : exists w', RegisterCodeHash a t w = (Ok tt, w') /\ w_store w' = w_store w.
Proof.
  unfold RegisterCodeHash. rewrite mbind_reads. destruct (negb _); [apply RegisterERC20CodeHash_ok|by exists w].
Qed.

Lemma each_ok {A} (f : A -> MW unit) (g : A -> Erc20Store -> Erc20Store) (P : Erc20Store -> Prop) l (w : W) :
  (forall a w, a ∈ l -> P (w_store w) -> exists w', f a w = (Ok tt, w') /\ w_store w' = g a (w_store w) /\ P (w_store w')) ->
  P (w_store w) -> exists w', each f l w = (Ok tt, w') /\ w_store w' = foldl (fun s a => g a s) (w_store w) l.
Proof.
  revert w. induction l as [|a l IH]; intros w Hf HP; [by exists w|]. cbn [each foldl]. unfold mbind'.
  destruct (Hf a w) as (w1 & -> & H1 & HP1); [set_solver|done|].
  destruct (IH w1) as (w2 & H2 & H3); [set_solver|done|]. exists w2. by rewrite H2, H3, H1.
Qed.

Lemma enable_native_ok l (w : W) : (forall x, x ∈ l -> exists a, is_addr a /\ x = Address_Hex a) ->
  exists w', each (fun p => or_panic (EnableNativePrecompile (HexToAddress p))) l w = (Ok tt, w') /\
    w_store w' = foldl (fun s x => set_native ({[x]} ∪.) s) (w_store w) l.
Proof.
  intros Hl. apply each_ok with (P := fun _ => True); [|done]. intros x v Hx _. destruct (Hl x Hx) as (a & Ha & ->).
  rewrite HexToAddress_Hex by done. unfold or_panic, EnableNativePrecompile, mbind'.
  destruct (RegisterCodeHash_ok a PrecompileTypeNative v) as (v1 & -> & Hv). cbn.
  eexists. split; [done|]. cbn. by rewrite Hv.
Qed.
Lemma enable_dynamic_ok l (w : W) : (forall x, x ∈ l -> exists a, is_addr a /\ x = Address_Hex a) ->
  exists w', each (fun p => or_panic (EnableDynamicPrecompile (HexToAddress p))) l w = (Ok tt, w') /\
    w_store w' = foldl (fun s x => set_dynamic ({[x]} ∪.) s) (w_store w) l.
Proof.
  intros Hl. apply each_ok with (P := fun _ => True); [|done]. intros x v Hx _. destruct (Hl x Hx) as (a & Ha & ->).
  rewrite HexToAddress_Hex by done. unfold or_panic, EnableDynamicPrecompile, mbind'.
  destruct (RegisterCodeHash_ok a PrecompileTypeDynamic v) as (v1 & -> & Hv). cbn.
  eexists. split; [done|]. cbn. by rewrite Hv.
Qed.
Lemma set_native_fold l s : foldl (fun s x => set_native ({[x]} ∪.) s) s l = set_native (fun n => list_to_set l ∪ n) s.
Proof.
  revert s. induction l as [|x l IH]; intros [? ? ? ? n ? ? ?]; cbn; [unfold set_native; cbn; f_equal; set_solver|].
  rewrite IH. unfold set_native. cbn. f_equal. set_solver.
Qed.
Lemma set_dynamic_fold l s : foldl (fun s x => set_dynamic ({[x]} ∪.) s) s l = set_dynamic (fun n => list_to_set l ∪ n) s.
Proof.
  revert s. induction l as [|x l IH]; intros [? ? ? ? ? n ? ?]; cbn; [unfold set_dynamic; cbn; f_equal; set_solver|].
  rewrite IH. unfold set_dynamic. cbn. f_equal. set_solver.
Qed.
Lemma sort_Strings_set (X : gset string) : list_to_set (sort_Strings (elements X)) = X.
Proof. apply set_eq. intros x. by rewrite elem_of_list_to_set, sort_Strings_perm, elem_of_elements. Qed.

(** ** Allowances *)

Definition allowance_key (a : Allowance) : bytes :=
  AllowanceKey (HexToAddress (al_Erc20Address a)) (HexToAddress (al_Owner a)) (HexToAddress (al_Spender a)).
Definition add_allowance (a : Allowance) (s : Erc20Store) : Erc20Store := set_allowances <[allowance_key a := a]> s.

(** What the allowances of a store are after they are read back. *)
Lemma allowance_ok_key m k al : allowance_ok m k al -> allowance_key al = k /\
  NewAllowance (HexToAddress (al_Erc20Address al)) (HexToAddress (al_Owner al)) (HexToAddress (al_Spender al)) (al_Value al) = al.
Proof.
  intros [(x & y & z & H1 & H2 & H3 & H4 & H5 & -> & H7 & H8) Hv]. rewrite H7. unfold allowance_key. cbn. by rewrite !HexToAddress_Hex.
Qed.

Lemma set_allowance_ok al (w : W) : registry_ok (w_store w) -> allowance_ok (st_byERC20 (w_store w)) (allowance_key al) al ->
  exists w', or_panic (on_store (UnsafeSetAllowance (HexToAddress (al_Erc20Address al)) (HexToAddress (al_Owner al)) (HexToAddress (al_Spender al)) (Some (al_Value al)))) w = (Ok tt, w') /\
    w_store w' = add_allowance al (w_store w) /\ registry_ok (w_store w').
Proof.
  intros Hok [(x & y & z & H1 & H2 & H3 & H4 & H5 & Hk & H7 & [id Hid]) Hv].
  destruct (ro_byERC20 _ Hok _ _ Hid) as (p & Hp & Hpc). destruct al as [a o sp v]. cbn in Hv. injection H7 as -> -> ->.
  assert (Hset : UnsafeSetAllowance x y z (Some v) (w_store w) = (Ok tt, add_allowance (NewAllowance x y z v) (w_store w))).
  { apply setAllowance_Ok; [done|]. exists p, v. rewrite <- Hpc at 1.
    repeat split; try done; [by eapply lookup_by_contract|by left|lia|lia|].
    unfold add_allowance. change (NewAllowance x y z v) with (MkAllowance (Address_Hex x) (Address_Hex y) (Address_Hex z) v) at 1.
    rewrite Hk. by destruct (Z.eqb_spec v 0); [lia|]. }
  cbn [al_Erc20Address al_Owner al_Spender al_Value]. rewrite !HexToAddress_Hex by done.
  unfold or_panic, on_store. rewrite Hset. eexists. split; [done|]. split; [done|]. cbn.
  by eapply setAllowance_registry in Hset.
Qed.


(** ** The round trip *)

Lemma foldl_allowances l s : foldl (fun s a => add_allowance a s) s l = set_allowances (fun m => foldl (fun m a => <[allowance_key a := a]> m) m l) s.
Proof. revert s. induction l as [|a l IH]; intros s; cbn; [by destruct s|]. by rewrite IH. Qed.
Lemma foldl_insert l (m : gmap bytes Allowance) : NoDup (allowance_key <$> l) ->
  foldl (fun m a => <[allowance_key a := a]> m) m l = list_to_map ((fun a => (allowance_key a, a)) <$> l) ∪ m.
Proof.
  revert m. induction l as [|a l IH]; intros m Hnd; [cbn; by rewrite (left_id_L ∅ _)|].
  rewrite fmap_cons in Hnd. apply NoDup_cons in Hnd as [Hn Hnd]. cbn. rewrite IH by done.
  rewrite <- insert_union_r; [by rewrite insert_union_l|]. apply not_elem_of_list_to_map_1. by rewrite <- list_fmap_compose.
Qed.

Section export.
Context (s : Erc20Store) (Hok : registry_ok s).

Lemma pair_key id p : st_pairs s !! id = Some p -> GetID p = id.
Proof. intros H. by rewrite (po_id _ _ _ _ (ro_pairs _ Hok _ _ H)). Qed.
Lemma pairs_elem p : p ∈ GetTokenPairs s <-> st_pairs s !! GetID p = Some p.
Proof. unfold GetTokenPairs. rewrite by_key_elem. split; [|eauto]. intros (k & H). by rewrite (pair_key _ _ H). Qed.
Lemma pairs_NoDup : NoDup (GetTokenPairs s).
Proof. eapply NoDup_fmap_1, by_key_NoDup, pair_key. Qed.
Lemma denoms_NoDup l : l ≡ₚ GetTokenPairs s -> NoDup (tp_Denom <$> l).
Proof.
  intros ->. apply NoDup_fmap_2_strong; [|apply pairs_NoDup]. intros p q Hp%pairs_elem Hq%pairs_elem Heq.
  by destruct (same_denom _ _ _ _ _ Hok Hp Hq Heq).
Qed.
Lemma contracts_NoDup l : l ≡ₚ GetTokenPairs s -> NoDup (GetERC20Contract <$> l).
Proof.
  intros ->. apply NoDup_fmap_2_strong; [|apply pairs_NoDup]. intros p q Hp%pairs_elem Hq%pairs_elem Heq.
  by destruct (same_contract _ _ _ _ _ Hok Hp Hq Heq).
Qed.

Lemma with_pairs_export l t : l ≡ₚ GetTokenPairs s ->
  with_pairs l t = MkErc20Store (st_pairs s) (st_byERC20 s) (st_byDenom s) (st_allowances t) (st_native t) (st_dynamic t) (st_enabled t) (st_permissionless t).
Proof.
  intros Hl. unfold with_pairs. f_equal.
  - apply by_key_map; [apply pair_key|done].
  - apply list_to_map_values; [by apply contracts_NoDup|]. intros a id. setoid_rewrite Hl. setoid_rewrite pairs_elem. split.
    + intros H. destruct (ro_byERC20 _ Hok _ _ H) as (p & Hp & <-). exists p. by rewrite (pair_key _ _ Hp).
    + intros (p & Hp & <- & <-). by apply (ro_pairs _ Hok).
  - apply list_to_map_values; [by apply denoms_NoDup|]. intros a id. setoid_rewrite Hl. setoid_rewrite pairs_elem. split.
    + intros H. destruct (ro_byDenom _ Hok _ _ H) as (p & Hp & <-). exists p. by rewrite (pair_key _ _ Hp).
    + intros (p & Hp & <- & <-). by apply (ro_pairs _ Hok).
Qed.

Lemma allowances_elem al : al ∈ GetAllowances s -> allowance_ok (st_byERC20 s) (allowance_key al) al.
Proof.
  unfold GetAllowances. rewrite by_key_elem. intros (k & Hk). pose proof (ro_allowances _ Hok _ _ Hk) as H.
  by destruct (allowance_ok_key _ _ _ H) as [-> _].
Qed.
Lemma allowances_key k al : st_allowances s !! k = Some al -> allowance_key al = k.
Proof. intros H. by apply (allowance_ok_key (st_byERC20 s)), (ro_allowances _ Hok). Qed.

Lemma init_export (w : W) : w_store w = empty_store ->
  exists w', InitGenesis (ExportGenesis s) w = (Ok tt, w') /\ w_store w' = s.
Proof.
  intros Hw. set (t0 := MkErc20Store ∅ ∅ ∅ ∅ ∅ ∅ (st_enabled s) (st_permissionless s)).
  set (w0 := MkWorld t0 (w_bank w) (w_evm w) (w_gas w)).
  destruct (set_tokens_all (GetTokenPairs s) [] t0 w0) as (w1 & H1 & S1); [done|..].
  { apply Forall_forall. intros p Hp%pairs_elem. by eapply po_denom, ro_pairs. }
  { rewrite app_nil_r. by apply denoms_NoDup. }
  { rewrite app_nil_r. by apply contracts_NoDup. }
  rewrite app_nil_r in S1. rewrite with_pairs_export in S1 by (symmetry; apply Permutation_rev).
  destruct (enable_native_ok (GetNativePrecompiles s) w1) as (w2 & H2 & S2).
  { intros x. unfold GetNativePrecompiles. rewrite sort_Strings_perm, elem_of_elements. apply (ro_native _ Hok). }
  rewrite set_native_fold, S1 in S2. unfold set_native, GetNativePrecompiles in S2. cbn in S2. rewrite sort_Strings_set, (right_id_L ∅ _) in S2.
  destruct (enable_dynamic_ok (GetDynamicPrecompiles s) w2) as (w3 & H3 & S3).
  { intros x. unfold GetDynamicPrecompiles. rewrite sort_Strings_perm, elem_of_elements. apply (ro_dynamic _ Hok). }
  rewrite set_dynamic_fold, S2 in S3. unfold set_dynamic, GetDynamicPrecompiles in S3. cbn in S3. rewrite sort_Strings_set, (right_id_L ∅ _) in S3.
  edestruct (each_ok (fun a => or_panic (on_store (UnsafeSetAllowance (HexToAddress (al_Erc20Address a)) (HexToAddress (al_Owner a))
     (HexToAddress (al_Spender a)) (Some (al_Value a))))) add_allowance (fun t => registry_ok t /\ st_byERC20 t = st_byERC20 s) (GetAllowances s) w3) as (w4 & H4 & S4).
  { intros al v Hal [Hv1 Hv2]. destruct (set_allowance_ok al v Hv1) as (v' & A1 & A2 & A3).
    - rewrite Hv2. by apply allowances_elem.
    - exists v'. split; [done|]. split; [done|]. split; [done|]. by rewrite A2. }
  { rewrite S3. split; [|done]. destruct Hok. by split. }
  exists w4. split.
  - assert (H0 : on_store (mmodify (SetParams (GetParams s))) w = (Ok tt, w0)) by (unfold on_store, mmodify; by rewrite Hw).
    unfold InitGenesis. cbn [ExportGenesis gs_Params gs_TokenPairs gs_NativePrecompiles gs_DynamicPrecompiles gs_Allowances].
    unfold mbind'. rewrite H0, H1. cbn [negb]. by rewrite H2, H3, H4.
  - rewrite S4, foldl_allowances, S3. unfold set_allowances. cbn. rewrite foldl_insert by (apply by_key_NoDup, allowances_key).
    rewrite (right_id_L ∅ _), (by_key_map (st_allowances s)) by (done || apply allowances_key). by destruct s.
Qed.
End export.

(** ** Validation *)

Lemma disabled_not_active s id p : registry_ok s -> st_pairs s !! id = Some p -> tp_Enabled p = false ->
  hasActiveTokenPair (GetTokenPairs s) (tp_Erc20Address p) = false.
Proof.
  intros Hok Hp Hdis. unfold hasActiveTokenPair. apply not_true_iff_false. intros H. apply existsb_exists in H as (q & Hq & H).
  apply list_elem_of_In, (pairs_elem _ Hok) in Hq. apply andb_true_iff in H as [Ha%String.eqb_eq He].
  destruct (same_contract _ _ _ _ _ Hok Hp Hq) as [_ ->]; [|congruence]. unfold GetERC20Contract. by rewrite Ha.
Qed.

Lemma inactive_precompile pairs x l : x ∈ l -> hasActiveTokenPair pairs x = false -> is_ok (validatePrecompiles pairs l) = false.
Proof.
  intros Hx Hact. unfold validatePrecompiles, oguard.
  destruct (forallb (hasActiveTokenPair pairs) l) eqn:H; [|done]. rewrite forallb_forall in H.
  rewrite H in Hact; [done|by apply list_elem_of_In].
Qed.

Lemma inactive_invalid s x : x ∈ st_native s ∪ st_dynamic s -> hasActiveTokenPair (GetTokenPairs s) x = false ->
  is_ok (GenesisState_Validate (ExportGenesis s)) = false.
Proof.
  intros Hx Hact. unfold GenesisState_Validate. cbn [ExportGenesis gs_TokenPairs gs_NativePrecompiles gs_DynamicPrecompiles].
  destruct (validate_pairs _ ∅ ∅); cbn; [|done..]. apply elem_of_union in Hx as [Hn|Hd].
  - assert (H : is_ok (validatePrecompiles (GetTokenPairs s) (GetNativePrecompiles s)) = false)
      by (eapply inactive_precompile; [|exact Hact]; unfold GetNativePrecompiles; by rewrite sort_Strings_perm, elem_of_elements).
    destruct (validatePrecompiles _ (GetDynamicPrecompiles s)); cbn; [|done..]. by destruct (validatePrecompiles _ (GetNativePrecompiles s)).
  - assert (H : is_ok (validatePrecompiles (GetTokenPairs s) (GetDynamicPrecompiles s)) = false)
      by (eapply inactive_precompile; [|exact Hact]; unfold GetDynamicPrecompiles; by rewrite sort_Strings_perm, elem_of_elements).
    by destruct (validatePrecompiles _ (GetDynamicPrecompiles s)).
Qed.

End genesis.
