(* ===== verification/Erc20Theorems.v ===== *)
(** * x/erc20: the theorems

    The registry, genesis, the backing of converted coins and the refunds of
    IBC, with the concrete world their witnesses are evaluated in. *)

From Stdlib Require Import ZArith Lia List String Ascii Bool.
From stdpp Require Import base gmap strings list relations.
From S2P Require Import Prelude GoStrings Sha256 Sdk RefEnv AccessList StateDB Precompile EvmTx StateTransition Erc20Types Erc20Keeper Erc20Convert Erc20Facts Erc20Registry Erc20Backing Erc20Genesis.
Local Open Scope Z_scope.
Local Open Scope go_scope.

(** ** Concrete libraries for x/erc20

    A bank with metadata, an EVM that holds ERC-20 tokens (one of them,
    [paused_token], returns false on every transfer), denominations and
    addresses, with the laws the theorems assume. *)

(** ** Addresses *)

#[export, refine] Instance ref_eth20 : EthCommon := {|
  IsHexAddress := ref_is_hex 40;
  HexToAddress := fun s => BytesToAddress (default EmptyString (hex_decode (strip_0x s)));
  Address_Hex := fun a => ("0x" +:+ hex_encode a)%string;
  IsHexHash := ref_is_hex 64;
  Hash_Hex := fun b => ("0x" +:+ hex_encode b)%string;
|}.
Proof. apply ref_is_hex_ascii. Defined.

Lemma hex_val_alnum ch : hex_val ch <> None -> alnum ch = true.
Proof.
  unfold hex_val, alnum. destruct (in_range 48 (ord ch) 57) eqn:E1; [done|]. destruct (in_range 97 (ord ch) 102) eqn:E2.
  - intros _. apply in_range_true in E2. rewrite (proj2 (in_range_true 97 (ord ch) 122)) by lia. by rewrite orb_true_r.
  - destruct (in_range 65 (ord ch) 70) eqn:E3; [|done]. intros _. apply in_range_true in E3.
    by rewrite (proj2 (in_range_true 65 (ord ch) 90)) by lia.
Qed.
Lemma all_hex_alnum s : all_hex s = true -> forallb alnum (to_list s) = true.
Proof.
  unfold all_hex. rewrite !forallb_forall. intros H ch Hc. apply hex_val_alnum. specialize (H ch Hc). by destruct (hex_val ch).
Qed.
Lemma hex_encode_all_hex s : all_hex (hex_encode s) = true.
Proof.
  unfold all_hex. eapply forallb_imp; [|apply hex_encode_lower]. intros ch Hc%lower_hex_range. unfold hex_val.
  destruct (in_range 48 (ord ch) 57) eqn:E1; [done|]. destruct (in_range 97 (ord ch) 102) eqn:E2; [done|].
  apply in_range_false in E1, E2. lia.
Qed.
Lemma strip_0x_Hex s : strip_0x ("0x" +:+ s)%string = s.
Proof. done. Qed.

#[export] Instance ref_eth20_laws : EthAddrLaws.
Proof.
  split; cbn.
  - intros s. apply BytesToAddress_length.
  - intros a Ha. change (strip_0x _) with (hex_encode a). rewrite hex_decode_encode. cbn. by apply BytesToAddress_id.
  - intros a Ha. unfold ref_is_hex. change (strip_0x _) with (hex_encode a). rewrite hex_encode_all_hex.
    unfold len. by rewrite hex_encode_length, Ha.
  - done.
  - intros s. unfold ref_is_hex, strip_0x. intros [_ H]%andb_true_iff.
    destruct (has_prefix "0x" s) eqn:E1; cbn [orb] in H; [|destruct (has_prefix "0X" s) eqn:E2; [|by apply all_hex_alnum]].
    + apply has_prefix_app in E1 as (t & -> & Ht). cbn in H, Ht. rewrite Ht in H. exact (all_hex_alnum _ H).
    + apply has_prefix_app in E2 as (t & -> & Ht). cbn in H, Ht. rewrite Ht in H. exact (all_hex_alnum _ H).
Qed.

#[export] Instance ref_ibc : IbcLibs := {|
  ParseHexHash := fun s => match hex_decode s with Some b => Ok b | None => Err "invalid hex" end;
  ExtractDenomFromPath := fun s => MkIbcDenom s [];
  IBCDenom := fun d => match dn_Trace d with [] => dn_Base d | _ => ("ibc/" +:+ hex_encode (sha256 (dn_Base d)))%string end;
  Denom_HasPrefix := fun _ _ _ => false;
  addr_StringToBytes := fun s => if (len s =? 20) then Ok s else Err "invalid address";
|}.

(** ** The bank *)

Record ebank := EBank { eb_bal : gmap (string * string) N; eb_sup : gmap string Z; eb_meta : gmap string Metadata }.
Definition eget (b : ebank) (a d : string) : Z := Z.of_N (default 0%N (eb_bal b !! (a, d))).
Definition eset (b : ebank) (a d : string) (z : Z) : ebank := EBank (<[(a, d) := Z.to_N z]> (eb_bal b)) (eb_sup b) (eb_meta b).
Definition esup (b : ebank) (d : string) : Z := default 0 (eb_sup b !! d).
Definition esup_add (b : ebank) (d : string) (z : Z) : ebank := EBank (eb_bal b) (<[d := esup b d + z]> (eb_sup b)) (eb_meta b).
Definition emodule (m : string) : addr := BytesToAddress m.

(** One coin at a time. *)
Definition one_coin (f : string -> Z -> ebank -> outcome unit * ebank) (cs : list Coin) (b : ebank) : outcome unit * ebank :=
  match cs with
  | [] => (Ok tt, b)
  | [MkCoin d amt] => if amt <? 0 then (Err "negative coin amount", b) else f d amt b
  | _ => (Err "too many coins", b)
  end.
Definition emove (src dst d : string) (amt : Z) (b : ebank) : outcome unit * ebank :=
  if eget b src d <? amt then (Err "spendable balance is smaller than the amount", b)
  else let b1 := eset b src d (eget b src d - amt) in (Ok tt, eset b1 dst d (eget b1 dst d + amt)).
Definition esend (src dst : addr) : list Coin -> ebank -> outcome unit * ebank := one_coin (emove src dst).
Definition emint (m d : string) (amt : Z) (b : ebank) : outcome unit * ebank :=
  (Ok tt, esup_add (eset b (emodule m) d (eget b (emodule m) d + amt)) d amt).
Definition eburn (m d : string) (amt : Z) (b : ebank) : outcome unit * ebank :=
  if eget b (emodule m) d <? amt then (Err "spendable balance is smaller than the amount", b)
  else (Ok tt, esup_add (eset b (emodule m) d (eget b (emodule m) d - amt)) d (- amt)).

#[export] Instance ref_ebank : BankOps ebank := {|
  MintCoins := fun m => one_coin (emint m);
  BurnCoins := fun m => one_coin (eburn m);
  SendCoinsFromModuleToAccount := fun m a => esend (emodule m) a;
  SendCoinsFromAccountToModule := fun a m => esend a (emodule m);
  SendCoinsFromModuleToModule := fun m1 m2 => esend (emodule m1) (emodule m2);
  GetSupply := esup;
  GetBalance := eget;
  GetModuleAddress := emodule;
|}.
#[export] Instance ref_ebank_erc20 : Erc20Bank ebank := {|
  bk_SendCoins := esend;
  bk_Send := esend;
  bk_BlockedAddr := fun a => String.eqb a (emodule "erc20");
  bk_IsSendEnabled := fun _ _ => true;
  bk_GetDenomMetaData := fun b d => eb_meta b !! d;
  bk_SetDenomMetaData := fun md b => EBank (eb_bal b) (eb_sup b) (<[md_Base md := md]> (eb_meta b));
  bk_SpendableCoin := eget;
  Metadata_Validate := fun md => oguard (negb (String.eqb (md_Name md) EmptyString)) "name cannot be blank";
  Coins_Validate := fun cs => oguard (forallb (fun c => 0 <? Amount c) cs) "coin amount is not positive";
|}.

Lemma eget_nonneg b a d : 0 <= eget b a d.
Proof. unfold eget. lia. Qed.
Lemma eget_eset b a d z a' d' : 0 <= z -> eget (eset b a d z) a' d' = if bool_decide (a' = a /\ d' = d) then z else eget b a' d'.
Proof.
  intros Hz. unfold eget, eset. cbn. case_bool_decide as Hc.
  - destruct Hc as [-> ->]. rewrite lookup_insert_eq. cbn. lia.
  - rewrite lookup_insert_ne by naive_solver. done.
Qed.
Lemma esup_esup_add b d z d' : esup (esup_add b d z) d' = esup b d' + (if bool_decide (d' = d) then z else 0).
Proof.
  unfold esup, esup_add. cbn. case_bool_decide as Hc.
  - subst. by rewrite lookup_insert_eq.
  - rewrite lookup_insert_ne by done. lia.
Qed.

Lemma emove_moved src dst d amt b b' : 0 <= amt -> emove src dst d amt b = (Ok tt, b') ->
  (forall d', esup b' d' = esup b d') /\ (forall a d', eget b' a d' = moved b src dst d amt a d').
Proof.
  intros Hamt. unfold emove. destruct (Z.ltb_spec (eget b src d) amt); [done|]. intros [= <-]. split; [done|]. intros a d'.
  pose proof (eget_nonneg b src d). pose proof (eget_nonneg b dst d).
  assert (Hdst : eget (eset b src d (eget b src d - amt)) dst d = if bool_decide (dst = src) then eget b src d - amt else eget b dst d).
  { rewrite eget_eset by lia. repeat case_bool_decide; naive_solver. }
  rewrite eget_eset by (rewrite Hdst; case_bool_decide; lia). rewrite Hdst, eget_eset by lia.
  unfold moved. cbn. repeat case_bool_decide; destruct_and?; simplify_eq; try lia; tauto.
Qed.
Lemma esend_moved src dst d amt b b' : esend src dst [MkCoin d amt] b = (Ok tt, b') ->
  (forall d', GetSupply b' d' = GetSupply b d') /\ (forall a d', GetBalance b' a d' = moved b src dst d amt a d').
Proof. cbn. destruct (Z.ltb_spec amt 0); [done|]. by apply emove_moved. Qed.

#[export] Instance ref_ebank_laws : BankLaws ebank.
Proof.
  constructor; intros *; [cbn..| | |].
  - destruct (Z.ltb_spec amt 0); [done|]. intros [= <-]. split; intros; [by rewrite esup_esup_add|].
    pose proof (eget_nonneg b (emodule m) d). change (eget (eset b (emodule m) d (eget b (emodule m) d + amt)) a d' = eget b a d' + (if bool_decide (a = emodule m /\ d' = d) then amt else 0)).
    rewrite eget_eset by lia. case_bool_decide as Hc; [destruct Hc as [-> ->]|]; lia.
  - destruct (Z.ltb_spec amt 0); [done|]. unfold eburn. destruct (Z.ltb_spec (eget b (emodule m) d) amt); [done|]. intros [= <-].
    split; intros; [rewrite esup_esup_add; unfold esup; cbn; case_bool_decide; lia|].
    change (eget (eset b (emodule m) d (eget b (emodule m) d - amt)) a d' = eget b a d' - (if bool_decide (a = emodule m /\ d' = d) then amt else 0)).
    rewrite eget_eset by lia. case_bool_decide as Hc; [destruct Hc as [-> ->]|]; lia.
  - apply esend_moved.
  - apply esend_moved.
  - apply esend_moved.
Qed.

#[export] Instance ref_ebank_erc20_laws : Erc20BankLaws ebank.
Proof.
  constructor; intros *.
  - done.
  - cbn. unfold esend, one_coin, emove. intros H. repeat (case_match; simplify_eq; try done).
  - intros Hamt H. cbn in *. unfold esend in H. cbn in H. destruct (Z.ltb_spec amt 0); [lia|].
    unfold eburn. destruct (emove_moved a (emodule m) d amt b b') as [_ Hb]; [lia|done|].
    assert (eget b' (emodule m) d >= amt).
    { rewrite Hb. unfold moved. cbn. unfold emove in H. destruct (Z.ltb_spec (eget b a d) amt); [done|].
      pose proof (eget_nonneg b (emodule m) d). repeat case_bool_decide; try lia; naive_solver lia. }
    destruct (Z.ltb_spec (eget b' (emodule m) d) amt); [lia|]. eauto.
  - intros Hne. cbn. unfold eburn. destruct (amt <? 0); [by intros [= <- <-]|]. destruct (_ <? amt); intros [= <- <-]; [done|].
    rewrite esup_esup_add, bool_decide_eq_false_2 by done. unfold esup. cbn. lia.
Qed.

(** ** The EVM *)

Record eevm := EEvm { ee_tokens : gmap (string * string) Z; ee_accounts : gmap addr Account; ee_codes : gmap bytes bytes }.
Abbreviation EWorld := (World ebank eevm unit).
Definition tok (e : eevm) (c a : addr) : Z := default 0 (ee_tokens e !! (c, a)).
Definition tok_set (e : eevm) (c a : addr) (z : Z) : eevm := EEvm (<[(c, a) := z]> (ee_tokens e)) (ee_accounts e) (ee_codes e).
Definition tok_move (e : eevm) (c from to : addr) (z : Z) : eevm :=
  let e1 := tok_set e c from (tok e c from - z) in tok_set e1 c to (tok e1 c to + z).
Definition set_evm (w : EWorld) (e : eevm) : EWorld := MkWorld (w_store w) (w_bank w) e (w_gas w).

Definition paused_token : addr := "paused-token-contrac".
Definition reply (ret : bytes) : TxResponse := MkTxResponse 21000 21000 EmptyString ret [].
Definition revert : TxResponse := MkTxResponse 21000 21000 "execution reverted" EmptyString [].

(** The calls are told apart by their first byte. *)
#[export] Instance ref_erc20_abi : Erc20Abi := {|
  abi_Pack := fun m args =>
    match args with
    | [AAddress a] => Ok ("b" +:+ a)%string
    | [AAddress a; ABigInt z] => Ok ("t" +:+ FormatInt z +:+ "|" +:+ a)%string
    | _ => Ok (String.substring 0 1 m)
    end;
  abi_Unpack := fun _ ret => match SetString ret with Some z => Ok [ABigInt z] | None => Err "abi: cannot unmarshal" end;
  abi_UnpackBool := fun _ ret => Ok (String.eqb ret "1");
  abi_UnpackString := fun _ ret => Ok ret;
  abi_UnpackUint8 := fun _ ret => Ok 18;
  logTransferSigHash := sha256 "Transfer(address,address,uint256)";
  logApprovalSigHash := sha256 "Approval(address,address,uint256)";
|}.

Fixpoint split_bar (s : string) : string * string :=
  match s with
  | EmptyString => (EmptyString, EmptyString)
  | String ch s' => if Ascii.eqb ch "|" then (EmptyString, s') else let (x, y) := split_bar s' in (String ch x, y)
  end.
Definition run_token (from c : addr) (data : bytes) (e : eevm) : TxResponse * eevm :=
  match data with
  | String "b" a => (reply (FormatInt (tok e c a)), e)
  | String "t" rest =>
    let (amount, to) := split_bar rest in
    match SetString amount with
    | Some z =>
      if String.eqb c paused_token then (reply "0", e)
      else if (z <? 0) || (tok e c from <? z) then (revert, e)
      else (reply "1", tok_move e c from to z)
    | None => (revert, e)
    end
  | _ => (reply "Token", e)
  end.
Definition run_call (msg : CoreMessage) (commit fromPrecompile internal : bool) : M EWorld TxResponse := fun w =>
  match cm_To msg with
  | None => (Ok revert, w)
  | Some c => let (res, e) := run_token (cm_From msg) c (cm_Data msg) (w_evm w) in (Ok res, if commit then set_evm w e else w)
  end.

#[export] Instance ref_gas : GasOps unit := {|
  gas_Consumed := fun _ => 0;
  gas_Limit := fun _ => 0;
  gas_Refund := fun _ => mret tt;
  gas_Consume := fun _ => mret tt;
|}.
#[export] Instance ref_gas_laws : GasLaws unit.
Proof. split; intros; left; eauto. Qed.

#[export] Instance ref_erc20_evm : Erc20Evm ebank eevm unit := {|
  ev_GetAccount := fun w a => ee_accounts (w_evm w) !! a;
  ev_GetAccountWithoutBalance := fun w a => ee_accounts (w_evm w) !! a;
  ev_SetAccount := fun a acc w => (Ok tt, set_evm w (EEvm (ee_tokens (w_evm w)) (<[a := acc]> (ee_accounts (w_evm w))) (ee_codes (w_evm w))));
  ev_GetCode := fun w h => default EmptyString (ee_codes (w_evm w) !! h);
  ev_SetCode := fun h code w => (Ok tt, set_evm w (EEvm (ee_tokens (w_evm w)) (ee_accounts (w_evm w)) (<[h := code]> (ee_codes (w_evm w)))));
  ev_ApplyMessage := run_call;
  ak_GetSequence := fun _ _ => Ok 0;
  ak_GetAccount := fun _ _ => Some BaseAccount;
  sk_BondDenom := fun _ => Ok "axtc";
  Erc20Bytecode := "code";
|}.

#[export] Instance ref_erc20_evm_laws : Erc20EvmLaws ebank eevm unit.
Proof.
  split; intros *; cbn.
  - unfold run_call. destruct (cm_To msg); [|by intros [= <- <-]]. destruct (run_token _ _ _ _). by intros [= <- <-].
  - unfold run_call. destruct (cm_To msg); [|by intros [= <- <-]]. destruct (run_token _ _ _ _). intros [= <- <-]. by destruct commit.
  - by intros [= <- <-].
  - by intros [= <- <-].
Qed.

Lemma tok_tok_set e c a z c' a' : tok (tok_set e c a z) c' a' = if bool_decide (c' = c /\ a' = a) then z else tok e c' a'.
Proof.
  unfold tok, tok_set. cbn. case_bool_decide as Hc.
  - destruct Hc as [-> ->]. by rewrite lookup_insert_eq.
  - by rewrite lookup_insert_ne by naive_solver.
Qed.
Lemma tok_move_ledger e c from to z a : tok (tok_move e c from to z) c a = ledger_moved (tok e c) from to z a.
Proof. unfold tok_move, ledger_moved. rewrite !tok_tok_set. repeat case_bool_decide; destruct_and?; simplify_eq; try lia; tauto. Qed.
Lemma tok_move_other e c from to z c' a : c' <> c -> tok (tok_move e c from to z) c' a = tok e c' a.
Proof. intros Hne. unfold tok_move. rewrite !tok_tok_set. by rewrite !bool_decide_eq_false_2 by naive_solver. Qed.

Lemma split_bar_app x y : forallb dec_byte (to_list x) = true -> split_bar (x +:+ "|" +:+ y)%string = (x, y).
Proof.
  induction x as [|ch x IH]; [done|]. intros [Hc Hx]%andb_true_iff. specialize (IH Hx). apply dec_byte_range in Hc.
  rewrite string_app_cons. cbn [split_bar]. rewrite IH. destruct (Ascii.eqb_spec ch "|") as [->|Hne]; [change (ord "|"%char) with 124 in Hc; lia|done].
Qed.
Lemma run_transfer from c to z e : run_token from c ("t" +:+ FormatInt z +:+ "|" +:+ to)%string e =
  if String.eqb c paused_token then (reply "0", e)
  else if (z <? 0) || (tok e c from <? z) then (revert, e) else (reply "1", tok_move e c from to z).
Proof.
  change (run_token from c ("t" +:+ FormatInt z +:+ "|" +:+ to)%string e) with
    (let (amount, to0) := split_bar (FormatInt z +:+ "|" +:+ to)%string in
     match SetString amount with
     | Some z => if String.eqb c paused_token then (reply "0", e)
                 else if (z <? 0) || (tok e c from <? z) then (revert, e) else (reply "1", tok_move e c from to0 z)
     | None => (revert, e)
     end).
  rewrite split_bar_app; [by rewrite SetString_FormatInt|]. eapply SetString_digits_only, SetString_FormatInt.
Qed.

Section honest.
Context (c : addr) (d : string) (Hc : c <> paused_token).
Lemma other_tokens from c' data e a : c' <> c -> tok (run_token from c' data e).2 c a = tok e c a.
Proof.
  intros Hne. unfold run_token. repeat (case_match; simplify_eq; try done). cbn. by apply tok_move_other.
Qed.
Definition ref_token : HonestToken ebank eevm unit c d.
Proof.
  refine {| ledger := fun e => tok e c |}; cbn.
  - eauto.
  - intros data a n w [= <-]. eexists. split; [done|]. split; [done|]. cbn. by rewrite SetString_FormatInt.
  - intros data from to amt n f w r w' [= <-]. unfold run_call. cbn [cm_To call_message cm_From cm_Data]. rewrite run_transfer.
    apply String.eqb_neq in Hc. rewrite Hc. destruct (_ || _); intros [= <- <-]; [done|]. split; [done|]. split; [done|].
    intros a. cbn. apply tok_move_ledger.
  - intros msg commit f i w r w' Hto. unfold run_call. destruct (cm_To msg) as [c'|]; [|by intros [= <- <-]].
    destruct (run_token (cm_From msg) c' (cm_Data msg) (w_evm w)) as [res e] eqn:Hr. intros [= <- <-]. destruct commit; [|done]. cbn.
    replace e with (run_token (cm_From msg) c' (cm_Data msg) (w_evm w)).2 by (by rewrite Hr). rewrite other_tokens; [done|congruence].
  - by intros a acc w r w' [= <- <-].
  - by intros h code w r w' [= <- <-].
Defined.
End honest.

(** A run that returns is its result and the world it ends in. *)
Lemma run_returns {A S} (r : outcome A * S) a : r.1 = Ok a -> r = (Ok a, r.2).
Proof. destruct r. by intros [= ->]. Qed.

Section theorems.
Context {Ma : SdkMath} {Ty : SdkTypes} {Eth : EthCommon} {El : EthAddrLaws} {Cr : EthCrypto} {Ibc : IbcLibs} {Ab : Erc20Abi}.
Context {B E G : Type} {Bo : BankOps B} {Bl : BankLaws B} {Bk : Erc20Bank B} {Bkl : Erc20BankLaws B}.
Context {Go : GasOps G} {Gl : GasLaws G} {Ev : Erc20Evm B E G} {Evl : Erc20EvmLaws B E G}.
Abbreviation W := (World B E G).

(** C12: Along any run of messages, IBC callbacks and contract calls the registry
    is a bijection: every pair is stored under its identifier and is found by
    its contract and by its denomination, no two pairs share either one, and
    every allowance belongs to a registered contract; as long as SHA-256 has no
    collision among the pairs of the run. *)
Theorem registry_bijective U w w' : collision_free U -> registry_ok (w_store w) -> pairs_in U (w_store w) -> rtc (chain_step U store_env) w w' ->
  (forall id p, st_pairs (w_store w') !! id = Some p ->
     id = GetID p /\ GetTokenPair (GetERC20Map (GetERC20Contract p) (w_store w')) (w_store w') = Some p /\
     GetTokenPair (GetDenomMap (tp_Denom p) (w_store w')) (w_store w') = Some p) /\
  (forall i j p q, st_pairs (w_store w') !! i = Some p -> st_pairs (w_store w') !! j = Some q ->
     GetERC20Contract p = GetERC20Contract q \/ tp_Denom p = tp_Denom q -> p = q) /\
  registry_ok (w_store w').
Proof.
  intros Hcf Hok HU Hrun. destruct (chain_keeps U Hcf w w' Hrun) as [Hok' _]; [done|].
  split; [|split; [|done]].
  - intros id p Hp. split; [by eapply po_id, ro_pairs|]. split; [by eapply lookup_by_contract|by eapply lookup_by_denom].
  - intros i j p q Hp Hq [Hc|Hd]; [by eapply same_contract|by eapply same_denom].
Qed.

(** C37: Exporting any well-formed store and importing it into an empty one
    succeeds and gives back the same store: pairs, both indexes, allowances,
    precompiles and parameters, when writing accounts and code succeeds. *)
Theorem erc20_genesis_roundtrip s (w : W) :
  (forall a acc (w : W), exists w', ev_SetAccount a acc w = (Ok tt, w')) -> (forall h code (w : W), exists w', ev_SetCode h code w = (Ok tt, w')) ->
  registry_ok s -> w_store w = empty_store ->
  exists w', InitGenesis (ExportGenesis s) w = (Ok tt, w') /\ w_store w' = s.
Proof. intros Ha Hc Hok. by apply init_export. Qed.

(** When governance disables a pair that has a precompile, the genesis that
    the module exports is refused by its own validation, for as long as the pair
    is disabled. *)
Theorem disabled_pair_breaks_export s token q s' : registry_ok s -> toggleConversion token s = (Ok q, s') -> tp_Enabled q = false ->
  tp_Erc20Address q ∈ st_native s ∪ st_dynamic s -> is_ok (GenesisState_Validate (ExportGenesis s')) = false.
Proof.
  intros Hok H Hdis Hx. apply toggleConversion_Ok in H as (p & _ & Hp & -> & ->); [|done].
  apply (inactive_invalid _ (tp_Erc20Address p)); [done|].
  change (tp_Erc20Address p) with (tp_Erc20Address (toggled p)). eapply (disabled_not_active _ (GetID (toggled p))); [|apply lookup_insert_eq|done].
  by eapply SetTokenPair_registry.
Qed.

(** ** Conversions *)

(** C10: Coins of an ERC-20 contract stay backed. Along any run of messages, IBC
    callbacks and other activity, as long as the contract behaves as an ERC-20
    token, the tokens that the module holds minus the supply of the coin never
    decrease, on every path, failed refunds included; so a supply that is
    covered stays covered. *)
Theorem coins_stay_backed U c d {Ht : HonestToken B E G c d} (w w' : W) :
  collision_free U -> d = CreateDenom (Address_Hex c) -> is_addr c -> registry_ok (w_store w) -> pairs_in (owned c d U) (w_store w) ->
  rtc (chain_step U (honest_env c d)) w w' ->
  slack c d w <= slack c d w' /\
  (GetSupply (w_bank w) d <= ledger (w_evm w) (ModuleAddress (B := B)) -> GetSupply (w_bank w') d <= ledger (w_evm w') (ModuleAddress (B := B))).
Proof.
  intros Hcf Hd Hc Hok HU Hrun. destruct (chain_slack c d U Hcf Hd Hc w w') as [_ H]; [done|done|].
  split; [done|]. unfold slack in H. lia.
Qed.

Lemma deliver_Ok ctx auth m (w : W) u w' : deliver ctx auth m w = (Ok u, w') -> handle ctx auth m w = (Ok u, w').
Proof. apply atomically_Ok. Qed.

(** C14: For a registered contract that behaves as an ERC-20 token
    ([HonestToken]) and has not self-destructed, converting tokens to coins and
    the coins back to tokens is exact in both directions: the first moves the
    tokens from the sender to the module and mints the coins to the receiver, the
    second burns the coins and returns the tokens, and after both every balance
    of tokens and coins and the supply are what they were. *)
Theorem conversion_roundtrip c d {Ht : HonestToken B E G c d} ctx auth m1 m2 p owner holder (w w1 w2 : W) :
  GetTokenPair (GetTokenPairID (Address_Hex (HexToAddress (ce_ContractAddress m1))) (w_store w)) (w_store w) = Some p ->
  GetTokenPair (GetTokenPairID d (w_store w)) (w_store w) = Some p -> GetERC20Contract p = c -> tp_Denom p = d ->
  suicided w c = false -> suicided w1 c = false ->
  AccAddressFromBech32 (ce_Receiver m1) = Ok holder -> AccAddressFromBech32 (cc_Sender m2) = Ok holder ->
  HexToAddress (ce_Sender m1) = owner -> HexToAddress (cc_Receiver m2) = owner -> cc_Coin m2 = MkCoin d (ce_Amount m1) ->
  deliver ctx auth (ConvertERC20Msg m1) w = (Ok tt, w1) -> deliver ctx auth (ConvertCoinMsg m2) w1 = (Ok tt, w2) ->
  token_converted c d (ce_Amount m1) holder owner w w1 /\ coin_converted c d (ce_Amount m1) owner holder w1 w2 /\
  (forall a, ledger (w_evm w2) a = ledger (w_evm w) a) /\ GetSupply (w_bank w2) d = GetSupply (w_bank w) d /\
  (forall a d', GetBalance (w_bank w2) a d' = GetBalance (w_bank w) a d').
Proof.
  intros Hp1 Hp2 Hc Hd Hs Hs1 Hr1 Hr2 Ho1 Ho2 Hcoin H1%deliver_Ok H2%deliver_Ok. cbn [handle] in H1, H2.
  apply mbind_Ok in H1 as (? & w0 & Hv & H1). apply mlift_Ok in Hv as [_ ->]. apply mbind_Ok in H1 as (r & w0 & H1 & Hret).
  apply mret_Ok in Hret as [_ ->]. unfold ConvertERC20 in H1. rewrite (mbind_lift _ _ _ _ Hr1), Ho1 in H1.
  unfold ConvertERC20IntoCoinsForNativeToken in H1. apply mbind_Ok in H1 as (q & w3 & Hm & H1).
  apply MintingEnabled_Ok in Hm as (-> & _ & Hq & _). assert (q = p) as -> by congruence.
  apply mbind_Ok in H1 as ([] & w3 & Hg & H1). apply mguard_Ok in Hg as [Hn ->]. rewrite mbind_reads, Hc, Hs in H1.
  assert (Hsome : r = Some tt) by (minv; by repeat (case_match; minv)). subst r.
  apply (escrow_cases c d) in H1 as (Hst & _ & Htok); [|done..].
  apply mbind_Ok in H2 as (? & w3 & Hv & H2). apply mlift_Ok in Hv as [_ ->]. unfold ConvertCoin in H2.
  rewrite Hr2 in H2. cbn [must] in H2. rewrite (mbind_lift _ _ _ holder) in H2 by done. rewrite Hcoin in H2. cbn [Denom Amount] in H2.
  apply mbind_Ok in H2 as (q' & w3 & Hm & H2). apply MintingEnabled_Ok in Hm as (-> & _ & Hq' & _). rewrite Hst in Hq'. assert (q' = p) as -> by congruence.
  rewrite Hn, mbind_reads, Hc, Hs1, Ho2 in H2.
  apply (convert_coin_cases c d) in H2 as [(? & ?)|(_ & _ & H2)]; [done| |done..].
  destruct (H2 eq_refl) as (amt & [= <-] & Hcc). split; [done|]. split; [done|].
  destruct Htok as (T1 & T2 & T3). destruct Hcc as (C0 & C1 & C2 & C3 & C4). repeat split.
  - intros a. rewrite C2. unfold ledger_moved. rewrite !T1. unfold ledger_moved. repeat case_bool_decide; lia.
  - rewrite C3, T2. lia.
  - intros a d'. rewrite C4, T3. lia.
Qed.

(** ** Refunds *)

Lemma BalanceOf_view contract a (w : W) x w' : BalanceOf contract a w = (Ok x, w') -> same_but_gas w w'.
Proof.
  intros H. unfold BalanceOf in H. apply mbind_Ok in H as (res & w1 & Hres & H).
  assert (w' = w1) as -> by (destruct res as [res|]; [destruct (abi_Unpack "balanceOf" (rs_Ret res)) as [[|[]]| |]|]; by minv).
  clear H. unfold recover_err in Hres.
  destruct (CallEVM _ _ _ _ _ _ _ w) as [r w2] eqn:Hc. assert (w2 = w1) as -> by (destruct r; by simplify_eq).
  assert (Hr : forall e, r <> Panic e) by (intros e ->; done). clear Hres.
  unfold CallEVM, mbind', mlift in Hc. destruct (abi_Pack "balanceOf" _) as [data|e|e]; cbn [owrap] in Hc; [|by simplify_eq..].
  apply CallEVMWithData_cases in Hc as [(e & -> & -> & _)|[(e & ->)|(n & r1 & w2 & _ & Happ & Hs & _)]]; [done|by destruct (Hr e)|].
  apply ApplyMessage_view in Happ as ->. done.
Qed.

(** The transfer was not accepted. *)
Definition refused (r : outcome TxResponse) (contract : addr) : Prop :=
  match r with
  | Ok res => exists e, check_transfer res contract = Err e
  | Err _ => True
  | Panic _ => False
  end.

(** C36: A refund whose conversion fails takes the coins. When a transfer times
    out and the token contract refuses to pay out, the callback reports success,
    but the coins that were just refunded have moved from the sender to the
    module and stay there: the sender has neither the coins nor the tokens. *)
Theorem failed_refund_takes_coins data sender p amt L (w w0 w2 : W) b r :
  addr_StringToBytes (pd_Sender data) = Ok sender -> sender <> GetModuleAddress ModuleName ->
  GetTokenPair (GetTokenPairID (pd_Denom data) (w_store w)) (w_store w) = Some p -> IsNativeERC20 p = true ->
  st_enabled (w_store w) = true -> IsDenomRegistered (GetSentCoin (pd_Denom data) (pd_Amount data)).1 (w_store w) = true ->
  NewIntFromString (pd_Amount data) = Some amt -> 0 < amt -> IsModuleAccount (ak_GetAccount w sender) = false ->
  BalanceOf (GetERC20Contract p) (BytesToAddress sender) w = (Ok (Some L), w0) ->
  SendCoinsFromAccountToModule sender ModuleName [MkCoin (tp_Denom p) amt] (w_bank w0) = (Ok tt, b) ->
  CallEVM ModuleAddress (GetERC20Contract p) true false None "transfer" [AAddress (BytesToAddress sender); ABigInt amt]
    (MkWorld (w_store w0) b (w_evm w0) (w_gas w0)) = (r, w2) ->
  refused r (GetERC20Contract p) -> w_bank w2 = b ->
  OnTimeoutPacket data w = (Ok tt, w2) /\
  GetBalance (w_bank w2) sender (tp_Denom p) = GetBalance (w_bank w) sender (tp_Denom p) - amt /\
  GetBalance (w_bank w2) (GetModuleAddress ModuleName) (tp_Denom p) = GetBalance (w_bank w) (GetModuleAddress ModuleName) (tp_Denom p) + amt.
Proof.
  intros Hs Hne Hp Hn Hen Hreg Hamt Hpos Hacc Hbal Hsend Hcall Href Hb.
  pose proof (BalanceOf_view _ _ _ _ _ Hbal) as (S0 & B0 & E0).
  assert (Hconv : exists e, ConvertCoinNativeERC20 p (Some amt) (BytesToAddress sender) sender false w = (Err e, w2)).
  { unfold ConvertCoinNativeERC20. unfold mbind' at 1, mguard, mlift, oguard. rewrite (proj2 (Z.ltb_lt 0 amt)) by done.
    unfold mbind' at 1. rewrite Hbal. unfold mbind' at 1, on_bank. rewrite Hsend. unfold mbind' at 1. rewrite Hcall.
    destruct r as [res|e|e]; [|by eauto|done]. destruct Href as [e He]. unfold mbind' at 1. rewrite He. eauto. }
  destruct Hconv as [e Hconv]. split.
  - unfold OnTimeoutPacket, ConvertCoinToERC20FromPacket. rewrite (mbind_lift _ _ _ _ Hs), mbind_reads, Hp.
    assert (Hnc : IsNativeCoin p = false).
    { unfold IsNativeCoin, IsNativeERC20 in *. apply bool_decide_eq_true in Hn. by rewrite bool_decide_eq_false_2 by congruence. }
    rewrite Hnc, Hn. cbn [GetParams p_EnableErc20]. rewrite Hen, Hreg. cbn [negb orb]. rewrite mbind_reads, Hacc.
    cbn [GetSentCoin snd]. rewrite Hamt. unfold mbind', recover_err. by rewrite Hconv.
  - rewrite B0 in Hsend. apply SendToModule_ok in Hsend as [_ Hm]. rewrite Hb, !Hm. unfold moved.
    split; repeat case_bool_decide; destruct_and?; simplify_eq; try lia; tauto.
Qed.

End theorems.

(** ** Witnesses

    A token is registered, tokens are converted to coins and some coins back,
    and governance disables the pair. *)

Definition w_alice : addr := "alice_______________".
Definition w_gov : addr := "governance__________".
Definition w_token : addr := "honest-token-address".
Definition w_hex (a : addr) : string := Address_Hex (EthCommon := ref_eth20) a.
Definition w_denom (t : addr) : string := CreateDenom (w_hex t).
Definition w_code : Account := MkAccount 1 (Some 0) (Some "codehash"%string) None.
Definition w_start (t : addr) (b : ebank) : EWorld :=
  MkWorld (MkErc20Store ∅ ∅ ∅ ∅ {[w_hex t]} ∅ true true) b
    (EEvm {[(t, w_alice) := 1000; (t, GetModuleAddress (B := ebank) ModuleName) := 50]} {[t := w_code]} ∅) tt.
Definition w_ctx : Ctx := MkCtx 1 1.
Definition w_deliver (m : Erc20Msg) (w : EWorld) : outcome unit * EWorld := deliver (Eth := ref_eth20) w_ctx w_gov m w.
Definition w_register (t : addr) : Erc20Msg := RegisterERC20Msg (MkMsgRegisterERC20 w_alice [w_hex t]).
Definition w_in : MsgConvertERC20 := MkMsgConvertERC20 (w_hex w_token) 300 w_alice (w_hex w_alice).
Definition w_out (amt : Z) : MsgConvertCoin := MkMsgConvertCoin (MkCoin (w_denom w_token) amt) (w_hex w_alice) w_alice.
Definition w_toggle : Erc20Msg := ToggleConversionMsg (MkMsgToggleConversion w_gov (w_hex w_token)).

Definition w_0 : EWorld := w_start w_token (EBank ∅ ∅ ∅).
Definition w_1 : EWorld := (w_deliver (w_register w_token) w_0).2.
Definition w_2 : EWorld := (w_deliver (ConvertERC20Msg w_in) w_1).2.
Definition w_3 : EWorld := (w_deliver (ConvertCoinMsg (w_out 100)) w_2).2.
Definition w_4 : EWorld := (w_deliver w_toggle w_3).2.
Definition w_pairs : pair_set := fun a d o => a = w_hex w_token /\ d = w_denom w_token.

Lemma w_pairs_collision_free : collision_free w_pairs.
Proof. intros p q [Ha Hd] [Ha' Hd'] _. unfold id_text. congruence. Qed.
Lemma w_start_ok t b : is_addr t -> registry_ok (Eth := ref_eth20) (w_store (w_start t b)).
Proof.
  intros Ht. split; cbn; intros *; rewrite ?lookup_empty; [done..| |set_solver].
  intros ->%elem_of_singleton. by exists t.
Qed.
Lemma w_run env : rtc (chain_step (Eth := ref_eth20) w_pairs env) w_0 w_3.
Proof.
  eapply (rtc_l _ _ w_1); [apply cs_msg; repeat constructor|]. eapply (rtc_l _ _ w_2); [by apply cs_msg|].
  apply rtc_once. by apply cs_msg.
Qed.
Lemma w_run_toggled env : rtc (chain_step (Eth := ref_eth20) w_pairs env) w_0 w_4.
Proof. eapply rtc_r; [apply w_run|]. by apply cs_msg. Qed.
Lemma w_start_pairs U t b : pairs_in U (w_store (w_start t b)).
Proof. intros id p. cbn. by rewrite lookup_empty. Qed.
Lemma w_reached_ok : registry_ok (Eth := ref_eth20) (w_store w_3).
Proof.
  apply (chain_keeps (Eth := ref_eth20) w_pairs w_pairs_collision_free w_0 w_3 (w_run _)).
  split; [by apply w_start_ok|apply w_start_pairs].
Qed.

Lemma registry_bijective_witness :
  map fst (map_to_list (st_pairs (w_store w_4))) = [sha256 (w_hex w_token +:+ "|" +:+ w_denom w_token)] /\ registry_ok (Eth := ref_eth20) (w_store w_4).
Proof.
  split; [vm_compute; reflexivity|].
  apply (registry_bijective (Eth := ref_eth20) w_pairs w_0 w_4 w_pairs_collision_free (w_start_ok w_token _ eq_refl) (w_start_pairs _ _ _) (w_run_toggled _)).
Defined.

Lemma erc20_genesis_roundtrip_witness :
  let w := MkWorld empty_store (EBank ∅ ∅ ∅) (EEvm ∅ ∅ ∅) tt : EWorld in
  exists w', InitGenesis (Eth := ref_eth20) (ExportGenesis (w_store w_3)) w = (Ok tt, w') /\ w_store w' = w_store w_3.
Proof.
  apply (erc20_genesis_roundtrip (Eth := ref_eth20) (w_store w_3)); [by eexists|by eexists|apply w_reached_ok|done].
Defined.

Lemma disabled_pair_breaks_export_witness : is_ok (GenesisState_Validate (Eth := ref_eth20) (ExportGenesis (w_store w_4))) = false.
Proof.
  apply (disabled_pair_breaks_export (Eth := ref_eth20) (w_store w_3) (w_hex w_token) (MkTokenPair (w_hex w_token) (w_denom w_token) false OWNER_EXTERNAL));
    [apply w_reached_ok|vm_compute; reflexivity|done|].
  apply (bool_decide_unpack _). vm_compute. exact I.
Defined.

Definition w_honest : HonestToken ebank eevm unit w_token (w_denom w_token) := ref_token w_token (w_denom w_token) ltac:(done).
Lemma coins_stay_backed_witness :
  slack (Ht := w_honest) w_token (w_denom w_token) w_4 = 50 /\
  slack (Ht := w_honest) w_token (w_denom w_token) w_0 <= slack (Ht := w_honest) w_token (w_denom w_token) w_4.
Proof.
  split; [vm_compute; reflexivity|].
  exact (proj1 (coins_stay_backed (Eth := ref_eth20) w_pairs w_token (w_denom w_token) (Ht := w_honest) w_0 w_4 w_pairs_collision_free eq_refl eq_refl
    (w_start_ok w_token _ eq_refl) (w_start_pairs _ _ _) (w_run_toggled _))).
Defined.

Definition w_back : EWorld := (w_deliver (ConvertCoinMsg (w_out 300)) w_2).2.
Lemma conversion_roundtrip_witness :
  tok (w_evm w_2) w_token w_alice = 700 /\ GetBalance (w_bank w_2) w_alice (w_denom w_token) = 300 /\
  forall a, ledger (HonestToken := w_honest) (w_evm w_back) a = ledger (HonestToken := w_honest) (w_evm w_1) a.
Proof.
  split; [vm_compute; reflexivity|]. split; [vm_compute; reflexivity|].
  pose proof (conversion_roundtrip (Eth := ref_eth20) w_token (w_denom w_token) (Ht := w_honest) w_ctx w_gov w_in (w_out 300)
    (MkTokenPair (w_hex w_token) (w_denom w_token) true OWNER_EXTERNAL) w_alice w_alice w_1 w_2 w_back) as H.
  do 11 (specialize (H ltac:(vm_compute; reflexivity))).
  specialize (H (run_returns (w_deliver (ConvertERC20Msg w_in) w_1) tt ltac:(vm_compute; reflexivity))
    (run_returns (w_deliver (ConvertCoinMsg (w_out 300)) w_2) tt ltac:(vm_compute; reflexivity))). exact (proj1 (proj2 (proj2 H))).
Defined.

(** A token that pays nothing out: the coins of a transfer that timed out. *)
Definition w_refund : PacketData := MkPacketData (w_denom paused_token) "100" w_alice "recipient".
Definition w_paused : EWorld :=
  (w_deliver (w_register paused_token) (w_start paused_token (EBank {[(w_alice, w_denom paused_token) := 100%N]} {[w_denom paused_token := 100]} ∅))).2.
Definition w_seen := BalanceOf paused_token w_alice w_paused.
Definition w_escrow := SendCoinsFromAccountToModule w_alice ModuleName [MkCoin (w_denom paused_token) 100] (w_bank w_seen.2).
Definition w_called := CallEVM ModuleAddress paused_token true false None "transfer" [AAddress w_alice; ABigInt 100]
  (MkWorld (w_store w_seen.2) w_escrow.2 (w_evm w_seen.2) (w_gas w_seen.2)).
Lemma failed_refund_takes_coins_witness :
  GetBalance (w_bank w_paused) w_alice (w_denom paused_token) = 100 /\ GetBalance (w_bank w_called.2) w_alice (w_denom paused_token) = 0 /\
  OnTimeoutPacket (Eth := ref_eth20) w_refund w_paused = (Ok tt, w_called.2).
Proof.
  split; [vm_compute; reflexivity|]. split; [vm_compute; reflexivity|].
  pose proof (failed_refund_takes_coins (Eth := ref_eth20) w_refund w_alice (MkTokenPair (w_hex paused_token) (w_denom paused_token) true OWNER_EXTERNAL)
    100 1000 w_paused w_seen.2 w_called.2 w_escrow.2 (Ok (reply "0")) eq_refl ltac:(done)) as H.
  do 7 (specialize (H ltac:(vm_compute; reflexivity))).
  specialize (H (run_returns w_seen (Some 1000) ltac:(vm_compute; reflexivity)) (run_returns w_escrow tt ltac:(vm_compute; reflexivity))
    (run_returns w_called (reply "0") ltac:(vm_compute; reflexivity)) (ex_intro _ "failed to execute transfer"%string eq_refl) eq_refl).
  exact (proj1 H).
Defined.
