(* ===== verification/Erc20TokenTheorems.v ===== *)
(** * The ERC-20 and WERC-20 precompiles: the theorems

    The abstract token, its refinement by the precompile, what allowances limit along any run of
    calls, and the value that is sent with a call. *)

From Stdlib Require Import ZArith Lia List String Ascii Bool.
From stdpp Require Import base gmap strings list relations.
From S2P Require Import Prelude GoStrings Sdk StateDB Precompile Erc20Types Erc20Keeper Erc20Convert Erc20Precompile Erc20Facts Sha256 RefEnv AccessList Erc20Backing Erc20Theorems.
Local Open Scope Z_scope.
Local Open Scope go_scope.

(** ** The ERC-20 precompile as a token

    An abstract ERC-20 token ([Token], [token_call]), equality of tokens up to
    the balances and allowances of addresses, and the refinement: every call
    that the precompile of Erc20Precompile.v completes is a call of the abstract
    token, with its answer and its events. *)

(** ** The abstract token *)

Record Token := MkToken { tk_balance : addr -> Z; tk_allowance : addr -> addr -> Z; tk_supply : Z }.

(** Tokens agree when they agree on addresses. *)
#[export] Instance token_equiv : Equiv Token := fun t t' =>
  (forall a, tk_balance t a = tk_balance t' a) /\
  (forall o s, is_addr o -> is_addr s -> tk_allowance t o s = tk_allowance t' o s) /\ tk_supply t = tk_supply t'.
#[export] Instance token_equivalence : Equivalence (equiv (A := Token)).
Proof.
  split.
  - done.
  - intros t t' (H1 & H2 & H3). split; [done|]. split; [|done]. intros. by rewrite H2.
  - intros t t' t'' (H1 & H2 & H3) (H4 & H5 & H6). repeat split; intros; [by rewrite H1|by rewrite H2, H5|by rewrite H3].
Qed.

Inductive TokenCall :=
  | CTransfer (to : addr) (amount : Z)
  | CTransferFrom (from to : addr) (amount : Z)
  | CApprove (spender : addr) (amount : Z)
  | CBalanceOf (account : addr)
  | CAllowance (owner spender : addr)
  | CTotalSupply
  | CMetadata.

Definition moved_tokens (t : Token) (from to : addr) (amount : Z) : Token :=
  MkToken (fun a => tk_balance t a - (if bool_decide (a = from) then amount else 0) + (if bool_decide (a = to) then amount else 0))
    (tk_allowance t) (tk_supply t).
Definition allow (t : Token) (owner spender : addr) (amount : Z) : Token :=
  MkToken (tk_balance t) (fun o s => if bool_decide (o = owner /\ s = spender) then amount else tk_allowance t o s) (tk_supply t).

(** What a call does, to the token and to the log; [free] is the part of a
    balance that may be spent. [None] is a call that must not succeed. *)
Definition token_call (self : addr) (free : addr -> Z) (caller : addr) (c : TokenCall) (t : Token) : option (Token * list Erc20Event) :=
  match c with
  | CTransfer to amount =>
    if (0 <? amount) && (amount <=? free caller)
    then Some (moved_tokens t caller to amount, [EvTransfer self caller to amount]) else None
  | CTransferFrom from to amount =>
    let left := tk_allowance t from caller - amount in
    if (0 <? amount) && (amount <=? free from) && (0 <=? left)
    then Some (moved_tokens (allow t from caller left) from to amount, [EvTransfer self from to amount; EvApproval self from caller left]) else None
  | CApprove spender amount =>
    if (amount <? 0) && (tk_allowance t caller spender =? 0) then None
    else Some (allow t caller spender (Z.max 0 amount), [EvApproval self caller spender amount])
  | _ => Some (t, [])
  end.

(** What it answers. *)
Definition answers (free : addr -> Z) (c : TokenCall) (t : Token) (r : ret_value) : Prop :=
  match c with
  | CTransfer _ _ | CTransferFrom _ _ _ | CApprove _ _ => r = RetBool true
  | CBalanceOf a => r = RetInt (free a)
  | CAllowance o s => r = RetInt (tk_allowance t o s)
  | CTotalSupply => r = RetInt (tk_supply t)
  | CMetadata => exists s, r = RetString s \/ exists n, r = RetUint8 n
  end.

Definition call_of (method : string) (args : list abi_value) : option TokenCall :=
  match method, args with
  | "transfer"%string, [AAddress to; ABigInt amount] => Some (CTransfer to amount)
  | "transferFrom"%string, [AAddress from; AAddress to; ABigInt amount] => Some (CTransferFrom from to amount)
  | "approve"%string, [AAddress spender; ABigInt amount] => Some (CApprove spender amount)
  | "balanceOf"%string, [AAddress a] => Some (CBalanceOf a)
  | "allowance"%string, [AAddress o; AAddress s] => Some (CAllowance o s)
  | "totalSupply"%string, _ => Some CTotalSupply
  | "name"%string, _ | "symbol"%string, _ | "decimals"%string, _ => Some CMetadata
  | _, _ => None
  end.

(** ** The bank *)

Class Erc20SendLaws (B : Type) {Bo : BankOps B} {Bk : Erc20Bank B} := {
  bk_Send_ok src dst d amt b b' : bk_Send src dst [MkCoin d amt] b = (Ok tt, b') ->
    amt <= bk_SpendableCoin b src d /\ (forall d', GetSupply b' d' = GetSupply b d') /\ (forall a d', GetBalance b' a d' = moved b src dst d amt a d');
  bk_SendCoins_ok src dst d amt b b' : bk_SendCoins src dst [MkCoin d amt] b = (Ok tt, b') ->
    (forall d', GetSupply b' d' = GetSupply b d') /\ (forall a d', GetBalance b' a d' = moved b src dst d amt a d');
  Coins_Validate_positive d amt : Coins_Validate [MkCoin d amt] = Ok tt -> 0 < amt;
}.

Section refinement.
Context {Ma : SdkMath} {Ty : SdkTypes} {Eth : EthCommon} {El : EthAddrLaws} {Ibc : IbcLibs} {Up : UpperTables}.
Context {B E G : Type} {Bo : BankOps B} {Bk : Erc20Bank B} {Bsl : Erc20SendLaws B}.
Context (GetDenom : World B E G -> bytes -> option IbcDenom) (tp : TokenPair).
Abbreviation PS := (PState (B := B) (E := E) (G := G)).

Definition token_of (s : PS) : Token :=
  MkToken (fun a => GetBalance (w_bank (ps_world s)) a (tp_Denom tp))
    (fun o sp => GetAllowance (Address tp) o sp (w_store (ps_world s))) (GetSupply (w_bank (ps_world s)) (tp_Denom tp)).
Definition spendable (s : PS) (a : addr) : Z := bk_SpendableCoin (w_bank (ps_world s)) a (tp_Denom tp).

(** Decoded arguments carry addresses of twenty bytes. *)
Definition arg_ok (v : abi_value) : Prop := match v with AAddress a => is_addr a | _ => True end.
Definition store_of (s : PS) : Erc20Store := w_store (ps_world s).

Lemma self_addr : is_addr (Address tp).
Proof. apply HexToAddress_length. Qed.

Lemma convert_err_Ok {S A} (m : M S A) s a s' : convert_err m s = (Ok a, s') -> m s = (Ok a, s').
Proof. unfold convert_err. by destruct (m s) as [[]]. Qed.
Lemma on_world_Ok {A} (m : M (World B E G) A) (s : PS) a s' : on_world m s = (Ok a, s') ->
  exists w, m (ps_world s) = (Ok a, w) /\ s' = MkPState w (ps_events s).
Proof. unfold on_world. destruct (m (ps_world s)) as [r w]. intros [= -> <-]. eauto. Qed.

Lemma emit_Ok ev (s : PS) u s' : emit ev s = (Ok u, s') -> ps_world s' = ps_world s /\ ps_events s' = ps_events s ++ [ev].
Proof. by intros [= _ <-]. Qed.

(** *** Allowances *)

Lemma GetAllowance_set o sp v st o' sp' : is_addr o -> is_addr o' ->
  GetAllowance (Address tp) o' sp' (set_allowances (fun m => if v =? 0 then delete (AllowanceKey (Address tp) o sp) m
    else <[AllowanceKey (Address tp) o sp := NewAllowance (Address tp) o sp v]> m) st) =
  if bool_decide (o' = o /\ sp' = sp) then v else GetAllowance (Address tp) o' sp' st.
Proof.
  intros Ho Ho'. unfold GetAllowance. cbn. case_bool_decide as Hc.
  - destruct Hc as [-> ->]. destruct (Z.eqb_spec v 0) as [->|]; by rewrite ?lookup_delete_eq, ?lookup_insert_eq.
  - assert (AllowanceKey (Address tp) o sp <> AllowanceKey (Address tp) o' sp').
    { intros (_ & -> & ->)%AllowanceKey_inj; [by apply Hc|apply self_addr|apply self_addr|done|done]. }
    destruct (v =? 0); by rewrite ?lookup_delete_ne, ?lookup_insert_ne.
Qed.

Lemma set_allowance_token o sp v any (s : PS) u s' : registry_ok (store_of s) -> is_addr o -> is_addr sp ->
  on_world (on_store (setAllowance (Address tp) o sp (Some v) any)) s = (Ok u, s') ->
  token_of s' ≡ allow (token_of s) o sp v /\ ps_events s' = ps_events s /\ w_bank (ps_world s') = w_bank (ps_world s) /\ registry_ok (store_of s').
Proof.
  intros Hok Ho Hsp H. apply on_world_Ok in H as (w & H & ->). unfold on_store in H.
  destruct (setAllowance _ _ _ _ _ (w_store (ps_world s))) as [r st] eqn:Hset. destruct u. injection H as -> <-.
  pose proof (setAllowance_registry _ _ _ _ _ _ _ Hok self_addr Ho Hsp Hset) as Hok'.
  apply setAllowance_Ok in Hset as (p & v' & _ & _ & _ & _ & [= <-] & Hv & ->); [|done].
  split; [|done]. split; [done|]. split; [|done]. intros o' sp' Ho' Hsp'. cbn -[GetAllowance set_allowances]. by apply GetAllowance_set.
Qed.

(** *** Sending *)

Lemma send_token from to amount (s : PS) u s' : Send from to [MkCoin (tp_Denom tp) amount] s = (Ok u, s') ->
  amount <= spendable s from /\ token_of s' ≡ moved_tokens (token_of s) from to amount /\ ps_events s' = ps_events s /\ store_of s' = store_of s.
Proof.
  unfold Send. intros H%convert_err_Ok. apply on_world_Ok in H as (w & H & ->). unfold on_bank in H.
  destruct (bk_Send _ _ _ (w_bank (ps_world s))) as [r b] eqn:Hs. destruct u. injection H as -> <-.
  apply bk_Send_ok in Hs as (Hle & Hsup & Hbal). repeat split; cbn; [done| |by rewrite Hsup].
  intros a. rewrite Hbal. unfold moved. repeat case_bool_decide; try lia; naive_solver.
Qed.

(** *** The methods *)

#[local] Arguments token_of : simpl never.

(** The token, the registry and the spendable coins are those of the world. *)
Lemma same_world (s s' : PS) : ps_world s' = ps_world s -> token_of s' = token_of s /\ store_of s' = store_of s.
Proof. unfold token_of, store_of. by intros ->. Qed.

Lemma allow_proper t t' o sp v : t ≡ t' -> allow t o sp v ≡ allow t' o sp v.
Proof. intros (H1 & H2 & H3). repeat split; cbn; [done| |done]. intros. case_bool_decide; auto. Qed.
Lemma moved_proper t t' from to v : t ≡ t' -> moved_tokens t from to v ≡ moved_tokens t' from to v.
Proof. intros (H1 & H2 & H3). repeat split; cbn; [|done|done]. intros. by rewrite H1. Qed.

(** A completed call [c] of [caller] is a call of the token. *)
Definition refines (caller : addr) (c : TokenCall) (s : PS) (r : ret_value) (s' : PS) : Prop :=
  exists t' evs, token_call (Address tp) (spendable s) caller c (token_of s) = Some (t', evs) /\
    token_of s' ≡ t' /\ ps_events s' = ps_events s ++ evs /\ answers (spendable s) c (token_of s) r /\ registry_ok (store_of s').

Lemma refines_intro caller c (s : PS) r s1 s' t' evs :
  token_call (Address tp) (spendable s) caller c (token_of s) = Some (t', evs) -> token_of s1 ≡ t' -> ps_events s1 = ps_events s ->
  registry_ok (store_of s1) -> ps_world s' = ps_world s1 -> ps_events s' = ps_events s1 ++ evs -> answers (spendable s) c (token_of s) r ->
  refines caller c s r s'.
Proof. intros Hc Ht He Hok [Hw Hst]%same_world He' Ha. exists t', evs. rewrite Hw, Hst, He', He. done. Qed.

Lemma spend_allowance_token caller from amount (s : PS) left s' : registry_ok (store_of s) -> is_addr caller -> is_addr from ->
  spend_allowance tp from caller amount s = (Ok left, s') ->
  left = tk_allowance (token_of s) from caller - amount /\ 0 <= left /\
  token_of s' ≡ allow (token_of s) from caller left /\ ps_events s' = ps_events s /\ w_bank (ps_world s') = w_bank (ps_world s) /\ registry_ok (store_of s').
Proof.
  intros Hok Hc Hf H. unfold spend_allowance in H. apply mbind_Ok in H as (prev & s1 & Hp & H). unfold read_store, mreads in Hp. injection Hp as <- <-.
  apply mbind_Ok in H as ([] & s1 & Hg & H). apply mguard_Ok in Hg as [Hle%Z.leb_le ->].
  apply mbind_Ok in H as ([] & s1 & Hset & H). apply mret_Ok in H as [-> ->]. apply convert_err_Ok in Hset.
  split; [done|]. split; [done|]. destruct (Z.eqb_spec (GetAllowance (Address tp) from caller (w_store (ps_world s)) - amount) 0) as [Hz|_].
  - rewrite Hz. by eapply set_allowance_token.
  - by eapply set_allowance_token.
Qed.

Lemma transfer_refines caller from to amount method (s : PS) r s' :
  registry_ok (store_of s) -> is_addr caller -> is_addr from -> method = TransferMethod /\ from = caller \/ method = TransferFromMethod ->
  transfer tp caller method from to amount s = (Ok r, s') ->
  refines caller (if String.eqb method TransferFromMethod then CTransferFrom from to amount else CTransfer to amount) s r s'.
Proof.
  intros Hok Hc Hf Hm H. unfold transfer in H. apply mbind_Ok in H as (v & s1 & Hv & H). apply mlift_Ok in Hv as [Hv ->].
  rewrite NewIntFromBigInt_spec in Hv. destruct (int_fits amount); [|done]. injection Hv as <-.
  apply mbind_Ok in H as ([] & s1 & Hv & H). apply mlift_Ok in Hv as [Hpos%Coins_Validate_positive ->].
  apply mbind_Ok in H as (left & s2 & Hl & H). apply mbind_Ok in H as (u & s3 & Hs & H). apply convert_err_Ok in Hs.
  apply send_token in Hs as (Hfree & Htok & Hev & Hst). apply mbind_Ok in H as (? & s4 & H4%emit_Ok & H). destruct H4 as [Hw4 He4].
  apply mbind_Ok in H as (? & s5 & H5 & H). apply mret_Ok in H as [-> ->].
  destruct Hm as [[-> ->]| ->]; cbn [String.eqb Ascii.eqb Bool.eqb TransferMethod TransferFromMethod] in *.
  - apply mret_Ok in Hl as [-> ->]. apply mret_Ok in H5 as [_ ->]. eapply (refines_intro _ _ _ _ s3); [|done|done|by rewrite Hst|done|done|done].
    unfold token_call. by rewrite (proj2 (Z.ltb_lt 0 amount)), (proj2 (Z.leb_le amount (spendable s caller))).
  - apply spend_allowance_token in Hl as (-> & Hle & Ha & Hev2 & Hb & Hok2); [|done..]. apply emit_Ok in H5 as [Hw5 He5].
    unfold spendable in Hfree. rewrite Hb in Hfree. rewrite He4, <- app_assoc in He5.
    eapply (refines_intro _ _ _ _ s3); [|etransitivity; [exact Htok|by apply moved_proper]|congruence|by rewrite Hst|congruence|exact He5|done].
    unfold token_call. by rewrite (proj2 (Z.ltb_lt 0 amount)), (proj2 (Z.leb_le amount (spendable s from))), (proj2 (Z.leb_le 0 _)).
Qed.

Lemma GetAllowance_nonneg o sp st : registry_ok st -> 0 <= GetAllowance (Address tp) o sp st.
Proof. intros Hok. unfold GetAllowance. destruct (st_allowances _ !! _) as [al|] eqn:Hal; [|done]. apply ro_allowances in Hal as [_ ?]; [lia|done]. Qed.

Lemma allow_same t o sp v : tk_allowance t o sp = v -> allow t o sp v ≡ t.
Proof. intros <-. split; [done|]. split; [|done]. intros o' sp' _ _. cbn. by case_bool_decide as Hc; [destruct Hc as [-> ->]|]. Qed.

Lemma precompile_setAllowance_token o sp v (s : PS) u s' : registry_ok (store_of s) -> is_addr o -> is_addr sp ->
  precompile_setAllowance tp o sp v s = (Ok u, s') ->
  token_of s' ≡ allow (token_of s) o sp v /\ ps_events s' = ps_events s /\ w_bank (ps_world s') = w_bank (ps_world s) /\ registry_ok (store_of s').
Proof.
  intros Hok Ho Hsp H. unfold precompile_setAllowance in H. apply mbind_Ok in H as (? & s1 & Hg & H).
  apply mguard_Ok in Hg as [_ ->]. by eapply set_allowance_token.
Qed.

Lemma approve_cases caller spender amount (s : PS) u s1 : registry_ok (store_of s) -> is_addr caller -> is_addr spender ->
  let a := tk_allowance (token_of s) caller spender in
  (if (a =? 0) && (amount <? 0) then mfail ErrNegativeAmount
   else if (a =? 0) && (0 <? amount) then precompile_setAllowance tp caller spender amount
   else if (0 <? a) && (amount <=? 0) then on_world (on_store (DeleteAllowance (Address tp) caller spender))
   else if (0 <? a) && (0 <? amount) then precompile_setAllowance tp caller spender amount
   else mret tt) s = (Ok u, s1) ->
  ~ (amount < 0 /\ a = 0) /\ token_of s1 ≡ allow (token_of s) caller spender (Z.max 0 amount) /\ ps_events s1 = ps_events s /\ registry_ok (store_of s1).
Proof.
  intros Hok Hc Hsp a H. assert (Ha : 0 <= a) by exact (GetAllowance_nonneg caller spender _ Hok).
  assert (Hcase : a = 0 /\ amount < 0 \/ 0 < amount \/ 0 < a /\ amount <= 0 \/ a = 0 /\ amount = 0) by lia.
  destruct Hcase as [[H1 H2]|[H1|[[H1 H2]|[H1 H2]]]].
  - rewrite H1, (proj2 (Z.ltb_lt amount 0) H2) in H. done.
  - rewrite Z.max_r by lia. split; [lia|]. rewrite (proj2 (Z.ltb_ge amount 0)), (proj2 (Z.leb_gt amount 0)), (proj2 (Z.ltb_lt 0 amount) H1), !andb_false_r, !andb_true_r in H by lia.
    assert (Hset : precompile_setAllowance tp caller spender amount s = (Ok u, s1)) by (repeat case_match; zify_bool; [done|done|lia]).
    apply precompile_setAllowance_token in Hset; tauto.
  - rewrite Z.max_l by lia. split; [lia|].
    rewrite (proj2 (Z.eqb_neq a 0)), (proj2 (Z.ltb_lt 0 a) H1), (proj2 (Z.leb_le amount 0) H2) in H by lia. cbn [andb] in H.
    apply set_allowance_token in H; tauto.
  - subst amount. rewrite H1 in H. apply mret_Ok in H as [_ ->]. split; [lia|]. split; [|done]. symmetry. by apply allow_same.
Qed.

Lemma Approve_refines caller spender amount (s : PS) r s' : registry_ok (store_of s) -> is_addr caller -> is_addr spender ->
  Approve tp caller [AAddress spender; ABigInt amount] s = (Ok r, s') -> refines caller (CApprove spender amount) s r s'.
Proof.
  intros Hok Hc Hsp H. unfold Approve in H. cbn [ParseApproveArgs] in H. apply mbind_Ok in H as (p & s1 & Hp & H).
  apply mlift_Ok in Hp as [[= <-] ->]. cbn [fst snd] in H. apply mbind_Ok in H as (a & s1 & Ha & H). unfold read_store, mreads in Ha. injection Ha as <- <-.
  apply mbind_Ok in H as ([] & s1 & Hset & H). apply approve_cases in Hset as (Hcond & Htok & Hev & Hok1); [|done..].
  apply mbind_Ok in H as (? & s2 & [Hw He]%emit_Ok & H). apply mret_Ok in H as [-> ->].
  eapply (refines_intro _ _ _ _ s1); [|done..]. unfold token_call.
  destruct ((amount <? 0) && (tk_allowance (token_of s) caller spender =? 0)) eqn:Hx; [|done].
  apply andb_true_iff in Hx as [?%Z.ltb_lt ?%Z.eqb_eq]. by destruct Hcond.
Qed.

(** *** Every method *)

Lemma view_refines caller c (s : PS) r : registry_ok (store_of s) -> answers (spendable s) c (token_of s) r ->
  match c with CTransfer _ _ | CTransferFrom _ _ _ | CApprove _ _ => False | _ => True end -> refines caller c s r s.
Proof. intros Hok Ha Hc. exists (token_of s), []. rewrite app_nil_r. split; [by destruct c|]. done. Qed.

Lemma ibc_base_view voucher (s : PS) x s' : getBaseDenomFromIBCVoucher GetDenom voucher s = (Ok x, s') -> s' = s.
Proof.
  unfold getBaseDenomFromIBCVoucher. intros H. apply mbind_Ok in H as (d & s1 & Hd & H). unfold ibc_GetDenom in Hd. injection Hd as _ <-. by minv.
Qed.
Lemma ibc_denom_view voucher (s : PS) x s' : convert_err (ibc_GetDenom GetDenom voucher) s = (Ok x, s') -> s' = s.
Proof. intros H%convert_err_Ok. unfold ibc_GetDenom in H. by injection H as _ <-. Qed.

Definition is_metadata (r : ret_value) : Prop := exists s, r = RetString s \/ exists n, r = RetUint8 n.
Lemma TokenName_view (s : PS) r s' : TokenName GetDenom tp s = (Ok r, s') -> s' = s /\ is_metadata r.
Proof.
  intros H. unfold TokenName in H. apply mbind_Ok in H as (md & s1 & Hmd & H). unfold read_bank, mreads in Hmd. injection Hmd as <- <-.
  destruct (bk_GetDenomMetaData _ _) as [md|]; minv; [|apply convert_err_Ok, ibc_base_view in H0 as ->]; unfold is_metadata; eauto.
Qed.
Lemma Symbol_view (s : PS) r s' : Symbol GetDenom tp s = (Ok r, s') -> s' = s /\ is_metadata r.
Proof.
  intros H. unfold Symbol in H. apply mbind_Ok in H as (md & s1 & Hmd & H). unfold read_bank, mreads in Hmd. injection Hmd as <- <-.
  destruct (bk_GetDenomMetaData _ _) as [md|]; minv; [|apply convert_err_Ok, ibc_base_view in H0 as ->]; unfold is_metadata; eauto.
Qed.
Lemma Decimals_view (s : PS) r s' : Decimals GetDenom tp s = (Ok r, s') -> s' = s /\ is_metadata r.
Proof.
  intros H. unfold Decimals in H. apply mbind_Ok in H as (md & s1 & Hmd & H). unfold read_bank, mreads in Hmd. injection Hmd as <- <-.
  destruct (bk_GetDenomMetaData _ _) as [md|].
  - destruct (display_exponent md) as [n|]; [destruct (255 <? n)|]; minv. split; [done|]. exists EmptyString. eauto.
  - minv. apply ibc_denom_view in H0 as ->. apply convert_err_Ok, mlift_Ok in H1 as [_ ->]. split; [done|]. exists EmptyString. eauto.
Qed.

(** Every method that completes is a call of the token. *)
Lemma HandleMethod_refines caller method args (s : PS) r s' : registry_ok (store_of s) -> is_addr caller -> Forall arg_ok args ->
  HandleMethod GetDenom tp caller method args s = (Ok r, s') -> exists c, call_of method args = Some c /\ refines caller c s r s'.
Proof.
  intros Hok Hc Hargs H. unfold HandleMethod in H.
  destruct (String.eqb_spec method TransferMethod) as [->|_].
  { unfold Transfer in H. apply mbind_Ok in H as ([to amount] & s1 & Hp & H). apply mlift_Ok in Hp as [Hp ->].
    destruct args as [|[] [|[] [|]]]; try done. injection Hp as -> ->. eexists. split; [done|]. apply (transfer_refines caller caller) in H; auto. }
  destruct (String.eqb_spec method TransferFromMethod) as [->|_].
  { unfold TransferFrom in H. apply mbind_Ok in H as ([[from to] amount] & s1 & Hp & H). apply mlift_Ok in Hp as [Hp ->].
    destruct args as [|[] [|[] [|[] [|]]]]; try done. injection Hp as -> -> ->. inv Hargs. eexists. split; [done|]. apply (transfer_refines caller from) in H; auto. }
  destruct (String.eqb_spec method ApproveMethod) as [->|_].
  { assert (Hp : exists sp amount, args = [AAddress sp; ABigInt amount]).
    { unfold Approve in H. apply mbind_Ok in H as (p & s1 & Hp & _). apply mlift_Ok in Hp as [Hp _]. destruct args as [|[] [|[] [|]]]; try done. eauto. }
    destruct Hp as (sp & amount & ->). inv Hargs. eexists. split; [done|]. by apply Approve_refines. }
  destruct (String.eqb_spec method "name") as [->|_].
  { exists CMetadata. split; [done|]. apply TokenName_view in H as [-> Ha]. by apply view_refines. }
  destruct (String.eqb_spec method "symbol") as [->|_].
  { exists CMetadata. split; [done|]. apply Symbol_view in H as [-> Ha]. by apply view_refines. }
  destruct (String.eqb_spec method "decimals") as [->|_].
  { exists CMetadata. split; [done|]. apply Decimals_view in H as [-> Ha]. by apply view_refines. }
  destruct (String.eqb_spec method "totalSupply") as [->|_].
  { exists CTotalSupply. split; [done|]. injection H as <- <-. by apply view_refines. }
  destruct (String.eqb_spec method "balanceOf") as [->|_].
  { unfold precompile_BalanceOf in H. apply mbind_Ok in H as (a & s1 & Hp & H). apply mlift_Ok in Hp as [Hp ->].
    destruct args as [|[] [|]]; try done. injection Hp as ->. injection H as <- <-. eexists. split; [done|]. by apply view_refines. }
  destruct (String.eqb_spec method "allowance") as [->|_]; [|done].
  unfold precompile_Allowance in H. apply mbind_Ok in H as ([o sp] & s1 & Hp & H). apply mlift_Ok in Hp as [Hp ->].
  destruct args as [|[] [|[] [|]]]; try done. injection Hp as -> ->. injection H as <- <-. eexists. split; [done|]. by apply view_refines.
Qed.
End refinement.

(** ** Sums over callers *)

Fixpoint total {A} (f : A -> Z) (l : list A) : Z := match l with [] => 0 | a :: l' => f a + total f l' end.
Lemma total_ext {A} (f g : A -> Z) l : (forall a, a ∈ l -> f a = g a) -> total f l = total g l.
Proof. induction l as [|a l IH]; intros H; [done|]. cbn. rewrite H, IH; [done| |]; set_solver. Qed.
Lemma total_spent {A} (f g : A -> Z) (x : A) z l : NoDup l -> x ∈ l -> g x = f x - z -> (forall a, a <> x -> g a = f a) -> total g l = total f l - z.
Proof.
  intros Hnd Hin Hx Ho. induction Hnd as [|a l Ha Hnd IH]; [set_solver|]. cbn. apply elem_of_cons in Hin as [->|Hin].
  - rewrite Hx, (total_ext g f); [lia|]. intros b Hb. apply Ho. by intros ->.
  - rewrite IH, (Ho a); [lia| |done]. by intros ->.
Qed.
Lemma total_nonneg {A} (f : A -> Z) l : (forall a, a ∈ l -> 0 <= f a) -> 0 <= total f l.
Proof. induction l as [|a l IH]; intros H; [done|]. cbn. assert (0 <= f a) by (apply H; set_solver). assert (0 <= total f l) by (apply IH; set_solver). lia. Qed.

Section theorems.
Context {Ma : SdkMath} {Ty : SdkTypes} {Eth : EthCommon} {El : EthAddrLaws} {Ibc : IbcLibs} {Up : UpperTables}.
Context {B E G : Type} {Bo : BankOps B} {Bk : Erc20Bank B} {Bsl : Erc20SendLaws B}.
Context (GetDenom : World B E G -> bytes -> option IbcDenom) (tp : TokenPair).
Abbreviation PS := (PState (B := B) (E := E) (G := G)).

(** C11: The ERC-20 precompile implements the abstract token: each method that
    completes is a call of the token. A transfer moves a positive spendable
    amount, transferFrom also lowers the caller's allowance by it, approve sets
    the allowance, the queries answer the token's values and change nothing; the
    events are exactly those of the call, and the registry stays well formed. *)
Theorem precompile_refines_token caller method args (s : PS) r s' : registry_ok (store_of s) -> is_addr caller -> Forall arg_ok args ->
  HandleMethod GetDenom tp caller method args s = (Ok r, s') ->
  exists c t' evs, call_of method args = Some c /\ token_call (Address tp) (spendable tp s) caller c (token_of tp s) = Some (t', evs) /\
    token_of tp s' ≡ t' /\ ps_events s' = ps_events s ++ evs /\ answers (spendable tp s) c (token_of tp s) r /\ registry_ok (store_of s').
Proof.
  intros Hok Hc Hargs H. apply HandleMethod_refines in H as (c & Hcall & t' & evs & H); [|done..]. exists c, t', evs. tauto.
Qed.

(** A completed call by one of [callers]. *)
Definition token_step (callers : list addr) (s s' : PS) : Prop :=
  exists caller method args r, caller ∈ callers /\ is_addr caller /\ Forall arg_ok args /\ HandleMethod GetDenom tp caller method args s = (Ok r, s').
Definition owner_stake (owner : addr) (callers : list addr) (s : PS) : Z :=
  tk_balance (token_of tp s) owner - total (tk_allowance (token_of tp s) owner) callers.

Lemma allow_other t owner o sp v : owner <> o -> (forall c, tk_allowance (allow t o sp v) owner c = tk_allowance t owner c).
Proof. intros Hne c. cbn. rewrite bool_decide_eq_false_2; [done|]. by intros [? _]. Qed.
Lemma balance_credited t owner from to z : owner <> from -> 0 <= z -> tk_balance t owner <= tk_balance (moved_tokens t from to z) owner.
Proof. intros Hne Hz. cbn. rewrite bool_decide_eq_false_2 by done. case_bool_decide; lia. Qed.

Lemma stake_step owner callers s s' : NoDup callers -> Forall is_addr callers -> is_addr owner -> owner ∉ callers -> registry_ok (store_of s) ->
  token_step callers s s' -> owner_stake owner callers s <= owner_stake owner callers s' /\ registry_ok (store_of s').
Proof.
  intros Hnd Hcs Ho Hno Hok (caller & method & args & r & Hin & Hc & Hargs & H).
  apply HandleMethod_refines in H as (c & _ & t' & evs & Hcall & (Hb & Ha & _) & _ & _ & Hok'); [|done..]. split; [|done].
  assert (Hne : owner <> caller) by (by intros ->). unfold owner_stake. rewrite Hb.
  rewrite (total_ext (tk_allowance (token_of tp s') owner) (tk_allowance t' owner)).
  2: { rewrite Forall_forall in Hcs. intros x Hx. apply Ha; auto. }
  clear Hb Ha Hok'. destruct c as [to z|from to z|sp z| | | |]; cbn [token_call] in Hcall; try (injection Hcall as <- _; lia).
  - case_match eqn:Hg; [|done]. zify_bool. injection Hcall as <- _. pose proof (balance_credited (token_of tp s) owner caller to z Hne ltac:(lia)).
    change (tk_allowance (moved_tokens (token_of tp s) caller to z)) with (tk_allowance (token_of tp s)). lia.
  - case_match eqn:Hg; [|done]. zify_bool. injection Hcall as <- _. destruct (decide (owner = from)) as [<-|Hf].
    + set (t := allow _ _ _ _). change (tk_allowance (moved_tokens t owner to z)) with (tk_allowance t).
      rewrite (total_spent (tk_allowance (token_of tp s) owner) (tk_allowance t owner) caller z); [|done|done|..].
      * cbn [moved_tokens tk_balance]. change (tk_balance t owner) with (tk_balance (token_of tp s) owner). rewrite bool_decide_eq_true_2 by done. case_bool_decide; lia.
      * cbn. by rewrite bool_decide_eq_true_2.
      * intros a Hx. cbn. rewrite bool_decide_eq_false_2; [done|]. by intros [_ ?].
    + pose proof (balance_credited (allow (token_of tp s) from caller (tk_allowance (token_of tp s) from caller - z)) owner from to z Hf ltac:(lia)).
      set (t := allow _ _ _ _) in *.
      rewrite (total_ext (tk_allowance (moved_tokens t from to z) owner) (tk_allowance (token_of tp s) owner)) by (intros x _; by apply allow_other).
      change (tk_balance t owner) with (tk_balance (token_of tp s) owner) in *. lia.
  - case_match; [done|]. injection Hcall as <- _. set (t := allow _ _ _ _).
    rewrite (total_ext (tk_allowance t owner) (tk_allowance (token_of tp s) owner)) by (intros x _; by apply allow_other). done.
Qed.

(** C13: Allowances limit what others can take. Along any run of calls by others,
    what leaves an owner's account is covered by the decrease of the allowances
    the owner gave them; so the owner keeps the balance minus those allowances. *)
Theorem allowances_limit_spending owner callers (s s' : PS) : NoDup callers -> Forall is_addr callers -> is_addr owner -> owner ∉ callers ->
  registry_ok (store_of s) -> rtc (token_step callers) s s' ->
  tk_balance (token_of tp s) owner - tk_balance (token_of tp s') owner <=
    total (tk_allowance (token_of tp s) owner) callers - total (tk_allowance (token_of tp s') owner) callers /\
  tk_balance (token_of tp s) owner - total (tk_allowance (token_of tp s) owner) callers <= tk_balance (token_of tp s') owner.
Proof.
  intros Hnd Hcs Ho Hno Hok Hrun.
  assert (H : owner_stake owner callers s <= owner_stake owner callers s' /\ registry_ok (store_of s')).
  { induction Hrun as [|s1 s2 s3 Hstep _ IH]; [done|]. destruct (stake_step owner callers s1 s2) as [H1 H2]; [done..|].
    destruct (IH H2) as [H3 H4]. split; [lia|done]. }
  destruct H as [H Hok']. unfold owner_stake in H.
  assert (0 <= total (tk_allowance (token_of tp s') owner) callers) by (apply total_nonneg; intros; by apply GetAllowance_nonneg).
  cbn in *. lia.
Qed.

(** One call by another takes nothing when there is no allowance. *)
Lemma no_allowance_no_spending caller owner method args (s : PS) r s' : registry_ok (store_of s) -> is_addr caller -> is_addr owner -> Forall arg_ok args ->
  owner <> caller -> GetAllowance (Address tp) owner caller (store_of s) = 0 ->
  HandleMethod GetDenom tp caller method args s = (Ok r, s') -> tk_balance (token_of tp s) owner <= tk_balance (token_of tp s') owner.
Proof.
  intros Hok Hc Ho Hargs Hne Hal H. destruct (stake_step owner [caller] s s') as [Hst Hok'].
  - by apply NoDup_singleton.
  - by apply Forall_singleton.
  - done.
  - by rewrite list_elem_of_singleton.
  - done.
  - exists caller, method, args, r. by rewrite list_elem_of_singleton.
  - pose proof (GetAllowance_nonneg tp owner caller _ Hok'). unfold owner_stake, total in Hst.
    change (tk_allowance (token_of tp s) owner caller) with (GetAllowance (Address tp) owner caller (store_of s)) in Hst.
    change (tk_allowance (token_of tp s') owner caller) with (GetAllowance (Address tp) owner caller (store_of s')) in Hst. lia.
Qed.

(** ** Value sent with a call *)

Section value.
Context (api : ABI (list abi_value)) (m_Name : Method api -> string) (denom : string).

Lemma Withdraw_bank contract args (s : PS) r s' : Withdraw denom tp contract args s = (Ok r, s') -> ps_world s' = ps_world s.
Proof.
  unfold Withdraw. intros H. destruct args as [|[] args]; [done|done| |done..].
  apply mbind_Ok in H as (v & s1 & Hi & H). apply mlift_Ok in Hi as [_ ->].
  apply mbind_Ok in H as (x & s1 & Hx & H). unfold read_bank, mreads in Hx. injection Hx as _ <-.
  apply mbind_Ok in H as (? & s1 & Hg & H). apply mguard_Ok in Hg as [_ ->].
  apply mbind_Ok in H as (? & s2 & [Hw He]%emit_Ok & H). by apply mret_Ok in H as [_ ->].
Qed.
Lemma SetupABI_args input value ro tx call : (forall m data args, Unpack api m data = Ok args -> Forall arg_ok args) ->
  SetupABI api input value ro tx = Ok call -> Forall arg_ok (default [] call.2).
Proof.
  intros Habi H. unfold SetupABI in H. apply obind_Ok in H as (m & _ & H). apply obind_Ok in H as (? & _ & H).
  destruct (m_Type api m); simplify_eq; try constructor. destruct (len input <? 4); [done|].
  apply obind_Ok in H as (args & Hu & [= <-]). by apply Habi in Hu.
Qed.

(** Value sent to the WERC-20 precompile with any method other than deposit
    is kept: the plain precompile refuses a call with value, but here a
    completed transfer, approve, withdraw or query leaves the precompile's
    account with at least what it had before the call and the value. *)
Theorem werc20_keeps_value call (b0 : B) contract ro (s : PS) r s' :
  (forall m data args, Unpack api m data = Ok args -> Forall arg_ok args) ->
  registry_ok (store_of s) -> is_addr (ct_Caller contract) -> 0 < ct_Value contract -> ct_Caller contract <> Address tp ->
  GetAllowance (Address tp) (Address tp) (ct_Caller contract) (store_of s) = 0 ->
  (forall a d, GetBalance (w_bank (ps_world s)) a d = moved b0 (ct_Caller contract) (Address tp) (tp_Denom tp) (ct_Value contract) a d) ->
  SetupABI api (ct_Input contract) (ct_Value contract) ro (werc20_IsTransaction api m_Name) = Ok call ->
  pays_in api call.1 = false -> m_Name call.1 <> DepositMethod ->
  werc20_Execute GetDenom api m_Name denom denom tp contract ro s = (Ok r, s') ->
  GetBalance b0 (Address tp) (tp_Denom tp) + ct_Value contract <= GetBalance (w_bank (ps_world s')) (Address tp) (tp_Denom tp) /\
  erc20_Execute GetDenom api m_Name tp contract ro s = (Err ErrCannotReceiveFunds, s).
Proof.
  intros Habi Hok Hc Hv Hne Hal Hbal Hset Hpay Hdep H. split.
  2: { unfold erc20_Execute, mbind', mguard, mlift, oguard. by rewrite (proj2 (Z.ltb_lt 0 (ct_Value contract))). }
  assert (Hb : GetBalance b0 (Address tp) (tp_Denom tp) + ct_Value contract = GetBalance (w_bank (ps_world s)) (Address tp) (tp_Denom tp)).
  { rewrite Hbal. unfold moved. rewrite bool_decide_eq_false_2, bool_decide_eq_true_2 by naive_solver. lia. }
  rewrite Hb. clear Hb Hbal. unfold werc20_Execute in H. rewrite (mbind_lift _ _ _ _ Hset) in H.
  apply String.eqb_neq in Hdep. rewrite Hpay, Hdep in H. cbn [orb] in H. destruct (String.eqb (m_Name call.1) WithdrawMethod).
  - apply Withdraw_bank in H as ->. done.
  - apply no_allowance_no_spending with (owner := Address tp) in H; [done|done|done|apply self_addr| |done|done].
    by eapply SetupABI_args.
Qed.

(** A deposit returns exactly the value: every balance is as before the call. *)
Lemma deposit_returns_value (b0 : B) contract (s : PS) r s' :
  0 < ct_Value contract ->
  (forall a d, GetBalance (w_bank (ps_world s)) a d = moved b0 (ct_Caller contract) (Address tp) denom (ct_Value contract) a d) ->
  Deposit denom tp contract s = (Ok r, s') ->
  (forall a d, GetBalance (w_bank (ps_world s')) a d = GetBalance b0 a d) /\
  ps_events s' = ps_events s ++ [EvDeposit (Address tp) (ct_Caller contract) (ct_Value contract)].
Proof.
  intros Hv Hbal H. unfold Deposit in H. apply mbind_Ok in H as (v & s1 & Hi & H). apply mlift_Ok in Hi as [Hi ->].
  rewrite NewIntFromBigInt_spec in Hi. destruct (int_fits _); [|done]. injection Hi as <-. rewrite NewCoins_positive in H by done.
  apply mbind_Ok in H as ([] & s1 & Hs & H). apply on_world_Ok in Hs as (w & Hs & ->). unfold on_bank in Hs.
  destruct (bk_SendCoins _ _ _ _) as [r1 b] eqn:Hsend. injection Hs as -> <-. apply bk_SendCoins_ok in Hsend as [_ Hm].
  apply mbind_Ok in H as (? & s2 & [Hw He]%emit_Ok & H). apply mret_Ok in H as [_ ->]. split; [|by rewrite He].
  intros a d. rewrite Hw. cbn. rewrite Hm. unfold moved. rewrite Hbal. unfold moved. lia.
Qed.

(** Call data that matches no selector reaches the fallback, which deposits;
    its gas is not that of a deposit but none at all. *)
Lemma fallback_deposit_is_free contract ro (s : PS) e : 4 <= len (ct_Input contract) -> MethodById api (String.substring 0 4 (ct_Input contract)) = Err e ->
  HasFallback api = true -> m_Type api (abi_Fallback api) = Fallback -> ro = false ->
  werc20_RequiredGas api m_Name (ct_Input contract) = 0 /\
  werc20_Execute GetDenom api m_Name denom denom tp contract ro s = Deposit denom tp contract s.
Proof.
  intros Hl Hm Hf Ht ->. apply Z.ltb_ge in Hl as Hl'. split; [unfold werc20_RequiredGas; by rewrite Hl', Hm|].
  assert (Hs : SetupABI api (ct_Input contract) (ct_Value contract) false (werc20_IsTransaction api m_Name) = Ok (abi_Fallback api, None)).
  { unfold SetupABI, standardCallData. rewrite Hl', Hm, Hf, (proj2 (Z.eqb_neq _ 0)) by lia. cbn. by rewrite Ht. }
  unfold werc20_Execute. rewrite (mbind_lift _ _ _ _ Hs). unfold pays_in. cbn [fst]. by rewrite Ht.
Qed.
End value.
End theorems.

(** ** Witnesses *)

#[export] Instance ref_upper : UpperTables := {| ToUpper_wide := fun r => r |}.
#[export] Instance ref_ebank_send_laws : Erc20SendLaws ebank.
Proof.
  constructor; intros *.
  - intros H. pose proof (esend_moved _ _ _ _ _ _ H) as [H1 H2]. split; [|done]. cbn in *. unfold esend, one_coin, emove in H.
    destruct (amt <? 0); [done|]. destruct (Z.ltb_spec (eget b src d) amt); [done|lia].
  - apply esend_moved.
  - cbn. intros H%oguard_Ok. rewrite andb_true_r in H. lia.
Qed.

Abbreviation EState := (PState (B := ebank) (E := eevm) (G := unit)).
Definition t_alice : addr := "alice_______________".
Definition t_bob : addr := "bob_________________".
Definition t_carol : addr := "carol_______________".
Definition t_coin : addr := "coin-precompile-addr".
Definition t_pair : TokenPair := MkTokenPair (Address_Hex (EthCommon := ref_eth20) t_coin) "axtc" true OWNER_MODULE.
Definition t_denom (w : EWorld) (h : bytes) : option IbcDenom := None.
Definition t_store : Erc20Store := (SetToken (Eth := ref_eth20) t_pair empty_store).2.
Definition t_start : EState := MkPState (MkWorld t_store (EBank {[(t_alice, "axtc"%string) := 1000%N]} {["axtc"%string := 1000]} ∅) (EEvm ∅ ∅ ∅) tt) [].
Definition t_call (caller : addr) (method : string) (args : list abi_value) (s : EState) : outcome ret_value * EState :=
  HandleMethod (Eth := ref_eth20) t_denom t_pair caller method args s.
Definition t_approved : EState := (t_call t_alice "approve" [AAddress t_bob; ABigInt 300] t_start).2.
Definition t_spent : EState := (t_call t_bob "transferFrom" [AAddress t_alice; AAddress t_carol; ABigInt 100] t_approved).2.

Lemma t_start_ok : registry_ok (Eth := ref_eth20) (store_of t_start).
Proof.
  apply (SetToken_registry (Eth := ref_eth20) t_pair empty_store); [apply registry_ok_empty|vm_compute; reflexivity|done|vm_compute; reflexivity].
Qed.

Lemma t_approved_ok : registry_ok (Eth := ref_eth20) (store_of t_approved).
Proof.
  destruct (HandleMethod_refines (Eth := ref_eth20) t_denom t_pair t_alice "approve" [AAddress t_bob; ABigInt 300] t_start (RetBool true) t_approved)
    as (c & _ & t' & evs & _ & _ & _ & _ & H); [apply t_start_ok|done|by repeat constructor| |done].
  exact (run_returns (t_call t_alice "approve" [AAddress t_bob; ABigInt 300] t_start) (RetBool true) ltac:(vm_compute; reflexivity)).
Qed.

Lemma precompile_refines_token_witness :
  ps_events t_spent = [EvApproval t_coin t_alice t_bob 300; EvTransfer t_coin t_alice t_carol 100; EvApproval t_coin t_alice t_bob 200] /\
  exists t', token_call t_coin (spendable t_pair t_approved) t_bob (CTransferFrom t_alice t_carol 100) (token_of (Eth := ref_eth20) t_pair t_approved) =
    Some (t', [EvTransfer t_coin t_alice t_carol 100; EvApproval t_coin t_alice t_bob 200]) /\ token_of (Eth := ref_eth20) t_pair t_spent ≡ t'.
Proof.
  split; [vm_compute; reflexivity|].
  destruct (precompile_refines_token (Eth := ref_eth20) t_denom t_pair t_bob "transferFrom" [AAddress t_alice; AAddress t_carol; ABigInt 100]
    t_approved (RetBool true) t_spent t_approved_ok eq_refl ltac:(by repeat constructor) 
    (run_returns (t_call t_bob "transferFrom" [AAddress t_alice; AAddress t_carol; ABigInt 100] t_approved) (RetBool true) ltac:(vm_compute; reflexivity)))
    as (c & t' & evs & Hc & Hcall & Heq & Hev & _). injection Hc as <-. exists t'.
  split; [|done]. replace evs with [EvTransfer t_coin t_alice t_carol 100; EvApproval t_coin t_alice t_bob 200] in Hcall; [exact Hcall|].
  apply (app_inv_head (ps_events t_approved)). rewrite <- Hev. vm_compute. reflexivity.
Defined.

Lemma allowances_limit_spending_witness :
  tk_balance (token_of (Eth := ref_eth20) t_pair t_spent) t_alice = 900 /\
  tk_balance (token_of (Eth := ref_eth20) t_pair t_approved) t_alice - total (tk_allowance (token_of (Eth := ref_eth20) t_pair t_approved) t_alice) [t_bob]
    <= tk_balance (token_of (Eth := ref_eth20) t_pair t_spent) t_alice.
Proof.
  split; [vm_compute; reflexivity|].
  refine (proj2 (allowances_limit_spending (Eth := ref_eth20) t_denom t_pair t_alice [t_bob] t_approved t_spent _ _ _ _ t_approved_ok _)).
  - by apply NoDup_singleton.
  - by repeat constructor.
  - done.
  - by rewrite list_elem_of_singleton.
  - apply rtc_once. exists t_bob, "transferFrom"%string, [AAddress t_alice; AAddress t_carol; ABigInt 100], (RetBool true).
    split; [by rewrite list_elem_of_singleton|]. split; [done|]. split; [by repeat constructor|].
    exact (run_returns (t_call t_bob "transferFrom" [AAddress t_alice; AAddress t_carol; ABigInt 100] t_approved) (RetBool true) ltac:(vm_compute; reflexivity)).
Defined.

(** An interface with two functions, whose names are their selectors. *)
Definition t_api : ABI (list abi_value) := {|
  Method := string;
  m_Type := fun _ => Function;
  HasReceive := false;
  HasFallback := false;
  abi_Receive := EmptyString;
  abi_Fallback := EmptyString;
  MethodById := fun b => if String.eqb b "with" then Ok WithdrawMethod else if String.eqb b "depo" then Ok DepositMethod else Err "no method with id";
  Unpack := fun _ _ => Ok [ABigInt 5];
|}.
Definition t_bank : ebank := EBank {[(t_alice, "axtc"%string) := 1000%N]} {["axtc"%string := 1000]} ∅.
Definition t_paid : EState := MkPState (MkWorld t_store (esend t_alice t_coin [MkCoin "axtc" 40] t_bank).2 (EEvm ∅ ∅ ∅) tt) [].
Definition t_contract : Contract := MkContract t_alice "with"%string 40.
Definition t_withdraw : outcome ret_value * EState :=
  werc20_Execute (Eth := ref_eth20) t_denom t_api (fun m => m) "axtc" "axtc" t_pair t_contract false t_paid.
Lemma werc20_keeps_value_witness : t_withdraw.1 = Ok RetNone /\
  GetBalance t_bank (Address (Eth := ref_eth20) t_pair) (tp_Denom t_pair) + ct_Value t_contract <=
    GetBalance (w_bank (ps_world t_withdraw.2)) (Address (Eth := ref_eth20) t_pair) (tp_Denom t_pair).
Proof.
  split; [vm_compute; reflexivity|].
  refine (proj1 (werc20_keeps_value (Eth := ref_eth20) t_denom t_pair t_api (fun m => m) "axtc" (WithdrawMethod, Some [ABigInt 5]) t_bank t_contract false t_paid RetNone t_withdraw.2
    _ t_start_ok eq_refl eq_refl _ _ _ _ eq_refl _ _)).
  - intros m data args [= <-]. by repeat constructor.
  - done.
  - vm_compute. reflexivity.
  - exact (proj2 (esend_moved _ _ _ _ _ _ (run_returns (esend t_alice t_coin [MkCoin "axtc" 40] t_bank) tt ltac:(vm_compute; reflexivity)))).
  - vm_compute. reflexivity.
  - done.
  - exact (run_returns t_withdraw RetNone ltac:(vm_compute; reflexivity)).
Defined.
