(* ===== verification/VmGenesis.v ===== *)
(** * x/vm: parameters, precompile lookup, preinstalls and genesis

    params.go, preinstall.go, storage.go, genesis.go, precompiles.go, config.go
    and configurator.go of src/x/vm/types; params.go, coin_info.go,
    preinstalls.go, static_precompiles.go, precompiles.go and the governance
    messages of msg_server.go of src/x/vm/keeper; genesis.go and the globals of
    module.go of src/x/vm; src/precompiles/types, and the genesis of
    src/evmd/genesis.go. The store is that of VmKeeper.v; the process-wide
    variables are a state of their own. *)

From Stdlib Require Import ZArith Lia List String Ascii Bool.
From stdpp Require Import base gmap strings list sorting.
From S2P Require Import Prelude GoStrings Sdk EvmCoin AccessList StateDB Precompile VmKeeper Permissions Erc20Types Erc20Keeper.
Local Open Scope Z_scope.
Local Open Scope go_scope.

(** ** The data *)

Record EvmParams := MkEvmParams {
  ep_EvmDenom : string;
  ep_ExtraEIPs : list Z;
  ep_EVMChannels : list string;
  ep_AccessControl : AccessControl;
  ep_ActiveStaticPrecompiles : list string;
  ep_HistoryServeWindow : Z;
  ep_ExtendedDenomOptions : option string;
}.
Definition zero_params : EvmParams :=
  MkEvmParams EmptyString [] [] (MkAccessControl (MkAccessControlType AccessTypePermissionless []) (MkAccessControlType AccessTypePermissionless [])) [] 0 None.
Definition with_precompiles (l : list string) (p : EvmParams) : EvmParams :=
  MkEvmParams (ep_EvmDenom p) (ep_ExtraEIPs p) (ep_EVMChannels p) (ep_AccessControl p) l (ep_HistoryServeWindow p) (ep_ExtendedDenomOptions p).
Definition with_eips (l : list Z) (p : EvmParams) : EvmParams :=
  MkEvmParams (ep_EvmDenom p) l (ep_EVMChannels p) (ep_AccessControl p) (ep_ActiveStaticPrecompiles p) (ep_HistoryServeWindow p) (ep_ExtendedDenomOptions p).

Record StorageState := MkStorageState { ss_Key : string; ss_Value : string }.
Record GenesisAccount := MkGenesisAccount { ga_Address : string; ga_Code : string; ga_Storage : list StorageState }.
Record Preinstall := MkPreinstall { pi_Name : string; pi_Address : string; pi_Code : string }.
Record EvmGenesis := MkEvmGenesis { eg_Accounts : list GenesisAccount; eg_Params : EvmParams; eg_Preinstalls : list Preinstall }.

(** ** The libraries

    go-ethereum's hex functions and tables, ibc-go's identifiers, and the
    protobuf codec of what the module stores. *)
Class VmLibs := {
  ValidEip : Z -> bool;
  ChannelIdentifierValidator : string -> outcome unit;
  PrecompiledAddressesPrague : list addr;
  Hex2Bytes : string -> bytes;
  Bytes2Hex : bytes -> string;
  FromHex : string -> bytes;
  HexToHash : string -> hash;
  vp_Marshal : EvmParams -> outcome bytes;
  vp_Unmarshal : bytes -> outcome EvmParams;
  ci_Marshal : EvmCoinInfo -> outcome bytes;
  ci_Unmarshal : bytes -> outcome EvmCoinInfo;
  DefaultBondDenom : string;
  HistoryStorageAddress : addr;
  HistoryStorageCode : bytes;
}.

(** The bank's metadata. *)
Class BankMetadata (W : Type) := { md_Get : W -> string -> option Metadata }.

(** ** params.go and storage.go of the types *)

Definition DefaultAccessControl : AccessControl :=
  MkAccessControl (MkAccessControlType AccessTypePermissionless []) (MkAccessControlType AccessTypePermissionless []).

Section types.
Context {Eth : EthCommon} {Cr : EthCrypto} {Vl : VmLibs}.

(** [DefaultExtraEIPs] is a variable that configuration extends. *)
Definition vm_DefaultParams (DefaultExtraEIPs : list Z) : EvmParams :=
  MkEvmParams DefaultBondDenom DefaultExtraEIPs [] DefaultAccessControl [] DefaultHistoryServeWindow (Some DefaultBondDenom).

Fixpoint validateChannels (channels : list string) : outcome unit :=
  match channels with
  | [] => Ok tt
  | c :: rest => odo owrap "invalid channel identifier" (ChannelIdentifierValidator c); validateChannels rest
  end.

Fixpoint validate_eips (seen : gset Z) (eips : list Z) : outcome unit :=
  match eips with
  | [] => Ok tt
  | e :: rest =>
    odo oguard (ValidEip e) "EIP is not activateable";
    odo oguard (bool_decide (e ∉ seen)) "found duplicate EIP";
    validate_eips ({[e]} ∪ seen) rest
  end.
Definition validateEIPs (eips : list Z) : outcome unit := validate_eips ∅ eips.

Fixpoint validate_precompiles (seen : gset string) (l : list string) : outcome unit :=
  match l with
  | [] => Ok tt
  | p :: rest =>
    odo oguard (bool_decide (p ∉ seen)) ("duplicate precompile " +:+ p)%string;
    odo oguard (is_ok (ValidateAddress p)) ("invalid precompile " +:+ p)%string;
    validate_precompiles ({[p]} ∪ seen) rest
  end.
(** [slices.IsSorted]: no element is smaller than the one before it. *)
Fixpoint IsSorted (l : list string) : bool :=
  match l with
  | x :: ((y :: _) as rest) => String.leb x y && IsSorted rest
  | _ => true
  end.
Definition ValidatePrecompiles (l : list string) : outcome unit :=
  odo validate_precompiles ∅ l;
  oguard (IsSorted l) "precompiles need to be sorted".

Definition EvmParams_Validate (p : EvmParams) : outcome unit :=
  odo validateEIPs (ep_ExtraEIPs p);
  odo ValidatePrecompiles (ep_ActiveStaticPrecompiles p);
  odo AccessControl_Validate (ep_AccessControl p);
  validateChannels (ep_EVMChannels p).

Definition IsEVMChannel (p : EvmParams) (channel : string) : bool := bool_decide (channel ∈ ep_EVMChannels p).

Definition State_Validate (s : StorageState) : outcome unit :=
  oguard (negb (String.eqb (TrimSpace (ss_Key s)) EmptyString)) "state key hash cannot be blank: invalid state".
Fixpoint storage_validate (seen : gset string) (l : list StorageState) : outcome unit :=
  match l with
  | [] => Ok tt
  | s :: rest =>
    odo oguard (bool_decide (ss_Key s ∉ seen)) "duplicate state key: invalid state";
    odo State_Validate s;
    storage_validate ({[ss_Key s]} ∪ seen) rest
  end.
Definition Storage_Validate (l : list StorageState) : outcome unit := storage_validate ∅ l.
Definition NewState (key value : hash) : StorageState := MkStorageState (Hash_Hex key) (Hash_Hex value).

(** ** preinstall.go and genesis.go of the types *)

Definition Preinstall_Validate (p : Preinstall) : outcome unit :=
  odo oguard (negb (String.eqb (pi_Address p) EmptyString)) "preinstall address cannot be empty";
  odo oguard (IsHexAddress (pi_Address p)) "preinstall address is not a valid hex address";
  odo oguard (negb (String.eqb (pi_Code p) EmptyString)) "preinstall code cannot be empty";
  let codeStr := if has_prefix "0x" (pi_Code p) || has_prefix "0X" (pi_Code p) then drop_bytes 2 (pi_Code p) else pi_Code p in
  odo oguard (bool_decide (is_Some (hex_decode codeStr))) "preinstall code is not a valid hex string";
  oguard (negb (IsEmptyCodeHash (Keccak256Hash [FromHex (pi_Code p)]))) "preinstall code has empty code hash".

Definition GenesisAccount_Validate (ga : GenesisAccount) : outcome unit :=
  odo ValidateAddress (ga_Address ga);
  Storage_Validate (ga_Storage ga).

Fixpoint validate_accounts (seen : gset string) (l : list GenesisAccount) : outcome (gset string) :=
  match l with
  | [] => Ok seen
  | a :: rest =>
    odo oguard (bool_decide (ga_Address a ∉ seen)) "duplicated genesis account";
    odo owrap "invalid genesis account" (GenesisAccount_Validate a);
    validate_accounts ({[ga_Address a]} ∪ seen) rest
  end.
Fixpoint validate_preinstalls (accounts seen : gset string) (l : list Preinstall) : outcome unit :=
  match l with
  | [] => Ok tt
  | p :: rest =>
    odo oguard (bool_decide (pi_Address p ∉ seen)) "duplicated preinstall address";
    odo owrap "invalid preinstall" (Preinstall_Validate p);
    odo oguard (bool_decide (pi_Address p ∉ accounts)) "preinstall address conflicts with genesis account";
    validate_preinstalls accounts ({[pi_Address p]} ∪ seen) rest
  end.
Definition EvmGenesis_Validate (gs : EvmGenesis) : outcome unit :=
  olet accounts <- validate_accounts ∅ (eg_Accounts gs);
  odo validate_preinstalls accounts ∅ (eg_Preinstalls gs);
  EvmParams_Validate (eg_Params gs).

Definition vm_DefaultGenesisState (DefaultExtraEIPs : list Z) : EvmGenesis := MkEvmGenesis [] (vm_DefaultParams DefaultExtraEIPs) [].
End types.

(** ** precompiles.go of the types, src/precompiles/types *)

Definition P256PrecompileAddress : string := "0x0000000000000000000000000000000000000100".
Definition Bech32PrecompileAddress : string := "0x0000000000000000000000000000000000000400".
Definition StakingPrecompileAddress : string := "0x0000000000000000000000000000000000000800".
Definition DistributionPrecompileAddress : string := "0x0000000000000000000000000000000000000801".
Definition ICS20PrecompileAddress : string := "0x0000000000000000000000000000000000000802".
Definition VestingPrecompileAddress : string := "0x0000000000000000000000000000000000000803".
Definition BankPrecompileAddress : string := "0x0000000000000000000000000000000000000804".
Definition GovPrecompileAddress : string := "0x0000000000000000000000000000000000000805".
Definition SlashingPrecompileAddress : string := "0x0000000000000000000000000000000000000806".
Definition ICS02PrecompileAddress : string := "0x0000000000000000000000000000000000000807".
Definition AvailableStaticPrecompiles : list string :=
  [P256PrecompileAddress; Bech32PrecompileAddress; StakingPrecompileAddress; DistributionPrecompileAddress; ICS20PrecompileAddress;
   VestingPrecompileAddress; BankPrecompileAddress; GovPrecompileAddress; SlashingPrecompileAddress; ICS02PrecompileAddress].

(** What runs at an address that is not a contract. *)
Inductive StaticPrecompile :=
| PragueP (a : addr) | P256P | Bech32P | StakingP | DistributionP | ICS02P | ICS20P | BankP | GovP (allowSubmit : bool) | SlashingP.

Section static.
Context {Eth : EthCommon} {Vl : VmLibs}.

Definition static_Address (p : StaticPrecompile) : addr :=
  match p with
  | PragueP a => a
  | P256P => HexToAddress P256PrecompileAddress
  | Bech32P => HexToAddress Bech32PrecompileAddress
  | StakingP => HexToAddress StakingPrecompileAddress
  | DistributionP => HexToAddress DistributionPrecompileAddress
  | ICS02P => HexToAddress ICS02PrecompileAddress
  | ICS20P => HexToAddress ICS20PrecompileAddress
  | BankP => HexToAddress BankPrecompileAddress
  | GovP _ => HexToAddress GovPrecompileAddress
  | SlashingP => HexToAddress SlashingPrecompileAddress
  end.

Abbreviation StaticPrecompiles := (gmap addr StaticPrecompile).
Definition NewStaticPrecompiles : StaticPrecompiles := ∅.
Definition WithPraguePrecompiles (s : StaticPrecompiles) : StaticPrecompiles :=
  foldl (fun m a => <[a := PragueP a]> m) s PrecompiledAddressesPrague.
(** The nine builders each store their precompile under its address. *)
Definition WithPrecompile (p : StaticPrecompile) (s : StaticPrecompiles) : StaticPrecompiles := <[static_Address p := p]> s.
Definition DefaultStaticPrecompiles (allowGovSubmit : bool) : StaticPrecompiles :=
  foldl (fun m p => WithPrecompile p m) (WithPraguePrecompiles NewStaticPrecompiles)
    [P256P; Bech32P; StakingP; DistributionP; ICS02P; ICS20P; BankP; GovP allowGovSubmit; SlashingP].

(** ** static_precompiles.go of the keeper *)

(** The keeper's map; [None] before it is set. *)
Definition WithStaticPrecompiles (precompiles : StaticPrecompiles) : M (option StaticPrecompiles) unit := fun k =>
  match k with
  | Some _ => (Panic "available precompiles map already set", k)
  | None => if bool_decide (precompiles = ∅) then (Panic "empty precompiled contract map", k) else (Ok tt, Some precompiles)
  end.
Definition RegisterStaticPrecompile (address : addr) (p : StaticPrecompile) (k : option StaticPrecompiles) : option StaticPrecompiles :=
  Some (<[address := p]> (default ∅ k)).

Definition IsAvailableStaticPrecompile (params : EvmParams) (address : addr) : bool :=
  bool_decide (Address_Hex address ∈ ep_ActiveStaticPrecompiles params) || bool_decide (address ∈ PrecompiledAddressesPrague).
Definition GetStaticPrecompileInstance (k : option StaticPrecompiles) (params : EvmParams) (address : addr) : outcome (option StaticPrecompile) :=
  if IsAvailableStaticPrecompile params address then
    match default ∅ k !! address with
    | None => Panic ("precompiled contract not stored in memory: " +:+ Address_Hex address)%string
    | Some p => Ok (Some p)
    end
  else Ok None.
End static.

(** ** precompiles.go of the keeper *)

Inductive Precompiled := PStatic (p : StaticPrecompile) | PDynamic (i : PrecompileInstance).
Record Precompiles := MkPrecompiles { pr_Map : gmap addr Precompiled; pr_Addresses : list addr }.

(** The parts of the EVM a call hook changes. *)
Record HookEvm := MkHookEvm { he_precompiles : gmap addr Precompiled; he_accessList : accessList }.

Section lookup.
Context {Ty : SdkTypes} {Eth : EthCommon} {Vl : VmLibs}.

Definition instance_pair (i : PrecompileInstance) : TokenPair := match i with Erc20Instance p | Werc20Instance p => p end.
Definition precompiled_Address (p : Precompiled) : addr :=
  match p with PStatic s => static_Address s | PDynamic i => GetERC20Contract (instance_pair i) end.
Definition single (address : addr) (p : Precompiled) : Precompiles := MkPrecompiles {[address := p]} [precompiled_Address p].

(** [erc20] is the store of the optional ERC-20 keeper. *)
Definition GetPrecompileInstance (k : option (gmap addr StaticPrecompile)) (params : EvmParams) (erc20 : option Erc20Store) (address : addr)
    : outcome (option Precompiles) :=
  olet static <- GetStaticPrecompileInstance k params address;
  match static with
  | Some p => Ok (Some (single address (PStatic p)))
  | None =>
    match erc20 with
    | None => Ok None
    | Some st =>
      olet dynamic <- GetERC20PrecompileInstance address st;
      match dynamic with None => Ok None | Some i => Ok (Some (single address (PDynamic i))) end
    end
  end.

Definition AddAddressToAccessList (a : addr) (e : HookEvm) : HookEvm := MkHookEvm (he_precompiles e) (al_AddAddress (he_accessList e) a).2.
Definition evm_WithPrecompiles (m : gmap addr Precompiled) (e : HookEvm) : HookEvm := MkHookEvm m (he_accessList e).

Definition GetPrecompilesCallHook k params erc20 (recipient : addr) : M HookEvm unit :=
  let! found <- mlift (GetPrecompileInstance k params erc20 recipient);
  match found with
  | None => mret tt
  | Some p => do! mmodify (evm_WithPrecompiles (pr_Map p)); mmodify (AddAddressToAccessList recipient)
  end.
Definition GetPrecompileRecipientCallHook (erc20 : option Erc20Store) (recipient : addr) : M HookEvm unit :=
  let! active <- mreads (fun e => bool_decide (is_Some (he_precompiles e !! recipient)));
  if active then mmodify (AddAddressToAccessList recipient)
  else match erc20 with
  | None => mret tt
  | Some st =>
    let! found <- mlift (GetERC20PrecompileInstance recipient st);
    match found with
    | None => mret tt
    | Some i => do! mmodify (evm_WithPrecompiles {[recipient := PDynamic i]}); mmodify (AddAddressToAccessList recipient)
    end
  end.
End lookup.

(** ** The process-wide variables: denom_config.go, config.go, module.go

    [D] are the variables of the SDK and of go-ethereum: the registered
    denominations and the table of activators. *)
Class GlobalLibs (D : Type) := {
  sdk_RegisterDenom : string -> Z -> M D unit;     (* the unit is 10 to minus this *)
  sdk_SetBaseDenom : string -> M D unit;
  vm_ExtendActivators : list Z -> M D unit;
}.
Record Globals (D : Type) := MkGlobals {
  gl_coinInfo : option EvmCoinInfo;
  gl_once : bool;                                  (* the module's sync.Once *)
  gl_extraEIPs : list Z;                           (* DefaultExtraEIPs *)
  gl_libs : D;
}.
Arguments MkGlobals {D}.
Arguments gl_coinInfo {D}.
Arguments gl_once {D}.
Arguments gl_extraEIPs {D}.
Arguments gl_libs {D}.

Record EVMConfigurator := MkEVMConfigurator {
  ec_sealed : bool;
  ec_extendedEIPs : list Z;
  ec_extendedDefaultExtraEIPs : list Z;
  ec_evmCoinInfo : EvmCoinInfo;
}.
Definition NewEVMConfigurator : EVMConfigurator := MkEVMConfigurator false [] [] (MkEvmCoinInfo EmptyString EmptyString EmptyString 0).
Definition WithExtendedEips l (ec : EVMConfigurator) := MkEVMConfigurator (ec_sealed ec) l (ec_extendedDefaultExtraEIPs ec) (ec_evmCoinInfo ec).
Definition WithExtendedDefaultExtraEIPs l (ec : EVMConfigurator) := MkEVMConfigurator (ec_sealed ec) (ec_extendedEIPs ec) l (ec_evmCoinInfo ec).
Definition WithEVMCoinInfo i (ec : EVMConfigurator) := MkEVMConfigurator (ec_sealed ec) (ec_extendedEIPs ec) (ec_extendedDefaultExtraEIPs ec) i.
(** The keys of [DefaultCosmosEVMActivators]. *)
Definition DefaultCosmosEVMActivators : list Z := [0; 1; 2].

Section globals.
Context {Ty : SdkTypes} {D : Type} {Gl : GlobalLibs D}.
Abbreviation MG := (M (Globals D)).

Definition on_libs {A} (m : M D A) : MG A := fun g =>
  let (r, d) := m (gl_libs g) in (r, MkGlobals (gl_coinInfo g) (gl_once g) (gl_extraEIPs g) d).
Definition on_coinInfo {A} (m : option EvmCoinInfo -> outcome A * option EvmCoinInfo) : MG A := fun g =>
  let (r, i) := m (gl_coinInfo g) in (r, MkGlobals i (gl_once g) (gl_extraEIPs g) (gl_libs g)).

Fixpoint extendDefaultExtraEIPs (extraEIPs : list Z) : MG unit :=
  match extraEIPs with
  | [] => mret tt
  | eip :: rest =>
    let! present <- mreads (fun g => bool_decide (eip ∈ gl_extraEIPs g));
    do! mguard (negb present) "error configuring EVMConfigurator: EIP is already present in the default list";
    do! mmodify (fun g => MkGlobals (gl_coinInfo g) (gl_once g) (gl_extraEIPs g ++ [eip]) (gl_libs g));
    extendDefaultExtraEIPs rest
  end.

(** The configurator, sealed. *)
Definition Configure (ec : EVMConfigurator) : MG EVMConfigurator :=
  do! mguard (negb (ec_sealed ec)) "error configuring EVMConfigurator: already sealed and cannot be modified";
  do! on_coinInfo (setCoinInfo (ec_evmCoinInfo ec));
  do! extendDefaultExtraEIPs (ec_extendedDefaultExtraEIPs ec);
  do! on_libs (vm_ExtendActivators (ec_extendedEIPs ec));
  mret (MkEVMConfigurator true (ec_extendedEIPs ec) (ec_extendedDefaultExtraEIPs ec) (ec_evmCoinInfo ec)).

(** The deferred [SetBaseDenom] decides the error; a panic goes through it. *)
Definition setBaseDenom (ci : EvmCoinInfo) : M D unit := fun d =>
  match (do! sdk_RegisterDenom (ci_DisplayDenom ci) 0; sdk_RegisterDenom (ci_Denom ci) (ci_Decimals ci)) d with
  | (Panic p, d') => let (_, d'') := sdk_SetBaseDenom (ci_Denom ci) d' in (Panic p, d'')
  | (_, d') => sdk_SetBaseDenom (ci_Denom ci) d'
  end.

(** An error is turned into a panic. *)
Definition or_panic {S A} (m : M S A) : M S A := fun s =>
  match m s with (Err e, s') => (Panic e, s') | r => r end.

Definition SetGlobalConfigVariables (coinInfo : EvmCoinInfo) : MG unit :=
  do! or_panic (on_libs (setBaseDenom coinInfo));
  do! or_panic (Configure (WithEVMCoinInfo coinInfo (WithExtendedEips DefaultCosmosEVMActivators NewEVMConfigurator)));
  mret tt.

(** [initializer.Do]: the first call runs the function, and counts even when it
    panics. *)
Definition once_Do (f : MG unit) : MG unit := fun g =>
  if gl_once g then (Ok tt, g)
  else let (r, g') := f g in (r, MkGlobals (gl_coinInfo g') true (gl_extraEIPs g') (gl_libs g')).
End globals.

(** ** The keeper and genesis *)

Record VmWorld (W D : Type) := MkVmWorld { vw_state : VmState W; vw_globals : Globals D }.
Arguments MkVmWorld {W D}.
Arguments vw_state {W D}.
Arguments vw_globals {W D}.

Definition KeyPrefixParams : bytes := String (chr 3) EmptyString.
Definition KeyPrefixEvmCoinInfo : bytes := String (chr 5) EmptyString.

Section keeper.
Context {Ty : SdkTypes} {Eth : EthCommon} {Cr : EthCrypto} {Vl : VmLibs}.
Context {W D : Type} {Ab : AuthBank W} {Bm : BankMetadata W} {Gl : GlobalLibs D}.
Abbreviation MV := (M (VmState W)).
Abbreviation MW := (M (VmWorld W D)).

(** *** params.go *)

Definition must {A} (r : outcome A) : outcome A := match r with Err e => Panic e | r => r end.

Definition vm_GetParams (k : VmState W) : outcome EvmParams :=
  match vk_store k !! KeyPrefixParams with
  | None => Ok zero_params
  | Some bz => must (vp_Unmarshal bz)
  end.
Definition vm_SetParams (params : EvmParams) : MV unit :=
  let params := with_precompiles (sort_Strings (ep_ActiveStaticPrecompiles params)) params in
  do! mlift (EvmParams_Validate params);
  let! bz <- mlift (vp_Marshal params);
  mmodify (fun k => set_store (<[KeyPrefixParams := bz]> (vk_store k)) k).

Fixpoint hex_addresses (existing : list string) (addresses : list addr) : outcome (list string) :=
  match addresses with
  | [] => Ok []
  | a :: rest =>
    odo oguard (bool_decide (Address_Hex a ∉ existing)) ("precompile already registered: " +:+ Address_Hex a)%string;
    olet l <- hex_addresses existing rest;
    Ok (Address_Hex a :: l)
  end.
Definition appendPrecompiles (existing : list string) (addresses : list addr) : outcome (list string) :=
  olet hexAddresses <- hex_addresses existing addresses;
  Ok (sort_Strings (existing ++ hexAddresses)).
Definition EnableStaticPrecompiles (addresses : list addr) : MV unit :=
  let! params <- mtry vm_GetParams;
  let! updated <- mlift (appendPrecompiles (ep_ActiveStaticPrecompiles params) addresses);
  vm_SetParams (with_precompiles updated params).
Definition EnableEIPs (eips : list Z) : MV unit :=
  let! params <- mtry vm_GetParams;
  vm_SetParams (with_eips (merge_sort Z.le (ep_ExtraEIPs params ++ eips)) params).

(** *** coin_info.go *)

(** The last unit named as the display one decides. *)
Definition display_decimals (md : Metadata) : Z :=
  foldl (fun d u => if String.eqb (du_Denom u) (md_Display md) then du_Exponent u else d) 0 (md_DenomUnits md).
Definition LoadEvmCoinInfo (k : VmState W) : outcome EvmCoinInfo :=
  olet params <- vm_GetParams k;
  match md_Get (vk_world k) (ep_EvmDenom params) with
  | None => Err ("denom metadata " +:+ ep_EvmDenom params +:+ " could not be found")%string
  | Some md =>
    let decimals := display_decimals md in
    olet extendedDenom <-
      (if decimals =? 18 then Ok (ep_EvmDenom params)
       else match ep_ExtendedDenomOptions params with
            | None => Err "extended denom options cannot be nil for non-18-decimal chains"
            | Some d => Ok d
            end);
    Ok (MkEvmCoinInfo (ep_EvmDenom params) extendedDenom (md_Display md) decimals)
  end.
Definition SetEvmCoinInfo (coinInfo : EvmCoinInfo) : MV unit :=
  let! bz <- mlift (ci_Marshal coinInfo);
  mmodify (fun k => set_store (<[KeyPrefixEvmCoinInfo := bz]> (vk_store k)) k).
Definition InitEvmCoinInfo : MV unit :=
  let! coinInfo <- mtry LoadEvmCoinInfo;
  SetEvmCoinInfo coinInfo.
(** The stored information, or the global one. *)
Definition vm_GetEvmCoinInfo (global : option EvmCoinInfo) (k : VmState W) : outcome EvmCoinInfo :=
  match vk_store k !! KeyPrefixEvmCoinInfo with
  | None => getCoinInfo global
  | Some bz => must (ci_Unmarshal bz)
  end.

(** *** preinstalls.go *)

Definition ErrInvalidPreinstall : string := "invalid preinstall".
Definition auth_Create (a : addr) (k : VmState W) : VmState W :=
  let (acct, w) := auth_NewAccount a (vk_world k) in set_world (auth_SetAccount a acct w) k.

Definition AddPreinstall (p : Preinstall) : MV unit :=
  let address := HexToAddress (pi_Address p) in
  do! mguard (negb (len (pi_Code p) =? 0)) ErrInvalidPreinstall;
  let codeHash := Keccak256Hash [FromHex (pi_Code p)] in
  do! mguard (negb (IsEmptyCodeHash codeHash)) ErrInvalidPreinstall;
  let! existing <- mreads (fun k => vk_GetCodeHash k address);
  do! mguard (IsEmptyCodeHash existing || String.eqb existing codeHash) ErrInvalidPreinstall;
  let! acc <- mreads (fun k => auth_GetAccount (vk_world k) address);
  do! mguard (bool_decide (acc = None)) ErrInvalidPreinstall;
  do! mmodify (auth_Create address);
  do! mmodify (vk_SetCodeHash address codeHash);
  mmodify (vk_SetCode codeHash (FromHex (pi_Code p))).
Fixpoint AddPreinstalls (l : list Preinstall) : MV unit :=
  match l with
  | [] => mret tt
  | p :: rest => do! AddPreinstall p; AddPreinstalls rest
  end.

(** *** msg_server.go *)

Definition vm_UpdateParams (ctx : Ctx) (authority : string) (req_authority : string) (params : EvmParams) : MV unit :=
  do! mlift (ValidateAuthority ctx authority req_authority);
  vm_SetParams params.
Definition RegisterPreinstalls (ctx : Ctx) (authority : string) (req_authority : string) (preinstalls : list Preinstall) : MV unit :=
  do! mlift (ValidateAuthority ctx authority req_authority);
  AddPreinstalls preinstalls.
(** [ValidateBasic] of the first message; the second has none. *)
Definition MsgUpdateParams_ValidateBasic (authority : string) (params : EvmParams) : outcome unit :=
  odo owrap "invalid authority address" (olet _ <- AccAddressFromBech32 authority; Ok tt);
  EvmParams_Validate params.

(** *** x/vm/genesis.go *)

Definition on_state {A} (m : MV A) : MW A := fun w => let (r, k) := m (vw_state w) in (r, MkVmWorld k (vw_globals w)).
Definition on_globals {A} (m : M (Globals D) A) : MW A := fun w => let (r, g) := m (vw_globals w) in (r, MkVmWorld (vw_state w) g).

Definition InitAccount (account : GenesisAccount) : MV unit :=
  let address := HexToAddress (ga_Address account) in
  let! acc <- mreads (fun k => auth_GetAccount (vk_world k) address);
  match acc with
  | None => mlift (Panic ("account not found for address " +:+ ga_Address account)%string)
  | Some _ =>
    let code := Hex2Bytes (ga_Code account) in
    let codeHash := Keccak256Hash [code] in
    do! (if negb (IsEmptyCodeHash codeHash) then mmodify (vk_SetCodeHash address codeHash) else mret tt);
    do! (if negb (len code =? 0) then mmodify (vk_SetCode codeHash code) else mret tt);
    mmodify (fun k => foldl (fun k s => vk_SetState address (HexToHash (ss_Key s)) (HexToHash (ss_Value s)) k) k (ga_Storage account))
  end.
Fixpoint init_accounts (l : list GenesisAccount) : MV unit :=
  match l with
  | [] => mret tt
  | a :: rest => do! InitAccount a; init_accounts rest
  end.

(** [moduleAddress] is the account keeper's address of the module. *)
Definition vm_InitGenesis (moduleAddress : option addr) (data : EvmGenesis) : MW unit :=
  do! or_panic (on_state (vm_SetParams (eg_Params data)));
  do! (if bool_decide (moduleAddress = None) then mlift (Panic "the EVM module account has not been set") else mret tt);
  do! on_state (init_accounts (eg_Accounts data));
  do! or_panic (on_state InitEvmCoinInfo);
  let! coinInfo <- mtry (fun w => vm_GetEvmCoinInfo (gl_coinInfo (vw_globals w)) (vw_state w));
  do! on_globals (once_Do (SetGlobalConfigVariables coinInfo));
  or_panic (on_state (AddPreinstalls (eg_Preinstalls data))).

Definition vm_ExportGenesis (k : VmState W) : outcome EvmGenesis :=
  let account := fun '(address, codeHash) =>
    MkGenesisAccount (Address_Hex address) (Bytes2Hex (default EmptyString (vk_GetCode k codeHash)))
      (map (fun '(key, value) => NewState key value) (vk_GetAccountStorage k address)) in
  olet params <- vm_GetParams k;
  Ok (MkEvmGenesis (map account (vk_IterateContracts k)) params []).

(** *** x/vm/module.go *)

Definition hydrateGlobals : MW unit :=
  let! coinInfo <- mtry (fun w => vm_GetEvmCoinInfo (gl_coinInfo (vw_globals w)) (vw_state w));
  on_globals (once_Do (SetGlobalConfigVariables coinInfo)).
Definition HydrateGlobals (ctx : Ctx) : MW unit := if 1 <? BlockHeight ctx then hydrateGlobals else mret tt.
Definition vm_PreBlock : MW unit := hydrateGlobals.
End keeper.

(** ** src/evmd/genesis.go *)

Section evmd.
Context {Eth : EthCommon} {Vl : VmLibs}.
(** The code of the first and the fourth preinstall; that of Multicall3 and of
    Permit2 is long and left as an argument. *)
Definition DefaultPreinstalls (multicall3 permit2 : string) : list Preinstall :=
  let create2 := "0x7fffffffffffffffffffffffffffffffffffffffffffffffffffffffffffffffe03601600081602082378035828234f58015156039578182fd5b8082525050506014600cf3"%string in
  [MkPreinstall "Create2" "0x4e59b44847b379578588920ca78fbf26c0b4956c" create2;
   MkPreinstall "Multicall3" "0xcA11bde05977b3631167028862bE2a173976CA11" multicall3;
   MkPreinstall "Permit2" "0x000000000022D473030F116dDEE9F6B43aC78BA3" permit2;
   MkPreinstall "Safe singleton factory" "0x914d7Fec6aaC8cd542e72Bca78B30650d45643d7" create2;
   MkPreinstall "EIP-2935 - Serve historical block hashes from state" (Address_Hex HistoryStorageAddress) (Bytes2Hex HistoryStorageCode)].
Definition NewEVMGenesisState (DefaultExtraEIPs : list Z) (multicall3 permit2 : string) : EvmGenesis :=
  let gs := vm_DefaultGenesisState DefaultExtraEIPs in
  MkEvmGenesis (eg_Accounts gs) (with_precompiles AvailableStaticPrecompiles (eg_Params gs)) (DefaultPreinstalls multicall3 permit2).
End evmd.
