(* ===== verification/VmGenesisTheorems.v ===== *)
(** * x/vm: the theorems on parameters, precompiles, preinstalls and genesis *)

From Stdlib Require Import ZArith Lia List String Ascii Bool.
From stdpp Require Import base gmap strings countable list sorting.
From S2P Require Import Sha256 RefEnv FeeMarketTheorems SnapshotStore VmRef Erc20Theorems.
From S2P Require Import Prelude GoStrings Sdk EvmCoin AccessList StateDB StateDBFacts Precompile VmKeeper VmKeeperFacts Permissions Erc20Types Erc20Keeper VmGenesis.
Local Open Scope Z_scope.
Local Open Scope go_scope.

(** "0x" and forty decimal digits: there is no letter whose case a checksum
    could change. *)
Definition digit_literal (s : string) : bool :=
  has_prefix "0x" s && (len s =? 42) && forallb (fun c => in_range 48 (ord c) 57) (to_list (drop_bytes 2 s)).

Class VmLibLaws {Eth : EthCommon} {Vl : VmLibs} := {
  Hex2Bytes_Bytes2Hex b : Hex2Bytes (Bytes2Hex b) = b;
  HexToHash_Hex h : String.length h = 32%nat -> HexToHash (Hash_Hex h) = h;
  Hash_Hex_visible h : visible_text (Hash_Hex h) = true;
  Address_Hex_digits s : digit_literal s = true -> Address_Hex (HexToAddress s) = s;
  vp_codec p bz : vp_Marshal p = Ok bz -> vp_Unmarshal bz = Ok p;
  ci_codec i bz : ci_Marshal i = Ok bz -> ci_Unmarshal bz = Ok i;
}.

(** ** Lists *)

Lemma IsSorted_spec l : IsSorted l = true <-> StronglySorted str_le l.
Proof.
  split.
  - intros H. apply Sorted_StronglySorted; [apply _|]. induction l as [|x l IH]; [constructor|].
    destruct l as [|y l]; [repeat constructor|]. cbn in H. apply andb_true_iff in H as [H1 H2].
    constructor; [by apply IH|by constructor].
  - intros H%StronglySorted_Sorted. induction H as [|x l Hs IH Hh]; [done|].
    destruct l as [|y l]; [done|]. inversion Hh; subst. cbn. apply andb_true_iff. done.
Qed.

Lemma sort_Strings_sorted l : IsSorted (sort_Strings l) = true.
Proof. apply IsSorted_spec, StronglySorted_merge_sort; apply _. Qed.

Lemma sort_Strings_id l : IsSorted l = true -> sort_Strings l = l.
Proof.
  intros H%IsSorted_spec. apply (StronglySorted_unique str_le); [|done|apply sort_Strings_perm].
  apply StronglySorted_merge_sort; apply _.
Qed.

(** What a loop that collects the seen names keeps. *)
Lemma fresh_tail {A} (f : A -> string) (seen : gset string) x l : f x ∉ f <$> l ->
  Forall (fun s => f s ∉ seen) l -> Forall (fun s => f s ∉ {[f x]} ∪ seen) l.
Proof.
  intros Hn Hs. rewrite Forall_forall in Hs |- *. intros y Hy [Hx%elem_of_singleton|Hx]%elem_of_union.
  - apply Hn. rewrite <- Hx. by apply list_elem_of_fmap_2.
  - by apply (Hs y Hy).
Qed.

Section theorems.
Context {Ty : SdkTypes} {Eth : EthCommon} {El : EthAddrLaws} {Cr : EthCrypto} {Vl : VmLibs} {Vll : VmLibLaws}.

Lemma Address_Hex_injective a b : addr_ok a -> addr_ok b -> Address_Hex a = Address_Hex b -> a = b.
Proof. intros Ha Hb He. by rewrite <- (HexToAddress_Hex a), <- (HexToAddress_Hex b), He. Qed.

Lemma ValidateAddress_Hex a : addr_ok a -> ValidateAddress (Address_Hex a) = Ok tt.
Proof. intros Ha. unfold ValidateAddress. by rewrite IsHexAddress_Hex. Qed.

(** ** The loops of validation *)

Lemma validate_precompiles_spec seen l : validate_precompiles seen l = Ok tt <->
  NoDup l /\ Forall (fun p => p ∉ seen) l /\ Forall (fun p => IsHexAddress p = true) l.
Proof.
  revert seen. induction l as [|p l IH]; intros seen; [split; [repeat constructor|done]|].
  cbn [validate_precompiles]. rewrite NoDup_cons, !Forall_cons.
  destruct (decide (p ∈ seen)) as [Hin|Hin].
  { rewrite bool_decide_false by (intros H; by apply H). split; [done|]. naive_solver. }
  rewrite bool_decide_true by done. cbn [oguard obind].
  unfold ValidateAddress. destruct (IsHexAddress p) eqn:Hp; cbn [oguard is_ok obind]; [|split; [done|naive_solver]].
  rewrite IH. split.
  - intros (Hd & Hs & Hv). rewrite Forall_forall in Hs. split_and!; try done.
    + intros Hl. apply (Hs p Hl). set_solver.
    + apply Forall_forall. intros x Hx Hx'. apply (Hs x Hx). set_solver.
  - intros ([Hn Hd] & [_ Hs] & [_ Hv]). split_and!; try done. apply (fresh_tail id); [by rewrite list_fmap_id|done].
Qed.

Lemma ValidatePrecompiles_spec l : ValidatePrecompiles l = Ok tt <->
  NoDup l /\ Forall (fun p => IsHexAddress p = true) l /\ IsSorted l = true.
Proof.
  unfold ValidatePrecompiles. split.
  - intros ([] & (Hd & _ & Hv)%validate_precompiles_spec & Hs%oguard_Ok)%obind_Ok. done.
  - intros (Hd & Hv & Hs). rewrite (proj2 (validate_precompiles_spec ∅ l)); [by rewrite Hs|].
    split_and!; try done. apply Forall_forall. set_solver.
Qed.

Lemma storage_validate_ok seen l : NoDup (ss_Key <$> l) -> Forall (fun s => ss_Key s ∉ seen) l ->
  Forall (fun s => State_Validate s = Ok tt) l -> storage_validate seen l = Ok tt.
Proof.
  revert seen. induction l as [|s l IH]; intros seen Hd Hs Hv; [done|]. cbn in *.
  apply NoDup_cons in Hd as [Hn Hd]. apply Forall_cons in Hs as [Hs0 Hs], Hv as [Hv0 Hv].
  rewrite bool_decide_true by done. cbn [oguard obind]. rewrite Hv0. cbn [obind]. apply IH; try done.
  by apply fresh_tail.
Qed.

Lemma validate_accounts_ok seen l : NoDup (ga_Address <$> l) -> Forall (fun a => ga_Address a ∉ seen) l ->
  Forall (fun a => GenesisAccount_Validate a = Ok tt) l -> is_ok (validate_accounts seen l) = true.
Proof.
  revert seen. induction l as [|s l IH]; intros seen Hd Hs Hv; [done|]. cbn in *.
  apply NoDup_cons in Hd as [Hn Hd]. apply Forall_cons in Hs as [Hs0 Hs], Hv as [Hv0 Hv].
  rewrite bool_decide_true by done. cbn [oguard obind]. rewrite Hv0. cbn [obind owrap]. apply IH; try done.
  by apply fresh_tail.
Qed.

(** ** Parameters *)

Section params.
Context {W : Type}.
Abbreviation VmState := (VmState W).
Implicit Types (k : VmState) (p : EvmParams).

(** Parameters are stored sorted and validated. *)
Lemma SetParams_Ok p k k' : vm_SetParams p k = (Ok tt, k') ->
  let p' := with_precompiles (sort_Strings (ep_ActiveStaticPrecompiles p)) p in
  EvmParams_Validate p' = Ok tt /\ vm_GetParams k' = Ok p' /\ vk_world k' = vk_world k /\
  exists bz, vp_Marshal p' = Ok bz /\ vk_store k' = <[KeyPrefixParams := bz]> (vk_store k).
Proof.
  intros H. unfold vm_SetParams in H. minv. destruct a. split_and!; try done.
  - unfold vm_GetParams. cbn. rewrite lookup_insert_eq. by rewrite (vp_codec _ _ H1).
  - eauto.
Qed.

Lemma SetParams_runs p k bz : let p' := with_precompiles (sort_Strings (ep_ActiveStaticPrecompiles p)) p in
  EvmParams_Validate p' = Ok tt -> vp_Marshal p' = Ok bz ->
  vm_SetParams p k = (Ok tt, set_store (<[KeyPrefixParams := bz]> (vk_store k)) k).
Proof.
  intros p' Hv Hm. unfold vm_SetParams. fold p'. by rewrite (mbind_lift _ _ _ _ Hv), (mbind_lift _ _ _ _ Hm).
Qed.

Lemma hex_addresses_spec existing l r : hex_addresses existing l = Ok r <->
  r = Address_Hex <$> l /\ Forall (fun a => Address_Hex a ∉ existing) l.
Proof.
  revert r. induction l as [|a l IH]; intros r; cbn; [split; [by intros [= <-]|by intros [-> _]]|].
  rewrite Forall_cons. split.
  - intros H. minv. zify_bool. match goal with H : hex_addresses _ _ = _ |- _ => by apply IH in H as [-> Hf] end.
  - intros [-> [Ha Hf]]. rewrite bool_decide_true by done. cbn.
    by rewrite (proj2 (IH (Address_Hex <$> l)) (conj eq_refl Hf)).
Qed.

Lemma validate_active p : EvmParams_Validate p = Ok tt -> ValidatePrecompiles (ep_ActiveStaticPrecompiles p) = Ok tt.
Proof. unfold EvmParams_Validate. intros H. minv. by destruct a0. Qed.

Lemma validate_with l p : EvmParams_Validate p = Ok tt -> ValidatePrecompiles l = Ok tt ->
  EvmParams_Validate (with_precompiles l p) = Ok tt.
Proof.
  unfold EvmParams_Validate. intros H Hl. minv. destruct a, a0, a1. unfold with_precompiles.
  cbn [ep_ExtraEIPs ep_ActiveStaticPrecompiles ep_AccessControl ep_EVMChannels]. by rewrite H0, Hl, H2.
Qed.

(** A sorted list is stored as it is. *)
Lemma SetParams_sorted l p k : sort_Strings l = l ->
  (forall k', vm_SetParams (with_precompiles l p) k = (Ok tt, k') ->
     EvmParams_Validate (with_precompiles l p) = Ok tt /\ vm_GetParams k' = Ok (with_precompiles l p)) /\
  (forall bz, EvmParams_Validate (with_precompiles l p) = Ok tt -> vp_Marshal (with_precompiles l p) = Ok bz ->
     is_ok (vm_SetParams (with_precompiles l p) k).1 = true).
Proof.
  intros Hs. assert (with_precompiles (sort_Strings (ep_ActiveStaticPrecompiles (with_precompiles l p))) (with_precompiles l p) = with_precompiles l p) as He.
  { unfold with_precompiles at 1 2. cbn [ep_ActiveStaticPrecompiles]. by rewrite Hs. }
  split.
  - intros k' (Hv & Hg & _)%SetParams_Ok. by rewrite He in Hv, Hg.
  - intros bz Hv Hb. by rewrite (SetParams_runs (with_precompiles l p) k bz) by (by rewrite He).
Qed.

Section enable.
Context (p : EvmParams) (addresses : list addr) (Ha : Forall addr_ok addresses).
Let l := sort_Strings (ep_ActiveStaticPrecompiles p ++ (Address_Hex <$> addresses)).

Lemma enabled_list x : x ∈ l <-> x ∈ ep_ActiveStaticPrecompiles p \/ x ∈ Address_Hex <$> addresses.
Proof. unfold l. by rewrite sort_Strings_perm, elem_of_app. Qed.
Lemma enabled_again : sort_Strings l = l.
Proof. apply sort_Strings_id, sort_Strings_sorted. Qed.

Lemma enabled_valid : EvmParams_Validate p = Ok tt ->
  EvmParams_Validate (with_precompiles l p) = Ok tt <->
  NoDup addresses /\ Forall (fun a => Address_Hex a ∉ ep_ActiveStaticPrecompiles p) addresses.
Proof.
  intros Hv. pose proof (validate_active _ Hv) as (Hd & Hh & _)%ValidatePrecompiles_spec.
  rewrite Forall_forall in Ha. split.
  - intros (Hd' & _)%validate_active%ValidatePrecompiles_spec. unfold l in Hd'. cbn in Hd'. rewrite sort_Strings_perm in Hd'.
    apply NoDup_app in Hd' as (_ & Hx & Hd'). split; [by apply NoDup_fmap_1 in Hd'|].
    apply Forall_forall. intros a Hal Hact. apply (Hx _ Hact). by apply list_elem_of_fmap_2.
  - intros [Hnd Hf]. apply validate_with; [done|]. apply ValidatePrecompiles_spec. split_and!.
    + unfold l. rewrite sort_Strings_perm. apply NoDup_app. split_and!; [done| |].
      * intros x Hx (a & -> & Hal)%list_elem_of_fmap. rewrite Forall_forall in Hf. by apply (Hf a).
      * apply NoDup_fmap_2_strong; [|done]. intros x y Hx Hy. apply Address_Hex_injective; by apply Ha.
    + apply Forall_forall. intros x [Hx|(a & -> & Hal)%list_elem_of_fmap]%enabled_list.
      * by rewrite Forall_forall in Hh; auto.
      * by apply IsHexAddress_Hex, Ha.
    + apply sort_Strings_sorted.
Qed.

Lemma enabled_available a : addr_ok a -> IsAvailableStaticPrecompile (with_precompiles l p) a =
  IsAvailableStaticPrecompile p a || bool_decide (a ∈ addresses).
Proof.
  intros Hok. unfold IsAvailableStaticPrecompile. cbn.
  assert (bool_decide (Address_Hex a ∈ l) = bool_decide (Address_Hex a ∈ ep_ActiveStaticPrecompiles p) || bool_decide (a ∈ addresses)) as ->.
  { rewrite <- bool_decide_or. apply bool_decide_ext. rewrite enabled_list, list_elem_of_fmap. rewrite Forall_forall in Ha. split.
    - intros [?|(b & Hb & Hbl)]; [by left|right]. apply Address_Hex_injective in Hb; [by subst|done|by apply Ha].
    - intros [?|?]; [by left|right; eauto]. }
  destruct (bool_decide (Address_Hex a ∈ ep_ActiveStaticPrecompiles p)), (bool_decide (a ∈ addresses)), (bool_decide (a ∈ PrecompiledAddressesPrague)); done.
Qed.

(** What a completed call went through. *)
Lemma enable_runs k k' : vm_GetParams k = Ok p ->
  EnableStaticPrecompiles addresses k = (Ok tt, k') <->
  Forall (fun a => Address_Hex a ∉ ep_ActiveStaticPrecompiles p) addresses /\ vm_SetParams (with_precompiles l p) k = (Ok tt, k').
Proof.
  intros Hp. unfold EnableStaticPrecompiles, appendPrecompiles. rewrite (mbind_eq _ _ _ p k) by (by apply mtry_Ok). split.
  - intros H. minv. match goal with H : hex_addresses _ _ = _ |- _ => by apply hex_addresses_spec in H as [-> Hf] end.
  - intros [Hf H]. rewrite (proj2 (hex_addresses_spec _ _ _) (conj eq_refl Hf)). exact H.
Qed.
End enable.

(** Enabling precompiles succeeds exactly when they are distinct and none
    of them is active yet, and then activates these and no others. The stored
    list stays sorted, without duplicates and valid. *)
Theorem enable_adds_exactly addresses k p : vm_GetParams k = Ok p -> EvmParams_Validate p = Ok tt ->
  (forall p', is_ok (vp_Marshal p') = true) -> Forall addr_ok addresses ->
  (is_ok (EnableStaticPrecompiles addresses k).1 = true <->
    NoDup addresses /\ Forall (fun a => Address_Hex a ∉ ep_ActiveStaticPrecompiles p) addresses) /\
  (forall k', EnableStaticPrecompiles addresses k = (Ok tt, k') -> exists l,
    vm_GetParams k' = Ok (with_precompiles l p) /\ EvmParams_Validate (with_precompiles l p) = Ok tt /\
    forall a, addr_ok a -> IsAvailableStaticPrecompile (with_precompiles l p) a =
      IsAvailableStaticPrecompile p a || bool_decide (a ∈ addresses)).
Proof.
  intros Hp Hv Hm Ha. pose proof (enabled_again p addresses) as Hs. pose proof (enabled_valid p addresses Ha Hv) as Hval.
  pose proof (fun k' => enable_runs p addresses k k' Hp) as Hr. pose proof (enabled_available p addresses Ha) as Hav.
  set (l := sort_Strings (ep_ActiveStaticPrecompiles p ++ (Address_Hex <$> addresses))) in *. split; [split|].
  - intros [[] Hok]%is_ok_Ok. pose proof (surjective_pairing (EnableStaticPrecompiles addresses k)) as He. rewrite Hok in He.
    apply Hr in He as [Hf (Hv' & _)%(SetParams_sorted l p k Hs)]. by apply Hval.
  - intros [Hnd Hf]. destruct (proj1 (is_ok_Ok _) (Hm (with_precompiles l p))) as [bz Hbz].
    pose proof (proj2 (SetParams_sorted l p k Hs) bz (proj2 Hval (conj Hnd Hf)) Hbz) as [[] Hok]%is_ok_Ok.
    rewrite (proj2 (Hr (vm_SetParams (with_precompiles l p) k).2)); [done|]. split; [done|]. rewrite <- Hok. apply surjective_pairing.
  - intros k' [Hf (Hv' & Hg)%(SetParams_sorted l p k Hs)]%Hr. exists l. done.
Qed.
End params.

(** ** The static precompiles *)

Lemma fold_insert_dom {A P} (f : A -> addr) (g : A -> P) l (m : gmap addr P) a :
  is_Some (foldl (fun m x => <[f x := g x]> m) m l !! a) <-> is_Some (m !! a) \/ a ∈ f <$> l.
Proof.
  revert m. induction l as [|x l IH]; intros m; cbn; [set_solver|]. rewrite IH, elem_of_cons.
  destruct (decide (f x = a)) as [->|Hne]; [rewrite lookup_insert_eq|rewrite lookup_insert_ne by done]; naive_solver.
Qed.

Definition nine_precompiles (allow : bool) : list StaticPrecompile :=
  [P256P; Bech32P; StakingP; DistributionP; ICS02P; ICS20P; BankP; GovP allow; SlashingP].

Lemma default_in_memory allow a : is_Some (DefaultStaticPrecompiles allow !! a) <->
  a ∈ PrecompiledAddressesPrague \/ a ∈ static_Address <$> nine_precompiles allow.
Proof.
  unfold DefaultStaticPrecompiles, WithPrecompile, WithPraguePrecompiles, NewStaticPrecompiles.
  rewrite (fold_insert_dom static_Address (fun p => p)), (fold_insert_dom (fun a => a) PragueP), lookup_empty, list_fmap_id.
  split; [intros [[[? [=]]|?]|?]|intros [?|?]]; auto.
Qed.

(** An instance runs at its own address. *)
Lemma default_own_address allow a p : DefaultStaticPrecompiles allow !! a = Some p -> static_Address p = a.
Proof.
  unfold DefaultStaticPrecompiles, WithPraguePrecompiles, NewStaticPrecompiles.
  assert (forall l (m : gmap addr StaticPrecompile), (forall b q, m !! b = Some q -> static_Address q = b) ->
    forall b q, foldl (fun m p => WithPrecompile p m) m l !! b = Some q -> static_Address q = b) as Hstep.
  { induction l as [|x l IH]; intros m Hm; [done|]. apply IH. unfold WithPrecompile. intros b q.
    rewrite lookup_insert_Some. intros [[<- <-]|[_ ?]]; auto. }
  apply Hstep. clear Hstep. generalize PrecompiledAddressesPrague.
  assert (forall l (m : gmap addr StaticPrecompile), (forall b q, m !! b = Some q -> static_Address q = b) ->
    forall b q, foldl (fun m a => <[a := PragueP a]> m) m l !! b = Some q -> static_Address q = b) as Hstep.
  { induction l as [|x l IH]; intros m Hm; [done|]. apply IH. intros b q.
    rewrite lookup_insert_Some. intros [[<- <-]|[_ ?]]; auto. }
  intros l. apply Hstep. intros b q. by rewrite lookup_empty.
Qed.

Lemma literal_address a s : digit_literal s = true -> addr_ok a -> Address_Hex a = s <-> a = HexToAddress s.
Proof.
  intros Hd Ha. split; [intros <-; by rewrite HexToAddress_Hex|intros ->; by apply Address_Hex_digits].
Qed.

Lemma available_literals a : addr_ok a -> Address_Hex a ∈ AvailableStaticPrecompiles <->
  a = HexToAddress VestingPrecompileAddress \/ a ∈ static_Address <$> nine_precompiles true.
Proof.
  intros Ha. unfold AvailableStaticPrecompiles, nine_precompiles. cbn [fmap list_fmap static_Address].
  rewrite !elem_of_cons. rewrite !(literal_address a) by done. pose proof (not_elem_of_nil a). pose proof (not_elem_of_nil (Address_Hex a)). tauto.
Qed.

Lemma vesting_not_implemented allow : HexToAddress VestingPrecompileAddress ∉ static_Address <$> nine_precompiles allow.
Proof.
  assert (forall s, digit_literal s = true -> s <> VestingPrecompileAddress ->
    HexToAddress VestingPrecompileAddress <> HexToAddress s) as Hne.
  { intros s Hs Hd He. apply Hd. by rewrite <- (Address_Hex_digits s Hs), <- He, Address_Hex_digits. }
  unfold nine_precompiles. cbn [fmap list_fmap static_Address]. rewrite !not_elem_of_cons.
  repeat (split; [by apply Hne|]). apply not_elem_of_nil.
Qed.

(** C21: With the precompiles the application loads and the list its genesis
    activates, a call of an address finds the precompile of that address or
    none, except at the address listed for vesting: it is active and has no
    implementation, so the lookup panics. *)
Theorem vesting_precompile_panics allow eips multicall3 permit2 a : addr_ok a ->
  let params := eg_Params (NewEVMGenesisState eips multicall3 permit2) in
  let found := GetStaticPrecompileInstance (Some (DefaultStaticPrecompiles allow)) params a in
  ((exists e, found = Panic e) <-> a = HexToAddress VestingPrecompileAddress /\ a ∉ PrecompiledAddressesPrague) /\
  (forall p, found = Ok (Some p) -> static_Address p = a) /\
  (forall erc20 e h, found = Panic e -> (GetPrecompilesCallHook (Some (DefaultStaticPrecompiles allow)) params erc20 a h).1 = Panic e).
Proof.
  intros Ha params found. split_and!.
  - subst found. unfold GetStaticPrecompileInstance, IsAvailableStaticPrecompile. subst params.
    cbn [NewEVMGenesisState eg_Params with_precompiles ep_ActiveStaticPrecompiles].
    change (default ∅ (Some (DefaultStaticPrecompiles allow))) with (DefaultStaticPrecompiles allow).
    pose proof (default_in_memory allow a) as Hm. pose proof (available_literals a Ha) as Hl.
    assert (static_Address <$> nine_precompiles true = static_Address <$> nine_precompiles allow) as Hn by done. rewrite Hn in Hl.
    destruct (bool_decide_reflect (a ∈ PrecompiledAddressesPrague)) as [Hp|Hp]; rewrite ?orb_true_r, ?orb_false_r.
    + destruct (proj2 Hm (or_introl Hp)) as [q ->]. naive_solver.
    + case_bool_decide as Hact.
      * apply Hl in Hact as [->|Hin].
        -- destruct (DefaultStaticPrecompiles allow !! _) eqn:E; [|naive_solver].
           exfalso. apply (vesting_not_implemented allow). by destruct (proj1 Hm ltac:(eauto)) as [?|?].
        -- destruct (proj2 Hm (or_intror Hin)) as [q ->]. split; [naive_solver|]. intros [-> _].
           by apply vesting_not_implemented in Hin.
      * split; [naive_solver|]. intros [-> _]. exfalso. apply Hact, Hl. by left.
  - subst found. unfold GetStaticPrecompileInstance. destruct (IsAvailableStaticPrecompile _ _); [|done].
    destruct (default ∅ _ !! a) eqn:E; [|done]. intros p [= <-]. by eapply default_own_address.
  - intros erc20 e h He. unfold GetPrecompilesCallHook, GetPrecompileInstance. fold found. by rewrite He.
Qed.

(** ** Preinstalls *)

Section preinstalls.
Context {W : Type} {Ab : AuthBank W} {Al : AuthBankLaws W}.
Context (Hkeccak : forall l, String.length (Keccak256Hash l) = 32%nat).
Abbreviation VmState := (VmState W).
Implicit Types (k : VmState) (p : Preinstall).

Definition pi_addr p : addr := HexToAddress (pi_Address p).
Definition pi_hash p : hash := Keccak256Hash [FromHex (pi_Code p)].

(** The state with a contract that has been installed. *)
Definition installed p k : VmState :=
  vk_SetCode (pi_hash p) (FromHex (pi_Code p)) (vk_SetCodeHash (pi_addr p) (pi_hash p) (auth_Create (pi_addr p) k)).

Lemma AddPreinstall_run p k : (exists e, AddPreinstall p k = (Err e, k)) \/
  (AddPreinstall p k = (Ok tt, installed p k) /\ auth_GetAccount (vk_world k) (pi_addr p) = None /\
   (vk_GetCodeHash k (pi_addr p) = EmptyCodeHash \/ vk_GetCodeHash k (pi_addr p) = pi_hash p)).
Proof.
  unfold AddPreinstall, mguard. destruct (len (pi_Code p) =? 0); [left; by eexists|].
  fold (pi_hash p) (pi_addr p). destruct (IsEmptyCodeHash (pi_hash p)); [left; by eexists|].
  destruct (IsEmptyCodeHash (vk_GetCodeHash k (pi_addr p)) || String.eqb (vk_GetCodeHash k (pi_addr p)) (pi_hash p)) eqn:Hh.
  2:{ left. unfold mbind', mreads, mlift. cbn. rewrite Hh. by eexists. }
  destruct (decide (auth_GetAccount (vk_world k) (pi_addr p) = None)) as [Hn|Hn].
  - right. split_and!; [|done|].
    + unfold mbind', mreads, mlift, mmodify. cbn. rewrite Hh. cbn. by rewrite bool_decide_true.
    + apply orb_true_iff in Hh as [Hh|Hh]; [left|right]; by apply String.eqb_eq.
  - left. unfold mbind', mreads, mlift, mmodify. cbn. rewrite Hh. cbn. rewrite bool_decide_false by done. by eexists.
Qed.

Lemma auth_Create_get a k b : auth_GetAccount (vk_world (auth_Create a k)) b =
  if String.eqb a b then Some (auth_NewAccount a (vk_world k)).1 else auth_GetAccount (vk_world k) b.
Proof.
  unfold auth_Create. pose proof (auth_get_new a (vk_world k) b) as Hn. destruct (auth_NewAccount a (vk_world k)) as [acct w].
  cbn in *. rewrite auth_get_set. by destruct (String.eqb a b).
Qed.
Lemma auth_Create_store a k : vk_store (auth_Create a k) = vk_store k.
Proof. unfold auth_Create. by destruct (auth_NewAccount a (vk_world k)). Qed.

Lemma installed_get p k b : auth_GetAccount (vk_world (installed p k)) b =
  if String.eqb (pi_addr p) b then Some (auth_NewAccount (pi_addr p) (vk_world k)).1 else auth_GetAccount (vk_world k) b.
Proof. apply auth_Create_get. Qed.
Lemma installed_store p k : vk_store (installed p k) =
  <[CodeKey (pi_hash p) := FromHex (pi_Code p)]> (<[CodeHashKey (pi_addr p) := pi_hash p]> (vk_store k)).
Proof. cbn. by rewrite auth_Create_store. Qed.

(** What an account that is there, and every slot, keeps; and that code stays
    the code of its hash. *)
Record kept k k' : Prop := {
  kept_account a acc : auth_GetAccount (vk_world k) a = Some acc -> auth_GetAccount (vk_world k') a = Some acc;
  kept_hash a acc : auth_GetAccount (vk_world k) a = Some acc -> vk_store k' !! CodeHashKey a = vk_store k !! CodeHashKey a;
  kept_storage a x : vk_store k' !! StateKey a x = vk_store k !! StateKey a x;
  kept_code h c : vk_store k !! CodeKey h = Some c -> Keccak256Hash [c] = h ->
    exists c', vk_store k' !! CodeKey h = Some c' /\ Keccak256Hash [c'] = h;
}.

#[export] Instance kept_preorder : PreOrder kept.
Proof.
  split.
  - intros k. constructor; eauto.
  - intros k1 k2 k3 [A1 B1 C1 D1] [A2 B2 C2 D2]. constructor.
    + eauto.
    + intros a acc Ha. rewrite (B2 a acc), (B1 a acc); eauto.
    + intros a x. by rewrite C2, C1.
    + intros h c Hc Hh. destruct (D1 h c Hc Hh) as (c' & Hc' & Hh'). eauto.
Qed.

Lemma installed_kept p k : auth_GetAccount (vk_world k) (pi_addr p) = None -> kept k (installed p k).
Proof.
  intros Hn. constructor.
  - intros a acc Ha. rewrite installed_get. destruct (String.eqb_spec (pi_addr p) a); [congruence|done].
  - intros a acc Ha. rewrite installed_store, lookup_insert_ne by done. apply lookup_insert_ne.
    intros He%CodeHashKey_inj. congruence.
  - intros a x. rewrite installed_store, !lookup_insert_ne; done.
  - intros h c Hc Hh. rewrite installed_store. destruct (decide (pi_hash p = h)) as [<-|Hne].
    + rewrite lookup_insert_eq. eauto.
    + rewrite lookup_insert_ne by (intros He%CodeKey_inj; congruence). rewrite lookup_insert_ne by done. eauto.
Qed.

(** The contract of [p] is there. *)
Definition is_installed p k : Prop :=
  is_Some (auth_GetAccount (vk_world k) (pi_addr p)) /\ vk_store k !! CodeHashKey (pi_addr p) = Some (pi_hash p) /\
  exists c, vk_store k !! CodeKey (pi_hash p) = Some c /\ Keccak256Hash [c] = pi_hash p.

Lemma installed_is p k : is_installed p (installed p k).
Proof.
  split_and!.
  - rewrite installed_get, String.eqb_refl. eauto.
  - by rewrite installed_store, lookup_insert_ne, lookup_insert_eq.
  - rewrite installed_store, lookup_insert_eq. eauto.
Qed.
Lemma is_installed_kept p k k' : kept k k' -> is_installed p k -> is_installed p k'.
Proof.
  intros Hk ([acc Ha] & Hh & c & Hc & Hcc). split_and!.
  - exists acc. by eapply kept_account.
  - by rewrite (kept_hash _ _ Hk _ acc Ha).
  - by eapply kept_code.
Qed.

(** Preinstalls keep every code hash that of a stored code. *)
Definition contracts_ok k : Prop := forall a h, vk_store k !! CodeHashKey a = Some h ->
  addr_ok a /\ hash_ok h /\ IsEmptyCodeHash h = false /\
  exists code, vk_store k !! CodeKey h = Some code /\ len code <> 0 /\ Keccak256Hash [code] = h.

Lemma code_nonempty c : IsEmptyCodeHash (Keccak256Hash [c]) = false -> len c <> 0.
Proof. destruct c; [|done]. unfold IsEmptyCodeHash. by rewrite String.eqb_refl. Qed.

Lemma installed_contracts_ok p k : IsEmptyCodeHash (pi_hash p) = false -> contracts_ok k -> contracts_ok (installed p k).
Proof.
  intros He Hc a h. rewrite installed_store, lookup_insert_ne by done. intros [[<-%CodeHashKey_inj <-]|[Hne Ha]]%lookup_insert_Some.
  - split_and!; [apply HexToAddress_length|apply Hkeccak|done|]. exists (FromHex (pi_Code p)). rewrite lookup_insert_eq.
    split_and!; [done|by apply code_nonempty|done].
  - destruct (Hc a h Ha) as (Hok & Hh & Hemp & c & Hcode & Hlen & Hk). split_and!; [done..|].
    destruct (decide (pi_hash p = h)) as [<-|Hd].
    + exists (FromHex (pi_Code p)). rewrite lookup_insert_eq. split_and!; [done|by apply code_nonempty|done].
    + exists c. rewrite lookup_insert_ne by (intros E%CodeKey_inj; congruence). by rewrite lookup_insert_ne.
Qed.

Lemma preinstalls_contracts_ok l k r k' : AddPreinstalls l k = (r, k') -> contracts_ok k -> contracts_ok k'.
Proof.
  revert k. induction l as [|p l IH]; intros k H Hc; [cbn in H; by injection H as <- <-|]. cbn in H. unfold mbind' in H.
  destruct (AddPreinstall_run p k) as [[e He]|(He & _)]; rewrite He in H; [by injection H as <- <-|].
  eapply IH; [exact H|]. apply installed_contracts_ok; [|done]. unfold AddPreinstall in He. minv. done.
Qed.

(** C20: Installing contracts, at genesis or by governance, never touches an
    account that exists, its code or any storage, whether it succeeds or not.
    On success every listed address had no account and has the code with the
    listed hash. *)
Theorem preinstalls_never_overwrite l k r k' : AddPreinstalls l k = (r, k') ->
  kept k k' /\
  (r = Ok tt -> Forall (fun p => auth_GetAccount (vk_world k) (pi_addr p) = None /\ is_installed p k' /\
                                 vk_GetCodeHash k' (pi_addr p) = pi_hash p) l).
Proof.
  intros H. assert (kept k k' /\ (r = Ok tt -> Forall (fun p => auth_GetAccount (vk_world k) (pi_addr p) = None /\ is_installed p k') l)) as [Hk Hl].
  { revert k H. induction l as [|p l IH]; intros k H; [cbn in H; by injection H as <- <-|]. cbn in H. unfold mbind' in H.
    destruct (AddPreinstall_run p k) as [[e He]|(He & Hn & _)]; rewrite He in H; [by injection H as <- <-|].
    apply IH in H as [Hk Hl]. split; [by rewrite installed_kept|]. intros Hr. constructor.
    - split; [done|]. eapply is_installed_kept; [done|apply installed_is].
    - eapply Forall_impl; [by apply Hl|]. intros q [Hq Hi]. split; [|done]. rewrite installed_get in Hq.
      by destruct (String.eqb _ _). }
  split; [done|]. intros Hr. eapply Forall_impl; [by apply Hl|]. intros p [Hn Hi]. split_and!; try done.
  destruct Hi as (_ & Hh & _). unfold vk_GetCodeHash, kv_get. rewrite Hh.
  change (default EmptyString (Some (pi_hash p))) with (pi_hash p).
  assert (hash_ok (pi_hash p)) as Hp by apply Hkeccak. unfold len. rewrite Hp. cbn. by apply BytesToHash_id.
Qed.
End preinstalls.

(** ** Genesis *)

Definition put_all (l : list (string * bytes)) (kv : KVStore) : KVStore := foldl (fun m e => <[e.1 := e.2]> m) kv l.

Lemma put_all_app l1 l2 kv : put_all (l1 ++ l2) kv = put_all l2 (put_all l1 kv).
Proof. apply foldl_app. Qed.

Lemma put_all_other l kv i : i ∉ l.*1 -> put_all l kv !! i = kv !! i.
Proof.
  unfold put_all. revert kv. induction l as [|[j v] l IH]; intros kv; [done|]. cbn. rewrite not_elem_of_cons. intros [Hj Hl].
  by rewrite IH, lookup_insert_ne.
Qed.

(** Entries that agree on every key are all found. *)
Lemma put_all_found l kv i v : (forall v', (i, v') ∈ l -> v' = v) -> (i, v) ∈ l -> put_all l kv !! i = Some v.
Proof.
  revert kv. induction l as [|[j w] l IH]; intros kv Hf Hin; [set_solver|].
  change (put_all ((j, w) :: l) kv) with (put_all l (<[j := w]> kv)).
  destruct (decide (i ∈ l.*1)) as [Hl|Hl].
  - apply list_elem_of_fmap in Hl as ([i' v'] & -> & Hl). apply IH.
    + intros v'' H. apply Hf. by right.
    + by rewrite <- (Hf v') by (by right).
  - rewrite (put_all_other l _ i Hl). apply elem_of_cons in Hin as [[= <- <-]|Hin]; [apply lookup_insert_eq|].
    exfalso. apply Hl. apply list_elem_of_fmap. by exists (i, v).
Qed.

Lemma BytesToAddress_app (p a : string) : addr_ok a -> BytesToAddress (p +:+ a)%string = a.
Proof.
  intros Ha. unfold BytesToAddress. rewrite string_app_length, Ha.
  rewrite (proj2 (Nat.leb_le _ _)) by lia. replace (String.length p + 20 - 20)%nat with (String.length p) by lia.
  clear -Ha. induction p as [|c p IH]; simpl.
  - rewrite string_app_nil_l. pose proof (BytesToAddress_id a Ha) as H. unfold BytesToAddress in H. by rewrite Ha in H.
  - exact IH.
Qed.

Section genesis.
Context {W D : Type} {Ab : AuthBank W} {Bm : BankMetadata W} {Gl : GlobalLibs D}.
Abbreviation VmState := (VmState W).
Implicit Types (k : VmState).

(** What an account of the genesis writes. *)
Definition ga_entries (ga : GenesisAccount) : list (string * bytes) :=
  let a := HexToAddress (ga_Address ga) in
  let code := Hex2Bytes (ga_Code ga) in
  let h := Keccak256Hash [code] in
  (if IsEmptyCodeHash h then [] else [(CodeHashKey a, h)]) ++ (if len code =? 0 then [] else [(CodeKey h, code)]) ++
  map (fun s => (StateKey a (HexToHash (ss_Key s)), HexToHash (ss_Value s))) (ga_Storage ga).

Lemma InitAccount_run ga k : is_Some (auth_GetAccount (vk_world k) (HexToAddress (ga_Address ga))) ->
  InitAccount ga k = (Ok tt, set_store (put_all (ga_entries ga) (vk_store k)) k).
Proof.
  intros [acc Ha]. unfold InitAccount. rewrite mbind_reads, Ha. unfold ga_entries. rewrite !put_all_app.
  set (a := HexToAddress (ga_Address ga)). set (code := Hex2Bytes (ga_Code ga)). set (h := Keccak256Hash [code]).
  assert (forall l kv w, foldl (fun k s => vk_SetState a (HexToHash (ss_Key s)) (HexToHash (ss_Value s)) k) (MkVmState kv w) l =
    MkVmState (put_all (map (fun s => (StateKey a (HexToHash (ss_Key s)), HexToHash (ss_Value s))) l) kv) w) as Hs.
  { induction l as [|s l IH]; intros kv w; [done|]. cbn. apply IH. }
  destruct k as [kv w]. unfold mbind'. destruct (IsEmptyCodeHash h), (len code =? 0); cbn [negb];
    unfold mmodify, mret, vk_SetCodeHash, vk_SetCode, set_store; cbn [vk_store vk_world]; by rewrite Hs.
Qed.

Lemma init_accounts_run l k : Forall (fun ga => is_Some (auth_GetAccount (vk_world k) (HexToAddress (ga_Address ga)))) l ->
  init_accounts l k = (Ok tt, set_store (put_all (concat (map ga_entries l)) (vk_store k)) k).
Proof.
  revert k. induction l as [|ga l IH]; intros k Hl; [by destruct k|]. apply Forall_cons in Hl as [Ha Hl]. cbn [init_accounts map concat].
  rewrite (mbind_eq _ _ _ _ _ (InitAccount_run ga k Ha)), IH by done. by rewrite put_all_app.
Qed.

Section exported.
Context (k : VmState) (Hc : contracts_ok k) (Hs : storage_keys_ok k).

Lemma iterate_elem a h : (a, h) ∈ vk_IterateContracts k <-> vk_store k !! CodeHashKey a = Some h.
Proof.
  unfold vk_IterateContracts. rewrite list_elem_of_fmap. split.
  - intros ([key v] & [= -> ->] & [[t ->]%has_prefix_iff Hv]%PrefixIterator_elem).
    destruct (Hc t v Hv) as (Ht & Hh & _). by rewrite BytesToAddress_app, BytesToHash_id.
  - intros Hv. destruct (Hc a h Hv) as (Ha & Hh & _). exists (CodeHashKey a, h). split.
    + unfold CodeHashKey. by rewrite BytesToAddress_app, BytesToHash_id.
    + apply PrefixIterator_elem. split; [apply has_prefix_iff; by exists a|done].
Qed.

Lemma storage_elem a x y : addr_ok a ->
  (x, y) ∈ vk_GetAccountStorage k a <-> exists v, vk_store k !! StateKey a x = Some v /\ y = BytesToHash v.
Proof.
  intros Ha. unfold vk_GetAccountStorage, vk_ForEachStorage. rewrite list_elem_of_fmap. split.
  - intros ([key v] & [= -> ->] & [[t ->]%has_prefix_iff Hv]%PrefixIterator_elem).
    pose proof (Hs a t v Ha Hv) as Ht. exists v. unfold StateKey. by rewrite BytesToHash_app.
  - intros (v & Hv & ->). pose proof (Hs a x v Ha Hv) as Hx. exists (StateKey a x, v). split.
    + unfold StateKey. by rewrite BytesToHash_app.
    + apply PrefixIterator_elem. split; [apply has_prefix_iff; by exists x|done].
Qed.

(** The entries that the exported accounts write. *)
Definition exported_account (e : addr * hash) : GenesisAccount :=
  MkGenesisAccount (Address_Hex e.1) (Bytes2Hex (default EmptyString (vk_GetCode k e.2)))
    (map (fun '(key, value) => NewState key value) (vk_GetAccountStorage k e.1)).
Definition exported_entries : list (string * bytes) := concat (map ga_entries (map exported_account (vk_IterateContracts k))).

Lemma account_entries a h code i v : addr_ok a -> hash_ok h -> IsEmptyCodeHash h = false -> vk_store k !! CodeKey h = Some code ->
  len code <> 0 -> Keccak256Hash [code] = h ->
  (i, v) ∈ ga_entries (exported_account (a, h)) <->
  i = CodeHashKey a /\ v = h \/ i = CodeKey h /\ v = code \/ exists x v0, vk_store k !! StateKey a x = Some v0 /\ i = StateKey a x /\ v = BytesToHash v0.
Proof.
  intros Ha Hh He Hcode Hlen Hk. unfold ga_entries, exported_account, vk_GetCode. cbn [ga_Address ga_Code ga_Storage fst snd].
  rewrite Hcode. change (default EmptyString (Some code)) with code.
  rewrite HexToAddress_Hex, Hex2Bytes_Bytes2Hex, Hk, He, (proj2 (Z.eqb_neq _ _) Hlen) by done.
  rewrite !elem_of_app, !list_elem_of_singleton, list_elem_of_fmap, !pair_equal_spec. split.
  - intros [?|[?|(s & [-> ->]%pair_equal_spec & ([x y] & -> & (v0 & Hv0 & ->)%storage_elem)%list_elem_of_fmap)]]; [auto|auto|right; right|done].
    exists x, v0. cbn. rewrite !HexToHash_Hex; [done|apply BytesToHash_length|by eapply Hs].
  - intros [?|[?|(x & v0 & Hv0 & -> & ->)]]; [auto|auto|right; right]. exists (NewState x (BytesToHash v0)). split.
    + cbn. rewrite !HexToHash_Hex; [done|apply BytesToHash_length|by eapply Hs].
    + apply list_elem_of_fmap. exists (x, BytesToHash v0). split; [done|]. apply storage_elem; eauto.
Qed.

Lemma exported_elem i v : (i, v) ∈ exported_entries <-> exists a h code, vk_store k !! CodeHashKey a = Some h /\
  vk_store k !! CodeKey h = Some code /\
  (i = CodeHashKey a /\ v = h \/ i = CodeKey h /\ v = code \/ exists x v0, vk_store k !! StateKey a x = Some v0 /\ i = StateKey a x /\ v = BytesToHash v0).
Proof.
  unfold exported_entries. rewrite list_elem_of_In, in_concat. split.
  - intros (l & (ga & <- & (e & <- & He)%in_map_iff)%in_map_iff & Hl). destruct e as [a h].
    rewrite <- list_elem_of_In in He, Hl. apply iterate_elem in He. destruct (Hc a h He) as (Ha & Hh & Hne & code & Hcode & Hlen & Hk).
    apply (account_entries a h code) in Hl; [|done..]. eauto 10.
  - intros (a & h & code & He & Hcode & Hl). destruct (Hc a h He) as (Ha & Hh & Hne & code' & Hcode' & Hlen & Hk).
    assert (code' = code) as -> by congruence.
    exists (ga_entries (exported_account (a, h))). split.
    + apply in_map_iff. exists (exported_account (a, h)). split; [done|]. apply in_map, list_elem_of_In. by apply iterate_elem.
    + apply list_elem_of_In. by eapply account_entries.
Qed.

(** An entry is that of the exported state, a slot in full width. *)
Lemma exported_functional i v v' : (i, v) ∈ exported_entries -> (i, v') ∈ exported_entries -> v = v'.
Proof.
  intros (a & h & code & He & Hcode & Hl)%exported_elem (a' & h' & code' & He' & Hcode' & Hl')%exported_elem.
  destruct (Hc a h He) as (Ha & _), (Hc a' h' He') as (Ha' & _).
  destruct Hl as [[-> ->]|[[-> ->]|(x & v0 & Hx & -> & ->)]], Hl' as [[E ->]|[[E ->]|(x' & v0' & Hx' & E & ->)]]; try done.
  - rewrite E in He. congruence.
  - rewrite E in Hcode. congruence.
  - rewrite E in Hx. congruence.
Qed.

Lemma imported_hash kv a : kv !! CodeHashKey a = None -> put_all exported_entries kv !! CodeHashKey a = vk_store k !! CodeHashKey a.
Proof.
  intros Hkv. destruct (vk_store k !! CodeHashKey a) as [h|] eqn:He.
  - destruct (Hc a h He) as (_ & _ & _ & code & Hcode & _). apply put_all_found; [intros v' Hv'; eapply exported_functional; [done|]|];
      apply exported_elem; eauto 10.
  - rewrite put_all_other, Hkv; [done|]. intros ([i v] & Hi & Hin)%list_elem_of_fmap. cbn in Hi. subst i.
    apply exported_elem in Hin as (a' & h & code & He' & _ & [[E _]|[[E _]|(x & v0 & _ & E & _)]]); try done.
    rewrite E in He. congruence.
Qed.

Lemma imported_code kv a h : vk_store k !! CodeHashKey a = Some h -> put_all exported_entries kv !! CodeKey h = vk_store k !! CodeKey h.
Proof.
  intros He. destruct (Hc a h He) as (_ & _ & _ & code & Hcode & _). rewrite Hcode.
  apply put_all_found; [intros v' Hv'; eapply exported_functional; [done|]|]; apply exported_elem; eauto 10.
Qed.

(** A slot is imported when its account is a contract. *)
Lemma imported_slot kv a x : addr_ok a -> kv !! StateKey a x = None -> put_all exported_entries kv !! StateKey a x =
  match vk_store k !! CodeHashKey a with Some _ => BytesToHash <$> vk_store k !! StateKey a x | None => None end.
Proof.
  intros Ha Hkv. destruct (vk_store k !! CodeHashKey a) as [h|] eqn:He; [destruct (vk_store k !! StateKey a x) as [v|] eqn:Hx|].
  - destruct (Hc a h He) as (_ & _ & _ & code & Hcode & _). apply put_all_found; [intros v' Hv'; eapply exported_functional; [done|]|];
      apply exported_elem; eauto 12.
  - rewrite put_all_other, Hkv; [done|]. intros ([i v] & Hi & Hin)%list_elem_of_fmap. cbn in Hi. subst i.
    apply exported_elem in Hin as (a' & h' & code & He' & _ & [[E _]|[[E _]|(x' & v0 & Hx' & E & _)]]); try done. rewrite E in Hx. congruence.
  - rewrite put_all_other, Hkv; [done|]. intros ([i v] & Hi & Hin)%list_elem_of_fmap. cbn in Hi. subst i.
    apply exported_elem in Hin as (a' & h' & code & He' & _ & [[E _]|[[E _]|(x' & v0 & Hx' & E & _)]]); try done.
    destruct (Hc a' h' He') as (Ha' & _). apply (StateKey_inj a a' x x') in E as [-> _]; [congruence|done|done].
Qed.
End exported.
Lemma PrefixIterator_NoDup (kv : KVStore) pre : NoDup (PrefixIterator kv pre).*1.
Proof.
  unfold PrefixIterator. rewrite merge_sort_Permutation. apply NoDup_filter_fst, NoDup_fst_map_to_list.
Qed.

(** Different keys of a prefix give different names. *)
Lemma names_NoDup {A} (kv : KVStore) pre (f : string * bytes -> A) :
  (forall t v t' v', kv !! (pre +:+ t)%string = Some v -> kv !! (pre +:+ t')%string = Some v' ->
     f ((pre +:+ t)%string, v) = f ((pre +:+ t')%string, v') -> t = t') ->
  NoDup (f <$> PrefixIterator kv pre).
Proof.
  intros Hinj. apply NoDup_fmap_2_strong; [|by eapply NoDup_fmap_1, PrefixIterator_NoDup].
  intros [i v] [j w] [[t ->]%has_prefix_iff Hi]%PrefixIterator_elem [[t' ->]%has_prefix_iff Hj]%PrefixIterator_elem He.
  assert (t = t') as <- by eauto. congruence.
Qed.

Lemma exported_account_valid k a h : contracts_ok k -> storage_keys_ok k -> vk_store k !! CodeHashKey a = Some h ->
  GenesisAccount_Validate (exported_account k (a, h)) = Ok tt.
Proof.
  intros Hc Hs Ha%Hc. destruct Ha as (Ha & _). unfold GenesisAccount_Validate. cbn [exported_account ga_Address ga_Storage fst snd].
  rewrite ValidateAddress_Hex by done. cbn [obind]. apply storage_validate_ok.
  - rewrite <- list_fmap_compose. unfold vk_GetAccountStorage, vk_ForEachStorage. rewrite <- list_fmap_compose. apply names_NoDup.
    intros t v t' v' Ht Ht'. cbn. apply Hs in Ht, Ht'; [|done..]. intros He%(f_equal HexToHash).
    rewrite !HexToHash_Hex, !BytesToHash_app in He by (done || apply BytesToHash_length). done.
  - apply Forall_forall. set_solver.
  - apply Forall_forall. intros s ([x y] & -> & _)%list_elem_of_fmap. unfold State_Validate. cbn [NewState ss_Key].
    rewrite visible_TrimSpace by apply Hash_Hex_visible. pose proof (Hash_Hex_visible x) as Hv. unfold visible_text in Hv.
    by apply andb_true_iff in Hv as [-> _].
Qed.

Lemma export_run k gs : vm_ExportGenesis k = Ok gs ->
  vm_GetParams k = Ok (eg_Params gs) /\ eg_Preinstalls gs = [] /\ eg_Accounts gs = map (exported_account k) (vk_IterateContracts k).
Proof.
  unfold vm_ExportGenesis. intros H. minv. cbn. split_and!; [done|done|]. apply map_ext. by intros [].
Qed.

Lemma exported_valid k gs : contracts_ok k -> storage_keys_ok k -> vm_ExportGenesis k = Ok gs ->
  EvmParams_Validate (eg_Params gs) = Ok tt -> EvmGenesis_Validate gs = Ok tt.
Proof.
  intros Hc Hs (_ & Hp & Ha)%export_run Hv. unfold EvmGenesis_Validate. rewrite Hp, Ha.
  assert (is_ok (validate_accounts ∅ (map (exported_account k) (vk_IterateContracts k))) = true) as [seen ->]%is_ok_Ok; [|done].
  apply validate_accounts_ok.
  - change (map (exported_account k)) with (fmap (M := list) (exported_account k)). rewrite <- list_fmap_compose.
    unfold vk_IterateContracts. change (map ?f) with (fmap (M := list) f). rewrite <- list_fmap_compose. apply names_NoDup.
    intros t v t' v' (Ht & _)%Hc (Ht' & _)%Hc. cbn. rewrite !BytesToAddress_app by done. by apply Address_Hex_injective.
  - apply Forall_forall. set_solver.
  - apply Forall_forall. intros ga ([a h] & -> & Ha'%(iterate_elem k Hc))%list_elem_of_fmap. by apply exported_account_valid.
Qed.

(** A slot that is stored in full width reads the same. *)
Lemma slot_widened v : (if len (BytesToHash v) =? 0 then zero_hash else BytesToHash (BytesToHash v)) =
  (if len v =? 0 then zero_hash else BytesToHash v).
Proof.
  unfold len at 1. rewrite (BytesToHash_id (BytesToHash v)), BytesToHash_length by apply BytesToHash_length.
  destruct v; done.
Qed.

(** ** Import *)

(** The chain the genesis is imported into: empty, with the metadata of a coin
    of eighteen decimals, and codecs and globals that accept the values. *)
Record importable (p : EvmParams) (w : VmWorld W D) (ci : EvmCoinInfo) : Prop := {
  im_empty : vk_store (vw_state w) = ∅;
  im_params : is_ok (vp_Marshal p) = true;
  im_coin : is_ok (ci_Marshal ci) = true;
  im_load : exists md, md_Get (vk_world (vw_state w)) (ep_EvmDenom p) = Some md /\ display_decimals md = 18 /\
    ci = MkEvmCoinInfo (ep_EvmDenom p) (ep_EvmDenom p) (md_Display md) 18;
  im_globals : gl_once (vw_globals w) = true \/ is_ok (SetGlobalConfigVariables ci (vw_globals w)).1 = true;
}.

Lemma LoadEvmCoinInfo_run k p md : vm_GetParams k = Ok p -> md_Get (vk_world k) (ep_EvmDenom p) = Some md -> display_decimals md = 18 ->
  LoadEvmCoinInfo k = Ok (MkEvmCoinInfo (ep_EvmDenom p) (ep_EvmDenom p) (md_Display md) 18).
Proof. intros Hp Hm Hd. unfold LoadEvmCoinInfo. rewrite Hp. cbn [obind]. by rewrite Hm, Hd. Qed.

Lemma once_runs ci (g : Globals D) : gl_once g = true \/ is_ok (SetGlobalConfigVariables ci g).1 = true ->
  exists g', once_Do (SetGlobalConfigVariables ci) g = (Ok tt, g').
Proof.
  unfold once_Do. intros [->|[[] H]%is_ok_Ok]; [eauto|]. destruct (gl_once g); [eauto|].
  destruct (SetGlobalConfigVariables ci g) as [r g']. cbn in H. subst r. eauto.
Qed.

(** The store after the import of exported accounts. *)
Lemma import_runs k gs m w ci : contracts_ok k -> storage_keys_ok k -> vm_ExportGenesis k = Ok gs -> EvmParams_Validate (eg_Params gs) = Ok tt ->
  (forall a, is_Some (vk_store k !! CodeHashKey a) -> is_Some (auth_GetAccount (vk_world (vw_state w)) a)) ->
  importable (eg_Params gs) w ci ->
  exists w' bz bz', vm_InitGenesis (Some m) gs w = (Ok tt, w') /\ vp_Marshal (eg_Params gs) = Ok bz /\
    vk_store (vw_state w') = <[KeyPrefixEvmCoinInfo := bz']> (put_all (exported_entries k) (<[KeyPrefixParams := bz]> ∅)).
Proof.
  intros Hc Hs (_ & Hp & Ha)%export_run Hv Hacc [He [bz Hbz]%is_ok_Ok [bz' Hbz']%is_ok_Ok (md & Hmd & Hd & Hci) Hg].
  destruct w as [k0 g0]. cbn [vw_state vw_globals] in *. set (p := eg_Params gs) in *.
  assert (with_precompiles (sort_Strings (ep_ActiveStaticPrecompiles p)) p = p) as Hsort.
  { apply validate_active, ValidatePrecompiles_spec in Hv as (_ & _ & ->%sort_Strings_id). by destruct p. }
  set (k1 := set_store (<[KeyPrefixParams := bz]> (vk_store k0)) k0).
  assert (vm_SetParams p k0 = (Ok tt, k1)) as H1 by (apply SetParams_runs; by rewrite Hsort).
  set (k2 := set_store (put_all (exported_entries k) (vk_store k1)) k1).
  assert (init_accounts (eg_Accounts gs) k1 = (Ok tt, k2)) as H2.
  { rewrite Ha. apply init_accounts_run, Forall_forall. intros ga ([a h] & -> & Hin%(iterate_elem k Hc))%list_elem_of_fmap.
    cbn. destruct (Hc a h Hin) as (Hok & _). rewrite HexToAddress_Hex by done. apply Hacc. eauto. }
  assert (vm_GetParams k2 = Ok p) as Hp2.
  { unfold vm_GetParams. cbn. rewrite put_all_other, lookup_insert_eq; [by rewrite (vp_codec _ _ Hbz)|].
    intros ([i v] & Hi & Hin)%list_elem_of_fmap. cbn in Hi. subst i.
    by apply (exported_elem k Hc Hs) in Hin as (? & ? & ? & _ & _ & [[E _]|[[E _]|(? & ? & _ & E & _)]]). }
  set (k3 := set_store (<[KeyPrefixEvmCoinInfo := bz']> (vk_store k2)) k2).
  assert (InitEvmCoinInfo k2 = (Ok tt, k3)) as H3.
  { unfold InitEvmCoinInfo. rewrite (mbind_eq _ _ _ ci k2) by (apply mtry_Ok; split; [rewrite Hci; by apply LoadEvmCoinInfo_run|done]).
    unfold SetEvmCoinInfo. by rewrite (mbind_lift _ _ _ _ Hbz'). }
  destruct (once_runs ci g0 Hg) as [g' Hg']. exists (MkVmWorld k3 g'), bz, bz'. split_and!; [|done|cbn; by rewrite He].
  unfold vm_InitGenesis. fold p. rewrite bool_decide_false, Hp by done. cbn [AddPreinstalls].
  unfold mbind' at 1. unfold or_panic at 1. unfold on_state at 1. cbn [vw_state vw_globals]. rewrite H1.
  unfold mbind' at 1. cbn [mret]. unfold mbind' at 1. unfold on_state at 1. cbn [vw_state vw_globals]. rewrite H2.
  unfold mbind' at 1. unfold or_panic at 1. unfold on_state at 1. cbn [vw_state vw_globals]. rewrite H3.
  unfold mbind' at 1. unfold mtry, vm_GetEvmCoinInfo. cbn [vw_state vw_globals k3 vk_store set_store]. rewrite lookup_insert_eq, (ci_codec _ _ Hbz').
  unfold mbind', on_globals. cbn [must vw_globals vw_state]. by rewrite Hg'.
Qed.

(** A configuration stores valid coin information. *)
Lemma Configure_coin ec (g g' : Globals D) ec' : ec_extendedDefaultExtraEIPs ec = [] -> Configure ec g = (Ok ec', g') ->
  gl_coinInfo g' = Some (ec_evmCoinInfo ec) /\ validateCoinInfo (ec_evmCoinInfo ec) = Ok tt.
Proof.
  intros He H. unfold Configure in H. rewrite He in H. cbn [extendDefaultExtraEIPs] in H.
  apply mbind_Ok in H as (? & ? & [_ ->]%mguard_Ok & H). apply mbind_Ok in H as ([] & g1 & H1 & H).
  apply mbind_Ok in H as (? & ? & [_ ->]%mret_Ok & H). apply mbind_Ok in H as ([] & g2 & H2 & [_ ->]%mret_Ok).
  unfold on_libs in H2. destruct (vm_ExtendActivators _ _) as [r d]. injection H2 as _ <-.
  unfold on_coinInfo, setCoinInfo in H1. destruct (validateCoinInfo (ec_evmCoinInfo ec)) as [[]| |]; [|done..]. by injection H1 as <-.
Qed.

(** Restoring the globals of a restarted node: once, from the store. *)
Lemma hydrate_once (w w' : VmWorld W D) : hydrateGlobals w = (Ok tt, w') ->
  vw_state w' = vw_state w /\ gl_once (vw_globals w') = true /\
  (gl_once (vw_globals w) = true -> w' = w) /\
  (gl_once (vw_globals w) = false -> exists ci, vm_GetEvmCoinInfo (gl_coinInfo (vw_globals w)) (vw_state w) = Ok ci /\
     gl_coinInfo (vw_globals w') = Some ci /\ ci_Decimals ci = 18 /\ ci_Denom ci = ci_ExtendedDenom ci).
Proof.
  intros H. unfold hydrateGlobals in H. apply mbind_Ok in H as (ci & w1 & [Hci ->]%mtry_Ok & H).
  destruct w as [k g]. cbn [vw_state vw_globals] in *. unfold on_globals, once_Do in H. cbn [vw_globals vw_state] in H.
  destruct (gl_once g) eqn:Ho; [by injection H as <-|].
  destruct (SetGlobalConfigVariables ci g) as [r g'] eqn:Hg. injection H as -> <-. cbn. split_and!; [done|done|done|].
  intros _. exists ci. split; [done|]. unfold SetGlobalConfigVariables in Hg. apply mbind_Ok in Hg as ([] & g1 & _ & Hg).
  apply mbind_Ok in Hg as (ec & g2 & Hg & [_ ->]%mret_Ok). unfold or_panic in Hg.
  destruct (Configure _ g1) as [[ec'| |] g3] eqn:Hc; [|done..]. injection Hg as -> ->.
  apply Configure_coin in Hc as [Hi Hv]; [|done]. split; [done|]. unfold validateCoinInfo in Hv. minv. zify_bool. done.
Qed.

(** C19: Exporting the module and importing the result into a new chain whose
    accounts are there restores the parameters, every code hash and code, and
    the storage of every contract; the export passes validation. The storage of
    an account without code is not exported, and reads as zero afterwards. *)
Theorem vm_genesis_roundtrip k gs m w ci : contracts_ok k -> storage_keys_ok k -> vm_ExportGenesis k = Ok gs ->
  EvmParams_Validate (eg_Params gs) = Ok tt ->
  (forall a, is_Some (vk_store k !! CodeHashKey a) -> is_Some (auth_GetAccount (vk_world (vw_state w)) a)) ->
  importable (eg_Params gs) w ci ->
  EvmGenesis_Validate gs = Ok tt /\ exists w', vm_InitGenesis (Some m) gs w = (Ok tt, w') /\
    let k' := vw_state w' in
    vm_GetParams k' = vm_GetParams k /\
    (forall a, vk_GetCodeHash k' a = vk_GetCodeHash k a) /\
    (forall a h, vk_store k !! CodeHashKey a = Some h -> vk_GetCode k' h = vk_GetCode k h) /\
    (forall a x, addr_ok a -> vk_GetState k' a x = if kv_has (vk_store k) (CodeHashKey a) then vk_GetState k a x else zero_hash).
Proof.
  intros Hc Hs Hx Hv Hacc Him. split; [by apply (exported_valid k)|].
  destruct (import_runs k gs m w ci Hc Hs Hx Hv Hacc Him) as (w' & bz & bz' & Hrun & Hbz & Hst). apply export_run in Hx as (Hp & _ & _).
  exists w'. split; [done|]. cbn zeta.
  assert (forall i, i <> KeyPrefixEvmCoinInfo -> vk_store (vw_state w') !! i = put_all (exported_entries k) (<[KeyPrefixParams := bz]> ∅) !! i) as Hl.
  { intros i Hi. rewrite Hst. by apply lookup_insert_ne. }
  split_and!.
  - unfold vm_GetParams at 1. rewrite Hl by done. rewrite put_all_other, lookup_insert_eq, (vp_codec _ _ Hbz); [done|].
    intros ([i v] & Hi & Hin)%list_elem_of_fmap. cbn in Hi. subst i.
    by apply (exported_elem k Hc Hs) in Hin as (? & ? & ? & _ & _ & [[E _]|[[E _]|(? & ? & _ & E & _)]]).
  - intros a. unfold vk_GetCodeHash, kv_get. by rewrite Hl, (imported_hash k Hc Hs) by done.
  - intros a h Ha. unfold vk_GetCode. rewrite Hl by done. by eapply (imported_code k Hc Hs).
  - intros a x Ha. unfold vk_GetState, kv_get. rewrite Hl, (imported_slot k Hc Hs) by done.
    unfold kv_has. destruct (vk_store k !! CodeHashKey a) as [h|] eqn:Hh; [|done]. rewrite bool_decide_true by eauto.
    destruct (vk_store k !! StateKey a x) as [v|]; [|done]. apply slot_widened.
Qed.
End genesis.

End theorems.

(** ** Concrete libraries, and the theorems at an input *)

Lemma digit_hex c : in_range 48 (ord c) 57 = true -> hex_val c = Some (ord c - 48) /\ hex_digit (ord c - 48) = c.
Proof.
  intros H. unfold hex_val. rewrite H. split; [done|]. apply in_range_true in H. unfold hex_digit.
  rewrite (proj2 (Z.ltb_lt _ _)) by lia. replace (48 + (ord c - 48)) with (ord c) by lia. apply chr_ord.
Qed.

Lemma hex_encode_digits n s : String.length s = (2 * n)%nat -> forallb (fun c => in_range 48 (ord c) 57) (to_list s) = true ->
  exists b, hex_decode s = Some b /\ hex_encode b = s /\ String.length b = n.
Proof.
  revert s. induction n as [|n IH]; intros s Hl Hd; [destruct s; [by exists EmptyString|done]|].
  destruct s as [|c [|d s]]; [done|cbn in Hl; lia|]. cbn [to_list forallb] in Hd.
  apply andb_true_iff in Hd as [Hc Hd]. apply andb_true_iff in Hd as [Hd Hs].
  destruct (IH s) as (b & Hb & He & Hn); [cbn in Hl; lia|done|].
  destruct (digit_hex c Hc) as [Hcv Hcd], (digit_hex d Hd) as [Hdv Hdd]. apply in_range_true in Hc, Hd.
  exists (String (chr (16 * (ord c - 48) + (ord d - 48))) b). cbn [hex_decode]. rewrite Hcv, Hdv, Hb. split_and!; [done| |cbn; lia].
  cbn [hex_encode]. rewrite ord_chr by lia.
  replace (_ / 16) with (ord c - 48) by (rewrite Z.mul_comm, Z.div_add_l, Z.div_small; lia).
  replace (_ mod 16) with (ord d - 48) by (rewrite Z.add_comm, Z.mul_comm, Z_mod_plus_full, Z.mod_small; lia).
  by rewrite Hcd, Hdd, He.
Qed.

Definition access_code (t : AccessType) : nat + Z :=
  match t with AccessTypePermissionless => inl 0%nat | AccessTypeRestricted => inl 1%nat | AccessTypePermissioned => inl 2%nat | AccessTypeUnknown n => inr n end.
Definition code_access (c : nat + Z) : AccessType :=
  match c with inl 0%nat => AccessTypePermissionless | inl 1%nat => AccessTypeRestricted | inl _ => AccessTypePermissioned | inr n => AccessTypeUnknown n end.
Definition evm_tuple (p : EvmParams) :=
  (ep_EvmDenom p, ep_ExtraEIPs p, ep_EVMChannels p,
   (access_code (act_AccessType (ac_Create (ep_AccessControl p))), act_List (ac_Create (ep_AccessControl p))),
   (access_code (act_AccessType (ac_Call (ep_AccessControl p))), act_List (ac_Call (ep_AccessControl p))),
   ep_ActiveStaticPrecompiles p, ep_HistoryServeWindow p, ep_ExtendedDenomOptions p).
Definition tuple_evm t : EvmParams :=
  let '(d, e, c, (t1, l1), (t2, l2), a, h, x) := t in
  MkEvmParams d e c (MkAccessControl (MkAccessControlType (code_access t1) l1) (MkAccessControlType (code_access t2) l2)) a h x.
Lemma tuple_evm_tuple p : tuple_evm (evm_tuple p) = p.
Proof. destruct p as [d e c [[[] l1] [[] l2]] a h x]; done. Qed.

(** A codec from a countable image of the values. *)
Definition tuple_marshal {A} `{Countable A} (x : A) : outcome bytes := Ok (pos_digits (encode x)).
Definition tuple_unmarshal {A} `{Countable A} (bz : bytes) : outcome A :=
  match digits_pos bz ≫= decode with Some t => Ok t | None => Err "cannot decode" end.
Lemma tuple_codec {A} `{Countable A} (x : A) bz : tuple_marshal x = Ok bz -> tuple_unmarshal bz = Ok x.
Proof. intros [= <-]. unfold tuple_unmarshal. rewrite digits_pos_digits. simpl. by rewrite decode_encode. Qed.

Definition coin_tuple (i : EvmCoinInfo) := (ci_Denom i, ci_ExtendedDenom i, ci_DisplayDenom i, ci_Decimals i).
Definition tuple_coin t : EvmCoinInfo := let '(a, b, c, d) := t in MkEvmCoinInfo a b c d.

#[export] Instance ref_vmlibs : VmLibs := {|
  ValidEip := fun z => 0 <=? z;
  ChannelIdentifierValidator := fun s => oguard (has_prefix "channel-" s) "invalid identifier";
  PrecompiledAddressesPrague := [BytesToAddress (String (chr 1) EmptyString)];
  Hex2Bytes := fun s => default EmptyString (hex_decode s);
  Bytes2Hex := hex_encode;
  FromHex := fun s => default EmptyString (hex_decode (strip_0x s));
  HexToHash := fun s => BytesToHash (default EmptyString (hex_decode (strip_0x s)));
  vp_Marshal := fun p => tuple_marshal (evm_tuple p);
  vp_Unmarshal := fun bz => olet t <- tuple_unmarshal bz; Ok (tuple_evm t);
  ci_Marshal := fun i => tuple_marshal (coin_tuple i);
  ci_Unmarshal := fun bz => olet t <- tuple_unmarshal bz; Ok (tuple_coin t);
  DefaultBondDenom := "stake";
  HistoryStorageAddress := BytesToAddress "history";
  HistoryStorageCode := "code";
|}.

#[export] Instance ref_vmlib_laws : @VmLibLaws ref_eth20 ref_vmlibs.
Proof.
  split.
  - intros b. cbn. by rewrite hex_decode_encode.
  - intros h Hh. cbn. change (strip_0x _) with (hex_encode h). rewrite hex_decode_encode. by apply BytesToHash_id.
  - intros h. unfold visible_text. cbn [Hash_Hex ref_eth20]. rewrite to_list_app, forallb_app. cbn -[hex_encode].
    eapply forallb_imp; [|apply hex_encode_lower]. intros c Hc%lower_hex_range. apply in_range_true. lia.
  - intros s. unfold digit_literal. intros [[Hp Hl]%andb_true_iff Hd]%andb_true_iff. apply has_prefix_app in Hp as (t & -> & Ht).
    cbn [String.length] in Ht. rewrite Ht in Hd. apply Z.eqb_eq in Hl. unfold len in Hl. rewrite string_app_length in Hl. cbn [String.length] in Hl.
    destruct (hex_encode_digits 20 t) as (b & Hb & He & Hn); [lia|done|]. cbn [Address_Hex HexToAddress ref_eth20].
    change (strip_0x ("0x" +:+ t)) with t. rewrite Hb. change (default EmptyString (Some b)) with b. by rewrite BytesToAddress_id, He.
  - intros p bz H. cbn in *. rewrite (tuple_codec _ _ H). cbn [obind]. by rewrite tuple_evm_tuple.
  - intros i bz H. cbn in *. rewrite (tuple_codec _ _ H). by destruct i.
Qed.

Definition xit_metadata : Metadata := MkMetadata EmptyString [MkDenomUnit "axit" 0 []; MkDenomUnit "xit" 18 []] "axit" "xit" "Xitcoin" "XIT" EmptyString EmptyString.
#[export] Instance ref_metadata : BankMetadata rworld := {| md_Get := fun _ d => if String.eqb d "axit" then Some xit_metadata else None |}.
#[export] Instance ref_globals : GlobalLibs unit := {|
  sdk_RegisterDenom := fun _ _ => mret tt; sdk_SetBaseDenom := fun _ => mret tt; vm_ExtendActivators := fun _ => mret tt |}.

Lemma keccak_length l : String.length (Keccak256Hash l) = 32%nat.
Proof. apply sha256_length. Qed.

Definition some_params : EvmParams := MkEvmParams "axit" [] [] DefaultAccessControl [] 100 None.
Definition bob_contract : Preinstall := MkPreinstall "Counter" (Address_Hex bob) "0x6001".

(** Governance activates two precompiles of a chain without any. *)
Lemma enable_adds_exactly_witness : is_ok (EnableStaticPrecompiles (W := rworld) [alice; bob] ex_state).1 = true.
Proof.
  pose proof (enable_adds_exactly [alice; bob] ex_state zero_params) as H.
  apply (H eq_refl eq_refl (fun _ => eq_refl) ltac:(repeat constructor)). split; [by repeat constructor; set_solver|].
  by repeat constructor; set_solver.
Defined.

(** A call of the vesting address. *)
Lemma vesting_precompile_panics_witness : exists e h', GetPrecompilesCallHook (Some (DefaultStaticPrecompiles true))
  (eg_Params (NewEVMGenesisState [] EmptyString EmptyString)) (Some empty_store) (HexToAddress VestingPrecompileAddress)
  (MkHookEvm ∅ newAccessList) = (Panic e, h').
Proof.
  pose proof (vesting_precompile_panics true [] EmptyString EmptyString (HexToAddress VestingPrecompileAddress)) as H.
  specialize (H (HexToAddress_length _)). destruct H as ([_ [e He]] & _ & H3).
  - split; [done|]. intros [Hx|Hx]%elem_of_cons; [by vm_compute in Hx|by apply elem_of_nil in Hx].
  - specialize (H3 (Some empty_store) e (MkHookEvm ∅ newAccessList) He). exists e.
    destruct (GetPrecompilesCallHook _ _ _ _ _) as [r h']. cbn in H3. subst r. by exists h'.
Defined.

(** A contract for bob, beside the account of alice. *)
Lemma preinstalls_never_overwrite_witness : exists k', AddPreinstalls [bob_contract] ex_state = (Ok tt, k') /\
  kept ex_state k' /\ vk_GetCodeHash k' bob = pi_hash bob_contract.
Proof.
  destruct (AddPreinstalls [bob_contract] ex_state) as [r k'] eqn:E.
  pose proof (preinstalls_never_overwrite keccak_length [bob_contract] ex_state r k' E) as [Hk Hl].
  assert (r = Ok tt) as -> by (apply (f_equal fst) in E; vm_compute in E; by symmetry in E).
  exists k'. split; [done|]. split; [exact Hk|]. specialize (Hl eq_refl). apply Forall_cons in Hl as [(_ & _ & Hh) _].
  assert (pi_addr bob_contract = bob) as Ha by (by vm_compute). by rewrite Ha in Hh.
Defined.

(** *** A chain with a contract and a slot *)

Definition params_bytes : bytes := pos_digits (encode (evm_tuple some_params)).
Definition chain : VmState rworld :=
  vk_SetState bob slot1 word1 (installed bob_contract (MkVmState {[KeyPrefixParams := params_bytes]} (vk_world ex_state))).

Lemma chain_store i v : vk_store chain !! i = Some v -> i = StateKey bob slot1 \/ i = CodeKey (pi_hash bob_contract) /\ v = FromHex "0x6001" \/
  i = CodeHashKey (pi_addr bob_contract) /\ v = pi_hash bob_contract \/ i = KeyPrefixParams.
Proof.
  unfold chain, vk_SetState. cbn [vk_store set_store]. rewrite installed_store. cbn [vk_store].
  intros [[<- <-]|[_ [[<- <-]|[_ [[<- <-]|[_ [<- _]%lookup_singleton_Some]]%lookup_insert_Some]]%lookup_insert_Some]]%lookup_insert_Some; auto.
Qed.
Lemma chain_params : vm_GetParams chain = Ok some_params.
Proof.
  unfold vm_GetParams. assert (vk_store chain !! KeyPrefixParams = Some params_bytes) as ->.
  { unfold chain, vk_SetState. cbn [vk_store set_store]. rewrite installed_store. cbn [vk_store].
    by rewrite !lookup_insert_ne, lookup_singleton_eq. }
  assert (vp_Unmarshal params_bytes = Ok some_params) as ->; [|done]. by apply vp_codec.
Qed.
Lemma chain_contracts : contracts_ok chain.
Proof.
  intros a h [E|[[E _]|[[E ->]|E]]]%chain_store; [done|done| |done]. apply CodeHashKey_inj in E as ->. split_and!.
  - apply HexToAddress_length.
  - apply keccak_length.
  - by vm_compute.
  - exists (FromHex "0x6001"). split_and!; [|by vm_compute|done]. unfold chain, vk_SetState. cbn [vk_store set_store]. rewrite installed_store.
    by rewrite lookup_insert_ne, lookup_insert_eq.
Qed.
Lemma chain_slots : storage_keys_ok chain.
Proof.
  intros a t v Ha [E|[[E _]|[[E _]|E]]]%chain_store; [|done..].
  by apply (StateKey_inj a bob t slot1) in E as [_ ->].
Qed.

(** The new chain: the accounts are there, nothing else is. *)
Definition new_chain : VmWorld rworld unit := MkVmWorld (MkVmState ∅ (vk_world chain)) (MkGlobals None false [] tt).

Lemma vm_genesis_roundtrip_witness : exists gs w', vm_ExportGenesis chain = Ok gs /\
  vm_InitGenesis (Some alice) gs new_chain = (Ok tt, w') /\ vk_GetState (vw_state w') bob slot1 = word1.
Proof.
  destruct (vm_ExportGenesis chain) as [gs| |] eqn:E; [|by unfold vm_ExportGenesis in E; rewrite chain_params in E..].
  pose proof E as (Hp & _)%export_run. rewrite chain_params in Hp. injection Hp as Hp.
  pose proof (vm_genesis_roundtrip chain gs alice new_chain (MkEvmCoinInfo "axit" "axit" "xit" 18)) as H.
  destruct H as (_ & w' & Hw & _ & _ & _ & Hst).
  - exact chain_contracts.
  - exact chain_slots.
  - exact E.
  - rewrite <- Hp. by vm_compute.
  - intros a [h [Ea|[[Ea _]|[[Ea _]|Ea]]]%chain_store]; [done|done| |done]. apply CodeHashKey_inj in Ea as ->.
    change (is_Some (auth_GetAccount (vk_world (installed bob_contract (MkVmState {[KeyPrefixParams := params_bytes]} (vk_world ex_state)))) (pi_addr bob_contract))).
    rewrite installed_get, String.eqb_refl. eauto.
  - rewrite <- Hp. split; [done|done|done|by exists xit_metadata|]. right. by vm_compute.
  - exists gs, w'. split; [done|]. split; [exact Hw|]. rewrite Hst by done.
    assert (kv_has (vk_store chain) (CodeHashKey bob) = true) as -> by (by vm_compute). by vm_compute.
Defined.
