(* ===== verification/PrecompileMsgs.v ===== *)
(** * The precompiles of the SDK modules: arguments, messages, servers

    What the precompiles of src/precompiles/{staking,distribution,gov,slashing}
    share: the decoded call arguments, precompiles/common/types.go, the messages
    they pass to the servers of the SDK modules, and the events they log. The
    servers, their queriers and the address codecs are the SDK's. *)

From Stdlib Require Import ZArith Lia List String Ascii Bool.
From stdpp Require Import base gmap strings list.
From S2P Require Import Prelude GoStrings Sdk AccessList StateDB Precompile.
Local Open Scope Z_scope.
Local Open Scope go_scope.

(** ** Arguments

    What [abi.Arguments.Unpack] yields for the types of these interfaces. An
    argument of type [bytes] is a slice of bytes, coins and vote options are
    slices of structs. *)

Record Description := MkDescription { ds_Moniker : string; ds_Identity : string; ds_Website : string; ds_SecurityContact : string; ds_Details : string }.
Record CommissionRates := MkCommission { cm_Rate : Z; cm_MaxRate : Z; cm_MaxChangeRate : Z }.
Record PageRequest := MkPageRequest { pr_Key : option bytes; pr_Offset : Z; pr_Limit : Z; pr_CountTotal : bool; pr_Reverse : bool }.

Inductive abi_arg :=
  | PAddress (a : addr)
  | PString (s : string)
  | PBytes (b : bytes)
  | PBig (z : Z)
  | PU64 (z : Z)
  | PU32 (z : Z)
  | PU8 (z : Z)
  | PCoins (l : list (string * Z))
  | PDescription (d : Description)
  | PCommission (c : CommissionRates)
  | POptions (l : list (Z * string))
  | PPage (p : PageRequest)
  | PHeight (revision height : Z).

Definition ErrInvalidNumberOfArgs : error := "invalid number of arguments".
Definition ErrRequesterIsNotMsgSender : error := "msg.sender address does not match the requester address".
Definition ErrInvalidDelegator : error := "invalid delegator address".
Definition ErrInvalidValidator : error := "invalid validator address".
Definition ErrInvalidAmount : error := "invalid amount".
Definition ErrInvalidType : error := "invalid type".
Definition ErrInvalidHexAddress : error := "invalid hex address address".
Definition ErrCopyArgs : error := "error while unpacking args".
Definition ErrUnknownMethod : error := "unknown method".

(** [args[i].(common.Address)], also refusing the zero address. *)
Definition arg_address (e : error) (v : abi_arg) : outcome addr :=
  match v with PAddress a => if String.eqb a zero_address then Err e else Ok a | _ => Err e end.
Definition arg_string (v : abi_arg) : outcome string := match v with PString s => Ok s | _ => Err ErrInvalidType end.
(** [s, _ := args[i].(string)] *)
Definition arg_string_or_empty (v : abi_arg) : string := match v with PString s => s | _ => EmptyString end.
Definition arg_big (e : error) (v : abi_arg) : outcome Z := match v with PBig z => Ok z | _ => Err e end.
Definition arg_u64 (e : error) (v : abi_arg) : outcome Z := match v with PU64 z => Ok z | _ => Err e end.

(** [big.Int.Int64] of a value that is not negative: its low 64 bits. *)
Definition Int64 (z : Z) : Z := let l := z mod 2 ^ 64 in if l <? 2 ^ 63 then l else l - 2 ^ 64.

(** [time.Time] as nanoseconds since the epoch, and its [Unix]. *)
Definition Unix (t : Z) : Z := t / 10 ^ 9.

(** [query.PageResponse]; responses hold a pointer to one. *)
Record PageResponse := MkPageResponse { ps_NextKey : bytes; ps_Total : Z }.
Definition page_response (p : option PageResponse) : PageResponse := default (MkPageResponse EmptyString 0) p.

(** ** base64.StdEncoding

    Line breaks are skipped; padding completes the last group of four. *)

Definition base64_value (c : ascii) : option Z :=
  let n := ord c in
  if in_range 65 n 90 then Some (n - 65)
  else if in_range 97 n 122 then Some (n - 71)
  else if in_range 48 n 57 then Some (n + 4)
  else if n =? 43 then Some 62
  else if n =? 47 then Some 63
  else None.
Definition is_pad (c : ascii) : bool := ord c =? 61.
Fixpoint base64_groups (l : list ascii) : option (list ascii) :=
  match l with
  | [] => Some []
  | a :: b :: c :: d :: rest =>
    match base64_value a, base64_value b with
    | Some x, Some y =>
      let b1 := chr (x * 4 + y / 16) in
      match base64_value c with
      | None => if is_pad c && is_pad d && bool_decide (rest = []) then Some [b1] else None
      | Some z =>
        let b2 := chr ((y mod 16) * 16 + z / 4) in
        match base64_value d with
        | None => if is_pad d && bool_decide (rest = []) then Some [b1; b2] else None
        | Some w => match base64_groups rest with Some r => Some (b1 :: b2 :: chr ((z mod 4) * 64 + w) :: r) | None => None end
        end
      end
    | _, _ => None
    end
  | _ => None
  end.
Definition base64_char (n : Z) : ascii :=
  chr (if n <? 26 then n + 65 else if n <? 52 then n + 71 else if n <? 62 then n - 4 else if n =? 62 then 43 else 47).
Definition pad : ascii := chr 61.
Fixpoint base64_chars (l : list ascii) : list ascii :=
  match l with
  | [] => []
  | [a] => [base64_char (ord a / 4); base64_char (ord a mod 4 * 16); pad; pad]
  | [a; b] => [base64_char (ord a / 4); base64_char (ord a mod 4 * 16 + ord b / 16); base64_char (ord b mod 16 * 4); pad]
  | a :: b :: c :: l' =>
    base64_char (ord a / 4) :: base64_char (ord a mod 4 * 16 + ord b / 16) ::
    base64_char (ord b mod 16 * 4 + ord c / 64) :: base64_char (ord c mod 64) :: base64_chars l'
  end.
Definition base64_EncodeToString (b : bytes) : string := of_list (base64_chars (to_list b)).
Definition base64_DecodeString (s : string) : outcome bytes :=
  match base64_groups (List.filter (fun c => negb ((ord c =? 10) || (ord c =? 13))) (to_list s)) with
  | Some l => Ok (of_list l)
  | None => Err "illegal base64 data"
  end.

(** ** common/types.go *)

Class SdkCoins := {
  Coin_Validate : Coin -> outcome unit;
  Coins_Sort : list Coin -> list Coin;
  Coins_Add : list Coin -> list Coin -> outcome (list Coin);
  Coins_AmountOf : list Coin -> string -> outcome Z;
}.

Fixpoint coin_structs (l : list (string * Z)) : outcome (list (string * Z)) :=
  match l with
  | [] => Ok []
  | c :: l' => odo oguard (negb (String.eqb c.1 EmptyString)) "invalid coin"; olet r <- coin_structs l'; Ok (c :: r)
  end.
(** An empty slice of any type has no coins; other slices lack the fields, and
    looking them up in a byte panics. *)
Definition ToCoins (v : abi_arg) : outcome (list (string * Z)) :=
  match v with
  | PCoins l => coin_structs l
  | POptions [] | PBytes EmptyString => Ok []
  | POptions _ => Err "coin tuple does not have expected fields"
  | PBytes _ => Panic "call of reflect.Value.FieldByName on uint8 Value"
  | _ => Err "expected slice"
  end.

Section coins.
Context {Ma : SdkMath} {Co : SdkCoins}.

Fixpoint sdk_coins (l : list (string * Z)) : outcome (list Coin) :=
  match l with
  | [] => Ok []
  | c :: l' =>
    olet amount <- NewIntFromBigInt c.2;
    odo Coin_Validate (MkCoin c.1 amount);
    olet r <- sdk_coins l';
    Ok (MkCoin c.1 amount :: r)
  end.
Definition NewSdkCoinsFromCoins (l : list (string * Z)) : outcome (list Coin) := olet r <- sdk_coins l; Ok (Coins_Sort r).
End coins.

(** [fmt.Errorf(e, ...)] in place of an error. *)
Definition oreplace {A} (e : error) (m : outcome A) : outcome A := match m with Err _ => Err e | m => m end.

Definition NewCoinsResponse (amount : list Coin) : list (string * Z) := map (fun c => (Denom c, Amount c)) amount.

(** [sdk.DecCoin], its amount with eighteen decimals; [TruncateInt] rounds
    towards zero. *)
Record DecCoin := MkDecCoin { dc_Denom : string; dc_Amount : Z }.
Record CmnDecCoin := MkCmnDecCoin { cd_Denom : string; cd_Amount : Z; cd_Precision : Z }.
Record CmnDec := MkCmnDec { de_Value : Z; de_Precision : Z }.
Definition LegacyPrecision : Z := 18.
Definition TruncateInt (d : Z) : Z := Z.quot d (10 ^ LegacyPrecision).
Definition NewDecCoinsResponse (amount : list DecCoin) : list CmnDecCoin :=
  map (fun c => MkCmnDecCoin (dc_Denom c) (TruncateInt (dc_Amount c)) LegacyPrecision) amount.

(** ** Address codecs *)

Class AddrCodecs := {
  addrCdc_BytesToString : bytes -> outcome string;
  valCodec_BytesToString : bytes -> outcome string;
  consCodec_BytesToString : bytes -> outcome string;
  ValAddress_String : bytes -> string;
  ConsAddressFromBech32 : string -> outcome bytes;
  Bech32ifyAddressBytes : string -> bytes -> outcome string;
  Bech32AccountAddrPrefix : string;
}.

(** utils.HexAddressFromBech32String *)
Definition HexAddressFromBech32String {Ty : SdkTypes} {Ac : AddrCodecs} (s : string) : outcome addr :=
  match AccAddressFromBech32 s with
  | Err _ =>
    match ValAddressFromBech32 s with
    | Err _ => olet bz <- owrap "failed to convert bech32 string to address" (ConsAddressFromBech32 s); Ok (BytesToAddress bz)
    | Ok bz => Ok (BytesToAddress bz)
    | Panic e => Panic e
    end
  | Ok bz => Ok (BytesToAddress bz)
  | Panic e => Panic e
  end.

(** ** Running a precompile

    The state is the chain's, [W], and the logs added to the state database. A
    log is kept as its event with the decoded fields: topics and data are the
    ABI encoding of them. *)

Inductive PEvent :=
  | EvCreateValidator (validator : addr) (value : Z)
  | EvEditValidator (validator : addr) (commissionRate minSelfDelegation : Z)
  | EvDelegate (delegator validator : addr) (amount newShares : Z)
  | EvUnbond (delegator validator : addr) (amount completionTime : Z)
  | EvRedelegate (delegator validatorSrc validatorDst : addr) (amount completionTime : Z)
  | EvCancelUnbondingDelegation (delegator validator : addr) (amount creationHeight : Z)
  | EvClaimRewards (delegator : addr) (amount : Z)
  | EvSetWithdrawAddress (caller : addr) (withdraw : string)
  | EvWithdrawDelegatorReward (delegator validator : addr) (amount : Z)
  | EvWithdrawValidatorCommission (validator : string) (commission : Z)
  | EvFundCommunityPool (depositor : addr) (denom : string) (amount : Z)
  | EvDepositValidatorRewardsPool (depositor validator : addr) (denom : string) (amount : Z)
  | EvSubmitProposal (proposer : addr) (proposalId : Z)
  | EvCancelProposal (proposer : addr) (proposalId : Z)
  | EvGovDeposit (depositor : addr) (proposalId : Z) (amount : list (string * Z))
  | EvVote (voter : addr) (proposalId option : Z)
  | EvVoteWeighted (voter : addr) (proposalId : Z) (options : list (Z * string))
  | EvValidatorUnjailed (validator : addr)
  | EvIBCTransfer (sender : addr) (receiver sourcePort sourceChannel denom : string) (amount : Z) (memo : string).

Section run.
Context {W : Type}.

Record LState := MkLState { ls_world : W; ls_logs : list PEvent }.
Abbreviation ML := (M LState).
Definition in_world {A} (m : M W A) : ML A := fun s => let (r, w) := m (ls_world s) in (r, MkLState w (ls_logs s)).
Definition AddLog (e : PEvent) : ML unit := mmodify (fun s => MkLState (ls_world s) (ls_logs s ++ [e])).
Definition read_world {A} (f : W -> outcome A) : ML A := fun s => (f (ls_world s), s).

(** The caller must be the account the message acts for. *)
Definition check_sender (caller who : addr) : ML unit := mguard (String.eqb caller who) ErrRequesterIsNotMsgSender.
End run.
Arguments LState W : clear implicits.
