(* ===== verification/IbcCallbacks.v ===== *)
(** * x/ibc/callbacks: contracts called by packets

    keeper/keeper.go with types/keys.go, marshal.go and context.go of
    src/x/ibc/callbacks. The state is the [World] of x/erc20. A callback runs on
    two contexts: the caller's, and a cached one with a gas meter of its own
    whose writes reach the first when the callback is done ([CbState]). ibc-go's
    packet and callback data and the addresses of the SDK are parameters. *)

From Stdlib Require Import ZArith Lia List String Ascii Bool.
From stdpp Require Import base gmap strings list.
From S2P Require Import Prelude GoStrings Sdk StateDB Precompile EvmTx StateTransition Erc20Types Erc20Keeper Erc20Convert PrecompileMsgs.
Local Open Scope Z_scope.
Local Open Scope go_scope.

Definition ErrInvalidReceiverAddress : error := "invalid receiver address".
Definition ErrCallbackFailed : error := "callback failed".
Definition ErrInvalidCalldata : error := "invalid calldata in callback data".
Definition ErrContractHasNoCode : error := "contract has no code".
Definition ErrTokenPairNotFound : error := "token not registered".
Definition ErrNumberOverflow : error := "number overflow".
Definition ErrAllowanceFailed : error := "allowance failed".
Definition ErrEVMCallFailed : error := "evm call failed".
Definition ErrOutOfGas : error := "out of gas".

(** The data of a transfer packet, and the callback in its memo. *)
Record TransferData := MkTransferData { td_Denom : IbcDenom; td_Amount : string; td_Sender : string; td_Receiver : string; td_Memo : string }.
Record CallbackData := MkCallbackData { cd_CommitGasLimit : Z; cd_Calldata : bytes }.
Record CbPacket := MkCbPacket { cp_Packet : Packet; cp_Sequence : Z; cp_Data : bytes }.
(** The arguments of the two functions of a contract with callbacks. *)
Record CbCall := MkCbCall { cc_Channel : string; cc_Port : string; cc_Sequence : Z; cc_Data : bytes; cc_Acknowledgement : option bytes }.

(** The gas meters: the one of the context, and [NewInfiniteGasMeterWithLimit]. *)
Class CallbackMeter (G : Type) {Go : GasOps G} := {
  gas_Remaining : G -> Z;
  gas_OutOfGas : G -> bool;
  gas_Infinite : Z -> G;
}.

Class CallbackLibs (B E G : Type) := {
  TransferV1 : string;
  EncodingJSON : string;
  DestinationCallbackKey : string;
  SourceCallbackKey : string;
  cb_UnmarshalPacketData : bytes -> string -> string -> outcome TransferData;
  (* nil when the packet has no callback under the key *)
  cb_GetCallbackData : TransferData -> string -> string -> Z -> Z -> string -> outcome (option CallbackData);
  address_Module : string -> list bytes -> bytes;
  cb_Pack : string -> CbCall -> outcome bytes;
  cb_NewAccount : addr -> M (World B E G) unit;       (* NewAccountWithAddress and SetAccount *)
  cb_IsContract : World B E G -> addr -> bool;
  (* the EVM in a context marked as the execution of a source callback *)
  cb_marked : Erc20Evm B E G;
}.

Section callbacks.
Context {Ma : SdkMath} {Ty : SdkTypes} {Eth : EthCommon} {Ibc : IbcLibs} {Ab : Erc20Abi} {Ac : AddrCodecs}.
Context {B E G : Type} {Bo : BankOps B} {Go : GasOps G} {Cm : CallbackMeter G} {Ev : Erc20Evm B E G} {Cl : CallbackLibs B E G}.
Abbreviation W := (World B E G).
Abbreviation MW := (M (World B E G)).

(** ** types/keys.go, types/marshal.go *)

Definition callbacks_ModuleName : string := "ibc-callbacks".
Definition GenerateIsolatedAddress (channelID sender : string) : addr :=
  String.substring 0 20 (address_Module callbacks_ModuleName [channelID; sender]).
Definition UnmarshalPacketData (data : bytes) : outcome (TransferData * string) :=
  olet d <- cb_UnmarshalPacketData data TransferV1 EncodingJSON;
  Ok (d, TransferV1).

(** ** The two contexts *)

Record CbState := MkCbState { cs_ctx : W; cs_cached : W }.
Definition on_ctx {A} (m : MW A) : M CbState A := fun s => let (r, w) := m (cs_ctx s) in (r, MkCbState w (cs_cached s)).
Definition on_cached {A} (m : MW A) : M CbState A := fun s => let (r, w) := m (cs_cached s) in (r, MkCbState (cs_ctx s) w).
Definition with_gas (g : G) (w : W) : W := MkWorld (w_store w) (w_bank w) (w_evm w) g.
(** [writeFn]: the writes of the cached context; the meters stay. *)
Definition writeFn : M CbState unit := mmodify (fun s => MkCbState (with_gas (w_gas (cs_ctx s)) (cs_cached s)) (cs_cached s)).
(** Runs on [ctx] and a cache of it that has a meter with a limit. A cache reads
    through, so what is written to the context before the first write to the
    cache is seen: the branch is taken here. *)
Definition with_cache {A} (limit : Z) (m : M CbState A) : MW A := fun w =>
  let (r, s) := m (MkCbState w (with_gas (gas_Infinite limit) w)) in (r, cs_ctx s).

(** Gas that was used in the cache is charged to the context. *)
Definition charge (used : Z) : M CbState unit := on_ctx (on_gas (gas_Consume used)).
Definition out_of_gas : M CbState bool := mreads (fun s => gas_OutOfGas (w_gas (cs_ctx s))).
Definition cached_remaining : M CbState Z := mreads (fun s => gas_Remaining (w_gas (cs_cached s))).

(** [NewIntFromUint64(...).BigInt()] of a gas amount is the amount. *)
Definition callback_data (key : string) (packet : CbPacket) (version : string) : MW (TransferData * option CallbackData) :=
  let! data <- mlift (cb_UnmarshalPacketData (cp_Data packet) version EmptyString);
  let! remaining <- mreads (fun w => gas_Remaining (w_gas w));
  let! cb <- mlift (cb_GetCallbackData data version (pk_DestinationPort (cp_Packet packet)) remaining remaining key);
  mret (data, cb).

(** ** keeper.go *)

Definition IBCSendPacketCallback : MW unit := mret tt.

(** The calls of the callback contract, from the check of the pair on. *)
Definition receive_calls (receiverHex contractAddr : addr) (tokenPair : TokenPair) (amount : Z) (calldata : bytes) : M CbState unit :=
  let! remainingGas <- cached_remaining;
  let! res <- (fun s => match on_cached (CallEVM receiverHex (GetERC20Contract tokenPair) true false (Some remainingGas) "approve"
                                  [AAddress contractAddr; ABigInt amount]) s with
                        | (Err _, s') => (Err ErrAllowanceFailed, s') | r => r end);
  do! charge (rs_GasUsed res);
  let remainingGas := remainingGas - rs_GasUsed res in
  let! out <- out_of_gas;
  do! mguard (negb (out || (remainingGas <? 0))) ErrOutOfGas;
  let! approveSuccess <- mlift (match abi_UnpackBool "approve" (rs_Ret res) with Err _ => Err ErrAllowanceFailed | r => r end);
  do! mguard approveSuccess ErrAllowanceFailed;
  let! res <- (fun s => match on_cached (CallEVMWithData receiverHex contractAddr calldata true false (Some remainingGas)) s with
                        | (Err _, s') => (Err ErrEVMCallFailed, s') | r => r end);
  do! charge (rs_GasUsed res);
  let! out <- out_of_gas;
  do! mguard (negb out) ErrOutOfGas;
  do! writeFn;
  let! balance <- on_ctx (BalanceOf (GetERC20Contract tokenPair) receiverHex);
  match balance with
  | None => mlift (Panic nil_deref)
  | Some b => mguard (b =? 0) ErrEVMCall
  end.

Definition IBCReceivePacketCallback (packet : CbPacket) (contractAddress version : string) : MW unit :=
  let! d <- callback_data DestinationCallbackKey packet version;
  let data := d.1 in
  match d.2 with
  | None => mret tt
  | Some cbData =>
    let! receiver <- mlift (match AccAddressFromBech32 (td_Receiver data) with Err _ => Err ErrInvalidReceiverAddress | r => r end);
    let! receiverHex <- mlift (match HexAddressFromBech32String (AccAddress_String receiver) with Err _ => Err ErrInvalidReceiverAddress | r => r end);
    let isolatedAddrHex := BytesToAddress (GenerateIsolatedAddress (pk_DestinationChannel (cp_Packet packet)) (td_Sender data)) in
    let! known <- mreads (fun w => bool_decide (is_Some (ak_GetAccount w receiver)));
    do! (if known then mret tt else cb_NewAccount receiver);
    do! mguard (String.eqb receiverHex isolatedAddrHex) ErrInvalidReceiverAddress;
    let contractAddr := HexToAddress contractAddress in
    let! isContract <- mreads (fun w => cb_IsContract w contractAddr);
    do! mguard isContract ErrContractHasNoCode;
    let! coin <- mlift (GetReceivedCoin (cp_Packet packet) (td_Denom data) (td_Amount data));
    let! found <- mreads (fun w => GetTokenPair (GetTokenPairID coin.1 (w_store w)) (w_store w));
    match found with
    | None => mfail ErrTokenPairNotFound
    | Some tokenPair =>
      match NewIntFromString (td_Amount data) with
      | None => mfail ErrNumberOverflow
      | Some amountInt => with_cache (cd_CommitGasLimit cbData) (receive_calls receiverHex contractAddr tokenPair amountInt (cd_Calldata cbData))
      end
    end
  end.

(** The call of a source callback: the contract calls itself, in a marked
    context. *)
Definition source_call (sender : addr) (method : string) (args : CbCall) : M CbState unit :=
  let! gas <- cached_remaining;
  let! res <- (fun s => match on_cached (let! data <- mlift (owrap "failed to create transaction data" (cb_Pack method args));
                                         CallEVMWithData (Ev := cb_marked) sender sender data true false (Some gas)) s with
                        | (Err _, s') => (Err ErrCallbackFailed, s') | r => r end);
  do! charge (rs_GasUsed res);
  let! out <- out_of_gas;
  do! mguard (negb out) ErrCallbackFailed;
  writeFn.

Definition IBCOnAcknowledgementPacketCallback (packet : CbPacket) (acknowledgement : bytes) (contractAddress packetSenderAddress version : string) : MW unit :=
  let! d <- callback_data SourceCallbackKey packet version;
  match d.2 with
  | None => mret tt
  | Some cbData =>
    do! mguard (len (cd_Calldata cbData) =? 0) ErrInvalidCalldata;
    let! sender <- mlift (HexAddressFromBech32String packetSenderAddress);
    let contractAddr := HexToAddress contractAddress in
    do! mguard (String.eqb contractAddr sender) ErrCallbackFailed;
    let! isContract <- mreads (fun w => cb_IsContract w contractAddr);
    do! mguard isContract ErrCallbackFailed;
    let pk := cp_Packet packet in
    with_cache (cd_CommitGasLimit cbData)
      (source_call sender "onPacketAcknowledgement"
         (MkCbCall (pk_SourceChannel pk) (pk_SourcePort pk) (cp_Sequence packet) (cp_Data packet) (Some acknowledgement)))
  end.

Definition IBCOnTimeoutPacketCallback (packet : CbPacket) (contractAddress packetSenderAddress version : string) : MW unit :=
  let! d <- callback_data SourceCallbackKey packet version;
  match d.2 with
  | None => mret tt
  | Some cbData =>
    do! mguard (len (cd_Calldata cbData) =? 0) ErrInvalidCalldata;
    let! senderAccount <- mlift (AccAddressFromBech32 packetSenderAddress);
    let sender := BytesToAddress senderAccount in
    let contractAddr := HexToAddress contractAddress in
    do! mguard (String.eqb contractAddr sender) ErrCallbackFailed;
    let! isContract <- mreads (fun w => cb_IsContract w contractAddr);
    do! mguard isContract ErrCallbackFailed;
    let pk := cp_Packet packet in
    with_cache (cd_CommitGasLimit cbData)
      (source_call sender "onPacketTimeout"
         (MkCbCall (pk_SourceChannel pk) (pk_SourcePort pk) (cp_Sequence packet) (cp_Data packet) None))
  end.
End callbacks.
