(* ===== verification/IbcCallbacksTheorems.v ===== *)
(** * x/ibc/callbacks: the theorems

    Whom a callback acts for, what a failed one leaves behind, and what a
    completed one has shown. *)

From Stdlib Require Import ZArith Lia List String Ascii Bool.
From stdpp Require Import base gmap strings list.
From S2P Require Import Prelude GoStrings Sdk Sha256 RefEnv AccessList StateDB Precompile EvmTx StateTransition Erc20Types Erc20Keeper Erc20Convert Erc20Facts Erc20Registry Erc20Backing Erc20Theorems PrecompileMsgs IbcCallbacks.
Local Open Scope Z_scope.
Local Open Scope go_scope.

Section theorems.
Context {Ma : SdkMath} {Ty : SdkTypes} {Eth : EthCommon} {Cr : EthCrypto} {Ibc : IbcLibs} {Ab : Erc20Abi} {Ac : AddrCodecs}.
Context {B E G : Type} {Bo : BankOps B} {Go : GasOps G} {Cm : CallbackMeter G} {Ev : Erc20Evm B E G} {Evl : Erc20EvmLaws B E G} {Cl : CallbackLibs B E G}.
Abbreviation W := (World B E G).

#[local] Instance same_preorder : PreOrder (same_but_gas (B := B) (E := E) (G := G)).
Proof. split; [done|]. intros w1 w2 w3 (?&?&?) (?&?&?). unfold same_but_gas. split_and!; congruence. Qed.

(** ** Views *)

Lemma mrel_runs {S A} (R : S -> S -> Prop) (m : M S A) : mrel R m <-> forall s r s', m s = (r, s') -> R s s'.
Proof.
  split; [intros H s r s' Hm; specialize (H s); by rewrite Hm in H|]. intros H s. eapply H, surjective_pairing.
Qed.

Lemma view_step from contract data cap : mrel same_but_gas (CallEVMWithData (Ev := Ev) from contract data false false cap).
Proof.
  assert (forall A (m : M G A), mrel same_but_gas (on_gas (B := B) (E := E) m)) as Hg.
  { intros A m. apply mrel_runs. intros w r w'. apply on_gas_same. }
  unfold CallEVMWithData. apply mrel_bind; [apply _|(apply mrel_const; [apply _|done])|]. intros n. apply mrel_bind; [apply _| |].
  - apply mrel_runs. intros w r w' H. by apply ApplyMessage_view in H as ->.
  - intros res. destruct (Failed res); repeat (apply mrel_bind; [apply _|apply Hg|intros _]); (apply mrel_const; [apply _|done]).
Qed.

Lemma BalanceOf_same contract a (w : W) r w' : BalanceOf contract a w = (r, w') -> same_but_gas w w'.
Proof.
  revert w r w'. apply mrel_runs. unfold BalanceOf. apply mrel_bind; [apply _| |].
  - apply mrel_runs. intros w r w'. unfold recover_err. destruct (CallEVM _ _ _ _ _ _ _ w) as [r1 w1] eqn:Hc. intros H.
    assert (w1 = w') as -> by (destruct r1; by injection H). revert Hc. unfold CallEVM, mbind', mlift.
    destruct (owrap _ _); [|by intros [= _ <-]..]. by apply mrel_runs, view_step.
  - intros [res|]; [|(apply mrel_const; [apply _|done])]. destruct (abi_Unpack _ _) as [[|[] ?]| |]; (apply mrel_const; [apply _|done]).
Qed.

(** ** Messages *)

(** A message that did not fail, sent as [from] without value. *)
Definition sent_as {Ev : Erc20Evm B E G} (from to : addr) (data : bytes) (cap : Z) (w : W) (res : TxResponse) (w' : W) : Prop :=
  exists n w1, ak_GetSequence w from = Ok n /\
    ev_ApplyMessage (call_message from to n (call_gas_limit (Some cap)) data) true false true w = (Ok res, w1) /\
    Failed res = false /\ same_but_gas w1 w'.

Lemma CallEVMWithData_sent {Ev' : Erc20Evm B E G} from to data cap (w : W) res w' :
  CallEVMWithData (Ev := Ev') from to data true false (Some cap) w = (Ok res, w') -> sent_as (Ev := Ev') from to data cap w res w'.
Proof.
  unfold CallEVMWithData. intros H. apply mbind_Ok in H as (n & w1 & [Hn ->]%mtry_Ok & H).
  apply mbind_Ok in H as (res' & w2 & Happ & H). destruct (Failed res') eqn:Hf.
  - exfalso. apply mbind_Ok in H as (? & ? & _ & H). apply mbind_Ok in H as (? & ? & _ & H). done.
  - apply mbind_Ok in H as (? & w3 & Hg%on_gas_same & [-> ->]%mret_Ok). exists n, w2. done.
Qed.

(** ** Receiving *)

(** A step that only touches the cache leaves the context. *)
Lemma on_cached_ctx {A} (m : M W A) s r s' : on_cached m s = (r, s') -> cs_ctx s' = cs_ctx s /\ m (cs_cached s) = (r, cs_cached s').
Proof. unfold on_cached. destruct (m (cs_cached s)). by intros [= <- <-]. Qed.
Lemma relabel_run {A} (m : M (@CbState B E G) A) e s r s' :
  match m s with (Err _, s1) => (Err e, s1) | x => x end = (r, s') -> exists r1, m s = (r1, s') /\ is_ok r1 = is_ok r /\ forall a, r = Ok a -> r1 = Ok a.
Proof. destruct (m s) as [[a|x|x] s1]; intros [= <- <-]; eexists; split_and!; done. Qed.
Lemma charge_run u (s : @CbState B E G) r s' : charge u s = (r, s') -> same_but_gas (cs_ctx s) (cs_ctx s') /\ cs_cached s' = cs_cached s.
Proof. unfold charge, on_ctx. destruct (on_gas _ _) as [r1 w1] eqn:Hg. intros [= _ <-]. split; [by eapply on_gas_same|done]. Qed.

(** A callback that completed its calls: the approval and the call, both as
    [A], one after the other. *)
Definition calls_done (A contract : addr) (tokenPair : TokenPair) (amount : Z) (calldata : bytes) (limit : Z) (w w' : W) : Prop :=
  exists data res1 res2 w1 w2, abi_Pack "approve" [AAddress contract; ABigInt amount] = Ok data /\
    sent_as A (GetERC20Contract tokenPair) data limit w res1 w1 /\
    sent_as A contract calldata (limit - rs_GasUsed res1) w1 res2 w2 /\ same_but_gas w2 w'.

Lemma receive_calls_run A contract tokenPair amount calldata s r s' :
  receive_calls A contract tokenPair amount calldata s = (r, s') ->
  (is_ok r = false /\ same_but_gas (cs_ctx s) (cs_ctx s')) \/
  (calls_done A contract tokenPair amount calldata (gas_Remaining (w_gas (cs_cached s))) (cs_cached s) (cs_ctx s') /\
   (r = Ok tt -> exists wb, BalanceOf (GetERC20Contract tokenPair) A wb = (Ok (Some 0), cs_ctx s'))).
Proof.
  intros H. unfold receive_calls in H. unfold cached_remaining in H. rewrite mbind_reads in H.
  set (limit := gas_Remaining (w_gas (cs_cached s))) in *.
  apply mbind_split in H as [(res1 & s1 & H1 & H)|(Hr & r1 & _ & H1)]; apply relabel_run in H1 as (q1 & [C1 H1]%on_cached_ctx & _ & Hq1).
  2:{ left. by rewrite C1. }
  specialize (Hq1 _ eq_refl) as ->. unfold CallEVM in H1. apply mbind_Ok in H1 as (data & ? & [Hp%owrap_Ok ->]%mlift_Ok & S1%CallEVMWithData_sent).
  apply mbind_split in H as [(? & s2 & H2 & H)|(Hr & r1 & _ & H2)]; apply charge_run in H2 as [C2 D2]; rewrite C1 in C2; [|by left].
  unfold out_of_gas in H at 1. rewrite mbind_reads in H.
  apply mbind_split in H as [(? & ? & [_ ->]%mguard_Ok & H)|(Hr & r1 & _ & [= _ <-])]; [|by left].
  apply mbind_split in H as [(ok & ? & [_ ->]%mlift_Ok & H)|(Hr & r1 & _ & [= _ <-])]; [|by left].
  apply mbind_split in H as [(? & ? & [_ ->]%mguard_Ok & H)|(Hr & r1 & _ & [= _ <-])]; [|by left].
  apply mbind_split in H as [(res2 & s3 & H3 & H)|(Hr & r1 & _ & H3)]; apply relabel_run in H3 as (q2 & [C3 H3]%on_cached_ctx & _ & Hq2); rewrite <- C3 in C2; [|by left].
  specialize (Hq2 _ eq_refl) as ->. rewrite D2 in H3. apply CallEVMWithData_sent in H3 as S2.
  apply mbind_split in H as [(? & s4 & H4 & H)|(Hr & r1 & _ & H4)]; apply charge_run in H4 as [C4 D4]; [|left; split; [done|by etransitivity]].
  unfold out_of_gas in H. rewrite mbind_reads in H.
  apply mbind_split in H as [(? & ? & [_ ->]%mguard_Ok & H)|(Hr & r1 & _ & [= _ <-])]; [|left; split; [done|by etransitivity]].
  right. apply mbind_split in H as [(? & ? & ->%mmodify_Ok & H)|(? & r1 & Hr & [= <- _])]; [|done].
  set (s5 := MkCbState (with_gas (w_gas (cs_ctx s4)) (cs_cached s4)) (cs_cached s4)) in *.
  assert (same_but_gas (cs_cached s3) (cs_ctx s5)) as H5 by (by rewrite <- D4).
  apply mbind_split in H as [(b & s6 & H6 & H)|(Hr & r1 & Hr1 & H6)].
  all: unfold on_ctx in H6; destruct (BalanceOf _ _ _) as [rb wb] eqn:Hb; pose proof (BalanceOf_same _ _ _ _ _ Hb) as H7; injection H6 as -> <-.
  - assert (cs_ctx s' = wb) as Hw by (destruct b; [injection H as _ <-|injection H as _ <-]; done). split.
    + exists data, res1, res2, (cs_cached s1), (cs_cached s3). rewrite Hw. split_and!; [done|done|done|by etransitivity].
    + intros ->. exists (cs_ctx s5). destruct b as [b|]; [|done]. apply mguard_Ok in H as [->%Z.eqb_eq _]. by rewrite Hw.
  - split; [|by intros ->]. exists data, res1, res2, (cs_cached s1), (cs_cached s3). split_and!; [done|done|done|by etransitivity].
Qed.

(** Running on a cache. *)
Lemma with_cache_run {A} limit (m : M CbState A) (w : W) r w' : with_cache limit m w = (r, w') ->
  exists s', m (MkCbState w (with_gas (gas_Infinite limit) w)) = (r, s') /\ w' = cs_ctx s'.
Proof. unfold with_cache. destruct (m _) as [r1 s1]. intros [= <- <-]. eauto. Qed.

Lemma callback_data_run key packet version (w : W) r w' : callback_data key packet version w = (r, w') -> w' = w /\
  forall d, r = Ok d -> cb_UnmarshalPacketData (cp_Data packet) version EmptyString = Ok d.1 /\
    cb_GetCallbackData d.1 version (pk_DestinationPort (cp_Packet packet)) (gas_Remaining (w_gas w)) (gas_Remaining (w_gas w)) key = Ok d.2.
Proof.
  unfold callback_data, mbind', mlift, mreads, mret. destruct (cb_UnmarshalPacketData _ _ _) as [data| |]; [|by intros [= <- <-]..].
  destruct (cb_GetCallbackData _ _ _ _ _ _) as [cb| |] eqn:Hc; intros [= <- <-]; [|done..]. split; [done|]. intros d [= <-]. done.
Qed.

(** The packet asks for no callback under [key]. *)
Definition no_callback (key : string) (packet : CbPacket) (version : string) (w : W) : Prop :=
  exists data, cb_UnmarshalPacketData (cp_Data packet) version EmptyString = Ok data /\
    cb_GetCallbackData data version (pk_DestinationPort (cp_Packet packet)) (gas_Remaining (w_gas w)) (gas_Remaining (w_gas w)) key = Ok None.

(** The address a packet acts as. *)
Definition isolated_address (packet : CbPacket) (data : TransferData) : addr :=
  BytesToAddress (GenerateIsolatedAddress (pk_DestinationChannel (cp_Packet packet)) (td_Sender data)).

(** What a callback that went through its calls had found. *)
Record received (packet : CbPacket) (contractAddress version : string) (w wa w' : W) (data : TransferData) (cbData : CallbackData)
    (tokenPair : TokenPair) (amount : Z) : Prop := {
  rc_data : cb_UnmarshalPacketData (cp_Data packet) version EmptyString = Ok data;
  rc_callback : cb_GetCallbackData data version (pk_DestinationPort (cp_Packet packet)) (gas_Remaining (w_gas w)) (gas_Remaining (w_gas w))
    DestinationCallbackKey = Ok (Some cbData);
  rc_receiver : exists receiver, AccAddressFromBech32 (td_Receiver data) = Ok receiver /\
    HexAddressFromBech32String (AccAddress_String receiver) = Ok (isolated_address packet data);
  rc_contract : cb_IsContract wa (HexToAddress contractAddress) = true;
  rc_pair : exists coin, GetReceivedCoin (cp_Packet packet) (td_Denom data) (td_Amount data) = Ok coin /\
    GetTokenPair (GetTokenPairID coin.1 (w_store wa)) (w_store wa) = Some tokenPair;
  rc_amount : NewIntFromString (td_Amount data) = Some amount;
  rc_calls : calls_done (isolated_address packet data) (HexToAddress contractAddress) tokenPair amount (cd_Calldata cbData)
    (gas_Remaining (gas_Infinite (cd_CommitGasLimit cbData))) (with_gas (gas_Infinite (cd_CommitGasLimit cbData)) wa) w';
}.

Lemma relabel_Ok {A} (m : outcome A) e a : match m with Ok x => Ok x | Err _ => Err e | Panic p => Panic p end = Ok a -> m = Ok a.
Proof. by destruct m. Qed.

(** C17: Receiving a packet with a callback acts in the EVM only as the address
    derived from the channel and the sender of the packet, which must be its
    receiver. It approves exactly the transferred amount to a contract that has
    code, calls it with the data of the packet, and completes only when the
    receiver holds no tokens any more. Otherwise nothing but gas and the account
    of the receiver has changed, unless the balance check failed at the end. A
    packet that asks for no callback is let through and changes nothing. *)
Theorem receive_acts_as_isolated packet contractAddress version (w : W) r w' :
  IBCReceivePacketCallback packet contractAddress version w = (r, w') ->
  (r = Ok tt /\ w' = w /\ no_callback DestinationCallbackKey packet version w) \/
  exists wa, (wa = w \/ exists receiver u, cb_NewAccount receiver w = (u, wa)) /\
    ((is_ok r = false /\ same_but_gas wa w') \/
     exists data cbData tokenPair amount, received packet contractAddress version w wa w' data cbData tokenPair amount /\
       (r = Ok tt -> exists wb, BalanceOf (GetERC20Contract tokenPair) (isolated_address packet data) wb = (Ok (Some 0), w'))).
Proof.
  intros H. unfold IBCReceivePacketCallback in H.
  apply mbind_split in H as [(d & ? & [-> Hd]%callback_data_run & H)|(Hr & r1 & _ & [-> _]%callback_data_run)]; [|right; exists w; split; by left].
  destruct (Hd d eq_refl) as [Hdata Hcb]. destruct d as [data cb]. cbn [fst snd] in *. destruct cb as [cbData|]; [|left; injection H as <- <-; split_and!; [done..|by exists data]].
  right. apply mbind_split in H as [(receiver & ? & [Hrec%relabel_Ok ->]%mlift_Ok & H)|(Hr & r1 & _ & [= _ <-])]; [|exists w; split; by left].
  apply mbind_split in H as [(hex & ? & [Hhex%relabel_Ok ->]%mlift_Ok & H)|(Hr & r1 & _ & [= _ <-])]; [|exists w; split; by left].
  rewrite mbind_reads in H. apply mbind_split in H as [(u & wa & Hacc & H)|(Hr & r1 & _ & Hacc)].
  2:{ exists w'. split; [|by left]. destruct (bool_decide _); [left; by injection Hacc|right; eauto]. }
  exists wa. split; [destruct (bool_decide _); [left; by injection Hacc|right; eauto]|]. clear Hacc.
  apply mbind_split in H as [(? & ? & [Hiso%String.eqb_eq ->]%mguard_Ok & H)|(Hr & r1 & _ & [= _ <-])]; [|by left].
  rewrite mbind_reads in H. apply mbind_split in H as [(? & ? & [Hcon ->]%mguard_Ok & H)|(Hr & r1 & _ & [= _ <-])]; [|by left].
  apply mbind_split in H as [(coin & ? & [Hcoin ->]%mlift_Ok & H)|(Hr & r1 & _ & [= _ <-])]; [|by left].
  rewrite mbind_reads in H. destruct (GetTokenPair _ _) as [tokenPair|] eqn:Hpair; [|injection H as <- <-; by left].
  destruct (NewIntFromString (td_Amount data)) as [amount|] eqn:Ham; [|injection H as <- <-; by left].
  apply with_cache_run in H as (s' & [[Hr Hs]|[Hc Hb]]%receive_calls_run & ->); [by left|right].
  rewrite Hiso in *. exists data, cbData, tokenPair, amount. split; [|done]. constructor; eauto.
Qed.

(** ** Source callbacks *)

Lemma source_call_run sender method args s r s' : source_call sender method args s = (r, s') ->
  (is_ok r = false /\ same_but_gas (cs_ctx s) (cs_ctx s')) \/
  (r = Ok tt /\ exists data res wc u g, cb_Pack method args = Ok data /\
     sent_as (Ev := cb_marked) sender sender data (gas_Remaining (w_gas (cs_cached s))) (cs_cached s) res wc /\
     gas_Consume (rs_GasUsed res) (w_gas (cs_ctx s)) = (Ok u, g) /\ cs_ctx s' = with_gas g wc).
Proof.
  intros H. unfold source_call, cached_remaining in H. rewrite mbind_reads in H.
  apply mbind_split in H as [(res & s1 & H1 & H)|(Hr & r1 & _ & H1)]; apply relabel_run in H1 as (q1 & [C1 H1]%on_cached_ctx & _ & Hq1); [|left; by rewrite C1].
  specialize (Hq1 _ eq_refl) as ->. apply mbind_Ok in H1 as (data & ? & [Hp%owrap_Ok ->]%mlift_Ok & S1%CallEVMWithData_sent).
  apply mbind_split in H as [(u & s2 & H2 & H)|(Hr & r1 & _ & H2)].
  2:{ apply charge_run in H2 as [C2 _]. left. by rewrite C1 in C2. }
  pose proof (charge_run _ _ _ _ H2) as [C2 D2]. rewrite C1 in C2. unfold out_of_gas in H. rewrite mbind_reads in H.
  apply mbind_split in H as [(? & ? & [_ ->]%mguard_Ok & H)|(Hr & r1 & _ & [= _ <-])]; [|by left].
  injection H as <- <-. right. split; [done|]. unfold charge, on_ctx, on_gas in H2. rewrite C1 in H2.
  destruct (gas_Consume (rs_GasUsed res) (w_gas (cs_ctx s))) as [ru g] eqn:Hg. injection H2 as -> <-.
  exists data, res, (cs_cached s1), u, g. split_and!; [done|done|done|]. by rewrite <- D2.
Qed.

(** A source callback: a contract of the account that sent the packet, called
    as itself. *)
Definition source_called (sender : outcome addr) (contractAddress : string) (cbData : CallbackData) (method : string) (args : CbCall) (w w' : W) : Prop :=
  sender = Ok (HexToAddress contractAddress) /\ cb_IsContract w (HexToAddress contractAddress) = true /\ cd_Calldata cbData = EmptyString /\
  exists data res wc u g, cb_Pack method args = Ok data /\
    sent_as (Ev := cb_marked) (HexToAddress contractAddress) (HexToAddress contractAddress) data
      (gas_Remaining (gas_Infinite (cd_CommitGasLimit cbData))) (with_gas (gas_Infinite (cd_CommitGasLimit cbData)) w) res wc /\
    gas_Consume (rs_GasUsed res) (w_gas w) = (Ok u, g) /\ w' = with_gas g wc.

(** The part the two source callbacks share. *)
Lemma source_common (parse : outcome addr) (f : addr -> addr) contractAddress cbData method args (w : W) r w' :
  (do! mguard (len (cd_Calldata cbData) =? 0) ErrInvalidCalldata;
   let! account <- mlift parse;
   do! mguard (String.eqb (HexToAddress contractAddress) (f account)) ErrCallbackFailed;
   let! isContract <- mreads (fun w => cb_IsContract w (HexToAddress contractAddress));
   do! mguard isContract ErrCallbackFailed;
   with_cache (cd_CommitGasLimit cbData) (source_call (f account) method args)) w = (r, w') ->
  (is_ok r = false /\ same_but_gas w w') \/ (r = Ok tt /\ source_called (olet a <- parse; Ok (f a)) contractAddress cbData method args w w').
Proof.
  intros H. apply mbind_split in H as [(? & ? & [Hcd ->]%mguard_Ok & H)|(Hr & r1 & _ & [= _ <-])]; [|by left].
  apply mbind_split in H as [(sender & ? & [Hs ->]%mlift_Ok & H)|(Hr & r1 & _ & [= _ <-])]; [|by left].
  apply mbind_split in H as [(? & ? & [He%String.eqb_eq ->]%mguard_Ok & H)|(Hr & r1 & _ & [= _ <-])]; [|by left]. rewrite <- He in H.
  rewrite mbind_reads in H. apply mbind_split in H as [(? & ? & [Hc ->]%mguard_Ok & H)|(Hr & r1 & _ & [= _ <-])]; [|by left].
  apply with_cache_run in H as (s' & [?|[-> Hd]]%source_call_run & ->); [by left|right]. split; [done|]. split_and!; [|done| |done].
  { rewrite Hs. cbn [obind]. by rewrite <- He. }
  apply Z.eqb_eq in Hcd. by destruct (cd_Calldata cbData).
Qed.

(** C18: An acknowledgement or a timeout calls a contract only when it is the
    account that sent the packet, has code and the memo has no call data; the
    contract is called as itself, in a context marked against nested transfers.
    The gas of the call is charged once to the context. A failed callback
    changes nothing but the gas, and a packet that asks for no callback changes
    nothing. *)
Theorem source_callback_calls_sender packet ack contractAddress packetSender version (w : W) r w' (timeout : bool) :
  let pk := cp_Packet packet in
  let sender := olet a <- (if timeout then AccAddressFromBech32 packetSender else HexAddressFromBech32String packetSender);
                Ok (if timeout then BytesToAddress a else a) in
  let method := if timeout then "onPacketTimeout"%string else "onPacketAcknowledgement"%string in
  let args := MkCbCall (pk_SourceChannel pk) (pk_SourcePort pk) (cp_Sequence packet) (cp_Data packet) (if timeout then None else Some ack) in
  (if timeout then IBCOnTimeoutPacketCallback packet contractAddress packetSender version
   else IBCOnAcknowledgementPacketCallback packet ack contractAddress packetSender version) w = (r, w') ->
  (r = Ok tt /\ w' = w /\ no_callback SourceCallbackKey packet version w) \/ (is_ok r = false /\ same_but_gas w w') \/
  (r = Ok tt /\ exists data cbData, cb_UnmarshalPacketData (cp_Data packet) version EmptyString = Ok data /\
     cb_GetCallbackData data version (pk_DestinationPort pk) (gas_Remaining (w_gas w)) (gas_Remaining (w_gas w)) SourceCallbackKey = Ok (Some cbData) /\
     source_called sender contractAddress cbData method args w w').
Proof.
  intros pk sender method args H.
  assert ((let! d <- callback_data SourceCallbackKey packet version;
           match d.2 with
           | None => mret tt
           | Some cbData =>
             do! mguard (len (cd_Calldata cbData) =? 0) ErrInvalidCalldata;
             let! account <- mlift (if timeout then AccAddressFromBech32 packetSender else HexAddressFromBech32String packetSender);
             do! mguard (String.eqb (HexToAddress contractAddress) (if timeout then BytesToAddress account else account)) ErrCallbackFailed;
             let! isContract <- mreads (fun w => cb_IsContract w (HexToAddress contractAddress));
             do! mguard isContract ErrCallbackFailed;
             with_cache (cd_CommitGasLimit cbData) (source_call (if timeout then BytesToAddress account else account) method args)
           end) w = (r, w')) as H' by (by destruct timeout).
  clear H. apply mbind_split in H' as [(d & ? & [-> Hd]%callback_data_run & H)|(Hr & r1 & _ & [-> _]%callback_data_run)]; [|right; by left].
  destruct (Hd d eq_refl) as [Hdata Hcb]. destruct d as [data cb]. cbn [fst snd] in *. destruct cb as [cbData|]; [|left; injection H as <- <-; split_and!; [done..|by exists data]].
  right. apply (source_common _ (fun a => if timeout then BytesToAddress a else a)) in H as [?|[-> Hs]]; [by left|right]. split; [done|]. eauto.
Qed.
End theorems.

(** ** Witnesses

    A chain with one token and one contract that takes all tokens of its caller
    when told to. A meter is its limit and what was consumed. *)

#[export] Instance cb_codecs : AddrCodecs := {|
  addrCdc_BytesToString := fun b => Ok b;
  valCodec_BytesToString := fun b => Ok b;
  consCodec_BytesToString := fun b => Ok b;
  ValAddress_String := fun b => b;
  ConsAddressFromBech32 := fun _ => Err "invalid";
  Bech32ifyAddressBytes := fun p b => Ok (p +:+ hex_encode b)%string;
  Bech32AccountAddrPrefix := "x";
|}.
#[export] Instance cb_gas : GasOps (Z * Z) := {|
  gas_Consumed := snd;
  gas_Limit := fst;
  gas_Refund := fun z g => (Ok tt, (g.1, g.2 - z));
  gas_Consume := fun z g => (if g.1 <? g.2 + z then Panic "out of gas" else Ok tt, (g.1, g.2 + z));
|}.
#[export] Instance cb_meter : CallbackMeter (Z * Z) := {|
  gas_Remaining := fun g => g.1 - g.2;
  gas_OutOfGas := fun g => g.1 <=? g.2;
  gas_Infinite := fun limit => (limit, 0);
|}.
Definition cb_abi : Erc20Abi := {|
  abi_Pack := fun m args => match args with [AAddress a] => Ok ("b" +:+ a)%string | _ => Ok (String.substring 0 1 m) end;
  abi_Unpack := fun _ ret => match SetString ret with Some z => Ok [ABigInt z] | None => Err "abi: cannot unmarshal" end;
  abi_UnpackBool := fun _ ret => Ok (String.eqb ret "1");
  abi_UnpackString := fun _ ret => Ok ret;
  abi_UnpackUint8 := fun _ ret => Ok 18;
  logTransferSigHash := EmptyString;
  logApprovalSigHash := EmptyString;
|}.

(** "p": the contract pulls the tokens of its caller; "o": a callback of the
    source, which the contract stores. *)
Definition cb_run_token (from c : addr) (data : bytes) (e : eevm) : TxResponse * eevm :=
  match data with
  | String "a" _ => (reply "1", e)
  | String "b" a => (reply (FormatInt (tok e c a)), e)
  | String "p" t => (reply "1", tok_move e t from c (tok e t from))
  | String "o" _ => (reply "1", EEvm (ee_tokens e) (ee_accounts e) (<[c := data]> (ee_codes e)))
  | _ => (revert, e)
  end.
Abbreviation CbWorld := (World ebank eevm (Z * Z)).
Definition cb_set_evm (w : CbWorld) (e : eevm) : CbWorld := MkWorld (w_store w) (w_bank w) e (w_gas w).
Definition cb_run (msg : CoreMessage) (commit fromPrecompile internal : bool) : M CbWorld TxResponse := fun w =>
  match cm_To msg with
  | None => (Ok revert, w)
  | Some c => let (res, e) := cb_run_token (cm_From msg) c (cm_Data msg) (w_evm w) in (Ok res, if commit then cb_set_evm w e else w)
  end.
#[export] Instance cb_evm : Erc20Evm ebank eevm (Z * Z) := {|
  ev_GetAccount := fun w a => ee_accounts (w_evm w) !! a;
  ev_GetAccountWithoutBalance := fun w a => ee_accounts (w_evm w) !! a;
  ev_SetAccount := fun a acc => mmodify (fun w => cb_set_evm w (EEvm (ee_tokens (w_evm w)) (<[a := acc]> (ee_accounts (w_evm w))) (ee_codes (w_evm w))));
  ev_GetCode := fun w h => default EmptyString (ee_codes (w_evm w) !! h);
  ev_SetCode := fun h code => mmodify (fun w => cb_set_evm w (EEvm (ee_tokens (w_evm w)) (ee_accounts (w_evm w)) (<[h := code]> (ee_codes (w_evm w)))));
  ev_ApplyMessage := cb_run;
  ak_GetSequence := fun _ _ => Ok 0;
  ak_GetAccount := fun _ _ => None;
  sk_BondDenom := fun _ => Ok "axtc";
  Erc20Bytecode := "code";
|}.
#[export] Instance cb_evm_laws : Erc20EvmLaws ebank eevm (Z * Z).
Proof.
  split; intros *; cbn.
  - unfold cb_run. destruct (cm_To msg); [|by intros [= <- <-]]. destruct (cb_run_token _ _ _ _). by intros [= <- <-].
  - unfold cb_run. destruct (cm_To msg); [|by intros [= <- <-]]. destruct (cb_run_token _ _ _ _). intros [= <- <-]. by destruct commit.
  - by intros [= <- <-].
  - by intros [= <- <-].
Qed.

Definition cb_token : addr := "the-token-contract__".
Definition cb_router : addr := "the-router-contract_".
Definition cb_isolated : addr := "isolated_of_sender__".
#[export] Instance cb_libs : CallbackLibs ebank eevm (Z * Z) := {|
  TransferV1 := "ics20-1";
  EncodingJSON := "json";
  DestinationCallbackKey := "dest_callback";
  SourceCallbackKey := "src_callback";
  cb_UnmarshalPacketData := fun _ _ _ => Ok (MkTransferData (MkIbcDenom "atoken" []) "500" "sender" cb_isolated EmptyString);
  cb_GetCallbackData := fun _ _ _ _ _ key =>
    Ok (Some (MkCallbackData 100000 (if String.eqb key "dest_callback" then "p" +:+ cb_token else EmptyString)));
  address_Module := fun _ _ => (cb_isolated +:+ "............")%string;
  cb_Pack := fun method _ => Ok method;
  cb_NewAccount := fun a => ev_SetAccount a (MkAccount 0 (Some 0) None None);
  cb_IsContract := fun w a => String.eqb a cb_router;
  cb_marked := cb_evm;
|}.

Definition cb_voucher : string := ("ibc/" +:+ hex_encode (sha256 "atoken"))%string.
Definition cb_pair : TokenPair := MkTokenPair (w_hex cb_token) cb_voucher true OWNER_MODULE.
Definition cb_world : CbWorld :=
  MkWorld (MkErc20Store {["id"%string := cb_pair]} ∅ {[cb_voucher := "id"%string]} ∅ ∅ ∅ true true) (EBank ∅ ∅ ∅)
    (EEvm {[(cb_token, cb_isolated) := 500]} ∅ ∅) (1000000, 0).
Definition cb_packet : CbPacket := MkCbPacket (MkPacket "transfer" "channel-7" "transfer" "channel-0") 1 "data".
Definition cb_received : outcome unit * CbWorld :=
  IBCReceivePacketCallback (Eth := ref_eth20) (Ab := cb_abi) cb_packet (w_hex cb_router) "ics20-1" cb_world.

Lemma receive_acts_as_isolated_witness :
  cb_received.1 = Ok tt /\ w_gas cb_received.2 = (1000000, 63000) /\
  tok (w_evm cb_received.2) cb_token cb_isolated = 0 /\ tok (w_evm cb_received.2) cb_token cb_router = 500 /\
  ((cb_received.1 = Ok tt /\ cb_received.2 = cb_world /\ no_callback DestinationCallbackKey cb_packet "ics20-1" cb_world) \/
   exists wa, (wa = cb_world \/ exists receiver u, cb_NewAccount receiver cb_world = (u, wa)) /\
    ((is_ok cb_received.1 = false /\ same_but_gas wa cb_received.2) \/
     exists data cbData tokenPair amount,
       received (Eth := ref_eth20) (Ab := cb_abi) cb_packet (w_hex cb_router) "ics20-1" cb_world wa cb_received.2 data cbData tokenPair amount /\
       (cb_received.1 = Ok tt -> exists wb,
          BalanceOf (Ab := cb_abi) (GetERC20Contract (Eth := ref_eth20) tokenPair) (isolated_address cb_packet data) wb = (Ok (Some 0), cb_received.2)))).
Proof.
  do 4 (split; [vm_compute; reflexivity|]).
  apply (receive_acts_as_isolated (Eth := ref_eth20) (Ab := cb_abi) cb_packet (w_hex cb_router) "ics20-1" cb_world cb_received.1 cb_received.2).
  apply surjective_pairing.
Defined.

Definition cb_timed_out : outcome unit * CbWorld :=
  IBCOnTimeoutPacketCallback (Eth := ref_eth20) cb_packet (w_hex cb_router) cb_router "ics20-1" cb_world.
Lemma source_callback_calls_sender_witness :
  cb_timed_out.1 = Ok tt /\ w_gas cb_timed_out.2 = (1000000, 21000) /\ ee_codes (w_evm cb_timed_out.2) !! cb_router = Some "onPacketTimeout"%string /\
  ((cb_timed_out.1 = Ok tt /\ cb_timed_out.2 = cb_world /\ no_callback SourceCallbackKey cb_packet "ics20-1" cb_world) \/ (is_ok cb_timed_out.1 = false /\ same_but_gas cb_world cb_timed_out.2) \/
   (cb_timed_out.1 = Ok tt /\ exists data cbData, cb_UnmarshalPacketData "data"%string "ics20-1"%string EmptyString = Ok data /\
      cb_GetCallbackData data "ics20-1"%string "transfer"%string 1000000 1000000 SourceCallbackKey = Ok (Some cbData) /\
      source_called (Eth := ref_eth20) (olet a <- AccAddressFromBech32 cb_router; Ok (BytesToAddress a)) (w_hex cb_router) cbData "onPacketTimeout"
        (MkCbCall "channel-7" "transfer" 1 "data" None) cb_world cb_timed_out.2)).
Proof.
  do 3 (split; [vm_compute; reflexivity|]).
  exact (source_callback_calls_sender (Eth := ref_eth20) cb_packet EmptyString (w_hex cb_router) cb_router "ics20-1" cb_world
    cb_timed_out.1 cb_timed_out.2 true (surjective_pairing _)).
Defined.
