(* ===== verification/StakingPrecompile.v ===== *)
(** * precompiles/staking

    staking.go, tx.go, query.go, types.go and events.go. The message server,
    the querier and the keeper of x/staking are an interface. *)

From Stdlib Require Import ZArith Lia List String Ascii Bool.
From stdpp Require Import base gmap strings list.
From S2P Require Import Prelude GoStrings Sdk AccessList StateDB Precompile Erc20Precompile PrecompileMsgs.
Local Open Scope Z_scope.
Local Open Scope go_scope.

(** ** The module's messages and responses

    Decimals are kept as their integer representation. *)

Record MsgCreateValidator := MkMsgCreateValidator {
  cv_Description : Description;
  cv_Commission : CommissionRates;
  cv_MinSelfDelegation : Z;
  cv_DelegatorAddress : string;
  cv_ValidatorAddress : string;
  cv_Pubkey : bytes;
  cv_Value : Coin;
}.
Record MsgEditValidator := MkMsgEditValidator {
  ev_Description : Description;
  ev_ValidatorAddress : string;
  ev_CommissionRate : option Z;
  ev_MinSelfDelegation : option Z;
}.
(** MsgDelegate and MsgUndelegate have the same fields. *)
Record MsgDelegation := MkMsgDelegation { md_DelegatorAddress : string; md_ValidatorAddress : string; md_Amount : Coin }.
Record MsgBeginRedelegate := MkMsgBeginRedelegate {
  br_DelegatorAddress : string;
  br_ValidatorSrcAddress : string;
  br_ValidatorDstAddress : string;
  br_Amount : Coin;
}.
Record MsgCancelUnbondingDelegation := MkMsgCancelUnbonding {
  cu_DelegatorAddress : string;
  cu_ValidatorAddress : string;
  cu_Amount : Coin;
  cu_CreationHeight : Z;
}.

(** A consensus key packed in an [Any]: with its cached value, or only with the
    text of the [Any]. *)
Inductive AnyPubKey := CachedKey (key : bytes) | UncachedKey (text : string).
Record Validator := MkValidator {
  va_OperatorAddress : string;
  va_ConsensusPubkey : AnyPubKey;
  va_Jailed : bool;
  va_Status : Z;
  va_Tokens : Z;
  va_DelegatorShares : Z;
  va_Description : Description;
  va_UnbondingHeight : Z;
  va_UnbondingTime : Z;
  va_CommissionRate : Z;
  va_MinSelfDelegation : Z;
}.
Record UnbondingEntry := MkUnbondingEntry {
  ue_CreationHeight : Z;
  ue_CompletionTime : Z;
  ue_InitialBalance : Z;
  ue_Balance : Z;
  ue_UnbondingId : Z;
  ue_OnHoldRefCount : Z;
}.
Record Unbonding := MkUnbonding { ub_DelegatorAddress : string; ub_ValidatorAddress : string; ub_Entries : list UnbondingEntry }.
Record RedelegationEntry := MkRedelegationEntry { re_CreationHeight : Z; re_CompletionTime : Z; re_InitialBalance : Z; re_SharesDst : Z }.
Record Redelegation := MkRedelegation {
  rd_DelegatorAddress : string;
  rd_ValidatorSrcAddress : string;
  rd_ValidatorDstAddress : string;
  rd_Entries : list RedelegationEntry;
}.
Record RedelegationResponse := MkRedelegationResponse { rr_Redelegation : Redelegation; rr_Entries : list (RedelegationEntry * Z) }.

(** The message server, the querier and the keeper. A server that answers with
    a completion time returns it; [GetRedelegation]'s error is not read, and
    [SharesFromTokens] is asked of the validator the keeper finds. *)
Class StakingModule (W : Type) := {
  sv_CreateValidator : MsgCreateValidator -> M W unit;
  sv_EditValidator : MsgEditValidator -> M W unit;
  sv_Delegate : MsgDelegation -> M W unit;
  sv_Undelegate : MsgDelegation -> M W Z;
  sv_BeginRedelegate : MsgBeginRedelegate -> M W Z;
  sv_CancelUnbondingDelegation : MsgCancelUnbondingDelegation -> M W unit;
  qr_Delegation : W -> string -> string -> outcome (Z * Coin);
  qr_UnbondingDelegation : W -> string -> string -> outcome Unbonding;
  qr_Validator : W -> string -> outcome Validator;
  qr_Validators : W -> string -> PageRequest -> outcome (list Validator * option PageResponse);
  qr_Redelegations : W -> string -> string -> string -> PageRequest -> outcome (list RedelegationResponse * option PageResponse);
  sk_GetRedelegation : W -> bytes -> bytes -> bytes -> Redelegation;
  sk_BondDenom : W -> outcome string;
  sk_SharesFromTokens : W -> bytes -> Z -> outcome Z;
  sk_MaxValidators : W -> outcome Z;
  sk_GetDelegatorValidators : W -> bytes -> Z -> outcome (list Validator);
  db_GetCode : W -> addr -> bytes;
  ParseDelegation : bytes -> bool;
}.

(** What the methods return, before ABI encoding. *)
Record ValidatorInfo := MkValidatorInfo {
  vi_OperatorAddress : string;
  vi_ConsensusPubkey : string;
  vi_Jailed : bool;
  vi_Status : Z;
  vi_Tokens : Z;
  vi_DelegatorShares : Z;
  vi_Description : Description;
  vi_UnbondingHeight : Z;
  vi_UnbondingTime : Z;
  vi_Commission : Z;
  vi_MinSelfDelegation : Z;
}.
Inductive StakingOut :=
  | SOTrue
  | SOTime (t : Z)
  | SODelegation (shares : Z) (balance : string * Z)
  | SOUnbonding (u : Unbonding)
  | SOValidator (v : ValidatorInfo)
  | SOValidators (l : list ValidatorInfo) (p : PageResponse)
  | SORedelegation (r : Redelegation)
  | SORedelegations (l : list RedelegationResponse) (p : PageResponse).

Definition DoNotModifyCommissionRate : Z := -1.
Definition DoNotModifyMinSelfDelegation : Z := -1.
Definition ed25519_PubKeySize : Z := 32.
Definition ErrCannotCallFromContract : error := "this method can only be called directly to the precompile, not from a smart contract".
Definition ErrInvalidDescription : error := "invalid description".
Definition ErrInvalidCommission : error := "invalid commission".

Section staking.
Context {Ty : SdkTypes} {Ma : SdkMath} {Et : EthCommon} {Ac : AddrCodecs}.

Definition delegator_string (a : addr) : outcome string := owrap "failed to decode delegator address" (addrCdc_BytesToString a).

(** ** types.go: messages *)

Definition NewMsgCreateValidator (args : list abi_arg) (denom : string) : outcome (MsgCreateValidator * addr) :=
  match args with
  | [a0; a1; a2; a3; a4; a5] =>
    olet description <- match a0 with PDescription d => Ok d | _ => Err ErrInvalidDescription end;
    olet commission <- match a1 with PCommission c => Ok c | _ => Err ErrInvalidCommission end;
    olet minSelfDelegation <- arg_big ErrInvalidAmount a2;
    olet validatorAddress <- arg_address ErrInvalidValidator a3;
    olet pubkeyBase64Str <- arg_string a4;
    olet pubkeyBytes <- base64_DecodeString pubkeyBase64Str;
    odo oguard (len pubkeyBytes =? ed25519_PubKeySize) "consensus pubkey len is invalid";
    olet value <- arg_big ErrInvalidAmount a5;
    olet delegatorAddr <- delegator_string validatorAddress;
    olet msd <- NewIntFromBigInt minSelfDelegation;
    olet amount <- NewIntFromBigInt value;
    Ok (MkMsgCreateValidator description commission msd delegatorAddr (ValAddress_String validatorAddress) pubkeyBytes (MkCoin denom amount),
        validatorAddress)
  | _ => Err ErrInvalidNumberOfArgs
  end.

(** The value -1 means that a field is to be left as it is. *)
Definition NewMsgEditValidator (args : list abi_arg) : outcome (MsgEditValidator * addr) :=
  match args with
  | [a0; a1; a2; a3] =>
    olet description <- match a0 with PDescription d => Ok d | _ => Err ErrInvalidDescription end;
    olet validatorHexAddr <- arg_address ErrInvalidValidator a1;
    olet commissionRateBigInt <- arg_big ErrInvalidType a2;
    let commissionRate := if commissionRateBigInt =? DoNotModifyCommissionRate then None else Some commissionRateBigInt in
    olet minSelfDelegationBigInt <- arg_big ErrInvalidType a3;
    olet minSelfDelegation <- (if minSelfDelegationBigInt =? DoNotModifyMinSelfDelegation then Ok None
                               else olet msd <- NewIntFromBigInt minSelfDelegationBigInt; Ok (Some msd));
    Ok (MkMsgEditValidator description (ValAddress_String validatorHexAddr) commissionRate minSelfDelegation, validatorHexAddr)
  | _ => Err ErrInvalidNumberOfArgs
  end.

Definition checkDelegationUndelegationArgs (args : list abi_arg) : outcome (addr * string * Z) :=
  match args with
  | [a0; a1; a2] =>
    olet delegatorAddr <- arg_address ErrInvalidDelegator a0;
    olet validatorAddress <- arg_string a1;
    olet amount <- arg_big ErrInvalidAmount a2;
    Ok (delegatorAddr, validatorAddress, amount)
  | _ => Err ErrInvalidNumberOfArgs
  end.

Definition NewMsgDelegate (args : list abi_arg) (denom : string) : outcome (MsgDelegation * addr) :=
  olet x <- checkDelegationUndelegationArgs args;
  let '(delegatorAddr, validatorAddress, amount) := x in
  olet delegatorAddrStr <- delegator_string delegatorAddr;
  olet amt <- NewIntFromBigInt amount;
  Ok (MkMsgDelegation delegatorAddrStr validatorAddress (MkCoin denom amt), delegatorAddr).

Definition NewMsgUndelegate (args : list abi_arg) (denom : string) : outcome (MsgDelegation * addr) :=
  olet x <- checkDelegationUndelegationArgs args;
  let '(delegatorAddr, validatorAddress, amount) := x in
  olet delegatorAddrStr <- delegator_string delegatorAddr;
  olet amt <- NewIntFromBigInt amount;
  Ok (MkMsgDelegation delegatorAddrStr validatorAddress (MkCoin denom amt), delegatorAddr).

Definition NewMsgRedelegate (args : list abi_arg) (denom : string) : outcome (MsgBeginRedelegate * addr) :=
  match args with
  | [a0; a1; a2; a3] =>
    olet delegatorAddr <- arg_address ErrInvalidDelegator a0;
    olet validatorSrcAddress <- arg_string a1;
    olet validatorDstAddress <- arg_string a2;
    olet amount <- arg_big ErrInvalidAmount a3;
    olet delegatorAddrStr <- delegator_string delegatorAddr;
    olet amt <- NewIntFromBigInt amount;
    Ok (MkMsgBeginRedelegate delegatorAddrStr validatorSrcAddress validatorDstAddress (MkCoin denom amt), delegatorAddr)
  | _ => Err ErrInvalidNumberOfArgs
  end.

Definition NewMsgCancelUnbondingDelegation (args : list abi_arg) (denom : string) : outcome (MsgCancelUnbondingDelegation * addr) :=
  match args with
  | [a0; a1; a2; a3] =>
    olet delegatorAddr <- arg_address ErrInvalidDelegator a0;
    olet validatorAddress <- arg_string a1;
    olet amount <- arg_big ErrInvalidAmount a2;
    olet creationHeight <- arg_big "invalid creation height" a3;
    olet delegatorAddrStr <- delegator_string delegatorAddr;
    olet amt <- NewIntFromBigInt amount;
    Ok (MkMsgCancelUnbonding delegatorAddrStr validatorAddress (MkCoin denom amt) (Int64 creationHeight), delegatorAddr)
  | _ => Err ErrInvalidNumberOfArgs
  end.

(** ** types.go: requests *)

Definition NewDelegationRequest (args : list abi_arg) : outcome (string * string) :=
  match args with
  | [a0; a1] =>
    olet delegatorAddr <- arg_address ErrInvalidDelegator a0;
    olet validatorAddress <- arg_string a1;
    olet delegatorAddrStr <- delegator_string delegatorAddr;
    Ok (delegatorAddrStr, validatorAddress)
  | _ => Err ErrInvalidNumberOfArgs
  end.
Definition NewUnbondingDelegationRequest (args : list abi_arg) : outcome (string * string) :=
  match args with
  | [a0; a1] =>
    olet delegatorAddr <- arg_address ErrInvalidDelegator a0;
    olet validatorAddress <- arg_string a1;
    olet delegatorAddrStr <- delegator_string delegatorAddr;
    Ok (delegatorAddrStr, validatorAddress)
  | _ => Err ErrInvalidNumberOfArgs
  end.
Definition NewValidatorRequest (args : list abi_arg) : outcome string :=
  match args with
  | [a0] => olet validatorHexAddr <- arg_address ErrInvalidValidator a0; Ok (ValAddress_String validatorHexAddr)
  | _ => Err ErrInvalidNumberOfArgs
  end.

(** A key of one zero byte stands for none. *)
Definition NewValidatorsRequest (args : list abi_arg) : outcome (string * PageRequest) :=
  match args with
  | [PString status; PPage p] =>
    let key := if bool_decide (pr_Key p = Some (byte1 0)) then None else pr_Key p in
    Ok (status, MkPageRequest key (pr_Offset p) (pr_Limit p) (pr_CountTotal p) (pr_Reverse p))
  | [_; _] => Err ErrCopyArgs
  | _ => Err ErrInvalidNumberOfArgs
  end.
Definition NewRedelegationRequest (args : list abi_arg) : outcome (bytes * bytes * bytes) :=
  match args with
  | [a0; a1; a2] =>
    olet delegatorAddr <- arg_address ErrInvalidDelegator a0;
    olet validatorSrcAddress <- arg_string a1;
    olet validatorSrcAddr <- ValAddressFromBech32 validatorSrcAddress;
    olet validatorDstAddress <- arg_string a2;
    olet validatorDstAddr <- ValAddressFromBech32 validatorDstAddress;
    Ok (delegatorAddr, validatorSrcAddr, validatorDstAddr)
  | _ => Err ErrInvalidNumberOfArgs
  end.

(** The zero address stands for no delegator. *)
Definition NewRedelegationsRequest (args : list abi_arg) : outcome (string * string * string * PageRequest) :=
  match args with
  | [PAddress delegator; PString src; PString dst; PPage p] =>
    olet delegatorAddr <- (if String.eqb delegator zero_address then Ok EmptyString else delegator_string delegator);
    odo oguard (negb (String.eqb delegatorAddr EmptyString && String.eqb src EmptyString && String.eqb dst EmptyString ||
                      String.eqb delegatorAddr EmptyString && String.eqb src EmptyString && negb (String.eqb dst EmptyString)))
          "invalid query. Need to specify at least a source validator address or delegator address";
    Ok (delegatorAddr, src, dst, p)
  | [_; _; _; _] => Err ErrCopyArgs
  | _ => Err ErrInvalidNumberOfArgs
  end.

(** ** types.go: outputs *)

Definition UnbondingDelegation_FromResponse (u : Unbonding) : Unbonding :=
  MkUnbonding (ub_DelegatorAddress u) (ub_ValidatorAddress u)
    (map (fun e => MkUnbondingEntry (ue_CreationHeight e) (Unix (ue_CompletionTime e)) (ue_InitialBalance e) (ue_Balance e)
                     (ue_UnbondingId e) (ue_OnHoldRefCount e)) (ub_Entries u)).
Definition empty_description : Description := MkDescription EmptyString EmptyString EmptyString EmptyString EmptyString.
Definition DefaultValidatorInfo : ValidatorInfo :=
  MkValidatorInfo EmptyString EmptyString false 0 0 0 empty_description 0 0 0 0.
Definition FormatConsensusPubkey (k : AnyPubKey) : string :=
  match k with CachedKey key => base64_EncodeToString key | UncachedKey text => text end.
(** [BondStatus_value] of the status' name: unknown names have the value 0. *)
Definition bond_status (z : Z) : Z := if in_range 0 z 3 then z else 0.
Definition NewValidatorInfoFromResponse (v : Validator) : outcome ValidatorInfo :=
  match ValAddressFromBech32 (va_OperatorAddress v) with
  | Err _ => Ok DefaultValidatorInfo
  | Panic e => Panic e
  | Ok operatorAddress => Ok (MkValidatorInfo
      (Address_Hex (BytesToAddress operatorAddress))
      (FormatConsensusPubkey (va_ConsensusPubkey v))
      (va_Jailed v)
      (bond_status (va_Status v))
      (va_Tokens v)
      (va_DelegatorShares v)
      (va_Description v)
      (va_UnbondingHeight v)
      (Unix (va_UnbondingTime v))
      (va_CommissionRate v)
      (va_MinSelfDelegation v))
  end.
Fixpoint Validators_FromResponse (l : list Validator) : outcome (list ValidatorInfo) :=
  match l with
  | [] => Ok []
  | v :: l' => olet i <- NewValidatorInfoFromResponse v; olet r <- Validators_FromResponse l'; Ok (i :: r)
  end.
Definition redelegation_entry (e : RedelegationEntry) : RedelegationEntry :=
  MkRedelegationEntry (re_CreationHeight e) (Unix (re_CompletionTime e)) (re_InitialBalance e) (re_SharesDst e).
Definition Redelegation_FromResponse (r : Redelegation) : Redelegation :=
  MkRedelegation (rd_DelegatorAddress r) (rd_ValidatorSrcAddress r) (rd_ValidatorDstAddress r) (map redelegation_entry (rd_Entries r)).
Definition Redelegations_FromResponse (l : list RedelegationResponse) : list RedelegationResponse :=
  map (fun r => MkRedelegationResponse (Redelegation_FromResponse (rr_Redelegation r))
                  (map (fun p => (redelegation_entry p.1, p.2)) (rr_Entries r))) l.

Context {W : Type} {Sm : StakingModule W}.
Abbreviation MLW := (M (LState W)).

(** ** events.go *)

Definition EmitCreateValidatorEvent (msg : MsgCreateValidator) (validatorAddr : addr) : MLW unit :=
  AddLog (EvCreateValidator validatorAddr (Amount (cv_Value msg))).
Definition EmitEditValidatorEvent (msg : MsgEditValidator) (validatorAddr : addr) : MLW unit :=
  AddLog (EvEditValidator validatorAddr (default DoNotModifyCommissionRate (ev_CommissionRate msg))
            (default DoNotModifyMinSelfDelegation (ev_MinSelfDelegation msg))).
Definition EmitDelegateEvent (msg : MsgDelegation) (delegatorAddr : addr) : MLW unit :=
  let! valAddr <- mlift (ValAddressFromBech32 (md_ValidatorAddress msg));
  let! newShares <- read_world (fun w => sk_SharesFromTokens w valAddr (Amount (md_Amount msg)));
  AddLog (EvDelegate delegatorAddr (BytesToAddress valAddr) (Amount (md_Amount msg)) newShares).
Definition EmitUnbondEvent (msg : MsgDelegation) (delegatorAddr : addr) (completionTime : Z) : MLW unit :=
  let! valAddr <- mlift (ValAddressFromBech32 (md_ValidatorAddress msg));
  AddLog (EvUnbond delegatorAddr (BytesToAddress valAddr) (Amount (md_Amount msg)) completionTime).
Definition EmitRedelegateEvent (msg : MsgBeginRedelegate) (delegatorAddr : addr) (completionTime : Z) : MLW unit :=
  let! valSrcAddr <- mlift (ValAddressFromBech32 (br_ValidatorSrcAddress msg));
  let! valDstAddr <- mlift (ValAddressFromBech32 (br_ValidatorDstAddress msg));
  AddLog (EvRedelegate delegatorAddr (BytesToAddress valSrcAddr) (BytesToAddress valDstAddr) (Amount (br_Amount msg)) completionTime).
Definition EmitCancelUnbondingDelegationEvent (msg : MsgCancelUnbondingDelegation) (delegatorAddr : addr) : MLW unit :=
  let! valAddr <- mlift (ValAddressFromBech32 (cu_ValidatorAddress msg));
  AddLog (EvCancelUnbondingDelegation delegatorAddr (BytesToAddress valAddr) (Amount (cu_Amount msg)) (cu_CreationHeight msg)).

(** ** tx.go *)

(** Only an account without code, or whose code delegates, may call. *)
Definition has_contract_code (w : W) (caller : addr) : bool :=
  let code := db_GetCode w caller in (0 <? len code) && negb (ParseDelegation code).
Definition no_contract (caller : addr) : MLW unit := fun s =>
  mguard (negb (has_contract_code (ls_world s) caller)) ErrCannotCallFromContract s.

Definition CreateValidator (caller : addr) (args : list abi_arg) : MLW StakingOut :=
  let! bondDenom <- read_world sk_BondDenom;
  let! m <- mlift (NewMsgCreateValidator args bondDenom);
  do! no_contract caller;
  do! check_sender caller m.2;
  do! in_world (sv_CreateValidator m.1);
  do! EmitCreateValidatorEvent m.1 m.2;
  mret SOTrue.
Definition EditValidator (caller : addr) (args : list abi_arg) : MLW StakingOut :=
  let! m <- mlift (NewMsgEditValidator args);
  do! no_contract caller;
  do! check_sender caller m.2;
  do! in_world (sv_EditValidator m.1);
  do! EmitEditValidatorEvent m.1 m.2;
  mret SOTrue.
Definition Delegate (caller : addr) (args : list abi_arg) : MLW StakingOut :=
  let! bondDenom <- read_world sk_BondDenom;
  let! m <- mlift (NewMsgDelegate args bondDenom);
  do! check_sender caller m.2;
  do! in_world (sv_Delegate m.1);
  do! EmitDelegateEvent m.1 m.2;
  mret SOTrue.
Definition Undelegate (caller : addr) (args : list abi_arg) : MLW StakingOut :=
  let! bondDenom <- read_world sk_BondDenom;
  let! m <- mlift (NewMsgUndelegate args bondDenom);
  do! check_sender caller m.2;
  let! completionTime <- in_world (sv_Undelegate m.1);
  do! EmitUnbondEvent m.1 m.2 (Unix completionTime);
  mret (SOTime (Unix completionTime)).
Definition Redelegate (caller : addr) (args : list abi_arg) : MLW StakingOut :=
  let! bondDenom <- read_world sk_BondDenom;
  let! m <- mlift (NewMsgRedelegate args bondDenom);
  do! check_sender caller m.2;
  let! completionTime <- in_world (sv_BeginRedelegate m.1);
  do! EmitRedelegateEvent m.1 m.2 (Unix completionTime);
  mret (SOTime (Unix completionTime)).
Definition CancelUnbondingDelegation (caller : addr) (args : list abi_arg) : MLW StakingOut :=
  let! bondDenom <- read_world sk_BondDenom;
  let! m <- mlift (NewMsgCancelUnbondingDelegation args bondDenom);
  do! check_sender caller m.2;
  do! in_world (sv_CancelUnbondingDelegation m.1);
  do! EmitCancelUnbondingDelegationEvent m.1 m.2;
  mret SOTrue.

(** ** query.go *)

Definition ErrNoDelegationFound (delegator validator : string) : error :=
  ("delegation with delegator " +:+ delegator +:+ " not found for validator " +:+ validator)%string.
Definition ErrNoUnbondingFound (delegator validator : string) : error :=
  ("unbonding delegation with delegator " +:+ delegator +:+ " not found for validator " +:+ validator)%string.
Definition ErrNoValidatorFound (validator : string) : error := ("validator " +:+ validator +:+ " not found")%string.

Definition Delegation (args : list abi_arg) : MLW StakingOut :=
  let! req <- mlift (NewDelegationRequest args);
  read_world (fun w =>
    match qr_Delegation w req.1 req.2 with
    | Ok (shares, balance) => Ok (SODelegation shares (Denom balance, Amount balance))
    | Err e =>
      if strings_Contains e (ErrNoDelegationFound req.1 req.2)
      then olet bondDenom <- sk_BondDenom w; Ok (SODelegation 0 (bondDenom, 0))
      else Err e
    | Panic e => Panic e
    end).
Definition UnbondingDelegation (args : list abi_arg) : MLW StakingOut :=
  let! req <- mlift (NewUnbondingDelegationRequest args);
  read_world (fun w =>
    match qr_UnbondingDelegation w req.1 req.2 with
    | Ok u => Ok (SOUnbonding (UnbondingDelegation_FromResponse u))
    | Err e =>
      if strings_Contains e (ErrNoUnbondingFound req.1 req.2) then Ok (SOUnbonding (MkUnbonding EmptyString EmptyString []))
      else Err e
    | Panic e => Panic e
    end).
Definition Validator_query (args : list abi_arg) : MLW StakingOut :=
  let! req <- mlift (NewValidatorRequest args);
  read_world (fun w =>
    match qr_Validator w req with
    | Ok v => olet i <- NewValidatorInfoFromResponse v; Ok (SOValidator i)
    | Err e => if strings_Contains e (ErrNoValidatorFound req) then Ok (SOValidator DefaultValidatorInfo) else Err e
    | Panic e => Panic e
    end).
Definition Validators (args : list abi_arg) : MLW StakingOut :=
  let! req <- mlift (NewValidatorsRequest args);
  read_world (fun w =>
    olet res <- qr_Validators w req.1 req.2;
    olet l <- Validators_FromResponse res.1;
    Ok (SOValidators l (page_response res.2))).
Definition Redelegation_query (args : list abi_arg) : MLW StakingOut :=
  let! req <- mlift (NewRedelegationRequest args);
  read_world (fun w =>
    let '(delegator, src, dst) := req in
    Ok (SORedelegation (Redelegation_FromResponse (sk_GetRedelegation w delegator src dst)))).
Definition Redelegations (args : list abi_arg) : MLW StakingOut :=
  let! req <- mlift (NewRedelegationsRequest args);
  read_world (fun w =>
    let '(delegator, src, dst, page) := req in
    olet res <- qr_Redelegations w delegator src dst page;
    Ok (SORedelegations (Redelegations_FromResponse res.1) (page_response res.2))).

(** ** staking.go *)

Definition staking_IsTransaction (method : string) : bool :=
  existsb (String.eqb method) ["createValidator"; "editValidator"; "delegate"; "undelegate"; "redelegate"; "cancelUnbondingDelegation"].

Definition staking_HandleMethod (caller : addr) (method : string) (args : list abi_arg) : MLW StakingOut :=
  if String.eqb method "createValidator" then CreateValidator caller args
  else if String.eqb method "editValidator" then EditValidator caller args
  else if String.eqb method "delegate" then Delegate caller args
  else if String.eqb method "undelegate" then Undelegate caller args
  else if String.eqb method "redelegate" then Redelegate caller args
  else if String.eqb method "cancelUnbondingDelegation" then CancelUnbondingDelegation caller args
  else if String.eqb method "delegation" then Delegation args
  else if String.eqb method "unbondingDelegation" then UnbondingDelegation args
  else if String.eqb method "validator" then Validator_query args
  else if String.eqb method "validators" then Validators args
  else if String.eqb method "redelegation" then Redelegation_query args
  else if String.eqb method "redelegations" then Redelegations args
  else mfail ErrUnknownMethod.

Context (api : ABI (list abi_arg)) (m_Name : Method api -> string).

Definition staking_RequiredGas (c : GasConfig) (input : bytes) : Z :=
  if len input <? 4 then 0 else
  match MethodById api (String.substring 0 4 input) with Ok m => RequiredGas c input (staking_IsTransaction (m_Name m)) | _ => 0 end.

Definition staking_Execute (contract : Contract) (readOnly : bool) : MLW StakingOut :=
  let! call <- mlift (SetupABI api (ct_Input contract) (ct_Value contract) readOnly (fun m => staking_IsTransaction (m_Name m)));
  staking_HandleMethod (ct_Caller contract) (m_Name call.1) (default [] call.2).
End staking.
