(* ===== verification/DistributionPrecompile.v ===== *)
(** * precompiles/distribution

    distribution.go, tx.go, query.go, types.go and events.go. The message
    server, the querier and the keeper of x/distribution are an interface. *)

From Stdlib Require Import ZArith Lia List String Ascii Bool.
From stdpp Require Import base gmap strings list.
From S2P Require Import Prelude GoStrings Sdk AccessList StateDB Precompile Erc20Precompile PrecompileMsgs StakingPrecompile.
Local Open Scope Z_scope.
Local Open Scope go_scope.

(** ** The module's messages and responses *)

Record MsgSetWithdrawAddress := MkMsgSetWithdrawAddress { sw_DelegatorAddress : string; sw_WithdrawAddress : string }.
Record MsgWithdrawDelegatorReward := MkMsgWithdrawDelegatorReward { wr_DelegatorAddress : string; wr_ValidatorAddress : string }.
Record MsgWithdrawValidatorCommission := MkMsgWithdrawValidatorCommission { wc_ValidatorAddress : string }.
Record MsgFundCommunityPool := MkMsgFundCommunityPool { fp_Depositor : string; fp_Amount : list Coin }.
Record MsgDepositValidatorRewardsPool := MkMsgDepositValidatorRewardsPool {
  dp_Depositor : string;
  dp_ValidatorAddress : string;
  dp_Amount : list Coin;
}.
Record ValidatorDistributionInfo := MkValidatorDistributionInfo {
  di_OperatorAddress : string;
  di_SelfBondRewards : list DecCoin;
  di_Commission : list DecCoin;
}.

Class DistributionModule (W : Type) := {
  sv_SetWithdrawAddress : MsgSetWithdrawAddress -> M W unit;
  sv_WithdrawDelegatorReward : MsgWithdrawDelegatorReward -> M W (list Coin);
  sv_WithdrawValidatorCommission : MsgWithdrawValidatorCommission -> M W (list Coin);
  sv_FundCommunityPool : MsgFundCommunityPool -> M W unit;
  sv_DepositValidatorRewardsPool : MsgDepositValidatorRewardsPool -> M W unit;
  dk_WithdrawDelegationRewards : bytes -> bytes -> M W (list Coin);
  qr_ValidatorDistributionInfo : W -> string -> outcome ValidatorDistributionInfo;
  qr_ValidatorOutstandingRewards : W -> string -> outcome (list DecCoin);
  qr_ValidatorCommission : W -> string -> outcome (list DecCoin);
  qr_ValidatorSlashes : W -> string -> Z -> Z -> PageRequest -> outcome (list (Z * Z) * option PageResponse);
  qr_DelegationRewards : W -> string -> string -> outcome (list DecCoin);
  qr_DelegationTotalRewards : W -> string -> outcome (list (string * list DecCoin) * list DecCoin);
  qr_DelegatorValidators : W -> string -> outcome (list string);
  qr_DelegatorWithdrawAddress : W -> string -> outcome string;
  qr_CommunityPool : W -> outcome (list DecCoin);
}.

(** What the methods return, before ABI encoding. *)
Inductive DistributionOut :=
  | DOTrue
  | DOCoins (l : list (string * Z))
  | DODecCoins (l : list CmnDecCoin)
  | DOInfo (operator : string) (selfBond commission : list CmnDecCoin)
  | DOSlashes (l : list (Z * CmnDec)) (p : PageResponse)
  | DOTotalRewards (l : list (string * list CmnDecCoin)) (total : list CmnDecCoin)
  | DOStrings (l : list string)
  | DOString (s : string).

Section distribution.
Context {Ty : SdkTypes} {Ma : SdkMath} {Et : EthCommon} {Ac : AddrCodecs} {Co : SdkCoins}.

(** ** types.go: messages *)

Definition parseClaimRewardsArgs (args : list abi_arg) : outcome (addr * Z) :=
  match args with
  | [a0; a1] =>
    olet delegatorAddress <- arg_address ErrInvalidDelegator a0;
    olet maxRetrieve <- match a1 with PU32 z => Ok z | _ => Err ErrInvalidType end;
    Ok (delegatorAddress, maxRetrieve)
  | _ => Err ErrInvalidNumberOfArgs
  end.
(** A withdraw address in hexadecimal is turned into bech32. *)
Definition NewMsgSetWithdrawAddress (args : list abi_arg) : outcome (MsgSetWithdrawAddress * addr) :=
  match args with
  | [a0; a1] =>
    olet delegatorAddress <- arg_address ErrInvalidDelegator a0;
    let withdrawerAddress := arg_string_or_empty a1 in
    olet withdrawer <- (if IsHexAddress withdrawerAddress
                        then Bech32ifyAddressBytes Bech32AccountAddrPrefix (HexToAddress withdrawerAddress)
                        else Ok withdrawerAddress);
    olet delAddr <- delegator_string delegatorAddress;
    Ok (MkMsgSetWithdrawAddress delAddr withdrawer, delegatorAddress)
  | _ => Err ErrInvalidNumberOfArgs
  end.
Definition NewMsgWithdrawDelegatorReward (args : list abi_arg) : outcome (MsgWithdrawDelegatorReward * addr) :=
  match args with
  | [a0; a1] =>
    olet delegatorAddress <- arg_address ErrInvalidDelegator a0;
    olet delAddr <- delegator_string delegatorAddress;
    Ok (MkMsgWithdrawDelegatorReward delAddr (arg_string_or_empty a1), delegatorAddress)
  | _ => Err ErrInvalidNumberOfArgs
  end.
Definition NewMsgWithdrawValidatorCommission (args : list abi_arg) : outcome (MsgWithdrawValidatorCommission * addr) :=
  match args with
  | [a0] =>
    let msg := MkMsgWithdrawValidatorCommission (arg_string_or_empty a0) in
    olet validatorHexAddr <- HexAddressFromBech32String (wc_ValidatorAddress msg);
    Ok (msg, validatorHexAddr)
  | _ => Err ErrInvalidNumberOfArgs
  end.
Definition depositor_string (a : addr) : outcome string := owrap "failed to decode depositor address" (addrCdc_BytesToString a).
Definition NewMsgFundCommunityPool (args : list abi_arg) : outcome (MsgFundCommunityPool * addr) :=
  match args with
  | [a0; a1] =>
    olet depositorAddress <- arg_address ErrInvalidHexAddress a0;
    olet coins <- oreplace ErrInvalidAmount (ToCoins a1);
    olet amt <- oreplace ErrInvalidAmount (NewSdkCoinsFromCoins coins);
    olet depAddr <- depositor_string depositorAddress;
    Ok (MkMsgFundCommunityPool depAddr amt, depositorAddress)
  | _ => Err ErrInvalidNumberOfArgs
  end.
Definition NewMsgDepositValidatorRewardsPool (args : list abi_arg) : outcome (MsgDepositValidatorRewardsPool * addr) :=
  match args with
  | [a0; a1; a2] =>
    olet depositorAddress <- arg_address ErrInvalidHexAddress a0;
    olet coins <- oreplace ErrInvalidAmount (ToCoins a2);
    olet amount <- oreplace ErrInvalidAmount (NewSdkCoinsFromCoins coins);
    olet depAddr <- depositor_string depositorAddress;
    Ok (MkMsgDepositValidatorRewardsPool depAddr (arg_string_or_empty a1) amount, depositorAddress)
  | _ => Err ErrInvalidNumberOfArgs
  end.

(** ** types.go: requests *)

Definition NewValidatorDistributionInfoRequest (args : list abi_arg) : outcome string :=
  match args with [a0] => Ok (arg_string_or_empty a0) | _ => Err ErrInvalidNumberOfArgs end.
Definition NewValidatorOutstandingRewardsRequest (args : list abi_arg) : outcome string :=
  match args with [a0] => Ok (arg_string_or_empty a0) | _ => Err ErrInvalidNumberOfArgs end.
Definition NewValidatorCommissionRequest (args : list abi_arg) : outcome string :=
  match args with [a0] => Ok (arg_string_or_empty a0) | _ => Err ErrInvalidNumberOfArgs end.
Definition NewValidatorSlashesRequest (args : list abi_arg) : outcome (string * Z * Z * PageRequest) :=
  match args with
  | [a0; a1; a2; a3] =>
    olet startingHeight <- arg_u64 ErrInvalidType a1;
    olet endingHeight <- arg_u64 ErrInvalidType a2;
    match a0, a3 with
    | PString validator, PPage p => Ok (validator, startingHeight, endingHeight, p)
    | _, _ => Err ErrCopyArgs
    end
  | _ => Err ErrInvalidNumberOfArgs
  end.
Definition NewDelegationRewardsRequest (args : list abi_arg) : outcome (string * string) :=
  match args with
  | [a0; a1] =>
    olet delegatorAddress <- arg_address ErrInvalidDelegator a0;
    olet delAddr <- delegator_string delegatorAddress;
    Ok (delAddr, arg_string_or_empty a1)
  | _ => Err ErrInvalidNumberOfArgs
  end.
Definition NewDelegationTotalRewardsRequest (args : list abi_arg) : outcome string :=
  match args with
  | [a0] => olet delegatorAddress <- arg_address ErrInvalidDelegator a0; delegator_string delegatorAddress
  | _ => Err ErrInvalidNumberOfArgs
  end.
Definition NewDelegatorValidatorsRequest (args : list abi_arg) : outcome string :=
  match args with
  | [a0] => olet delegatorAddress <- arg_address ErrInvalidDelegator a0; delegator_string delegatorAddress
  | _ => Err ErrInvalidNumberOfArgs
  end.
Definition NewDelegatorWithdrawAddressRequest (args : list abi_arg) : outcome string :=
  match args with
  | [a0] => olet delegatorAddress <- arg_address ErrInvalidDelegator a0; delegator_string delegatorAddress
  | _ => Err ErrInvalidNumberOfArgs
  end.
Definition NewCommunityPoolRequest (args : list abi_arg) : outcome unit :=
  match args with [] => Ok tt | _ => Err ErrInvalidNumberOfArgs end.

(** ** types.go: outputs *)

Definition ValidatorSlashes_FromResponse (l : list (Z * Z)) : list (Z * CmnDec) :=
  map (fun s => (s.1, MkCmnDec s.2 LegacyPrecision)) l.
Definition DelegationTotalRewards_FromResponse (l : list (string * list DecCoin)) : list (string * list CmnDecCoin) :=
  map (fun r => (r.1, NewDecCoinsResponse r.2)) l.

Context {W : Type} {Sm : StakingModule W} {Dm : DistributionModule W}.
Abbreviation MLW := (M (LState W)).

(** ** events.go *)

(** [coins[0]] *)
Definition first_coin (coins : list Coin) : outcome Coin :=
  match coins with c :: _ => Ok c | [] => Panic "index out of range" end.

Definition EmitClaimRewardsEvent (delegatorAddress : addr) (totalCoins : list Coin) : MLW unit :=
  let! bondDenom <- read_world sk_BondDenom;
  let! totalAmount <- mlift (Coins_AmountOf totalCoins bondDenom);
  AddLog (EvClaimRewards delegatorAddress totalAmount).
Definition EmitSetWithdrawAddressEvent (caller : addr) (withdrawerAddress : string) : MLW unit :=
  AddLog (EvSetWithdrawAddress caller withdrawerAddress).
Definition EmitWithdrawDelegatorRewardEvent (delegatorAddress : addr) (validatorAddress : string) (coins : list Coin) : MLW unit :=
  let! valAddr <- mlift (ValAddressFromBech32 validatorAddress);
  let! c <- mlift (first_coin coins);
  AddLog (EvWithdrawDelegatorReward delegatorAddress (BytesToAddress valAddr) (Amount c)).
Definition EmitWithdrawValidatorCommissionEvent (validatorAddress : string) (coins : list Coin) : MLW unit :=
  let! c <- mlift (first_coin coins);
  AddLog (EvWithdrawValidatorCommission validatorAddress (Amount c)).
Fixpoint EmitFundCommunityPoolEvent (depositor : addr) (coins : list Coin) : MLW unit :=
  match coins with
  | [] => mret tt
  | c :: l => do! AddLog (EvFundCommunityPool depositor (Denom c) (Amount c)); EmitFundCommunityPoolEvent depositor l
  end.
Fixpoint deposit_events (depositor validator : addr) (coins : list Coin) : MLW unit :=
  match coins with
  | [] => mret tt
  | c :: l => do! AddLog (EvDepositValidatorRewardsPool depositor validator (Denom c) (Amount c)); deposit_events depositor validator l
  end.
Definition EmitDepositValidatorRewardsPoolEvent (depositor : addr) (validatorAddress : string) (coins : list Coin) : MLW unit :=
  let! valAddr <- mlift (ValAddressFromBech32 validatorAddress);
  deposit_events depositor (BytesToAddress valAddr) coins.

(** ** tx.go *)

(** The loop over the validators of the delegator, with the running total. *)
Fixpoint claim_from (delegator : addr) (validators : list Validator) (total : list Coin) : MLW (list Coin) :=
  match validators with
  | [] => mret total
  | v :: l =>
    let! valAddr <- mlift (ValAddressFromBech32 (va_OperatorAddress v));
    let! coins <- in_world (dk_WithdrawDelegationRewards delegator valAddr);
    let! total' <- mlift (Coins_Add total coins);
    claim_from delegator l total'
  end.
Definition ClaimRewards (caller : addr) (args : list abi_arg) : MLW DistributionOut :=
  let! p <- mlift (parseClaimRewardsArgs args);
  let! maxVals <- read_world sk_MaxValidators;
  do! mguard (negb (maxVals <? p.2)) "maxRetrieve parameter exceeds the maximum number of validators";
  do! check_sender caller p.1;
  let! validators <- read_world (fun w => sk_GetDelegatorValidators w p.1 p.2);
  let! totalCoins <- claim_from p.1 validators [];
  do! EmitClaimRewardsEvent p.1 totalCoins;
  mret DOTrue.
Definition SetWithdrawAddress (caller : addr) (args : list abi_arg) : MLW DistributionOut :=
  let! m <- mlift (NewMsgSetWithdrawAddress args);
  do! check_sender caller m.2;
  do! in_world (sv_SetWithdrawAddress m.1);
  do! EmitSetWithdrawAddressEvent m.2 (sw_WithdrawAddress m.1);
  mret DOTrue.
Definition WithdrawDelegatorReward (caller : addr) (args : list abi_arg) : MLW DistributionOut :=
  let! m <- mlift (NewMsgWithdrawDelegatorReward args);
  do! check_sender caller m.2;
  let! amount <- in_world (sv_WithdrawDelegatorReward m.1);
  do! EmitWithdrawDelegatorRewardEvent m.2 (wr_ValidatorAddress m.1) amount;
  mret (DOCoins (NewCoinsResponse amount)).
Definition WithdrawValidatorCommission (caller : addr) (args : list abi_arg) : MLW DistributionOut :=
  let! m <- mlift (NewMsgWithdrawValidatorCommission args);
  do! check_sender caller m.2;
  let! amount <- in_world (sv_WithdrawValidatorCommission m.1);
  do! EmitWithdrawValidatorCommissionEvent (wc_ValidatorAddress m.1) amount;
  mret (DOCoins (NewCoinsResponse amount)).
Definition FundCommunityPool (caller : addr) (args : list abi_arg) : MLW DistributionOut :=
  let! m <- mlift (NewMsgFundCommunityPool args);
  do! check_sender caller m.2;
  do! in_world (sv_FundCommunityPool m.1);
  do! EmitFundCommunityPoolEvent m.2 (fp_Amount m.1);
  mret DOTrue.
Definition DepositValidatorRewardsPool (caller : addr) (args : list abi_arg) : MLW DistributionOut :=
  let! m <- mlift (NewMsgDepositValidatorRewardsPool args);
  do! check_sender caller m.2;
  do! in_world (sv_DepositValidatorRewardsPool m.1);
  do! EmitDepositValidatorRewardsPoolEvent m.2 (dp_ValidatorAddress m.1) (dp_Amount m.1);
  mret DOTrue.

(** ** query.go *)

Definition ValidatorDistributionInfo_query (args : list abi_arg) : MLW DistributionOut :=
  let! req <- mlift (NewValidatorDistributionInfoRequest args);
  let! res <- read_world (fun w => qr_ValidatorDistributionInfo w req);
  mret (DOInfo (di_OperatorAddress res) (NewDecCoinsResponse (di_SelfBondRewards res)) (NewDecCoinsResponse (di_Commission res))).
Definition ValidatorOutstandingRewards (args : list abi_arg) : MLW DistributionOut :=
  let! req <- mlift (NewValidatorOutstandingRewardsRequest args);
  let! res <- read_world (fun w => qr_ValidatorOutstandingRewards w req);
  mret (DODecCoins (NewDecCoinsResponse res)).
Definition ValidatorCommission (args : list abi_arg) : MLW DistributionOut :=
  let! req <- mlift (NewValidatorCommissionRequest args);
  let! res <- read_world (fun w => qr_ValidatorCommission w req);
  mret (DODecCoins (NewDecCoinsResponse res)).
Definition ValidatorSlashes (args : list abi_arg) : MLW DistributionOut :=
  let! req <- mlift (NewValidatorSlashesRequest args);
  let '(validator, startingHeight, endingHeight, page) := req in
  let! res <- read_world (fun w => qr_ValidatorSlashes w validator startingHeight endingHeight page);
  mret (DOSlashes (ValidatorSlashes_FromResponse res.1) (page_response res.2)).
Definition DelegationRewards (args : list abi_arg) : MLW DistributionOut :=
  let! req <- mlift (NewDelegationRewardsRequest args);
  let! res <- read_world (fun w => qr_DelegationRewards w req.1 req.2);
  mret (DODecCoins (NewDecCoinsResponse res)).
Definition DelegationTotalRewards (args : list abi_arg) : MLW DistributionOut :=
  let! req <- mlift (NewDelegationTotalRewardsRequest args);
  let! res <- read_world (fun w => qr_DelegationTotalRewards w req);
  mret (DOTotalRewards (DelegationTotalRewards_FromResponse res.1) (NewDecCoinsResponse res.2)).
Definition DelegatorValidators (args : list abi_arg) : MLW DistributionOut :=
  let! req <- mlift (NewDelegatorValidatorsRequest args);
  let! res <- read_world (fun w => qr_DelegatorValidators w req);
  mret (DOStrings res).
Definition DelegatorWithdrawAddress (args : list abi_arg) : MLW DistributionOut :=
  let! req <- mlift (NewDelegatorWithdrawAddressRequest args);
  let! res <- read_world (fun w => qr_DelegatorWithdrawAddress w req);
  mret (DOString res).
Definition CommunityPool (args : list abi_arg) : MLW DistributionOut :=
  do! mlift (NewCommunityPoolRequest args);
  let! res <- read_world qr_CommunityPool;
  mret (DODecCoins (NewDecCoinsResponse res)).

(** ** distribution.go *)

Definition distribution_IsTransaction (method : string) : bool :=
  existsb (String.eqb method) ["claimRewards"; "setWithdrawAddress"; "withdrawDelegatorRewards"; "withdrawValidatorCommission";
    "fundCommunityPool"; "depositValidatorRewardsPool"].

Definition distribution_HandleMethod (caller : addr) (method : string) (args : list abi_arg) : MLW DistributionOut :=
  if String.eqb method "claimRewards" then ClaimRewards caller args
  else if String.eqb method "setWithdrawAddress" then SetWithdrawAddress caller args
  else if String.eqb method "withdrawDelegatorRewards" then WithdrawDelegatorReward caller args
  else if String.eqb method "withdrawValidatorCommission" then WithdrawValidatorCommission caller args
  else if String.eqb method "fundCommunityPool" then FundCommunityPool caller args
  else if String.eqb method "depositValidatorRewardsPool" then DepositValidatorRewardsPool caller args
  else if String.eqb method "validatorDistributionInfo" then ValidatorDistributionInfo_query args
  else if String.eqb method "validatorOutstandingRewards" then ValidatorOutstandingRewards args
  else if String.eqb method "validatorCommission" then ValidatorCommission args
  else if String.eqb method "validatorSlashes" then ValidatorSlashes args
  else if String.eqb method "delegationRewards" then DelegationRewards args
  else if String.eqb method "delegationTotalRewards" then DelegationTotalRewards args
  else if String.eqb method "delegatorValidators" then DelegatorValidators args
  else if String.eqb method "delegatorWithdrawAddress" then DelegatorWithdrawAddress args
  else if String.eqb method "communityPool" then CommunityPool args
  else mfail ErrUnknownMethod.

Context (api : ABI (list abi_arg)) (m_Name : Method api -> string).

Definition distribution_RequiredGas (c : GasConfig) (input : bytes) : Z :=
  if len input <? 4 then 0 else
  match MethodById api (String.substring 0 4 input) with Ok m => RequiredGas c input (distribution_IsTransaction (m_Name m)) | _ => 0 end.

Definition distribution_Execute (contract : Contract) (readOnly : bool) : MLW DistributionOut :=
  let! call <- mlift (SetupABI api (ct_Input contract) (ct_Value contract) readOnly (fun m => distribution_IsTransaction (m_Name m)));
  distribution_HandleMethod (ct_Caller contract) (m_Name call.1) (default [] call.2).
End distribution.
