(* ===== verification/GovPrecompile.v ===== *)
(** * precompiles/gov

    gov.go, tx.go, query.go, types.go and events.go. The message server and the
    querier of x/gov and the codec of proposal messages are an interface; the
    JSON envelope of a proposal is decoded as [encoding/json] does. *)

From Stdlib Require Import ZArith Lia List String Ascii Bool.
From stdpp Require Import base gmap strings list.
From S2P Require Import Prelude GoStrings GoJson Sdk AccessList StateDB Precompile Erc20Precompile PrecompileMsgs.
Local Open Scope Z_scope.
Local Open Scope go_scope.

(** ** The module's messages and responses *)

Record MsgSubmitProposal := MkMsgSubmitProposal {
  sp_Messages : list bytes;
  sp_InitialDeposit : list Coin;
  sp_Proposer : string;
  sp_Metadata : string;
  sp_Title : string;
  sp_Summary : string;
  sp_Expedited : bool;
}.
Record MsgDeposit := MkMsgDeposit { de_ProposalId : Z; de_Depositor : string; de_Amount : list Coin }.
Record MsgCancelProposal := MkMsgCancelProposal { cp_ProposalId : Z; cp_Proposer : string }.
Record MsgVote := MkMsgVote { vo_ProposalId : Z; vo_Voter : string; vo_Option : Z; vo_Metadata : string }.
Record MsgVoteWeighted := MkMsgVoteWeighted { vw_ProposalId : Z; vw_Voter : string; vw_Options : list (Z * string); vw_Metadata : string }.

Record GovVote := MkGovVote { gv_ProposalId : Z; gv_Voter : string; gv_Options : list (Z * string); gv_Metadata : string }.
Record GovDeposit := MkGovDeposit { gd_ProposalId : Z; gd_Depositor : string; gd_Amount : list Coin }.
Record TallyResult := MkTallyResult { ta_Yes : string; ta_Abstain : string; ta_No : string; ta_NoWithVeto : string }.
Record Proposal := MkProposal {
  pp_Id : Z;
  pp_TypeUrls : list string;
  pp_Status : Z;
  pp_FinalTallyResult : TallyResult;
  pp_SubmitTime : Z;
  pp_DepositEndTime : Z;
  pp_TotalDeposit : list Coin;
  pp_VotingStartTime : option Z;
  pp_VotingEndTime : option Z;
  pp_Metadata : string;
  pp_Title : string;
  pp_Summary : string;
  pp_Proposer : string;
}.
(** Durations in nanoseconds. *)
Record GovParams := MkGovParams {
  gp_VotingPeriod : Z;
  gp_MinDeposit : list Coin;
  gp_MaxDepositPeriod : Z;
  gp_Quorum : string;
  gp_Threshold : string;
  gp_VetoThreshold : string;
  gp_MinInitialDepositRatio : string;
  gp_ProposalCancelRatio : string;
  gp_ProposalCancelDest : string;
  gp_ExpeditedVotingPeriod : Z;
  gp_ExpeditedThreshold : string;
  gp_ExpeditedMinDeposit : list Coin;
  gp_BurnVoteQuorum : bool;
  gp_BurnProposalDepositPrevote : bool;
  gp_BurnVoteVeto : bool;
  gp_MinDepositRatio : string;
}.

(** A message of a proposal is kept in its encoded form. *)
Class GovModule (W : Type) := {
  sv_SubmitProposal : MsgSubmitProposal -> M W Z;
  sv_Deposit : MsgDeposit -> M W unit;
  sv_CancelProposal : MsgCancelProposal -> M W unit;
  sv_Vote : MsgVote -> M W unit;
  sv_VoteWeighted : MsgVoteWeighted -> M W unit;
  UnmarshalInterfaceJSON : json -> outcome bytes;
  NewAnyWithValue : bytes -> outcome bytes;
  qr_Votes : W -> Z -> PageRequest -> outcome (list GovVote * option PageResponse);
  qr_Vote : W -> Z -> string -> outcome GovVote;
  qr_Deposit : W -> Z -> string -> outcome GovDeposit;
  qr_Deposits : W -> Z -> PageRequest -> outcome (list GovDeposit * option PageResponse);
  qr_TallyResult : W -> Z -> outcome TallyResult;
  qr_Proposal : W -> Z -> outcome Proposal;
  qr_Proposals : W -> Z -> string -> string -> PageRequest -> outcome (list Proposal * option PageResponse);
  qr_Params : W -> outcome GovParams;
  qr_Constitution : W -> outcome string;
}.

(** What the methods return, before ABI encoding. *)
Record WeightedVote := MkWeightedVote { wv_ProposalId : Z; wv_Voter : addr; wv_Options : list (Z * string); wv_Metadata : string }.
Record DepositData := MkDepositData { dd_ProposalId : Z; dd_Depositor : addr; dd_Amount : list (string * Z) }.
Record ProposalData := MkProposalData {
  pd_Id : Z;
  pd_Messages : list string;
  pd_Status : Z;
  pd_FinalTallyResult : TallyResult;
  pd_SubmitTime : Z;
  pd_DepositEndTime : Z;
  pd_TotalDeposit : list (string * Z);
  pd_VotingStartTime : Z;
  pd_VotingEndTime : Z;
  pd_Metadata : string;
  pd_Title : string;
  pd_Summary : string;
  pd_Proposer : addr;
}.
Record ParamsOutput := MkParamsOutput {
  po_VotingPeriod : Z;
  po_MinDeposit : list (string * Z);
  po_MaxDepositPeriod : Z;
  po_Quorum : string;
  po_Threshold : string;
  po_VetoThreshold : string;
  po_MinInitialDepositRatio : string;
  po_ProposalCancelRatio : string;
  po_ProposalCancelDest : string;
  po_ExpeditedVotingPeriod : Z;
  po_ExpeditedThreshold : string;
  po_ExpeditedMinDeposit : list (string * Z);
  po_BurnVoteQuorum : bool;
  po_BurnProposalDepositPrevote : bool;
  po_BurnVoteVeto : bool;
  po_MinDepositRatio : string;
}.
Inductive GovOut :=
  | GOTrue
  | GOProposalId (id : Z)
  | GOVotes (l : list WeightedVote) (p : PageResponse)
  | GOVote (v : WeightedVote)
  | GODeposit (d : DepositData)
  | GODeposits (l : list DepositData) (p : PageResponse)
  | GOTally (t : TallyResult)
  | GOProposal (p : ProposalData)
  | GOProposals (l : list ProposalData) (p : PageResponse)
  | GOParams (p : ParamsOutput)
  | GOConstitution (s : string).

Definition ErrProposalSubmissionDisabled : error := "governance proposal submission is disabled".
Definition ErrInvalidVoter : error := "invalid voter address".
Definition ErrInvalidProposalID : error := "invalid proposal id".
Definition ErrInvalidOption : error := "invalid option".
Definition ErrInvalidMetadata : error := "invalid metadata".
Definition ErrInvalidProposalJSON : error := "invalid proposal json".
Definition ErrInvalidProposer : error := "invalid proposer".
Definition ErrInvalidDepositor : error := "invalid depositor address".
Definition ErrInvalidDeposits : error := "invalid deposits".

(** A [uint32] converted to [int32], and [uint8] and [uint64] conversions. *)
Definition int32_of_uint32 (z : Z) : Z := if z <? 2 ^ 31 then z else z - 2 ^ 32.
Definition to_uint8 (z : Z) : Z := z mod 2 ^ 8.
Definition to_uint32 (z : Z) : Z := z mod 2 ^ 32.
Definition to_uint64 (z : Z) : Z := z mod 2 ^ 64.

(** ** The envelope of a proposal *)

Record Envelope := MkEnvelope {
  en_Messages : list json;
  en_Metadata : string;
  en_Title : string;
  en_Summary : string;
  en_Expedited : bool;
}.
(** [[]json.RawMessage]: every element is kept. *)
Definition as_raws (v : json) : outcome (list json) :=
  match v with JArr l => Ok l | JNull => Ok [] | _ => Err type_error end.
Definition Envelope_member (e : Envelope) (kv : string * json) : outcome Envelope :=
  let '(MkEnvelope ms md ti su ex) := e in
  let '(key, v) := kv in
  if key_is "messages" key then olet l <- as_raws v; Ok (MkEnvelope l md ti su ex)
  else if key_is "metadata" key then olet s <- as_string md v; Ok (MkEnvelope ms s ti su ex)
  else if key_is "title" key then olet s <- as_string ti v; Ok (MkEnvelope ms md s su ex)
  else if key_is "summary" key then olet s <- as_string su v; Ok (MkEnvelope ms md ti s ex)
  else if key_is "expedited" key then olet b <- as_bool ex v; Ok (MkEnvelope ms md ti su b)
  else Ok e.
Fixpoint Envelope_members (e : Envelope) (l : list (string * json)) : outcome Envelope :=
  match l with
  | [] => Ok e
  | kv :: l' => olet e' <- Envelope_member e kv; Envelope_members e' l'
  end.
Definition empty_envelope : Envelope := MkEnvelope [] EmptyString EmptyString EmptyString false.
Definition Envelope_Unmarshal (b : bytes) : outcome Envelope :=
  match Parse b with
  | Some (JObj l) => Envelope_members empty_envelope l
  | Some JNull => Ok empty_envelope
  | Some _ => Err type_error
  | None => Err "invalid character in JSON input"
  end.

Section gov.
Context {Ty : SdkTypes} {Ma : SdkMath} {Ac : AddrCodecs} {Co : SdkCoins}.
Context {W : Type} {Gm : GovModule W}.
Abbreviation MLW := (M (LState W)).

(** ** types.go: messages *)

Fixpoint decode_messages (i : Z) (l : list json) : outcome (list bytes) :=
  match l with
  | [] => Ok []
  | m :: l' => olet b <- owrap ("message " +:+ FormatInt i)%string (UnmarshalInterfaceJSON m); olet r <- decode_messages (i + 1) l'; Ok (b :: r)
  end.
Fixpoint pack_messages (l : list bytes) : outcome (list bytes) :=
  match l with
  | [] => Ok []
  | m :: l' => olet a <- NewAnyWithValue m; olet r <- pack_messages l'; Ok (a :: r)
  end.
Definition proposer_string (a : addr) : outcome string := owrap "failed to decode proposer address" (addrCdc_BytesToString a).
Definition gov_depositor_string (a : addr) : outcome string := owrap "failed to decode depositor address" (addrCdc_BytesToString a).
Definition voter_string (a : addr) : outcome string := owrap "failed to decode voter address" (addrCdc_BytesToString a).

Definition NewMsgSubmitProposal (args : list abi_arg) : outcome (MsgSubmitProposal * addr) :=
  match args with
  | [a0; a1; a2] =>
    olet proposer <- arg_address ErrInvalidProposer a0;
    olet jsonBlob <- match a1 with PBytes b => if len b =? 0 then Err ErrInvalidProposalJSON else Ok b | _ => Err ErrInvalidProposalJSON end;
    olet coins <- oreplace ErrInvalidDeposits (ToCoins a2);
    olet amt <- oreplace ErrInvalidDeposits (NewSdkCoinsFromCoins coins);
    olet prop <- owrap "invalid proposal JSON" (Envelope_Unmarshal jsonBlob);
    olet msgs <- decode_messages 0 (en_Messages prop);
    olet anys <- pack_messages msgs;
    olet proposerAddr <- proposer_string proposer;
    Ok (MkMsgSubmitProposal anys amt proposerAddr (en_Metadata prop) (en_Title prop) (en_Summary prop) (en_Expedited prop), proposer)
  | _ => Err ErrInvalidNumberOfArgs
  end.
Definition NewMsgDeposit (args : list abi_arg) : outcome (MsgDeposit * addr) :=
  match args with
  | [a0; a1; a2] =>
    olet depositor <- arg_address ErrInvalidDepositor a0;
    olet proposalID <- arg_u64 ErrInvalidProposalID a1;
    olet coins <- oreplace ErrInvalidDeposits (ToCoins a2);
    olet amt <- oreplace ErrInvalidDeposits (NewSdkCoinsFromCoins coins);
    olet depositorAddr <- gov_depositor_string depositor;
    Ok (MkMsgDeposit proposalID depositorAddr amt, depositor)
  | _ => Err ErrInvalidNumberOfArgs
  end.
Definition NewMsgCancelProposal (args : list abi_arg) : outcome (MsgCancelProposal * addr) :=
  match args with
  | [a0; a1] =>
    olet proposer <- arg_address ErrInvalidProposer a0;
    olet proposalID <- arg_u64 ErrInvalidProposalID a1;
    olet proposerAddr <- proposer_string proposer;
    Ok (MkMsgCancelProposal proposalID proposerAddr, proposer)
  | _ => Err ErrInvalidNumberOfArgs
  end.
Definition NewMsgVote (args : list abi_arg) : outcome (MsgVote * addr) :=
  match args with
  | [a0; a1; a2; a3] =>
    olet voterAddress <- arg_address ErrInvalidVoter a0;
    olet proposalID <- arg_u64 ErrInvalidProposalID a1;
    olet option <- match a2 with PU8 z => Ok z | _ => Err ErrInvalidOption end;
    olet metadata <- match a3 with PString s => Ok s | _ => Err ErrInvalidMetadata end;
    olet voterAddr <- voter_string voterAddress;
    Ok (MkMsgVote proposalID voterAddr option metadata, voterAddress)
  | _ => Err ErrInvalidNumberOfArgs
  end.
Definition NewMsgVoteWeighted (args : list abi_arg) : outcome (MsgVoteWeighted * addr * list (Z * string)) :=
  match args with
  | [a0; a1; a2; a3] =>
    olet voterAddress <- arg_address ErrInvalidVoter a0;
    olet proposalID <- arg_u64 ErrInvalidProposalID a1;
    olet options <- match a2 with POptions l => Ok l | _ => Err ErrCopyArgs end;
    let weightedOptions := map (fun o => (o.1, o.2)) options in
    olet metadata <- match a3 with PString s => Ok s | _ => Err ErrInvalidMetadata end;
    olet voterAddr <- voter_string voterAddress;
    Ok (MkMsgVoteWeighted proposalID voterAddr weightedOptions metadata, voterAddress, options)
  | _ => Err ErrInvalidNumberOfArgs
  end.

(** ** types.go: requests *)

Definition ParseVotesArgs (args : list abi_arg) : outcome (Z * PageRequest) :=
  match args with
  | [PU64 id; PPage p] => Ok (id, p)
  | [_; _] => Err ErrCopyArgs
  | _ => Err ErrInvalidNumberOfArgs
  end.
Definition ParseVoteArgs (args : list abi_arg) : outcome (Z * string) :=
  match args with
  | [a0; a1] =>
    olet proposalID <- arg_u64 ErrInvalidProposalID a0;
    olet voter <- match a1 with PAddress a => Ok a | _ => Err ErrInvalidVoter end;
    olet voterAddr <- voter_string voter;
    Ok (proposalID, voterAddr)
  | _ => Err ErrInvalidNumberOfArgs
  end.
Definition ParseDepositArgs (args : list abi_arg) : outcome (Z * string) :=
  match args with
  | [a0; a1] =>
    olet proposalID <- arg_u64 ErrInvalidProposalID a0;
    olet depositor <- match a1 with PAddress a => Ok a | _ => Err ErrInvalidDepositor end;
    olet depositorAddr <- gov_depositor_string depositor;
    Ok (proposalID, depositorAddr)
  | _ => Err ErrInvalidNumberOfArgs
  end.
Definition ParseDepositsArgs (args : list abi_arg) : outcome (Z * PageRequest) :=
  match args with
  | [PU64 id; PPage p] => Ok (id, p)
  | [_; _] => Err ErrCopyArgs
  | _ => Err ErrInvalidNumberOfArgs
  end.
Definition ParseTallyResultArgs (args : list abi_arg) : outcome Z :=
  match args with [a0] => arg_u64 ErrInvalidProposalID a0 | _ => Err ErrInvalidNumberOfArgs end.
Definition ParseProposalArgs (args : list abi_arg) : outcome Z :=
  match args with [a0] => arg_u64 ErrInvalidProposalID a0 | _ => Err ErrInvalidNumberOfArgs end.
Definition ParseProposalsArgs (args : list abi_arg) : outcome (Z * string * string * PageRequest) :=
  match args with
  | [PU32 status; PAddress v; PAddress d; PPage p] =>
    olet voter <- (if String.eqb v zero_address then Ok EmptyString else voter_string v);
    olet depositor <- (if String.eqb d zero_address then Ok EmptyString else gov_depositor_string d);
    Ok (int32_of_uint32 status, voter, depositor, p)
  | [_; _; _; _] => Err ErrCopyArgs
  | _ => Err ErrInvalidNumberOfArgs
  end.
Definition no_args (args : list abi_arg) : outcome unit :=
  match args with [] => Ok tt | _ => Err ErrInvalidNumberOfArgs end.
Definition BuildQueryParamsRequest (args : list abi_arg) : outcome unit := no_args args.
Definition BuildQueryConstitutionRequest (args : list abi_arg) : outcome unit := no_args args.

(** ** types.go: outputs *)

Fixpoint convert_all {A B} (f : A -> outcome B) (l : list A) : outcome (list B) :=
  match l with
  | [] => Ok []
  | x :: l' => olet y <- f x; olet r <- convert_all f l'; Ok (y :: r)
  end.
Definition vote_options (l : list (Z * string)) : list (Z * string) := map (fun o => (to_uint8 o.1, o.2)) l.
Definition Vote_FromResponse (v : GovVote) : outcome WeightedVote :=
  olet hexVoter <- HexAddressFromBech32String (gv_Voter v);
  Ok (MkWeightedVote (gv_ProposalId v) hexVoter (vote_options (gv_Options v)) (gv_Metadata v)).
Definition Votes_FromResponse (l : list GovVote) : outcome (list WeightedVote) := convert_all Vote_FromResponse l.
Definition Deposit_FromResponse (d : GovDeposit) : outcome DepositData :=
  olet hexDepositor <- HexAddressFromBech32String (gd_Depositor d);
  Ok (MkDepositData (gd_ProposalId d) hexDepositor (NewCoinsResponse (gd_Amount d))).
Definition Deposits_FromResponse (l : list GovDeposit) : outcome (list DepositData) := convert_all Deposit_FromResponse l.
Definition unix_uint64 (t : Z) : Z := to_uint64 (Unix t).
Definition Proposal_FromResponse (p : Proposal) : outcome ProposalData :=
  olet proposer <- HexAddressFromBech32String (pp_Proposer p);
  Ok (MkProposalData (pp_Id p) (pp_TypeUrls p) (to_uint32 (pp_Status p)) (pp_FinalTallyResult p)
        (unix_uint64 (pp_SubmitTime p)) (unix_uint64 (pp_DepositEndTime p)) (NewCoinsResponse (pp_TotalDeposit p))
        (default 0 (unix_uint64 <$> pp_VotingStartTime p)) (default 0 (unix_uint64 <$> pp_VotingEndTime p))
        (pp_Metadata p) (pp_Title p) (pp_Summary p) proposer).
Definition Proposals_FromResponse (l : list Proposal) : outcome (list ProposalData) := convert_all Proposal_FromResponse l.
Definition Params_FromResponse (p : GovParams) : ParamsOutput :=
  MkParamsOutput (gp_VotingPeriod p) (NewCoinsResponse (gp_MinDeposit p)) (gp_MaxDepositPeriod p) (gp_Quorum p) (gp_Threshold p)
    (gp_VetoThreshold p) (gp_MinInitialDepositRatio p) (gp_ProposalCancelRatio p) (gp_ProposalCancelDest p)
    (gp_ExpeditedVotingPeriod p) (gp_ExpeditedThreshold p) (NewCoinsResponse (gp_ExpeditedMinDeposit p)) (gp_BurnVoteQuorum p)
    (gp_BurnProposalDepositPrevote p) (gp_BurnVoteVeto p) (gp_MinDepositRatio p).

(** ** events.go *)

Definition EmitSubmitProposalEvent (proposer : addr) (proposalID : Z) : MLW unit := AddLog (EvSubmitProposal proposer proposalID).
Definition EmitCancelProposalEvent (proposer : addr) (proposalID : Z) : MLW unit := AddLog (EvCancelProposal proposer proposalID).
Definition EmitDepositEvent (depositor : addr) (proposalID : Z) (amount : list Coin) : MLW unit :=
  AddLog (EvGovDeposit depositor proposalID (NewCoinsResponse amount)).
Definition EmitVoteEvent (voter : addr) (proposalID option : Z) : MLW unit := AddLog (EvVote voter proposalID (to_uint8 option)).
Definition EmitVoteWeightedEvent (voter : addr) (proposalID : Z) (options : list (Z * string)) : MLW unit :=
  AddLog (EvVoteWeighted voter proposalID options).

(** ** tx.go *)

Definition SubmitProposal (caller : addr) (args : list abi_arg) : MLW GovOut :=
  let! m <- mlift (NewMsgSubmitProposal args);
  do! check_sender caller m.2;
  let! id <- in_world (sv_SubmitProposal m.1);
  do! EmitSubmitProposalEvent m.2 id;
  mret (GOProposalId id).
Definition gov_Deposit (caller : addr) (args : list abi_arg) : MLW GovOut :=
  let! m <- mlift (NewMsgDeposit args);
  do! check_sender caller m.2;
  do! in_world (sv_Deposit m.1);
  do! EmitDepositEvent m.2 (de_ProposalId m.1) (de_Amount m.1);
  mret GOTrue.
Definition CancelProposal (caller : addr) (args : list abi_arg) : MLW GovOut :=
  let! m <- mlift (NewMsgCancelProposal args);
  do! check_sender caller m.2;
  do! in_world (sv_CancelProposal m.1);
  do! EmitCancelProposalEvent m.2 (cp_ProposalId m.1);
  mret GOTrue.
Definition Vote (caller : addr) (args : list abi_arg) : MLW GovOut :=
  let! m <- mlift (NewMsgVote args);
  do! check_sender caller m.2;
  do! in_world (sv_Vote m.1);
  do! EmitVoteEvent m.2 (vo_ProposalId m.1) (vo_Option m.1);
  mret GOTrue.
Definition VoteWeighted (caller : addr) (args : list abi_arg) : MLW GovOut :=
  let! x <- mlift (NewMsgVoteWeighted args);
  let '(msg, voterHexAddr, options) := x in
  do! check_sender caller voterHexAddr;
  do! in_world (sv_VoteWeighted msg);
  do! EmitVoteWeightedEvent voterHexAddr (vw_ProposalId msg) options;
  mret GOTrue.

(** ** query.go *)

Definition GetVotes (args : list abi_arg) : MLW GovOut :=
  let! req <- mlift (ParseVotesArgs args);
  let! res <- read_world (fun w => qr_Votes w req.1 req.2);
  let! out <- mlift (Votes_FromResponse res.1);
  mret (GOVotes out (page_response res.2)).
Definition GetVote (args : list abi_arg) : MLW GovOut :=
  let! req <- mlift (ParseVoteArgs args);
  let! res <- read_world (fun w => qr_Vote w req.1 req.2);
  let! out <- mlift (Vote_FromResponse res);
  mret (GOVote out).
Definition GetDeposit (args : list abi_arg) : MLW GovOut :=
  let! req <- mlift (ParseDepositArgs args);
  let! res <- read_world (fun w => qr_Deposit w req.1 req.2);
  let! out <- mlift (Deposit_FromResponse res);
  mret (GODeposit out).
Definition GetDeposits (args : list abi_arg) : MLW GovOut :=
  let! req <- mlift (ParseDepositsArgs args);
  let! res <- read_world (fun w => qr_Deposits w req.1 req.2);
  let! out <- mlift (Deposits_FromResponse res.1);
  mret (GODeposits out (page_response res.2)).
Definition GetTallyResult (args : list abi_arg) : MLW GovOut :=
  let! req <- mlift (ParseTallyResultArgs args);
  let! res <- read_world (fun w => qr_TallyResult w req);
  mret (GOTally res).
Definition GetProposal (args : list abi_arg) : MLW GovOut :=
  let! req <- mlift (ParseProposalArgs args);
  let! res <- read_world (fun w => qr_Proposal w req);
  let! out <- mlift (Proposal_FromResponse res);
  mret (GOProposal out).
Definition GetProposals (args : list abi_arg) : MLW GovOut :=
  let! req <- mlift (ParseProposalsArgs args);
  let '(status, voter, depositor, page) := req in
  let! res <- read_world (fun w => qr_Proposals w status voter depositor page);
  let! out <- mlift (Proposals_FromResponse res.1);
  mret (GOProposals out (page_response res.2)).
Definition gov_GetParams (args : list abi_arg) : MLW GovOut :=
  do! mlift (BuildQueryParamsRequest args);
  let! res <- read_world qr_Params;
  mret (GOParams (Params_FromResponse res)).
Definition GetConstitution (args : list abi_arg) : MLW GovOut :=
  do! mlift (BuildQueryConstitutionRequest args);
  let! res <- read_world qr_Constitution;
  mret (GOConstitution res).

(** ** gov.go *)

Definition gov_IsTransaction (method : string) : bool :=
  existsb (String.eqb method) ["vote"; "voteWeighted"; "submitProposal"; "deposit"; "cancelProposal"].

(** [allowSubmit] is set by NewPrecompile and cleared by
    DisableProposalSubmission. *)
Definition gov_HandleMethod (allowSubmit : bool) (caller : addr) (method : string) (args : list abi_arg) : MLW GovOut :=
  if String.eqb method "vote" then Vote caller args
  else if String.eqb method "voteWeighted" then VoteWeighted caller args
  else if String.eqb method "submitProposal" then
    do! mguard allowSubmit ErrProposalSubmissionDisabled; SubmitProposal caller args
  else if String.eqb method "deposit" then gov_Deposit caller args
  else if String.eqb method "cancelProposal" then CancelProposal caller args
  else if String.eqb method "getVote" then GetVote args
  else if String.eqb method "getVotes" then GetVotes args
  else if String.eqb method "getDeposit" then GetDeposit args
  else if String.eqb method "getDeposits" then GetDeposits args
  else if String.eqb method "getTallyResult" then GetTallyResult args
  else if String.eqb method "getProposal" then GetProposal args
  else if String.eqb method "getProposals" then GetProposals args
  else if String.eqb method "getParams" then gov_GetParams args
  else if String.eqb method "getConstitution" then GetConstitution args
  else mfail ErrUnknownMethod.

Context (api : ABI (list abi_arg)) (m_Name : Method api -> string).

Definition gov_RequiredGas (c : GasConfig) (input : bytes) : Z :=
  if len input <? 4 then 0 else
  match MethodById api (String.substring 0 4 input) with Ok m => RequiredGas c input (gov_IsTransaction (m_Name m)) | _ => 0 end.

Definition gov_Execute (allowSubmit : bool) (contract : Contract) (readOnly : bool) : MLW GovOut :=
  let! call <- mlift (SetupABI api (ct_Input contract) (ct_Value contract) readOnly (fun m => gov_IsTransaction (m_Name m)));
  gov_HandleMethod allowSubmit (ct_Caller contract) (m_Name call.1) (default [] call.2).
End gov.
