(* ===== verification/SlashingPrecompile.v ===== *)
(** * precompiles/slashing

    slashing.go, tx.go, query.go, types.go and events.go. The message server and
    the querier of x/slashing are an interface. *)

From Stdlib Require Import ZArith Lia List String Ascii Bool.
From stdpp Require Import base gmap strings list.
From S2P Require Import Prelude GoStrings Sdk AccessList StateDB Precompile Erc20Precompile PrecompileMsgs.
Local Open Scope Z_scope.
Local Open Scope go_scope.

Record MsgUnjail := MkMsgUnjail { uj_ValidatorAddr : string }.
Record ValidatorSigningInfo := MkValidatorSigningInfo {
  vs_Address : string;
  vs_StartHeight : Z;
  vs_IndexOffset : Z;
  vs_JailedUntil : Z;
  vs_Tombstoned : bool;
  vs_MissedBlocksCounter : Z;
}.
(** The duration in nanoseconds, fractions as decimals with eighteen digits. *)
Record SlashingParams := MkSlashingParams {
  lp_SignedBlocksWindow : Z;
  lp_MinSignedPerWindow : Z;
  lp_DowntimeJailDuration : Z;
  lp_SlashFractionDoubleSign : Z;
  lp_SlashFractionDowntime : Z;
}.

(** The answer of SigningInfo and the items of SigningInfos. *)
Class SlashingModule (W : Type) := {
  sv_Unjail : MsgUnjail -> M W unit;
  qr_SigningInfo : W -> string -> outcome ValidatorSigningInfo;
  qr_SigningInfos : W -> PageRequest -> outcome (list ValidatorSigningInfo * option PageResponse);
  qr_SlashingParams : W -> outcome SlashingParams;
}.

Record SigningInfo := MkSigningInfo {
  si_ValidatorAddress : addr;
  si_StartHeight : Z;
  si_IndexOffset : Z;
  si_JailedUntil : Z;
  si_Tombstoned : bool;
  si_MissedBlocksCounter : Z;
}.
Record SlashingParamsOutput := MkSlashingParamsOutput {
  so_SignedBlocksWindow : Z;
  so_MinSignedPerWindow : CmnDec;
  so_DowntimeJailDuration : Z;
  so_SlashFractionDoubleSign : CmnDec;
  so_SlashFractionDowntime : CmnDec;
}.
Inductive SlashingOut :=
  | LOTrue
  | LOSigningInfo (i : SigningInfo)
  | LOSigningInfos (l : list SigningInfo) (p : PageResponse)
  | LOParams (p : SlashingParamsOutput).

Section slashing.
Context {Ac : AddrCodecs}.

(** ** types.go *)

Definition ParseSigningInfoArgs (args : list abi_arg) : outcome string :=
  match args with
  | [a0] =>
    olet hexAddr <- arg_address "invalid consensus address" a0;
    owrap "failed to convert consensus address" (consCodec_BytesToString hexAddr)
  | _ => Err ErrInvalidNumberOfArgs
  end.
Definition ParseSigningInfosArgs (args : list abi_arg) : outcome PageRequest :=
  match args with
  | [PPage p] => Ok p
  | [_] => Err ErrCopyArgs
  | _ => Err ErrInvalidNumberOfArgs
  end.
Definition SigningInfo_FromResponse (v : ValidatorSigningInfo) : outcome SigningInfo :=
  olet consAddr <- owrap "error parsing consensus address" (ConsAddressFromBech32 (vs_Address v));
  Ok (MkSigningInfo (BytesToAddress consAddr) (vs_StartHeight v) (vs_IndexOffset v) (Unix (vs_JailedUntil v)) (vs_Tombstoned v)
        (vs_MissedBlocksCounter v)).
Fixpoint SigningInfos_FromResponse (l : list ValidatorSigningInfo) : outcome (list SigningInfo) :=
  match l with
  | [] => Ok []
  | v :: l' => olet i <- SigningInfo_FromResponse v; olet r <- SigningInfos_FromResponse l'; Ok (i :: r)
  end.
(** [int64(d.Seconds())]: [Seconds] adds, as [float64]s, the whole seconds and
    the nanoseconds divided by 10^9; the sum is truncated. Both operations round
    to 53 bits, ties to even. *)
Definition round_even (n d : Z) : Z :=
  let q := n / d in let r := n mod d in if (2 * r <? d) || ((2 * r =? d) && Z.even q) then q else q + 1.
Definition fraction_scale (ns : Z) : Z :=
  let k := 81 - Z.log2 ns in if ns * 2 ^ k <? 2 ^ 52 * 10 ^ 9 then k + 1 else k.
Definition abs_seconds (d : Z) : Z :=
  let sec := d / 10 ^ 9 in
  let ns := d mod 10 ^ 9 in
  if ns =? 0 then sec else
  let k := fraction_scale ns in
  let num := sec * 2 ^ k + round_even (ns * 2 ^ k) (10 ^ 9) in
  let shift := Z.max 0 (Z.log2 num - 52) in
  round_even num (2 ^ shift) * 2 ^ shift / 2 ^ k.
Definition whole_seconds (d : Z) : Z := Z.sgn d * abs_seconds (Z.abs d).
Definition SlashingParams_FromResponse (p : SlashingParams) : SlashingParamsOutput :=
  MkSlashingParamsOutput (lp_SignedBlocksWindow p) (MkCmnDec (lp_MinSignedPerWindow p) LegacyPrecision)
    (whole_seconds (lp_DowntimeJailDuration p)) (MkCmnDec (lp_SlashFractionDoubleSign p) LegacyPrecision)
    (MkCmnDec (lp_SlashFractionDowntime p) LegacyPrecision).

Context {W : Type} {Lm : SlashingModule W}.
Abbreviation MLW := (M (LState W)).

(** ** events.go and tx.go *)

Definition EmitValidatorUnjailedEvent (validator : addr) : MLW unit := AddLog (EvValidatorUnjailed validator).
Definition NewMsgUnjail (validatorAddress : addr) : outcome MsgUnjail :=
  olet valAddr <- owrap "failed to convert validator address" (valCodec_BytesToString validatorAddress);
  Ok (MkMsgUnjail valAddr).
Definition Unjail (caller : addr) (args : list abi_arg) : MLW SlashingOut :=
  let! validatorAddress <- mlift (match args with
    | [PAddress a] => Ok a
    | [_] => Err "invalid validator hex address"
    | _ => Err ErrInvalidNumberOfArgs
    end);
  do! check_sender caller validatorAddress;
  let! msg <- mlift (NewMsgUnjail validatorAddress);
  do! in_world (sv_Unjail msg);
  do! EmitValidatorUnjailedEvent validatorAddress;
  mret LOTrue.

(** ** query.go *)

Definition GetSigningInfo (args : list abi_arg) : MLW SlashingOut :=
  let! req <- mlift (ParseSigningInfoArgs args);
  let! res <- read_world (fun w => qr_SigningInfo w req);
  let! out <- mlift (SigningInfo_FromResponse res);
  mret (LOSigningInfo out).
Definition GetSigningInfos (args : list abi_arg) : MLW SlashingOut :=
  let! req <- mlift (ParseSigningInfosArgs args);
  let! res <- read_world (fun w => qr_SigningInfos w req);
  let! out <- mlift (SigningInfos_FromResponse res.1);
  mret (LOSigningInfos out (page_response res.2)).
Definition slashing_GetParams : MLW SlashingOut :=
  let! res <- read_world qr_SlashingParams;
  mret (LOParams (SlashingParams_FromResponse res)).

(** ** slashing.go *)

Definition slashing_IsTransaction (method : string) : bool := String.eqb method "unjail".
Definition slashing_HandleMethod (caller : addr) (method : string) (args : list abi_arg) : MLW SlashingOut :=
  if String.eqb method "unjail" then Unjail caller args
  else if String.eqb method "getSigningInfo" then GetSigningInfo args
  else if String.eqb method "getSigningInfos" then GetSigningInfos args
  else if String.eqb method "getParams" then slashing_GetParams
  else mfail ErrUnknownMethod.

Context (api : ABI (list abi_arg)) (m_Name : Method api -> string).

Definition slashing_RequiredGas (c : GasConfig) (input : bytes) : Z :=
  if len input <? 4 then 0 else
  match MethodById api (String.substring 0 4 input) with Ok m => RequiredGas c input (slashing_IsTransaction (m_Name m)) | _ => 0 end.

Definition slashing_Execute (contract : Contract) (readOnly : bool) : MLW SlashingOut :=
  let! call <- mlift (SetupABI api (ct_Input contract) (ct_Value contract) readOnly (fun m => slashing_IsTransaction (m_Name m)));
  slashing_HandleMethod (ct_Caller contract) (m_Name call.1) (default [] call.2).
End slashing.
