(* ===== verification/Ics20Precompile.v ===== *)
(** * precompiles/ics20

    ics20.go, tx.go, query.go, types.go and events.go, on the world of
    x/erc20: a transfer of the coin of an ERC-20 contract converts tokens first
    when the sender holds too few coins. The transfer keeper, channels and
    connections are those of ibc-go. *)

From Stdlib Require Import ZArith Lia List String Ascii Bool.
From stdpp Require Import base gmap strings list.
From S2P Require Import Prelude GoStrings Sdk AccessList StateDB Precompile Erc20Types Erc20Keeper Erc20Convert Erc20Precompile PrecompileMsgs.
Local Open Scope Z_scope.
Local Open Scope go_scope.

Record MsgTransfer := MkMsgTransfer {
  tr_SourcePort : string;
  tr_SourceChannel : string;
  tr_Token : Coin;
  tr_Sender : string;
  tr_Receiver : string;
  tr_TimeoutHeight : Z * Z;
  tr_TimeoutTimestamp : Z;
  tr_Memo : string;
}.
Inductive ChannelState := CH_UNINITIALIZED | CH_INIT | CH_TRYOPEN | CH_OPEN | CH_CLOSED | CH_OTHER.
Inductive ConnectionState := CO_UNINITIALIZED | CO_INIT | CO_TRYOPEN | CO_OPEN.
Record Channel := MkChannel { ch_State : ChannelState; ch_ConnectionHops : list string }.
#[export] Instance ChannelState_eq_dec : EqDecision ChannelState.
Proof. solve_decision. Defined.
#[export] Instance ConnectionState_eq_dec : EqDecision ConnectionState.
Proof. solve_decision. Defined.

(** The transfer keeper answers with the sequence of the packet. *)
Class IbcTransfer (B E G : Type) := {
  tk_Transfer : MsgTransfer -> M (World B E G) Z;
  tk_Denom : World B E G -> string -> outcome IbcDenom;
  tk_Denoms : World B E G -> PageRequest -> outcome (list IbcDenom * option PageResponse);
  tk_DenomHash : World B E G -> string -> outcome string;
  MsgTransfer_ValidateBasic : MsgTransfer -> outcome unit;
  ck_GetChannel : World B E G -> string -> string -> option Channel;
  ck_GetConnection : World B E G -> string -> outcome ConnectionState;
  Channel_ValidateBasic : Channel -> outcome unit;
  IsChannelIDFormat : string -> bool;
  ClientIdentifierValidator : string -> outcome unit;
}.

Inductive Ics20Out :=
  | IOSequence (n : Z)
  | IODenom (d : IbcDenom)
  | IODenoms (l : list IbcDenom) (p : option PageResponse)
  | IOHash (h : string).

Definition ErrInvalidSourcePort : error := "invalid source port".
Definition ErrInvalidSourceChannel : error := "invalid source port".
Definition ErrInvalidSender : error := "invalid sender".
Definition ErrInvalidReceiver : error := "invalid receiver".
Definition ErrInvalidTimeoutTimestamp : error := "invalid timeout timestamp".
Definition ErrInvalidMemo : error := "invalid memo".
Definition ErrInvalidHash : error := "invalid hash".
Definition ErrDenomNotFound : error := "denomination not found".
Definition ErrNestedSourceCallbackTransfer : error := "ics20 transfer is not allowed during source callback execution".
Definition ErrChannelNotFound : error := "channel not found".
Definition ErrInvalidChannelState : error := "invalid channel state".
Definition ErrInvalidConnectionState : error := "invalid connection state".
Definition ErrInvalidChannel : error := "invalid channel".

Section ics20.
Context {Ma : SdkMath} {Ty : SdkTypes} {Eth : EthCommon} {Cr : EthCrypto} {Ibc : IbcLibs} {Ab : Erc20Abi}.
Context {B E G : Type} {Bo : BankOps B} {Bk : Erc20Bank B} {Go : GasOps G} {Ev : Erc20Evm B E G} {It : IbcTransfer B E G}.
Abbreviation W := (World B E G).
Abbreviation MW := (M (World B E G)).
Abbreviation MLW := (M (LState (World B E G))).

(** ** types.go *)

Definition CreateAndValidateMsgTransfer (sourcePort sourceChannel : string) (coin : Coin) (senderAddress receiverAddress : string)
    (timeoutHeight : Z * Z) (timeoutTimestamp : Z) (memo : string) : outcome MsgTransfer :=
  let msg := MkMsgTransfer sourcePort sourceChannel coin senderAddress receiverAddress timeoutHeight timeoutTimestamp memo in
  odo MsgTransfer_ValidateBasic msg;
  Ok msg.
Definition NewMsgTransfer (args : list abi_arg) : outcome (MsgTransfer * addr) :=
  match args with
  | [a0; a1; a2; a3; a4; a5; a6; a7; a8] =>
    olet sourcePort <- match a0 with PString s => Ok s | _ => Err ErrInvalidSourcePort end;
    olet sourceChannel <- match a1 with PString s => Ok s | _ => Err ErrInvalidSourceChannel end;
    olet denom <- match a2 with PString s => Ok s | _ => Err "invalid denom" end;
    olet amount <- arg_big ErrInvalidAmount a3;
    olet sender <- match a4 with PAddress a => Ok a | _ => Err ErrInvalidSender end;
    olet receiver <- match a5 with PString s => Ok s | _ => Err ErrInvalidReceiver end;
    olet timeoutHeight <- match a6 with PHeight r h => Ok (r, h) | _ => Err ErrCopyArgs end;
    olet timeoutTimestamp <- arg_u64 ErrInvalidTimeoutTimestamp a7;
    olet memo <- match a8 with PString s => Ok s | _ => Err ErrInvalidMemo end;
    olet amt <- NewIntFromBigInt amount;
    olet msg <- CreateAndValidateMsgTransfer sourcePort sourceChannel (MkCoin denom amt) (AccAddress_String sender) receiver
                  timeoutHeight timeoutTimestamp memo;
    Ok (msg, sender)
  | _ => Err ErrInvalidNumberOfArgs
  end.
Definition NewDenomRequest (args : list abi_arg) : outcome string :=
  match args with
  | [PString hash] => Ok hash
  | [_] => Err ErrInvalidHash
  | _ => Err "invalid input arguments"
  end.
(** A panic while copying the arguments is turned into an error. *)
Definition NewDenomsRequest (args : list abi_arg) : outcome PageRequest :=
  match args with
  | [PPage p] => Ok p
  | [_] => Err "error while unpacking args to PageRequest"
  | _ => Err ErrInvalidNumberOfArgs
  end.
Definition NewDenomHashRequest (args : list abi_arg) : outcome string :=
  match args with
  | [PString trace] => Ok trace
  | [_] => Err "invalid trace"
  | _ => Err "invalid input arguments"
  end.
Definition CheckOriginAndSender (contract : Contract) (origin sender : addr) : outcome addr :=
  if String.eqb (ct_Caller contract) sender then Ok sender
  else if negb (String.eqb origin sender) then Err "origin address is not the same as sender address"
  else Ok sender.

(** ** tx.go *)

Definition validateV1TransferChannel (msg : MsgTransfer) (w : W) : outcome unit :=
  odo owrap "msg invalid" (MsgTransfer_ValidateBasic msg);
  match ck_GetChannel w (tr_SourcePort msg) (tr_SourceChannel msg) with
  | None => Err ErrChannelNotFound
  | Some channel =>
    odo owrap "channel invalid" (Channel_ValidateBasic channel);
    odo oguard (bool_decide (ch_State channel = CH_OPEN)) ErrInvalidChannelState;
    match ch_ConnectionHops channel with
    | [] => Panic "index out of range"
    | hop :: _ =>
      olet connection <- owrap "connection not found for channel" (ck_GetConnection w hop);
      oguard (bool_decide (connection = CO_OPEN)) ErrInvalidConnectionState
    end
  end.

(** The pair a denomination or a contract's address names, when it is enabled. *)
Definition enabled_pair (denom : string) (s : Erc20Store) : option TokenPair :=
  let pairID := GetTokenPairID denom s in
  if no_id pairID then None else
  let tp := default zero_pair (GetTokenPair pairID s) in
  if tp_Enabled tp then Some tp else None.
Definition with_denom (msg : MsgTransfer) (denom : string) : MsgTransfer :=
  MkMsgTransfer (tr_SourcePort msg) (tr_SourceChannel msg) (MkCoin denom (Amount (tr_Token msg))) (tr_Sender msg) (tr_Receiver msg)
    (tr_TimeoutHeight msg) (tr_TimeoutTimestamp msg) (tr_Memo msg).

(** Returns the sequence and the message, whose denomination it may change. *)
Definition transferWithStateDB (msg : MsgTransfer) : MW (Z * MsgTransfer) :=
  let regular m := let! seq <- tk_Transfer m; mret (seq, m) in
  let denom := TrimPrefix (Denom (tr_Token msg)) Erc20NativeCoinDenomPrefix in
  let! found <- mreads (fun w => enabled_pair denom (w_store w));
  match found with
  | None => regular msg
  | Some tp =>
    let! sender <- mlift (must (AccAddressFromBech32 (tr_Sender msg)));
    let! enabled <- mreads (fun w => p_EnableErc20 (GetParams (w_store w)));
    if negb enabled then regular msg else
    let msg := with_denom msg (tp_Denom tp) in
    if negb (IsNativeERC20 tp) then regular msg else
    let! balance <- mreads (fun w => bk_SpendableCoin (w_bank w) sender (tp_Denom tp));
    if Amount (tr_Token msg) <=? balance then regular msg else
    let! difference <- mlift (Int_Sub (Amount (tr_Token msg)) balance);
    do! ConvertERC20IntoCoinsForNativeToken (GetERC20Contract tp) difference sender (BytesToAddress sender) true true;
    regular msg
  end.

Definition EmitIBCTransferEvent (sender : addr) (msg : MsgTransfer) : MLW unit :=
  AddLog (EvIBCTransfer sender (tr_Receiver msg) (tr_SourcePort msg) (tr_SourceChannel msg) (Denom (tr_Token msg))
            (Amount (tr_Token msg)) (tr_Memo msg)).

(** [inCallback]: the context is marked as that of a source callback. *)
Definition Transfer (inCallback : bool) (caller : addr) (args : list abi_arg) : MLW Ics20Out :=
  do! mguard (negb inCallback) ErrNestedSourceCallbackTransfer;
  let! m <- mlift (NewMsgTransfer args);
  do! (if IsChannelIDFormat (tr_SourceChannel m.1) then read_world (validateV1TransferChannel m.1)
       else mlift (oreplace ErrInvalidChannel (ClientIdentifierValidator (tr_SourceChannel m.1))));
  do! check_sender caller m.2;
  let! res <- in_world (transferWithStateDB m.1);
  do! EmitIBCTransferEvent m.2 res.2;
  mret (IOSequence res.1).

(** ** query.go *)

Definition ics20_Denom (args : list abi_arg) : MLW Ics20Out :=
  let! req <- mlift (NewDenomRequest args);
  read_world (fun w =>
    match tk_Denom w req with
    | Ok d => Ok (IODenom d)
    | Err e => if strings_Contains e ErrDenomNotFound then Ok (IODenom (MkIbcDenom EmptyString [])) else Err e
    | Panic e => Panic e
    end).
Definition ics20_Denoms (args : list abi_arg) : MLW Ics20Out :=
  let! req <- mlift (NewDenomsRequest args);
  let! res <- read_world (fun w => tk_Denoms w req);
  mret (IODenoms res.1 res.2).
Definition ics20_DenomHash (args : list abi_arg) : MLW Ics20Out :=
  let! req <- mlift (NewDenomHashRequest args);
  read_world (fun w =>
    match tk_DenomHash w req with
    | Ok h => Ok (IOHash h)
    | Err e => if strings_Contains e ErrDenomNotFound then Ok (IOHash EmptyString) else Err e
    | Panic e => Panic e
    end).

(** ** ics20.go *)

Definition ics20_IsTransaction (method : string) : bool := String.eqb method "transfer".
Definition ics20_HandleMethod (inCallback : bool) (caller : addr) (method : string) (args : list abi_arg) : MLW Ics20Out :=
  if String.eqb method "transfer" then Transfer inCallback caller args
  else if String.eqb method "denom" then ics20_Denom args
  else if String.eqb method "denoms" then ics20_Denoms args
  else if String.eqb method "denomHash" then ics20_DenomHash args
  else mfail ErrUnknownMethod.

Context (api : ABI (list abi_arg)) (m_Name : Method api -> string).

Definition ics20_RequiredGas (c : GasConfig) (input : bytes) : Z :=
  if len input <? 4 then 0 else
  match MethodById api (String.substring 0 4 input) with Ok m => RequiredGas c input (ics20_IsTransaction (m_Name m)) | _ => 0 end.

Definition ics20_Execute (inCallback : bool) (contract : Contract) (readOnly : bool) : MLW Ics20Out :=
  let! call <- mlift (SetupABI api (ct_Input contract) (ct_Value contract) readOnly (fun m => ics20_IsTransaction (m_Name m)));
  ics20_HandleMethod inCallback (ct_Caller contract) (m_Name call.1) (default [] call.2).
End ics20.
