(* ===== verification/BankPrecompile.v ===== *)
(** * precompiles/bank and precompiles/bech32

    bank.go, query.go and types.go of src/precompiles/bank on the world of
    x/erc20, with the gas charged for every coin after the first; bech32.go and
    methods.go of src/precompiles/bech32. *)

From Stdlib Require Import ZArith Lia List String Ascii Bool.
From stdpp Require Import base gmap strings list.
From S2P Require Import Prelude GoStrings Sdk AccessList StateDB Precompile Erc20Types Erc20Keeper Erc20Convert Erc20Precompile PrecompileMsgs.
Local Open Scope Z_scope.
Local Open Scope go_scope.

(** ** bank *)

(** The bank's iterators, as the coins they visit in order. *)
Class BankIter (B : Type) := {
  bk_AccountBalances : B -> addr -> list Coin;
  bk_TotalSupply : B -> list Coin;
}.

Definition GasBalances : Z := 2851.
Definition GasTotalSupply : Z := 2477.
Definition GasSupplyOf : Z := 2477.
Record Balance := MkBalance { bl_ContractAddress : addr; bl_Amount : Z }.
Inductive BankOut := BOBalances (l : list Balance) | BOSupply (z : Z).

Definition ParseBalancesArgs (args : list abi_arg) : outcome addr :=
  match args with [PAddress account] => Ok account | [_] => Err ErrInvalidType | _ => Err ErrInvalidNumberOfArgs end.
Definition ParseSupplyOfArgs (args : list abi_arg) : outcome addr :=
  match args with [PAddress erc20Address] => Ok erc20Address | [_] => Err ErrInvalidType | _ => Err ErrInvalidNumberOfArgs end.

Section bank.
Context {Ty : SdkTypes} {Eth : EthCommon} {Ibc : IbcLibs}.
Context {B E G : Type} {Bo : BankOps B} {Bi : BankIter B} {Go : GasOps G}.
Abbreviation W := (World B E G).
Abbreviation MW := (M (World B E G)).

(** The callback of the iterators: [i] coins were visited, [acc] is the list
    built so far. A denomination without a contract is left out. *)
Fixpoint visit_coins (gas : Z) (i : nat) (acc : list Balance) (coins : list Coin) : MW (list Balance) :=
  match coins with
  | [] => mret acc
  | coin :: l =>
    do! (if (0 <? i)%nat then on_gas (gas_Consume gas) else mret tt);
    let! address <- mreads (fun w => GetCoinAddress (Denom coin) (w_store w));
    match address with
    | Ok contractAddress => visit_coins gas (S i) (acc ++ [MkBalance contractAddress (Amount coin)]) l
    | Err _ => visit_coins gas (S i) acc l
    | Panic e => mlift (Panic e)
    end
  end.
Definition Balances (args : list abi_arg) : MW BankOut :=
  let! account <- mlift (owrap "error calling account balances in bank precompile" (ParseBalancesArgs args));
  let! coins <- mreads (fun w => bk_AccountBalances (w_bank w) account);
  let! balances <- visit_coins GasBalances 0 [] coins;
  mret (BOBalances balances).
Definition TotalSupply : MW BankOut :=
  let! coins <- mreads (fun w => bk_TotalSupply (w_bank w));
  let! totalSupply <- visit_coins GasTotalSupply 0 [] coins;
  mret (BOBalances totalSupply).
Definition SupplyOf (args : list abi_arg) : MW BankOut :=
  let! erc20ContractAddress <- mlift (owrap "error getting the supply in bank precompile" (ParseSupplyOfArgs args));
  let! tokenPair <- mreads (fun w => GetTokenPair (GetERC20Map erc20ContractAddress (w_store w)) (w_store w));
  match tokenPair with
  | None => mret (BOSupply 0)
  | Some tp => let! supply <- mreads (fun w => GetSupply (w_bank w) (tp_Denom tp)); mret (BOSupply supply)
  end.

Context (api : ABI (list abi_arg)) (m_Name : Method api -> string).

Definition bank_method_gas (method : string) : Z :=
  if String.eqb method "balances" then GasBalances
  else if String.eqb method "totalSupply" then GasTotalSupply
  else if String.eqb method "supplyOf" then GasSupplyOf
  else 0.
Definition bank_RequiredGas (input : bytes) : Z :=
  if len input <? 4 then 0 else
  match MethodById api (String.substring 0 4 input) with Ok m => bank_method_gas (m_Name m) | _ => 0 end.
Definition bank_IsTransaction (m : Method api) : bool := false.
Definition bank_HandleMethod (method : string) (args : list abi_arg) : MW BankOut :=
  if String.eqb method "balances" then Balances args
  else if String.eqb method "totalSupply" then TotalSupply
  else if String.eqb method "supplyOf" then SupplyOf args
  else mfail ErrUnknownMethod.
Definition bank_Execute (contract : Contract) (readOnly : bool) : MW BankOut :=
  let! call <- mlift (SetupABI api (ct_Input contract) (ct_Value contract) readOnly bank_IsTransaction);
  bank_HandleMethod (m_Name call.1) (default [] call.2).
End bank.

(** ** bech32 *)

(** [sdk.Bech32ifyAddressBytes], [sdk.GetFromBech32] and
    [sdk.VerifyAddressFormat]. *)
Class Bech32 := {
  b32_encode : string -> bytes -> outcome string;
  GetFromBech32 : string -> string -> outcome bytes;
  VerifyAddressFormat : bytes -> outcome unit;
}.

(** [strings.SplitN(s, "1", 2)[0]] *)
Fixpoint before_one (s : string) : string :=
  match s with
  | EmptyString => EmptyString
  | String c s' => if ord c =? 49 then EmptyString else String c (before_one s')
  end.

Inductive Bech32Out := XOString (s : string) | XOAddress (a : addr) | XONone.

Section bech32.
Context {Be : Bech32}.

Definition HexToBech32 (args : list abi_arg) : outcome Bech32Out :=
  match args with
  | [a0; a1] =>
    olet address <- match a0 with PAddress a => Ok a | _ => Err "invalid hex address" end;
    let prefix := arg_string_or_empty a1 in
    odo oguard (negb (String.eqb (TrimSpace prefix) EmptyString)) "invalid bech32 human readable prefix (HRP)";
    odo VerifyAddressFormat address;
    olet bech32Str <- b32_encode prefix address;
    Ok (XOString bech32Str)
  | _ => Err ErrInvalidNumberOfArgs
  end.
Definition Bech32ToHex (args : list abi_arg) : outcome Bech32Out :=
  match args with
  | [a0] =>
    olet address <- match a0 with
      | PString s => if String.eqb s EmptyString then Err "invalid bech32 address" else Ok s
      | _ => Err "invalid bech32 address"
      end;
    let bech32Prefix := before_one address in
    odo oguard (negb (String.eqb bech32Prefix address)) "invalid bech32 address";
    olet addressBz <- GetFromBech32 address bech32Prefix;
    odo VerifyAddressFormat addressBz;
    Ok (XOAddress (BytesToAddress addressBz))
  | _ => Err ErrInvalidNumberOfArgs
  end.

Context (api : ABI (list abi_arg)) (m_Name : Method api -> string).

Definition NewBech32Precompile (baseGas : Z) : outcome Z := odo oguard (negb (baseGas =? 0)) "baseGas cannot be zero"; Ok baseGas.
Definition bech32_RequiredGas (baseGas : Z) (input : bytes) : Z := baseGas.
(** A method of another name returns no bytes. *)
Definition bech32_Run (contract : Contract) : outcome Bech32Out :=
  if len (ct_Input contract) <? 4 then Err ErrExecutionReverted else
  olet method <- MethodById api (String.substring 0 4 (ct_Input contract));
  olet args <- Unpack api method (String.substring 4 (String.length (ct_Input contract) - 4) (ct_Input contract));
  if String.eqb (m_Name method) "hexToBech32" then HexToBech32 args
  else if String.eqb (m_Name method) "bech32ToHex" then Bech32ToHex args
  else Ok XONone.
End bech32.
