(* ===== verification/PrecompileMsgFacts.v ===== *)
(** * The precompiles of the SDK modules: facts

    The base64 round trip; what a completed call did to the chain, as steps of
    the modules that act for the caller; and that calls which are not
    transactions change nothing. *)

From Stdlib Require Import ZArith Lia List String Ascii Bool.
From stdpp Require Import base gmap strings list relations.
From S2P Require Import Prelude GoStrings Sdk AccessList StateDB Precompile Erc20Precompile PrecompileMsgs StakingPrecompile DistributionPrecompile GovPrecompile SlashingPrecompile.
Local Open Scope Z_scope.
Local Open Scope go_scope.

(** ** base64 *)

Lemma base64_char_value n : 0 <= n < 64 -> base64_value (base64_char n) = Some n /\ (ord (base64_char n) =? 10) || (ord (base64_char n) =? 13) = false.
Proof.
  intros Hn. assert (H : forallb (fun k => bool_decide (base64_value (base64_char k) = Some k) &&
    negb ((ord (base64_char k) =? 10) || (ord (base64_char k) =? 13))) (map Z.of_nat (seq 0 64)) = true) by (vm_compute; reflexivity).
  rewrite forallb_forall in H. specialize (H n). rewrite andb_true_iff, bool_decide_eq_true, negb_true_iff in H. apply H.
  apply in_map_iff. exists (Z.to_nat n). split; [lia|]. apply in_seq. lia.
Qed.

Definition no_break (c : ascii) : bool := negb ((ord c =? 10) || (ord c =? 13)).
Lemma no_break_char n : 0 <= n < 64 -> no_break (base64_char n) = true.
Proof. intros Hn. unfold no_break. by rewrite (proj2 (base64_char_value n Hn)). Qed.

(** Three bytes as four digits and back. *)
Lemma digits_back a b c : 0 <= a < 256 -> 0 <= b < 256 -> 0 <= c < 256 ->
  let y := a mod 4 * 16 + b / 16 in let z := b mod 16 * 4 + c / 64 in
  0 <= a / 4 < 64 /\ 0 <= y < 64 /\ 0 <= z < 64 /\ 0 <= c mod 64 < 64 /\
  a / 4 * 4 + y / 16 = a /\ y mod 16 * 16 + z / 4 = b /\ z mod 4 * 64 + c mod 64 = c.
Proof. intros Ha Hb Hc y z. subst y z. Z.to_euclidean_division_equations. lia. Qed.

Lemma filter_all {A} (p : A -> bool) (l : list A) : forallb p l = true -> List.filter p l = l.
Proof. induction l as [|x l IH]; cbn; [done|]. intros [-> H]%andb_true_iff. by rewrite IH. Qed.

Lemma base64_groups_chars l : forallb no_break (base64_chars l) = true /\ base64_groups (base64_chars l) = Some l.
Proof.
  induction l as [l IH] using (induction_ltof1 _ (@List.length ascii)). unfold ltof in IH.
  destruct l as [|a [|b [|c l]]]; [done|..].
  - pose proof (ord_range a). destruct (digits_back (ord a) 0 0) as (H1 & H2 & _ & _ & H4 & _); [lia..|].
    change (0 / 16) with 0 in *. rewrite Z.add_0_r in *.
    cbn [base64_chars forallb base64_groups]. rewrite !no_break_char by lia. split; [done|].
    rewrite (proj1 (base64_char_value _ H1)), (proj1 (base64_char_value _ H2)), H4, chr_ord. done.
  - pose proof (ord_range a). pose proof (ord_range b). destruct (digits_back (ord a) (ord b) 0) as (H1 & H2 & H3 & _ & H4 & H5 & _); [lia..|].
    change (0 / 64) with 0 in *. rewrite Z.add_0_r in *.
    cbn [base64_chars forallb base64_groups]. rewrite !no_break_char by lia. split; [done|].
    rewrite (proj1 (base64_char_value _ H1)), (proj1 (base64_char_value _ H2)), (proj1 (base64_char_value _ H3)), H4, H5, !chr_ord. done.
  - pose proof (ord_range a). pose proof (ord_range b). pose proof (ord_range c).
    destruct (digits_back (ord a) (ord b) (ord c)) as (H4 & H5 & H6 & H7 & H8 & H9 & H10); [lia..|].
    destruct (IH l) as [I1 I2]; [cbn; lia|].
    cbn [base64_chars forallb base64_groups]. rewrite !no_break_char by lia. rewrite I1. split; [done|].
    rewrite (proj1 (base64_char_value _ H4)), (proj1 (base64_char_value _ H5)), (proj1 (base64_char_value _ H6)), (proj1 (base64_char_value _ H7)).
    by rewrite I2, H8, H9, H10, !chr_ord.
Qed.

Lemma base64_roundtrip b : base64_DecodeString (base64_EncodeToString b) = Ok b.
Proof.
  unfold base64_DecodeString, base64_EncodeToString. rewrite to_of_list. destruct (base64_groups_chars (to_list b)) as [H1 H2].
  change (fun c : ascii => negb ((ord c =? 10) || (ord c =? 13))) with no_break. rewrite filter_all by done. by rewrite H2, of_to_list.
Qed.

(** ** The state of a call *)

Section state.
Context {W : Type}.
Implicit Types s : LState W.

Lemma in_world_Ok {A} (m : M W A) s a s' : in_world m s = (Ok a, s') <-> exists w, m (ls_world s) = (Ok a, w) /\ s' = MkLState w (ls_logs s).
Proof.
  unfold in_world. destruct (m (ls_world s)) as [r w]. split; [intros [= -> <-]; eauto|intros (w' & [= -> ->] & ->); done].
Qed.
Lemma read_world_Ok {A} (f : W -> outcome A) s a s' : read_world f s = (Ok a, s') <-> f (ls_world s) = Ok a /\ s' = s.
Proof. unfold read_world. split; [by intros [= -> <-]|by intros [-> ->]]. Qed.
Lemma AddLog_Ok e s u s' : AddLog e s = (Ok u, s') <-> s' = MkLState (ls_world s) (ls_logs s ++ [e]).
Proof. unfold AddLog. by rewrite mmodify_Ok. Qed.
Lemma check_sender_Ok caller who s u s' : check_sender caller who s = (Ok u, s') <-> who = caller /\ s' = s.
Proof. unfold check_sender. rewrite mguard_Ok, String.eqb_eq. naive_solver. Qed.

(** Computations that only log. *)
Definition keeps_world {A} (m : M (LState W) A) : Prop := mrel (fun s s' => ls_world s' = ls_world s) m.
#[local] Instance same_world_preorder : PreOrder (fun s s' : LState W => ls_world s' = ls_world s).
Proof. split; [done|]. intros s1 s2 s3 H1 H2. congruence. Qed.

Lemma keeps_bind {A C} (m : M (LState W) A) (f : A -> M (LState W) C) : keeps_world m -> (forall a, keeps_world (f a)) -> keeps_world (mbind' m f).
Proof. apply mrel_bind; apply _. Qed.
Lemma keeps_lift {A} (o : outcome A) : keeps_world (mlift o).
Proof. by intros s. Qed.
Lemma keeps_ret {A} (a : A) : keeps_world (mret a).
Proof. by intros s. Qed.
Lemma keeps_fail {A} e : keeps_world (@mfail _ A e).
Proof. by intros s. Qed.
Lemma keeps_read {A} (f : W -> outcome A) : keeps_world (read_world f).
Proof. by intros s. Qed.
Lemma keeps_log e : keeps_world (AddLog e).
Proof. by intros s. Qed.
Lemma keeps_Ok {A} (m : M (LState W) A) s r s' : keeps_world m -> m s = (r, s') -> ls_world s' = ls_world s.
Proof. intros Hm H. specialize (Hm s). by rewrite H in Hm. Qed.

(** Computations that change nothing at all. *)
Definition reads_only {A} (m : M (LState W) A) : Prop := mrel eq m.
Lemma reads_bind {A C} (m : M (LState W) A) (f : A -> M (LState W) C) : reads_only m -> (forall a, reads_only (f a)) -> reads_only (mbind' m f).
Proof. apply mrel_bind; apply _. Qed.
Lemma reads_lift {A} (o : outcome A) : reads_only (mlift o).
Proof. by intros s. Qed.
Lemma reads_ret {A} (a : A) : reads_only (mret a).
Proof. by intros s. Qed.
Lemma reads_fail {A} e : reads_only (@mfail _ A e).
Proof. by intros s. Qed.
Lemma reads_read {A} (f : W -> outcome A) : reads_only (read_world f).
Proof. by intros s. Qed.
End state.

Create HintDb precompile discriminated.
#[export] Hint Resolve keeps_lift keeps_ret keeps_fail keeps_read keeps_log reads_lift reads_ret reads_fail reads_read : precompile.

(** Walks through a computation built of reads and logs. *)
Ltac walk_tac bind :=
  repeat first
    [ solve [auto with precompile]
    | apply bind; [|intros ?]
    | match goal with |- _ (match ?x with _ => _ end) => destruct x end ].
Ltac keeps_tac := walk_tac keeps_bind.
Ltac reads_tac := walk_tac reads_bind.

(** Inverts the steps of a completed call; [minv] does the rest. *)
Ltac pinv_step :=
  match goal with
  | H : in_world _ _ = (Ok _, _) |- _ => apply in_world_Ok in H as (? & H & ?)
  | H : read_world _ _ = (Ok _, _) |- _ => apply read_world_Ok in H as [H ?]
  | H : AddLog _ _ = (Ok _, _) |- _ => apply AddLog_Ok in H
  | H : check_sender _ _ _ = (Ok _, _) |- _ => apply check_sender_Ok in H as [? ?]
  end.
Ltac pinv := repeat first [progress minv | pinv_step; try subst].

(** Reads the guards of a completed transaction [H] up to the call of the
    server; the facts are handed to [note]. *)
Ltac tx_step H note :=
  let F := fresh "F" in
  apply mbind_Ok in H; destruct H as (? & ? & F & H);
  lazymatch type of F with
  | read_world _ _ = _ => apply read_world_Ok in F as [F ->]
  | check_sender _ _ _ = _ => apply check_sender_Ok in F as [F ->]
  | mguard _ _ _ = _ => apply mguard_Ok in F as [F ->]
  | mlift _ _ = _ => apply mlift_Ok in F as [F ->]
  | _ => note F
  end.
Ltac tx_inv H note :=
  repeat lazymatch type of H with
  | mbind' (in_world _) _ _ = _ => fail
  | mbind' _ _ _ = _ => tx_step H note
  end.
Ltac no_note F := fail.

(** A transaction ends with one call of a message server and a log. *)
Lemma served {W A B} (m : M W A) (k : A -> M (LState W) B) s b s' : (forall a, keeps_world (k a)) ->
  mbind' (in_world m) k s = (Ok b, s') -> exists a, m (ls_world s) = (Ok a, ls_world s').
Proof.
  intros Hk (a & s1 & Hm & H)%mbind_Ok. apply in_world_Ok in Hm as (w & Hm & ->). exists a. rewrite Hm.
  by rewrite (keeps_Ok _ _ _ _ (Hk a) H).
Qed.

(** A read-only call never dispatches a transaction. *)
Lemma SetupABI_readonly {Args} (api : ABI Args) input value f m a : SetupABI api input value true f = Ok (m, a) -> f m = false.
Proof.
  unfold SetupABI. intros (m' & _ & H)%obind_Ok. apply obind_Ok in H as ([] & Hg & H). apply oguard_Ok, negb_true_iff in Hg. cbn in Hg.
  destruct (m_Type api m'); [by simplify_eq..|]. destruct (len input <? 4); [done|].
  apply obind_Ok in H as (x & _ & H). by simplify_eq.
Qed.

(** The dispatch of a precompile on a read-only call. *)
Lemma execute_readonly {W A} (api : ABI (list abi_arg)) (m_Name : Method api -> string) (isTx : string -> bool) (h : string -> list abi_arg -> M (LState W) A) input value :
  (forall method args, isTx method = false -> reads_only (h method args)) ->
  reads_only (let! call <- mlift (SetupABI api input value true (fun m => isTx (m_Name m))); h (m_Name call.1) (default [] call.2)).
Proof.
  intros Hh s. unfold mbind', mlift.
  destruct (SetupABI api input value true _) as [[m a]|e|e] eqn:Hs; [|done..]. apply Hh. exact (SetupABI_readonly _ _ _ _ _ _ Hs).
Qed.

Ltac no_method :=
  match goal with
  | H : existsb _ _ = false |- reads_only (if String.eqb ?m ?x then _ else _) =>
    destruct (String.eqb m x) eqn:?; [cbn [existsb] in H; rewrite ?orb_false_iff in H; destruct_and?; congruence|]
  | H : String.eqb ?m ?x = false |- reads_only (if String.eqb ?m ?x then _ else _) => rewrite H
  end.

(** One goal for each method that is a transaction. *)
Ltac tx_method Htx :=
  apply existsb_exists in Htx as (? & Htx & ->%String.eqb_eq); cbn [In] in Htx; repeat destruct Htx as [<-|Htx]; [..|destruct Htx].

Lemma arg_address_Ok e v a : arg_address e v = Ok a -> v = PAddress a.
Proof. destruct v; cbn; try done. destruct (String.eqb _ _); naive_solver. Qed.

(** ** x/staking *)

Section staking.
Context {Ty : SdkTypes} {Ma : SdkMath} {Et : EthCommon} {Ac : AddrCodecs} {W : Type} {Sm : StakingModule W}.

(** A step of x/staking for the account [caller]. *)
Inductive staking_step (caller : addr) (w w' : W) : Prop :=
  | step_CreateValidator m : has_contract_code w caller = false -> cv_ValidatorAddress m = ValAddress_String caller ->
      addrCdc_BytesToString caller = Ok (cv_DelegatorAddress m) -> sv_CreateValidator m w = (Ok tt, w') -> staking_step caller w w'
  | step_EditValidator m : has_contract_code w caller = false -> ev_ValidatorAddress m = ValAddress_String caller ->
      sv_EditValidator m w = (Ok tt, w') -> staking_step caller w w'
  | step_Delegate m : addrCdc_BytesToString caller = Ok (md_DelegatorAddress m) -> sv_Delegate m w = (Ok tt, w') -> staking_step caller w w'
  | step_Undelegate m t : addrCdc_BytesToString caller = Ok (md_DelegatorAddress m) -> sv_Undelegate m w = (Ok t, w') -> staking_step caller w w'
  | step_BeginRedelegate m t : addrCdc_BytesToString caller = Ok (br_DelegatorAddress m) -> sv_BeginRedelegate m w = (Ok t, w') ->
      staking_step caller w w'
  | step_CancelUnbonding m : addrCdc_BytesToString caller = Ok (cu_DelegatorAddress m) -> sv_CancelUnbondingDelegation m w = (Ok tt, w') ->
      staking_step caller w w'.

Lemma no_contract_Ok caller (s : LState W) u s' : no_contract caller s = (Ok u, s') <-> has_contract_code (ls_world s) caller = false /\ s' = s.
Proof. unfold no_contract. by rewrite mguard_Ok, negb_true_iff. Qed.

Lemma NewMsgCreateValidator_signer args denom m : NewMsgCreateValidator args denom = Ok m ->
  cv_ValidatorAddress m.1 = ValAddress_String m.2 /\ addrCdc_BytesToString m.2 = Ok (cv_DelegatorAddress m.1).
Proof.
  unfold NewMsgCreateValidator, delegator_string. destruct args as [|a0 [|a1 [|a2 [|a3 [|a4 [|a5 [|]]]]]]]; try done. intros H. by minv.
Qed.
Lemma NewMsgEditValidator_signer args m : NewMsgEditValidator args = Ok m -> ev_ValidatorAddress m.1 = ValAddress_String m.2.
Proof. unfold NewMsgEditValidator. destruct args as [|a0 [|a1 [|a2 [|a3 [|]]]]]; try done. intros H. by minv. Qed.
Lemma NewMsgDelegate_signer args denom m : NewMsgDelegate args denom = Ok m -> addrCdc_BytesToString m.2 = Ok (md_DelegatorAddress m.1).
Proof. unfold NewMsgDelegate, delegator_string. intros H. apply obind_Ok in H as ([[a v] z] & _ & H). by minv. Qed.
Lemma NewMsgUndelegate_signer args denom m : NewMsgUndelegate args denom = Ok m -> addrCdc_BytesToString m.2 = Ok (md_DelegatorAddress m.1).
Proof. unfold NewMsgUndelegate, delegator_string. intros H. apply obind_Ok in H as ([[a v] z] & _ & H). by minv. Qed.
Lemma NewMsgRedelegate_signer args denom m : NewMsgRedelegate args denom = Ok m -> addrCdc_BytesToString m.2 = Ok (br_DelegatorAddress m.1).
Proof. unfold NewMsgRedelegate, delegator_string. destruct args as [|a0 [|a1 [|a2 [|a3 [|]]]]]; try done. intros H. by minv. Qed.
Lemma NewMsgCancel_signer args denom m : NewMsgCancelUnbondingDelegation args denom = Ok m -> addrCdc_BytesToString m.2 = Ok (cu_DelegatorAddress m.1).
Proof. unfold NewMsgCancelUnbondingDelegation, delegator_string. destruct args as [|a0 [|a1 [|a2 [|a3 [|]]]]]; try done. intros H. by minv. Qed.

Lemma staking_queries_read method args : staking_IsTransaction method = false -> forall caller, reads_only (staking_HandleMethod caller method args).
Proof.
  unfold staking_IsTransaction, staking_HandleMethod. intros H caller. repeat no_method.
  repeat match goal with |- reads_only (if ?b then _ else _) => destruct b end;
    unfold Delegation, UnbondingDelegation, Validator_query, Validators, Redelegation_query, Redelegations; reads_tac.
Qed.

Ltac staking_note F := apply no_contract_Ok in F as [F ->].

Lemma CreateValidator_acts caller args (s : LState W) out s' : CreateValidator caller args s = (Ok out, s') -> staking_step caller (ls_world s) (ls_world s').
Proof.
  intros H. unfold CreateValidator in H. tx_inv H staking_note. apply served in H as [[] H]; [|intros; unfold EmitCreateValidatorEvent; keeps_tac]. subst.
  apply NewMsgCreateValidator_signer in F0 as [? ?]. eapply step_CreateValidator; eauto.
Qed.
Lemma EditValidator_acts caller args (s : LState W) out s' : EditValidator caller args s = (Ok out, s') -> staking_step caller (ls_world s) (ls_world s').
Proof.
  intros H. unfold EditValidator in H. tx_inv H staking_note. apply served in H as [[] H]; [|intros; unfold EmitEditValidatorEvent; keeps_tac]. subst.
  apply NewMsgEditValidator_signer in F. eapply step_EditValidator; eauto.
Qed.
Lemma Delegate_acts caller args (s : LState W) out s' : Delegate caller args s = (Ok out, s') -> staking_step caller (ls_world s) (ls_world s').
Proof.
  intros H. unfold Delegate in H. tx_inv H staking_note. apply served in H as [[] H]; [|intros; unfold EmitDelegateEvent; keeps_tac]. subst.
  apply NewMsgDelegate_signer in F0. eapply step_Delegate; eauto.
Qed.
Lemma Undelegate_acts caller args (s : LState W) out s' : Undelegate caller args s = (Ok out, s') -> staking_step caller (ls_world s) (ls_world s').
Proof.
  intros H. unfold Undelegate in H. tx_inv H staking_note. apply served in H as [t H]; [|intros; unfold EmitUnbondEvent; keeps_tac]. subst.
  apply NewMsgUndelegate_signer in F0. eapply step_Undelegate; eauto.
Qed.
Lemma Redelegate_acts caller args (s : LState W) out s' : Redelegate caller args s = (Ok out, s') -> staking_step caller (ls_world s) (ls_world s').
Proof.
  intros H. unfold Redelegate in H. tx_inv H staking_note. apply served in H as [t H]; [|intros; unfold EmitRedelegateEvent; keeps_tac]. subst.
  apply NewMsgRedelegate_signer in F0. eapply step_BeginRedelegate; eauto.
Qed.
Lemma CancelUnbondingDelegation_acts caller args (s : LState W) out s' : CancelUnbondingDelegation caller args s = (Ok out, s') -> staking_step caller (ls_world s) (ls_world s').
Proof.
  intros H. unfold CancelUnbondingDelegation in H. tx_inv H staking_note. apply served in H as [[] H]; [|intros; unfold EmitCancelUnbondingDelegationEvent; keeps_tac]. subst.
  apply NewMsgCancel_signer in F0. eapply step_CancelUnbonding; eauto.
Qed.

Lemma staking_acts caller method args (s : LState W) out s' : staking_HandleMethod caller method args s = (Ok out, s') ->
  rtc (staking_step caller) (ls_world s) (ls_world s').
Proof.
  destruct (staking_IsTransaction method) eqn:Htx; intros H.
  - apply rtc_once. tx_method Htx;
      [eapply CreateValidator_acts|eapply EditValidator_acts|eapply Delegate_acts|eapply Undelegate_acts|eapply Redelegate_acts|eapply CancelUnbondingDelegation_acts]; exact H.
  - pose proof (staking_queries_read method args Htx caller s) as Hr. rewrite H in Hr. cbn in Hr. by subst.
Qed.
End staking.

(** ** x/distribution *)

Section distribution.
Context {Ty : SdkTypes} {Ma : SdkMath} {Et : EthCommon} {Ac : AddrCodecs} {Co : SdkCoins}.
Context {W : Type} {Sm : StakingModule W} {Dm : DistributionModule W}.

(** A step of x/distribution for the account [caller]. *)
Inductive distribution_step (caller : addr) (w w' : W) : Prop :=
  | step_Claim v coins : dk_WithdrawDelegationRewards caller v w = (Ok coins, w') -> distribution_step caller w w'
  | step_SetWithdrawAddress m : addrCdc_BytesToString caller = Ok (sw_DelegatorAddress m) -> sv_SetWithdrawAddress m w = (Ok tt, w') ->
      distribution_step caller w w'
  | step_WithdrawReward m coins : addrCdc_BytesToString caller = Ok (wr_DelegatorAddress m) -> sv_WithdrawDelegatorReward m w = (Ok coins, w') ->
      distribution_step caller w w'
  | step_WithdrawCommission m coins : HexAddressFromBech32String (wc_ValidatorAddress m) = Ok caller ->
      sv_WithdrawValidatorCommission m w = (Ok coins, w') -> distribution_step caller w w'
  | step_FundCommunityPool m : addrCdc_BytesToString caller = Ok (fp_Depositor m) -> sv_FundCommunityPool m w = (Ok tt, w') ->
      distribution_step caller w w'
  | step_DepositRewardsPool m : addrCdc_BytesToString caller = Ok (dp_Depositor m) -> sv_DepositValidatorRewardsPool m w = (Ok tt, w') ->
      distribution_step caller w w'.

Lemma NewMsgSetWithdrawAddress_signer args m : NewMsgSetWithdrawAddress args = Ok m -> addrCdc_BytesToString m.2 = Ok (sw_DelegatorAddress m.1).
Proof. unfold NewMsgSetWithdrawAddress, delegator_string. destruct args as [|a0 [|a1 [|]]]; try done. intros H. by minv. Qed.
Lemma NewMsgWithdrawDelegatorReward_signer args m : NewMsgWithdrawDelegatorReward args = Ok m -> addrCdc_BytesToString m.2 = Ok (wr_DelegatorAddress m.1).
Proof. unfold NewMsgWithdrawDelegatorReward, delegator_string. destruct args as [|a0 [|a1 [|]]]; try done. intros H. by minv. Qed.
Lemma NewMsgWithdrawValidatorCommission_signer args m : NewMsgWithdrawValidatorCommission args = Ok m ->
  HexAddressFromBech32String (wc_ValidatorAddress m.1) = Ok m.2.
Proof. unfold NewMsgWithdrawValidatorCommission. destruct args as [|a0 [|]]; try done. intros H. by minv. Qed.
Lemma NewMsgFundCommunityPool_signer args m : NewMsgFundCommunityPool args = Ok m -> addrCdc_BytesToString m.2 = Ok (fp_Depositor m.1).
Proof. unfold NewMsgFundCommunityPool, depositor_string. destruct args as [|a0 [|a1 [|]]]; try done. intros H. by minv. Qed.
Lemma NewMsgDepositValidatorRewardsPool_signer args m : NewMsgDepositValidatorRewardsPool args = Ok m -> addrCdc_BytesToString m.2 = Ok (dp_Depositor m.1).
Proof. unfold NewMsgDepositValidatorRewardsPool, depositor_string. destruct args as [|a0 [|a1 [|a2 [|]]]]; try done. intros H. by minv. Qed.

Lemma fund_events_keep depositor coins : keeps_world (EmitFundCommunityPoolEvent (W := W) depositor coins).
Proof. induction coins as [|c l IH]; cbn [EmitFundCommunityPoolEvent]; keeps_tac. Qed.
Lemma deposit_events_keep depositor v coins : keeps_world (deposit_events (W := W) depositor v coins).
Proof. induction coins as [|c l IH]; cbn [deposit_events]; keeps_tac. Qed.
#[local] Hint Resolve fund_events_keep deposit_events_keep : precompile.

Lemma SetWithdrawAddress_acts caller args (s : LState W) out s' : SetWithdrawAddress caller args s = (Ok out, s') -> distribution_step caller (ls_world s) (ls_world s').
Proof.
  intros H. unfold SetWithdrawAddress in H. tx_inv H no_note. apply served in H as [[] H]; [|intros; unfold EmitSetWithdrawAddressEvent; keeps_tac]. subst.
  apply NewMsgSetWithdrawAddress_signer in F. eapply step_SetWithdrawAddress; eauto.
Qed.
Lemma WithdrawDelegatorReward_acts caller args (s : LState W) out s' : WithdrawDelegatorReward caller args s = (Ok out, s') -> distribution_step caller (ls_world s) (ls_world s').
Proof.
  intros H. unfold WithdrawDelegatorReward in H. tx_inv H no_note. apply served in H as [c H]; [|intros; unfold EmitWithdrawDelegatorRewardEvent; keeps_tac]. subst.
  apply NewMsgWithdrawDelegatorReward_signer in F. eapply step_WithdrawReward; eauto.
Qed.
Lemma WithdrawValidatorCommission_acts caller args (s : LState W) out s' : WithdrawValidatorCommission caller args s = (Ok out, s') -> distribution_step caller (ls_world s) (ls_world s').
Proof.
  intros H. unfold WithdrawValidatorCommission in H. tx_inv H no_note. apply served in H as [c H]; [|intros; unfold EmitWithdrawValidatorCommissionEvent; keeps_tac]. subst.
  apply NewMsgWithdrawValidatorCommission_signer in F. eapply step_WithdrawCommission; eauto.
Qed.
Lemma FundCommunityPool_acts caller args (s : LState W) out s' : FundCommunityPool caller args s = (Ok out, s') -> distribution_step caller (ls_world s) (ls_world s').
Proof.
  intros H. unfold FundCommunityPool in H. tx_inv H no_note. apply served in H as [[] H]; [|intros; keeps_tac]. subst.
  apply NewMsgFundCommunityPool_signer in F. eapply step_FundCommunityPool; eauto.
Qed.
Lemma DepositValidatorRewardsPool_acts caller args (s : LState W) out s' : DepositValidatorRewardsPool caller args s = (Ok out, s') -> distribution_step caller (ls_world s) (ls_world s').
Proof.
  intros H. unfold DepositValidatorRewardsPool in H. tx_inv H no_note. apply served in H as [[] H]; [|intros; unfold EmitDepositValidatorRewardsPoolEvent; keeps_tac]. subst.
  apply NewMsgDepositValidatorRewardsPool_signer in F. eapply step_DepositRewardsPool; eauto.
Qed.

Lemma claim_acts caller vs total (s : LState W) r s' : claim_from caller vs total s = (Ok r, s') -> rtc (distribution_step caller) (ls_world s) (ls_world s').
Proof.
  revert total s. induction vs as [|v vs IH]; intros total s H; cbn [claim_from] in H; [apply mret_Ok in H as [_ ->]; done|].
  tx_inv H no_note. apply mbind_Ok in H as (coins & s1 & Hw & H). apply in_world_Ok in Hw as (w1 & Hw & ->). tx_inv H no_note.
  eapply rtc_l; [eapply step_Claim; exact Hw|]. exact (IH _ _ H).
Qed.
Lemma ClaimRewards_acts caller args (s : LState W) out s' : ClaimRewards caller args s = (Ok out, s') -> rtc (distribution_step caller) (ls_world s) (ls_world s').
Proof.
  intros H. unfold ClaimRewards in H. do 5 tx_step H no_note. apply mbind_Ok in H as (total & s1 & Hc & H).
  rewrite F2 in Hc. apply claim_acts in Hc. apply keeps_Ok in H; [by rewrite H|unfold EmitClaimRewardsEvent; keeps_tac].
Qed.

Lemma distribution_queries_read method args : distribution_IsTransaction method = false -> forall caller, reads_only (distribution_HandleMethod caller method args).
Proof.
  unfold distribution_IsTransaction, distribution_HandleMethod. intros H caller. repeat no_method.
  repeat match goal with |- reads_only (if ?b then _ else _) => destruct b end;
    unfold ValidatorDistributionInfo_query, ValidatorOutstandingRewards, ValidatorCommission, ValidatorSlashes, DelegationRewards, DelegationTotalRewards,
      DelegatorValidators, DelegatorWithdrawAddress, CommunityPool; reads_tac.
Qed.
Lemma distribution_acts caller method args (s : LState W) out s' : distribution_HandleMethod caller method args s = (Ok out, s') ->
  rtc (distribution_step caller) (ls_world s) (ls_world s').
Proof.
  destruct (distribution_IsTransaction method) eqn:Htx; intros H.
  - tx_method Htx; [eapply ClaimRewards_acts; exact H|apply rtc_once..];
      [eapply SetWithdrawAddress_acts|eapply WithdrawDelegatorReward_acts|eapply WithdrawValidatorCommission_acts|eapply FundCommunityPool_acts|
       eapply DepositValidatorRewardsPool_acts]; exact H.
  - pose proof (distribution_queries_read method args Htx caller s) as Hr. rewrite H in Hr. cbn in Hr. by subst.
Qed.
End distribution.

(** ** x/gov *)

Section gov.
Context {Ty : SdkTypes} {Ma : SdkMath} {Ac : AddrCodecs} {Co : SdkCoins} {W : Type} {Gm : GovModule W}.

(** A step of x/gov for the account [caller]; proposals only when the precompile
    submits them. *)
Inductive gov_step (allowSubmit : bool) (caller : addr) (w w' : W) : Prop :=
  | step_SubmitProposal m id : allowSubmit = true -> addrCdc_BytesToString caller = Ok (sp_Proposer m) -> sv_SubmitProposal m w = (Ok id, w') ->
      gov_step allowSubmit caller w w'
  | step_GovDeposit m : addrCdc_BytesToString caller = Ok (de_Depositor m) -> sv_Deposit m w = (Ok tt, w') -> gov_step allowSubmit caller w w'
  | step_CancelProposal m : addrCdc_BytesToString caller = Ok (cp_Proposer m) -> sv_CancelProposal m w = (Ok tt, w') -> gov_step allowSubmit caller w w'
  | step_Vote m : addrCdc_BytesToString caller = Ok (vo_Voter m) -> sv_Vote m w = (Ok tt, w') -> gov_step allowSubmit caller w w'
  | step_VoteWeighted m : addrCdc_BytesToString caller = Ok (vw_Voter m) -> sv_VoteWeighted m w = (Ok tt, w') -> gov_step allowSubmit caller w w'.

Lemma NewMsgSubmitProposal_signer args m : NewMsgSubmitProposal args = Ok m -> addrCdc_BytesToString m.2 = Ok (sp_Proposer m.1).
Proof. unfold NewMsgSubmitProposal, proposer_string. destruct args as [|a0 [|a1 [|a2 [|]]]]; try done. intros H. by minv. Qed.
Lemma NewMsgDeposit_signer args m : NewMsgDeposit args = Ok m -> addrCdc_BytesToString m.2 = Ok (de_Depositor m.1).
Proof. unfold NewMsgDeposit, gov_depositor_string. destruct args as [|a0 [|a1 [|a2 [|]]]]; try done. intros H. by minv. Qed.
Lemma NewMsgCancelProposal_signer args m : NewMsgCancelProposal args = Ok m -> addrCdc_BytesToString m.2 = Ok (cp_Proposer m.1).
Proof. unfold NewMsgCancelProposal, proposer_string. destruct args as [|a0 [|a1 [|]]]; try done. intros H. by minv. Qed.
Lemma NewMsgVote_signer args m : NewMsgVote args = Ok m -> addrCdc_BytesToString m.2 = Ok (vo_Voter m.1).
Proof. unfold NewMsgVote, voter_string. destruct args as [|a0 [|a1 [|a2 [|a3 [|]]]]]; try done. intros H. by minv. Qed.
Lemma NewMsgVoteWeighted_signer args m : NewMsgVoteWeighted args = Ok m -> addrCdc_BytesToString m.1.2 = Ok (vw_Voter m.1.1).
Proof. unfold NewMsgVoteWeighted, voter_string. destruct args as [|a0 [|a1 [|a2 [|a3 [|]]]]]; try done. intros H. by minv. Qed.

Lemma SubmitProposal_acts caller args (s : LState W) out s' : SubmitProposal caller args s = (Ok out, s') -> gov_step true caller (ls_world s) (ls_world s').
Proof.
  intros H. unfold SubmitProposal in H. tx_inv H no_note. apply served in H as [id H]; [|intros; unfold EmitSubmitProposalEvent; keeps_tac]. subst.
  apply NewMsgSubmitProposal_signer in F. eapply step_SubmitProposal; eauto.
Qed.
Lemma gov_Deposit_acts allowSubmit caller args (s : LState W) out s' : gov_Deposit caller args s = (Ok out, s') ->
  gov_step allowSubmit caller (ls_world s) (ls_world s').
Proof.
  intros H. unfold gov_Deposit in H. tx_inv H no_note. apply served in H as [[] H]; [|intros; unfold EmitDepositEvent; keeps_tac]. subst.
  apply NewMsgDeposit_signer in F. eapply step_GovDeposit; eauto.
Qed.
Lemma CancelProposal_acts allowSubmit caller args (s : LState W) out s' : CancelProposal caller args s = (Ok out, s') ->
  gov_step allowSubmit caller (ls_world s) (ls_world s').
Proof.
  intros H. unfold CancelProposal in H. tx_inv H no_note. apply served in H as [[] H]; [|intros; unfold EmitCancelProposalEvent; keeps_tac]. subst.
  apply NewMsgCancelProposal_signer in F. eapply step_CancelProposal; eauto.
Qed.
Lemma Vote_acts allowSubmit caller args (s : LState W) out s' : Vote caller args s = (Ok out, s') ->
  gov_step allowSubmit caller (ls_world s) (ls_world s').
Proof.
  intros H. unfold Vote in H. tx_inv H no_note. apply served in H as [[] H]; [|intros; unfold EmitVoteEvent; keeps_tac]. subst.
  apply NewMsgVote_signer in F. eapply step_Vote; eauto.
Qed.
Lemma VoteWeighted_acts allowSubmit caller args (s : LState W) out s' : VoteWeighted caller args s = (Ok out, s') ->
  gov_step allowSubmit caller (ls_world s) (ls_world s').
Proof.
  intros H. unfold VoteWeighted in H. tx_step H no_note. destruct x as [[m who] options]. tx_inv H no_note.
  apply served in H as [[] H]; [|intros; unfold EmitVoteWeightedEvent; keeps_tac]. subst.
  apply NewMsgVoteWeighted_signer in F. eapply step_VoteWeighted; eauto.
Qed.

Lemma gov_queries_read method args : gov_IsTransaction method = false -> forall allowSubmit caller, reads_only (gov_HandleMethod allowSubmit caller method args).
Proof.
  unfold gov_IsTransaction, gov_HandleMethod. intros H allowSubmit caller. repeat no_method.
  repeat match goal with |- reads_only (if ?b then _ else _) => destruct b end;
    unfold GetVotes, GetVote, GetDeposit, GetDeposits, GetTallyResult, GetProposal, GetProposals, gov_GetParams, GetConstitution; reads_tac.
Qed.
Lemma gov_acts allowSubmit caller method args (s : LState W) out s' : gov_HandleMethod allowSubmit caller method args s = (Ok out, s') ->
  rtc (gov_step allowSubmit caller) (ls_world s) (ls_world s').
Proof.
  destruct (gov_IsTransaction method) eqn:Htx; intros H.
  - apply rtc_once. tx_method Htx; [eapply Vote_acts|eapply VoteWeighted_acts| |eapply gov_Deposit_acts|eapply CancelProposal_acts]; try exact H.
    apply mbind_Ok in H as ([] & s1 & Hg & H). apply mguard_Ok in Hg as [-> ->]. eapply SubmitProposal_acts; exact H.
  - pose proof (gov_queries_read method args Htx allowSubmit caller s) as Hr. rewrite H in Hr. cbn in Hr. by subst.
Qed.
End gov.

(** ** x/slashing *)

Section slashing.
Context {Ac : AddrCodecs} {W : Type} {Lm : SlashingModule W}.

(** A step of x/slashing for the account [caller]. *)
Definition slashing_step (caller : addr) (w w' : W) : Prop :=
  exists m, valCodec_BytesToString caller = Ok (uj_ValidatorAddr m) /\ sv_Unjail m w = (Ok tt, w').

Lemma Unjail_acts caller args (s : LState W) out s' : Unjail caller args s = (Ok out, s') -> slashing_step caller (ls_world s) (ls_world s').
Proof.
  intros H. unfold Unjail in H. tx_inv H no_note. apply served in H as [[] H]; [|intros; unfold EmitValidatorUnjailedEvent; keeps_tac]. subst.
  unfold NewMsgUnjail in F1. minv. by eexists (MkMsgUnjail _).
Qed.
Lemma slashing_queries_read method args : slashing_IsTransaction method = false -> forall caller, reads_only (slashing_HandleMethod caller method args).
Proof.
  unfold slashing_IsTransaction, slashing_HandleMethod. intros -> caller.
  repeat match goal with |- reads_only (if ?b then _ else _) => destruct b end; unfold GetSigningInfo, GetSigningInfos, slashing_GetParams; reads_tac.
Qed.
Lemma slashing_acts caller method args (s : LState W) out s' : slashing_HandleMethod caller method args s = (Ok out, s') ->
  rtc (slashing_step caller) (ls_world s) (ls_world s').
Proof.
  destruct (slashing_IsTransaction method) eqn:Htx; intros H.
  - apply String.eqb_eq in Htx as ->. apply rtc_once. eapply Unjail_acts; exact H.
  - pose proof (slashing_queries_read method args Htx caller s) as Hr. rewrite H in Hr. cbn in Hr. by subst.
Qed.
End slashing.
