(* ===== verification/PrecompileMsgTheorems.v ===== *)
(** * The precompiles of the SDK modules: theorems

    The four precompiles that pass messages to SDK modules act only for the
    account that calls them, and consensus keys survive being printed and read.
    The witnesses run on modules that record whom they served. *)

From Stdlib Require Import ZArith Lia List String Ascii Bool.
From stdpp Require Import base gmap strings list relations.
From S2P Require Import Prelude GoStrings GoJson Sdk RefEnv AccessList StateDB Precompile Erc20Precompile Erc20Theorems PrecompileMsgs StakingPrecompile DistributionPrecompile GovPrecompile SlashingPrecompile PrecompileMsgFacts.
Local Open Scope Z_scope.
Local Open Scope go_scope.

Section theorems.
Context {Ty : SdkTypes} {Ma : SdkMath} {Et : EthCommon} {Ac : AddrCodecs} {Co : SdkCoins}.
Context {W : Type} {Sm : StakingModule W} {Dm : DistributionModule W} {Gm : GovModule W} {Lm : SlashingModule W}.

(** The four precompiles, and how a call of one ends. *)
Inductive sdk_precompile := StakingP | DistributionP | GovP (allowSubmit : bool) | SlashingP.
Definition ended {S A} (r : outcome A * S) : outcome unit * S := (olet _ <- r.1; Ok tt, r.2).
Definition sdk_Execute (p : sdk_precompile) (api : ABI (list abi_arg)) (m_Name : Method api -> string) (contract : Contract) (readOnly : bool)
    (s : LState W) : outcome unit * LState W :=
  match p with
  | StakingP => ended (staking_Execute api m_Name contract readOnly s)
  | DistributionP => ended (distribution_Execute api m_Name contract readOnly s)
  | GovP allowSubmit => ended (gov_Execute api m_Name allowSubmit contract readOnly s)
  | SlashingP => ended (slashing_Execute api m_Name contract readOnly s)
  end.
Definition sdk_step (p : sdk_precompile) (caller : addr) : W -> W -> Prop :=
  match p with
  | StakingP => staking_step caller
  | DistributionP => distribution_step caller
  | GovP allowSubmit => gov_step allowSubmit caller
  | SlashingP => slashing_step caller
  end.

Lemma ended_Ok {S A} (r : outcome A * S) u s' : ended r = (Ok u, s') -> exists a, r = (Ok a, s').
Proof. unfold ended. destruct r as [[a|e|e] s]; cbn; intros [= _ <-]. eauto. Qed.
Lemma execute_Ok {A} (o : outcome A) {C} (h : A -> M (LState W) C) s out s' : mbind' (mlift o) h s = (Ok out, s') -> exists a, h a s = (Ok out, s').
Proof. intros (a & s1 & [_ ->]%mlift_Ok & H)%mbind_Ok. eauto. Qed.

(** C15: A completed call of the staking, distribution, governance or slashing
    precompile changes the chain only by steps of the module that act for the
    calling account. The delegator, depositor, proposer, voter or validator of
    every message is the caller, rewards are claimed for the caller, a validator
    is created or edited only by an account without contract code, and no
    proposal is submitted where submission is disabled. *)
Theorem precompiles_act_for_caller p api m_Name contract readOnly s s' :
  sdk_Execute p api m_Name contract readOnly s = (Ok tt, s') -> rtc (sdk_step p (ct_Caller contract)) (ls_world s) (ls_world s').
Proof.
  intros H. destruct p; cbn [sdk_Execute sdk_step] in *; apply ended_Ok in H as [out H];
    unfold staking_Execute, distribution_Execute, gov_Execute, slashing_Execute in H; apply execute_Ok in H as [call H].
  - by apply staking_acts in H.
  - by apply distribution_acts in H.
  - by apply gov_acts in H.
  - by apply slashing_acts in H.
Qed.

Lemma sdk_readonly p api m_Name contract s : (sdk_Execute p api m_Name contract true s).2 = s.
Proof.
  destruct p; symmetry; revert s; [apply (execute_readonly api m_Name staking_IsTransaction) | apply (execute_readonly api m_Name distribution_IsTransaction) |
    apply (execute_readonly api m_Name gov_IsTransaction) | apply (execute_readonly api m_Name slashing_IsTransaction)];
    auto using staking_queries_read, distribution_queries_read, gov_queries_read, slashing_queries_read.
Qed.

(** The consensus key that the staking precompile prints for a validator is
    the text with which createValidator accepts the same key: the message is
    built from it with the key, the caller's addresses and the amounts as
    given. *)
Theorem consensus_key_roundtrip d c msd v k value denom who : len k = ed25519_PubKeySize -> v <> zero_address ->
  addrCdc_BytesToString v = Ok who -> int_fits msd = true -> int_fits value = true ->
  NewMsgCreateValidator [PDescription d; PCommission c; PBig msd; PAddress v; PString (FormatConsensusPubkey (CachedKey k)); PBig value] denom =
  Ok (MkMsgCreateValidator d c msd who (ValAddress_String v) k (MkCoin denom value), v).
Proof.
  intros Hk Hv Hwho H1 H2. unfold NewMsgCreateValidator, delegator_string. cbn [arg_big arg_address arg_string obind FormatConsensusPubkey].
  rewrite (proj2 (String.eqb_neq v zero_address)) by done. cbn [obind]. rewrite base64_roundtrip. cbn [obind].
  rewrite Hk, Z.eqb_refl. cbn [oguard obind]. rewrite Hwho. cbn [owrap obind]. by rewrite !NewIntFromBigInt_spec, H1, H2.
Qed.

(** A commission that the module pays out as no coin at all makes the call
    panic, after the withdrawal. *)
Lemma empty_commission_panics caller v (s : LState W) w' :
  HexAddressFromBech32String v = Ok caller -> sv_WithdrawValidatorCommission (MkMsgWithdrawValidatorCommission v) (ls_world s) = (Ok [], w') ->
  exists e, WithdrawValidatorCommission caller [PString v] s = (Panic e, MkLState w' (ls_logs s)).
Proof.
  intros Hv Hw. eexists. unfold WithdrawValidatorCommission, NewMsgWithdrawValidatorCommission. cbn [arg_string_or_empty wc_ValidatorAddress].
  rewrite Hv. cbn [obind]. erewrite mbind_lift by reflexivity. unfold check_sender. rewrite mbind_guard by apply String.eqb_refl.
  unfold mbind', in_world at 1. cbn [fst]. by rewrite Hw.
Qed.

(** Only the first denomination of a withdrawal is logged. *)
Lemma first_denomination_logged caller v (s : LState W) c l w' :
  HexAddressFromBech32String v = Ok caller -> sv_WithdrawValidatorCommission (MkMsgWithdrawValidatorCommission v) (ls_world s) = (Ok (c :: l), w') ->
  WithdrawValidatorCommission caller [PString v] s =
  (Ok (DOCoins (NewCoinsResponse (c :: l))), MkLState w' (ls_logs s ++ [EvWithdrawValidatorCommission v (Amount c)])).
Proof.
  intros Hv Hw. unfold WithdrawValidatorCommission, NewMsgWithdrawValidatorCommission. cbn [arg_string_or_empty wc_ValidatorAddress].
  rewrite Hv. cbn [obind]. erewrite mbind_lift by reflexivity. unfold check_sender. rewrite mbind_guard by apply String.eqb_refl.
  unfold mbind', in_world at 1. cbn [fst]. by rewrite Hw.
Qed.
End theorems.

(** ** Witnesses *)

(** A chain that records the accounts it served. *)
Definition trace : Type := list string.
Definition record {A} (who : string) (a : A) : M trace A := fun w => (Ok a, w ++ [who]).
#[export] Instance trace_codecs : AddrCodecs := {|
  addrCdc_BytesToString := fun b => Ok ("x" +:+ hex_encode b)%string;
  valCodec_BytesToString := fun b => Ok ("v" +:+ hex_encode b)%string;
  consCodec_BytesToString := fun b => Ok ("c" +:+ hex_encode b)%string;
  ValAddress_String := fun b => ("v" +:+ hex_encode b)%string;
  ConsAddressFromBech32 := fun _ => Err "invalid";
  Bech32ifyAddressBytes := fun p b => Ok (p +:+ hex_encode b)%string;
  Bech32AccountAddrPrefix := "x";
|}.
#[export] Instance trace_coins : SdkCoins := {|
  Coin_Validate := fun c => oguard (0 <=? Amount c) "negative amount";
  Coins_Sort := fun l => l;
  Coins_Add := fun l l' => Ok (l ++ l');
  Coins_AmountOf := fun l d => Ok (fold_right (fun c z => if String.eqb (Denom c) d then Amount c + z else z) 0 l);
|}.
Definition trace_validator : Validator :=
  MkValidator "val" (UncachedKey EmptyString) false 3 0 0 (MkDescription EmptyString EmptyString EmptyString EmptyString EmptyString) 0 0 0 1.
#[export] Instance trace_staking : StakingModule trace := {|
  sv_CreateValidator := fun m => record (cv_DelegatorAddress m) tt;
  sv_EditValidator := fun m => record (ev_ValidatorAddress m) tt;
  sv_Delegate := fun m => record (md_DelegatorAddress m) tt;
  sv_Undelegate := fun m => record (md_DelegatorAddress m) 0;
  sv_BeginRedelegate := fun m => record (br_DelegatorAddress m) 0;
  sv_CancelUnbondingDelegation := fun m => record (cu_DelegatorAddress m) tt;
  qr_Delegation := fun _ _ _ => Err "not found";
  qr_UnbondingDelegation := fun _ _ _ => Err "not found";
  qr_Validator := fun _ _ => Ok trace_validator;
  qr_Validators := fun _ _ _ => Ok ([trace_validator], None);
  qr_Redelegations := fun _ _ _ _ _ => Ok ([], None);
  sk_GetRedelegation := fun _ _ _ _ => MkRedelegation EmptyString EmptyString EmptyString [];
  sk_BondDenom := fun _ => Ok "axit"%string;
  sk_SharesFromTokens := fun _ _ z => Ok (z * 10 ^ 18);
  sk_MaxValidators := fun _ => Ok 100;
  sk_GetDelegatorValidators := fun _ _ _ => Ok [trace_validator; trace_validator];
  db_GetCode := fun _ _ => EmptyString;
  ParseDelegation := fun _ => false;
|}.
#[export] Instance trace_distribution : DistributionModule trace := {|
  sv_SetWithdrawAddress := fun m => record (sw_DelegatorAddress m) tt;
  sv_WithdrawDelegatorReward := fun m => record (wr_DelegatorAddress m) [MkCoin "axit" 5];
  sv_WithdrawValidatorCommission := fun m => record (wc_ValidatorAddress m) [];
  sv_FundCommunityPool := fun m => record (fp_Depositor m) tt;
  sv_DepositValidatorRewardsPool := fun m => record (dp_Depositor m) tt;
  dk_WithdrawDelegationRewards := fun a _ => record a [MkCoin "axit" 7];
  qr_ValidatorDistributionInfo := fun _ _ => Err "not found";
  qr_ValidatorOutstandingRewards := fun _ _ => Ok [];
  qr_ValidatorCommission := fun _ _ => Ok [];
  qr_ValidatorSlashes := fun _ _ _ _ _ => Ok ([], None);
  qr_DelegationRewards := fun _ _ _ => Ok [];
  qr_DelegationTotalRewards := fun _ _ => Ok ([], []);
  qr_DelegatorValidators := fun _ _ => Ok [];
  qr_DelegatorWithdrawAddress := fun _ a => Ok a;
  qr_CommunityPool := fun _ => Ok [];
|}.
#[export] Instance trace_gov : GovModule trace := {|
  sv_SubmitProposal := fun m => record (sp_Proposer m) 1;
  sv_Deposit := fun m => record (de_Depositor m) tt;
  sv_CancelProposal := fun m => record (cp_Proposer m) tt;
  sv_Vote := fun m => record (vo_Voter m) tt;
  sv_VoteWeighted := fun m => record (vw_Voter m) tt;
  UnmarshalInterfaceJSON := fun v => Ok (Marshal v);
  NewAnyWithValue := fun b => Ok b;
  qr_Votes := fun _ _ _ => Ok ([], None);
  qr_Vote := fun _ _ _ => Err "not found";
  qr_Deposit := fun _ _ _ => Err "not found";
  qr_Deposits := fun _ _ _ => Ok ([], None);
  qr_TallyResult := fun _ _ => Err "not found";
  qr_Proposal := fun _ _ => Err "not found";
  qr_Proposals := fun _ _ _ _ _ => Ok ([], None);
  qr_Params := fun _ => Err "not found";
  qr_Constitution := fun _ => Ok EmptyString;
|}.
#[export] Instance trace_slashing : SlashingModule trace := {|
  sv_Unjail := fun m => record (uj_ValidatorAddr m) tt;
  qr_SigningInfo := fun _ _ => Err "not found";
  qr_SigningInfos := fun _ _ => Ok ([], None);
  qr_SlashingParams := fun _ => Err "not found";
|}.

Definition p_alice : addr := of_list (repeat "a"%char 20).
(** An interface of one method, whose arguments are given. *)
Definition one_method (args : list abi_arg) : ABI (list abi_arg) := {|
  Method := unit;
  m_Type := fun _ => Function;
  HasReceive := false;
  HasFallback := false;
  abi_Receive := tt;
  abi_Fallback := tt;
  MethodById := fun _ => Ok tt;
  Unpack := fun _ _ => Ok args;
|}.
Definition p_call : Contract := MkContract p_alice "selector" 0.
Definition p_claim : list abi_arg := [PAddress p_alice; PU32 10].
Definition p_start : LState trace := MkLState [] [].
Definition p_end : LState trace := MkLState [p_alice; p_alice] [EvClaimRewards p_alice 14].

Lemma precompiles_act_for_caller_witness : rtc (sdk_step DistributionP p_alice) ([] : trace) [p_alice; p_alice].
Proof.
  pose proof (precompiles_act_for_caller DistributionP (one_method p_claim) (fun _ => "claimRewards"%string) p_call false p_start p_end) as H.
  exact (H ltac:(vm_compute; reflexivity)).
Defined.

Definition p_key : bytes := of_list (repeat (chr 7) 32).
Lemma consensus_key_roundtrip_witness :
  base64_EncodeToString p_key = "BwcHBwcHBwcHBwcHBwcHBwcHBwcHBwcHBwcHBwcHBwc="%string /\
  NewMsgCreateValidator [PDescription empty_description; PCommission (MkCommission 1 2 3); PBig 1; PAddress p_alice;
    PString (FormatConsensusPubkey (CachedKey p_key)); PBig 1000] "axit" =
  Ok (MkMsgCreateValidator empty_description (MkCommission 1 2 3) 1 ("x" +:+ hex_encode p_alice) (ValAddress_String p_alice) p_key (MkCoin "axit" 1000), p_alice).
Proof.
  split; [vm_compute; reflexivity|].
  exact (consensus_key_roundtrip empty_description (MkCommission 1 2 3) 1 p_alice p_key 1000 "axit" ("x" +:+ hex_encode p_alice)%string
    eq_refl ltac:(by vm_compute) eq_refl eq_refl eq_refl).
Defined.
