(* ===== verification/Ics20Theorems.v ===== *)
(** * The ICS-20 and bank precompiles: theorems

    A transfer of an ERC-20's coin converts exactly what the sender lacks; calls
    that may not write change nothing; what the bank precompile lists and
    charges, and when a bech32 text is read back. *)

From Stdlib Require Import ZArith Lia List String Ascii Bool.
From stdpp Require Import base gmap strings list relations.
From S2P Require Import Prelude GoStrings Sha256 Sdk RefEnv AccessList StateDB Precompile EvmTx StateTransition Erc20Types Erc20Keeper Erc20Convert Erc20Precompile Erc20Facts Erc20Registry Erc20Backing Erc20Theorems PrecompileMsgs StakingPrecompile DistributionPrecompile GovPrecompile SlashingPrecompile Ics20Precompile BankPrecompile PrecompileMsgFacts PrecompileMsgTheorems.
Local Open Scope Z_scope.
Local Open Scope go_scope.

Section ics20.
Context {Ma : SdkMath} {Ty : SdkTypes} {Eth : EthCommon} {El : EthAddrLaws} {Cr : EthCrypto} {Ibc : IbcLibs} {Ab : Erc20Abi}.
Context {B E G : Type} {Bo : BankOps B} {Bl : BankLaws B} {Bk : Erc20Bank B} {Bkl : Erc20BankLaws B}.
Context {Go : GasOps G} {Gl : GasLaws G} {Ev : Erc20Evm B E G} {Evl : Erc20EvmLaws B E G} {It : IbcTransfer B E G}.
Abbreviation W := (World B E G).

(** ** Transfers *)

(** What a completed transfer checked. *)
Lemma Transfer_Ok inCallback caller args (s s' : LState W) out : Transfer inCallback caller args s = (Ok out, s') ->
  exists msg seq msg', inCallback = false /\ NewMsgTransfer args = Ok (msg, caller) /\ out = IOSequence seq /\
    transferWithStateDB msg (ls_world s) = (Ok (seq, msg'), ls_world s') /\
    ls_logs s' = ls_logs s ++ [EvIBCTransfer caller (tr_Receiver msg') (tr_SourcePort msg') (tr_SourceChannel msg') (Denom (tr_Token msg'))
                                 (Amount (tr_Token msg')) (tr_Memo msg')].
Proof.
  intros H. unfold Transfer in H. do 2 tx_step H no_note. destruct x0 as [msg sender]. cbn [fst snd] in H.
  apply mbind_Ok in H as ([] & s1 & Hch & H).
  assert (s1 = s) as -> by (destruct (IsChannelIDFormat (tr_SourceChannel msg)); [by apply read_world_Ok in Hch as [_ ->]|by apply mlift_Ok in Hch as [_ ->]]).
  tx_step H no_note. subst sender. apply mbind_Ok in H as ([seq msg'] & s2 & Ht & H). apply in_world_Ok in Ht as (w & Ht & ->).
  unfold EmitIBCTransferEvent in H. apply mbind_Ok in H as ([] & s3 & Hl & H). apply AddLog_Ok in Hl as ->. apply mret_Ok in H as [-> ->].
  apply negb_true_iff in F. exists msg, seq, msg'. by repeat split.
Qed.

Lemma NewMsgTransfer_sender args msg sender : NewMsgTransfer args = Ok (msg, sender) -> tr_Sender msg = AccAddress_String sender.
Proof.
  unfold NewMsgTransfer, CreateAndValidateMsgTransfer. destruct args as [|a0 [|a1 [|a2 [|a3 [|a4 [|a5 [|a6 [|a7 [|a8 [|]]]]]]]]]]; try done.
  intros H. by minv.
Qed.

Lemma enabled_pair_registered (st : Erc20Store) denom tp : registry_ok st -> enabled_pair denom st = Some tp ->
  tp_Enabled tp = true /\ st_pairs st !! GetID tp = Some tp.
Proof.
  intros Hok H. unfold enabled_pair in H. destruct (no_id (GetTokenPairID denom st)); [done|].
  destruct (GetTokenPair (GetTokenPairID denom st) st) as [p|] eqn:Hp; cbn in H; [|done].
  destruct (tp_Enabled p) eqn:He; [|done]. injection H as <-. split; [done|]. by eapply GetTokenPair_registered.
Qed.

(** The pair found by its contract's address. *)
Lemma pair_by_contract (st : Erc20Store) tp : registry_ok st -> st_pairs st !! GetID tp = Some tp ->
  GetTokenPair (GetTokenPairID (Address_Hex (GetERC20Contract tp)) st) st = Some tp.
Proof.
  intros Hok Hp. unfold GetTokenPairID. rewrite IsHexAddress_Hex by apply contract_addr. rewrite HexToAddress_Hex by apply contract_addr.
  by eapply lookup_by_contract.
Qed.

(** The conversion of a live contract's tokens. *)
Lemma convert_live c d {Ht : HonestToken B E G c d} tp amt receiver sender f (w w' : W) r :
  GetTokenPair (GetTokenPairID (Address_Hex c) (w_store w)) (w_store w) = Some tp -> GetERC20Contract tp = c -> tp_Denom tp = d -> suicided w c = false ->
  ConvertERC20IntoCoinsForNativeToken c amt receiver sender true f w = (Ok r, w') ->
  w_store w' = w_store w /\ slack c d w' = slack c d w /\ token_converted c d amt receiver sender w w'.
Proof.
  intros Hp Hc Hd Hs H. unfold ConvertERC20IntoCoinsForNativeToken in H. apply mbind_Ok in H as (q & w1 & Hm & H).
  apply MintingEnabled_Ok in Hm as (-> & _ & Hq & _). assert (q = tp) as -> by congruence.
  apply mbind_Ok in H as ([] & w1 & Hg & H). apply mguard_Ok in Hg as [_ ->]. rewrite mbind_reads, Hc, Hs in H.
  assert (Hr : r = Some tt) by (minv; by repeat (case_match; minv)). subst r. by apply (escrow_cases c d) in H.
Qed.

(** C16: An ICS-20 transfer of the coin of a registered and enabled ERC-20
    contract, named by its denomination or by the contract's address, that
    completes was called by the sender its arguments name, outside a source
    callback. The contract has not self-destructed and behaves as an ERC-20 token
    ([HonestToken]). When the sender's spendable coins cover the
    amount nothing is converted; otherwise exactly the missing coins are, out of
    the sender's own tokens, the tokens going to the module. The transfer keeper
    then moves the whole amount of the pair's coin, which is what is logged. *)
Theorem ics20_converts_shortfall c d {Ht : HonestToken B E G c d} inCallback caller sender args msg tp (s s' : LState W) out :
  registry_ok (w_store (ls_world s)) -> NewMsgTransfer args = Ok (msg, sender) ->
  AccAddressFromBech32 (AccAddress_String sender) = Ok sender -> is_addr sender ->
  enabled_pair (TrimPrefix (Denom (tr_Token msg)) Erc20NativeCoinDenomPrefix) (w_store (ls_world s)) = Some tp ->
  IsNativeERC20 tp = true -> GetERC20Contract tp = c -> tp_Denom tp = d -> st_enabled (w_store (ls_world s)) = true -> suicided (ls_world s) c = false ->
  Transfer inCallback caller args s = (Ok out, s') ->
  let w := ls_world s in
  let amount := Amount (tr_Token msg) in
  let spendable := bk_SpendableCoin (w_bank w) sender d in
  caller = sender /\ inCallback = false /\ exists w1 seq, out = IOSequence seq /\ tk_Transfer (with_denom msg d) w1 = (Ok seq, ls_world s') /\
    ls_logs s' = ls_logs s ++ [EvIBCTransfer sender (tr_Receiver msg) (tr_SourcePort msg) (tr_SourceChannel msg) d amount (tr_Memo msg)] /\
    if amount <=? spendable then w1 = w
    else w_store w1 = w_store w /\ slack c d w1 = slack c d w /\ token_converted c d (amount - spendable) sender sender w w1.
Proof.
  intros Hok Hmsg Hacc Haddr Htp Hn Hc Hd Hen Hs H w amount spendable.
  apply Transfer_Ok in H as (msg0 & seq & msg' & Hcb & Hmsg0 & -> & Hx & Hlog). rewrite Hmsg in Hmsg0. injection Hmsg0 as <- ->. split; [done|].
  pose proof (NewMsgTransfer_sender _ _ _ Hmsg) as Hsender. destruct (enabled_pair_registered _ _ _ Hok Htp) as [_ Hreg].
  split; [done|]. unfold transferWithStateDB in Hx. rewrite mbind_reads in Hx. fold w in Hok, Htp, Hen, Hs, Hreg, Hx. rewrite Htp, Hsender, Hacc in Hx. cbn [must] in Hx.
  erewrite mbind_lift in Hx by reflexivity. rewrite mbind_reads in Hx.  cbn [GetParams p_EnableErc20] in Hx. rewrite Hen, Hn in Hx. cbn [negb] in Hx.
  rewrite mbind_reads, Hd in Hx. fold spendable in Hx. change (Amount (tr_Token (with_denom msg d))) with amount in Hx.
  destruct (amount <=? spendable).
  - apply mbind_Ok in Hx as (n & w1 & Htr & Hx). apply mret_Ok in Hx as [[= -> ->] ->]. exists w, n. done.
  - apply mbind_Ok in Hx as (diff & w1 & Hsub & Hx). apply mlift_Ok in Hsub as [Hsub ->]. rewrite Int_Sub_spec in Hsub.
    destruct (int_fits _); [|done]. injection Hsub as <-. apply mbind_Ok in Hx as (r & w1 & Hconv & Hx).
    rewrite BytesToAddress_id, Hc in Hconv by done. apply (convert_live c d tp) in Hconv; [|by rewrite <- Hc; apply pair_by_contract|done..].
    apply mbind_Ok in Hx as (n & w2 & Htr & Hx). apply mret_Ok in Hx as [[= -> ->] ->]. exists w1, n. done.
Qed.
End ics20.

(** ** Calls that may not write *)

Section readonly.
Context {Ma : SdkMath} {Ty : SdkTypes} {Eth : EthCommon} {Cr : EthCrypto} {Ibc : IbcLibs} {Ab : Erc20Abi} {Ac : AddrCodecs} {Co : SdkCoins}.
Context {B E G : Type} {Bo : BankOps B} {Bk : Erc20Bank B} {Go : GasOps G} {Ev : Erc20Evm B E G} {It : IbcTransfer B E G}.
Context {W : Type} {Sm : StakingModule W} {Dm : DistributionModule W} {Gm : GovModule W} {Lm : SlashingModule W}.

Lemma ics20_queries_read inCallback caller method args : ics20_IsTransaction method = false ->
  reads_only (ics20_HandleMethod (B := B) (E := E) (G := G) inCallback caller method args).
Proof.
  unfold ics20_IsTransaction, ics20_HandleMethod. intros ->.
  repeat match goal with |- reads_only (if ?b then _ else _) => destruct b end; unfold ics20_Denom, ics20_Denoms, ics20_DenomHash; reads_tac.
Qed.

(** C38: A static call of the staking, distribution, governance, slashing or
    ICS-20 precompile leaves the chain and the logs exactly as they were,
    whatever the input, and whether it returns, fails or panics. *)
Theorem static_calls_change_nothing p api m_Name contract (s : LState W) inCallback (t : LState (World B E G)) :
  (sdk_Execute p api m_Name contract true s).2 = s /\ (ics20_Execute api m_Name inCallback contract true t).2 = t.
Proof.
  split; [apply sdk_readonly|]. symmetry. apply (execute_readonly api m_Name ics20_IsTransaction (ics20_HandleMethod inCallback (ct_Caller contract))).
  intros method args. apply ics20_queries_read.
Qed.
End readonly.

(** ** Witness

    Two hundred coins and eight hundred tokens; a transfer of five hundred. *)

#[export] Instance ref_transfer : IbcTransfer ebank eevm unit := {|
  tk_Transfer := fun m => do! on_bank (esend (tr_Sender m) (emodule "transfer") [tr_Token m]); mret 1;
  tk_Denom := fun _ _ => Err ErrDenomNotFound;
  tk_Denoms := fun _ _ => Ok ([], None);
  tk_DenomHash := fun _ _ => Err ErrDenomNotFound;
  MsgTransfer_ValidateBasic := fun m => oguard (0 <? Amount (tr_Token m)) "invalid amount";
  ck_GetChannel := fun _ _ c => if String.eqb c "channel-0" then Some (MkChannel CH_OPEN ["connection-0"%string]) else None;
  ck_GetConnection := fun _ _ => Ok CO_OPEN;
  Channel_ValidateBasic := fun _ => Ok tt;
  IsChannelIDFormat := has_prefix "channel-";
  ClientIdentifierValidator := fun _ => Err "invalid identifier";
|}.
Definition i_args : list abi_arg :=
  [PString "transfer"; PString "channel-0"; PString (w_hex w_token); PBig 500; PAddress w_alice; PString "remote"; PHeight 0 0; PU64 1; PString EmptyString].
Definition i_msg : MsgTransfer := MkMsgTransfer "transfer" "channel-0" (MkCoin (w_hex w_token) 500) w_alice "remote" (0, 0) 1 EmptyString.
Definition i_pair : TokenPair := MkTokenPair (w_hex w_token) (w_denom w_token) true OWNER_EXTERNAL.
Definition i_start : LState EWorld := MkLState w_3 [].
Definition i_run := Transfer (Eth := ref_eth20) false w_alice i_args i_start.
Lemma ics20_converts_shortfall_witness :
  bk_SpendableCoin (w_bank w_3) w_alice (w_denom w_token) = 200 /\ tok (w_evm (ls_world i_run.2)) w_token w_alice = 500 /\
  GetBalance (w_bank (ls_world i_run.2)) (emodule "transfer") (w_denom w_token) = 500 /\
  exists w1 seq, tk_Transfer (with_denom i_msg (w_denom w_token)) w1 = (Ok seq, ls_world i_run.2).
Proof.
  split; [vm_compute; reflexivity|]. split; [vm_compute; reflexivity|]. split; [vm_compute; reflexivity|].
  pose proof (ics20_converts_shortfall (Eth := ref_eth20) w_token (w_denom w_token) (Ht := w_honest) false w_alice w_alice i_args i_msg i_pair i_start i_run.2 (IOSequence 1)
    w_reached_ok) as H.
  do 9 (specialize (H ltac:(vm_compute; reflexivity))).
  specialize (H (run_returns i_run (IOSequence 1) ltac:(vm_compute; reflexivity))).
  destruct H as (_ & _ & w1 & seq & _ & H & _). exists w1, seq. exact H.
Defined.

(** ** The bank and bech32 precompiles: theorems

    What the bank precompile lists and what it charges for it, and when a bech32
    text is read back. *)

(** ** bank *)

(** A meter adds what is consumed. *)
Class GasCounts (G : Type) {Go : GasOps G} := {
  gas_Consume_adds z g g' : gas_Consume z g = (Ok tt, g') -> gas_Consumed g' = gas_Consumed g + z;
}.

Section bank.
Context {Ty : SdkTypes} {Eth : EthCommon} {Ibc : IbcLibs}.
Context {B E G : Type} {Bo : BankOps B} {Bi : BankIter B} {Go : GasOps G} {Gc : GasCounts G}.
Abbreviation W := (World B E G).

(** The coins that have a contract, with its address. *)
Definition listed (st : Erc20Store) (coins : list Coin) : list Balance :=
  omap (fun c => match GetCoinAddress (Denom c) st with Ok a => Some (MkBalance a (Amount c)) | _ => None end) coins.

Definition but_gas (w w' : W) : Prop := w_store w' = w_store w /\ w_bank w' = w_bank w /\ w_evm w' = w_evm w.

Lemma charge_Ok z (w : W) u w' : on_gas (gas_Consume z) w = (Ok u, w') -> but_gas w w' /\ gas_Consumed (w_gas w') = gas_Consumed (w_gas w) + z.
Proof.
  unfold on_gas. destruct (gas_Consume z (w_gas w)) as [r g] eqn:H. intros [= -> <-]. destruct u. by apply gas_Consume_adds in H.
Qed.

Lemma visit_later gas i acc coins (w w' : W) l : (0 < i)%nat -> visit_coins gas i acc coins w = (Ok l, w') ->
  l = acc ++ listed (w_store w) coins /\ but_gas w w' /\ gas_Consumed (w_gas w') = gas_Consumed (w_gas w) + gas * Z.of_nat (List.length coins).
Proof.
  revert i acc w. induction coins as [|c coins IH]; intros i acc w Hi H; cbn [visit_coins] in H.
  - apply mret_Ok in H as [-> ->]. cbn. rewrite app_nil_r. split; [done|]. split; [done|lia].
  - rewrite (proj2 (Nat.ltb_lt 0 i)) in H by lia. apply mbind_Ok in H as ([] & w1 & Hg & H). apply charge_Ok in Hg as [(S1 & B1 & E1) G1].
    rewrite mbind_reads, S1 in H. unfold listed. cbn [omap list_omap]. cbn [List.length].
    destruct (GetCoinAddress (Denom c) (w_store w)) as [a|e|e]; [| |done];
      (apply IH in H as (-> & (S2 & B2 & E2) & G2); [|lia]); rewrite S1; (split; [|split; [unfold but_gas; split_and!; congruence|rewrite G2, G1, Nat2Z.inj_succ, Z.mul_succ_r; lia]]).
    + by rewrite <- app_assoc.
    + done.
Qed.

Lemma visit_Ok gas coins (w w' : W) l : visit_coins gas 0 [] coins w = (Ok l, w') ->
  l = listed (w_store w) coins /\ but_gas w w' /\ gas_Consumed (w_gas w') + gas = gas_Consumed (w_gas w) + gas * Z.max 1 (Z.of_nat (List.length coins)).
Proof.
  destruct coins as [|c coins]; cbn [visit_coins]; [intros [-> ->]%mret_Ok; split; [done|]; split; [done|cbn [List.length]; change (Z.max 1 (Z.of_nat 0)) with 1; lia]|].
  change (0 <? 0)%nat with false. intros ([] & w1 & [_ ->]%mret_Ok & H)%mbind_Ok. rewrite mbind_reads in H. unfold listed. cbn [omap list_omap List.length].
  destruct (GetCoinAddress (Denom c) (w_store w)) as [a|e|e]; [| |done]; apply visit_later in H as (-> & Hw & ->); try lia;
    (split; [done|split; [done|rewrite Z.max_r, Nat2Z.inj_succ, Z.mul_succ_r by lia; lia]]).
Qed.

(** The balances and the total supply that the bank precompile returns are
    the account's or the chain's coins that have an ERC-20 contract, in the order
    of the bank and with the bank's amounts; nothing is written; and together
    with the gas required for the call, the call costs one query per coin that
    was visited, whether it is returned or not. *)
Theorem bank_lists_and_charges method args (w w' : W) l : bank_HandleMethod method args w = (Ok (BOBalances l), w') ->
  exists coins,
    (method = "balances"%string /\ (exists account, args = [PAddress account] /\ coins = bk_AccountBalances (w_bank w) account) \/
     method = "totalSupply"%string /\ coins = bk_TotalSupply (w_bank w)) /\
    l = listed (w_store w) coins /\ but_gas w w' /\
    bank_method_gas method + (gas_Consumed (w_gas w') - gas_Consumed (w_gas w)) = bank_method_gas method * Z.max 1 (Z.of_nat (List.length coins)).
Proof.
  unfold bank_HandleMethod, bank_method_gas. destruct (String.eqb_spec method "balances") as [->|_]; [|destruct (String.eqb_spec method "totalSupply") as [->|_]].
  - unfold Balances. intros (account & w1 & [Ha%owrap_Ok ->]%mlift_Ok & H)%mbind_Ok. rewrite mbind_reads in H.
    apply mbind_Ok in H as (l' & w2 & Hv & H). apply mret_Ok in H as [[= ->] ->]. apply visit_Ok in Hv as (-> & Hw & Hg).
    eexists. split; [left; split; [done|]; exists account; split; [|done]|split; [done|split; [done|lia]]].
    destruct args as [|[] [|]]; cbn in Ha; congruence.
  - unfold TotalSupply. intros H. rewrite mbind_reads in H. apply mbind_Ok in H as (l' & w2 & Hv & H). apply mret_Ok in H as [[= ->] ->].
    apply visit_Ok in Hv as (-> & Hw & Hg). eexists. split; [by right|]. split; [done|]. split; [done|lia].
  - destruct (String.eqb method "supplyOf"); [|by intros H; minv]. unfold SupplyOf. intros H. minv.
    destruct (GetTokenPair _ _); by minv.
Qed.
End bank.

(** ** bech32 *)

(** A text is the prefix, the separator and data without the separator, as
    BIP-173 has it; decoding checks the prefix, in lower case, against the
    expected one. *)
Definition has_one (s : string) : bool := existsb (fun c => ord c =? 49) (to_list s).
Class Bech32Laws {U : UnicodeTables} {Be : Bech32} := {
  b32_encode_shape p b s : ToLower p = p -> b32_encode p b = Ok s -> exists d, s = (p +:+ String "1" d)%string /\ has_one d = false;
  b32_decode_encode p b s : ToLower p = p -> b <> EmptyString -> b32_encode p b = Ok s -> GetFromBech32 s p = Ok b;
  b32_decode_prefix s q b : GetFromBech32 s q = Ok b -> exists p d, s = (p +:+ String "1" d)%string /\ has_one d = false /\ ToLower p = q;
  GetFromBech32_returns s q : forall e, GetFromBech32 s q <> Panic e;
}.

Section bech32.
Context {U : UnicodeTables} {Be : Bech32} {Bel : Bech32Laws}.

Lemma before_one_app p d : has_one p = false -> before_one (p +:+ String "1" d)%string = p.
Proof.
  unfold has_one. induction p as [|c p IH]; [done|]. cbn [to_list list_ascii_of_string existsb]. intros [Hc Hp]%orb_false_iff.
  rewrite string_app_cons. cbn [before_one]. rewrite Hc. by rewrite IH.
Qed.
Lemma before_one_split p d : has_one p = true -> exists q t, p = (q +:+ String "1" t)%string /\ before_one (p +:+ String "1" d)%string = q /\ has_one q = false.
Proof.
  unfold has_one. induction p as [|c p IH]; [done|]. cbn [to_list list_ascii_of_string existsb]. intros H.
  rewrite string_app_cons. cbn [before_one]. destruct (ord c =? 49) eqn:Hc.
  - apply Z.eqb_eq in Hc. assert (c = "1"%char) as -> by (rewrite <- (chr_ord c), Hc; done). by exists EmptyString, p.
  - destruct (IH H) as (q & t & -> & Hq & Hn). exists (String c q), t. rewrite string_app_cons. rewrite Hq. split; [done|]. split; [done|].
    cbn [to_list list_ascii_of_string existsb]. by rewrite Hc.
Qed.

(** Data without the separator determines where it starts. *)
Lemma last_one_unique p d p' d' : has_one d = false -> has_one d' = false -> (p +:+ String "1" d = p' +:+ String "1" d')%string -> p = p' /\ d = d'.
Proof.
  assert (Hno : forall t x, has_one (t +:+ String "1" x)%string = true).
  { intros t x. unfold has_one. rewrite to_list_app, existsb_app. cbn. by rewrite orb_true_r. }
  intros Hd Hd'. revert p'. induction p as [|c p IH]; intros [|c' p']; rewrite ?string_app_cons, ?string_app_nil_l; intros H; simplify_eq.
  - done.
  - by rewrite Hno in Hd.
  - by rewrite Hno in Hd'.
  - edestruct IH as [-> ->]; [eassumption|done].
Qed.

(** A bech32 text made by hexToBech32 with a lower-case prefix is read back
    by bech32ToHex as the same address when the prefix has no digit 1, and is
    refused when it has one: bech32ToHex takes the prefix to end at the first 1,
    bech32 at the last. *)
Theorem bech32_roundtrip a p s : String.length a = 20%nat -> ToLower p = p ->
  HexToBech32 [PAddress a; PString p] = Ok (XOString s) ->
  if has_one p then exists e, Bech32ToHex [PString s] = Err e else Bech32ToHex [PString s] = Ok (XOAddress a).
Proof.
  intros Ha Hp H. unfold HexToBech32 in H. cbn [obind arg_string_or_empty] in H. apply obind_Ok in H as ([] & _ & H).
  apply obind_Ok in H as ([] & Hv & H). apply obind_Ok in H as (t & He & H). injection H as ->.
  destruct (b32_encode_shape p a s Hp He) as (d & Hs & Hd). unfold Bech32ToHex.
  assert (Hne : String.eqb s EmptyString = false) by (subst s; by destruct p). rewrite Hne. cbn [obind].
  destruct (has_one p) eqn:Hone.
  - destruct (before_one_split p d Hone) as (q & t & Hq & Hb & Hnq). subst s. rewrite Hb.
    destruct (oguard _ _) as [[]|e|e] eqn:Hg; cbn [obind]; [|by eexists|unfold oguard in Hg; by destruct (negb _)].
    destruct (GetFromBech32 _ q) as [b|e|e] eqn:Hget; cbn [obind]; [|by eexists|by destruct (GetFromBech32_returns _ _ _ Hget)]. exfalso.
    apply b32_decode_prefix in Hget as (p' & d' & Heq & Hd' & Hl). apply last_one_unique in Heq as [<- _]; [|done..].
    rewrite Hp in Hl. congruence.
  - subst s. rewrite (before_one_app p d Hone).
    assert (Hpd : String.eqb p (p +:+ String "1" d) = false).
    { apply String.eqb_neq. intros Heq. apply (f_equal String.length) in Heq. rewrite string_app_length in Heq. cbn in Heq. lia. }
    rewrite Hpd. cbn [negb oguard obind]. rewrite (b32_decode_encode p a); [|done|by destruct a|done]. cbn [obind]. rewrite Hv. cbn [obind].
    by rewrite BytesToAddress_id.
Qed.
End bech32.

(** ** Witnesses *)

(** A meter without a limit, and a bank that is the lists it iterates over. *)
#[export] Instance count_gas : GasOps Z := {|
  gas_Consumed := fun g => g;
  gas_Limit := fun _ => 0;
  gas_Refund := fun z g => (Ok tt, g - z);
  gas_Consume := fun z g => (Ok tt, g + z);
|}.
#[export] Instance count_gas_counts : GasCounts Z.
Proof. split. by intros z g g' [= <-]. Qed.
#[export] Instance ref_iter : BankIter ebank := {|
  bk_AccountBalances := fun b a => omap (fun kv => if String.eqb kv.1.1 a then Some (MkCoin kv.1.2 (Z.of_N kv.2)) else None) (map_to_list (eb_bal b));
  bk_TotalSupply := fun b => (fun kv => MkCoin kv.1 kv.2) <$> map_to_list (eb_sup b);
|}.
(** Two coins, one of them without a contract. *)
Definition b_world : World ebank eevm Z :=
  MkWorld (w_store w_3) (EBank {[(w_alice, w_denom w_token) := 200%N; (w_alice, "axit"%string) := 9%N]} ∅ ∅) (w_evm w_3) 100.
Definition b_run := bank_HandleMethod (Eth := ref_eth20) "balances" [PAddress w_alice] b_world.
Lemma bank_lists_and_charges_witness : w_gas b_run.2 = 2951 /\
  exists coins, [MkBalance w_token 200] = listed (Eth := ref_eth20) (w_store b_world) coins /\ but_gas b_world b_run.2.
Proof.
  split; [vm_compute; reflexivity|].
  pose proof (bank_lists_and_charges (Eth := ref_eth20) "balances" [PAddress w_alice] b_world b_run.2 [MkBalance w_token 200]) as H.
  specialize (H (run_returns b_run (BOBalances [MkBalance w_token 200]) ltac:(vm_compute; reflexivity))).
  destruct H as (coins & _ & H1 & H2 & _). by exists coins.
Defined.

(** Bech32 with letters for the half bytes, none of them the separator. *)
Definition letter (c : ascii) : ascii := chr (ord c + 49).
Definition unletter (c : ascii) : ascii := chr (ord c - 49).
Definition half_bytes (s : string) : string := of_list (map letter (to_list (hex_encode s))).
Definition unhalf (s : string) : option string := hex_decode (of_list (map unletter (to_list s))).
Fixpoint last_one (s : string) : option (string * string) :=
  match s with
  | EmptyString => None
  | String c s' => match last_one s' with Some (p, d) => Some (String c p, d) | None => if ord c =? 49 then Some (EmptyString, s') else None end
  end.
#[export] Instance ref_b32 : Bech32 := {|
  b32_encode := fun p b => Ok (p +:+ String "1" (half_bytes b))%string;
  GetFromBech32 := fun s q =>
    match last_one s with
    | Some (p, d) => if String.eqb (ToLower p) q then match unhalf d with Some b => Ok b | None => Err "invalid data" end else Err "invalid prefix"
    | None => Err "invalid separator"
    end;
  VerifyAddressFormat := fun b => oguard (len b =? 20) "address length";
|}.

Lemma letters_back l : forallb lower_hex l = true -> map unletter (map letter l) = l /\ existsb (fun c => ord c =? 49) (map letter l) = false.
Proof.
  induction l as [|c l IH]; cbn [forallb map existsb]; [done|]. intros [Hc%lower_hex_range Hl]%andb_true_iff. destruct (IH Hl) as [-> ->].
  unfold unletter, letter. rewrite !ord_chr by lia. replace (ord c + 49 - 49) with (ord c) by lia. rewrite chr_ord. split; [done|].
  rewrite orb_false_r. apply Z.eqb_neq. lia.
Qed.
Lemma half_bytes_back b : unhalf (half_bytes b) = Some b /\ has_one (half_bytes b) = false.
Proof.
  unfold unhalf, has_one, half_bytes. rewrite !to_of_list. destruct (letters_back (to_list (hex_encode b))) as [-> ->]; [apply hex_encode_lower|].
  by rewrite of_to_list, hex_decode_encode.
Qed.
Lemma last_one_None s : last_one s = None -> has_one s = false.
Proof.
  unfold has_one. induction s as [|c s IH]; [done|]. cbn [last_one to_list list_ascii_of_string existsb].
  destruct (last_one s) as [[p d]|]; [done|]. destruct (ord c =? 49); [done|]. intros _. by apply IH.
Qed.
Lemma last_one_Some s p d : last_one s = Some (p, d) -> s = (p +:+ String "1" d)%string /\ has_one d = false.
Proof.
  revert p d. induction s as [|c s IH]; intros p d; cbn [last_one]; [done|]. destruct (last_one s) as [[p' d']|] eqn:Hl.
  - intros [= <- <-]. destruct (IH p' d' eq_refl) as [-> Hd]. done.
  - destruct (ord c =? 49) eqn:Hc; [|done]. intros [= <- <-]. apply Z.eqb_eq in Hc.
    split; [|by apply last_one_None]. by rewrite <- (chr_ord c), Hc.
Qed.
Lemma last_one_app p d : has_one d = false -> last_one (p +:+ String "1" d)%string = Some (p, d).
Proof.
  intros Hd. destruct (last_one (p +:+ String "1" d)%string) as [[p' d']|] eqn:Hl.
  - apply last_one_Some in Hl as [Heq Hd']. by apply last_one_unique in Heq as [-> ->].
  - apply last_one_None in Hl. revert Hl. unfold has_one. rewrite to_list_app, existsb_app. cbn. by rewrite orb_true_r.
Qed.
#[export] Instance ref_b32_laws : Bech32Laws.
Proof.
  split.
  - intros p b s _ [= <-]. exists (half_bytes b). split; [done|apply half_bytes_back].
  - intros p b s Hp _ [= <-]. destruct (half_bytes_back b) as [Hu Hn]. cbn [GetFromBech32 ref_b32]. rewrite last_one_app by done.
    by rewrite Hp, String.eqb_refl, Hu.
  - intros s q b. cbn [GetFromBech32 ref_b32]. destruct (last_one s) as [[p d]|] eqn:Hl; [|done]. destruct (String.eqb_spec (ToLower p) q) as [Hq|]; [|done].
    intros _. exists p, d. by apply last_one_Some in Hl as [? ?].
  - intros s q e. cbn [GetFromBech32 ref_b32]. destruct (last_one s) as [[p d]|]; [|done]. destruct (String.eqb (ToLower p) q); [|done]. by destruct (unhalf d).
Qed.

Definition b_text : string := ("xit" +:+ String "1" (half_bytes w_alice))%string.
Lemma bech32_roundtrip_witness : Bech32ToHex [PString b_text] = Ok (XOAddress w_alice) /\
  exists e, Bech32ToHex [PString ("x1t" +:+ String "1" (half_bytes w_alice))%string] = Err e.
Proof.
  split.
  - exact (bech32_roundtrip w_alice "xit" b_text eq_refl ltac:(vm_compute; reflexivity) ltac:(vm_compute; reflexivity)).
  - exact (bech32_roundtrip w_alice "x1t" ("x1t" +:+ String "1" (half_bytes w_alice))%string eq_refl ltac:(vm_compute; reflexivity) ltac:(vm_compute; reflexivity)).
Defined.
